(* ===== verification/_CoqProject ===== *)
-Q . S2P
Prelude.v
PyStrings.v
PyDict.v
PyRegex.v
PyTime.v
PyIso.v
PyFloat.v
PyDecimal.v
PyFloatText.v
PyDecimalText.v
PyDecimalGrid.v
FloatOrder.v
PyJson.v
PyModel.v
HarnessContracts.v
HarnessStateMachine.v
HarnessSession.v
LoopGuard.v
JobStore.v
JobLedger.v
TaskQueue.v
TaskSystem.v
CircuitBreaker.v
Resilience.v
ConfidenceGate.v
WorkflowPricing.v
WorkflowBudget.v
WorkflowObservation.v
HarnessCheckpoints.v
HarnessBudget.v
HarnessKernel.v
ExecutionBackend.v
KernelRun.v
BackendRun.v
HarnessKernelInvariant.v
AgentDriver.v
HedgeModels.v
HedgeStore.v
HedgePolicy.v
HedgeExecutor.v
HedgeCoordinator.v
RiskSession.v
