(* ===== verification/Prelude.v ===== *)
(** * agent-trader: a verification development

    agent-trader runs multi-agent trading workflows.  This library models the parts
    of it that decide: which transition of a run is legal, which event is committed,
    who holds a lease, what a workflow may still spend, which model call may be sent,
    what a job may do next, and which orders the funding hedge submits.  Every
    definition is a translation of the Python under src/; what is not Python of this
    repository (pydantic, sha256, SQL engines, the exchange SDK, clocks) is an argument
    of the definitions that use it.

    ** How the parts interact

    A run of the harness is an append-only stream of events. HarnessSession.v keeps the
    streams and folds one into a session view; HarnessStateMachine.v says which
    transitions that view allows, over the contracts of HarnessContracts.v; LoopGuard.v
    stops a run that repeats itself. HarnessKernel.v drives a run through all of them:
    each of its operations reads the stream, asks the budget, the loop guard and the
    confidence gate of ConfidenceGate.v, commits an authority and then the transition it
    authorises, and tells the execution backend of ExecutionBackend.v, which verifies it
    and projects it. WorkflowObservation.v is what the host observed of the execution,
    HarnessCheckpoints.v and HarnessBudget.v what the kernel demands of it when it reads
    it back from the stream. The workflow of a run calls models through the driver of
    AgentDriver.v, which charges what WorkflowPricing.v computes, retries as Resilience.v
    decides and asks the breaker of CircuitBreaker.v before each call; WorkflowBudget.v is
    the ledger of a whole workflow. Runs are background jobs: TaskQueue.v executes them
    over a repository of JobStore.v, and TaskSystem.v lets any number of workers do so at
    once. The funding hedge is a separate program: HedgeCoordinator.v polls, HedgePolicy.v
    decides, HedgeExecutor.v submits and HedgeStore.v keeps the cycle between polls. The
    market agent is a third: of it, RiskSession.v is the part that protects an open
    position in stages and closes it.

    ** Files

    The foundations, in the order of _CoqProject:
    - Prelude: exceptions as values ([result]), stateful computations that keep their
      state when they raise ([io]) with their Hoare rules, shared tactics.
    - PyStrings, PyDict, PyRegex, PyTime, PyIso, PyFloat, PyFloatText, PyDecimal,
      PyDecimalText, PyDecimalGrid, FloatOrder, PyJson: what the program uses of Python's
      strings, dictionaries, [re], [datetime], [float] (binary64 spec floats), [decimal]
      (28 digits, half even) and parsed JSON.
    - PyModel: pydantic contracts as idempotent cleaners (class [Idem]).

    The components, each with the file of src/ it models:
    - HarnessContracts: market_agent/workflow_harness_contracts.py.  States, records and
      their validators; the dependency graph is acyclic exactly when it is accepted.
    - HarnessStateMachine: market_agent/workflow_state_machine.py.  [validate] and
      [apply]; [apply] refines the abstract lifecycle and needs its authorisation.
    - HarnessSession: market_agent/workflow_session.py.  Events, [fold_events], [append],
      [acquire_lease]; the store of every reachable state replays, streams only grow,
      work transitions hold their lease, stale counters never commit.
    - LoopGuard: market_agent/workflow_loop_guard.py.  Fingerprints, cycles, progress.
    - ConfidenceGate: market_agent/workflow_confidence_calibration.py.  Success is earned:
      [evaluate] allows it exactly when everything the host pins is matched.
    - WorkflowObservation: workflow_observation.py, workflow_embedding_work_item.py.
    - HarnessCheckpoints, HarnessBudget, HarnessKernel: workflow_harness.py (checkpoints
      and their sequence; the durable budget and its settlement evidence; the operations
      create, resume, advance, cancel, record_checkpoint, terminal_receipt, handle), with
      the records of workflow_execution_backend.py.  HarnessKernelInvariant proves what
      every store these operations can leave has in common.
    - ExecutionBackend: workflow_execution_backend.py.  Start, resume, advance and cancel
      with their locked halves, the verification of committed authorities and
      transitions, the RSA padding of the pinned key; a table of runs is its abstract
      specification.
    - KernelRun, BackendRun: runs of the whole kernel, computed on a plan; in KernelRun
      the backend is an arbitrary environment, in BackendRun it is ExecutionBackend.
    - JobStore, JobLedger: market_agent/backend/database.py.  The SQLite and PostgreSQL
      repositories refine one ledger (class [JobRepository]), PostgreSQL except where a
      row cannot be read back, and then the store is unchanged.
    - TaskQueue, TaskSystem: market_agent/backend/task_queue.py.  The queue as programs
      that ask their environment, and their interleavings over one repository.
    - CircuitBreaker: market_agent/workflow_circuit_breaker.py, equal to a reference
      decision on the log of what was asked and recorded.
    - Resilience: workflow_retry_policy.py, workflow_fallback.py, workflow_cancellation.py
      and backend/cancellation_store.py.
    - WorkflowPricing, WorkflowBudget: openai_usage.py, workflow_model_routing.py and
      workflow_budget.py.  Costs are exact, and the ledger conserves them.
    - AgentDriver: workflow_agent_driver.py.  Dispatches are admitted, probes are settled,
      an answer that used the memory is delivered while the memory is valid, the driver
      terminates, for every environment and every use others make of the breaker meanwhile.
    - HedgeModels, HedgeStore, HedgePolicy, HedgeExecutor, HedgeCoordinator:
      funding_fee_avoidance/models.py, config.py, state_store.py, policy.py, executor.py
      and state_machine.py.  A cycle submits each order once, after its intent is on
      disk, within its caps.
    - RiskSession: market_agent/agent_risk_session.py, with the price levels of
      agent_materialization.py.  Targets, the soft stop of each stage, the trailing stop
      and the average true range it follows, the rules that fire and the exchange orders.

    ** What the theorems show

    - Authority before effect: [apply] refines the lifecycle of the specification and
      needs an authorisation; work transitions hold an unexpired lease, a superseded
      lease is fenced; in every stream the kernel can leave, through any sequence of
      operations, exceptions and restarts, a transition is preceded by the authority that
      names it, and a run that succeeded has an authority earned by the verdict of the
      gate the host's factory made for it, with its settlement.  The backend accepts exactly what its table of runs accepts, the
      authority it projects only grows, each transition is projected at most once, and
      the state it projects is the one the state machine computes.
    - Durability: a reachable store replays; appends are optimistic; checkpoints only
      progress and the budget replayed from a stream only shrinks; a hedge run that is
      cut at any point never repeats an open; both job repositories are one ledger.
    - Protection: whatever a risk session goes through, its stages only advance, and from
      the second target on its trailing stop only tightens and stays beyond its floor (of a
      short, on an exchange that answers prices: [orderly]); the two computations of the
      average true range agree.
    - Bounds: the loop guard's registries, the number of attempts, costs within exact
      decimals, hedge quantities within every cap.
    - Exactness: the gate, the cycle search, the acyclicity test, the breaker, the
      cancellation registry and the opening of a hedge are proved equal to what they
      mean, in both directions.
    - Termination and errors: the driver answers whatever its environment does;
      reservations are closed once; stale counters are refused.

    ** Bounds and fuel

    The dependency search is fuelled by the number of work items, which its visited set
    exhausts; the driver's loop by the attempts left plus one, the model tiers of a
    fallback are three, and [execute_terminates] proves the fuel is never what ends it.
    The shortest decimal text of a float needs at most 17 digits.  Costs are exact for
    usages and prices below the bounds stated in WorkflowPricing
    ([MAX_TOKENS] and [MAX_TOOL_PRICE]), far above what a provider answers.

    ** What the model takes as given

    A parameter stands for code that is not under src/: the texts pydantic and [json] read
    and write, sha256, the signatures of the confidence artifacts, the clock, secret
    tokens, SQL engines (each statement is atomic), the exchange SDK, the [invoke] of the
    backend's graph. Locks are the atomicity of the operation they protect. A regular
    expression is a matcher proved equal to its declarative semantics. A Python object
    that is only compared by identity, such as a budget reservation, is a number. The
    latencies the agent driver reports are of clocks whose differences are finite: the
    [OverflowError] or [ValueError] of [int] on an infinite or NaN latency is left out.

    ** Not modelled

    The rest of the market agent, its exchange client and the watchers are network input
    and output around prompts: of a risk session, the state file, the matching of fills,
    the replacement of orders and what triggers the early exits are left out. The memory, caches and
    coordinators of the workflow are wiring over SQL, embeddings and langgraph, whose own
    logic is in the contracts they share with the modelled parts; the web trading demo,
    scripts, evaluation and logging decide nothing the other parts rely on. The theorems
    on the kernel hold for every backend that answers it, the modelled one among them. *)
From Stdlib Require Export ZArith Lia Ascii String.
From stdpp Require Export base tactics list strings gmap relations.
#[export] Set Default Goal Selector "!".

(** ** Exceptions and fallible computations

    A Python exception is its class name and its message.  Every fallible
    operation of the program returns a [result]. *)
Record exn := Exn { exn_class : string; exn_msg : string }.
#[export] Instance exn_eq_dec : EqDecision exn.
Proof. solve_decision. Defined.

Inductive result (A : Type) : Type :=
  | Ok (a : A)
  | Raise (e : exn).
Arguments Ok {A} a.
Arguments Raise {A} e.

#[export] Instance result_eq_dec `{EqDecision A} : EqDecision (result A).
Proof. solve_decision. Defined.

#[export] Instance result_ret : MRet result := fun A a => Ok a.
#[export] Instance result_bind : MBind result := fun A B f m =>
  match m with Ok a => f a | Raise e => Raise e end.
#[export] Instance result_fmap : FMap result := fun A B f m =>
  match m with Ok a => Ok (f a) | Raise e => Raise e end.

Definition ValueError (msg : string) : exn := Exn "ValueError" msg.
Definition TypeError (msg : string) : exn := Exn "TypeError" msg.
Definition RuntimeError (msg : string) : exn := Exn "RuntimeError" msg.
Definition KeyError (msg : string) : exn := Exn "KeyError" msg.
(** pydantic's rejection of a value by a declared constraint or validator. *)
Definition ValidationError (msg : string) : exn := Exn "ValidationError" msg.

(** [o is not None] *)
Definition is_Some_b {A} (o : option A) : bool := match o with Some _ => true | None => false end.

(** [check b e]: [if not b: raise e]. *)
Definition check (b : bool) (e : exn) : result unit :=
  if b then Ok tt else Raise e.
(** [raise_when b e]: [if b: raise e]. *)
Definition raise_when (b : bool) (e : exn) : result unit :=
  if b then Raise e else Ok tt.

Definition is_ok {A} (m : result A) : bool :=
  match m with Ok _ => true | Raise _ => false end.

(** [except_as m e]: [try: m except Exception: raise e]. *)
Definition except_as {A} (m : result A) (e : exn) : result A :=
  match m with Ok a => Ok a | Raise _ => Raise e end.

Section result_lemmas.
  Context {A B : Type}.

Lemma bind_Ok (m : result A) (f : A -> result B) b :
    m ≫= f = Ok b <-> exists a, m = Ok a /\ f a = Ok b.
  Proof. split; [destruct m; [eauto|done]|by intros (? & -> & ?)]. Qed.

Lemma bind_Raise (m : result A) (f : A -> result B) e :
    m ≫= f = Raise e <-> m = Raise e \/ exists a, m = Ok a /\ f a = Raise e.
  Proof.
    split; [destruct m; simpl; [eauto|intros [= ->]; auto]|by intros [->|(? & -> & ?)]].
  Qed.

Lemma fmap_Ok (m : result A) (f : A -> B) b :
    f <$> m = Ok b <-> exists a, m = Ok a /\ b = f a.
  Proof.
    split; [destruct m; [intros [= <-]; eauto|done]|by intros (? & -> & ->)].
  Qed.

Lemma except_as_Ok (m : result A) e a : except_as m e = Ok a <-> m = Ok a.
  Proof. destruct m; simpl; naive_solver. Qed.
End result_lemmas.

Lemma mapM_Ok {A B} (f : A -> result B) l k :
  mapM f l = Ok k <-> Forall2 (fun a b => f a = Ok b) l k.
Proof.
  revert k. induction l as [|a l IH]; intros k; simpl.
  - split; [intros [= <-]; constructor|]. by inversion 1.
  - rewrite bind_Ok. setoid_rewrite bind_Ok. split.
    + intros (b & Hb & k' & Hk & [= <-]). constructor; [done|]. by apply IH.
    + inversion 1 as [|? b ? k' Hb Hk]; subst. exists b. split; [done|].
      exists k'. split; [by apply IH|done].
Qed.
Lemma never_Ok {A} (m : result A) : (forall a, m <> Ok a) -> is_ok m = false.
Proof. destruct m as [a|e]; [|done]. intros H. by destruct (H a). Qed.

Lemma check_Ok b e u : check b e = Ok u <-> b = true.
Proof. destruct b, u; naive_solver. Qed.
Lemma raise_when_Ok b e u : raise_when b e = Ok u <-> b = false.
Proof. destruct b, u; naive_solver. Qed.


(** Peel a hypothesis [_ = Ok _] made of binds and checks. *)
Ltac inv_ok H :=
  repeat match type of H with
  | _ ≫= _ = Ok _ =>
      let a := fresh "a" in let Ha := fresh "Hok" in
      apply bind_Ok in H; destruct H as (a & Ha & H)
  | Ok _ = Ok _ => injection H as H
  | Raise _ = Ok _ => discriminate H
  end.
Ltac inv_checks :=
  repeat match goal with
  | H : check _ _ = Ok _ |- _ => apply check_Ok in H
  | H : raise_when _ _ = Ok _ |- _ => apply raise_when_Ok in H
  | H : Ok _ = Ok _ |- _ => injection H as H
  | H : Raise _ = Ok _ |- _ => discriminate H
  | H : except_as _ _ = Ok _ |- _ => apply except_as_Ok in H
  end.
(** Case analysis on the scrutinee of the goal's or a hypothesis's match. *)
Ltac split_if :=
  match goal with
  | H : context [if ?b then _ else _] |- _ => destruct b eqn:?
  | |- context [if ?b then _ else _] => destruct b eqn:?
  end.

(** ** Stateful computations

    An operation on an object: the state it leaves, which an exception keeps, and
    its value or the exception. *)
Definition io (S A : Type) : Type := S -> S * result A.
#[export] Instance io_ret S : MRet (io S) := fun A a s => (s, Ok a).
#[export] Instance io_bind S : MBind (io S) := fun A B f m s =>
  match m s with
  | (s, Ok a) => f a s
  | (s, Raise e) => (s, Raise e)
  end.
Definition lift {S A} (r : result A) : io S A := fun s => (s, r).
Definition modify {S} (f : S -> S) : io S unit := fun s => (f s, Ok tt).
Definition read {S A} (f : S -> A) : io S A := fun s => (s, Ok (f s)).

Lemma io_bind_inv {S A B} (m : io S A) (f : A -> io S B) s s' r :
  (m ≫= f) s = (s', r) ->
  (exists s1 a, m s = (s1, Ok a) /\ f a s1 = (s', r)) \/ (exists e, m s = (s', Raise e) /\ r = Raise e).
Proof.
  unfold mbind, io_bind. destruct (m s) as [s1 [a|e]]; [eauto|]. intros [= <- <-]. eauto.
Qed.
Lemma lift_inv {S A} (m : result A) (s s' : S) r : lift m s = (s', r) -> s' = s /\ r = m.
Proof. by intros [= <- <-]. Qed.

(** An operation keeps an invariant of the state, and its value satisfies [Q]. *)
Definition keeps {S A} (I : S -> Prop) (m : io S A) (Q : A -> Prop) : Prop :=
  forall s, I s -> I (m s).1 /\ forall a, (m s).2 = Ok a -> Q a.
Lemma keeps_bind {S A B} (I : S -> Prop) (m : io S A) (f : A -> io S B) Q R :
  keeps I m Q -> (forall a, Q a -> keeps I (f a) R) -> keeps I (m ≫= f) R.
Proof.
  intros Hm Hf s Hs. unfold mbind, io_bind. destruct (Hm s Hs) as [H1 H2].
  destruct (m s) as [s1 [a|e]]; simpl in *; [|done]. apply Hf; auto.
Qed.
Lemma keeps_lift {S A} (I : S -> Prop) (r : result A) Q : (forall a, r = Ok a -> Q a) -> keeps I (lift r) Q.
Proof. intros H s Hs. split; [done|]. intros a [= E]. by apply H. Qed.
Lemma keeps_ret {S A} (I : S -> Prop) (a : A) (Q : A -> Prop) : Q a -> keeps I (mret a) Q.
Proof. intros H s Hs. split; [done|]. by intros ? [= <-]. Qed.
Lemma keeps_modify {S} (I : S -> Prop) f : (forall s, I s -> I (f s)) -> keeps I (modify f) (fun _ => True).
Proof. intros H s Hs. split; [by apply H|done]. Qed.
Lemma keeps_read {S A} (I : S -> Prop) (f : S -> A) : keeps I (read f) (fun _ => True).
Proof. intros s Hs. done. Qed.

(** [try: m except Exception as e: h e] *)
Definition try_ {S A} (m : io S A) (h : exn -> io S A) : io S A := fun s =>
  match m s with (s, Raise e) => h e s | (s, Ok a) => (s, Ok a) end.
(** [if b: m] *)
Definition when_ {S} (b : bool) (m : io S unit) : io S unit := if b then m else mret tt.

(** From [P], the operation ends in [Q], or raises in [E]. *)
Definition hoare {S A} (P : S -> Prop) (m : io S A) (Q : A -> S -> Prop) (E : exn -> S -> Prop) : Prop :=
  forall s, P s -> match m s with (s', Ok a) => Q a s' | (s', Raise e) => E e s' end.
Section hoare_rules.
  Context {S : Type}.
  Implicit Types (P : S -> Prop) (E : exn -> S -> Prop).
Lemma hoare_conseq {A} P (Q Q' : A -> S -> Prop) E E' P' m :
  hoare P m Q E -> (forall s, P' s -> P s) -> (forall a s, Q a s -> Q' a s) -> (forall e s, E e s -> E' e s) -> hoare P' m Q' E'.
Proof. intros H HP HQ HE s Hs. specialize (H s (HP s Hs)). destruct (m s) as [s' [a|e]]; auto. Qed.
Lemma hoare_bind {A B} P (m : io S A) (f : A -> io S B) Q R E :
  hoare P m Q E -> (forall a, hoare (Q a) (f a) R E) -> hoare P (m ≫= f) R E.
Proof. intros Hm Hf s Hs. specialize (Hm s Hs). unfold mbind, io_bind. destruct (m s) as [s' [a|e]]; [by apply Hf|done]. Qed.
Lemma hoare_ret {A} (a : A) (Q : A -> S -> Prop) E : hoare (Q a) (mret a) Q E.
Proof. by intros s Hs. Qed.
Lemma hoare_lift {A} (r : result A) (Q : A -> S -> Prop) E :
  hoare (fun s => match r with Ok a => Q a s | Raise e => E e s end) (lift r) Q E.
Proof. intros s Hs. unfold lift. by destruct r. Qed.
Lemma hoare_modify (f : S -> S) (Q : unit -> S -> Prop) E : hoare (fun s => Q tt (f s)) (modify f) Q E.
Proof. by intros s Hs. Qed.
Lemma hoare_read {A} (f : S -> A) (Q : A -> S -> Prop) E : hoare (fun s => Q (f s) s) (read f) Q E.
Proof. by intros s Hs. Qed.
Lemma hoare_try {A} P (m : io S A) h (Q : A -> S -> Prop) E E' :
  hoare P m Q E' -> (forall e, hoare (E' e) (h e) Q E) -> hoare P (try_ m h) Q E.
Proof. intros Hm Hh s Hs. specialize (Hm s Hs). unfold try_. destruct (m s) as [s' [a|e]]; [done|by apply Hh]. Qed.
Lemma hoare_when P b (m : io S unit) (Q : unit -> S -> Prop) E :
  (b = true -> hoare P m Q E) -> (b = false -> forall s, P s -> Q tt s) -> hoare P (when_ b m) Q E.
Proof. intros H1 H2. destruct b; [by apply H1|]. intros s Hs. by apply H2. Qed.
Lemma hoare_read_then {A B} P (f : S -> A) (k : A -> io S B) Q E :
  (forall a, hoare (fun s => P s /\ f s = a) (k a) Q E) -> hoare P (read f ≫= k) Q E.
Proof. intros H s Hs. by apply (H (f s)). Qed.
Lemma hoare_modify_then {B} P P' (f : S -> S) (k : unit -> io S B) Q E :
  (forall s, P s -> P' (f s)) -> hoare P' (k tt) Q E -> hoare P (modify f ≫= k) Q E.
Proof. intros Hf H s Hs. apply (H (f s)). by apply Hf. Qed.
End hoare_rules.

(** ** Finite sets *)
Lemma size_list_to_set_le (l : list string) : (size (list_to_set l : gset string) <= length l)%nat.
Proof.
  induction l as [|x l IH]; simpl; [change (size (∅ : gset string) <= 0)%nat; by rewrite size_empty|].
  rewrite size_union_alt, size_singleton.
  pose proof (subseteq_size (list_to_set l ∖ {[x]} : gset string) (list_to_set l) ltac:(set_solver)).
  lia.
Qed.

(** ** From boolean tests to propositions *)
Ltac to_prop :=
  repeat match goal with
  | H : negb _ = false |- _ => apply negb_false_iff in H
  | H : negb _ = true |- _ => apply negb_true_iff in H
  | H : _ || _ = false |- _ => apply orb_false_iff in H as [? ?]
  | H : _ && _ = true |- _ => apply andb_true_iff in H as [? ?]
  | H : bool_decide _ = true |- _ => apply bool_decide_eq_true in H
  | H : bool_decide _ = false |- _ => apply bool_decide_eq_false in H
  | H : (_ =? _)%Z = true |- _ => apply Z.eqb_eq in H
  | H : (_ <=? _)%Z = true |- _ => apply Z.leb_le in H
  | H : (_ <? _)%Z = true |- _ => apply Z.ltb_lt in H
  | H : (_ =? _)%Z = false |- _ => apply Z.eqb_neq in H
  | H : (_ <=? _)%Z = false |- _ => apply Z.leb_gt in H
  | H : (_ <? _)%Z = false |- _ => apply Z.ltb_ge in H
  end.
(** Walk the nested conditionals of a hypothesis, keeping the branches that
    can produce its right-hand side. *)
Ltac walk H :=
  repeat match type of H with
  | context [if ?b then _ else _] => destruct b eqn:?; try discriminate H
  | context [match ?o with Some _ => _ | None => _ end] => destruct o eqn:?; try discriminate H
  end.
