(* ===== verification/PyStrings.v ===== *)
(** * Python strings

    The program's [str] values are modelled by Rocq strings of ASCII
    characters: [strip], [lower], [upper], [in] and [startswith] are Python's on
    ASCII text.  [trim] is the whitespace strip of a pydantic
    [StringConstraints(strip_whitespace=True)], which unlike [str.strip] keeps
    the four separators U+001C..U+001F. *)
From S2P Require Import Prelude.

Definition code (c : ascii) : N := N_of_ascii c.

(** [str.isspace] on one ASCII character. *)
Definition py_space (c : ascii) : bool :=
  let n := code c in ((9 <=? n) && (n <=? 13) || (28 <=? n) && (n <=? 32))%N.
Definition rust_space (c : ascii) : bool :=
  let n := code c in ((9 <=? n) && (n <=? 13) || (n =? 32))%N.
Definition is_upper (c : ascii) : bool := (65 <=? code c)%N && (code c <=? 90)%N.
Definition is_lower (c : ascii) : bool := (97 <=? code c)%N && (code c <=? 122)%N.
Definition is_digit (c : ascii) : bool := (48 <=? code c)%N && (code c <=? 57)%N.

Definition lower_char (c : ascii) : ascii :=
  if is_upper c then ascii_of_N (code c + 32) else c.
Definition upper_char (c : ascii) : ascii :=
  if is_lower c then ascii_of_N (code c - 32) else c.

Fixpoint map_string (f : ascii -> ascii) (s : string) : string :=
  match s with
  | EmptyString => EmptyString
  | String c s => String (f c) (map_string f s)
  end.
Definition lower : string -> string := map_string lower_char.
Definition upper : string -> string := map_string upper_char.

Fixpoint drop_while {A} (p : A -> bool) (l : list A) : list A :=
  match l with
  | [] => []
  | x :: l' => if p x then drop_while p l' else l
  end.
Definition strip_list {A} (p : A -> bool) (l : list A) : list A :=
  reverse (drop_while p (reverse (drop_while p l))).
Definition strip_with (p : ascii -> bool) (s : string) : string :=
  string_of_list_ascii (strip_list p (list_ascii_of_string s)).
Definition strip : string -> string := strip_with py_space.
Definition trim : string -> string := strip_with rust_space.

(** [needle in haystack]. *)
Fixpoint contains (needle haystack : string) : bool :=
  String.prefix needle haystack ||
  match haystack with
  | EmptyString => false
  | String _ rest => contains needle rest
  end.
Definition startswith (s p : string) : bool := String.prefix p s.

(** [s or t] on strings, and truthiness. *)
Definition truthy (s : string) : bool := negb (String.eqb s "").
Definition or_else (s t : string) : string := if truthy s then s else t.

(** ** Lemmas *)

Section drop_while.
  Context {A : Type} (p : A -> bool).

Lemma drop_while_nohead l :
    match l with [] => True | x :: _ => p x = false end -> drop_while p l = l.
  Proof. destruct l; simpl; [done|]. by intros ->. Qed.

Lemma drop_while_head l :
    match drop_while p l with [] => True | x :: _ => p x = false end.
  Proof. induction l as [|x l IH]; simpl; [done|]. by destruct (p x) eqn:E. Qed.

Lemma drop_while_app_last l x :
    p x = false -> drop_while p (l ++ [x]) = drop_while p l ++ [x].
  Proof.
    intros Hx. induction l as [|y l IH]; simpl; [by rewrite Hx|]. by destruct (p y).
  Qed.

Lemma drop_while_idem l : drop_while p (drop_while p l) = drop_while p l.
  Proof. apply drop_while_nohead, drop_while_head. Qed.

Lemma strip_list_idem l : strip_list p (strip_list p l) = strip_list p l.
  Proof.
    unfold strip_list. set (m := drop_while p l).
    assert (Hm : match m with [] => True | x :: _ => p x = false end)
      by apply drop_while_head.
    set (r := drop_while p (reverse m)).
    assert (Hr : match r with [] => True | x :: _ => p x = false end)
      by apply drop_while_head.
    assert (Hh : drop_while p (reverse r) = reverse r).
    { apply drop_while_nohead. destruct m as [|x m'].
      - by subst r.
      - unfold r. rewrite reverse_cons, drop_while_app_last by done.
        rewrite reverse_app. simpl. done. }
    rewrite Hh, reverse_involutive, drop_while_nohead by done. done.
  Qed.
End drop_while.

(** Nothing to strip. *)
Lemma strip_list_clean {A} (p : A -> bool) l : forallb (fun c => negb (p c)) l = true -> strip_list p l = l.
Proof.
  intros Hl. unfold strip_list.
  assert (Hh : forall k, forallb (fun c => negb (p c)) k = true -> drop_while p k = k).
  { intros [|c k] Hk; [done|]. apply drop_while_nohead. cbn in Hk. by apply andb_true_iff in Hk as [?%negb_true_iff _]. }
  rewrite (Hh l), Hh by (rewrite forallb_forall in Hl |- *; intros c Hc; apply Hl; apply list_elem_of_In in Hc;
    apply list_elem_of_In; set_solver || done). apply reverse_involutive.
Qed.
Lemma strip_with_idem p s : strip_with p (strip_with p s) = strip_with p s.
Proof.
  unfold strip_with. by rewrite list_ascii_of_string_of_list_ascii, strip_list_idem.
Qed.

Lemma trim_idem s : trim (trim s) = trim s.
Proof. apply strip_with_idem. Qed.
Lemma strip_idem s : strip (strip s) = strip s.
Proof. apply strip_with_idem. Qed.

Lemma map_string_idem f s : (forall c, f (f c) = f c) -> map_string f (map_string f s) = map_string f s.
Proof. intros H. induction s as [|c s IH]; simpl; [done|]. by rewrite H, IH. Qed.

Lemma lower_char_idem c : lower_char (lower_char c) = lower_char c.
Proof. destruct c as [[] [] [] [] [] [] [] []]; reflexivity. Qed.
Lemma upper_char_idem c : upper_char (upper_char c) = upper_char c.
Proof. destruct c as [[] [] [] [] [] [] [] []]; reflexivity. Qed.
Lemma lower_idem s : lower (lower s) = lower s.
Proof. apply map_string_idem, lower_char_idem. Qed.
Lemma upper_idem s : upper (upper s) = upper s.
Proof. apply map_string_idem, upper_char_idem. Qed.

Create Rewrite HintDb py_str.
#[export] Hint Rewrite trim_idem strip_idem lower_idem upper_idem : py_str.

Example strip_ex : strip " ab c  " = "ab c".
Proof. reflexivity. Qed.
Example contains_ex : contains "stale" "evidence is stale." = true.
Proof. reflexivity. Qed.
