(* ===== verification/PyDict.v ===== *)
(** * Python dictionaries and tuples of pairs

    A [dict] whose order the program observes is an association list in
    insertion order: assignment replaces in place or appends.  [sorted(d.items())]
    orders by key, in the order of Python's string comparison. *)
From S2P Require Import Prelude.

Lemma string_leb_trans x y z : String.leb x y = true -> String.leb y z = true -> String.leb x z = true.
Proof.
  intros H1 H2. assert (H : String.le x z).
  { transitivity y; unfold String.le; by rewrite ?H1, ?H2. }
  by apply Is_true_true in H.
Qed.
Section dict.
  Context {K V : Type} `{EqDecision K}.

Fixpoint dict_get (d : list (K * V)) (k : K) : option V :=
    match d with
    | [] => None
    | (k', v) :: d' => if decide (k = k') then Some v else dict_get d' k
    end.

Fixpoint dict_set (d : list (K * V)) (k : K) (v : V) : list (K * V) :=
    match d with
    | [] => [(k, v)]
    | (k', v') :: d' =>
        if decide (k = k') then (k, v) :: d' else (k', v') :: dict_set d' k v
    end.

  (** [dict(pairs)]: later pairs win. *)
Definition dict_of (l : list (K * V)) : list (K * V) :=
    fold_left (fun d kv => dict_set d kv.1 kv.2) l [].

Lemma dict_get_set d k v k' :
    dict_get (dict_set d k v) k' = if decide (k' = k) then Some v else dict_get d k'.
  Proof.
    induction d as [|[k0 v0] d IH]; simpl.
    - repeat case_decide; congruence.
    - destruct (decide (k = k0)) as [->|]; simpl; repeat case_decide; congruence.
  Qed.

Lemma dict_get_None d k : dict_get d k = None <-> k ∉ d.*1.
  Proof.
    induction d as [|[k' v] d IH]; simpl; [set_solver|].
    case_decide; subst; set_solver.
  Qed.

Lemma dict_get_elem d k v : NoDup d.*1 -> dict_get d k = Some v <-> (k, v) ∈ d.
  Proof.
    induction d as [|[k' v'] d IH]; simpl; intros Hnd; [set_solver|].
    apply NoDup_cons in Hnd as [Hn Hnd]. specialize (IH Hnd).
    rewrite elem_of_cons. case_decide as E; subst.
    - split; [intros [= ->]; auto|]. intros [[= ->]|Hin]; [done|].
      apply (list_elem_of_fmap_2 fst) in Hin. done.
    - rewrite IH. split; [auto|]. by intros [[= ? ?]|].
  Qed.

Lemma dict_set_new d k v : k ∉ d.*1 -> dict_set d k v = d ++ [(k, v)].
  Proof.
    induction d as [|[k' v'] d IH]; simpl; intros Hk; [done|].
    rewrite decide_False by set_solver. rewrite IH by set_solver. done.
  Qed.

Lemma dict_set_keys d k v x : x ∈ (dict_set d k v).*1 <-> x = k \/ x ∈ d.*1.
  Proof.
    induction d as [|[k' v'] d IH]; simpl; [set_solver|].
    case_decide; subst; simpl; rewrite ?elem_of_cons; naive_solver.
  Qed.

Lemma dict_set_elem d k v x : x ∈ dict_set d k v -> x = (k, v) \/ x ∈ d.
  Proof.
    induction d as [|[k' v'] d IH]; simpl; [set_solver|].
    case_decide; subst; rewrite !elem_of_cons; naive_solver.
  Qed.
Lemma dict_of_elem l x : x ∈ dict_of l -> x ∈ l.
  Proof.
    unfold dict_of. cut (forall d, x ∈ fold_left (fun d kv => dict_set d kv.1 kv.2) l d -> x ∈ d \/ x ∈ l).
    { intros H Hx. apply H in Hx as [Hx|Hx]; [by apply not_elem_of_nil in Hx|done]. }
    induction l as [|[k v] l IH]; intros d Hx; simpl in *; [auto|].
    apply IH in Hx as [Hx|Hx]; [|set_solver].
    apply dict_set_elem in Hx as [->|Hx]; set_solver.
  Qed.

Lemma dict_set_NoDup d k v : NoDup d.*1 -> NoDup (dict_set d k v).*1.
  Proof.
    induction d as [|[k' v'] d IH]; simpl; intros Hnd.
    { by apply NoDup_singleton. }
    apply NoDup_cons in Hnd as [Hn Hnd].
    case_decide; subst; simpl; apply NoDup_cons; [done|].
    rewrite dict_set_keys. naive_solver.
  Qed.

Lemma fold_dict_set_get l d k :
    NoDup (l.*1) ->
    dict_get (fold_left (fun d kv => dict_set d kv.1 kv.2) l d) k =
    match dict_get l k with Some v => Some v | None => dict_get d k end.
  Proof.
    revert d. induction l as [|[k0 v0] l IH]; intros d Hnd; simpl; [done|].
    apply NoDup_cons in Hnd as [Hn Hnd]. rewrite IH by done. simpl.
    rewrite dict_get_set. case_decide as E; [|done]. subst.
    by rewrite (proj2 (dict_get_None _ _)) by done.
  Qed.

Lemma dict_of_get l k : NoDup (l.*1) -> dict_get (dict_of l) k = dict_get l k.
  Proof. intros. unfold dict_of. rewrite fold_dict_set_get by done. by destruct (dict_get l k). Qed.

Lemma dict_of_NoDup l : NoDup (dict_of l).*1.
  Proof.
    unfold dict_of. assert (H : NoDup (([] : list (K * V)).*1)) by constructor.
    revert H. generalize ([] : list (K * V)).
    induction l as [|[k v] l IH]; intros d Hd; simpl; [done|].
    by apply IH, dict_set_NoDup.
  Qed.
End dict.

(** ** [sorted] by a string key *)
Section sorted.
  Context {V : Type}.
  Implicit Types l : list (string * V).

Fixpoint insert_sorted (kv : string * V) l : list (string * V) :=
    match l with
    | [] => [kv]
    | kv' :: l' => if String.leb kv.1 kv'.1 then kv :: l else kv' :: insert_sorted kv l'
    end.
Fixpoint sorted_items l : list (string * V) :=
    match l with [] => [] | kv :: l' => insert_sorted kv (sorted_items l') end.

Lemma insert_sorted_perm kv l : insert_sorted kv l ≡ₚ kv :: l.
  Proof.
    induction l as [|kv' l IH]; simpl; [done|].
    destruct (String.leb _ _); [done|]. rewrite IH. apply Permutation_swap.
  Qed.
Lemma sorted_items_perm l : sorted_items l ≡ₚ l.
  Proof. induction l as [|kv l IH]; simpl; [done|]. by rewrite insert_sorted_perm, IH. Qed.

  (** Items with different keys can be inserted in either order. *)
Lemma insert_sorted_comm a b l :
    a.1 <> b.1 -> insert_sorted a (insert_sorted b l) = insert_sorted b (insert_sorted a l).
  Proof.
    intros Hab. induction l as [|c l IH]; simpl.
    - destruct (String.leb a.1 b.1) eqn:E1, (String.leb b.1 a.1) eqn:E2; try done.
      + by destruct (Hab (String.leb_antisym _ _ E1 E2)).
      + destruct (String.leb_total a.1 b.1); congruence.
    - destruct (String.leb b.1 c.1) eqn:Ebc, (String.leb a.1 c.1) eqn:Eac; simpl; rewrite ?Ebc, ?Eac.
      + destruct (String.leb a.1 b.1) eqn:E1, (String.leb b.1 a.1) eqn:E2; try done.
        * by destruct (Hab (String.leb_antisym _ _ E1 E2)).
        * destruct (String.leb_total a.1 b.1); congruence.
      + destruct (String.leb a.1 b.1) eqn:E1; [|done].
        by rewrite (string_leb_trans _ _ _ E1 Ebc) in Eac.
      + destruct (String.leb b.1 a.1) eqn:E1; [|done].
        by rewrite (string_leb_trans _ _ _ E1 Eac) in Ebc.
      + by rewrite IH.
  Qed.
Lemma sorted_items_permuted l k : l ≡ₚ k -> NoDup l.*1 -> sorted_items l = sorted_items k.
  Proof.
    induction 1 as [|x l k _ IH|x y l|l k m Hlk IH1 Hkm IH2]; simpl; intros Hnd; [done| | |].
    - apply NoDup_cons in Hnd as [_ Hnd]. by rewrite IH.
    - apply insert_sorted_comm. apply NoDup_cons in Hnd as [Hn _]. set_solver.
    - rewrite IH1 by done. apply IH2. by rewrite <- Hlk.
  Qed.

Lemma sorted_items_NoDup l : NoDup l.*1 -> NoDup (sorted_items l).*1.
  Proof. by rewrite sorted_items_perm. Qed.

Lemma dict_get_sorted l k : NoDup l.*1 -> dict_get (sorted_items l) k = dict_get l k.
  Proof.
    intros Hnd. apply option_eq. intros v.
    rewrite !dict_get_elem by (rewrite ?sorted_items_perm; done).
    by rewrite sorted_items_perm.
  Qed.

  (** The harness's [_replace_state]: [d = dict(values); d[k] = v;
      tuple(sorted(d.items()))]. *)
Definition set_and_sort l (k : string) (v : V) : list (string * V) :=
    sorted_items (dict_set (dict_of l) k v).

Lemma set_and_sort_get l k v k' :
    NoDup l.*1 ->
    dict_get (set_and_sort l k v) k' = if decide (k' = k) then Some v else dict_get l k'.
  Proof.
    intros Hnd. unfold set_and_sort.
    rewrite dict_get_sorted by apply dict_set_NoDup, dict_of_NoDup.
    rewrite dict_get_set. case_decide; [done|]. by apply dict_of_get.
  Qed.
Lemma set_and_sort_elem l k v x : x ∈ set_and_sort l k v -> x = (k, v) \/ x ∈ l.
  Proof.
    unfold set_and_sort. rewrite sorted_items_perm.
    intros [->|H]%dict_set_elem; [auto|]. right. by apply dict_of_elem.
  Qed.
Lemma set_and_sort_NoDup l k v : NoDup (set_and_sort l k v).*1.
  Proof. apply sorted_items_NoDup, dict_set_NoDup, dict_of_NoDup. Qed.
End sorted.

(** [sorted] by an order: stable. *)
Fixpoint insert_by {A} (leb : A -> A -> bool) (x : A) (l : list A) : list A :=
  match l with
  | [] => [x]
  | y :: l' => if leb x y then x :: l else y :: insert_by leb x l'
  end.
Definition sort_by {A} (leb : A -> A -> bool) (l : list A) : list A := foldr (insert_by leb) [] l.
Lemma insert_by_perm {A} (leb : A -> A -> bool) x l : insert_by leb x l ≡ₚ x :: l.
Proof. induction l as [|y l IH]; simpl; [done|]. destruct (leb x y); [done|]. rewrite IH. apply Permutation_swap. Qed.
Lemma sort_by_perm {A} (leb : A -> A -> bool) l : sort_by leb l ≡ₚ l.
Proof. induction l as [|x l IH]; simpl; [done|]. by rewrite insert_by_perm, IH. Qed.

(** [len(values) == len(set(values))] *)
Definition unique `{EqDecision A} (l : list A) : bool := bool_decide (NoDup l).
Lemma unique_true `{EqDecision A} (l : list A) : unique l = true <-> NoDup l.
Proof. apply bool_decide_eq_true. Qed.

(** ** Sums over a map *)
Definition total {A} (f : A -> Z) (m : gmap string A) : Z := map_fold (fun _ x acc => (f x + acc)%Z) 0%Z m.
Section total.
  Context {A : Type} (f : A -> Z).
  Implicit Types m : gmap string A.
  Local Open Scope Z_scope.

Lemma total_empty : total f ∅ = 0.
Proof. apply map_fold_empty. Qed.
Lemma total_insert m k x : m !! k = None -> total f (<[k := x]> m) = f x + total f m.
Proof. intros Hk. unfold total. rewrite map_fold_insert_L; [done| |done]. intros. lia. Qed.
Lemma total_delete m k x : m !! k = Some x -> total f m = f x + total f (delete k m).
Proof. intros Hk. rewrite <- (total_insert (delete k m) k x) by apply lookup_delete_eq. by rewrite insert_delete_id. Qed.
Lemma total_update m k x y : m !! k = Some x -> total f (<[k := y]> m) = total f m - f x + f y.
Proof.
  intros Hk. rewrite (total_delete m k x Hk), <- insert_delete_eq, total_insert by apply lookup_delete_eq. lia.
Qed.
Lemma total_set m k y : total f (<[k := y]> m) = total f m - from_option f 0 (m !! k) + f y.
Proof. destruct (m !! k) as [x|] eqn:E; simpl; [by apply total_update|]. rewrite total_insert by done. lia. Qed.
Lemma total_bounds m B : map_Forall (fun _ x => 0 <= f x <= B) m -> 0 <= total f m <= B * Z.of_nat (size m).
Proof.
  induction m as [|k x m Hk IH] using map_ind; intros Hm.
  - rewrite total_empty, map_size_empty. lia.
  - apply map_Forall_insert in Hm as [Hx Hm]; [|done]. rewrite total_insert, map_size_insert_None by done.
    specialize (IH Hm). lia.
Qed.
Lemma total_nonneg m : map_Forall (fun _ x => 0 <= f x) m -> 0 <= total f m.
Proof.
  induction m as [|k x m Hk IH] using map_ind; intros Hm; [by rewrite total_empty|].
  apply map_Forall_insert in Hm as [Hx Hm]; [|done]. rewrite total_insert by done. specialize (IH Hm). lia.
Qed.
Lemma total_lookup_le m k x : map_Forall (fun _ x => 0 <= f x) m -> m !! k = Some x -> f x <= total f m.
Proof.
  intros Hm Hk. rewrite (total_delete m k x Hk).
  pose proof (total_nonneg (delete k m) ltac:(by apply map_Forall_delete)). lia.
Qed.
End total.
Lemma total_le {A} (f g : A -> Z) (m : gmap string A) :
  map_Forall (fun _ x => f x <= g x)%Z m -> (total f m <= total g m)%Z.
Proof.
  induction m as [|k x m Hk IH] using map_ind; intros Hm; [by rewrite !total_empty|].
  apply map_Forall_insert in Hm as [Hx Hm]; [|done]. rewrite !total_insert by done. specialize (IH Hm). lia.
Qed.

Lemma map_Forall_update {A} (P : string -> A -> Prop) (m : gmap string A) k x :
  P k x -> (forall k' y, k' <> k -> m !! k' = Some y -> P k' y) -> map_Forall P (<[k := x]> m).
Proof. intros Hx Hm k' y. rewrite lookup_insert. case_decide as Hk; [subst; by intros [= <-]|]. intros Hy. apply Hm; congruence. Qed.
