(* ===== verification/PyRegex.v ===== *)
(** * Regular expressions

    The part of Python's [re] the program uses, as syntax, an executable matcher
    that lists every position a match can end at, and the proof that the matcher
    is exactly the declarative semantics.  Only whether a match exists is
    observed by the program, so no greediness is modelled. *)
From S2P Require Import Prelude PyStrings.

Inductive regex : Type :=
  | Eps
  | Chr (p : ascii -> bool)
  | Seq (r s : regex)
  | Alt (r s : regex)
  | Star (r : regex)
  | Bol              (* ^ *)
  | Eol              (* $: the end, or before a final newline *)
  | WordBoundary.    (* \b *)

(** A position in the searched text: the character before it, if any, and the
    text after it. *)
Definition pos : Type := option ascii * list ascii.

Definition newline : ascii := ascii_of_N 10.
Definition word_char (c : ascii) : bool :=
  is_digit c || is_lower c || is_upper c || Ascii.eqb c (ascii_of_N 95).
Definition at_eol (q : pos) : bool :=
  match q.2 with [] => true | [c] => bool_decide (c = newline) | _ => false end.
Definition at_boundary (q : pos) : bool :=
  let before := match q.1 with Some c => word_char c | None => false end in
  let after := match q.2 with c :: _ => word_char c | [] => false end in
  xorb before after.

(** ** Semantics *)
Inductive matches : regex -> pos -> pos -> Prop :=
  | M_eps q : matches Eps q q
  | M_chr p b c l : p c = true -> matches (Chr p) (b, c :: l) (Some c, l)
  | M_seq r s q1 q2 q3 : matches r q1 q2 -> matches s q2 q3 -> matches (Seq r s) q1 q3
  | M_altl r s q1 q2 : matches r q1 q2 -> matches (Alt r s) q1 q2
  | M_altr r s q1 q2 : matches s q1 q2 -> matches (Alt r s) q1 q2
  | M_star0 r q : matches (Star r) q q
  | M_star1 r q1 q2 q3 : matches r q1 q2 -> matches (Star r) q2 q3 -> matches (Star r) q1 q3
  | M_bol l : matches Bol (None, l) (None, l)
  | M_eol q : at_eol q = true -> matches Eol q q
  | M_wb q : at_boundary q = true -> matches WordBoundary q q.

(** ** Matcher *)
Fixpoint iterate (n : nat) (f : pos -> list pos) (q : pos) : list pos :=
  q :: match n with
       | O => []
       | S n => filter (fun q' => (length q'.2 < length q.2)%nat) (f q) ≫= iterate n f
       end.

Fixpoint run (r : regex) (q : pos) : list pos :=
  match r with
  | Eps => [q]
  | Chr p => match q.2 with c :: l => if p c then [(Some c, l)] else [] | [] => [] end
  | Seq r s => run r q ≫= run s
  | Alt r s => run r q ++ run s q
  | Star r => iterate (length q.2) (run r) q
  | Bol => match q.1 with None => [q] | Some _ => [] end
  | Eol => if at_eol q then [q] else []
  | WordBoundary => if at_boundary q then [q] else []
  end.

Fixpoint search_from (r : regex) (before : option ascii) (l : list ascii) : bool :=
  bool_decide (run r (before, l) <> []) ||
  match l with [] => false | c :: l' => search_from r (Some c) l' end.
(** [re.search(r, s) is not None] *)
Definition search (r : regex) (s : string) : bool := search_from r None (list_ascii_of_string s).
(** [re.match(r, s) is not None] *)
Definition re_match (r : regex) (s : string) : bool :=
  bool_decide (run r (None, list_ascii_of_string s) <> []).
(** [re.fullmatch(r, s) is not None] *)
Definition fullmatch (r : regex) (s : string) : bool :=
  existsb (fun q => match q.2 with [] => true | _ => false end) (run r (None, list_ascii_of_string s)).

(** ** Derived forms *)
Definition any_of (s : string) (c : ascii) : bool := existsb (Ascii.eqb c) (list_ascii_of_string s).
Definition lit (s : string) : regex :=
  fold_right (fun c r => Seq (Chr (Ascii.eqb c)) r) Eps (list_ascii_of_string s).
(** A literal under [re.IGNORECASE]; its argument is lower case. *)
Definition either_case (c : ascii) : regex :=
  let capital := upper_char c in Chr (fun d => Ascii.eqb c d || Ascii.eqb capital d).
Definition ilit (s : string) : regex := fold_right (fun c r => Seq (either_case c) r) Eps (list_ascii_of_string s).
Definition opt (r : regex) : regex := Alt Eps r.
Definition plus_re (r : regex) : regex := Seq r (Star r).
Fixpoint rep (n : nat) (r : regex) : regex :=
  match n with O => Eps | S n => Seq r (rep n r) end.
Fixpoint upto (n : nat) (r : regex) : regex :=
  match n with O => Eps | S n => opt (Seq r (upto n r)) end.
Definition between (lo hi : nat) (r : regex) : regex := Seq (rep lo r) (upto (hi - lo) r).
Definition alts (rs : list regex) : regex := fold_right Alt (Chr (fun _ => false)) rs.
Definition seqs (rs : list regex) : regex := fold_right Seq Eps rs.

(** ** The matcher is the semantics *)

Lemma iterate_sound n (f : pos -> list pos) r q q' :
  (forall p p', p' ∈ f p -> matches r p p') -> q' ∈ iterate n f q -> matches (Star r) q q'.
Proof.
  intros Hf. revert q. induction n as [|n IH]; intros q; simpl.
  { rewrite list_elem_of_singleton. intros ->. constructor. }
  rewrite elem_of_cons. intros [->|Hin]; [constructor|].
  apply list_elem_of_bind in Hin as (q2 & Hin & H2).
  apply list_elem_of_filter in H2 as [_ H2]. eauto using matches.
Qed.

Lemma run_sound r q q' : q' ∈ run r q -> matches r q q'.
Proof.
  revert q q'. induction r; intros q q'; simpl.
  - rewrite list_elem_of_singleton. intros ->. constructor.
  - destruct q as [b [|c l]]; simpl; [by intros ?%not_elem_of_nil|].
    destruct (p c) eqn:E; [|by intros ?%not_elem_of_nil].
    rewrite list_elem_of_singleton. intros ->. by constructor.
  - intros (q2 & H2 & H1)%list_elem_of_bind. eauto using matches.
  - rewrite elem_of_app. intros [H|H]; eauto using matches.
  - apply iterate_sound. auto.
  - destruct q as [[c|] l]; simpl; [by intros ?%not_elem_of_nil|].
    rewrite list_elem_of_singleton. intros ->. constructor.
  - destruct (at_eol q) eqn:E; [|by intros ?%not_elem_of_nil].
    rewrite list_elem_of_singleton. intros ->. by constructor.
  - destruct (at_boundary q) eqn:E; [|by intros ?%not_elem_of_nil].
    rewrite list_elem_of_singleton. intros ->. by constructor.
Qed.

(** A match never moves backwards, and stands still only at the same position. *)
Lemma matches_progress r q q' :
  matches r q q' -> q' = q \/ (length q'.2 < length q.2)%nat.
Proof. induction 1; simpl in *; subst; auto with lia; naive_solver lia. Qed.

Lemma iterate_complete (f : pos -> list pos) r :
  (forall p p', matches r p p' -> p' ∈ f p) ->
  forall n q q', (length q.2 <= n)%nat -> matches (Star r) q q' -> q' ∈ iterate n f q.
Proof.
  intros Hf n q q' Hn Hm. remember (Star r) as s eqn:Es. revert n Hn.
  induction Hm as [| | | | | |r' q1 q2 q3 H1 _ H2 IH| | |]; intros n Hn; try discriminate.
  { destruct n; simpl; rewrite ?elem_of_cons; auto. }
  injection Es as ->. destruct (matches_progress _ _ _ H1) as [->|Hlt]; [by apply IH|].
  destruct n as [|n]; [lia|]. simpl. apply elem_of_cons. right.
  apply list_elem_of_bind. exists q2. split; [apply IH; [done|lia]|].
  apply list_elem_of_filter. auto.
Qed.

Lemma run_complete r q q' : matches r q q' -> q' ∈ run r q.
Proof.
  revert q q'. induction r; intros q q' Hm.
  5: { simpl. by eapply iterate_complete. }
  all: inversion Hm; subst; simpl.
  - by apply list_elem_of_singleton.
  - rewrite H0. by apply list_elem_of_singleton.
  - apply list_elem_of_bind. eauto.
  - apply elem_of_app. auto.
  - apply elem_of_app. auto.
  - by apply list_elem_of_singleton.
  - match goal with H : at_eol _ = true |- _ => rewrite H end. by apply list_elem_of_singleton.
  - match goal with H : at_boundary _ = true |- _ => rewrite H end. by apply list_elem_of_singleton.
Qed.

Lemma run_spec r q q' : q' ∈ run r q <-> matches r q q'.
Proof. split; [apply run_sound|apply run_complete]. Qed.

Lemma re_match_spec r s :
  re_match r s = true <-> exists q, matches r (None, list_ascii_of_string s) q.
Proof.
  unfold re_match. rewrite bool_decide_eq_true. setoid_rewrite <- run_spec.
  destruct (run r _) as [|q l]; split; try done.
  - by intros [q ?%not_elem_of_nil].
  - intros _. exists q. set_solver.
Qed.

Lemma fullmatch_spec r s :
  fullmatch r s = true <-> exists b, matches r (None, list_ascii_of_string s) (b, []).
Proof.
  unfold fullmatch. rewrite existsb_exists. setoid_rewrite <- run_spec.
  setoid_rewrite <- list_elem_of_In. split.
  - intros ([b [|c l]] & Hin & E); [eauto|done].
  - intros [b Hin]. by exists (b, []).
Qed.
