(* ===== verification/PyTime.v ===== *)
(** * datetime

    A [datetime] is a wall-clock reading in microseconds with the offset of its
    [tzinfo], absent when it is naive.  Two aware datetimes are compared and
    subtracted as instants. *)
From S2P Require Import Prelude.
Local Open Scope Z_scope.

Record datetime := Datetime { dt_wall : Z; dt_utcoffset : option Z }.
#[export] Instance datetime_eq_dec : EqDecision datetime.
Proof. solve_decision. Defined.

Definition aware (d : datetime) : bool := match dt_utcoffset d with Some _ => true | None => false end.
Definition is_utc (d : datetime) : bool := bool_decide (dt_utcoffset d = Some 0).
(** Microseconds since the epoch, of an aware datetime. *)
Definition instant (d : datetime) : Z := dt_wall d - default 0 (dt_utcoffset d).
Definition utc (us : Z) : datetime := Datetime us (Some 0).
(** [datetime + timedelta(microseconds=us)] *)
Definition plus_us (d : datetime) (us : Z) : datetime := Datetime (dt_wall d + us) (dt_utcoffset d).

Lemma instant_utc us : instant (utc us) = us.
Proof. unfold instant, utc. simpl. lia. Qed.
Lemma instant_plus d us : instant (plus_us d us) = instant d + us.
Proof. unfold instant, plus_us. simpl. lia. Qed.
