(* ===== verification/PyIso.v ===== *)
(** * ISO timestamps

    The calendar of Python's [datetime] (proleptic Gregorian, years 1 to 9999),
    [isoformat] of a UTC reading and [fromisoformat] of Python 3.11.  The texts of
    UTC readings order as the readings do, which the SQL of the job store relies
    on, and [fromisoformat] inverts [isoformat]. *)
From S2P Require Import Prelude PyStrings PyTime.
Local Open Scope Z_scope.

(** ** The calendar: [_ymd2ord] and [_ord2ymd] of datetime.py *)
Definition is_leap (y : Z) : bool := (y mod 4 =? 0) && (negb (y mod 100 =? 0) || (y mod 400 =? 0)).
Definition DAYS_IN_MONTH : list Z := [31; 28; 31; 30; 31; 30; 31; 31; 30; 31; 30; 31].
Definition DAYS_BEFORE_MONTH : list Z := [0; 31; 59; 90; 120; 151; 181; 212; 243; 273; 304; 334].
Definition month_entry (table : list Z) (m : Z) : Z := nth (Z.to_nat (m - 1)) table 0.
Definition days_in_month (leap : bool) (m : Z) : Z :=
  if (m =? 2) && leap then 29 else month_entry DAYS_IN_MONTH m.
Definition days_before_month (leap : bool) (m : Z) : Z :=
  month_entry DAYS_BEFORE_MONTH m + (if (2 <? m) && leap then 1 else 0).
Definition days_before_year (y : Z) : Z :=
  let y := y - 1 in y * 365 + y / 4 - y / 100 + y / 400.
Definition ymd2ord (y m d : Z) : Z := days_before_year y + days_before_month (is_leap y) m + d.
(** The month and day of a zero-based day of the year. *)
Definition month_day (leap : bool) (n : Z) : Z * Z :=
  let month := Z.shiftr (n + 50) 5 in
  let preceding := days_before_month leap month in
  if n <? preceding
  then (month - 1, n - (preceding - days_in_month leap (month - 1)) + 1)
  else (month, n - preceding + 1).
Definition ord2ymd (ordinal : Z) : Z * Z * Z :=
  let n := ordinal - 1 in
  let '(n400, n) := Z.div_eucl n 146097 in
  let '(n100, n) := Z.div_eucl n 36524 in
  let '(n4, n) := Z.div_eucl n 1461 in
  let '(n1, n) := Z.div_eucl n 365 in
  let year := n400 * 400 + 1 + n100 * 100 + n4 * 4 + n1 in
  if (n1 =? 4) || (n100 =? 4) then (year - 1, 12, 31)
  else
    let leapyear := (n1 =? 3) && (negb (n4 =? 24) || (n100 =? 3)) in
    let '(month, day) := month_day leapyear n in
    (year, month, day).

Record valid_date (y m d : Z) : Prop := {
  vd_month : 1 <= m <= 12; vd_day : 1 <= d <= days_in_month (is_leap y) m }.

(** Facts on the months, checked one by one. *)
Lemma forall_between (P : Z -> bool) (k n : Z) :
  forallb P (map Z.of_nat (seq 0 (Z.to_nat k))) = true -> 0 <= n < k -> P n = true.
Proof.
  intros H Hn. rewrite forallb_forall in H. apply H. apply in_map_iff. exists (Z.to_nat n).
  split; [lia|]. apply in_seq. lia.
Qed.
Definition month_day_ok (leap : bool) (n : Z) : bool :=
  let '(m, d) := month_day leap n in
  (1 <=? m) && (m <=? 12) && (1 <=? d) && (d <=? days_in_month leap m) && (days_before_month leap m + d =? n + 1).
Lemma month_day_spec (leap : bool) n m d :
  0 <= n < (if leap then 366 else 365) -> month_day leap n = (m, d) ->
  1 <= m <= 12 /\ 1 <= d <= days_in_month leap m /\ days_before_month leap m + d = n + 1.
Proof.
  intros Hn E. assert (H : month_day_ok leap n = true).
  { destruct leap; [refine (forall_between (month_day_ok true) 366 n _ Hn)
                   |refine (forall_between (month_day_ok false) 365 n _ Hn)]; vm_compute; reflexivity. }
  unfold month_day_ok in H. rewrite E in H. to_prop. lia.
Qed.
Definition month_step_ok (leap : bool) (m : Z) : bool :=
  (days_before_month leap (m + 1) + days_in_month leap (m + 1) <=? (if leap then 366 else 365)) &&
  forallb (fun m' => (m' <=? m) || (days_before_month leap (m + 1) + days_in_month leap (m + 1) <=? days_before_month leap (m' + 1)))
    (map Z.of_nat (seq 0 12)).
Lemma month_step (leap : bool) m :
  1 <= m <= 12 ->
  0 <= days_before_month leap m /\ days_before_month leap m + days_in_month leap m <= (if leap then 366 else 365) /\
  forall m', m < m' <= 12 -> days_before_month leap m + days_in_month leap m <= days_before_month leap m'.
Proof.
  intros Hm. assert (H : month_step_ok leap (m - 1) = true).
  { destruct leap; refine (forall_between (month_step_ok _) 12 (m - 1) _ _); try lia; vm_compute; reflexivity. }
  unfold month_step_ok in H. to_prop. replace (m - 1 + 1) with m in * by lia. split; [|split; [done|]].
  - unfold days_before_month, month_entry. assert (Hnth : Forall (fun x => 0 <= x) DAYS_BEFORE_MONTH) by (repeat constructor; lia).
    rewrite Forall_forall in Hnth. pose proof (nth_In DAYS_BEFORE_MONTH 0 (n := Z.to_nat (m - 1)) ltac:(simpl; lia)) as Hin.
    apply list_elem_of_In, Hnth in Hin. destruct ((2 <? m) && leap); lia.
  - intros m' Hm'. rewrite forallb_forall in H0. specialize (H0 (m' - 1)).
    replace (m' - 1 + 1) with m' in H0 by lia.
    assert (Hin : In (m' - 1) (map Z.of_nat (seq 0 12))).
    { apply in_map_iff. exists (Z.to_nat (m' - 1)). split; [lia|]. apply in_seq. lia. }
    apply H0, orb_true_iff in Hin as [Hin|Hin]; to_prop; lia.
Qed.

Lemma is_leap_spec y :
  is_leap y = true <-> y mod 4 = 0 /\ (y mod 100 <> 0 \/ y mod 400 = 0).
Proof. unfold is_leap. rewrite andb_true_iff, orb_true_iff, negb_true_iff, !Z.eqb_eq, Z.eqb_neq. done. Qed.
Lemma days_before_next_year y :
  days_before_year (y + 1) = days_before_year y + (if is_leap y then 366 else 365).
Proof.
  unfold days_before_year. replace (y + 1 - 1) with y by lia.
  destruct (is_leap y) eqn:E.
  - apply is_leap_spec in E as [H4 H]. Z.to_euclidean_division_equations. lia.
  - assert (H : ~ (y mod 4 = 0 /\ (y mod 100 <> 0 \/ y mod 400 = 0))) by (rewrite <- is_leap_spec; congruence).
    Z.to_euclidean_division_equations. lia.
Qed.
Lemma days_before_year_mono y y' : y < y' -> days_before_year (y + 1) <= days_before_year y'.
Proof. intros H. unfold days_before_year. Z.to_euclidean_division_equations. lia. Qed.

(** Dates order as their ordinals. *)
Definition date_compare (a b : Z * Z * Z) : comparison :=
  match a.1.1 ?= b.1.1 with
  | Eq => match a.1.2 ?= b.1.2 with Eq => a.2 ?= b.2 | c => c end
  | c => c
  end.
Lemma ymd2ord_year y m d :
  valid_date y m d -> days_before_year y < ymd2ord y m d <= days_before_year (y + 1).
Proof.
  intros [Hm Hd]. unfold ymd2ord. destruct (month_step (is_leap y) m Hm) as (? & ? & _).
  rewrite days_before_next_year. lia.
Qed.
Lemma ymd2ord_lt y m d y' m' d' :
  valid_date y m d -> valid_date y' m' d' -> date_compare (y, m, d) (y', m', d') = Lt ->
  ymd2ord y m d < ymd2ord y' m' d'.
Proof.
  intros Hv Hv'. unfold date_compare. simpl. destruct (Z.compare_spec y y') as [->|Hy|]; [|intros _|done].
  - destruct Hv as [Hm Hd], Hv' as [Hm' Hd']. unfold ymd2ord.
    destruct (Z.compare_spec m m') as [->|H|]; [|intros _|done].
    + destruct (Z.compare_spec d d'); [done| |done]. lia.
    + destruct (month_step (is_leap y') m Hm) as (_ & _ & H'). specialize (H' m' ltac:(lia)). lia.
  - apply ymd2ord_year in Hv, Hv'. pose proof (days_before_year_mono _ _ Hy). lia.
Qed.
Lemma date_compare_antisym a b : date_compare b a = CompOpp (date_compare a b).
Proof.
  unfold date_compare. rewrite (Z.compare_antisym a.1.1), (Z.compare_antisym a.1.2), (Z.compare_antisym a.2).
  by destruct (a.1.1 ?= b.1.1), (a.1.2 ?= b.1.2).
Qed.
Lemma date_compare_eq a b : date_compare a b = Eq -> a = b.
Proof.
  unfold date_compare. destruct a as [[y m] d], b as [[y' m'] d']. simpl.
  destruct (Z.compare_spec y y'), (Z.compare_spec m m'), (Z.compare_spec d d'); congruence.
Qed.
Lemma ymd2ord_compare y m d y' m' d' :
  valid_date y m d -> valid_date y' m' d' ->
  date_compare (y, m, d) (y', m', d') = (ymd2ord y m d ?= ymd2ord y' m' d').
Proof.
  intros Hv Hv'. destruct (date_compare (y, m, d) (y', m', d')) eqn:E; symmetry.
  - apply date_compare_eq in E. injection E as -> -> ->. apply Z.compare_refl.
  - apply Z.compare_lt_iff. by apply ymd2ord_lt.
  - apply Z.compare_gt_iff, ymd2ord_lt; [done..|]. by rewrite date_compare_antisym, E.
Qed.

Lemma div_eucl_spec a b q r : 0 < b -> Z.div_eucl a b = (q, r) -> a = b * q + r /\ 0 <= r < b.
Proof. intros Hb E. pose proof (Z_div_mod a b ltac:(lia)) as H. by rewrite E in H. Qed.
(** The days before the year at a position of the 400-year cycle. *)
Lemma days_before_cycle n400 n100 n4 n1 :
  0 <= n100 <= 3 -> 0 <= n4 <= 24 -> 0 <= n1 <= 3 ->
  days_before_year (n400 * 400 + 1 + n100 * 100 + n4 * 4 + n1) =
  n400 * 146097 + n100 * 36524 + n4 * 1461 + n1 * 365.
Proof. intros. unfold days_before_year. Z.to_euclidean_division_equations. lia. Qed.
Lemma is_leap_cycle n400 n100 n4 n1 :
  0 <= n100 <= 3 -> 0 <= n4 <= 24 -> 0 <= n1 <= 3 ->
  is_leap (n400 * 400 + 1 + n100 * 100 + n4 * 4 + n1) = (n1 =? 3) && (negb (n4 =? 24) || (n100 =? 3)).
Proof.
  intros. apply eq_bool_prop_intro. rewrite !Is_true_true, is_leap_spec, andb_true_iff, orb_true_iff, negb_true_iff,
    !Z.eqb_eq, Z.eqb_neq. split; intros; Z.to_euclidean_division_equations; lia.
Qed.
Lemma ord2ymd_spec n y m d :
  1 <= n -> ord2ymd n = (y, m, d) -> valid_date y m d /\ ymd2ord y m d = n.
Proof.
  intros Hn. unfold ord2ymd.
  destruct (Z.div_eucl (n - 1) 146097) as [n400 r400] eqn:E1. apply div_eucl_spec in E1; [|lia].
  destruct (Z.div_eucl r400 36524) as [n100 r100] eqn:E2. apply div_eucl_spec in E2; [|lia].
  destruct (Z.div_eucl r100 1461) as [n4 r4] eqn:E3. apply div_eucl_spec in E3; [|lia].
  destruct (Z.div_eucl r4 365) as [n1 r] eqn:E4. apply div_eucl_spec in E4; [|lia].
  assert (0 <= n100 <= 4 /\ 0 <= n4 <= 24 /\ 0 <= n1 <= 4) as (H1 & H2 & H3) by lia.
  destruct ((n1 =? 4) || (n100 =? 4)) eqn:Elast.
  - intros [= <- <- <-].
    assert (Hlast : n1 = 4 /\ n100 <= 3 /\ r = 0 \/ n100 = 4 /\ n4 = 0 /\ n1 = 0 /\ r = 0).
    { apply orb_true_iff in Elast as [E|E]; to_prop; lia. }
    set (y := n400 * 400 + 1 + n100 * 100 + n4 * 4 + n1 - 1).
    assert (Hleap : is_leap y = true /\ days_before_year y + 366 = n).
    { destruct Hlast as [(-> & ? & ->)|(-> & -> & -> & ->)].
      - replace y with (n400 * 400 + 1 + n100 * 100 + n4 * 4 + 3) by (subst y; lia).
        rewrite is_leap_cycle, days_before_cycle by lia. split; [|lia].
        destruct (Z.eqb_spec n4 24) as [->|]; [|done]. destruct (Z.eqb_spec n100 3) as [->|]; [done|]. lia.
      - replace y with (n400 * 400 + 1 + 3 * 100 + 24 * 4 + 3) by (subst y; lia).
        rewrite is_leap_cycle, days_before_cycle by lia. split; [done|lia]. }
    destruct Hleap as [Hleap Hord]. split; [constructor; rewrite ?Hleap; split; by vm_compute|].
    unfold ymd2ord. rewrite Hleap. change (days_before_month true 12) with 335. lia.
  - apply orb_false_iff in Elast as [En1 En100]. to_prop.
    rewrite <- (is_leap_cycle n400) by lia. set (y0 := n400 * 400 + 1 + n100 * 100 + n4 * 4 + n1) in *.
    destruct (month_day (is_leap y0) r) as [m0 d0] eqn:E. intros [= <- <- <-].
    assert (Hr : 0 <= r < (if is_leap y0 then 366 else 365)) by (destruct (is_leap y0); lia).
    destruct (month_day_spec _ _ _ _ Hr E) as (Hm & Hd & Hord). split; [done|].
    unfold ymd2ord. subst y0. rewrite days_before_cycle by lia. lia.
Qed.
Lemma ord2ymd_compare n n' :
  1 <= n -> 1 <= n' -> date_compare (ord2ymd n) (ord2ymd n') = (n ?= n').
Proof.
  intros Hn Hn'. destruct (ord2ymd n) as [[y m] d] eqn:E, (ord2ymd n') as [[y' m'] d'] eqn:E'.
  apply ord2ymd_spec in E as [Hv <-]; [|done]. apply ord2ymd_spec in E' as [Hv' <-]; [|done].
  by apply ymd2ord_compare.
Qed.

(** ** Fields of a reading *)
Definition EPOCH_ORDINAL : Z := 719163.
Definition MAX_ORDINAL : Z := 3652059.
Definition DAY_US : Z := 86400000000.
Definition fields := (Z * Z * Z * Z * Z * Z * Z)%type.
Definition fields_of (us : Z) : fields :=
  let '(y, m, d) := ord2ymd (us / DAY_US + EPOCH_ORDINAL) in
  let t := us mod DAY_US in
  (y, m, d, t / 3600000000, t / 60000000 mod 60, t / 1000000 mod 60, t mod 1000000).
(** The wall clock of a [datetime(y, m, d, h, mi, s, us)], when it is one. *)
Definition wall_of (f : fields) : option Z :=
  let '(y, m, d, h, mi, s, us) := f in
  if (1 <=? y) && (y <=? 9999) && (1 <=? m) && (m <=? 12) && (1 <=? d) && (d <=? days_in_month (is_leap y) m) &&
     (0 <=? h) && (h <=? 23) && (0 <=? mi) && (mi <=? 59) && (0 <=? s) && (s <=? 59) && (0 <=? us) && (us <=? 999999)
  then Some ((ymd2ord y m d - EPOCH_ORDINAL) * DAY_US + h * 3600000000 + mi * 60000000 + s * 1000000 + us)
  else None.
(** The readings a [datetime] can hold. *)
Definition in_range (us : Z) : bool :=
  (1 <=? us / DAY_US + EPOCH_ORDINAL) && (us / DAY_US + EPOCH_ORDINAL <=? MAX_ORDINAL).

Lemma days_before_10000 : days_before_year 10000 = MAX_ORDINAL.
Proof. reflexivity. Qed.
Lemma in_range_year us y m d :
  in_range us = true -> ord2ymd (us / DAY_US + EPOCH_ORDINAL) = (y, m, d) ->
  valid_date y m d /\ ymd2ord y m d = us / DAY_US + EPOCH_ORDINAL /\ 1 <= y <= 9999.
Proof.
  unfold in_range. intros H E. to_prop. apply ord2ymd_spec in E as [Hv Ho]; [|lia].
  split; [done|]. split; [done|]. apply ymd2ord_year in Hv. pose proof days_before_10000.
  assert (days_before_year 1 = 0) by done.
  destruct (Z.le_gt_cases y 0); [pose proof (days_before_year_mono y 1 ltac:(lia)); lia|].
  destruct (Z.le_gt_cases 10000 y) as [Hy|]; [|lia].
  destruct (decide (y = 10000)) as [->|]; [|pose proof (days_before_year_mono 10000 y ltac:(lia))].
  - pose proof (days_before_next_year 10000). lia.
  - pose proof (days_before_year_mono 9999 10000 ltac:(lia)). pose proof (days_before_next_year 10000).
    destruct (is_leap 10000); lia.
Qed.
Lemma wall_of_fields us : in_range us = true -> wall_of (fields_of us) = Some us.
Proof.
  intros Hr. unfold fields_of. destruct (ord2ymd (us / DAY_US + EPOCH_ORDINAL)) as [[y m] d] eqn:E.
  destruct (in_range_year us y m d Hr E) as ([Hm Hd] & Ho & Hy).
  pose proof (Z.mod_pos_bound us DAY_US ltac:(unfold DAY_US; lia)) as Ht.
  pose proof (Z.div_mod us DAY_US ltac:(unfold DAY_US; lia)) as Hdm.
  set (t := us mod DAY_US) in *. unfold DAY_US in Ht.
  assert (Hf : 0 <= t / 3600000000 <= 23 /\ 0 <= t / 60000000 mod 60 <= 59 /\ 0 <= t / 1000000 mod 60 <= 59 /\
               0 <= t mod 1000000 <= 999999 /\
               t / 3600000000 * 3600000000 + t / 60000000 mod 60 * 60000000 + t / 1000000 mod 60 * 1000000 +
               t mod 1000000 = t).
  { clear -Ht. Z.to_euclidean_division_equations. lia. }
  destruct Hf as (Hh & Hmi & Hs & Hu & Hsum). unfold wall_of. rewrite Ho.
  repeat match goal with |- context [(?a <=? ?b)%Z] => rewrite (proj2 (Z.leb_le a b)) by lia end.
  cbn [andb]. f_equal. lia.
Qed.

(** ** [isoformat] of a UTC reading *)
Definition digit (n : Z) : ascii := ascii_of_N (48 + Z.to_N n).
Fixpoint digits (k : nat) (n : Z) : list ascii :=
  match k with O => [] | S k => digits k (n / 10) ++ [digit (n mod 10)] end.
Definition fraction (us : Z) : list ascii := if us =? 0 then [] else "."%char :: digits 6 us.
Definition UTC_OFFSET : list ascii := ["+"; "0"; "0"; ":"; "0"; "0"]%char.
Definition iso_fields (f : fields) : list ascii :=
  let '(y, m, d, h, mi, s, us) := f in
  digits 4 y ++ "-"%char :: digits 2 m ++ "-"%char :: digits 2 d ++ "T"%char ::
  digits 2 h ++ ":"%char :: digits 2 mi ++ ":"%char :: digits 2 s ++ fraction us ++ UTC_OFFSET.
Definition iso_list (us : Z) : list ascii := iso_fields (fields_of us).
(** [datetime.isoformat()] of the aware UTC reading [us]. *)
Definition isoformat (us : Z) : string := string_of_list_ascii (iso_list us).
Example isoformat_ex : isoformat 1783688310000000 = "2026-07-10T12:58:30+00:00"%string.
Proof. vm_compute. reflexivity. Qed.
Example isoformat_ex' : isoformat (-62135596799999999) = "0001-01-01T00:00:00.000001+00:00"%string.
Proof. vm_compute. reflexivity. Qed.

(** ** Texts order as the readings *)
Fixpoint text_compare (a b : list ascii) : comparison :=
  match a, b with
  | [], [] => Eq
  | [], _ => Lt
  | _, [] => Gt
  | x :: a, y :: b => match Ascii.compare x y with Eq => text_compare a b | c => c end
  end.
Lemma string_compare_text a b :
  String.compare (string_of_list_ascii a) (string_of_list_ascii b) = text_compare a b.
Proof. revert b. induction a as [|x a IH]; intros [|y b]; simpl; [done..|]. by rewrite IH. Qed.
Lemma text_compare_cons c a b : text_compare (c :: a) (c :: b) = text_compare a b.
Proof. simpl. unfold Ascii.compare. by rewrite N.compare_refl. Qed.
Lemma text_compare_refl a : text_compare a a = Eq.
Proof. induction a as [|c a IH]; [done|]. by rewrite text_compare_cons. Qed.
Lemma digit_code n : 0 <= n < 10 -> N_of_ascii (digit n) = (48 + Z.to_N n)%N.
Proof. intros. unfold digit. apply N_ascii_embedding. lia. Qed.
Lemma digit_compare x y : 0 <= x < 10 -> 0 <= y < 10 -> Ascii.compare (digit x) (digit y) = (x ?= y).
Proof.
  intros Hx Hy. unfold Ascii.compare. rewrite !digit_code by done.
  destruct (Z.compare_spec x y); [subst; apply N.compare_refl|apply N.compare_lt_iff|apply N.compare_gt_iff]; lia.
Qed.
Lemma digits_compare k : forall x y r s,
  0 <= x < 10 ^ Z.of_nat k -> 0 <= y < 10 ^ Z.of_nat k ->
  text_compare (digits k x ++ r) (digits k y ++ s) = match x ?= y with Eq => text_compare r s | c => c end.
Proof.
  induction k as [|k IH]; intros x y r s Hx Hy.
  - replace x with 0 by lia. replace y with 0 by lia. done.
  - rewrite Nat2Z.inj_succ, Z.pow_succ_r in Hx, Hy by lia. cbn [digits]. rewrite <- !app_assoc. cbn [app].
    rewrite IH by (split; [apply Z.div_pos; lia|apply Z.div_lt_upper_bound; lia]). cbn [text_compare].
    pose proof (Z.mod_pos_bound x 10 ltac:(lia)). pose proof (Z.mod_pos_bound y 10 ltac:(lia)).
    pose proof (Z.div_mod x 10 ltac:(lia)). pose proof (Z.div_mod y 10 ltac:(lia)).
    rewrite digit_compare by done.
    destruct (Z.compare_spec (x / 10) (y / 10)), (Z.compare_spec (x mod 10) (y mod 10)), (Z.compare_spec x y); done || lia.
Qed.

Fixpoint lex (l : list comparison) : comparison :=
  match l with [] => Eq | c :: l => match c with Eq => lex l | c => c end end.
Lemma fraction_compare a b :
  0 <= a < 1000000 -> 0 <= b < 1000000 ->
  text_compare (fraction a ++ UTC_OFFSET) (fraction b ++ UTC_OFFSET) = (a ?= b).
Proof.
  intros Ha Hb. unfold fraction. destruct (Z.eqb_spec a 0), (Z.eqb_spec b 0); subst; [done|..].
  - symmetry. by apply Z.compare_lt_iff; lia.
  - symmetry. by apply Z.compare_gt_iff; lia.
  - cbn [app]. rewrite text_compare_cons, digits_compare by (change (10 ^ Z.of_nat 6) with 1000000; lia).
    rewrite text_compare_refl. by destruct (a ?= b).
Qed.
Lemma pair_compare b x y r s : 0 <= r < b -> 0 <= s < b -> (x * b + r ?= y * b + s) = match x ?= y with Eq => r ?= s | c => c end.
Proof.
  intros. destruct (Z.compare_spec x y) as [->|Hc|Hc].
  - destruct (Z.compare_spec r s); [subst; apply Z.compare_refl|apply Z.compare_lt_iff|apply Z.compare_gt_iff]; lia.
  - apply Z.compare_lt_iff. nia.
  - apply Z.compare_gt_iff. nia.
Qed.
(** The date and the time of the day of a reading, compared in turn. *)
Lemma reading_compare a b :
  (a ?= b) = match a / DAY_US ?= b / DAY_US with
             | Eq => lex [a mod DAY_US / 3600000000 ?= b mod DAY_US / 3600000000;
                          a mod DAY_US / 60000000 mod 60 ?= b mod DAY_US / 60000000 mod 60;
                          a mod DAY_US / 1000000 mod 60 ?= b mod DAY_US / 1000000 mod 60;
                          a mod DAY_US mod 1000000 ?= b mod DAY_US mod 1000000]
             | c => c
             end.
Proof.
  assert (Hd : 0 < DAY_US) by done.
  rewrite (Z.div_mod a DAY_US), (Z.div_mod b DAY_US), !(Z.mul_comm DAY_US) by lia.
  rewrite pair_compare by (apply Z.mod_pos_bound; lia).
  rewrite <- !(Z.mul_comm DAY_US), <- !Z.div_mod by lia.
  destruct (a / DAY_US ?= b / DAY_US); [|done|done].
  pose proof (Z.mod_pos_bound a DAY_US Hd) as Ha. pose proof (Z.mod_pos_bound b DAY_US Hd) as Hb.
  set (s := a mod DAY_US) in *. set (t := b mod DAY_US) in *. unfold DAY_US in *.
  assert (Hsplit : forall u, u = ((u / 3600000000 * 60 + u / 60000000 mod 60) * 60 + u / 1000000 mod 60) * 1000000 + u mod 1000000).
  { intros u. Z.to_euclidean_division_equations. lia. }
  rewrite (Hsplit s) at 1. rewrite (Hsplit t) at 1.
  rewrite !pair_compare by (apply Z.mod_pos_bound; lia). cbn [lex].
  by destruct (s / 3600000000 ?= t / 3600000000), (s / 60000000 mod 60 ?= t / 60000000 mod 60),
    (s / 1000000 mod 60 ?= t / 1000000 mod 60), (s mod 1000000 ?= t mod 1000000).
Qed.
Lemma days_in_month_max leap m : days_in_month leap m <= 31.
Proof.
  unfold days_in_month, month_entry. destruct ((m =? 2) && leap); [lia|].
  assert (H : Forall (fun x => x <= 31) DAYS_IN_MONTH) by (repeat constructor; lia).
  destruct (nth_in_or_default (Z.to_nat (m - 1)) DAYS_IN_MONTH 0) as [Hin|E]; [|rewrite E; lia].
  rewrite Forall_forall in H. apply H. by apply list_elem_of_In.
Qed.
Lemma isoformat_compare a b :
  in_range a = true -> in_range b = true -> String.compare (isoformat a) (isoformat b) = (a ?= b).
Proof.
  intros Ha Hb. unfold isoformat. rewrite string_compare_text. unfold iso_list, fields_of.
  destruct (ord2ymd (a / DAY_US + EPOCH_ORDINAL)) as [[y m] d] eqn:Ea.
  destruct (ord2ymd (b / DAY_US + EPOCH_ORDINAL)) as [[y' m'] d'] eqn:Eb.
  pose proof (in_range_year _ _ _ _ Ha Ea) as (Hv & Ho & Hy). pose proof (in_range_year _ _ _ _ Hb Eb) as (Hv' & Ho' & Hy').
  assert (Hdate : date_compare (y, m, d) (y', m', d') = (a / DAY_US ?= b / DAY_US)).
  { rewrite ymd2ord_compare, Ho, Ho' by done. rewrite !(Z.add_comm _ EPOCH_ORDINAL). by rewrite Zcompare_plus_compat. }
  pose proof (days_in_month_max (is_leap y) m). pose proof (days_in_month_max (is_leap y') m').
  rewrite (reading_compare a b), <- Hdate. clear Hdate Ho Ho' Ea Eb. destruct Hv as [Hm Hd], Hv' as [Hm' Hd'].
  pose proof (Z.mod_pos_bound a DAY_US ltac:(done)) as Hta. pose proof (Z.mod_pos_bound b DAY_US ltac:(done)) as Htb.
  set (s := a mod DAY_US) in *. set (t := b mod DAY_US) in *. unfold DAY_US in Hta, Htb.
  assert (Hr : forall u, 0 <= u < 86400000000 -> 0 <= u / 3600000000 < 24 /\ 0 <= u / 60000000 mod 60 < 60 /\
            0 <= u / 1000000 mod 60 < 60 /\ 0 <= u mod 1000000 < 1000000).
  { intros u Hu. Z.to_euclidean_division_equations. lia. }
  destruct (Hr s Hta) as (? & ? & ? & ?), (Hr t Htb) as (? & ? & ? & ?). clear Hr.
  unfold iso_fields, date_compare.
  repeat (rewrite digits_compare by (change (10 ^ Z.of_nat 4) with 10000; change (10 ^ Z.of_nat 2) with 100; lia);
          rewrite ?text_compare_cons).
  rewrite fraction_compare by done. cbn [lex fst snd].
  by destruct (y ?= y'), (m ?= m'), (d ?= d'), (s / 3600000000 ?= t / 3600000000),
    (s / 60000000 mod 60 ?= t / 60000000 mod 60), (s / 1000000 mod 60 ?= t / 1000000 mod 60),
    (s mod 1000000 ?= t mod 1000000).
Qed.

(** ** [datetime.fromisoformat]

    The parser of Python 3.11 ([_strptime]-free, datetime.py), on ASCII texts with
    ASCII digits; [None] is its [ValueError]. *)
Definition digit_value (c : ascii) : option Z := if is_digit c then Some (Z.of_N (code c) - 48) else None.
(** [int(text)] of a nonempty text of digits. *)
Fixpoint int_from (acc : Z) (l : list ascii) : option Z :=
  match l with [] => Some acc | c :: l => v ← digit_value c; int_from (acc * 10 + v) l end.
Definition int_digits (l : list ascii) : option Z := match l with [] => None | _ => int_from 0 l end.
Definition is_at (l : list ascii) (i : nat) (c : ascii) : bool :=
  match nth_error l i with Some x => Ascii.eqb x c | None => false end.
Definition slice (i n : nat) (l : list ascii) : list ascii := take n (drop i l).
Definition guard_ (b : bool) : option unit := if b then Some tt else None.
Fixpoint digit_prefix (l : list ascii) : nat :=
  match l with c :: l => if is_digit c then S (digit_prefix l) else O | [] => O end.

(** [_find_isoformat_datetime_separator] *)
Definition find_separator (l : list ascii) : option nat :=
  let n := length l in
  if (n =? 7)%nat then Some 7%nat
  else if is_at l 4 "-" then
    if is_at l 5 "W" then
      if (8 <? n)%nat && is_at l 8 "-" then
        if (n =? 9)%nat then None
        else if (1 <=? digit_prefix (drop 10 l))%nat then Some 8%nat else Some 10%nat
      else Some 8%nat
    else Some 10%nat
  else if is_at l 4 "W" then
    let idx := (7 + digit_prefix (drop 7 l))%nat in
    if (idx <? 9)%nat then Some idx else if Nat.even idx then Some 7%nat else Some 8%nat
  else Some 8%nat.

(** [_isoweek_to_gregorian] *)
Definition isoweek_to_gregorian (year week day : Z) : option (Z * Z * Z) :=
  _ ← guard_ ((1 <=? year) && (year <=? 9999));
  let firstday := ymd2ord year 1 1 in
  let first_weekday := firstday mod 7 in
  _ ← guard_ (((0 <? week) && (week <? 53)) ||
              ((week =? 53) && ((first_weekday =? 4) || ((first_weekday =? 3) && is_leap year))));
  _ ← guard_ ((0 <? day) && (day <? 8));
  let firstweekday := (firstday + 6) mod 7 in
  let week1monday := firstday - firstweekday + (if 3 <? firstweekday then 7 else 0) in
  Some (ord2ymd (week1monday + (week - 1) * 7 + (day - 1))).

(** [_parse_isoformat_date] *)
Definition parse_date (l : list ascii) : option (Z * Z * Z) :=
  _ ← guard_ ((length l =? 7) || (length l =? 8) || (length l =? 10))%nat;
  year ← int_digits (slice 0 4 l);
  let sep := is_at l 4 "-" in
  let pos := if sep then 5%nat else 4%nat in
  if is_at l pos "W" then
    let pos := S pos in
    week ← int_digits (slice pos 2 l);
    let pos := (pos + 2)%nat in
    if (pos <? length l)%nat then
      _ ← guard_ (Bool.eqb (is_at l pos "-") sep);
      let pos := if sep then S pos else pos in
      day ← int_digits (slice pos 1 l);
      isoweek_to_gregorian year week day
    else isoweek_to_gregorian year week 1
  else
    month ← int_digits (slice pos 2 l);
    let pos := (pos + 2)%nat in
    _ ← guard_ (Bool.eqb (is_at l pos "-") sep);
    let pos := if sep then S pos else pos in
    day ← int_digits (slice pos 2 l);
    Some (year, month, day).

(** The fraction after a dot or a comma: six digits count, the rest must be digits. *)
Definition parse_fraction (l : list ascii) : option Z :=
  let n := Nat.min 6 (length l) in
  v ← int_digits (take n l);
  _ ← guard_ (forallb is_digit (drop n l));
  Some (v * 10 ^ (6 - Z.of_nat n)).
(** [_parse_hh_mm_ss_ff] *)
Definition parse_hh_mm_ss_ff (l : list ascii) : option (Z * Z * Z * Z) :=
  let finish (h m s : Z) (rest : list ascii) :=
    match rest with
    | [] => Some (h, m, s, 0)
    | c :: rest =>
        _ ← guard_ (Ascii.eqb c "." || Ascii.eqb c ",");
        us ← parse_fraction rest;
        Some (h, m, s, us)
    end in
  _ ← guard_ (2 <=? length l)%nat;
  h ← int_digits (take 2 l);
  let l := drop 2 l in
  let sep := is_at l 0 ":" in
  let next (l : list ascii) : option (list ascii) :=
    if sep then (_ ← guard_ (is_at l 0 ":"); Some (drop 1 l)) else Some l in
  match l with
  | [] => finish h 0 0 []
  | _ =>
      l ← next l;
      _ ← guard_ (2 <=? length l)%nat;
      m ← int_digits (take 2 l);
      let l := drop 2 l in
      match l with
      | [] => finish h m 0 []
      | _ =>
          l ← next l;
          _ ← guard_ (2 <=? length l)%nat;
          s ← int_digits (take 2 l);
          finish h m s (drop 2 l)
      end
  end.

Fixpoint find_char (c : ascii) (l : list ascii) : option nat :=
  match l with [] => None | x :: l => if Ascii.eqb x c then Some O else S <$> find_char c l end.
Definition timezone_position (l : list ascii) : option nat :=
  match find_char "-" l with
  | Some i => Some i
  | None => match find_char "+" l with Some i => Some i | None => find_char "Z" l end
  end.
(** [_parse_isoformat_time]: the time of the day and the offset in microseconds. *)
Definition parse_time (l : list ascii) : option (Z * Z * Z * Z * option Z) :=
  _ ← guard_ (2 <=? length l)%nat;
  let tz_pos := timezone_position l in
  time ← parse_hh_mm_ss_ff (match tz_pos with Some i => take i l | None => l end);
  match tz_pos with
  | None => Some (time, None)
  | Some i =>
      let tzstr := drop (S i) l in
      if is_at l i "Z" && (length tzstr =? 0)%nat then Some (time, Some 0)
      else
        _ ← guard_ (negb ((length tzstr =? 0) || (length tzstr =? 1) || (length tzstr =? 3)))%nat;
        tz ← parse_hh_mm_ss_ff tzstr;
        let '(h, m, s, us) := tz in
        let delta := h * 3600000000 + m * 60000000 + s * 1000000 + us in
        _ ← guard_ (delta <? DAY_US);
        Some (time, Some (if is_at l i "-" then - delta else delta))
  end.

Definition fromisoformat_list (l : list ascii) : option datetime :=
  _ ← guard_ (7 <=? length l)%nat;
  sep ← find_separator l;
  date ← parse_date (take sep l);
  let '(y, m, d) := date in
  let tstr := drop (S sep) l in
  time ← (match tstr with [] => Some (0, 0, 0, 0, None) | _ => parse_time tstr end);
  let '(h, mi, s, us, offset) := time in
  wall ← wall_of (y, m, d, h, mi, s, us);
  Some (Datetime wall offset).
Definition fromisoformat (text : string) : option datetime := fromisoformat_list (list_ascii_of_string text).

Example fromisoformat_exs :
  map fromisoformat ["2026-07-10T12:58:30+00:00"; "20260710T125830Z"; "2026-W28-5 12:58:30.5-01:00"; "2026-02-30"; "2026-07-10"]%string
  = [Some (utc 1783688310000000); Some (utc 1783688310000000);
     Some (Datetime 1783688310500000 (Some (-3600000000))); None; Some (Datetime 1783641600000000 None)].
Proof. vm_compute. reflexivity. Qed.

(** [fromisoformat] inverts [isoformat]. *)
Lemma digit_value_digit n : 0 <= n < 10 -> digit_value (digit n) = Some n.
Proof.
  intros Hn. assert (Hc := digit_code n Hn). unfold digit_value, is_digit, code. rewrite Hc.
  rewrite (proj2 (N.leb_le _ _)), (proj2 (N.leb_le _ _)) by lia. cbn [andb]. f_equal. lia.
Qed.
Lemma int_from_digits k : forall n acc l,
  0 <= n < 10 ^ Z.of_nat k ->
  int_from acc (digits k n ++ l) = int_from (acc * 10 ^ Z.of_nat k + n) l.
Proof.
  induction k as [|k IH]; intros n acc l Hn.
  - replace n with 0 by lia. cbn [digits app]. f_equal. cbn. lia.
  - rewrite Nat2Z.inj_succ, Z.pow_succ_r in * by lia. cbn [digits]. rewrite <- app_assoc. cbn [app].
    rewrite IH by (split; [apply Z.div_pos; lia|apply Z.div_lt_upper_bound; lia]). cbn [int_from].
    rewrite digit_value_digit by (apply Z.mod_pos_bound; lia). cbn. f_equal.
    pose proof (Z.div_mod n 10 ltac:(lia)). lia.
Qed.
Lemma int_digits_digits k n : 0 <= n < 10 ^ Z.of_nat (S k) -> int_digits (digits (S k) n) = Some n.
Proof.
  intros Hn. unfold int_digits. assert (H : digits (S k) n <> []) by (cbn [digits]; by destruct (digits k (n / 10))).
  destruct (digits (S k) n) as [|c l] eqn:E; [done|]. rewrite <- E, <- (app_nil_r (digits (S k) n)).
  by rewrite int_from_digits.
Qed.
Lemma length_digits k n : length (digits k n) = k.
Proof. revert n. induction k as [|k IH]; intros n; [done|]. cbn [digits]. rewrite length_app, IH. cbn. lia. Qed.
Lemma digit_other n c : 0 <= n < 10 -> is_digit c = false -> Ascii.eqb (digit n) c = false.
Proof.
  intros Hn Hc. destruct (Ascii.eqb_spec (digit n) c) as [<-|]; [|done].
  pose proof (digit_value_digit n Hn) as H. unfold digit_value in H. by rewrite Hc in H.
Qed.
Lemma find_char_digits c k n l :
  is_digit c = false -> find_char c (digits k n ++ l) = Nat.add k <$> find_char c l.
Proof.
  intros Hc. revert n l. induction k as [|k IH]; intros n l; [cbn [digits app]; by destruct (find_char c l)|].
  cbn [digits]. rewrite <- app_assoc. cbn [app]. rewrite IH. cbn [find_char].
  rewrite digit_other by (done || apply Z.mod_pos_bound; lia).
  destruct (find_char c l); [|done]. cbn. f_equal. lia.
Qed.
Definition time_ok (h mi s us : Z) : Prop := 0 <= h < 24 /\ 0 <= mi < 60 /\ 0 <= s < 60 /\ 0 <= us < 1000000.
Definition iso_time (h mi s us : Z) : list ascii :=
  digits 2 h ++ ":"%char :: digits 2 mi ++ ":"%char :: digits 2 s ++ fraction us.

Lemma take_digits k n l : take k (digits k n ++ l) = digits k n.
Proof. apply take_app_length'. symmetry; apply length_digits. Qed.
Lemma drop_digits k n l : drop k (digits k n ++ l) = l.
Proof. apply drop_app_length'. symmetry; apply length_digits. Qed.
Lemma two_digits n l : 0 <= n < 100 -> int_digits (take 2 (digits 2 n ++ l)) = Some n.
Proof. intros. rewrite take_digits. by apply int_digits_digits. Qed.
Lemma long_enough k n l : (k <=? length (digits k n ++ l))%nat = true.
Proof. apply Nat.leb_le. rewrite length_app, length_digits. lia. Qed.

Lemma parse_iso_time h mi s us :
  time_ok h mi s us -> parse_hh_mm_ss_ff (iso_time h mi s us) = Some (h, mi, s, us).
Proof.
  intros (Hh & Hm & Hs & Hu). unfold parse_hh_mm_ss_ff, iso_time. rewrite long_enough. cbn [guard_ mbind option_bind].
  rewrite two_digits, !drop_digits by lia. cbn [mbind option_bind is_at nth_error drop].
  change (Ascii.eqb ":" ":") with true. cbn [guard_ mbind option_bind drop]. rewrite ?drop_0.
  rewrite long_enough. cbn [guard_ mbind option_bind].
  rewrite two_digits, !drop_digits by lia. cbn [mbind option_bind is_at nth_error drop].
  change (Ascii.eqb ":" ":") with true. cbn [guard_ mbind option_bind drop]. rewrite ?drop_0. rewrite long_enough. cbn [guard_ mbind option_bind].
  rewrite two_digits, !drop_digits by lia. cbn [mbind option_bind]. unfold fraction.
  destruct (Z.eqb_spec us 0) as [->|]; [done|]. change (Ascii.eqb "." "." || Ascii.eqb "." ",") with true.
  cbn [guard_ mbind option_bind]. unfold parse_fraction. rewrite length_digits. change (6 `min` 6)%nat with 6%nat.
  rewrite <- (app_nil_r (digits 6 us)), take_digits, drop_digits.
  rewrite int_digits_digits by (change (10 ^ Z.of_nat 6) with 1000000; lia). cbn. do 2 f_equal. lia.
Qed.
Lemma find_char_fraction c us l :
  is_digit c = false -> Ascii.eqb "." c = false ->
  find_char c (fraction us ++ l) = Nat.add (length (fraction us)) <$> find_char c l.
Proof.
  intros Hd Hp. unfold fraction. destruct (us =? 0); cbn [app length]; [by destruct (find_char c l)|].
  cbn [find_char]. rewrite Hp, find_char_digits, length_digits by done. by destruct (find_char c l).
Qed.
Lemma find_char_time c h mi s us l :
  is_digit c = false -> Ascii.eqb ":" c = false -> Ascii.eqb "." c = false ->
  find_char c (iso_time h mi s us ++ l) = Nat.add (length (iso_time h mi s us)) <$> find_char c l.
Proof.
  intros Hd Hc Hp. unfold iso_time. rewrite <- !app_assoc. cbn [app]. rewrite <- !app_assoc. cbn [app]. rewrite <- !app_assoc.
  rewrite find_char_digits by done. cbn [find_char]. rewrite Hc, find_char_digits by done. cbn [find_char].
  rewrite Hc, find_char_digits, find_char_fraction by done.
  rewrite !length_app. cbn [length]. rewrite !length_app. cbn [length]. rewrite !length_app, !length_digits.
  destruct (find_char c l); [|done]. cbn. f_equal; lia.
Qed.
Lemma timezone_position_iso h mi s us :
  timezone_position (iso_time h mi s us ++ UTC_OFFSET) = Some (length (iso_time h mi s us)).
Proof. unfold timezone_position. rewrite !find_char_time by done. cbn. f_equal; lia. Qed.
Lemma parse_time_iso h mi s us :
  time_ok h mi s us -> parse_time (iso_time h mi s us ++ UTC_OFFSET) = Some (h, mi, s, us, Some 0).
Proof.
  intros Ht. unfold parse_time.
  assert (Hlen : (2 <=? length (iso_time h mi s us ++ UTC_OFFSET))%nat = true).
  { apply Nat.leb_le. rewrite length_app. cbn. lia. }
  rewrite Hlen, timezone_position_iso. cbn [guard_ mbind option_bind].
  rewrite take_app_length, parse_iso_time by done. cbn [mbind option_bind].
  assert (Hdrop : drop (S (length (iso_time h mi s us))) (iso_time h mi s us ++ UTC_OFFSET) = ["0"; "0"; ":"; "0"; "0"]%char).
  { rewrite drop_app_ge by lia. by replace (S _ - _)%nat with 1%nat by lia. }
  rewrite Hdrop. unfold is_at. rewrite !nth_error_app2, Nat.sub_diag by lia. reflexivity.
Qed.
(** A text that starts as an ISO date does. *)
Lemma iso_date_list y m d rest :
  exists a b c e f g h i, digits 4 y ++ "-"%char :: digits 2 m ++ "-"%char :: digits 2 d ++ rest =
    a :: b :: c :: e :: "-"%char :: f :: g :: "-"%char :: h :: i :: rest /\
  digits 4 y = [a; b; c; e] /\ digits 2 m = [f; g] /\ digits 2 d = [h; i].
Proof. do 8 eexists. repeat split. Qed.
Lemma fromisoformat_iso us : in_range us = true -> fromisoformat (isoformat us) = Some (utc us).
Proof.
  intros Hr. pose proof (wall_of_fields us Hr) as Hw. unfold fromisoformat, isoformat.
  rewrite list_ascii_of_string_of_list_ascii. unfold iso_list.
  destruct (fields_of us) as [[[[[[y m] d] h] mi] s] u] eqn:E. unfold iso_fields.
  assert (Hok : 0 <= y < 10000 /\ 0 <= m < 100 /\ 0 <= d < 100 /\ time_ok h mi s u).
  { unfold wall_of in Hw. destruct (_ && _) eqn:Hb in Hw; [|discriminate]. to_prop.
    pose proof (days_in_month_max (is_leap y) m). unfold time_ok. lia. }
  destruct Hok as (Hy & Hm & Hd & Ht).
  assert (Eq : digits 4 y ++ "-"%char :: digits 2 m ++ "-"%char :: digits 2 d ++ "T"%char ::
          digits 2 h ++ ":"%char :: digits 2 mi ++ ":"%char :: digits 2 s ++ fraction u ++ UTC_OFFSET =
          digits 4 y ++ "-"%char :: digits 2 m ++ "-"%char :: digits 2 d ++ "T"%char :: iso_time h mi s u ++ UTC_OFFSET).
  { unfold iso_time. rewrite <- !app_assoc. cbn [app]. rewrite <- !app_assoc. cbn [app]. by rewrite <- !app_assoc. }
  rewrite Eq. clear Eq.
  destruct (iso_date_list y m d ("T"%char :: iso_time h mi s u ++ UTC_OFFSET))
    as (a & b & c & e & f & g & p & q & -> & Hdy & Hdm & Hdd).
  assert (Hf : Ascii.eqb f "W" = false).
  { cbn [digits app] in Hdm. injection Hdm as <- _. apply digit_other; [apply Z.mod_pos_bound; lia|done]. }
  unfold fromisoformat_list. cbn [length Nat.leb guard_ mbind option_bind].
  unfold find_separator. cbn [length Nat.eqb is_at nth_error]. change (Ascii.eqb "-" "-") with true. cbn [andb]. rewrite Hf.
  cbn [mbind option_bind take drop]. unfold parse_date, slice. cbn [length Nat.eqb orb guard_ mbind option_bind take drop is_at nth_error].
  change (Ascii.eqb "-" "-") with true. cbn [is_at nth_error take drop Nat.add]. rewrite Hf, <- Hdy, <- Hdm, <- Hdd.
  rewrite !int_digits_digits by done. cbn [mbind option_bind].
  change (Bool.eqb (Ascii.eqb "-" "-") true) with true. cbn [mbind option_bind guard_].
  assert (Hne : exists x l, iso_time h mi s u ++ UTC_OFFSET = x :: l) by (unfold iso_time; cbn; eauto).
  destruct Hne as (x & l & El). rewrite !drop_0. rewrite El at 1. cbn beta iota. rewrite parse_time_iso by done. cbn [mbind option_bind]. by rewrite Hw.
Qed.
