(* ===== verification/PyFloat.v ===== *)
(** * float

    Python's [float] as binary64 spec floats: the integers they hold, truncation
    and [timedelta(seconds=...)] of a float. *)
From Stdlib Require Export SpecFloat.
From S2P Require Import Prelude.
Local Open Scope Z_scope.

(** [float(n)] before rounding: an operand of a rounded operation. *)
Definition float_of_Z (n : Z) : spec_float :=
  match n with
  | 0 => S754_zero false
  | Z.pos p => S754_finite false p 0
  | Z.neg p => S754_finite true p 0
  end.
(** Arithmetic and comparisons of canonical binary64 values: [math.isfinite], [a + b],
    [a - b], [a * b], [min(a, b)] and [max(a, b)]. *)
Definition float_finite (f : spec_float) : bool := match f with S754_zero _ | S754_finite _ _ _ => true | _ => false end.
Definition float_add (a b : spec_float) : spec_float := SFadd 53 1024 a b.
Definition float_sub (a b : spec_float) : spec_float := SFsub 53 1024 a b.
Definition float_min (a b : spec_float) : spec_float := if SFltb b a then b else a.
Definition float_max (a b : spec_float) : spec_float := if SFltb a b then b else a.
Definition float_mul (a b : spec_float) : spec_float := SFmul 53 1024 a b.
Definition float_0 : spec_float := S754_zero false.
(** The binary64 nearest to an integer. *)
Definition float_int (n : Z) : spec_float := binary_normalize 53 1024 n 0 false.
(** [int(f)] *)
Definition float_trunc (f : spec_float) : Z :=
  match f with
  | S754_finite s m e =>
      let v := if 0 <=? e then Z.pos m * 2 ^ e else Z.pos m / 2 ^ (- e) in if s then - v else v
  | _ => 0
  end.
(** [math.isfinite(f) and f > 0] *)
Definition float_positive (f : spec_float) : bool :=
  match f with S754_finite false _ _ => true | _ => false end.

(** The fraction of a nonnegative float, as one; it is exact. *)
Definition float_fraction (f : spec_float) : spec_float := SFsub 53 1024 f (float_of_Z (float_trunc f)).
(** A fraction compared with one half. *)
Definition fraction_vs_half (f : spec_float) : comparison :=
  match f with
  | S754_finite _ m e => if 0 <=? e then Gt else 2 * Z.pos m ?= 2 ^ (- e)
  | _ => Lt
  end.
(** The microseconds of [timedelta(seconds=f)] for a positive [f]: whole seconds,
    then the fraction times a million as a float, rounded half to even. *)
Definition timedelta_us (f : spec_float) : Z :=
  let scaled := SFmul 53 1024 (float_of_Z 1000000) (float_fraction f) in
  let us := float_trunc f * 1000000 + float_trunc scaled in
  match fraction_vs_half (float_fraction scaled) with
  | Gt => us + 1
  | Eq => if Z.odd us then us + 1 else us
  | Lt => us
  end.
(** The float nearest to a decimal fraction. *)
Definition float_quotient (n d : Z) : spec_float := SFdiv 53 1024 (float_of_Z n) (float_of_Z d).
Example timedelta_exs :
  map timedelta_us [float_quotient 30 1; float_quotient 1 10; float_quotient 25 10000000; float_quotient 1999999999 1000000000]
  = [30000000; 100000; 2; 2000000].
Proof. vm_compute. reflexivity. Qed.
