(* ===== verification/PyDecimal.v ===== *)
(** * decimal.Decimal

    Finite decimals under Python's default context: twenty-eight digits, rounding
    half to even, traps on invalid operations and division by zero.  Every
    operation is the correctly rounded one of the General Decimal Arithmetic
    specification; the exponent limits of the context (999999) are not modelled,
    and infinities and NaNs never occur: parsing refuses them and the trapped
    operations raise. *)
From S2P Require Import Prelude.
Local Open Scope string_scope.
Local Open Scope Z_scope.

Record decimal := Dec { d_neg : bool; d_coef : Z; d_exp : Z }.
#[export] Instance decimal_eq_dec : EqDecision decimal.
Proof. solve_decision. Defined.

Definition ZERO : decimal := Dec false 0 0.
Definition ONE : decimal := Dec false 1 0.
Definition dec_of_Z (n : Z) : decimal := Dec (n <? 0) (Z.abs n) 0.

Definition PREC : Z := 28.
Fixpoint ndigits_fuel (fuel : nat) (n : Z) : Z :=
  match fuel with
  | O => 1
  | S fuel => if n <? 10 then 1 else 1 + ndigits_fuel fuel (n / 10)
  end.
(** The number of decimal digits of a coefficient; zero has one. *)
Definition ndigits (n : Z) : Z := ndigits_fuel (Z.to_nat (Z.log2 n)) n.

(** Rounding a coefficient to its first digits, [k] digits dropped. *)
Definition half_even (n k : Z) : Z :=
  let q := n / 10 ^ k in
  let r := n mod 10 ^ k in
  let half := 5 * 10 ^ (k - 1) in
  if (half <? r) || ((r =? half) && Z.odd q) then q + 1 else q.
(** [Decimal._fix] *)
Definition fix_ (d : decimal) : decimal :=
  let k := ndigits (d_coef d) - PREC in
  if k <=? 0 then d
  else
    let q := half_even (d_coef d) k in
    if q =? 10 ^ PREC then Dec (d_neg d) (10 ^ (PREC - 1)) (d_exp d + k + 1)
    else Dec (d_neg d) q (d_exp d + k).

(** The signed coefficient at exponent [m], when [m] is at most the exponent. *)
Definition scaled (m : Z) (d : decimal) : Z :=
  (if d_neg d then - d_coef d else d_coef d) * 10 ^ (d_exp d - m).
Definition common (a b : decimal) : Z := Z.min (d_exp a) (d_exp b).
Definition dec_compare (a b : decimal) : comparison :=
  scaled (common a b) a ?= scaled (common a b) b.
Definition dec_ltb (a b : decimal) : bool := match dec_compare a b with Lt => true | _ => false end.
Definition dec_leb (a b : decimal) : bool := match dec_compare a b with Gt => false | _ => true end.
Definition dec_eqb (a b : decimal) : bool := match dec_compare a b with Eq => true | _ => false end.

Definition is_zero (d : decimal) : bool := d_coef d =? 0.
(** [-x] and [abs(x)]: a zero result is positive, and both round. *)
Definition dec_neg (d : decimal) : decimal :=
  if is_zero d then Dec false 0 (d_exp d) else fix_ (Dec (negb (d_neg d)) (d_coef d) (d_exp d)).
Definition dec_abs (d : decimal) : decimal := fix_ (Dec false (d_coef d) (d_exp d)).
Definition dec_add (a b : decimal) : decimal :=
  let m := common a b in
  let s := scaled m a + scaled m b in
  if s =? 0 then Dec (is_zero a && is_zero b && d_neg a && d_neg b) 0 m
  else fix_ (Dec (s <? 0) (Z.abs s) m).
Definition dec_sub (a b : decimal) : decimal :=
  dec_add a (Dec (negb (d_neg b)) (d_coef b) (d_exp b)).
Definition dec_mul (a b : decimal) : decimal :=
  fix_ (Dec (xorb (d_neg a) (d_neg b)) (d_coef a * d_coef b) (d_exp a + d_exp b)).

(** Dropping trailing zeros while the exponent is below the ideal one. *)
Fixpoint strip_zeros (fuel : nat) (n e ideal : Z) : Z * Z :=
  match fuel with
  | O => (n, e)
  | S fuel => if (e <? ideal) && (n mod 10 =? 0) then strip_zeros fuel (n / 10) (e + 1) ideal else (n, e)
  end.
Definition dec_div (a b : decimal) : result decimal :=
  if is_zero b then
    Raise (if is_zero a then Exn "InvalidOperation" "undefined" else Exn "DivisionByZero" "division by zero")
  else
    let sign := xorb (d_neg a) (d_neg b) in
    if is_zero a then Ok (Dec sign 0 (d_exp a - d_exp b))
    else
      let shift := ndigits (d_coef b) - ndigits (d_coef a) + PREC + 1 in
      let e := d_exp a - d_exp b - shift in
      let n := if 0 <=? shift then d_coef a * 10 ^ shift else d_coef a in
      let m := if 0 <=? shift then d_coef b else d_coef b * 10 ^ (- shift) in
      let q := n / m in
      if n mod m =? 0 then
        let '(c, e') := strip_zeros (Z.to_nat (d_exp a - d_exp b - e)) q e (d_exp a - d_exp b) in
        Ok (fix_ (Dec sign c e'))
      else Ok (fix_ (Dec sign (if q mod 5 =? 0 then q + 1 else q) e)).

(** [value.quantize(Decimal(1).scaleb(-places), rounding=ROUND_DOWN)] *)
Definition quantize_down_to (d : decimal) (e : Z) : result decimal :=
  if is_zero d then Ok (Dec (d_neg d) 0 e)
  else
    let adjusted := d_exp d + ndigits (d_coef d) - 1 in
    if PREC <? adjusted - e + 1
    then Raise (Exn "InvalidOperation" "quantize result has too many digits for current context")
    else
      let c := if e <=? d_exp d then d_coef d * 10 ^ (d_exp d - e) else d_coef d / 10 ^ (e - d_exp d) in
      Ok (Dec (d_neg d) c e).

(** The builtins [max] and [min] keep their first argument on a tie. *)
Definition dec_max (a b : decimal) : decimal := if dec_ltb a b then b else a.
Definition dec_min (a b : decimal) : decimal := if dec_ltb b a then b else a.

(** [Decimal(str(delta.total_seconds()))] of a timedelta of [us] microseconds: the
    shortest decimal of the quotient, with at least one place.  Exact below 10^15
    microseconds, where fifteen digits determine the float. *)
Definition seconds_decimal (us : Z) : decimal :=
  let '(c, e) := strip_zeros 5 (Z.abs us) (-6) (-1) in Dec (us <? 0) c e.

(** A decimal as the arithmetic produces it: at most 28 digits. *)
Definition wf (d : decimal) : Prop := 0 <= d_coef d.
Definition representable (d : decimal) : Prop := 0 <= d_coef d < 10 ^ PREC.
Definition to_Z_trunc (d : decimal) : Z :=
  let c := if 0 <=? d_exp d then d_coef d * 10 ^ d_exp d else d_coef d / 10 ^ (- d_exp d) in
  if d_neg d then - c else c.

(** ** Comparison *)
Lemma pow10_pos n : 0 <= n -> 0 < 10 ^ n.
Proof. intros. by apply Z.pow_pos_nonneg. Qed.
Lemma scaled_shift m m' d :
  m' <= m -> m <= d_exp d -> scaled m' d = scaled m d * 10 ^ (m - m').
Proof.
  intros H1 H2. unfold scaled. rewrite <- Z.mul_assoc, <- Z.pow_add_r by lia. do 2 f_equal. lia.
Qed.
Lemma compare_at m a b :
  m <= d_exp a -> m <= d_exp b -> dec_compare a b = (scaled m a ?= scaled m b).
Proof.
  intros Ha Hb. unfold dec_compare, common. set (c := Z.min (d_exp a) (d_exp b)).
  rewrite (scaled_shift c m a), (scaled_shift c m b) by lia.
  pose proof (pow10_pos (c - m) ltac:(lia)) as Hp.
  destruct (Z.compare_spec (scaled c a) (scaled c b)); symmetry.
  - apply Z.compare_eq_iff. congruence.
  - apply Z.compare_lt_iff. nia.
  - apply Z.compare_gt_iff. nia.
Qed.
Lemma dec_ltb_at m a b :
  m <= d_exp a -> m <= d_exp b -> dec_ltb a b = true <-> scaled m a < scaled m b.
Proof. intros. unfold dec_ltb. rewrite (compare_at m) by done. destruct (Z.compare_spec (scaled m a) (scaled m b)); split; try done; lia. Qed.
Lemma dec_leb_at m a b :
  m <= d_exp a -> m <= d_exp b -> dec_leb a b = true <-> scaled m a <= scaled m b.
Proof. intros. unfold dec_leb. rewrite (compare_at m) by done. destruct (Z.compare_spec (scaled m a) (scaled m b)); split; try done; lia. Qed.
Lemma dec_eqb_at m a b :
  m <= d_exp a -> m <= d_exp b -> dec_eqb a b = true <-> scaled m a = scaled m b.
Proof. intros. unfold dec_eqb. rewrite (compare_at m) by done. destruct (Z.compare_spec (scaled m a) (scaled m b)); split; try done; lia. Qed.

(** ** Digits *)
Lemma ndigits_fuel_spec fuel : forall n,
  0 < n < 10 * 2 ^ Z.of_nat fuel ->
  1 <= ndigits_fuel fuel n /\ 10 ^ (ndigits_fuel fuel n - 1) <= n < 10 ^ ndigits_fuel fuel n.
Proof.
  induction fuel as [|fuel IH]; intros n Hn; cbn [ndigits_fuel].
  { simpl in Hn. change (10 ^ (1 - 1)) with 1. change (10 ^ 1) with 10. lia. }
  destruct (Z.ltb_spec n 10).
  { change (10 ^ (1 - 1)) with 1. change (10 ^ 1) with 10. lia. }
  rewrite Nat2Z.inj_succ, Z.pow_succ_r in Hn by lia.
  pose proof (Z.div_mod n 10 ltac:(lia)). pose proof (Z.mod_pos_bound n 10 ltac:(lia)).
  destruct (IH (n / 10)) as (HA & HB & HC); [nia|]. set (k := ndigits_fuel fuel (n / 10)) in *.
  split; [lia|]. replace (1 + k - 1) with (k - 1 + 1) by lia. replace (1 + k) with (k + 1) by lia.
  rewrite !Z.pow_add_r by lia. change (10 ^ 1) with 10. nia.
Qed.
Lemma ndigits_spec n : 0 < n -> 1 <= ndigits n /\ 10 ^ (ndigits n - 1) <= n < 10 ^ ndigits n.
Proof.
  intros Hn. apply ndigits_fuel_spec. pose proof (Z.log2_spec n Hn) as [_ H].
  rewrite Z2Nat.id by apply Z.log2_nonneg. rewrite Z.pow_succ_r in H by apply Z.log2_nonneg.
  pose proof (Z.pow_nonneg 2 (Z.log2 n) ltac:(lia)). lia.
Qed.
Lemma ndigits_le n k : 0 <= n < 10 ^ k -> 1 <= k -> ndigits n <= k.
Proof.
  intros Hn Hk. destruct (decide (n = 0)) as [->|]; [change (ndigits 0) with 1; lia|].
  destruct (ndigits_spec n ltac:(lia)) as (H1 & H2 & _).
  destruct (decide (ndigits n <= k)); [done|].
  assert (10 ^ k <= 10 ^ (ndigits n - 1)) by (apply Z.pow_le_mono_r; lia). lia.
Qed.

(** ** Rounding *)
Lemma fix_representable d : representable d -> fix_ d = d.
Proof.
  intros Hd. unfold fix_. pose proof (ndigits_le (d_coef d) PREC Hd ltac:(unfold PREC; lia)).
  by rewrite (proj2 (Z.leb_le _ _)) by lia.
Qed.

(** The result of rounding, as a multiple of the unit it keeps: nearest or next. *)
Lemma fix_cases d :
  0 <= d_coef d ->
  (ndigits (d_coef d) <= PREC /\ fix_ d = d) \/
  (exists k q, 0 < k /\ k = ndigits (d_coef d) - PREC /\
     d_neg (fix_ d) = d_neg d /\ 0 <= d_coef (fix_ d) < 10 ^ PREC /\ d_exp d + k <= d_exp (fix_ d) /\
     scaled (d_exp d + k) (fix_ d) = (if d_neg d then - q else q) /\
     q * 10 ^ k < d_coef d + 10 ^ k /\ d_coef d < q * 10 ^ k + 10 ^ k /\
     10 ^ (PREC - 1) <= q <= 10 ^ PREC).
Proof.
  intros Hc. unfold fix_. set (k := ndigits (d_coef d) - PREC).
  destruct (Z.leb_spec k 0); [left; split; [lia|done]|right].
  assert (Hpos : 0 < d_coef d).
  { destruct (decide (d_coef d = 0)) as [E|]; [|lia]. exfalso. subst k. rewrite E in *. change (ndigits 0) with 1 in *. unfold PREC in *. lia. }
  destruct (ndigits_spec _ Hpos) as (_ & Hlo & Hhi).
  assert (Hk : ndigits (d_coef d) = k + PREC) by lia. rewrite Hk in Hlo, Hhi.
  pose proof (pow10_pos k ltac:(lia)) as Hp.
  pose proof (Z.div_mod (d_coef d) (10 ^ k) ltac:(lia)) as Hdm.
  pose proof (Z.mod_pos_bound (d_coef d) (10 ^ k) Hp) as Hm.
  replace (k + PREC - 1) with (PREC - 1 + k) in Hlo by lia.
  replace (k + PREC) with (PREC + k) in Hhi by lia.
  rewrite Z.pow_add_r in Hlo, Hhi by (unfold PREC; lia).
  set (q := half_even (d_coef d) k).
  assert (Hq : q * 10 ^ k < d_coef d + 10 ^ k /\ d_coef d < q * 10 ^ k + 10 ^ k /\
               10 ^ (PREC - 1) <= q <= 10 ^ PREC).
  { subst q. unfold half_even. set (q0 := d_coef d / 10 ^ k) in *. set (r := d_coef d mod 10 ^ k) in *.
    assert (10 ^ (PREC - 1) <= q0 < 10 ^ PREC) by nia.
    pose proof (pow10_pos (k - 1) ltac:(lia)) as Hp1.
    destruct (_ || _) eqn:E; [|lia].
    assert (0 < r).
    { apply orb_true_iff in E as [E|E]; [apply Z.ltb_lt in E; lia|].
      apply andb_true_iff in E as [E _]. apply Z.eqb_eq in E. lia. }
    lia. }
  clearbody q. assert (Hc0 : 0 < 10 ^ (PREC - 1) < 10 ^ PREC) by (vm_compute; done).
  assert (Hc1 : 10 ^ PREC = 10 ^ (PREC - 1) * 10 ^ 1) by (vm_compute; done).
  destruct Hq as (Hq1 & Hq2 & Hq3 & Hq4).
  exists k, q. split; [lia|]. split; [reflexivity|].
  destruct (Z.eqb_spec q (10 ^ PREC)) as [E|E]; unfold scaled; cbn [d_neg d_coef d_exp];
    (split; [reflexivity|]; split; [lia|]; split; [lia|]; split; [|lia]).
  - replace (d_exp d + k + 1 - (d_exp d + k)) with 1 by lia. rewrite E, Hc1. destruct (d_neg d); lia.
  - replace (d_exp d + k - (d_exp d + k)) with 0 by lia. change (10 ^ 0) with 1. destruct (d_neg d); lia.
Qed.

Lemma fix_neg d : 0 <= d_coef d -> d_neg (fix_ d) = d_neg d.
Proof. intros H. destruct (fix_cases d H) as [[_ ->]|(k & q & _ & _ & -> & _)]; done. Qed.
Lemma fix_is_representable d : 0 <= d_coef d -> representable (fix_ d).
Proof.
  intros H. destruct (fix_cases d H) as [[Hd ->]|(k & q & _ & _ & _ & Hr & _)]; [|done].
  split; [done|]. destruct (decide (d_coef d = 0)) as [->|]; [done|].
  destruct (ndigits_spec (d_coef d) ltac:(lia)) as (H1 & _ & Hlt).
  assert (10 ^ ndigits (d_coef d) <= 10 ^ PREC) by (apply Z.pow_le_mono_r; lia). lia.
Qed.

(** Rounding never passes a representable bound: what is exactly below a decimal of
    at most 28 digits is below it after rounding. *)
Lemma fix_below x y :
  0 <= d_coef x -> d_neg x = false -> representable y -> d_neg y = false ->
  dec_leb x y = true -> dec_leb (fix_ x) y = true.
Proof.
  intros Hx Hnx [Hy0 Hy] Hny Hle.
  destruct (fix_cases x Hx) as [[_ ->]|(k & q & Hk & Hkd & Hn & Hc & He & Hs & Hq1 & Hq2 & Hq3)]; [done|].
  set (u := d_exp x + k) in *. set (m := Z.min (d_exp x) (d_exp y)).
  apply (dec_leb_at m) in Hle; [|lia|lia]. apply (dec_leb_at m); [lia|lia|].
  rewrite (scaled_shift u m (fix_ x)) by lia. rewrite Hs, Hnx.
  unfold scaled in Hle |- *. rewrite Hnx, Hny in *.
  set (Y := d_coef y * 10 ^ (d_exp y - m)) in *.
  assert (Hux : 10 ^ (u - m) = 10 ^ k * 10 ^ (d_exp x - m)).
  { rewrite <- Z.pow_add_r by lia. f_equal. lia. }
  pose proof (pow10_pos (d_exp x - m) ltac:(lia)) as P1. pose proof (pow10_pos k ltac:(lia)) as P2.
  destruct (decide (u <= d_exp y)) as [Huy|Huy].
  - (* [y] is a multiple of the unit kept *)
    assert (HY : Y = d_coef y * 10 ^ (d_exp y - u) * 10 ^ (u - m)).
    { subst Y. rewrite <- Z.mul_assoc, <- Z.pow_add_r by lia. do 2 f_equal. lia. }
    rewrite HY in *. set (z := d_coef y * 10 ^ (d_exp y - u)) in *. rewrite Hux in *.
    destruct (decide (q <= z)); [nia|]. exfalso.
    assert (z * 10 ^ k <= q * 10 ^ k - 10 ^ k) by nia. nia.
  - (* [y] would be smaller than the smallest [x] that rounds *)
    exfalso.
    assert (HP : 10 ^ (PREC - 1) * 10 ^ 1 = 10 ^ PREC) by done.
    assert (HY : Y < 10 ^ PREC * 10 ^ (d_exp y - m)).
    { subst Y. apply Z.mul_lt_mono_pos_r; [apply pow10_pos; lia|done]. }
    assert (Hxl : 10 ^ (PREC - 1) * 10 ^ k <= d_coef x).
    { assert (0 < d_coef x).
      { destruct (decide (d_coef x = 0)) as [E|]; [|lia]. rewrite E in Hkd.
        change (ndigits 0) with 1 in Hkd. unfold PREC in Hkd. lia. }
      destruct (ndigits_spec (d_coef x) ltac:(lia)) as (_ & Hlo & _).
      rewrite <- Z.pow_add_r by (unfold PREC; lia). replace (PREC - 1 + k) with (ndigits (d_coef x) - 1) by lia. lia. }
    assert (Hm : 10 ^ (d_exp y - m) * 10 ^ 1 <= 10 ^ (u - m)).
    { rewrite <- Z.pow_add_r by lia. apply Z.pow_le_mono_r; lia. }
    rewrite Hux in Hm. change (10 ^ 1) with 10 in *.
    pose proof (pow10_pos (d_exp y - m) ltac:(lia)).
    assert (0 < 10 ^ (PREC - 1)) by done. nia.
Qed.

(** ** Products, quotients and quantization below a bound *)
Lemma dec_mul_neg a b : 0 <= d_coef a -> 0 <= d_coef b -> d_neg (dec_mul a b) = xorb (d_neg a) (d_neg b).
Proof. intros. unfold dec_mul. rewrite fix_neg; [done|]. simpl. nia. Qed.
Lemma dec_mul_representable a b : 0 <= d_coef a -> 0 <= d_coef b -> representable (dec_mul a b).
Proof. intros. apply fix_is_representable. simpl. nia. Qed.
(** A product by a ratio of at most one does not exceed the other factor. *)
Lemma dec_mul_ratio a r :
  representable a -> d_neg a = false -> 0 <= d_coef r -> d_neg r = false -> dec_leb r ONE = true ->
  dec_leb (dec_mul a r) a = true.
Proof.
  intros Ha Hna Hr Hnr Hle. unfold dec_mul. apply fix_below; try done; simpl.
  - destruct Ha. nia.
  - by rewrite Hna, Hnr.
  - set (mr := Z.min (d_exp r) 0). set (m := d_exp a + mr).
    apply (dec_leb_at mr) in Hle; [|lia|simpl; lia]. apply (dec_leb_at m); simpl; [lia|lia|].
    unfold scaled in *. simpl in *. rewrite Hna, Hnr in *. simpl in *.
    replace (d_exp a + d_exp r - m) with (d_exp r - mr) by lia.
    replace (d_exp a - m) with (0 - mr) by lia. destruct Ha. nia.
Qed.

(** Quantizing a nonnegative decimal rounds down and keeps it representable. *)
Lemma quantize_down_spec d e q :
  0 <= d_coef d -> quantize_down_to d e = Ok q ->
  representable q /\ d_neg q = d_neg d /\ d_exp q = e /\
  (d_neg d = false -> dec_leb q d = true).
Proof.
  intros Hd. unfold quantize_down_to, is_zero. destruct (Z.eqb_spec (d_coef d) 0) as [E|E].
  { intros [= <-]. simpl. split; [done|]. split; [done|]. split; [done|]. intros Hn.
    apply (dec_leb_at (Z.min e (d_exp d))); simpl; [lia|lia|]. unfold scaled. simpl. rewrite Hn, E. lia. }
  destruct (Z.ltb_spec PREC (d_exp d + ndigits (d_coef d) - 1 - e + 1)) as [|Hp]; [done|].
  intros [= <-]. simpl. destruct (ndigits_spec (d_coef d) ltac:(lia)) as (H1 & _ & Hlt).
  destruct (Z.leb_spec e (d_exp d)) as [He|He].
  - pose proof (pow10_pos (d_exp d - e) ltac:(lia)). split; [|split; [done|]; split; [done|]].
    + split; [simpl; nia|]. simpl.
      assert (10 ^ ndigits (d_coef d) * 10 ^ (d_exp d - e) <= 10 ^ PREC).
      { rewrite <- Z.pow_add_r by lia. apply Z.pow_le_mono_r; lia. }
      nia.
    + intros Hn. apply (dec_leb_at e); simpl; [lia|lia|]. unfold scaled. simpl. rewrite Hn, Z.sub_diag. simpl. lia.
  - pose proof (pow10_pos (e - d_exp d) ltac:(lia)) as Hp10.
    pose proof (Z.mul_div_le (d_coef d) (10 ^ (e - d_exp d)) Hp10).
    split; [|split; [done|]; split; [done|]].
    + split; [simpl; apply Z.div_pos; lia|]. simpl. apply Z.div_lt_upper_bound; [done|].
      rewrite <- Z.pow_add_r by (unfold PREC in *; lia).
      eapply Z.lt_le_trans; [done|]. apply Z.pow_le_mono_r; lia.
    + intros Hn. apply (dec_leb_at (d_exp d)); simpl; [lia|lia|]. unfold scaled. simpl.
      rewrite Hn, Z.sub_diag. simpl. nia.
Qed.

Lemma dec_leb_trans a b c : dec_leb a b = true -> dec_leb b c = true -> dec_leb a c = true.
Proof.
  set (m := Z.min (d_exp a) (Z.min (d_exp b) (d_exp c))).
  rewrite !(dec_leb_at m) by lia. lia.
Qed.
Lemma dec_leb_refl a : dec_leb a a = true.
Proof. apply (dec_leb_at (d_exp a)); lia. Qed.
Lemma dec_ltb_leb a b : dec_ltb a b = negb (dec_leb b a).
Proof.
  set (m := common a b). assert (m <= d_exp a /\ m <= d_exp b) as [] by (unfold m, common; lia).
  apply eq_true_iff_eq. rewrite negb_true_iff, <- not_true_iff_false.
  rewrite (dec_ltb_at m), (dec_leb_at m) by done. lia.
Qed.
Lemma dec_ltb_le a b : dec_ltb a b = true -> dec_leb a b = true.
Proof.
  set (m := common a b). assert (m <= d_exp a /\ m <= d_exp b) as [] by (unfold m, common; lia).
  rewrite (dec_ltb_at m), (dec_leb_at m) by done. lia.
Qed.
(** [min] never exceeds its first argument and is one of the two. *)
Lemma dec_min_le a b : dec_leb (dec_min a b) a = true.
Proof. unfold dec_min. destruct (dec_ltb b a) eqn:E; [by apply dec_ltb_le|apply dec_leb_refl]. Qed.
Lemma dec_min_cases a b : dec_min a b = a \/ dec_min a b = b.
Proof. unfold dec_min. destruct (dec_ltb b a); auto. Qed.

(** Signs. *)
Lemma dec_ltb_zero a : 0 <= d_coef a -> dec_ltb ZERO a = true <-> d_neg a = false /\ d_coef a <> 0.
Proof.
  intros Ha. rewrite (dec_ltb_at (Z.min 0 (d_exp a))) by (simpl; lia). unfold scaled. simpl.
  pose proof (pow10_pos (d_exp a - Z.min 0 (d_exp a)) ltac:(lia)). destruct (d_neg a); split.
  - nia.
  - by intros [? _].
  - intros. split; [done|]. intros E. rewrite E in *. lia.
  - intros [_ ?]. nia.
Qed.
Lemma dec_gtb_zero a : 0 <= d_coef a -> dec_ltb a ZERO = true <-> d_neg a = true /\ d_coef a <> 0.
Proof.
  intros Ha. rewrite (dec_ltb_at (Z.min 0 (d_exp a))) by (simpl; lia). unfold scaled. simpl.
  pose proof (pow10_pos (d_exp a - Z.min 0 (d_exp a)) ltac:(lia)). destruct (d_neg a); split.
  - intros. split; [done|]. intros E. rewrite E in *. lia.
  - intros [_ ?]. nia.
  - nia.
  - by intros [? _].
Qed.
Lemma dec_eqb_zero a : 0 <= d_coef a -> dec_eqb a ZERO = true <-> d_coef a = 0.
Proof.
  intros Ha. rewrite (dec_eqb_at (Z.min 0 (d_exp a))) by (simpl; lia). unfold scaled. simpl.
  pose proof (pow10_pos (d_exp a - Z.min 0 (d_exp a)) ltac:(lia)). destruct (d_neg a); split; intros; nia.
Qed.

(** ** Whole seconds against a duration *)
Lemma strip_zeros_spec fuel : forall n e ideal,
  0 <= n -> e <= ideal ->
  e <= (strip_zeros fuel n e ideal).2 <= ideal /\
  0 <= (strip_zeros fuel n e ideal).1 /\
  (strip_zeros fuel n e ideal).1 * 10 ^ ((strip_zeros fuel n e ideal).2 - e) = n.
Proof.
  induction fuel as [|fuel IH]; intros n e ideal Hn He; cbn [strip_zeros].
  { cbn [fst snd]. rewrite Z.sub_diag. change (10 ^ 0) with 1. lia. }
  destruct (_ && _) eqn:E; [|cbn [fst snd]; rewrite Z.sub_diag; change (10 ^ 0) with 1; lia].
  apply andb_true_iff in E as [E1 E2]. apply Z.ltb_lt in E1. apply Z.eqb_eq in E2.
  pose proof (Z.div_mod n 10 ltac:(lia)) as Hdm.
  destruct (IH (n / 10) (e + 1) ideal ltac:(apply Z.div_pos; lia) ltac:(lia)) as (H1 & H2 & H3).
  set (r := strip_zeros fuel (n / 10) (e + 1) ideal) in *.
  split; [lia|]. split; [done|]. replace (r.2 - e) with (r.2 - (e + 1) + 1) by lia.
  rewrite Z.pow_add_r by lia. change (10 ^ 1) with 10. rewrite Z.mul_assoc, H3. lia.
Qed.
Lemma seconds_decimal_spec us :
  -6 <= d_exp (seconds_decimal us) <= -1 /\ scaled (-6) (seconds_decimal us) = us /\
  0 <= d_coef (seconds_decimal us).
Proof.
  unfold seconds_decimal. pose proof (strip_zeros_spec 5 (Z.abs us) (-6) (-1) ltac:(lia) ltac:(lia)) as H.
  destruct (strip_zeros 5 (Z.abs us) (-6) (-1)) as [c e]. cbn [fst snd] in H. destruct H as (H1 & H2 & H3).
  unfold scaled. cbn [d_neg d_coef d_exp]. split; [done|]. split; [|done].
  destruct (Z.ltb_spec us 0); lia.
Qed.
Lemma scaled_of_Z n : scaled (-6) (dec_of_Z n) = n * 1000000.
Proof.
  unfold scaled, dec_of_Z. cbn [d_neg d_coef d_exp]. change (10 ^ (0 - -6)) with 1000000.
  destruct (Z.ltb_spec n 0); lia.
Qed.
Lemma scaled_neg_of_Z n : 0 <= n < 10 ^ PREC -> scaled (-6) (dec_neg (dec_of_Z n)) = - n * 1000000 /\ d_exp (dec_neg (dec_of_Z n)) = 0.
Proof.
  intros Hn. unfold dec_neg, dec_of_Z, is_zero. cbn [d_neg d_coef d_exp].
  rewrite Z.abs_eq, (proj2 (Z.ltb_ge n 0)) by lia.
  destruct (Z.eqb_spec n 0) as [->|]; [done|].
  rewrite fix_representable by (split; cbn; lia). cbn [d_exp]. split; [|done].
  unfold scaled. cbn [d_neg d_coef d_exp negb]. change (10 ^ (0 - -6)) with 1000000. done.
Qed.
Lemma seconds_gtb n us : dec_ltb (dec_of_Z n) (seconds_decimal us) = (n * 1000000 <? us).
Proof.
  destruct (seconds_decimal_spec us) as (H1 & H2 & _). apply eq_true_iff_eq.
  rewrite (dec_ltb_at (-6)), H2, scaled_of_Z, Z.ltb_lt by (simpl; lia). done.
Qed.
Lemma seconds_leb n us : dec_leb (seconds_decimal us) (dec_of_Z n) = (us <=? n * 1000000).
Proof.
  destruct (seconds_decimal_spec us) as (H1 & H2 & _). apply eq_true_iff_eq.
  rewrite (dec_leb_at (-6)), H2, scaled_of_Z, Z.leb_le by (simpl; lia). done.
Qed.
Lemma seconds_ltb_neg n us :
  0 <= n < 10 ^ PREC -> dec_ltb (seconds_decimal us) (dec_neg (dec_of_Z n)) = (us <? - n * 1000000).
Proof.
  intros Hn. destruct (seconds_decimal_spec us) as (H1 & H2 & _). destruct (scaled_neg_of_Z n Hn) as [H3 H4].
  apply eq_true_iff_eq. rewrite (dec_ltb_at (-6)), H2, H3, Z.ltb_lt by lia. done.
Qed.

(** ** Absolute values and unit factors *)
Lemma dec_abs_representable d : 0 <= d_coef d -> representable (dec_abs d).
Proof. intros. by apply fix_is_representable. Qed.
Lemma dec_abs_neg d : 0 <= d_coef d -> d_neg (dec_abs d) = false.
Proof. intros. unfold dec_abs. by rewrite fix_neg. Qed.
Lemma dec_abs_exact d : representable d -> dec_abs d = Dec false (d_coef d) (d_exp d).
Proof. intros H. unfold dec_abs. by rewrite fix_representable. Qed.
Lemma dec_mul_unit b d : representable d -> dec_mul (Dec b 1 0) d = Dec (xorb b (d_neg d)) (d_coef d) (d_exp d).
Proof. intros H. unfold dec_mul. cbn [d_neg d_coef d_exp]. rewrite fix_representable; [by rewrite Z.mul_1_l|]. by rewrite Z.mul_1_l. Qed.
Lemma dec_mul_zero d : dec_mul ZERO d = Dec (xorb false (d_neg d)) 0 (d_exp d).
Proof. unfold dec_mul. simpl. by rewrite fix_representable. Qed.
Lemma dec_ltb_not_leb a b : dec_ltb a b = false <-> dec_leb b a = true.
Proof. rewrite dec_ltb_leb, negb_false_iff. done. Qed.
Lemma dec_leb_not_ltb a b : dec_leb a b = false <-> dec_ltb b a = true.
Proof. rewrite dec_ltb_leb, negb_true_iff. done. Qed.
Lemma dec_max_zero a : dec_leb ZERO (dec_max ZERO a) = true.
Proof. unfold dec_max. destruct (dec_ltb ZERO a) eqn:E; [by apply dec_ltb_le|by apply dec_leb_refl]. Qed.

(** Rounding never drops below a representable bound. *)
Lemma fix_above x y :
  0 <= d_coef x -> d_neg x = false -> representable y -> d_neg y = false ->
  dec_leb y x = true -> dec_leb y (fix_ x) = true.
Proof.
  intros Hx Hnx [Hy0 Hy] Hny Hle.
  destruct (fix_cases x Hx) as [[_ ->]|(k & q & Hk & Hkd & Hn & Hc & He & Hs & Hq1 & Hq2 & Hq3)]; [done|].
  set (u := d_exp x + k) in *. set (m := Z.min (d_exp x) (d_exp y)).
  apply (dec_leb_at m) in Hle; [|lia|lia]. apply (dec_leb_at m); [lia|lia|].
  rewrite (scaled_shift u m (fix_ x)) by lia. rewrite Hs, Hnx.
  unfold scaled in Hle |- *. rewrite Hnx, Hny in *.
  set (Y := d_coef y * 10 ^ (d_exp y - m)) in *.
  assert (Hux : 10 ^ (u - m) = 10 ^ k * 10 ^ (d_exp x - m)) by (rewrite <- Z.pow_add_r by lia; f_equal; lia).
  pose proof (pow10_pos (d_exp x - m) ltac:(lia)) as P1. pose proof (pow10_pos k ltac:(lia)) as P2.
  destruct (decide (u <= d_exp y)) as [Huy|Huy].
  - assert (HY : Y = d_coef y * 10 ^ (d_exp y - u) * 10 ^ (u - m)).
    { subst Y. rewrite <- Z.mul_assoc, <- Z.pow_add_r by lia. do 2 f_equal. lia. }
    rewrite HY in *. set (z := d_coef y * 10 ^ (d_exp y - u)) in *. rewrite Hux in *.
    destruct (decide (z <= q)); [nia|]. exfalso.
    assert (q * 10 ^ k + 10 ^ k <= z * 10 ^ k) by nia. nia.
  - assert (HP : 10 ^ (PREC - 1) * 10 ^ 1 = 10 ^ PREC) by done.
    assert (HY : Y < 10 ^ PREC * 10 ^ (d_exp y - m)).
    { subst Y. apply Z.mul_lt_mono_pos_r; [apply pow10_pos; lia|done]. }
    assert (Hm : 10 ^ (d_exp y - m) * 10 ^ 1 <= 10 ^ (u - m)).
    { rewrite <- Z.pow_add_r by lia. apply Z.pow_le_mono_r; lia. }
    change (10 ^ 1) with 10 in *. pose proof (pow10_pos (d_exp y - m) ltac:(lia)).
    assert (0 < 10 ^ (PREC - 1)) by done. nia.
Qed.

(** Quotients and sums have at most 28 digits, whatever their operands. *)
Lemma dec_add_representable a b : representable (dec_add a b).
Proof.
  unfold dec_add. destruct (Z.eqb_spec (scaled (common a b) a + scaled (common a b) b) 0); [done|].
  apply fix_is_representable. simpl. lia.
Qed.
Lemma dec_div_representable a b r :
  0 <= d_coef a -> 0 <= d_coef b -> dec_div a b = Ok r -> representable r.
Proof.
  intros Ha Hb. unfold dec_div, is_zero. destruct (Z.eqb_spec (d_coef b) 0) as [E|E]; [done|].
  destruct (Z.eqb_spec (d_coef a) 0) as [E'|E']; [by intros [= <-]|]. cbv zeta.
  set (shift := _ + PREC + 1). set (n := if 0 <=? shift then _ else _). set (m := if 0 <=? shift then d_coef b else _).
  assert (Hn : 0 <= n) by (subst n; destruct (Z.leb_spec 0 shift); [pose proof (pow10_pos shift ltac:(lia)); nia|done]).
  assert (Hm : 0 < m).
  { subst m. destruct (Z.leb_spec 0 shift); [lia|]. pose proof (pow10_pos (- shift) ltac:(lia)). nia. }
  clearbody n m. pose proof (Z.div_pos n m Hn Hm) as Hq. set (ideal := d_exp a - d_exp b) in *.
  destruct (n mod m =? 0).
  - destruct (strip_zeros _ _ _ _) as [c e'] eqn:Es. intros [= <-]. apply fix_is_representable. cbn [d_coef].
    destruct (decide (ideal - shift <= ideal)) as [Hs|Hs].
    + pose proof (strip_zeros_spec (Z.to_nat (ideal - (ideal - shift))) (n / m) (ideal - shift) ideal Hq Hs) as (_ & H & _).
      by rewrite Es in H.
    + replace (Z.to_nat (ideal - (ideal - shift))) with 0%nat in Es by lia. simpl in Es. by injection Es as <- _.
  - intros [= <-]. apply fix_is_representable. cbn [d_coef]. destruct (_ =? 0); lia.
Qed.
Lemma dec_div_total a b : d_coef b <> 0 -> exists r, dec_div a b = Ok r.
Proof.
  intros H. unfold dec_div, is_zero. rewrite (proj2 (Z.eqb_neq _ _) H). destruct (_ =? 0); [by eexists|].
  cbv zeta. destruct (_ mod _ =? 0); [|by eexists]. destruct (strip_zeros _ _ _ _). by eexists.
Qed.
Lemma dec_div_neg a b r :
  0 <= d_coef a -> 0 <= d_coef b -> dec_div a b = Ok r -> d_neg r = xorb (d_neg a) (d_neg b).
Proof.
  intros Ha Hb H. pose proof (dec_div_representable _ _ _ Ha Hb H) as Hr. revert H. unfold dec_div, is_zero.
  destruct (_ =? 0); [done|]. destruct (_ =? 0); [by intros [= <-]|]. cbv zeta.
  assert (Hfix : forall sg c e, d_neg (fix_ (Dec sg c e)) = sg).
  { intros sg c e. unfold fix_. cbn [d_neg d_coef d_exp]. by repeat split_if. }
  destruct (_ mod _ =? 0); [destruct (strip_zeros _ _ _ _) as [c e']|]; intros [= <-]; by rewrite Hfix.
Qed.

(** Rounding acts on the magnitude, and never to zero. *)
Lemma fix_abs d : dec_abs (fix_ d) = fix_ (Dec false (d_coef (fix_ d)) (d_exp (fix_ d))).
Proof. done. Qed.
Lemma fix_magnitude sg c e :
  d_coef (fix_ (Dec sg c e)) = d_coef (fix_ (Dec false c e)) /\ d_exp (fix_ (Dec sg c e)) = d_exp (fix_ (Dec false c e)).
Proof. unfold fix_. cbn [d_neg d_coef d_exp]. by repeat split_if. Qed.
Lemma dec_abs_fix sg c e : 0 <= c -> dec_abs (fix_ (Dec sg c e)) = fix_ (Dec false c e).
Proof.
  intros Hc. assert (Hr : representable (fix_ (Dec sg c e))) by (apply fix_is_representable; done).
  rewrite (dec_abs_exact _ Hr). destruct (fix_magnitude sg c e) as [-> ->].
  pose proof (fix_neg (Dec false c e) Hc) as Hn. destruct (fix_ (Dec false c e)) as [n c' e']. simpl in *. by rewrite Hn.
Qed.
Lemma fix_nonzero d : 0 < d_coef d -> d_coef (fix_ d) <> 0.
Proof.
  intros Hd. destruct (fix_cases d ltac:(lia)) as [[_ ->]|(k & q & Hk & _ & _ & _ & He & Hs & _ & _ & Hq)]; [lia|].
  intros E. unfold scaled in Hs. rewrite E in Hs. assert (0 < 10 ^ (PREC - 1)) by done.
  destruct (d_neg (fix_ d)), (d_neg d); lia.
Qed.

(** The signed sum of two decimals before rounding. *)
Lemma dec_add_cases a b :
  let m := common a b in let s := scaled m a + scaled m b in
  (s = 0 /\ d_coef (dec_add a b) = 0) \/ (s <> 0 /\ dec_add a b = fix_ (Dec (s <? 0) (Z.abs s) m)).
Proof.
  cbv zeta. unfold dec_add. destruct (Z.eqb_spec (scaled (common a b) a + scaled (common a b) b) 0); [by left|by right].
Qed.
Lemma common_le a b : common a b <= d_exp a /\ common a b <= d_exp b.
Proof. unfold common. lia. Qed.
Lemma scaled_abs m d : 0 <= d_coef d -> m <= d_exp d -> Z.abs (scaled m d) = d_coef d * 10 ^ (d_exp d - m).
Proof. intros Hd Hm. unfold scaled. pose proof (pow10_pos (d_exp d - m) ltac:(lia)). destruct (d_neg d); nia. Qed.
Lemma dec_add_cases' a b m :
  m = common a b -> let s := scaled m a + scaled m b in
  (s = 0 /\ d_coef (dec_add a b) = 0) \/ (s <> 0 /\ dec_add a b = fix_ (Dec (s <? 0) (Z.abs s) m)).
Proof. intros ->. apply dec_add_cases. Qed.
(** Adding a nonnegative decimal does not fall below a representable one. *)
Lemma dec_add_above a b :
  representable a -> d_neg a = false -> 0 <= d_coef b -> d_neg b = false -> dec_leb a (dec_add a b) = true.
Proof.
  intros Ha Hna Hb Hnb. pose proof (common_le a b) as [H1 H2]. destruct Ha as [Ha Ha'].
  pose proof (pow10_pos (d_exp a - common a b) ltac:(lia)) as P1.
  pose proof (pow10_pos (d_exp b - common a b) ltac:(lia)) as P2.
  assert (Sa : 0 <= scaled (common a b) a) by (unfold scaled; rewrite Hna; nia).
  assert (Sb : 0 <= scaled (common a b) b) by (unfold scaled; rewrite Hnb; nia).
  destruct (dec_add_cases a b) as [[Hs Hz]|[Hs ->]].
  - assert (Ea : d_coef a = 0) by (unfold scaled in *; rewrite Hna in *; nia).
    set (r := dec_add a b) in *. apply (dec_leb_at (Z.min (d_exp a) (d_exp r))); [lia|lia|].
    unfold scaled. rewrite Ea, Hz, Hna. by destruct (d_neg r).
  - rewrite (proj2 (Z.ltb_ge _ _)), Z.abs_eq by lia. apply fix_above; cbn [d_coef d_neg d_exp]; [lia|done|done|done|].
    apply (dec_leb_at (common a b)); [lia|cbn; lia|]. unfold scaled at 2. cbn [d_coef d_neg d_exp].
    rewrite Z.sub_diag. change (10 ^ 0) with 1. lia.
Qed.
(** Moving from [c] towards [t], on the same side and strictly inside: the change
    opposes [c], does not vanish and is no larger than [c]. *)
Lemma dec_sub_inside c t :
  representable c -> representable t -> d_neg t = d_neg c ->
  dec_ltb (dec_abs t) (dec_abs c) = true ->
  d_neg (dec_sub t c) = negb (d_neg c) /\ d_coef (dec_sub t c) <> 0 /\
  dec_leb (dec_abs (dec_sub t c)) (dec_abs c) = true.
Proof.
  intros Hc Ht Hn Hlt. rewrite !dec_abs_exact in Hlt by done. unfold dec_sub.
  set (c' := Dec (negb (d_neg c)) (d_coef c) (d_exp c)). pose proof (common_le t c') as [H1 H2].
  set (m := common t c') in *. change (d_exp c') with (d_exp c) in H2.
  apply (dec_ltb_at m) in Hlt; [|done|done]. unfold scaled in Hlt. cbn [d_neg d_coef d_exp] in Hlt.
  set (T := d_coef t * 10 ^ (d_exp t - m)) in *. set (C := d_coef c * 10 ^ (d_exp c - m)) in *.
  assert (0 <= T) by (subst T; destruct Ht; pose proof (pow10_pos (d_exp t - m) ltac:(lia)); nia).
  assert (Hs : scaled m t + scaled m c' = if d_neg c then C - T else T - C).
  { unfold scaled, c'. cbn [d_neg d_coef d_exp]. rewrite Hn. subst T C. destruct (d_neg c); cbn [negb]; lia. }
  destruct (dec_add_cases' t c' m eq_refl) as [[E _]|[_ ->]]; rewrite Hs in *; [destruct (d_neg c); lia|].
  set (a := Z.abs (if d_neg c then C - T else T - C)). assert (Ha : a = C - T) by (subst a; destruct (d_neg c); lia).
  rewrite dec_abs_fix, (dec_abs_exact c Hc) by lia. split; [|split].
  - rewrite fix_neg by (cbn; lia). cbn. destruct (d_neg c); [apply Z.ltb_ge|apply Z.ltb_lt]; lia.
  - apply fix_nonzero. cbn. lia.
  - apply fix_below; cbn [d_neg d_coef d_exp]; [lia|done|done|done|]. apply (dec_leb_at m); cbn [d_exp]; [lia|lia|].
    unfold scaled. cbn [d_neg d_coef d_exp]. fold C. rewrite Z.sub_diag. change (10 ^ 0) with 1. lia.
Qed.
Lemma dec_leb_ltb_trans a b c : dec_leb a b = true -> dec_ltb b c = true -> dec_ltb a c = true.
Proof.
  set (m := Z.min (d_exp a) (Z.min (d_exp b) (d_exp c))).
  rewrite (dec_leb_at m), !(dec_ltb_at m) by lia. apply Z.le_lt_trans.
Qed.
(** Values are compared whatever their exponents. *)
Lemma dec_eqb_le a b : dec_eqb a b = true <-> dec_leb a b = true /\ dec_leb b a = true.
Proof. set (m := Z.min (d_exp a) (d_exp b)). rewrite (dec_eqb_at m), !(dec_leb_at m) by lia. lia. Qed.
(** A nonnegative value of at most 28 digits, whatever digits spell it. *)
Definition rounded (d : decimal) : Prop := exists r, representable r /\ d_neg r = false /\ dec_eqb r d = true.
Lemma rounded_nonneg d : rounded d -> dec_leb ZERO d = true.
Proof.
  intros (r & [Hr _] & Hn & [E _]%dec_eqb_le). apply (dec_leb_trans _ r); [|done].
  apply (dec_leb_at (Z.min 0 (d_exp r))); [simpl; lia|lia|]. unfold scaled. rewrite Hn. simpl.
  pose proof (pow10_pos (d_exp r - Z.min 0 (d_exp r)) ltac:(lia)). nia.
Qed.
Lemma nonpositive_below d c : (d_coef d = 0 \/ 0 <= d_coef d /\ d_neg d = true) -> dec_leb ZERO c = true -> dec_leb d c = true.
Proof.
  intros Hd Hc. apply (dec_leb_trans _ ZERO); [|done]. apply (dec_leb_at (Z.min 0 (d_exp d))); [lia|simpl; lia|].
  unfold scaled. simpl. pose proof (pow10_pos (d_exp d - Z.min 0 (d_exp d)) ltac:(lia)).
  destruct Hd as [->|[H1 ->]]; [by destruct (d_neg d)|nia].
Qed.
(** Taking something away does not pass above a bound of at most 28 digits. *)
Lemma dec_sub_below a b c :
  dec_leb ZERO b = true -> dec_leb a c = true -> rounded c -> dec_leb (dec_sub a b) c = true.
Proof.
  intros Hb Hac Hc. pose proof (rounded_nonneg _ Hc) as Hc0. destruct Hc as (r & Hr & Hnr & [E1 E2]%dec_eqb_le).
  apply (dec_leb_trans _ r); [|done]. pose proof (dec_leb_trans _ _ _ Hac E2) as Har. pose proof (dec_leb_trans _ _ _ Hc0 E2) as Hr0.
  unfold dec_sub. set (b' := Dec _ _ _). pose proof (common_le a b') as [H1 H2]. set (m := common a b') in *.
  change (d_exp b') with (d_exp b) in H2.
  assert (Hb' : scaled m b' <= 0).
  { apply (dec_leb_at (Z.min 0 m)) in Hb; [|simpl; lia|lia]. rewrite (scaled_shift m (Z.min 0 m) b) in Hb by lia.
    pose proof (pow10_pos (m - Z.min 0 m) ltac:(lia)). unfold scaled in Hb. simpl in Hb.
    unfold scaled, b'. cbn [d_neg d_coef d_exp]. destruct (d_neg b); simpl; nia. }
  destruct (dec_add_cases' a b' m eq_refl) as [[_ Hz]|[Hs ->]]; [apply nonpositive_below; auto|].
  destruct (Z.ltb_spec (scaled m a + scaled m b') 0) as [Hneg|Hpos].
  - assert (0 <= d_coef (Dec true (Z.abs (scaled m a + scaled m b')) m)) by (simpl; lia).
    apply nonpositive_below; [right; split; [by apply fix_is_representable|by apply fix_neg]|done].
  - rewrite Z.abs_eq by lia. apply fix_below; cbn [d_coef d_neg]; [lia|done|done|done|].
    apply (dec_leb_trans _ a); [|done]. apply (dec_leb_at m); cbn [d_exp]; [lia|lia|].
    unfold scaled at 1. cbn [d_neg d_coef d_exp]. rewrite Z.sub_diag. change (10 ^ 0) with 1. lia.
Qed.
(** The result of a subtraction that equals a nonnegative value. *)
Lemma dec_sub_rounded a b d : dec_eqb (dec_sub a b) d = true -> dec_leb ZERO d = true -> rounded d.
Proof.
  intros E Hd. pose proof (dec_add_representable a (Dec (negb (d_neg b)) (d_coef b) (d_exp b))) as Hr.
  change (dec_add a _) with (dec_sub a b) in Hr. set (s := dec_sub a b) in *. exists (Dec false (d_coef s) (d_exp s)).
  split; [exact Hr|]. split; [done|]. set (m := Z.min 0 (Z.min (d_exp s) (d_exp d))).
  apply (dec_eqb_at m) in E; [|lia|lia]. apply (dec_leb_at m) in Hd; [|simpl; lia|lia]. apply (dec_eqb_at m); cbn [d_exp]; [lia|lia|].
  change (scaled m ZERO) with 0 in Hd. unfold scaled in *. cbn [d_neg d_coef d_exp].
  destruct Hr as [Hr _]. pose proof (pow10_pos (d_exp s - m) ltac:(lia)). destruct (d_neg s); [nia|done].
Qed.
