(* ===== verification/PyFloatText.v ===== *)
(** * Floats as decimals

    [repr] of a binary64 is the shortest decimal that rounds to it, the closest one
    among the shortest; [decimal_of_float] is [Decimal(str(x))] and [float_of_decimal]
    is [float(Decimal)], correctly rounded. *)
From S2P Require Import Prelude PyFloat PyDecimal.
Local Open Scope Z_scope.

(** The binary64 nearest to a positive quotient, with its sign. *)
Definition float_ratio (neg : bool) (n d : positive) : spec_float :=
  SFdiv 53 1024 (S754_finite neg n 0) (S754_finite false d 0).
(** [float(c * 10 ** e)] *)
Definition float_of_scientific (neg : bool) (c : Z) (e : Z) : spec_float :=
  match c with
  | Z.pos p => float_ratio neg (p * Z.to_pos (10 ^ Z.max e 0)) (Z.to_pos (10 ^ Z.max (- e) 0))
  | _ => S754_zero neg
  end.
(** [float(d)]; a decimal above the range raises nothing: it is infinite. *)
Definition float_of_decimal (d : decimal) : spec_float := float_of_scientific (d_neg d) (d_coef d) (d_exp d).

(** A positive float as a quotient of integers. *)
Definition ratio_of (m : positive) (e : Z) : Z * Z := (Z.pos m * 2 ^ Z.max e 0, 2 ^ Z.max (- e) 0).
(** The position of its decimal point: [10 ^ (k - 1) <= n / d < 10 ^ k]. *)
Definition decimal_point (n d : Z) : Z := if d <=? n then ndigits (n / d) else 1 - ndigits (d / n).
(** The two decimals of [places] digits around it, when they round to it; the closer one first. *)
Definition candidates (x : spec_float) (n d k places : Z) : list Z :=
  let up := 10 ^ Z.max (places - k) 0 in
  let down := 10 ^ Z.max (k - places) 0 in
  let c := (n * up) / (d * down) in
  let twice := 2 * (n * up - c * (d * down)) in
  let near := if (twice <? d * down) || ((twice =? d * down) && Z.even c) then [c; c + 1] else [c + 1; c] in
  List.filter (fun c => SFeqb (float_of_scientific false c (k - places)) x) near.
Fixpoint shortest_from (x : spec_float) (n d k : Z) (fuel : nat) (places : Z) : Z * Z :=
  match candidates x n d k places, fuel with
  | c :: _, _ => (c, k - places)
  | [], S fuel => shortest_from x n d k fuel (places + 1)
  | [], O => ((n * 10 ^ Z.max (places - k) 0) / (d * 10 ^ Z.max (k - places) 0), k - places)
  end.
(** The shortest digits of a positive float with their exponent; seventeen always do. *)
Definition shortest (m : positive) (e : Z) : Z * Z :=
  let '(n, d) := ratio_of m e in
  let '(c, x) := shortest_from (S754_finite false m e) n d (decimal_point n d) 16 1 in
  if c mod 10 =? 0 then (c / 10, x + 1) else (c, x).
(** [Decimal(str(x))] of a finite float: positional when the point falls between four
    places left of the digits and the sixteenth digit, with at least one place. *)
Definition decimal_of_float (x : spec_float) : decimal :=
  match x with
  | S754_finite neg m e =>
      let '(c, ex) := shortest m e in
      let point := ndigits c + ex in
      if (-4 <? point) && (point <=? 16) && (0 <=? ex) then Dec neg (c * 10 ^ (ex + 1)) (-1) else Dec neg c ex
  | S754_zero neg => Dec neg 0 (-1)
  | _ => ZERO
  end.

Definition texts_of_floats (l : list decimal) : list (Z * Z) :=
  (fun d => let x := decimal_of_float (float_of_decimal d) in (d_coef x, d_exp x)) <$> l.
Example shortest_exs :
  texts_of_floats [Dec false 1 (-1); Dec false 2 (-6); Dec false 100 0; Dec false 1 16; Dec false 123456789123 (-3);
                   Dec false 1 22; Dec false 9007199254740993 0; Dec false 3 (-1); Dec false 5 (-324); Dec false 0 0;
                   Dec false 17976931348623157 292; Dec false 12345678901234567 0] =
  [(1, -1); (2, -6); (1000, -1); (1, 16); (123456789123, -3); (1, 22); (90071992547409920, -1); (3, -1); (5, -324); (0, -1);
   (17976931348623157, 292); (12345678901234568, 0)].
Proof. vm_compute. reflexivity. Qed.
(** The classical corner: the closest sixteen digits of [2 ** -44] do not round to it. *)
Example shortest_of_a_power_of_two :
  decimal_of_float (S754_finite false 4503599627370496 (-96)) = Dec false 5684341886080802 (-29).
Proof. vm_compute. reflexivity. Qed.
Example sum_of_tenths :
  decimal_of_float (float_add (float_of_decimal (Dec false 1 (-1))) (float_of_decimal (Dec false 2 (-1)))) = Dec false 30000000000000004 (-17).
Proof. vm_compute. reflexivity. Qed.
