(* ===== verification/PyDecimalText.v ===== *)
(** * Decimals as texts

    [Decimal(text)] and [format(value, "f")] on ASCII texts, as the C module computes
    them: construction is exact whatever the context, surrounding blanks and
    underscores are ignored, and a value whose exponent the module cannot hold is an
    [InvalidOperation].  The round trip through a text keeps the value; it keeps the
    exponent too unless that is positive. *)
From S2P Require Import Prelude PyStrings PyDecimal PyTime PyIso.
Local Open Scope string_scope.
Local Open Scope list_scope.
Local Open Scope Z_scope.

(** ** [Decimal(text)] *)
Inductive parsed := Finite (d : decimal) | NonFinite.
Definition MAX_EMAX : Z := 999999999999999999.
Definition MIN_ETINY : Z := -1999999999999999997.
Definition holdable (d : decimal) : bool :=
  (d_exp d + ndigits (d_coef d) - 1 <=? MAX_EMAX) && (MIN_ETINY <=? d_exp d).
Definition split_sign (l : list ascii) : bool * list ascii :=
  match l with
  | c :: l' => if Ascii.eqb c "-" then (true, l') else if Ascii.eqb c "+" then (false, l') else (false, l)
  | [] => (false, [])
  end.
Definition exponent_of (l : list ascii) : option Z :=
  match l with
  | [] => Some 0
  | c :: l =>
      _ ← guard_ (Ascii.eqb (lower_char c) "e");
      let '(neg, l) := split_sign l in
      n ← int_digits l;
      Some (if neg then - n else n)
  end.
Definition split_fraction (l : list ascii) : list ascii * list ascii :=
  match l with
  | c :: l' => if Ascii.eqb c "." then (take (digit_prefix l') l', drop (digit_prefix l') l') else ([], l)
  | [] => ([], [])
  end.
Definition parse_number (neg : bool) (l : list ascii) : option decimal :=
  let '(fractional, rest) := split_fraction (drop (digit_prefix l) l) in
  c ← int_digits (take (digit_prefix l) l ++ fractional);
  e ← exponent_of rest;
  let d := Dec neg c (e - Z.of_nat (length fractional)) in
  _ ← guard_ (holdable d);
  Some d.
(** Infinities and NaNs, signalling or with a payload. *)
Definition is_special (l : list ascii) : bool :=
  let s := lower (string_of_list_ascii l) in
  let all_digits (t : list ascii) := forallb is_digit t in
  String.eqb s "inf" || String.eqb s "infinity" ||
  startswith s "nan" && all_digits (drop 3 l) || startswith s "snan" && all_digits (drop 4 l).
Definition decimal_of (text : string) : option parsed :=
  let l := List.filter (fun c => negb (Ascii.eqb c "_")) (list_ascii_of_string (strip text)) in
  let '(neg, l) := split_sign l in
  if is_special l then Some NonFinite else Finite <$> parse_number neg l.

(** ** [format(value, "f")] *)
Definition fixed_point (d : decimal) : list ascii :=
  if 0 <=? d_exp d then
    let n := d_coef d * 10 ^ d_exp d in digits (Z.to_nat (ndigits n)) n
  else
    let width := Z.max (ndigits (d_coef d)) (1 - d_exp d) in
    let ds := digits (Z.to_nat width) (d_coef d) in
    let point := Z.to_nat (width + d_exp d) in
    take point ds ++ "."%char :: drop point ds.
Definition decimal_text (d : decimal) : string :=
  string_of_list_ascii ((if d_neg d then ["-"%char] else []) ++ fixed_point d).
(** What the text denotes: no positive exponent. *)
Definition fixed (d : decimal) : decimal :=
  if 0 <=? d_exp d then Dec (d_neg d) (d_coef d * 10 ^ d_exp d) 0 else d.

Definition texts_of (l : list string) : list (option (string * Z)) :=
  map (fun s => match decimal_of s with Some (Finite d) => Some (decimal_text d, d_exp d) | _ => None end) l.
Example decimal_texts :
  texts_of ["0E+3"; "-0"; "1E+3"; " 123e-2 "; "5E-7"; "-0E-3"; "1_0"; "1._5"; ".5"; "5."; "00012"] =
  [Some ("0", 3); Some ("-0", 0); Some ("1000", 3); Some ("1.23", -2); Some ("0.0000005", -7); Some ("-0.000", -3);
   Some ("10", 0); Some ("1.5", -1); Some ("0.5", -1); Some ("5", 0); Some ("12", 0)] /\
  map decimal_of [""; "1 2"; "."; "1e"; "e5"; "NaN"; "-Infinity"; "nan12"; "nanx"; "1E+1000000000000000000"] =
  [None; None; None; None; None; Some NonFinite; Some NonFinite; Some NonFinite; None; None].
Proof. vm_compute. done. Qed.

(** ** Lemmas *)
Lemma digits_are_digits k : forall n, forallb is_digit (digits k n) = true.
Proof.
  induction k as [|k IH]; intros n; [done|]. cbn [digits]. rewrite forallb_app, IH.
  cbn. pose proof (digit_value_digit (n mod 10) ltac:(apply Z.mod_pos_bound; lia)) as H. unfold digit_value in H.
  by destruct (is_digit _).
Qed.
Lemma digit_prefix_app l c r : forallb is_digit l = true -> is_digit c = false -> digit_prefix (l ++ c :: r) = length l.
Proof. intros Hl Hc. induction l as [|x l IH]; cbn in *; [by rewrite Hc|]. destruct (is_digit x); [|done]. by rewrite IH. Qed.
Lemma digit_prefix_all l : forallb is_digit l = true -> digit_prefix l = length l.
Proof. intros Hl. induction l as [|x l IH]; cbn in *; [done|]. destruct (is_digit x); [|done]. by rewrite IH. Qed.
Lemma forallb_split {A} (p : A -> bool) n l : forallb p l = true -> forallb p (take n l) = true /\ forallb p (drop n l) = true.
Proof. intros H. rewrite <- (take_drop n l), forallb_app in H. by to_prop. Qed.
Lemma ndigits_bounds n : 0 <= n -> 1 <= ndigits n /\ 0 <= n < 10 ^ ndigits n.
Proof.
  intros Hn. destruct (decide (n = 0)) as [->|]; [by split|]. destruct (ndigits_spec n ltac:(lia)) as (H1 & H2 & H3). lia.
Qed.

(** The texts made of digits, signs and points hold no blanks and no underscores. *)
Definition plain_char (c : ascii) : bool := is_digit c || Ascii.eqb c "-" || Ascii.eqb c ".".
Lemma plain_digits l : forallb is_digit l = true -> forallb plain_char l = true.
Proof. induction l as [|c l IH]; cbn; [done|]. intros [Hc Hl]%andb_true_iff. unfold plain_char at 1. rewrite Hc. by apply IH. Qed.
Lemma plain_char_kept c : plain_char c = true -> py_space c = false /\ negb (Ascii.eqb c "_") = true.
Proof. destruct c as [[] [] [] [] [] [] [] []]; done. Qed.
Lemma strip_plain l : forallb plain_char l = true -> strip (string_of_list_ascii l) = string_of_list_ascii l.
Proof.
  intros Hl. unfold strip, strip_with. rewrite list_ascii_of_string_of_list_ascii, strip_list_clean; [done|].
  rewrite forallb_forall in Hl |- *. intros c Hc. by destruct (plain_char_kept c (Hl c Hc)) as [-> _].
Qed.
Lemma decimal_of_plain l : forallb plain_char l = true ->
  decimal_of (string_of_list_ascii l) =
  let '(neg, l) := split_sign l in if is_special l then Some NonFinite else Finite <$> parse_number neg l.
Proof.
  intros Hl. unfold decimal_of. rewrite strip_plain, list_ascii_of_string_of_list_ascii by done.
  rewrite List.forallb_filter_id; [done|]. apply forallb_forall. intros c Hc. rewrite forallb_forall in Hl.
  by apply plain_char_kept, Hl.
Qed.

(** A number with its first digit. *)
Lemma special_not_digit c l : is_digit c = true -> is_special (c :: l) = false.
Proof. destruct c as [[] [] [] [] [] [] [] []]; done. Qed.
Lemma sign_not_digit c l : is_digit c = true -> split_sign (c :: l) = (false, c :: l).
Proof. destruct c as [[] [] [] [] [] [] [] []]; done. Qed.

Lemma parse_integer neg k n :
  0 <= n < 10 ^ Z.of_nat (S k) -> holdable (Dec neg n 0) = true ->
  parse_number neg (digits (S k) n) = Some (Dec neg n 0).
Proof.
  intros Hn Hd. unfold parse_number. pose proof (digits_are_digits (S k) n) as Hds.
  rewrite (digit_prefix_all _ Hds), drop_all, firstn_all. cbn [split_fraction]. rewrite app_nil_r.
  rewrite int_digits_digits by done. cbn [mbind option_bind exponent_of length]. change (0 - Z.of_nat 0) with 0. by rewrite Hd.
Qed.
Lemma parse_fractional neg k p n :
  (p <= S k)%nat -> 0 <= n < 10 ^ Z.of_nat (S k) -> holdable (Dec neg n (Z.of_nat p - Z.of_nat (S k))) = true ->
  let ds := digits (S k) n in
  parse_number neg (take p ds ++ "."%char :: drop p ds) = Some (Dec neg n (Z.of_nat p - Z.of_nat (S k))).
Proof.
  intros Hp Hn Hd ds. unfold parse_number. pose proof (digits_are_digits (S k) n) as Hds. fold ds in Hds.
  pose proof (int_digits_digits k n Hn) as Hint. pose proof (length_digits (S k) n) as Hlen. fold ds in Hint, Hlen. clearbody ds.
  destruct (forallb_split is_digit p ds Hds) as [H1 H2].
  rewrite digit_prefix_app, drop_app_length, take_app_length by done. unfold split_fraction.
  change (Ascii.eqb "." ".") with true. cbv iota.
  rewrite (digit_prefix_all _ H2), drop_all, firstn_all, take_drop.
  rewrite Hint. cbn [mbind option_bind exponent_of]. rewrite length_drop, Hlen.
  replace (0 - Z.of_nat (S k - p)) with (Z.of_nat p - Z.of_nat (S k)) by lia. by rewrite Hd.
Qed.

(** Every text of a decimal starts with a digit, after its sign. *)
Lemma digits_cons k n : exists c l, digits (S k) n = c :: l /\ is_digit c = true.
Proof.
  pose proof (digits_are_digits (S k) n) as H. pose proof (length_digits (S k) n) as Hl.
  destruct (digits (S k) n) as [|c l]; [done|]. exists c, l. cbn in H. by to_prop.
Qed.
Lemma fixed_holdable d : 0 <= d_coef d -> holdable d = true -> holdable (fixed d) = true.
Proof.
  unfold holdable, fixed. intros Hc [H1 H2]%andb_true_iff. to_prop. destruct (Z.leb_spec 0 (d_exp d)); simpl.
  - destruct (ndigits_bounds (d_coef d) Hc) as (Hn & _ & Hb).
    assert (ndigits (d_coef d * 10 ^ d_exp d) <= ndigits (d_coef d) + d_exp d).
    { apply ndigits_le; [|lia]. rewrite Z.pow_add_r by lia. pose proof (pow10_pos (d_exp d) ltac:(lia)). nia. }
    apply andb_true_iff. split; apply Z.leb_le; unfold MIN_ETINY; lia.
  - apply andb_true_iff. split; by apply Z.leb_le.
Qed.
Lemma parse_fixed_point d : 0 <= d_coef d -> holdable d = true ->
  (exists c l, fixed_point d = c :: l /\ is_digit c = true) /\ forallb plain_char (fixed_point d) = true /\
  parse_number (d_neg d) (fixed_point d) = Some (fixed d).
Proof.
  intros Hc Hd. pose proof (fixed_holdable d Hc Hd) as Hf. revert Hf. unfold fixed_point, fixed.
  destruct (Z.leb_spec 0 (d_exp d)) as [He|He]; intros Hf.
  - set (n := d_coef d * 10 ^ d_exp d) in *. assert (Hn : 0 <= n) by (apply Z.mul_nonneg_nonneg; [done|apply Z.pow_nonneg; lia]).
    destruct (ndigits_bounds n Hn) as [H1 Hb]. replace (Z.to_nat (ndigits n)) with (S (Z.to_nat (ndigits n - 1))) by lia.
    split; [by apply digits_cons|]. split; [by apply plain_digits, digits_are_digits|]. apply parse_integer; [|done].
    by replace (Z.of_nat (S (Z.to_nat (ndigits n - 1)))) with (ndigits n) by lia.
  - destruct (ndigits_bounds (d_coef d) Hc) as [H1 Hb]. set (w := Z.max (ndigits (d_coef d)) (1 - d_exp d)).
    replace (Z.to_nat w) with (S (Z.to_nat (w - 1))) by lia. set (ds := digits _ _).
    assert (Hw : d_coef d < 10 ^ w) by (pose proof (Z.pow_le_mono_r 10 (ndigits (d_coef d)) w); lia).
    pose proof (digits_are_digits (S (Z.to_nat (w - 1))) (d_coef d)) as Hds. fold ds in Hds.
    destruct (forallb_split is_digit (Z.to_nat (w + d_exp d)) ds Hds) as [Ht Hp].
    split; [|split].
    + destruct (digits_cons (Z.to_nat (w - 1)) (d_coef d)) as (c & l & E & Hdc). fold ds in E. rewrite E.
      replace (Z.to_nat (w + d_exp d)) with (S (Z.to_nat (w + d_exp d - 1))) by lia. cbn. eauto.
    + rewrite forallb_app. cbn. by rewrite !plain_digits.
    + rewrite (parse_fractional _ (Z.to_nat (w - 1)) (Z.to_nat (w + d_exp d)) (d_coef d)).
      * f_equal. destruct d as [sg c e]. simpl in *. f_equal. lia.
      * lia.
      * by replace (Z.of_nat (S (Z.to_nat (w - 1)))) with w by lia.
      * replace (Z.of_nat (Z.to_nat (w + d_exp d)) - Z.of_nat (S (Z.to_nat (w - 1)))) with (d_exp d) by lia. by destruct d.
Qed.

(** A decimal's text is read as the decimal, with no positive exponent. *)
Lemma decimal_text_round_trip d : 0 <= d_coef d -> holdable d = true -> decimal_of (decimal_text d) = Some (Finite (fixed d)).
Proof.
  intros Hc Hd. destruct (parse_fixed_point d Hc Hd) as ((c & l & E & Hdc) & Hpl & Hp). unfold decimal_text.
  destruct (d_neg d); cbn [app]; rewrite decimal_of_plain by done.
  - cbn [split_sign]. change (Ascii.eqb "-" "-") with true. cbv iota. rewrite E, special_not_digit, <- E, Hp by done. done.
  - rewrite E, sign_not_digit, special_not_digit, <- E, Hp by done. done.
Qed.
Lemma fixed_value d : 0 <= d_coef d -> dec_compare (fixed d) d = Eq.
Proof.
  intros Hc. unfold fixed. destruct (Z.leb_spec 0 (d_exp d)).
  - rewrite (compare_at 0) by (simpl; lia). apply Z.compare_eq_iff. unfold scaled. simpl. rewrite !Z.sub_0_r, Z.mul_1_r.
    destruct (d_neg d); lia.
  - rewrite (compare_at (d_exp d)) by lia. apply Z.compare_refl.
Qed.
Lemma fixed_idem d : fixed (fixed d) = fixed d.
Proof.
  unfold fixed. destruct (Z.leb_spec 0 (d_exp d)) as [He|He]; simpl; [by rewrite Z.mul_1_r|].
  by rewrite (proj2 (Z.leb_gt 0 (d_exp d)) He).
Qed.
Lemma fixed_wf d : 0 <= d_coef d -> 0 <= d_coef (fixed d).
Proof. intros. unfold fixed. case (0 <=? d_exp d); simpl; [|done]. apply Z.mul_nonneg_nonneg; [done|]. apply Z.pow_nonneg; lia. Qed.
