(* ===== verification/PyDecimalGrid.v ===== *)
(** * Exact decimals

    Decimals that are whole multiples of a power of ten and have at most 28 digits:
    on them the context never rounds, so sums, products and quotients by a power of
    ten are those of the integers they count. *)
From S2P Require Import Prelude PyDecimal.
Local Open Scope Z_scope.

(** [d] is the whole number [units g d] of [10 ^ g]s. *)
Definition units (g : Z) (d : decimal) : Z := scaled g d.
Definition on_grid (g : Z) (d : decimal) : Prop := 0 <= d_coef d /\ g <= d_exp d.
Definition WIDE : Z := 10 ^ PREC.

Lemma units_abs g d : on_grid g d -> d_coef d <= Z.abs (units g d).
Proof.
  intros [Hc He]. unfold units. rewrite scaled_abs by done. pose proof (pow10_pos (d_exp d - g) ltac:(lia)). nia.
Qed.
Lemma units_finer g g' d : on_grid g d -> g' <= g -> on_grid g' d /\ units g' d = units g d * 10 ^ (g - g').
Proof. intros [Hc He] Hg. split; [split; [done|lia]|]. by apply scaled_shift. Qed.
Lemma units_nonneg g d : on_grid g d -> d_neg d = false -> 0 <= units g d.
Proof. intros [Hc He] Hn. unfold units, scaled. rewrite Hn. pose proof (pow10_pos (d_exp d - g) ltac:(lia)). nia. Qed.
Lemma units_zero g : g <= 0 -> on_grid g ZERO /\ units g ZERO = 0.
Proof. intros Hg. split; [by split|]. done. Qed.
Lemma units_of_Z n : on_grid 0 (dec_of_Z n) /\ units 0 (dec_of_Z n) = n.
Proof.
  split; [split; simpl; lia|]. unfold units, scaled, dec_of_Z. cbn [d_neg d_coef d_exp]. change (10 ^ (0 - 0)) with 1.
  destruct (Z.ltb_spec n 0); lia.
Qed.
Lemma units_ltb g a b : on_grid g a -> on_grid g b -> dec_ltb a b = (units g a <? units g b).
Proof.
  intros [_ Ha] [_ Hb]. pose proof (dec_ltb_at g a b Ha Hb) as H. unfold units.
  destruct (Z.ltb_spec (scaled g a) (scaled g b)); [by apply H|]. destruct (dec_ltb a b); [|done]. by apply Z.nlt_ge in H0; destruct H0; apply H.
Qed.

(** ** Operations *)
Lemma grid_add g a b : on_grid g a -> on_grid g b -> Z.abs (units g a + units g b) < WIDE ->
  on_grid g (dec_add a b) /\ units g (dec_add a b) = units g a + units g b.
Proof.
  intros [Ha Hea] [Hb Heb] Hw. set (m := common a b). assert (Hm : g <= m) by (unfold m, common; lia).
  destruct (common_le a b) as [Hma Hmb]. fold m in Hma, Hmb.
  unfold units in *. rewrite (scaled_shift m g a), (scaled_shift m g b) in * by done.
  unfold dec_add. fold m. set (s := scaled m a + scaled m b) in *. pose proof (pow10_pos (m - g) ltac:(lia)) as Hp.
  destruct (Z.eqb_spec s 0) as [Hs|Hs].
  - split; [by split|]. rewrite <- Z.mul_add_distr_r. fold s. rewrite Hs. unfold scaled. cbn [d_neg d_coef d_exp].
    by destruct (_ && _).
  - rewrite fix_representable.
    + split; [split; simpl; lia|]. unfold scaled at 1. cbn [d_neg d_coef d_exp].
      rewrite <- Z.mul_add_distr_r. fold s. destruct (Z.ltb_spec s 0); lia.
    + split; cbn [d_coef]; [lia|]. change (10 ^ PREC) with WIDE. rewrite <- Z.mul_add_distr_r in Hw. fold s in Hw.
      rewrite Z.abs_mul, (Z.abs_eq (10 ^ (m - g))) in Hw by lia. nia.
Qed.
Lemma grid_add_bounded g a b x y A B : on_grid g a -> on_grid g b -> units g a = x -> units g b = y ->
  0 <= x <= A -> 0 <= y <= B -> A + B < WIDE ->
  on_grid g (dec_add a b) /\ units g (dec_add a b) = x + y /\ 0 <= x + y <= A + B.
Proof.
  intros Ha Hb <- <- HA HB Hw. destruct (grid_add g a b Ha Hb) as [H1 H2]; [lia|]. split; [done|]. split; [done|lia].
Qed.
Lemma grid_sub g a b : on_grid g a -> on_grid g b -> Z.abs (units g a - units g b) < WIDE ->
  on_grid g (dec_sub a b) /\ units g (dec_sub a b) = units g a - units g b.
Proof.
  intros Ha [Hb Heb] Hw. unfold dec_sub. set (b' := Dec (negb (d_neg b)) (d_coef b) (d_exp b)).
  assert (Hb' : on_grid g b' /\ units g b' = - units g b).
  { split; [by split|]. unfold units, scaled, b'. cbn [d_neg d_coef d_exp]. destruct (d_neg b); cbn [negb]; lia. }
  destruct Hb' as [Hb' Hu]. destruct (grid_add g a b' Ha Hb') as [H1 H2]; [rewrite Hu; lia|]. split; [done|]. lia.
Qed.
Lemma grid_mul g h a b : on_grid g a -> on_grid h b -> Z.abs (units g a * units h b) < WIDE ->
  on_grid (g + h) (dec_mul a b) /\ units (g + h) (dec_mul a b) = units g a * units h b.
Proof.
  intros Ha Hb Hw. pose proof (units_abs g a Ha) as Ha'. pose proof (units_abs h b Hb) as Hb'.
  destruct Ha as [Ha Hea], Hb as [Hb Heb]. unfold dec_mul. rewrite Z.abs_mul in Hw.
  rewrite fix_representable by (split; cbn [d_coef]; [lia|change (10 ^ PREC) with WIDE; nia]).
  split; [split; simpl; lia|]. unfold units, scaled. cbn [d_neg d_coef d_exp].
  replace (d_exp a + d_exp b - (g + h)) with ((d_exp a - g) + (d_exp b - h)) by lia. rewrite Z.pow_add_r by lia.
  destruct (d_neg a), (d_neg b); cbn [xorb]; lia.
Qed.
Lemma strip_zeros_removes fuel : forall j n e ideal, 0 <= n -> 0 <= j <= Z.of_nat fuel -> e + j <= ideal ->
  e + j <= (strip_zeros fuel (n * 10 ^ j) e ideal).2.
Proof.
  induction fuel as [|fuel IH]; intros j n e ideal Hn Hj He.
  { replace j with 0 by lia. simpl. lia. }
  destruct (decide (j = 0)) as [->|Hj0].
  { change (10 ^ 0) with 1. rewrite Z.mul_1_r, Z.add_0_r. apply strip_zeros_spec; lia. }
  assert (Hs : n * 10 ^ j = n * 10 ^ (j - 1) * 10).
  { rewrite <- Z.mul_assoc. f_equal. change 10 with (10 ^ 1) at 3. rewrite <- Z.pow_add_r by lia. f_equal. lia. }
  cbn [strip_zeros]. rewrite (proj2 (Z.ltb_lt e ideal)), Hs, Z_mod_mult, Z.div_mul by lia. cbn [Z.eqb andb].
  replace (e + j) with (e + 1 + (j - 1)) by lia. apply IH; lia.
Qed.
Lemma grid_div g k a : on_grid g a -> Z.abs (units g a) < WIDE -> 0 <= k <= PREC ->
  exists r, dec_div a (dec_of_Z (10 ^ k)) = Ok r /\ on_grid (g - k) r /\ units (g - k) r = units g a.
Proof.
  intros Ha Hw Hk. pose proof (units_abs g a Ha) as Hc. destruct Ha as [Ha Hea].
  pose proof (pow10_pos k ltac:(lia)) as Hp. unfold dec_div, is_zero, dec_of_Z.
  rewrite (proj2 (Z.ltb_ge (10 ^ k) 0)), (Z.abs_eq (10 ^ k)) by lia. cbn [d_neg d_coef d_exp].
  rewrite (proj2 (Z.eqb_neq (10 ^ k) 0)), Z.sub_0_r by lia.
  destruct (Z.eqb_spec (d_coef a) 0) as [E|E].
  { eexists. split; [done|]. split; [split; simpl; lia|]. unfold units, scaled. cbn [d_neg d_coef d_exp]. rewrite E.
    destruct (d_neg a), (xorb _ _); lia. }
  cbv zeta.
  assert (Hnd : ndigits (10 ^ k) = k + 1).
  { destruct (ndigits_spec (10 ^ k) Hp) as (H1 & H2 & H3).
    apply Z.pow_lt_mono_r_iff in H3; [|lia|lia]. apply Z.pow_le_mono_r_iff in H2; [|lia|lia]. lia. }
  rewrite Hnd. set (shift := k + 1 - ndigits (d_coef a) + PREC + 1).
  assert (Hna : ndigits (d_coef a) <= PREC) by (apply ndigits_le; [split; [lia|change (10 ^ PREC) with WIDE; lia]|unfold PREC; lia]).
  assert (Hs : k <= shift) by (unfold shift; lia).
  rewrite (proj2 (Z.leb_le 0 shift)) by lia.
  replace (d_coef a * 10 ^ shift) with (d_coef a * 10 ^ (shift - k) * 10 ^ k)
    by (rewrite <- Z.mul_assoc, <- Z.pow_add_r by lia; do 2 f_equal; lia).
  rewrite Z_mod_mult, Z.div_mul by lia. cbn [Z.eqb].
  set (q := d_coef a * 10 ^ (shift - k)).
  assert (Hq : 0 <= q) by (unfold q; pose proof (pow10_pos (shift - k) ltac:(lia)); nia).
  pose proof (strip_zeros_spec (Z.to_nat (d_exp a - (d_exp a - shift))) q (d_exp a - shift) (d_exp a) Hq ltac:(lia)) as Hsz.
  pose proof (strip_zeros_removes (Z.to_nat (d_exp a - (d_exp a - shift))) (shift - k) (d_coef a) (d_exp a - shift) (d_exp a)
                Ha ltac:(lia) ltac:(lia)) as He'. fold q in He'.
  destruct (strip_zeros _ _ _ _) as [c e']. cbn [fst snd] in Hsz, He'. destruct Hsz as (He & Hc' & Hce).
  assert (Hval : c * 10 ^ (e' - (d_exp a - k)) = d_coef a).
  { unfold q in Hce. replace (e' - (d_exp a - shift)) with ((e' - (d_exp a - k)) + (shift - k)) in Hce by lia.
    rewrite Z.pow_add_r, Z.mul_assoc in Hce by lia. pose proof (pow10_pos (shift - k) ltac:(lia)). nia. }
  pose proof (pow10_pos (e' - (d_exp a - k)) ltac:(lia)) as Hp'.
  rewrite fix_representable by (split; cbn [d_coef]; [lia|change (10 ^ PREC) with WIDE; nia]).
  eexists. split; [done|]. split; [split; simpl; lia|]. unfold units, scaled. cbn [d_neg d_coef d_exp].
  replace (e' - (g - k)) with ((e' - (d_exp a - k)) + (d_exp a - g)) by lia. rewrite Z.pow_add_r by lia.
  destruct (d_neg a); cbn [xorb]; nia.
Qed.
