(* ===== verification/FloatOrder.v ===== *)
(** * The order of floats

    Python's comparisons of [float], of which only NaN is not comparable, and what
    the builtins [max] and [min] keep of it; rounding to decimals as [round(x, n)] and
    the format [.5g] do it; sums and products of positive values. *)
From S2P Require Import Prelude PyFloat PyDecimal PyFloatText.
Local Open Scope Z_scope.

(** ** Operations *)
Definition float_div (a b : spec_float) : spec_float := SFdiv 53 1024 a b.
Definition float_abs (a : spec_float) : spec_float := SFabs a.
Definition float_neg (a : spec_float) : spec_float := SFopp a.
(** [x or default] *)
Definition float_or (x default : spec_float) : spec_float := if SFeqb x float_0 then default else x.
(** [max(0.0, x)] *)
Definition clamp0 (x : spec_float) : spec_float := float_max float_0 x.
(** [x > y], [x >= y] *)
Definition float_gt (x y : spec_float) : bool := SFltb y x.
Definition float_ge (x y : spec_float) : bool := SFleb y x.
(** [sum(l)] of Python 3.11: from the left, from the integer zero. *)
Definition float_sum (l : list spec_float) : spec_float := foldl float_add float_0 l.

(** The integer nearest to a quotient, a tie to the even one. *)
Definition nearest (n d : Z) : Z :=
  let q := n / d in
  match 2 * (n mod d) ?= d with
  | Lt => q
  | Gt => q + 1
  | Eq => if Z.even q then q else q + 1
  end.
(** [round(x, places)] for a number of places that is not negative, and
    [float(f"{x:.5g}")]: the exact value rounded to decimal, then read back. *)
Definition round_at (x : spec_float) (places : Z) : spec_float :=
  match x with
  | S754_finite neg m e =>
      let '(n, d) := ratio_of m e in
      float_of_scientific neg (nearest (n * 10 ^ Z.max places 0) (d * 10 ^ Z.max (- places) 0)) (- places)
  | _ => x
  end.
Definition round_digits (x : spec_float) (digits : Z) : spec_float :=
  match x with
  | S754_finite neg m e => let '(n, d) := ratio_of m e in round_at x (digits - decimal_point n d)
  | _ => x
  end.

(** ** The order *)
Definition is_nan (f : spec_float) : bool := match f with S754_nan => true | _ => false end.
Definition fle (a b : spec_float) : Prop := SFleb a b = true.
Definition flt (a b : spec_float) : Prop := SFltb a b = true.

(** A comparable float as its class, its exponent and its digits. *)
Definition order_key (f : spec_float) : Z * Z * Z :=
  match f with
  | S754_zero _ | S754_nan => (0, 0, 0)
  | S754_infinity s => (if s then -2 else 2, 0, 0)
  | S754_finite s m e => if s then (-1, - e, - Z.pos m) else (1, e, Z.pos m)
  end.
Definition key_lt (a b : Z * Z * Z) : Prop :=
  a.1.1 < b.1.1 \/ a.1.1 = b.1.1 /\ (a.1.2 < b.1.2 \/ a.1.2 = b.1.2 /\ a.2 < b.2).

Lemma compare_by_key a b : is_nan a = false -> is_nan b = false ->
  match SFcompare a b with
  | Some Lt => key_lt (order_key a) (order_key b)
  | Some Gt => key_lt (order_key b) (order_key a)
  | Some Eq => order_key a = order_key b
  | None => False
  end.
Proof.
  unfold key_lt.
  destruct a as [|[]| |[] m e], b as [|[]| |[] m' e']; simpl; try done; intros _ _; try lia.
  all: destruct (Z.compare_spec e e') as [->|?|?]; simpl; try (left; lia); try (right; lia); try lia.
  all: change (Pos.compare_cont Eq m m') with (m ?= m')%positive;
    destruct (Pos.compare_spec m m') as [->|?|?]; simpl; try done; try lia.
Qed.

Lemma nan_le a b : fle a b -> is_nan a = false /\ is_nan b = false.
Proof. unfold fle, SFleb. destruct a as [|[]| |[]], b as [|[]| |[]]; simpl; done. Qed.
Lemma nan_lt a b : flt a b -> is_nan a = false /\ is_nan b = false.
Proof. unfold flt, SFltb. destruct a as [|[]| |[]], b as [|[]| |[]]; simpl; done. Qed.
Lemma fle_key a b : is_nan a = false -> is_nan b = false -> fle a b <-> ~ key_lt (order_key b) (order_key a).
Proof.
  intros Ha Hb. pose proof (compare_by_key a b Ha Hb) as H. unfold fle, SFleb, key_lt in *.
  destruct (SFcompare a b) as [[]|]; [|split; [intros _; lia|done]|split; [done|tauto]|done].
  rewrite H. split; [intros _; lia|done].
Qed.
Lemma flt_key a b : is_nan a = false -> is_nan b = false -> flt a b <-> key_lt (order_key a) (order_key b).
Proof.
  intros Ha Hb. pose proof (compare_by_key a b Ha Hb) as H. unfold flt, SFltb, key_lt in *.
  destruct (SFcompare a b) as [[]|]; [|tauto|split; [done|lia]|done].
  rewrite H. split; [done|lia].
Qed.
Ltac float_order :=
  repeat match goal with
  | H : fle ?a ?b |- _ => let N := fresh in pose proof (nan_le _ _ H) as N; apply fle_key in H; [|apply N|apply N]; destruct N
  | H : flt ?a ?b |- _ => let N := fresh in pose proof (nan_lt _ _ H) as N; apply flt_key in H; [|apply N|apply N]; destruct N
  end;
  try (apply fle_key; [done|done|]); try (apply flt_key; [done|done|]); unfold key_lt in *; lia.

Lemma fle_refl a : is_nan a = false -> fle a a.
Proof. intros H. float_order. Qed.
Lemma fle_trans a b c : fle a b -> fle b c -> fle a c.
Proof. intros H1 H2. float_order. Qed.
Lemma flt_fle a b : flt a b -> fle a b.
Proof. intros H. float_order. Qed.
Lemma flt_fle_trans a b c : flt a b -> fle b c -> flt a c.
Proof. intros H1 H2. float_order. Qed.
Lemma fle_flt_trans a b c : fle a b -> flt b c -> flt a c.
Proof. intros H1 H2. float_order. Qed.
Lemma flt_irrefl a : ~ flt a a.
Proof. intros H. pose proof H as H'. float_order. Qed.
Lemma flt_not_fle a b : flt a b -> ~ fle b a.
Proof. intros H1 H2. float_order. Qed.
Lemma not_flt a b : is_nan a = false -> is_nan b = false -> SFltb a b = false -> fle b a.
Proof. intros Ha Hb H. apply fle_key; [done..|]. intros K. apply flt_key in K; [|done..]. unfold flt in K. congruence. Qed.
#[export] Hint Resolve fle_refl flt_fle : core.

(** ** [max] and [min]

    They keep their first argument unless the second is strictly better: NaN in the
    second place is passed over. *)
Lemma max_num a b : is_nan a = false -> is_nan (float_max a b) = false.
Proof. intros Ha. unfold float_max. destruct (SFltb a b) eqn:E; [|done]. by apply nan_lt in E as [_ E]. Qed.
Lemma min_num a b : is_nan a = false -> is_nan (float_min a b) = false.
Proof. intros Ha. unfold float_min. destruct (SFltb b a) eqn:E; [|done]. by apply nan_lt in E as [E _]. Qed.
Lemma max_ge_first a b : is_nan a = false -> fle a (float_max a b).
Proof. intros Ha. unfold float_max. destruct (SFltb a b) eqn:E; auto. Qed.
Lemma max_ge_second a b : is_nan a = false -> is_nan b = false -> fle b (float_max a b).
Proof. intros Ha Hb. unfold float_max. destruct (SFltb a b) eqn:E; [auto|]. by apply not_flt. Qed.
Lemma min_le_first a b : is_nan a = false -> fle (float_min a b) a.
Proof. intros Ha. unfold float_min. destruct (SFltb b a) eqn:E; auto. Qed.
Lemma min_le_second a b : is_nan a = false -> is_nan b = false -> fle (float_min a b) b.
Proof. intros Ha Hb. unfold float_min. destruct (SFltb b a) eqn:E; [auto|]. by apply not_flt. Qed.
Lemma max_cases a b : float_max a b = a \/ float_max a b = b.
Proof. unfold float_max. destruct (SFltb a b); auto. Qed.
Lemma clamp0_num x : is_nan (clamp0 x) = false.
Proof. by apply max_num. Qed.
Lemma clamp0_nonneg x : fle float_0 (clamp0 x).
Proof. by apply max_ge_first. Qed.
Lemma clamp0_pos x : SFltb float_0 x = true -> clamp0 x = x.
Proof. intros H. unfold clamp0, float_max. by rewrite H. Qed.
Lemma clamp0_cases x : clamp0 x = x /\ flt float_0 x \/ clamp0 x = float_0 /\ SFltb float_0 x = false.
Proof. unfold clamp0, float_max, flt. destruct (SFltb float_0 x) eqn:E; auto. Qed.
Lemma clamp0_idem x : clamp0 (clamp0 x) = clamp0 x.
Proof. unfold clamp0 at 1, float_max. by destruct (clamp0_cases x) as [[-> ->]|[-> _]]. Qed.
#[export] Hint Resolve max_num min_num clamp0_num clamp0_nonneg : core.

Example rounding_exs :
  ((fun x => (round_at x 0, round_at x 2)) <$> [float_quotient 25 10; float_quotient 2675 1000; float_quotient 15 10],
   (fun x => round_digits x 5) <$> [float_quotient 1234567 100; float_quotient 98765432 1000; float_quotient 1234567 10000000000])
  = ([(float_int 2, float_quotient 25 10); (float_int 3, float_quotient 267 100); (float_int 2, float_quotient 15 10)],
     [float_int 12346; float_int 98765; float_quotient 12346 100000000]).
Proof. vm_compute. reflexivity. Qed.

(** ** Signs and numbers *)
Definition unsigned (f : spec_float) : Prop :=
  match f with S754_zero s | S754_infinity s | S754_finite s _ _ => s = false | S754_nan => True end.

Lemma shr_1_nonneg m : 0 <= shr_m m -> 0 <= shr_m (shr_1 m).
Proof. destruct m as [[|[]|[]] r s]; simpl; lia. Qed.
Lemma iter_nonneg n m : 0 <= shr_m m -> 0 <= shr_m (iter_pos shr_1 n m).
Proof. revert m. induction n as [n IH|n IH|]; intros m H; simpl; auto using shr_1_nonneg. Qed.
Lemma shr_fexp_nonneg m e l : 0 <= m -> 0 <= shr_m (shr_fexp 53 1024 m e l).1.
Proof.
  intros H. unfold shr_fexp, shr. destruct (_ - e); simpl; [| |]; try apply iter_nonneg; destruct l as [|[]]; done.
Qed.
Lemma round_even_nonneg m l : 0 <= m -> 0 <= round_nearest_even m l.
Proof. intros H. destruct l as [|[]]; simpl; try lia. destruct (Z.even m); lia. Qed.
Lemma round_aux_num s m e l : 0 <= m -> is_nan (binary_round_aux 53 1024 s m e l) = false.
Proof.
  intros H. unfold binary_round_aux. pose proof (shr_fexp_nonneg m e l H) as H1.
  destruct (shr_fexp 53 1024 m e l) as [m1 e1]; simpl in *.
  pose proof (shr_fexp_nonneg _ e1 loc_Exact (round_even_nonneg _ (loc_of_shr_record m1) H1)) as H2.
  destruct (shr_fexp 53 1024 (round_nearest_even _ _) e1 loc_Exact) as [m2 e2]; simpl in *.
  destruct (shr_m m2); [done| |lia]. by destruct (e2 <=? _).
Qed.
Lemma round_aux_unsigned m e l : unsigned (binary_round_aux 53 1024 false m e l).
Proof.
  unfold binary_round_aux. destruct (shr_fexp _ _ _ _ _) as [m1 e1]. destruct (shr_fexp _ _ _ _ _) as [m2 e2].
  destruct (shr_m m2); simpl; try done. by destruct (e2 <=? _).
Qed.
Lemma normalize_num m e : is_nan (binary_normalize 53 1024 m e false) = false.
Proof. destruct m as [|m|m]; simpl; [done| |]; unfold binary_round; destruct (shl_align _ _ _) as [m' e']; by apply round_aux_num. Qed.
Lemma normalize_unsigned m e : 0 <= m -> unsigned (binary_normalize 53 1024 m e false).
Proof. intros H. destruct m as [|m|m]; [done| |lia]. simpl. unfold binary_round. destruct (shl_align _ _ _). apply round_aux_unsigned. Qed.

(** The difference of finite floats is a number. *)
Lemma sub_num a b : float_finite a = true -> float_finite b = true -> is_nan (float_sub a b) = false.
Proof.
  intros Ha Hb. unfold float_sub. destruct a as [s| | |s m e], b as [s'| | |s' m' e']; try discriminate; simpl.
  - by destruct s, s'.
  - done.
  - done.
  - apply normalize_num.
Qed.
Lemma abs_num a : is_nan (float_abs a) = is_nan a.
Proof. by destruct a. Qed.
Lemma abs_nonneg a : is_nan a = false -> fle float_0 (float_abs a).
Proof. by destruct a. Qed.
Lemma add_unsigned a b : unsigned a -> unsigned b -> unsigned (float_add a b).
Proof.
  unfold float_add. destruct a as [s|s| |s m e], b as [s'|s'| |s' m' e']; cbn -[binary_normalize]; intros; subst; try done.
  apply normalize_unsigned. simpl. lia.
Qed.
Lemma mul_unsigned a b : unsigned a -> unsigned b -> unsigned (float_mul a b).
Proof.
  unfold float_mul. destruct a as [s|s| |s m e], b as [s'|s'| |s' m' e']; simpl; intros; subst; simpl; try done.
  apply round_aux_unsigned.
Qed.
Lemma div_unsigned a b : unsigned a -> unsigned b -> unsigned (float_div a b).
Proof.
  unfold float_div. destruct a as [s|s| |s m e], b as [s'|s'| |s' m' e']; cbn -[SFdiv_core_binary]; intros; subst; try done.
  destruct (SFdiv_core_binary _ _ _ _ _ _) as [[m1 e1] l]. apply round_aux_unsigned.
Qed.
Lemma sum_unsigned l x : unsigned x -> Forall unsigned l -> unsigned (foldl float_add x l).
Proof. intros Hx H. revert x Hx. induction H; simpl; intros; auto using add_unsigned. Qed.
Lemma int_unsigned n : 0 <= n -> unsigned (float_int n).
Proof. apply normalize_unsigned. Qed.
Lemma clamp0_unsigned x : unsigned (clamp0 x).
Proof. unfold clamp0, float_max. destruct x as [[]|[]| |[]]; done. Qed.
(** [x or 0.0] is [x], but for the negative zero. *)
Lemma or_zero x : unsigned x -> float_or x float_0 = x.
Proof. unfold float_or, SFeqb. destruct x as [[]|[]| |[] m e]; done. Qed.
Lemma add_clamp x y : unsigned x -> fle float_0 y -> float_add x (clamp0 y) = float_add x y.
Proof.
  intros Hx Hy. unfold clamp0, float_max. destruct y as [[]|[]| |[]]; try done; destruct x as [[]|[]| |[]]; done.
Qed.

(** ** Sums of positive prices

    A sum of values no smaller than the least subnormal exponent loses nothing below it, so
    that it stays positive. *)
Definition ranged (f : spec_float) : Prop := match f with S754_finite _ _ e => -1074 <= e | _ => True end.
Lemma valid_ranged f : valid_binary 53 1024 f = true -> ranged f.
Proof.
  destruct f as [| | |s m e]; try done. simpl. unfold bounded, canonical_mantissa, fexp. intros [H _]%andb_true_iff.
  apply Z.eqb_eq in H. change (SpecFloat.emin 53 1024) with (-1074) in H. lia.
Qed.
Lemma digits_low p : 2 ^ (Z.pos (digits2_pos p) - 1) <= Z.pos p.
Proof.
  induction p as [p IH|p IH|]; [| |done]; cbn [digits2_pos]; rewrite Pos2Z.inj_succ;
    replace (Z.succ (Z.pos (digits2_pos p)) - 1) with (Z.succ (Z.pos (digits2_pos p) - 1)) by lia; rewrite Z.pow_succ_r by lia; lia.
Qed.
Lemma shr_1_half r : 0 <= shr_m r -> shr_m (shr_1 r) = shr_m r / 2.
Proof. destruct r as [[|[p|p|]|p] b s]; intros H; try (by destruct H); rewrite <- Z.div2_div; done. Qed.
Lemma iter_half n : forall r, 0 <= shr_m r -> shr_m (iter_pos shr_1 n r) = shr_m r / 2 ^ Z.pos n.
Proof.
  induction n as [n IH|n IH|]; intros r H; cbn [iter_pos]; [| |by apply shr_1_half].
  - rewrite IH, IH, shr_1_half by auto using iter_nonneg, shr_1_nonneg. rewrite !Z.div_div by lia. f_equal.
    rewrite <- (Z.pow_1_r 2) at 1. rewrite <- !Z.pow_add_r by lia. f_equal. lia.
  - rewrite !IH by auto using iter_nonneg. rewrite Z.div_div by lia. f_equal. rewrite <- Z.pow_add_r by lia. f_equal. lia.
Qed.
Lemma record_m m l : shr_m (shr_record_of_loc m l) = m.
Proof. by destruct l as [|[]]. Qed.
Lemma shr_fexp_range m e l : -1074 <= (shr_fexp 53 1024 m e l).2.
Proof.
  unfold shr_fexp, shr, fexp. change (SpecFloat.emin 53 1024) with (-1074).
  destruct (Z.max (Zdigits2 m + e - 53) (-1074) - e) eqn:E; cbn [snd]; lia.
Qed.
Lemma shr_fexp_positive m e l : 0 < m -> -1074 <= e -> 0 < shr_m (shr_fexp 53 1024 m e l).1.
Proof.
  intros Hm He. unfold shr_fexp, shr, fexp. change (SpecFloat.emin 53 1024) with (-1074).
  destruct (Z.max (Zdigits2 m + e - 53) (-1074) - e) as [|p|p] eqn:E; cbn [fst]; rewrite ?record_m; [done| |done].
  rewrite iter_half by (rewrite record_m; lia). rewrite record_m. destruct m as [|m|m]; try lia. cbn [Zdigits2] in E.
  assert (Hp : Z.pos p = Z.pos (digits2_pos m) - 53) by lia. pose proof (digits_low m) as Hd.
  apply Z.div_str_pos. split; [apply Z.pow_pos_nonneg; lia|]. etrans; [|exact Hd]. apply Z.pow_le_mono_r; lia.
Qed.
Lemma round_even_ge m l : m <= round_nearest_even m l.
Proof. destruct l as [|[]]; simpl; try lia. destruct (Z.even m); lia. Qed.
Lemma round_aux_ranged s m e l : ranged (binary_round_aux 53 1024 s m e l).
Proof.
  unfold binary_round_aux. destruct (shr_fexp 53 1024 m e l) as [m1 e1]. pose proof (shr_fexp_range (round_nearest_even (shr_m m1) (loc_of_shr_record m1)) e1 loc_Exact) as H.
  destruct (shr_fexp 53 1024 (round_nearest_even _ _) e1 loc_Exact) as [m2 e2]. simpl in *. destruct (shr_m m2); try done. by destruct (e2 <=? _).
Qed.
Lemma round_aux_positive m e l : 0 < m -> -1074 <= e -> flt float_0 (binary_round_aux 53 1024 false m e l).
Proof.
  intros Hm He. unfold binary_round_aux. pose proof (shr_fexp_positive m e l Hm He) as H1. pose proof (shr_fexp_range m e l) as H2.
  destruct (shr_fexp 53 1024 m e l) as [m1 e1]. simpl in H1, H2.
  pose proof (round_even_ge (shr_m m1) (loc_of_shr_record m1)) as H3.
  pose proof (shr_fexp_positive (round_nearest_even (shr_m m1) (loc_of_shr_record m1)) e1 loc_Exact ltac:(lia) H2) as H4.
  destruct (shr_fexp 53 1024 (round_nearest_even _ _) e1 loc_Exact) as [m2 e2]. simpl in H4. destruct (shr_m m2); try lia. by destruct (e2 <=? _).
Qed.
Lemma normalize_positive m e : 0 < m -> -1074 <= e -> flt float_0 (binary_normalize 53 1024 m e false).
Proof.
  intros Hm He. destruct m as [|m|m]; try lia. unfold binary_normalize, binary_round, shl_align, fexp.
  change (SpecFloat.emin 53 1024) with (-1074).
  destruct (Z.max (Z.pos (digits2_pos m) + e - 53) (-1074) - e); apply round_aux_positive; lia.
Qed.
Lemma add_positive a b : flt float_0 a -> ranged a -> unsigned b -> is_nan b = false -> ranged b -> flt float_0 (float_add a b).
Proof.
  unfold float_add. destruct a as [s|[]| |[] m e], b as [s'|[]| |[] m' e']; intros Ha Hra Hb Hn Hrb; try done.
  cbn [SFadd]. simpl in Hra, Hrb. apply normalize_positive; [simpl; lia|lia].
Qed.
(** The product of positive values is a number that is not negative. *)
Lemma mul_positive a b : flt float_0 a -> flt float_0 b ->
  unsigned (float_mul a b) /\ is_nan (float_mul a b) = false /\ ranged (float_mul a b).
Proof.
  unfold float_mul. destruct a as [|[]| |[] m e], b as [|[]| |[] m' e']; try done. intros _ _. cbn [SFmul xorb].
  split; [apply round_aux_unsigned|]. split; [by apply round_aux_num|apply round_aux_ranged].
Qed.
