(* ===== verification/PyJson.v ===== *)
(** * Parsed JSON

    The values [json.loads] and an SDK hand to the program, with the truthiness,
    [str] and [repr] of Python.  A float is the rational it denotes; its shortest
    decimal is the parameter [float_repr]. *)
From Stdlib Require Import QArith.
From stdpp Require Import pretty.
From S2P Require Import Prelude PyStrings PyDict.
Local Open Scope string_scope.
Local Open Scope list_scope.
Local Open Scope Z_scope.

Inductive Json :=
  | JNull
  | JBool (b : bool)
  | JInt (n : Z)
  | JFloat (q : Q)
  | JStr (s : string)
  | JList (l : list Json)
  | JObject (fields : list (string * Json)).

(** Induction through the lists and the fields. *)
Section induction.
  Variable P : Json -> Prop.
  Hypothesis scalar : forall j, match j with JList _ | JObject _ => False | _ => True end -> P j.
  Hypothesis lists : forall l, Forall P l -> P (JList l).
  Hypothesis objects : forall fields, Forall (fun kv => P kv.2) fields -> P (JObject fields).
Fixpoint Json_nested_ind (j : Json) : P j :=
    match j with
    | JList l =>
        lists l ((fix go l := match l return Forall P l with
                  | [] => Forall_nil_2 _
                  | x :: l => Forall_cons_2 _ _ _ (Json_nested_ind x) (go l)
                  end) l)
    | JObject fields =>
        objects fields ((fix go l := match l return Forall (fun kv => P kv.2) l with
                         | [] => Forall_nil_2 _
                         | x :: l => Forall_cons_2 _ _ _ (Json_nested_ind x.2) (go l)
                         end) fields)
    | JNull => scalar JNull I
    | JBool b => scalar (JBool b) I
    | JInt n => scalar (JInt n) I
    | JFloat q => scalar (JFloat q) I
    | JStr s => scalar (JStr s) I
    end.
End induction.

(** [bool(value)] *)
Definition truthy_json (j : Json) : bool :=
  match j with
  | JNull => false
  | JBool b => b
  | JInt n => negb (n =? 0)
  | JFloat q => negb (Qeq_bool q 0)
  | JStr s => truthy s
  | JList l => negb (Nat.eqb (length l) 0)
  | JObject fields => negb (Nat.eqb (length fields) 0)
  end.

(** ** Equality

    [==] on parsed JSON: a bool is the integer it is, an integer the float it is, and the
    order of an object's keys does not matter. *)
Definition number (j : Json) : option Q :=
  match j with
  | JBool b => Some (if b then 1%Q else 0%Q)
  | JInt n => Some (inject_Z n)
  | JFloat q => Some q
  | _ => None
  end.
Fixpoint json_eqb (a b : Json) {struct a} : bool :=
  match a, b with
  | JNull, JNull => true
  | JStr s, JStr t => String.eqb s t
  | JList l, JList k =>
      (fix same l k := match l, k with
       | [], [] => true
       | x :: l, y :: k => json_eqb x y && same l k
       | _, _ => false
       end) l k
  | JObject f, JObject g =>
      Nat.eqb (length f) (length g) &&
      (fix each f := match f with
       | [] => true
       | (key, x) :: f => match dict_get g key with Some y => json_eqb x y | None => false end && each f
       end) f
  | _, _ => match number a, number b with Some p, Some q => Qeq_bool p q | _, _ => false end
  end.
(** [value.get(key)] of an object, with [null] as [None]. *)
Definition json_get (fields : list (string * Json)) (key : string) : option Json :=
  match dict_get fields key with Some JNull | None => None | Some value => Some value end.
Example json_eqb_ex :
  (json_eqb (JObject [("a", JInt 1); ("b", JList [JNull])]) (JObject [("b", JList [JNull]); ("a", JBool true)]),
   json_eqb (JObject [("a", JInt 1)]) (JObject [("a", JStr "1")])) = (true, false).
Proof. vm_compute. reflexivity. Qed.

(** ** [repr] and [str] *)
Definition QUOTE : ascii := "039".
Definition DOUBLE_QUOTE : ascii := "034".
Definition hex_of (n : N) : ascii := ascii_of_N (if (n <? 10)%N then 48 + n else 87 + n)%N.
Definition repr_char (quote c : ascii) : string :=
  let n := code c in
  if Ascii.eqb c quote || Ascii.eqb c "092" then String "092" (String c "")
  else if (n =? 9)%N then "\t"
  else if (n =? 10)%N then "\n"
  else if (n =? 13)%N then "\r"
  else if (n <? 32)%N || (n =? 127)%N
  then String "092" (String "x" (String (hex_of (n / 16)) (String (hex_of (n mod 16)) "")))
  else String c "".
Definition repr_str (s : string) : string :=
  let has c := existsb (Ascii.eqb c) (list_ascii_of_string s) in
  let quote := if has QUOTE && negb (has DOUBLE_QUOTE) then DOUBLE_QUOTE else QUOTE in
  String quote "" +:+ String.concat "" (map (repr_char quote) (list_ascii_of_string s)) +:+ String quote "".

Section repr.
  Variable float_repr : Q -> string.

Fixpoint repr (j : Json) : string :=
  match j with
  | JNull => "None"
  | JBool b => if b then "True" else "False"
  | JInt n => pretty n
  | JFloat q => float_repr q
  | JStr s => repr_str s
  | JList l => "[" +:+ String.concat ", " (map repr l) +:+ "]"
  | JObject fields =>
      "{" +:+ String.concat ", " (map (fun kv => repr_str kv.1 +:+ ": " +:+ repr kv.2) fields) +:+ "}"
  end.
Definition py_str (j : Json) : string := match j with JStr s => s | _ => repr j end.

(** [str(value or other)], for a value that may be absent. *)
Definition or_json (o : option Json) (other : Json) : Json :=
  match o with Some j => if truthy_json j then j else other | None => other end.

Lemma pretty_N_go_length x : forall s, (String.length s <= String.length (pretty_N_go x s))%nat.
Proof.
  induction (N.lt_wf_0 x) as [x _ IH]. intros s. destruct (decide (x = 0)%N) as [->|Hx]; [by rewrite pretty_N_go_0|].
  rewrite pretty_N_go_step by lia. etrans; [|apply IH, N.div_lt; lia]. simpl. lia.
Qed.
Lemma pretty_positive p : pretty (N.pos p) <> "".
Proof.
  unfold pretty, pretty_N. case_decide; [done|]. rewrite pretty_N_go_step by lia.
  intros E. pose proof (pretty_N_go_length (N.pos p `div` 10)%N (String (pretty_N_char (N.pos p `mod` 10)%N) "")) as Hlen.
  rewrite E in Hlen. simpl in Hlen. lia.
Qed.
Hypothesis float_repr_nonempty : forall q, float_repr q <> "".
Lemma py_str_truthy j : truthy_json j = true -> py_str j <> "".
Proof.
  destruct j as [|[]|[|p|p]|q|s|l|fields]; try done.
  - intros _. apply pretty_positive.
  - intros _. apply float_repr_nonempty.
  - simpl. unfold truthy. by destruct (String.eqb_spec s "").
Qed.
End repr.
Example repr_ex : py_str (fun _ => "0.5") (JObject [("a", JList [JInt (-3); JNull]); ("it's", JStr "x")])
  = String.concat "" ["{'a': [-3, None], "; String DOUBLE_QUOTE "it's"; String DOUBLE_QUOTE ": 'x'}"].
Proof. vm_compute. reflexivity. Qed.
