(* ===== verification/PyModel.v ===== *)
(** * Contract models

    The program's contracts are frozen, strict pydantic models.  Validation of a
    model cleans each field by its declared constraint (strings are stripped and
    measured, numbers range-checked, nested models re-validated) and then runs
    the model's own [model_validator].  A cleaner is a function [A -> result A];
    the law every cleaner obeys is that a cleaned value is accepted unchanged
    when it is validated again, which is what lets the program re-validate its
    inputs at every boundary. *)
From S2P Require Import Prelude PyStrings PyDict PyRegex.
Local Open Scope Z_scope.

Definition cleaner (A : Type) : Type := A -> result A.

(** Re-validation law. *)
Class Idem {A} (f : cleaner A) : Prop :=
  idem : forall x y, f x = Ok y -> f y = Ok y.

(** ** Field constraints *)
Definition bounded_text (lo hi : Z) : cleaner string := fun s =>
  let s' := trim s in
  let n := Z.of_nat (String.length s') in
  if (lo <=? n) && (n <=? hi) then Ok s' else Raise (ValidationError "string length").
(** [ShortText] and [Text] of workflow_contracts. *)
Definition ShortText : cleaner string := bounded_text 1 256.
Definition Text : cleaner string := bounded_text 1 4000.

Definition hex_digit (c : ascii) : bool :=
  is_digit c || ((97 <=? code c) && (code c <=? 102))%N.
Definition is_digest (s : string) : bool :=
  Nat.eqb (String.length s) 64 && forallb hex_digit (list_ascii_of_string s).
Definition Digest : cleaner string := fun s =>
  let s' := trim s in if is_digest s' then Ok s' else Raise (ValidationError "digest pattern").

Definition NonNegativeInt : cleaner Z := fun n =>
  if 0 <=? n then Ok n else Raise (ValidationError "greater than or equal to 0").
Definition PositiveInt : cleaner Z := fun n =>
  if 0 <? n then Ok n else Raise (ValidationError "greater than 0").

Definition any {A} : cleaner A := Ok.
Definition optional {A} (f : cleaner A) : cleaner (option A) := fun o =>
  match o with None => Ok None | Some a => a' ← f a; Ok (Some a') end.
Definition tuple_of {A} (f : cleaner A) : cleaner (list A) := mapM f.
Definition max_length {A} (n : Z) (f : cleaner (list A)) : cleaner (list A) := fun l =>
  if Z.of_nat (length l) <=? n then f l else Raise (ValidationError "too long").
Definition min_length {A} (n : Z) (f : cleaner (list A)) : cleaner (list A) := fun l =>
  if n <=? Z.of_nat (length l) then f l else Raise (ValidationError "too short").
Definition pair_of {A B} (f : cleaner A) (g : cleaner B) : cleaner (A * B) := fun p =>
  a ← f p.1; b ← g p.2; Ok (a, b).
(** Clean the fields, then run the model validator on the cleaned model. *)
Definition model {A} (fields : cleaner A) (validator : A -> result unit) : cleaner A := fun x =>
  y ← fields x; _ ← validator y; Ok y.

(** [_require_unique(values, description)] of workflow_harness_contracts. *)
Definition require_unique `{EqDecision A} (values : list A) (description : string) : result unit :=
  check (unique values) (ValueError (description +:+ " must be unique")).

(** ** The law *)
#[export] Instance bounded_text_idem lo hi : Idem (bounded_text lo hi).
Proof.
  intros x y. unfold bounded_text. split_if; [|done]. intros [= <-].
  rewrite trim_idem. by rewrite Heqb.
Qed.
#[export] Instance ShortText_idem : Idem ShortText.
Proof. apply bounded_text_idem. Qed.
#[export] Instance Text_idem : Idem Text.
Proof. apply bounded_text_idem. Qed.
#[export] Instance Digest_idem : Idem Digest.
Proof.
  intros x y. unfold Digest. split_if; [|done]. intros [= <-].
  rewrite trim_idem. by rewrite Heqb.
Qed.
#[export] Instance NonNegativeInt_idem : Idem NonNegativeInt.
Proof. intros x y. unfold NonNegativeInt. split_if; [|done]. intros [= <-]. by rewrite Heqb. Qed.
#[export] Instance PositiveInt_idem : Idem PositiveInt.
Proof. intros x y. unfold PositiveInt. split_if; [|done]. intros [= <-]. by rewrite Heqb. Qed.
#[export] Instance any_idem {A} : Idem (@any A).
Proof. by intros x y [= <-]. Qed.
#[export] Instance optional_idem {A} (f : cleaner A) : Idem f -> Idem (optional f).
Proof.
  intros Hf [a|] y; simpl; [|by intros [= <-]].
  intros (a' & Ha & [= <-])%bind_Ok. simpl. by rewrite (Hf _ _ Ha).
Qed.

#[export] Instance tuple_of_idem {A} (f : cleaner A) : Idem f -> Idem (tuple_of f).
Proof.
  intros Hf x y. unfold tuple_of. rewrite !mapM_Ok. induction 1; constructor; eauto.
Qed.
Lemma tuple_of_length {A} (f : cleaner A) x y : tuple_of f x = Ok y -> length y = length x.
Proof. unfold tuple_of. rewrite mapM_Ok. intros H. symmetry. by eapply Forall2_length. Qed.

(** A tuple is clean when its elements are. *)
Lemma tuple_of_fix {A} (f : cleaner A) l : tuple_of f l = Ok l <-> forall x, x ∈ l -> f x = Ok x.
Proof.
  unfold tuple_of. rewrite mapM_Ok. split.
  - induction l as [|a l IH]; [by intros _ x ?%not_elem_of_nil|].
    intros H. inversion H; subst. intros x [->|Hx]%elem_of_cons; auto.
  - induction l as [|a l IH]; intros H; constructor; [by apply H; left|].
    apply IH. intros x Hx. apply H. by right.
Qed.
Lemma tuple_of_snoc {A} (f : cleaner A) l x :
  tuple_of f l = Ok l -> f x = Ok x -> tuple_of f (l ++ [x]) = Ok (l ++ [x]).
Proof.
  rewrite !tuple_of_fix. intros Hl Hx y [Hy|Hy%list_elem_of_singleton]%elem_of_app; [auto|by subst].
Qed.
Lemma pair_of_fix {A B} (f : cleaner A) (g : cleaner B) p :
  pair_of f g p = Ok p <-> f p.1 = Ok p.1 /\ g p.2 = Ok p.2.
Proof.
  destruct p as [a b]. unfold pair_of. simpl. rewrite bind_Ok. setoid_rewrite bind_Ok. split.
  - intros (a' & Ha & b' & Hb & [= -> ->]). done.
  - intros [Ha Hb]. exists a. split; [done|]. by exists b.
Qed.

(** Cleaners that keep the length of a tuple. *)
Class KeepsLength {A} (f : cleaner (list A)) : Prop :=
  keeps_length : forall x y, f x = Ok y -> length y = length x.
#[export] Instance tuple_of_keeps {A} (f : cleaner A) : KeepsLength (tuple_of f).
Proof. intros x y. apply tuple_of_length. Qed.
#[export] Instance max_length_keeps {A} n (f : cleaner (list A)) :
  KeepsLength f -> KeepsLength (max_length n f).
Proof. intros Hf x y. unfold max_length. split_if; [apply Hf|done]. Qed.

#[export] Instance max_length_idem {A} n (f : cleaner (list A)) :
  KeepsLength f -> Idem f -> Idem (max_length n f).
Proof.
  intros Hl Hf x y. unfold max_length. split_if; [|done]. intros H.
  rewrite (Hl _ _ H), Heqb. by eapply Hf.
Qed.
#[export] Instance min_length_idem {A} n (f : cleaner (list A)) :
  KeepsLength f -> Idem f -> Idem (min_length n f).
Proof.
  intros Hl Hf x y. unfold min_length. split_if; [|done]. intros H.
  rewrite (Hl _ _ H), Heqb. by eapply Hf.
Qed.
#[export] Instance pair_of_idem {A B} (f : cleaner A) (g : cleaner B) :
  Idem f -> Idem g -> Idem (pair_of f g).
Proof.
  intros Hf Hg [a b] y. unfold pair_of. simpl.
  intros (a' & Ha & (b' & Hb & [= <-])%bind_Ok)%bind_Ok. simpl.
  by rewrite (Hf _ _ Ha); simpl; rewrite (Hg _ _ Hb).
Qed.
#[export] Instance model_idem {A} (f : cleaner A) v : Idem f -> Idem (model f v).
Proof.
  intros Hf x y. unfold model. intros (y' & Hy & (u & Hv & [= <-])%bind_Ok)%bind_Ok.
  rewrite (Hf _ _ Hy). simpl. by rewrite Hv.
Qed.

Lemma model_Ok {A} (f : cleaner A) v x y :
  model f v x = Ok y <-> f x = Ok y /\ v y = Ok tt.
Proof.
  unfold model. rewrite bind_Ok. setoid_rewrite bind_Ok. split.
  - intros (a & Hf & [] & Hv & [= <-]). done.
  - intros [Hf Hv]. exists y. split; [done|]. by exists tt.
Qed.
Lemma require_unique_Ok `{EqDecision A} (l : list A) d u :
  require_unique l d = Ok u <-> NoDup l.
Proof. unfold require_unique. by rewrite check_Ok, unique_true. Qed.

(** The fields of a record are cleaned one by one: if each field's cleaner is
    idempotent so is the record's. *)
Ltac solve_fields_idem :=
  let x := fresh "x" in let y := fresh "y" in let H := fresh "H" in
  lazymatch goal with |- Idem ?f => unfold Idem, f end;
  intros x y H; cbv beta in H |- *;
  repeat match type of H with
  | _ ≫= _ = Ok _ =>
      let a := fresh "a" in let Ha := fresh "Ha" in
      apply bind_Ok in H; destruct H as (a & Ha & H); apply idem in Ha
  end;
  injection H as <-; cbn;
  repeat match goal with Ha : _ = Ok ?a |- _ => rewrite Ha; clear Ha; cbn end;
  reflexivity.

(** When every failure of [f] is the same error, mapping it over a permuted list
    fails alike or gives a permuted result. *)
Lemma mapM_uniform {A B} (f : A -> result B) e l :
  (forall a, is_ok (f a) = true \/ f a = Raise e) -> is_ok (mapM f l) = true \/ mapM f l = Raise e.
Proof.
  intros Hf. induction l as [|a l IH]; simpl; [by left|].
  destruct (Hf a) as [Ha| ->]; [|by right]. destruct (f a); [|done]. simpl.
  destruct IH as [IH| ->]; [|by right]. destruct (mapM f l); [by left|done].
Qed.
Lemma mapM_Ok_permuted {A B} (f : A -> result B) l k l' :
  l ≡ₚ k -> mapM f l = Ok l' -> exists k', mapM f k = Ok k' /\ l' ≡ₚ k'.
Proof.
  intros Hp. rewrite mapM_Ok. intros H. revert l' H.
  induction Hp as [|x l k _ IH|x y l|l k m _ IH1 _ IH2]; intros l' H.
  - inversion H; subst. by exists [].
  - inversion H as [|? b ? l'' Hx Hl]; subst. destruct (IH _ Hl) as (k' & Hk & Hp).
    exists (b :: k'). simpl. rewrite Hx. simpl. rewrite Hk. simpl. split; [done|]. by constructor.
  - inversion H as [|? b ? l'' Hx Hl]; subst. inversion Hl as [|? c ? m Hy Hm]; subst.
    apply mapM_Ok in Hm. exists (c :: b :: m). simpl. rewrite Hy. simpl. rewrite Hx. simpl. rewrite Hm. simpl.
    split; [done|]. constructor.
  - destruct (IH1 _ H) as (k' & Hk & Hp1). apply mapM_Ok in Hk. destruct (IH2 _ Hk) as (m' & Hm & Hp2).
    exists m'. split; [done|]. by transitivity k'.
Qed.
Lemma mapM_permuted {A B} (f : A -> result B) e l k :
  (forall a, is_ok (f a) = true \/ f a = Raise e) -> l ≡ₚ k ->
  (exists l' k', mapM f l = Ok l' /\ mapM f k = Ok k' /\ l' ≡ₚ k') \/
  (mapM f l = Raise e /\ mapM f k = Raise e).
Proof.
  intros Hf Hp. destruct (mapM_uniform f e l Hf) as [Hl|Hl].
  - destruct (mapM f l) as [l'|] eqn:El; [|done]. destruct (mapM_Ok_permuted f l k l' Hp El) as (k' & ? & ?). eauto 6.
  - right. split; [done|]. destruct (mapM_uniform f e k Hf) as [Hk|Hk]; [|done].
    destruct (mapM f k) as [k'|] eqn:Ek; [|done].
    destruct (mapM_Ok_permuted f k l k' (symmetry Hp) Ek) as (? & ? & _). congruence.
Qed.
