(* ===== verification/HarnessContracts.v ===== *)
(** * Harness contracts: market_agent/workflow_harness_contracts.py

    The states of runs, work items and attempts, the frozen records the harness
    exchanges (plans, transitions, authorities, leases, the folded session
    view) and their validators.  Each [validate_*] is pydantic's construction of
    that model: the fields' constraints, then the [model_validator]. *)
From Stdlib Require Import QArith.
From S2P Require Import Prelude PyStrings PyDict PyModel.
Local Open Scope Z_scope.
Local Open Scope string_scope.

(** ** Enumerations *)
Inductive RunState :=
  | R_CREATED | R_ADMITTED | R_PLANNED | R_READY | R_RUNNING | R_RECONCILING
  | R_WAITING_APPROVAL | R_WAITING_RECONCILIATION | R_DEGRADING | R_SUMMARIZING
  | R_SUCCEEDED | R_DEGRADED | R_FAILED | R_CANCELLED.
#[export] Instance RunState_eq_dec : EqDecision RunState.
Proof. solve_decision. Defined.

Inductive WorkItemState :=
  | W_PENDING | W_READY | W_LEASED | W_RUNNING | W_VALIDATING | W_SUCCEEDED
  | W_RETRY_WAIT | W_BLOCKED | W_FAILED | W_CANCELLED.
#[export] Instance WorkItemState_eq_dec : EqDecision WorkItemState.
Proof. solve_decision. Defined.

Inductive AttemptState :=
  | A_RESERVED | A_DISPATCHED | A_STREAMING | A_VALIDATING | A_SETTLING | A_COMPLETED
  | A_TIMED_OUT | A_REJECTED | A_FAILED | A_STALE | A_CANCELLED.
#[export] Instance AttemptState_eq_dec : EqDecision AttemptState.
Proof. solve_decision. Defined.

Inductive OutcomeKind := O_ANSWER | O_NO_TRADE | O_UNKNOWN | O_NONE.
#[export] Instance OutcomeKind_eq_dec : EqDecision OutcomeKind.
Proof. solve_decision. Defined.

Inductive TaskKind :=
  | T_MARKET_CONTEXT | T_EVENT_FILTER | T_FUNDAMENTAL | T_TECHNICAL
  | T_DECISION_PLANNER | T_ESCALATION | T_RECONCILIATION | T_RISK_GATE
  | T_PLAYBOOK_ASSEMBLY | T_PRESENTATION_SYNTHESIS | T_LOCALE_RENDERING
  | T_AUDIT_FINALIZATION | T_INFORMATIONAL.
#[export] Instance TaskKind_eq_dec : EqDecision TaskKind.
Proof. solve_decision. Defined.

Inductive RiskClass := K_INFORMATIONAL | K_TRADING | K_MANDATORY_EVIDENCE | K_SIDE_EFFECTING.
Inductive WorkflowMode := M_ACTIVE | M_PASSIVE.
Inductive KnowledgeLevel := L_known | L_partial | L_unknown | L_not_applicable.
#[export] Instance KnowledgeLevel_eq_dec : EqDecision KnowledgeLevel.
Proof. solve_decision. Defined.
Inductive EntityKind := E_run | E_work_item | E_attempt.
#[export] Instance EntityKind_eq_dec : EqDecision EntityKind.
Proof. solve_decision. Defined.

(** The enum members' string values, and the enums' constructors from a
    string ([RunState(value)], which raises on an unknown one). *)
Definition run_state_value (s : RunState) : string :=
  match s with
  | R_CREATED => "created" | R_ADMITTED => "admitted" | R_PLANNED => "planned"
  | R_READY => "ready" | R_RUNNING => "running" | R_RECONCILING => "reconciling"
  | R_WAITING_APPROVAL => "waiting_approval"
  | R_WAITING_RECONCILIATION => "waiting_reconciliation"
  | R_DEGRADING => "degrading" | R_SUMMARIZING => "summarizing"
  | R_SUCCEEDED => "succeeded" | R_DEGRADED => "degraded" | R_FAILED => "failed"
  | R_CANCELLED => "cancelled"
  end.
Definition work_item_state_value (s : WorkItemState) : string :=
  match s with
  | W_PENDING => "pending" | W_READY => "ready" | W_LEASED => "leased"
  | W_RUNNING => "running" | W_VALIDATING => "validating" | W_SUCCEEDED => "succeeded"
  | W_RETRY_WAIT => "retry_wait" | W_BLOCKED => "blocked" | W_FAILED => "failed"
  | W_CANCELLED => "cancelled"
  end.
Definition attempt_state_value (s : AttemptState) : string :=
  match s with
  | A_RESERVED => "reserved" | A_DISPATCHED => "dispatched" | A_STREAMING => "streaming"
  | A_VALIDATING => "validating" | A_SETTLING => "settling" | A_COMPLETED => "completed"
  | A_TIMED_OUT => "timed_out" | A_REJECTED => "rejected" | A_FAILED => "failed"
  | A_STALE => "stale" | A_CANCELLED => "cancelled"
  end.

Definition all_run_states : list RunState :=
  [R_CREATED; R_ADMITTED; R_PLANNED; R_READY; R_RUNNING; R_RECONCILING;
   R_WAITING_APPROVAL; R_WAITING_RECONCILIATION; R_DEGRADING; R_SUMMARIZING;
   R_SUCCEEDED; R_DEGRADED; R_FAILED; R_CANCELLED].
Definition all_work_item_states : list WorkItemState :=
  [W_PENDING; W_READY; W_LEASED; W_RUNNING; W_VALIDATING; W_SUCCEEDED;
   W_RETRY_WAIT; W_BLOCKED; W_FAILED; W_CANCELLED].
Definition all_attempt_states : list AttemptState :=
  [A_RESERVED; A_DISPATCHED; A_STREAMING; A_VALIDATING; A_SETTLING; A_COMPLETED;
   A_TIMED_OUT; A_REJECTED; A_FAILED; A_STALE; A_CANCELLED].

Definition enum_of {A} (value : A -> string) (members : list A) (s : string) : option A :=
  List.find (fun m => String.eqb (value m) s) members.
Definition run_state_of : string -> option RunState := enum_of run_state_value all_run_states.
Definition work_item_state_of : string -> option WorkItemState :=
  enum_of work_item_state_value all_work_item_states.
Definition attempt_state_of : string -> option AttemptState :=
  enum_of attempt_state_value all_attempt_states.

Lemma enum_of_value {A} (value : A -> string) members s m :
  enum_of value members s = Some m -> value m = s.
Proof. unfold enum_of. intros H. apply List.find_some in H as [_ H]. by apply String.eqb_eq. Qed.
Lemma run_state_of_value s : run_state_of (run_state_value s) = Some s.
Proof. by destruct s. Qed.
Lemma work_item_state_of_value s : work_item_state_of (work_item_state_value s) = Some s.
Proof. by destruct s. Qed.
Lemma attempt_state_of_value s : attempt_state_of (attempt_state_value s) = Some s.
Proof. by destruct s. Qed.

(** ** HarnessOutcome *)
Record HarnessOutcome := {
  oc_terminal_state : RunState;
  oc_outcome_kind : OutcomeKind;
  oc_knowledge_status : KnowledgeLevel;
  oc_terminal_reason : string }.
#[export] Instance HarnessOutcome_eq_dec : EqDecision HarnessOutcome.
Proof. solve_decision. Defined.

Definition outcome_reasons (s : RunState) (k : OutcomeKind) (l : KnowledgeLevel) : option (list string) :=
  match s, k, l with
  | R_SUCCEEDED, O_ANSWER, (L_known | L_partial) =>
      Some ["completed"; "fixed_seed_cache_hit"; "compatible_semantic_cache_hit"]
  | R_SUCCEEDED, O_NO_TRADE, L_known => Some ["strategy_no_trade"; "risk_gate_no_trade"]
  | R_DEGRADED, O_ANSWER, (L_known | L_partial) =>
      Some ["lower_model_fallback"; "verified_local_knowledge_fallback"]
  | R_DEGRADED, O_UNKNOWN, L_unknown =>
      Some ["insufficient_evidence"; "confidence_recovery_exhausted"; "dependency_unavailable"]
  | R_DEGRADED, O_NO_TRADE, (L_unknown | L_partial) => Some ["safe_no_trade_due_to_degradation"]
  | R_FAILED, O_NONE, L_not_applicable =>
      Some ["permanent_policy"; "integrity"; "audit"; "configuration_failure"]
  | R_CANCELLED, O_NONE, L_not_applicable => Some ["cancellation_completed"]
  | _, _, _ => None
  end.
Definition clean_outcome : cleaner HarnessOutcome := fun o =>
  reason ← ShortText (oc_terminal_reason o);
  Ok {| oc_terminal_state := oc_terminal_state o; oc_outcome_kind := oc_outcome_kind o;
        oc_knowledge_status := oc_knowledge_status o; oc_terminal_reason := reason |}.
Definition validate_terminal_mapping (o : HarnessOutcome) : result unit :=
  check (match outcome_reasons (oc_terminal_state o) (oc_outcome_kind o) (oc_knowledge_status o) with
         | Some reasons => bool_decide (oc_terminal_reason o ∈ reasons)
         | None => false
         end)
    (ValueError "terminal state, outcome, and knowledge status are incompatible").
Definition validate_outcome : cleaner HarnessOutcome := model clean_outcome validate_terminal_mapping.
#[export] Instance clean_outcome_idem : Idem clean_outcome.
Proof. solve_fields_idem. Qed.
#[export] Instance validate_outcome_idem : Idem validate_outcome.
Proof. apply _. Qed.

(** ** Plans *)
Definition TargetIds : cleaner (list string) := max_length 64 (tuple_of ShortText).
#[export] Instance TargetIds_idem : Idem TargetIds.
Proof. apply _. Qed.

Record StageSpec := {
  st_stage_id : string; st_version : string;
  st_entry_predicate : string; st_completion_predicate : string;
  st_allowed_task_kinds : list TaskKind; st_dependencies : list string;
  st_maximum_concurrency : Z; st_budget_policy_key : string;
  st_failure_outcome : OutcomeKind; st_degradation_outcome : OutcomeKind;
  st_allows_side_effects : bool; st_allows_reconciliation : bool }.
Definition clean_stage : cleaner StageSpec := fun s =>
  stage_id ← ShortText (st_stage_id s);
  version ← ShortText (st_version s);
  entry ← ShortText (st_entry_predicate s);
  completion ← ShortText (st_completion_predicate s);
  kinds ← min_length 1 (max_length 64 (tuple_of any)) (st_allowed_task_kinds s);
  deps ← TargetIds (st_dependencies s);
  conc ← PositiveInt (st_maximum_concurrency s);
  budget ← ShortText (st_budget_policy_key s);
  Ok {| st_stage_id := stage_id; st_version := version; st_entry_predicate := entry;
        st_completion_predicate := completion; st_allowed_task_kinds := kinds;
        st_dependencies := deps; st_maximum_concurrency := conc;
        st_budget_policy_key := budget; st_failure_outcome := st_failure_outcome s;
        st_degradation_outcome := st_degradation_outcome s;
        st_allows_side_effects := st_allows_side_effects s;
        st_allows_reconciliation := st_allows_reconciliation s |}.
Definition stage_identifiers (s : StageSpec) : result unit :=
  _ ← require_unique (st_allowed_task_kinds s) "stage task kinds";
  _ ← require_unique (st_dependencies s) "stage dependencies";
  raise_when (bool_decide (st_stage_id s ∈ st_dependencies s))
    (ValueError "a stage cannot depend on itself").
Definition validate_stage : cleaner StageSpec := model clean_stage stage_identifiers.
#[export] Instance clean_stage_idem : Idem clean_stage.
Proof. solve_fields_idem. Qed.

Record WorkerSpec := {
  wk_worker_id : string; wk_version : string;
  wk_supported_task_kinds : list TaskKind; wk_analysis_phases : list string;
  wk_input_schema_id : string; wk_input_schema_hash : string;
  wk_output_schema_id : string; wk_output_schema_hash : string;
  wk_prompt_release : string; wk_prompt_profile : string;
  wk_model_routing_policy_key : string; wk_context_selector : string;
  wk_context_token_budget : Z; wk_readable_state_keys : list string;
  wk_writable_invocation_state_key : string;
  wk_allowed_tool_capabilities : list string;
  wk_cacheable : bool; wk_freshness_class : string;
  wk_maximum_turns : Z; wk_maximum_tool_calls : Z;
  wk_maximum_input_tokens : Z; wk_maximum_output_tokens : Z;
  wk_timeout_seconds : Q; wk_maximum_attempts : Z; wk_maximum_cost : Q;
  wk_success_outcome : OutcomeKind; wk_failure_outcome : OutcomeKind;
  wk_degradation_outcome : OutcomeKind }.
Definition PositiveFinite : cleaner Q := fun q =>
  if Qle_bool q 0 then Raise (ValidationError "greater than 0") else Ok q.
Definition NonNegativeFinite : cleaner Q := fun q =>
  if Qle_bool 0 q then Ok q else Raise (ValidationError "greater than or equal to 0").
Definition FiniteUnit : cleaner Q := fun q =>
  if Qle_bool 0 q && Qle_bool q 1 then Ok q else Raise (ValidationError "between 0 and 1").
#[export] Instance PositiveFinite_idem : Idem PositiveFinite.
Proof. intros x y. unfold PositiveFinite. split_if; [done|]. intros [= <-]. by rewrite Heqb. Qed.
#[export] Instance NonNegativeFinite_idem : Idem NonNegativeFinite.
Proof. intros x y. unfold NonNegativeFinite. split_if; [|done]. intros [= <-]. by rewrite Heqb. Qed.
#[export] Instance FiniteUnit_idem : Idem FiniteUnit.
Proof. intros x y. unfold FiniteUnit. split_if; [|done]. intros [= <-]. by rewrite Heqb. Qed.

Definition clean_worker : cleaner WorkerSpec := fun w =>
  worker_id ← ShortText (wk_worker_id w);
  version ← ShortText (wk_version w);
  kinds ← min_length 1 (max_length 64 (tuple_of any)) (wk_supported_task_kinds w);
  phases ← min_length 3 (max_length 5 (tuple_of ShortText)) (wk_analysis_phases w);
  in_id ← ShortText (wk_input_schema_id w);
  in_hash ← Digest (wk_input_schema_hash w);
  out_id ← ShortText (wk_output_schema_id w);
  out_hash ← Digest (wk_output_schema_hash w);
  release ← ShortText (wk_prompt_release w);
  profile ← ShortText (wk_prompt_profile w);
  routing ← ShortText (wk_model_routing_policy_key w);
  selector ← ShortText (wk_context_selector w);
  ctx_budget ← PositiveInt (wk_context_token_budget w);
  readable ← TargetIds (wk_readable_state_keys w);
  writable ← ShortText (wk_writable_invocation_state_key w);
  tools ← TargetIds (wk_allowed_tool_capabilities w);
  fresh ← ShortText (wk_freshness_class w);
  turns ← PositiveInt (wk_maximum_turns w);
  tool_calls ← NonNegativeInt (wk_maximum_tool_calls w);
  in_tokens ← PositiveInt (wk_maximum_input_tokens w);
  out_tokens ← PositiveInt (wk_maximum_output_tokens w);
  timeout ← PositiveFinite (wk_timeout_seconds w);
  attempts ← PositiveInt (wk_maximum_attempts w);
  cost ← NonNegativeFinite (wk_maximum_cost w);
  Ok {| wk_worker_id := worker_id; wk_version := version;
        wk_supported_task_kinds := kinds; wk_analysis_phases := phases;
        wk_input_schema_id := in_id; wk_input_schema_hash := in_hash;
        wk_output_schema_id := out_id; wk_output_schema_hash := out_hash;
        wk_prompt_release := release; wk_prompt_profile := profile;
        wk_model_routing_policy_key := routing; wk_context_selector := selector;
        wk_context_token_budget := ctx_budget; wk_readable_state_keys := readable;
        wk_writable_invocation_state_key := writable;
        wk_allowed_tool_capabilities := tools; wk_cacheable := wk_cacheable w;
        wk_freshness_class := fresh; wk_maximum_turns := turns;
        wk_maximum_tool_calls := tool_calls; wk_maximum_input_tokens := in_tokens;
        wk_maximum_output_tokens := out_tokens; wk_timeout_seconds := timeout;
        wk_maximum_attempts := attempts; wk_maximum_cost := cost;
        wk_success_outcome := wk_success_outcome w;
        wk_failure_outcome := wk_failure_outcome w;
        wk_degradation_outcome := wk_degradation_outcome w |}.
Definition worker_identifiers (w : WorkerSpec) : result unit :=
  _ ← require_unique (wk_supported_task_kinds w) "worker task kinds";
  _ ← require_unique (wk_analysis_phases w) "analysis phases";
  _ ← require_unique (wk_readable_state_keys w) "readable state keys";
  _ ← require_unique (wk_allowed_tool_capabilities w) "tool capabilities";
  raise_when (bool_decide (wk_writable_invocation_state_key w ∈ wk_readable_state_keys w))
    (ValueError "the writable invocation-state key cannot also be readable").
Definition validate_worker : cleaner WorkerSpec := model clean_worker worker_identifiers.
#[export] Instance clean_worker_idem : Idem clean_worker.
Proof. solve_fields_idem. Qed.

Definition CoverageWeight : cleaner Q := fun q =>
  if negb (Qle_bool q 0) && Qle_bool q 1 then Ok q else Raise (ValidationError "weight").
#[export] Instance CoverageWeight_idem : Idem CoverageWeight.
Proof. intros x y. unfold CoverageWeight. split_if; [|done]. intros [= <-]. by rewrite Heqb. Qed.

Record ProgressTargetSet := {
  pt_required_dependency_ids : list string;
  pt_required_output_field_paths : list string;
  pt_required_evidence_slot_ids : list string;
  pt_required_source_coverage_weights : list (string * Q);
  pt_known_conflict_slot_ids : list string;
  pt_risk_invariant_ids : list string }.
Definition clean_targets : cleaner ProgressTargetSet := fun t =>
  deps ← TargetIds (pt_required_dependency_ids t);
  paths ← TargetIds (pt_required_output_field_paths t);
  slots ← TargetIds (pt_required_evidence_slot_ids t);
  weights ← max_length 64 (tuple_of (pair_of ShortText CoverageWeight))
              (pt_required_source_coverage_weights t);
  conflicts ← TargetIds (pt_known_conflict_slot_ids t);
  risks ← TargetIds (pt_risk_invariant_ids t);
  Ok {| pt_required_dependency_ids := deps; pt_required_output_field_paths := paths;
        pt_required_evidence_slot_ids := slots;
        pt_required_source_coverage_weights := weights;
        pt_known_conflict_slot_ids := conflicts; pt_risk_invariant_ids := risks |}.
Definition canonical_targets (t : ProgressTargetSet) : result unit :=
  _ ← require_unique (pt_required_dependency_ids t) "required_dependency_ids";
  _ ← require_unique (pt_required_output_field_paths t) "required_output_field_paths";
  _ ← require_unique (pt_required_evidence_slot_ids t) "required_evidence_slot_ids";
  _ ← require_unique (pt_known_conflict_slot_ids t) "known_conflict_slot_ids";
  _ ← require_unique (pt_risk_invariant_ids t) "risk_invariant_ids";
  require_unique (pt_required_source_coverage_weights t).*1 "required source identifiers".
Definition validate_targets : cleaner ProgressTargetSet := model clean_targets canonical_targets.
#[export] Instance clean_targets_idem : Idem clean_targets.
Proof. solve_fields_idem. Qed.

Record WorkItemSpec := {
  wi_work_item_id : string; wi_stage_id : string; wi_worker_id : string;
  wi_task_kind : TaskKind; wi_objective : string; wi_dependencies : list string;
  wi_progress_targets : ProgressTargetSet }.
Definition clean_work_item : cleaner WorkItemSpec := fun w =>
  wid ← ShortText (wi_work_item_id w);
  stage ← ShortText (wi_stage_id w);
  worker ← ShortText (wi_worker_id w);
  objective ← Text (wi_objective w);
  deps ← TargetIds (wi_dependencies w);
  targets ← validate_targets (wi_progress_targets w);
  Ok {| wi_work_item_id := wid; wi_stage_id := stage; wi_worker_id := worker;
        wi_task_kind := wi_task_kind w; wi_objective := objective;
        wi_dependencies := deps; wi_progress_targets := targets |}.
Definition work_item_dependencies (w : WorkItemSpec) : result unit :=
  _ ← require_unique (wi_dependencies w) "work-item dependencies";
  _ ← raise_when (bool_decide (wi_work_item_id w ∈ wi_dependencies w))
        (ValueError "a work item cannot depend on itself");
  check (bool_decide (list_to_set (wi_dependencies w) =@{gset string}
                      list_to_set (pt_required_dependency_ids (wi_progress_targets w))))
    (ValueError "progress dependency targets must match work-item dependencies").
Definition validate_work_item : cleaner WorkItemSpec := model clean_work_item work_item_dependencies.
#[export] Instance validate_targets_idem : Idem validate_targets.
Proof. apply _. Qed.
#[export] Instance clean_work_item_idem : Idem clean_work_item.
Proof. solve_fields_idem. Qed.

Record PinnedVersions := {
  pv_plan_template_version : string; pv_policy_version : string;
  pv_worker_registry_version : string; pv_source_registry_version : string;
  pv_prompt_bundle_hash : string; pv_tool_registry_hash : string;
  pv_output_schema_bundle_hash : string; pv_fingerprint_schema_version : string }.
Definition validate_pinned : cleaner PinnedVersions := fun p =>
  a ← ShortText (pv_plan_template_version p);
  b ← ShortText (pv_policy_version p);
  c ← ShortText (pv_worker_registry_version p);
  d ← ShortText (pv_source_registry_version p);
  e ← Digest (pv_prompt_bundle_hash p);
  f ← Digest (pv_tool_registry_hash p);
  g ← Digest (pv_output_schema_bundle_hash p);
  h ← ShortText (pv_fingerprint_schema_version p);
  Ok {| pv_plan_template_version := a; pv_policy_version := b;
        pv_worker_registry_version := c; pv_source_registry_version := d;
        pv_prompt_bundle_hash := e; pv_tool_registry_hash := f;
        pv_output_schema_bundle_hash := g; pv_fingerprint_schema_version := h |}.
#[export] Instance validate_pinned_idem : Idem validate_pinned.
Proof. solve_fields_idem. Qed.

(** ** Dependency graphs ([_validate_dependency_graph])

    A depth-first search from every identifier with the sets [visiting] (the
    search's stack) and [visited].  The recursion is fuelled; [graph_total] below
    shows that the fuel used never runs out. *)
Section dependency_graph.
  Context (g : list (string * list string)).

Definition acyclic_error (description : string) : exn :=
    ValueError (description +:+ " dependencies must be acyclic").

Fixpoint visit_each (f : gset string -> string -> option (result (gset string)))
      (visited : gset string) (ids : list string) : option (result (gset string)) :=
    match ids with
    | [] => Some (Ok visited)
    | i :: ids => match f visited i with
                  | Some (Ok visited') => visit_each f visited' ids
                  | other => other
                  end
    end.

Fixpoint visit (description : string) (fuel : nat) (visiting visited : gset string)
      (identifier : string) : option (result (gset string)) :=
    if bool_decide (identifier ∈ visiting) then Some (Raise (acyclic_error description))
    else if bool_decide (identifier ∈ visited) then Some (Ok visited)
    else match fuel with
         | O => None
         | S fuel =>
             match dict_get g identifier with
             | None => Some (Raise (KeyError identifier))
             | Some deps =>
                 match visit_each (visit description fuel ({[identifier]} ∪ visiting)) visited deps with
                 | Some (Ok visited') => Some (Ok ({[identifier]} ∪ visited'))
                 | other => other
                 end
             end
         end.

Definition undeclared : bool :=
    existsb (fun p => existsb (fun d => negb (bool_decide (d ∈ g.*1))) p.2) g.

Definition validate_dependency_graph (description : string) : result unit :=
    _ ← raise_when undeclared
          (ValueError (description +:+ " dependencies must reference declared identifiers"));
    match visit_each (visit description (S (length g)) ∅) ∅ g.*1 with
    | Some (Ok _) => Ok tt
    | Some (Raise e) => Raise e
    | None => Raise (Exn "RecursionError" description)
    end.

  (** *** Specification *)
Definition depends (x y : string) : Prop := exists deps, dict_get g x = Some deps /\ y ∈ deps.
Definition closed_graph : Prop := forall x y, depends x y -> y ∈ g.*1.
Definition grounded (x : string) : Prop := Acc (fun y x => depends x y) x.

Lemma grounded_no_cycle x : grounded x -> ~ tc depends x x.
  Proof.
    intros Hx. induction Hx as [x _ IH]. intros Hc.
    inversion Hc as [? ? H1|? y ? H1 H2]; subst; [by eapply IH|].
    apply (IH y H1). by eapply tc_r.
  Qed.

Definition visit_post (visited : gset string) (ids : list string)
      (r : option (result (gset string))) : Prop :=
    match r with
    | Some (Ok v) => (forall i, i ∈ ids -> i ∈ v) /\ visited ⊆ v /\ (forall x, x ∈ v -> grounded x)
    | Some (Raise e) => exists x, tc depends x x
    | None => False
    end.

Lemma visit_each_spec f ids visited :
    (forall x, x ∈ visited -> grounded x) ->
    (forall i v, i ∈ ids -> (forall x, x ∈ v -> grounded x) -> visit_post v [i] (f v i)) ->
    visit_post visited ids (visit_each f visited ids).
  Proof.
    revert visited. induction ids as [|i ids IH]; intros visited Hv Hf; simpl.
    { split_and!; set_solver. }
    pose proof (Hf i visited ltac:(set_solver) Hv) as Hi.
    destruct (f visited i) as [[v|e]|] eqn:E; [|done|done].
    destruct Hi as (Hin & Hsub & Hg).
    pose proof (IH v Hg ltac:(intros; apply Hf; set_solver)) as Hrest.
    destruct (visit_each f v ids) as [[v'|e]|] eqn:E'; [|done|done].
    destruct Hrest as (Hin' & Hsub' & Hg'). split_and!; [|set_solver|done].
    intros j [->|Hj]%elem_of_cons; [set_solver|auto].
  Qed.

Lemma visit_spec description (Hclosed : closed_graph) fuel visiting visited i :
    (forall x, x ∈ visited -> grounded x) ->
    (forall x, x ∈ visiting -> tc depends x i) ->
    i ∈ g.*1 -> visiting ⊆ list_to_set g.*1 ->
    (size (list_to_set g.*1 : gset string) < fuel + size visiting)%nat ->
    visit_post visited [i] (visit description fuel visiting visited i).
  Proof.
    revert visiting visited i.
    induction fuel as [|fuel IH]; intros visiting visited i Hv Hpath Hi Hsub Hfuel; simpl.
    all: case_bool_decide as Hc; [exists i; auto|].
    all: case_bool_decide as Hd; [split_and!; set_solver|].
    { pose proof (subseteq_size _ _ Hsub). lia. }
    destruct (dict_get g i) as [deps|] eqn:Hg; [|by apply dict_get_None in Hg].
    pose proof (visit_each_spec (visit description fuel ({[i]} ∪ visiting)) deps visited Hv) as Hall.
    assert (Hstep : visit_post visited deps
      (visit_each (visit description fuel ({[i]} ∪ visiting)) visited deps)).
    { apply Hall. intros j v Hj Hgv.
      assert (Hij : depends i j) by (exists deps; done).
      apply IH; [done| | | |].
      - intros x [->%elem_of_singleton|Hx]%elem_of_union; [by apply tc_once|].
        eapply tc_r; [by apply Hpath|done].
      - by eapply Hclosed.
      - set_solver.
      - rewrite size_union by set_solver. rewrite size_singleton. lia. }
    destruct (visit_each _ _ _) as [[v|e]|]; [|done|done].
    destruct Hstep as (Hin & Hsubv & Hgr). split_and!; [set_solver|set_solver|].
    intros x [->%elem_of_singleton|Hx]%elem_of_union; [|auto].
    constructor. intros y (deps' & Hg' & Hy). rewrite Hg in Hg'. injection Hg' as <-.
    by apply Hgr, Hin.
  Qed.

Lemma undeclared_false : NoDup g.*1 -> undeclared = false <-> closed_graph.
  Proof.
    intros Hnd. unfold undeclared, closed_graph, depends. rewrite <- not_true_iff_false, existsb_exists.
    setoid_rewrite existsb_exists. setoid_rewrite negb_true_iff. setoid_rewrite bool_decide_eq_false.
    setoid_rewrite <- list_elem_of_In. split.
    - intros H x y (deps & Hg & Hy). destruct (decide (y ∈ g.*1)); [done|].
      exfalso. apply H. exists (x, deps). split; [by apply dict_get_elem|eauto].
    - intros H ([x deps] & Hin & y & Hy & Hn). apply Hn, (H x).
      exists deps. split; [by apply dict_get_elem|done].
  Qed.

Lemma graph_search description :
    closed_graph -> visit_post ∅ g.*1 (visit_each (visit description (S (length g)) ∅) ∅ g.*1).
  Proof.
    intros Hclosed. apply visit_each_spec; [set_solver|]. intros i v Hi Hv.
    apply visit_spec; [done|done|set_solver|done|set_solver|].
    rewrite size_empty. pose proof (size_list_to_set_le g.*1) as Hle. rewrite length_fmap in Hle. lia.
  Qed.
End dependency_graph.

(** ** HarnessPlan *)
Record HarnessPlan := {
  pl_plan_id : string; pl_run_id : string; pl_trace_id : string; pl_template_id : string;
  pl_revision : Z; pl_mode : WorkflowMode; pl_task_kind : TaskKind;
  pl_risk_class : RiskClass; pl_pinned_versions : PinnedVersions;
  pl_stages : list StageSpec; pl_workers : list WorkerSpec;
  pl_work_items : list WorkItemSpec; pl_allows_side_effects : bool }.
Definition clean_plan : cleaner HarnessPlan := fun p =>
  pid ← ShortText (pl_plan_id p);
  run ← ShortText (pl_run_id p);
  trace ← ShortText (pl_trace_id p);
  template ← ShortText (pl_template_id p);
  revision ← NonNegativeInt (pl_revision p);
  pinned ← validate_pinned (pl_pinned_versions p);
  stages ← min_length 1 (max_length 64 (tuple_of validate_stage)) (pl_stages p);
  workers ← min_length 1 (max_length 64 (tuple_of validate_worker)) (pl_workers p);
  items ← min_length 1 (max_length 256 (tuple_of validate_work_item)) (pl_work_items p);
  Ok {| pl_plan_id := pid; pl_run_id := run; pl_trace_id := trace;
        pl_template_id := template; pl_revision := revision; pl_mode := pl_mode p;
        pl_task_kind := pl_task_kind p; pl_risk_class := pl_risk_class p;
        pl_pinned_versions := pinned; pl_stages := stages; pl_workers := workers;
        pl_work_items := items; pl_allows_side_effects := pl_allows_side_effects p |}.

Definition stage_graph (p : HarnessPlan) : list (string * list string) :=
  dict_of ((fun s => (st_stage_id s, st_dependencies s)) <$> pl_stages p).
Definition work_item_graph (p : HarnessPlan) : list (string * list string) :=
  dict_of ((fun w => (wi_work_item_id w, wi_dependencies w)) <$> pl_work_items p).
Definition stages_by_id (p : HarnessPlan) : list (string * StageSpec) :=
  dict_of ((fun s => (st_stage_id s, s)) <$> pl_stages p).
Definition workers_by_id (p : HarnessPlan) : list (string * WorkerSpec) :=
  dict_of ((fun w => (wk_worker_id w, w)) <$> pl_workers p).

(** One iteration of the loop over the plan's work items. *)
Definition check_work_item (p : HarnessPlan) (w : WorkItemSpec) : result unit :=
  match dict_get (stages_by_id p) (wi_stage_id w) with
  | None => Raise (ValueError "work items must reference a declared stage")
  | Some stage =>
      match dict_get (workers_by_id p) (wi_worker_id w) with
      | None => Raise (ValueError "work items must reference a declared worker")
      | Some worker =>
          _ ← check (bool_decide (wi_task_kind w ∈ st_allowed_task_kinds stage))
                (ValueError "work-item kind is not allowed by its stage");
          check (bool_decide (wi_task_kind w ∈ wk_supported_task_kinds worker))
            (ValueError "work-item kind is not supported by its worker")
      end
  end.
Fixpoint each {A} (f : A -> result unit) (l : list A) : result unit :=
  match l with [] => Ok tt | a :: l => _ ← f a; each f l end.

Definition validate_graph (p : HarnessPlan) : result unit :=
  _ ← require_unique (st_stage_id <$> pl_stages p) "stage identifiers";
  _ ← require_unique (wk_worker_id <$> pl_workers p) "worker identifiers";
  _ ← require_unique (wi_work_item_id <$> pl_work_items p) "work-item identifiers";
  _ ← validate_dependency_graph (stage_graph p) "stage";
  _ ← validate_dependency_graph (work_item_graph p) "work-item";
  _ ← each (check_work_item p) (pl_work_items p);
  _ ← raise_when (existsb st_allows_side_effects (pl_stages p) && negb (pl_allows_side_effects p))
        (ValueError "side-effecting stages require a side-effecting plan");
  raise_when (match pl_mode p with M_PASSIVE => pl_allows_side_effects p | M_ACTIVE => false end)
    (ValueError "passive plans cannot allow side effects").
Definition validate_plan : cleaner HarnessPlan := model clean_plan validate_graph.

Lemma each_Ok {A} (f : A -> result unit) l u :
  each f l = Ok u <-> forall a, a ∈ l -> f a = Ok tt.
Proof.
  destruct u. induction l as [|a l IH]; simpl; [split; [by intros _ a ?%not_elem_of_nil|done]|].
  rewrite bind_Ok. setoid_rewrite IH. setoid_rewrite elem_of_cons. split.
  - intros ([] & Ha & Hl) b [->|Hb]; auto.
  - intros H. exists tt. auto.
Qed.

(** ** Transitions and the records that authorise them *)
Record HarnessTransition := {
  tr_run_id : string; tr_trace_id : string; tr_entity_kind : EntityKind;
  tr_entity_id : string; tr_from_state : string; tr_to_state : string;
  tr_expected_state_revision : Z; tr_plan_revision : Z;
  tr_reason_code : string; tr_idempotency_key : string;
  tr_lease_epoch : option Z; tr_fencing_token_digest : option string }.
#[export] Instance HarnessTransition_eq_dec : EqDecision HarnessTransition.
Proof. solve_decision. Defined.
Definition clean_transition : cleaner HarnessTransition := fun t =>
  run ← ShortText (tr_run_id t);
  trace ← ShortText (tr_trace_id t);
  entity ← ShortText (tr_entity_id t);
  from ← ShortText (tr_from_state t);
  to ← ShortText (tr_to_state t);
  srev ← NonNegativeInt (tr_expected_state_revision t);
  prev ← NonNegativeInt (tr_plan_revision t);
  reason ← ShortText (tr_reason_code t);
  key ← ShortText (tr_idempotency_key t);
  epoch ← optional PositiveInt (tr_lease_epoch t);
  fence ← optional Digest (tr_fencing_token_digest t);
  Ok {| tr_run_id := run; tr_trace_id := trace; tr_entity_kind := tr_entity_kind t;
        tr_entity_id := entity; tr_from_state := from; tr_to_state := to;
        tr_expected_state_revision := srev; tr_plan_revision := prev;
        tr_reason_code := reason; tr_idempotency_key := key;
        tr_lease_epoch := epoch; tr_fencing_token_digest := fence |}.
Definition validate_lease_evidence (t : HarnessTransition) : result unit :=
  let has_evidence := is_Some_b (tr_lease_epoch t) && is_Some_b (tr_fencing_token_digest t) in
  _ ← raise_when (bool_decide (tr_entity_kind t = E_run) &&
                  (is_Some_b (tr_lease_epoch t) || is_Some_b (tr_fencing_token_digest t)))
        (ValueError "run transitions cannot carry lease evidence");
  raise_when (negb (bool_decide (tr_entity_kind t = E_run)) && negb has_evidence)
    (ValueError "work-item and attempt transitions require lease evidence").
Definition validate_transition : cleaner HarnessTransition :=
  model clean_transition validate_lease_evidence.
#[export] Instance clean_transition_idem : Idem clean_transition.
Proof. solve_fields_idem. Qed.

Record LeaseToken := {
  lt_run_id : string; lt_work_item_id : string; lt_attempt_id : string;
  lt_lease_epoch : Z; lt_fencing_token : string; lt_holder_id : string;
  lt_expires_at_monotonic : Q }.
Definition validate_lease : cleaner LeaseToken := fun l =>
  run ← ShortText (lt_run_id l);
  item ← ShortText (lt_work_item_id l);
  attempt ← ShortText (lt_attempt_id l);
  epoch ← PositiveInt (lt_lease_epoch l);
  token ← ShortText (lt_fencing_token l);
  holder ← ShortText (lt_holder_id l);
  expires ← PositiveFinite (lt_expires_at_monotonic l);
  Ok {| lt_run_id := run; lt_work_item_id := item; lt_attempt_id := attempt;
        lt_lease_epoch := epoch; lt_fencing_token := token; lt_holder_id := holder;
        lt_expires_at_monotonic := expires |}.
#[export] Instance validate_lease_idem : Idem validate_lease.
Proof. solve_fields_idem. Qed.

Record TransitionAuthorityRecord := {
  ta_run_id : string; ta_trace_id : string; ta_entity_kind : EntityKind;
  ta_entity_id : string; ta_from_state : string; ta_to_state : string;
  ta_expected_state_revision : Z; ta_plan_revision : Z;
  ta_reason_code : string; ta_idempotency_key : string;
  ta_dependency_versions : list (string * Z);
  ta_reservation_id : option string; ta_grant_id : option string;
  ta_lease_epoch : option Z; ta_fencing_token_digest : option string }.
#[export] Instance TransitionAuthorityRecord_eq_dec : EqDecision TransitionAuthorityRecord.
Proof. solve_decision. Defined.
Definition clean_authority : cleaner TransitionAuthorityRecord := fun t =>
  run ← ShortText (ta_run_id t);
  trace ← ShortText (ta_trace_id t);
  entity ← ShortText (ta_entity_id t);
  from ← ShortText (ta_from_state t);
  to ← ShortText (ta_to_state t);
  srev ← NonNegativeInt (ta_expected_state_revision t);
  prev ← NonNegativeInt (ta_plan_revision t);
  reason ← ShortText (ta_reason_code t);
  key ← ShortText (ta_idempotency_key t);
  deps ← tuple_of (pair_of ShortText NonNegativeInt) (ta_dependency_versions t);
  reservation ← optional ShortText (ta_reservation_id t);
  grant ← optional ShortText (ta_grant_id t);
  epoch ← optional PositiveInt (ta_lease_epoch t);
  fence ← optional Digest (ta_fencing_token_digest t);
  Ok {| ta_run_id := run; ta_trace_id := trace; ta_entity_kind := ta_entity_kind t;
        ta_entity_id := entity; ta_from_state := from; ta_to_state := to;
        ta_expected_state_revision := srev; ta_plan_revision := prev;
        ta_reason_code := reason; ta_idempotency_key := key;
        ta_dependency_versions := deps; ta_reservation_id := reservation;
        ta_grant_id := grant; ta_lease_epoch := epoch; ta_fencing_token_digest := fence |}.
Definition validate_authority_shape (t : TransitionAuthorityRecord) : result unit :=
  let leased := [is_Some_b (ta_reservation_id t); is_Some_b (ta_grant_id t);
                 is_Some_b (ta_lease_epoch t); is_Some_b (ta_fencing_token_digest t)] in
  _ ← require_unique (ta_dependency_versions t).*1 "authority dependency versions";
  _ ← raise_when (bool_decide (ta_entity_kind t = E_run) && existsb id leased)
        (ValueError "run authority cannot carry reservation or lease evidence");
  raise_when (negb (bool_decide (ta_entity_kind t = E_run)) && existsb negb leased)
    (ValueError "non-run authority requires reservation, grant, and lease evidence").
Definition validate_authority : cleaner TransitionAuthorityRecord :=
  model clean_authority validate_authority_shape.
#[export] Instance clean_authority_idem : Idem clean_authority.
Proof. solve_fields_idem. Qed.

Record AttemptWorkItemOwnershipRecord := {
  ow_run_id : string; ow_trace_id : string; ow_attempt_id : string;
  ow_work_item_id : string; ow_plan_revision : Z }.
#[export] Instance AttemptWorkItemOwnershipRecord_eq_dec : EqDecision AttemptWorkItemOwnershipRecord.
Proof. solve_decision. Defined.
Definition validate_ownership : cleaner AttemptWorkItemOwnershipRecord := fun o =>
  run ← ShortText (ow_run_id o);
  trace ← ShortText (ow_trace_id o);
  attempt ← ShortText (ow_attempt_id o);
  item ← ShortText (ow_work_item_id o);
  prev ← NonNegativeInt (ow_plan_revision o);
  Ok {| ow_run_id := run; ow_trace_id := trace; ow_attempt_id := attempt;
        ow_work_item_id := item; ow_plan_revision := prev |}.
#[export] Instance validate_ownership_idem : Idem validate_ownership.
Proof. solve_fields_idem. Qed.

(** [side_effect_resolved : Literal[True]] has one value and is left out. *)
Record ReconciliationResolutionRecord := {
  rr_run_id : string; rr_trace_id : string; rr_reconciliation_id : string;
  rr_expected_state_revision : Z; rr_plan_revision : Z;
  rr_broker_observation_digest : string }.
#[export] Instance ReconciliationResolutionRecord_eq_dec : EqDecision ReconciliationResolutionRecord.
Proof. solve_decision. Defined.
Definition validate_resolution_record : cleaner ReconciliationResolutionRecord := fun r =>
  run ← ShortText (rr_run_id r);
  trace ← ShortText (rr_trace_id r);
  rid ← ShortText (rr_reconciliation_id r);
  srev ← NonNegativeInt (rr_expected_state_revision r);
  prev ← NonNegativeInt (rr_plan_revision r);
  dig ← Digest (rr_broker_observation_digest r);
  Ok {| rr_run_id := run; rr_trace_id := trace; rr_reconciliation_id := rid;
        rr_expected_state_revision := srev; rr_plan_revision := prev;
        rr_broker_observation_digest := dig |}.
#[export] Instance validate_resolution_record_idem : Idem validate_resolution_record.
Proof. solve_fields_idem. Qed.
Definition semantic_authority_key (r : ReconciliationResolutionRecord) : string * string * Z * Z :=
  (rr_run_id r, rr_trace_id r, rr_plan_revision r, rr_expected_state_revision r).

(** ** HarnessSessionView: the fold of a run's event stream *)
Record HarnessSessionView := {
  v_sequence : Z; v_state_revision : Z; v_plan_revision : Z;
  v_run_id : option string; v_trace_id : option string;
  v_request_digest : option string; v_prompt_release_digest : option string;
  v_accepted_result_digest : option string;
  v_run_state : option RunState; v_outcome : option HarnessOutcome;
  v_work_item_states : list (string * WorkItemState);
  v_attempt_states : list (string * AttemptState);
  v_dependency_versions : list (string * Z);
  v_transition_authorities : list TransitionAuthorityRecord;
  v_attempt_work_item_owners : list AttemptWorkItemOwnershipRecord;
  v_reconciliation_resolutions : list ReconciliationResolutionRecord;
  v_applied_idempotency_keys : list string;
  v_external_side_effect_unknown : bool;
  v_last_event_hash : option string }.

(** [HarnessSessionView.empty()] *)
Definition empty_view : HarnessSessionView :=
  {| v_sequence := 0; v_state_revision := 0; v_plan_revision := 0;
     v_run_id := None; v_trace_id := None; v_request_digest := None;
     v_prompt_release_digest := None; v_accepted_result_digest := None;
     v_run_state := None; v_outcome := None; v_work_item_states := [];
     v_attempt_states := []; v_dependency_versions := [];
     v_transition_authorities := []; v_attempt_work_item_owners := [];
     v_reconciliation_resolutions := []; v_applied_idempotency_keys := [];
     v_external_side_effect_unknown := false; v_last_event_hash := None |}.

Definition clean_view : cleaner HarnessSessionView := fun v =>
  seq ← NonNegativeInt (v_sequence v);
  srev ← NonNegativeInt (v_state_revision v);
  prev ← NonNegativeInt (v_plan_revision v);
  run ← optional ShortText (v_run_id v);
  trace ← optional ShortText (v_trace_id v);
  request ← optional Digest (v_request_digest v);
  prompt ← optional Digest (v_prompt_release_digest v);
  accepted ← optional Digest (v_accepted_result_digest v);
  outcome ← optional validate_outcome (v_outcome v);
  items ← tuple_of (pair_of ShortText any) (v_work_item_states v);
  attempts ← tuple_of (pair_of ShortText any) (v_attempt_states v);
  deps ← tuple_of (pair_of ShortText NonNegativeInt) (v_dependency_versions v);
  auths ← tuple_of validate_authority (v_transition_authorities v);
  owners ← tuple_of validate_ownership (v_attempt_work_item_owners v);
  resolutions ← tuple_of validate_resolution_record (v_reconciliation_resolutions v);
  keys ← TargetIds (v_applied_idempotency_keys v);
  last ← optional Digest (v_last_event_hash v);
  Ok {| v_sequence := seq; v_state_revision := srev; v_plan_revision := prev;
        v_run_id := run; v_trace_id := trace; v_request_digest := request;
        v_prompt_release_digest := prompt; v_accepted_result_digest := accepted;
        v_run_state := v_run_state v; v_outcome := outcome;
        v_work_item_states := items; v_attempt_states := attempts;
        v_dependency_versions := deps; v_transition_authorities := auths;
        v_attempt_work_item_owners := owners;
        v_reconciliation_resolutions := resolutions;
        v_applied_idempotency_keys := keys;
        v_external_side_effect_unknown := v_external_side_effect_unknown v;
        v_last_event_hash := last |}.
#[export] Instance validate_authority_idem : Idem validate_authority.
Proof. apply _. Qed.
#[export] Instance clean_view_idem : Idem clean_view.
Proof. solve_fields_idem. Qed.

Definition validate_identity_and_terminal_outcome (v : HarnessSessionView) : result unit :=
  _ ← check (Bool.eqb (is_Some_b (v_run_id v)) (is_Some_b (v_trace_id v)))
        (ValueError "run and trace identity must be present together");
  _ ← raise_when (v_external_side_effect_unknown v &&
                  (negb (bool_decide (v_run_state v = Some R_WAITING_RECONCILIATION)) ||
                   is_Some_b (v_outcome v)))
        (ValueError "unknown external effects require unsealed waiting reconciliation state");
  _ ← raise_when (match v_outcome v with
                  | Some o => negb (bool_decide (v_run_state v = Some (oc_terminal_state o)))
                  | None => false
                  end)
        (ValueError "the sealed outcome must match the current run state");
  _ ← require_unique (v_work_item_states v).*1 "work-item states";
  _ ← require_unique (v_attempt_states v).*1 "attempt states";
  _ ← require_unique (v_dependency_versions v).*1 "dependency versions";
  _ ← require_unique
        ((fun r => (ta_entity_kind r, ta_entity_id r, ta_expected_state_revision r))
           <$> v_transition_authorities v) "transition authorities";
  _ ← require_unique (ow_attempt_id <$> v_attempt_work_item_owners v) "attempt ownership records";
  _ ← require_unique (semantic_authority_key <$> v_reconciliation_resolutions v)
        "reconciliation resolution records";
  require_unique (v_applied_idempotency_keys v) "idempotency keys".
Definition validate_view : cleaner HarnessSessionView :=
  model clean_view validate_identity_and_terminal_outcome.
#[export] Instance validate_view_idem : Idem validate_view.
Proof. apply _. Qed.

(** The [model_copy(update=...)] calls of the program on a view. *)
Definition set_cursor (v : HarnessSessionView) (seq : Z) (run trace : option string)
    (last : option string) : HarnessSessionView :=
  {| v_sequence := seq; v_state_revision := v_state_revision v;
     v_plan_revision := v_plan_revision v; v_run_id := run; v_trace_id := trace;
     v_request_digest := v_request_digest v;
     v_prompt_release_digest := v_prompt_release_digest v;
     v_accepted_result_digest := v_accepted_result_digest v;
     v_run_state := v_run_state v; v_outcome := v_outcome v;
     v_work_item_states := v_work_item_states v; v_attempt_states := v_attempt_states v;
     v_dependency_versions := v_dependency_versions v;
     v_transition_authorities := v_transition_authorities v;
     v_attempt_work_item_owners := v_attempt_work_item_owners v;
     v_reconciliation_resolutions := v_reconciliation_resolutions v;
     v_applied_idempotency_keys := v_applied_idempotency_keys v;
     v_external_side_effect_unknown := v_external_side_effect_unknown v;
     v_last_event_hash := last |}.
Definition set_evidence (v : HarnessSessionView) (auths : list TransitionAuthorityRecord)
    (owners : list AttemptWorkItemOwnershipRecord)
    (resolutions : list ReconciliationResolutionRecord) : HarnessSessionView :=
  {| v_sequence := v_sequence v; v_state_revision := v_state_revision v;
     v_plan_revision := v_plan_revision v; v_run_id := v_run_id v; v_trace_id := v_trace_id v;
     v_request_digest := v_request_digest v;
     v_prompt_release_digest := v_prompt_release_digest v;
     v_accepted_result_digest := v_accepted_result_digest v;
     v_run_state := v_run_state v; v_outcome := v_outcome v;
     v_work_item_states := v_work_item_states v; v_attempt_states := v_attempt_states v;
     v_dependency_versions := v_dependency_versions v;
     v_transition_authorities := auths; v_attempt_work_item_owners := owners;
     v_reconciliation_resolutions := resolutions;
     v_applied_idempotency_keys := v_applied_idempotency_keys v;
     v_external_side_effect_unknown := v_external_side_effect_unknown v;
     v_last_event_hash := v_last_event_hash v |}.
Definition set_revisions (v : HarnessSessionView) (srev prev : Z) (key : string) : HarnessSessionView :=
  {| v_sequence := v_sequence v; v_state_revision := srev;
     v_plan_revision := prev; v_run_id := v_run_id v; v_trace_id := v_trace_id v;
     v_request_digest := v_request_digest v;
     v_prompt_release_digest := v_prompt_release_digest v;
     v_accepted_result_digest := v_accepted_result_digest v;
     v_run_state := v_run_state v; v_outcome := v_outcome v;
     v_work_item_states := v_work_item_states v; v_attempt_states := v_attempt_states v;
     v_dependency_versions := v_dependency_versions v;
     v_transition_authorities := v_transition_authorities v;
     v_attempt_work_item_owners := v_attempt_work_item_owners v;
     v_reconciliation_resolutions := v_reconciliation_resolutions v;
     v_applied_idempotency_keys := v_applied_idempotency_keys v ++ [key];
     v_external_side_effect_unknown := v_external_side_effect_unknown v;
     v_last_event_hash := v_last_event_hash v |}.
Definition set_states (v : HarnessSessionView) (run : option RunState)
    (items : list (string * WorkItemState)) (attempts : list (string * AttemptState))
    (unknown : bool) : HarnessSessionView :=
  {| v_sequence := v_sequence v; v_state_revision := v_state_revision v;
     v_plan_revision := v_plan_revision v; v_run_id := v_run_id v; v_trace_id := v_trace_id v;
     v_request_digest := v_request_digest v;
     v_prompt_release_digest := v_prompt_release_digest v;
     v_accepted_result_digest := v_accepted_result_digest v;
     v_run_state := run; v_outcome := v_outcome v;
     v_work_item_states := items; v_attempt_states := attempts;
     v_dependency_versions := v_dependency_versions v;
     v_transition_authorities := v_transition_authorities v;
     v_attempt_work_item_owners := v_attempt_work_item_owners v;
     v_reconciliation_resolutions := v_reconciliation_resolutions v;
     v_applied_idempotency_keys := v_applied_idempotency_keys v;
     v_external_side_effect_unknown := unknown;
     v_last_event_hash := v_last_event_hash v |}.
Definition set_digests (v : HarnessSessionView) (request prompt accepted : option string) : HarnessSessionView :=
  {| v_sequence := v_sequence v; v_state_revision := v_state_revision v;
     v_plan_revision := v_plan_revision v; v_run_id := v_run_id v; v_trace_id := v_trace_id v;
     v_request_digest := request; v_prompt_release_digest := prompt;
     v_accepted_result_digest := accepted;
     v_run_state := v_run_state v; v_outcome := v_outcome v;
     v_work_item_states := v_work_item_states v; v_attempt_states := v_attempt_states v;
     v_dependency_versions := v_dependency_versions v;
     v_transition_authorities := v_transition_authorities v;
     v_attempt_work_item_owners := v_attempt_work_item_owners v;
     v_reconciliation_resolutions := v_reconciliation_resolutions v;
     v_applied_idempotency_keys := v_applied_idempotency_keys v;
     v_external_side_effect_unknown := v_external_side_effect_unknown v;
     v_last_event_hash := v_last_event_hash v |}.

(** A validated view is well formed; the facts its clients use. *)
Definition well_formed (v : HarnessSessionView) : Prop := validate_view v = Ok v.

Lemma plan_run_clean raw plan : validate_plan raw = Ok plan -> ShortText (pl_run_id plan) = Ok (pl_run_id plan).
Proof.
  unfold validate_plan. rewrite model_Ok. intros [H _]. unfold clean_plan in H. inv_ok H. subst plan. cbn.
  match goal with H : ShortText (pl_run_id raw) = Ok _ |- _ => by apply idem in H end.
Qed.
Lemma validated_well_formed x v : validate_view x = Ok v -> well_formed v.
Proof. apply idem. Qed.

(** A model is clean when cleaning leaves it alone; field by field. *)
Record view_clean (v : HarnessSessionView) : Prop := {
  vc_sequence : 0 <= v_sequence v;
  vc_state_revision : 0 <= v_state_revision v;
  vc_plan_revision : 0 <= v_plan_revision v;
  vc_run_id : optional ShortText (v_run_id v) = Ok (v_run_id v);
  vc_trace_id : optional ShortText (v_trace_id v) = Ok (v_trace_id v);
  vc_request : optional Digest (v_request_digest v) = Ok (v_request_digest v);
  vc_prompt : optional Digest (v_prompt_release_digest v) = Ok (v_prompt_release_digest v);
  vc_accepted : optional Digest (v_accepted_result_digest v) = Ok (v_accepted_result_digest v);
  vc_outcome : optional validate_outcome (v_outcome v) = Ok (v_outcome v);
  vc_items : tuple_of (pair_of ShortText any) (v_work_item_states v) = Ok (v_work_item_states v);
  vc_attempts : tuple_of (pair_of ShortText any) (v_attempt_states v) = Ok (v_attempt_states v);
  vc_deps : tuple_of (pair_of ShortText NonNegativeInt) (v_dependency_versions v) =
            Ok (v_dependency_versions v);
  vc_auths : tuple_of validate_authority (v_transition_authorities v) = Ok (v_transition_authorities v);
  vc_owners : tuple_of validate_ownership (v_attempt_work_item_owners v) = Ok (v_attempt_work_item_owners v);
  vc_resolutions : tuple_of validate_resolution_record (v_reconciliation_resolutions v) =
                   Ok (v_reconciliation_resolutions v);
  vc_keys : tuple_of ShortText (v_applied_idempotency_keys v) = Ok (v_applied_idempotency_keys v);
  vc_keys_length : (length (v_applied_idempotency_keys v) <= 64)%nat;
  vc_last : optional Digest (v_last_event_hash v) = Ok (v_last_event_hash v) }.

Lemma NonNegativeInt_fix n m : NonNegativeInt n = Ok m <-> 0 <= n /\ m = n.
Proof.
  unfold NonNegativeInt. destruct (Z.leb_spec 0 n).
  - split; [by intros [= <-]|by intros [_ ->]].
  - split; [done|lia].
Qed.
Lemma TargetIds_fix l : TargetIds l = Ok l <-> tuple_of ShortText l = Ok l /\ (length l <= 64)%nat.
Proof.
  unfold TargetIds, max_length. split_if; [|split; [done|]].
  - apply Z.leb_le in Heqb. split; [split; [done|lia]|by intros [? _]].
  - apply Z.leb_gt in Heqb. lia.
Qed.
Lemma TargetIds_too_long l : (64 < length l)%nat -> TargetIds l = Raise (ValidationError "too long").
Proof. intros H. unfold TargetIds, max_length. by rewrite (proj2 (Z.leb_gt _ _)) by lia. Qed.

Lemma clean_view_fix v : clean_view v = Ok v <-> view_clean v.
Proof.
  split.
  - unfold clean_view. intros H. inv_ok H. destruct v; simpl in *. injection H as -> -> -> -> -> -> -> -> -> -> -> -> -> -> -> -> ->.
    repeat match goal with
    | H : NonNegativeInt _ = Ok _ |- _ => apply NonNegativeInt_fix in H as [? _]
    | H : TargetIds _ = Ok _ |- _ => apply TargetIds_fix in H as [? ?]
    end.
    by constructor.
  - intros []. unfold clean_view.
    rewrite !(proj2 (NonNegativeInt_fix _ _)) by (split; [eassumption|reflexivity]).
    rewrite (proj2 (TargetIds_fix _)) by done. simpl.
    repeat match goal with H : _ = Ok _ |- _ => rewrite H; clear H; simpl end.
    by destruct v.
Qed.

Lemma well_formed_spec v :
  well_formed v <-> view_clean v /\ validate_identity_and_terminal_outcome v = Ok tt.
Proof. unfold well_formed, validate_view. by rewrite model_Ok, clean_view_fix. Qed.

(** ** What validated contracts guarantee *)

Lemma dict_of_map_get {A B} (key : A -> string) (val : A -> B) (l : list A) k v :
  NoDup (key <$> l) ->
  dict_get (dict_of ((fun a => (key a, val a)) <$> l)) k = Some v <->
  exists a, a ∈ l /\ key a = k /\ val a = v.
Proof.
  intros Hnd.
  assert (Hk : ((fun a => (key a, val a)) <$> l).*1 = key <$> l)
    by (rewrite <- list_fmap_compose; done).
  rewrite dict_of_get by by rewrite Hk. rewrite dict_get_elem by by rewrite Hk.
  rewrite list_elem_of_fmap. split.
  - intros (a & [= -> ->] & Ha). eauto.
  - intros (a & Ha & <- & <-). eauto.
Qed.

Lemma dict_of_map_keys {A B} (key : A -> string) (val : A -> B) (l : list A) k :
  NoDup (key <$> l) ->
  k ∈ (dict_of ((fun a => (key a, val a)) <$> l)).*1 <-> exists a, a ∈ l /\ key a = k.
Proof.
  intros Hnd. set (d := dict_of _). split.
  - intros Hk. destruct (dict_get d k) as [v|] eqn:E; [|by apply dict_get_None in E].
    apply dict_of_map_get in E as (a & ? & ? & _); eauto.
  - intros (a & Ha & Hk). destruct (decide (k ∈ d.*1)) as [|Hn]; [done|].
    apply dict_get_None in Hn.
    assert (Hs : dict_get d k = Some (val a)) by (apply dict_of_map_get; eauto). congruence.
Qed.

Lemma graph_Ok g d u :
  NoDup g.*1 -> validate_dependency_graph g d = Ok u ->
  closed_graph g /\ forall x, ~ tc (depends g) x x.
Proof.
  intros Hnd H. unfold validate_dependency_graph in H. inv_ok H. apply raise_when_Ok in Hok.
  apply (undeclared_false g Hnd) in Hok as Hc.
  pose proof (graph_search g d Hc) as Hs.
  destruct (visit_each _ _ _) as [[v|e]|]; [|done|done]. destruct Hs as (Hin & _ & Hg).
  split; [done|]. intros x Hx.
  assert (Hx' : exists y, depends g x y) by (inversion Hx; eauto).
  destruct Hx' as (y & deps & Hd & _).
  eapply (grounded_no_cycle g x), Hx. apply Hg, Hin.
  destruct (decide (x ∈ g.*1)) as [|Hn]; [done|]. apply dict_get_None in Hn. congruence.
Qed.

(** [_validate_dependency_graph] decides well-formedness of a dependency
    mapping, and terminates on every one: it accepts exactly the mappings whose
    dependencies are all declared and whose dependency relation has no cycle, and
    rejects every other mapping with one of its two errors.  The depth-first
    search never exhausts the recursion depth given to it. *)
Theorem dependency_graph_decides_acyclicity (g : list (string * list string)) (d : string) :
  NoDup g.*1 ->
  (validate_dependency_graph g d = Ok tt <->
   closed_graph g /\ forall x, ~ tc (depends g) x x) /\
  (validate_dependency_graph g d = Ok tt \/
   validate_dependency_graph g d =
     Raise (ValueError (d +:+ " dependencies must reference declared identifiers")) \/
   exists e, validate_dependency_graph g d = Raise e /\ exists x, tc (depends g) x x).
Proof.
  intros Hnd. split.
  - split; [by apply graph_Ok|]. intros [Hc Ha]. unfold validate_dependency_graph.
    rewrite (proj2 (undeclared_false g Hnd) Hc). simpl raise_when. cbn [mbind result_bind].
    pose proof (graph_search g d Hc) as Hs.
    destruct (visit_each _ _ _) as [[v|e]|]; [done| |done]. destruct Hs as [x Hx]. by destruct (Ha x).
  - unfold validate_dependency_graph. destruct (undeclared g) eqn:E; [auto|].
    apply (undeclared_false g Hnd) in E. simpl raise_when. cbn [mbind result_bind].
    pose proof (graph_search g d E) as Hs.
    destruct (visit_each _ _ _) as [[v|e]|]; [auto| |done]. eauto.
Qed.

Definition diamond : list (string * list string) :=
  [("a", []); ("b", ["a"]); ("c", ["a"]); ("d", ["b"; "c"])].

Lemma dependency_graph_witness :
  NoDup diamond.*1 /\ closed_graph diamond /\ ~ tc (depends diamond) "d" "d".
Proof.
  assert (Hnd : NoDup diamond.*1) by (apply unique_true; vm_compute; reflexivity).
  split; [exact Hnd|].
  destruct (proj1 (proj1 (dependency_graph_decides_acyclicity diamond "stage" Hnd))
              ltac:(vm_compute; reflexivity)) as [Hc Ha].
  split; [exact Hc|apply Ha].
Defined.

(** C40.  A plan that passes validation is executable: every work item names a
    declared stage and a declared worker that both admit its task kind, depends
    only on declared work items and transitively never on itself; every stage
    depends only on declared stages and transitively never on itself; and a
    passive plan or one without the permission has no side-effecting stage. *)
Theorem validated_plan_is_executable (p q : HarnessPlan) :
  validate_plan p = Ok q ->
  (forall w, w ∈ pl_work_items q ->
     (exists s, s ∈ pl_stages q /\ st_stage_id s = wi_stage_id w /\
                wi_task_kind w ∈ st_allowed_task_kinds s) /\
     (exists k, k ∈ pl_workers q /\ wk_worker_id k = wi_worker_id w /\
                wi_task_kind w ∈ wk_supported_task_kinds k) /\
     (forall d, d ∈ wi_dependencies w ->
        exists w', w' ∈ pl_work_items q /\ wi_work_item_id w' = d)) /\
  (forall x, ~ tc (depends (work_item_graph q)) x x) /\
  (forall s, s ∈ pl_stages q -> forall d, d ∈ st_dependencies s ->
     exists s', s' ∈ pl_stages q /\ st_stage_id s' = d) /\
  (forall x, ~ tc (depends (stage_graph q)) x x) /\
  (pl_allows_side_effects q = false -> forall s, s ∈ pl_stages q -> st_allows_side_effects s = false) /\
  (pl_mode q = M_PASSIVE -> pl_allows_side_effects q = false).
Proof.
  unfold validate_plan. rewrite model_Ok. intros [_ H]. unfold validate_graph in H. inv_ok H.
  repeat match goal with
  | H : require_unique _ _ = Ok _ |- _ => apply require_unique_Ok in H
  | H : raise_when _ _ = Ok _ |- _ => apply raise_when_Ok in H
  | H : validate_dependency_graph _ _ = Ok _ |- _ =>
      apply graph_Ok in H as [? ?]; [|apply dict_of_NoDup]
  end.
  match goal with H : each _ _ = Ok _ |- _ => rename H into Heach end. rewrite each_Ok in Heach.
  split_and!; [|done| |done| |by intros Hm; rewrite Hm in *].
  - intros w Hw. specialize (Heach w Hw). unfold check_work_item in Heach.
    destruct (dict_get (stages_by_id q) _) as [s|] eqn:Es; [|done].
    destruct (dict_get (workers_by_id q) _) as [k|] eqn:Ek; [|done].
    apply bind_Ok in Heach as (u & Hkind & Heach). apply check_Ok in Hkind, Heach.
    apply bool_decide_eq_true in Hkind, Heach.
    apply dict_of_map_get in Es as (s' & ? & ? & ->); [|done].
    apply dict_of_map_get in Ek as (k' & ? & ? & ->); [|done].
    split_and!; [eauto|eauto|]. intros d Hd.
    assert (Hdep : d ∈ (work_item_graph q).*1).
    { match goal with Hc : closed_graph (work_item_graph q) |- _ => eapply Hc end.
      exists (wi_dependencies w). split; [|done]. apply dict_of_map_get; [done|eauto]. }
    by apply dict_of_map_keys in Hdep.
  - intros s Hs d Hd. apply (dict_of_map_keys st_stage_id st_dependencies).
    { match goal with Hs : NoDup (st_stage_id <$> _) |- _ => exact Hs end. }
    match goal with Hc : closed_graph (stage_graph q) |- _ => eapply Hc end.
    exists (st_dependencies s). split; [|done]. apply dict_of_map_get; [done|eauto].
  - intros Hp s Hs. rewrite Hp in *. destruct (st_allows_side_effects s) eqn:E; [|done].
    match goal with H : _ && _ = false |- _ => rewrite andb_true_r in H; rename H into Hex end.
    apply not_true_iff_false in Hex. destruct Hex. apply existsb_exists.
    exists s. split; [by apply list_elem_of_In|done].
Qed.

Definition zero_digest : string := "0000000000000000000000000000000000000000000000000000000000000000".
Definition sample_stage : StageSpec :=
  {| st_stage_id := "analysis"; st_version := "1"; st_entry_predicate := "always";
     st_completion_predicate := "all"; st_allowed_task_kinds := [T_TECHNICAL; T_FUNDAMENTAL];
     st_dependencies := []; st_maximum_concurrency := 2; st_budget_policy_key := "default";
     st_failure_outcome := O_NONE; st_degradation_outcome := O_UNKNOWN;
     st_allows_side_effects := false; st_allows_reconciliation := true |}.
Definition sample_worker : WorkerSpec :=
  {| wk_worker_id := "technical-agent"; wk_version := "1";
     wk_supported_task_kinds := [T_TECHNICAL; T_FUNDAMENTAL];
     wk_analysis_phases := ["observe"; "orient"; "decide"];
     wk_input_schema_id := "in"; wk_input_schema_hash := zero_digest;
     wk_output_schema_id := "out"; wk_output_schema_hash := zero_digest;
     wk_prompt_release := "r1"; wk_prompt_profile := "p1";
     wk_model_routing_policy_key := "m"; wk_context_selector := "c";
     wk_context_token_budget := 4000; wk_readable_state_keys := ["request"];
     wk_writable_invocation_state_key := "technical_analysis";
     wk_allowed_tool_capabilities := []; wk_cacheable := true; wk_freshness_class := "live";
     wk_maximum_turns := 3; wk_maximum_tool_calls := 0;
     wk_maximum_input_tokens := 4000; wk_maximum_output_tokens := 900;
     wk_timeout_seconds := 30 # 1; wk_maximum_attempts := 3; wk_maximum_cost := 1 # 10;
     wk_success_outcome := O_ANSWER; wk_failure_outcome := O_NONE;
     wk_degradation_outcome := O_UNKNOWN |}.
Definition sample_item (id : string) (kind : TaskKind) (deps : list string) : WorkItemSpec :=
  {| wi_work_item_id := id; wi_stage_id := "analysis"; wi_worker_id := "technical-agent";
     wi_task_kind := kind; wi_objective := " analyse "; wi_dependencies := deps;
     wi_progress_targets :=
       {| pt_required_dependency_ids := deps; pt_required_output_field_paths := [];
          pt_required_evidence_slot_ids := []; pt_required_source_coverage_weights := [("x", 1 # 2)];
          pt_known_conflict_slot_ids := []; pt_risk_invariant_ids := [] |} |}.
Definition sample_plan (items : list WorkItemSpec) : HarnessPlan :=
  {| pl_plan_id := "plan"; pl_run_id := "run-1"; pl_trace_id := "trace-1";
     pl_template_id := "t"; pl_revision := 0; pl_mode := M_PASSIVE;
     pl_task_kind := T_TECHNICAL; pl_risk_class := K_INFORMATIONAL;
     pl_pinned_versions :=
       {| pv_plan_template_version := "1"; pv_policy_version := "1";
          pv_worker_registry_version := "1"; pv_source_registry_version := "1";
          pv_prompt_bundle_hash := zero_digest; pv_tool_registry_hash := zero_digest;
          pv_output_schema_bundle_hash := zero_digest; pv_fingerprint_schema_version := "v1" |};
     pl_stages := [sample_stage]; pl_workers := [sample_worker];
     pl_work_items := items; pl_allows_side_effects := false |}.

Example self_cycle_rejected :
  is_ok (validate_plan (sample_plan [sample_item "a" T_TECHNICAL ["b"]; sample_item "b" T_TECHNICAL ["a"]]))
  = false.
Proof. vm_compute. reflexivity. Qed.

Definition unwrap {A} (default : A) (r : result A) : A := match r with Ok a => a | Raise _ => default end.

Lemma validated_plan_witness :
  exists q, validate_plan (sample_plan [sample_item "a" T_TECHNICAL []; sample_item "b" T_FUNDAMENTAL ["a"]]) = Ok q
    /\ forall x, ~ tc (depends (work_item_graph q)) x x.
Proof.
  set (p := sample_plan _).
  exists (unwrap p (validate_plan p)). assert (H : validate_plan p = Ok (unwrap p (validate_plan p))).
  { vm_compute. reflexivity. }
  split; [exact H|]. exact (proj1 (proj2 (validated_plan_is_executable _ _ H))).
Defined.
