(* ===== verification/HarnessStateMachine.v ===== *)
(** * GlobalTaskStateMachine: market_agent/workflow_state_machine.py

    Fail-closed validation and application of run, work-item and attempt
    transitions to a folded session view.  [validate] answers whether a candidate
    is legal, [apply] returns the next view or raises the error class the
    rejection's reason selects. *)
From S2P Require Import Prelude PyStrings PyDict PyRegex PyModel HarnessContracts.
Local Open Scope string_scope.
Local Open Scope list_scope.
Local Open Scope Z_scope.

(** ** Terminal states and edges *)
Definition RUN_TERMINAL_STATES : list RunState := [R_SUCCEEDED; R_DEGRADED; R_FAILED; R_CANCELLED].
Definition WORK_ITEM_TERMINAL_STATES : list WorkItemState :=
  [W_SUCCEEDED; W_BLOCKED; W_FAILED; W_CANCELLED].
Definition ATTEMPT_TERMINAL_STATES : list AttemptState :=
  [A_COMPLETED; A_TIMED_OUT; A_REJECTED; A_FAILED; A_STALE; A_CANCELLED].

Definition RUN_EDGES (source : option RunState) : list RunState :=
  match source with
  | None => [R_CREATED]
  | Some R_CREATED => [R_ADMITTED; R_CANCELLED]
  | Some R_ADMITTED => [R_PLANNED; R_CANCELLED]
  | Some R_PLANNED => [R_READY; R_CANCELLED]
  | Some R_READY => [R_RUNNING; R_CANCELLED]
  | Some R_RUNNING =>
      [R_RECONCILING; R_WAITING_APPROVAL; R_WAITING_RECONCILIATION; R_DEGRADING;
       R_SUMMARIZING; R_CANCELLED]
  | Some R_RECONCILING =>
      [R_RUNNING; R_WAITING_RECONCILIATION; R_DEGRADING; R_SUMMARIZING; R_FAILED; R_CANCELLED]
  | Some R_WAITING_APPROVAL => [R_RUNNING; R_FAILED; R_CANCELLED]
  | Some R_WAITING_RECONCILIATION => [R_RECONCILING; R_FAILED; R_CANCELLED]
  | Some R_DEGRADING => [R_RUNNING; R_SUMMARIZING; R_DEGRADED; R_FAILED; R_CANCELLED]
  | Some R_SUMMARIZING => [R_SUCCEEDED; R_DEGRADED; R_FAILED; R_CANCELLED]
  | Some _ => []
  end.
Definition WORK_ITEM_EDGES (source : option WorkItemState) : list WorkItemState :=
  match source with
  | None => [W_PENDING]
  | Some W_PENDING => [W_READY]
  | Some W_READY => [W_LEASED]
  | Some W_LEASED => [W_RUNNING; W_RETRY_WAIT]
  | Some W_RUNNING => [W_VALIDATING; W_RETRY_WAIT]
  | Some W_VALIDATING => [W_SUCCEEDED; W_RETRY_WAIT]
  | Some W_RETRY_WAIT => [W_READY]
  | Some _ => []
  end.
Definition ATTEMPT_EDGES (source : option AttemptState) : list AttemptState :=
  match source with
  | None => [A_RESERVED]
  | Some A_RESERVED => [A_DISPATCHED]
  | Some A_DISPATCHED => [A_STREAMING; A_VALIDATING]
  | Some A_STREAMING => [A_VALIDATING]
  | Some A_VALIDATING => [A_SETTLING]
  | Some A_SETTLING => [A_COMPLETED]
  | Some _ => []
  end.

(** ** Evidence *)
Record TransitionValidation := { allowed : bool; reason : option string }.
Definition accept : TransitionValidation := {| allowed := true; reason := None |}.
Definition reject (why : string) : TransitionValidation := {| allowed := false; reason := Some why |}.

Record TransitionEvidence := {
  te_run_id : string; te_trace_id : string; te_entity_id : string;
  te_expected_state_revision : Z; te_plan_revision : Z;
  te_dependency_versions : list (string * Z) }.
Definition clean_evidence : cleaner TransitionEvidence := fun e =>
  run ← ShortText (te_run_id e);
  trace ← ShortText (te_trace_id e);
  entity ← ShortText (te_entity_id e);
  srev ← NonNegativeInt (te_expected_state_revision e);
  prev ← NonNegativeInt (te_plan_revision e);
  deps ← max_length 64 (tuple_of (pair_of ShortText NonNegativeInt)) (te_dependency_versions e);
  Ok {| te_run_id := run; te_trace_id := trace; te_entity_id := entity;
        te_expected_state_revision := srev; te_plan_revision := prev;
        te_dependency_versions := deps |}.
Definition validate_dependency_identifiers (e : TransitionEvidence) : result unit :=
  check (unique (te_dependency_versions e).*1)
    (ValueError "dependency versions must have unique identifiers").
Definition validate_evidence : cleaner TransitionEvidence :=
  model clean_evidence validate_dependency_identifiers.
#[export] Instance clean_evidence_idem : Idem clean_evidence.
Proof. solve_fields_idem. Qed.
#[export] Instance validate_evidence_idem : Idem validate_evidence.
Proof. apply _. Qed.

(** [_LeasedTransitionAuthorization]: evidence with reservation, grant and lease. *)
Record LeasedAuthorization := {
  la_evidence : TransitionEvidence; la_reservation_id : string; la_grant_id : string;
  la_lease_epoch : Z; la_fencing_token_digest : string }.
Definition validate_leased : cleaner LeasedAuthorization := fun a =>
  base ← validate_evidence (la_evidence a);
  reservation ← ShortText (la_reservation_id a);
  grant ← ShortText (la_grant_id a);
  epoch ← PositiveInt (la_lease_epoch a);
  fence ← Digest (la_fencing_token_digest a);
  Ok {| la_evidence := base; la_reservation_id := reservation; la_grant_id := grant;
        la_lease_epoch := epoch; la_fencing_token_digest := fence |}.
#[export] Instance validate_leased_idem : Idem validate_leased.
Proof. solve_fields_idem. Qed.

Inductive Authorization :=
  | RunTransitionEvidence (e : TransitionEvidence)
  | WorkItemTransitionAuthorization (a : LeasedAuthorization)
  | AttemptTransitionAuthorization (a : LeasedAuthorization).
Definition evidence_of (a : Authorization) : TransitionEvidence :=
  match a with
  | RunTransitionEvidence e => e
  | WorkItemTransitionAuthorization a | AttemptTransitionAuthorization a => la_evidence a
  end.
Definition lease_of (a : Authorization) : option LeasedAuthorization :=
  match a with
  | RunTransitionEvidence _ => None
  | WorkItemTransitionAuthorization a | AttemptTransitionAuthorization a => Some a
  end.
Definition authorization_kind (a : Authorization) : EntityKind :=
  match a with
  | RunTransitionEvidence _ => E_run
  | WorkItemTransitionAuthorization _ => E_work_item
  | AttemptTransitionAuthorization _ => E_attempt
  end.
Definition validate_authorization : cleaner Authorization := fun a =>
  match a with
  | RunTransitionEvidence e => RunTransitionEvidence <$> validate_evidence e
  | WorkItemTransitionAuthorization a => WorkItemTransitionAuthorization <$> validate_leased a
  | AttemptTransitionAuthorization a => AttemptTransitionAuthorization <$> validate_leased a
  end.

Record ReconciliationResolution := {
  rs_run_id : string; rs_trace_id : string; rs_entity_id : string;
  rs_expected_state_revision : Z; rs_plan_revision : Z;
  rs_reconciliation_id : string; rs_broker_observation_digest : string }.
Definition validate_resolution : cleaner ReconciliationResolution := fun r =>
  run ← ShortText (rs_run_id r);
  trace ← ShortText (rs_trace_id r);
  entity ← ShortText (rs_entity_id r);
  srev ← NonNegativeInt (rs_expected_state_revision r);
  prev ← NonNegativeInt (rs_plan_revision r);
  rid ← ShortText (rs_reconciliation_id r);
  dig ← Digest (rs_broker_observation_digest r);
  Ok {| rs_run_id := run; rs_trace_id := trace; rs_entity_id := entity;
        rs_expected_state_revision := srev; rs_plan_revision := prev;
        rs_reconciliation_id := rid; rs_broker_observation_digest := dig |}.

Record StaleAttemptRetryAuthorization := {
  sr_run_id : string; sr_trace_id : string; sr_work_item_id : string;
  sr_attempt_id : string; sr_expected_state_revision : Z; sr_plan_revision : Z;
  sr_lease_epoch : Z; sr_fencing_token_digest : string }.
Definition validate_retry : cleaner StaleAttemptRetryAuthorization := fun r =>
  run ← ShortText (sr_run_id r);
  trace ← ShortText (sr_trace_id r);
  item ← ShortText (sr_work_item_id r);
  attempt ← ShortText (sr_attempt_id r);
  srev ← NonNegativeInt (sr_expected_state_revision r);
  prev ← NonNegativeInt (sr_plan_revision r);
  epoch ← PositiveInt (sr_lease_epoch r);
  fence ← Digest (sr_fencing_token_digest r);
  Ok {| sr_run_id := run; sr_trace_id := trace; sr_work_item_id := item;
        sr_attempt_id := attempt; sr_expected_state_revision := srev;
        sr_plan_revision := prev; sr_lease_epoch := epoch; sr_fencing_token_digest := fence |}.

Record PermanentFailureDecision := {
  pf_run_id : string; pf_trace_id : string; pf_expected_state_revision : Z;
  pf_plan_revision : Z; pf_from_state : RunState; pf_reason_code : string;
  pf_idempotency_key : string }.
Definition validate_decision : cleaner PermanentFailureDecision := fun d =>
  run ← ShortText (pf_run_id d);
  trace ← ShortText (pf_trace_id d);
  srev ← NonNegativeInt (pf_expected_state_revision d);
  prev ← NonNegativeInt (pf_plan_revision d);
  code ← ShortText (pf_reason_code d);
  key ← ShortText (pf_idempotency_key d);
  Ok {| pf_run_id := run; pf_trace_id := trace; pf_expected_state_revision := srev;
        pf_plan_revision := prev; pf_from_state := pf_from_state d;
        pf_reason_code := code; pf_idempotency_key := key |}.

#[export] Instance validate_decision_idem : Idem validate_decision.
Proof. solve_fields_idem. Qed.

Inductive Candidate :=
  | Transition (t : HarnessTransition)
  | PermanentFailure (d : PermanentFailureDecision).
Definition validate_candidate : cleaner Candidate := fun c =>
  match c with
  | Transition t => Transition <$> validate_transition t
  | PermanentFailure d => PermanentFailure <$> validate_decision d
  end.

(** ** Sensitive values *)
Definition hspace : regex := Chr py_space.
Definition not_space : regex := Chr (fun c => negb (py_space c)).
Definition digit_re : regex := Chr is_digit.
Definition not_alnum : regex :=
  Chr (fun c => negb (is_digit c || is_lower (lower_char c))).
Definition SENSITIVE_VALUE : regex :=
  alts [
    seqs [WordBoundary; ilit "bearer"; plus_re hspace];
    seqs [Alt Bol not_alnum; ilit "sk"; Chr (any_of "-_")];
    seqs [ilit "fence-"; plus_re digit_re; lit "-"];
    seqs [alts [ilit "password"; ilit "secret"; ilit "credential";
                seqs [ilit "api"; opt (Chr (any_of " _-")); ilit "key"]; ilit "authorization"];
          Star hspace; Chr (any_of ":=")];
    seqs [ilit "http"; opt (ilit "s"); lit "://"; plus_re not_space; Chr (any_of "?&");
          alts [ilit "token"; ilit "key"; ilit "secret"; ilit "signature"]; lit "="];
    seqs [ilit "-----begin"; Star (Chr (fun c => negb (Ascii.eqb c newline)));
          ilit "private key-----"]].

(** [_reject_sensitive_values] on the string values of a model's dump; the
    enum members of a dump are constants that never match. *)
Definition reject_sensitive_values (values : list string) : result unit :=
  raise_when (existsb (search SENSITIVE_VALUE) values)
    (ValueError "state-machine input contains a sensitive value").

Definition opt_list {A} (o : option A) : list A := match o with Some a => [a] | None => [] end.
Definition transition_strings (t : HarnessTransition) : list string :=
  [tr_run_id t; tr_trace_id t; tr_entity_id t; tr_from_state t; tr_to_state t;
   tr_reason_code t; tr_idempotency_key t] ++ opt_list (tr_fencing_token_digest t).
Definition decision_strings (d : PermanentFailureDecision) : list string :=
  [pf_run_id d; pf_trace_id d; pf_reason_code d; pf_idempotency_key d].
Definition candidate_strings (c : Candidate) : list string :=
  match c with Transition t => transition_strings t | PermanentFailure d => decision_strings d end.
Definition evidence_strings (e : TransitionEvidence) : list string :=
  [te_run_id e; te_trace_id e; te_entity_id e] ++ (te_dependency_versions e).*1.
Definition leased_strings (a : LeasedAuthorization) : list string :=
  evidence_strings (la_evidence a) ++
  [la_reservation_id a; la_grant_id a; la_fencing_token_digest a].
Definition authorization_strings (a : Authorization) : list string :=
  match a with
  | RunTransitionEvidence e => evidence_strings e
  | WorkItemTransitionAuthorization a | AttemptTransitionAuthorization a => leased_strings a
  end.
Definition retry_strings (r : StaleAttemptRetryAuthorization) : list string :=
  [sr_run_id r; sr_trace_id r; sr_work_item_id r; sr_attempt_id r; sr_fencing_token_digest r].
Definition resolution_strings (r : ReconciliationResolution) : list string :=
  [rs_run_id r; rs_trace_id r; rs_entity_id r; rs_reconciliation_id r;
   rs_broker_observation_digest r].
Definition authority_strings (a : TransitionAuthorityRecord) : list string :=
  [ta_run_id a; ta_trace_id a; ta_entity_id a; ta_from_state a; ta_to_state a;
   ta_reason_code a; ta_idempotency_key a] ++ (ta_dependency_versions a).*1 ++
  opt_list (ta_reservation_id a) ++ opt_list (ta_grant_id a) ++
  opt_list (ta_fencing_token_digest a).
Definition ownership_strings (o : AttemptWorkItemOwnershipRecord) : list string :=
  [ow_run_id o; ow_trace_id o; ow_attempt_id o; ow_work_item_id o].
Definition resolution_record_strings (r : ReconciliationResolutionRecord) : list string :=
  [rr_run_id r; rr_trace_id r; rr_reconciliation_id r; rr_broker_observation_digest r].
Definition view_strings (v : HarnessSessionView) : list string :=
  opt_list (v_run_id v) ++ opt_list (v_trace_id v) ++ opt_list (v_request_digest v) ++
  opt_list (v_prompt_release_digest v) ++ opt_list (v_accepted_result_digest v) ++
  (match v_outcome v with Some o => [oc_terminal_reason o] | None => [] end) ++
  (v_work_item_states v).*1 ++ (v_attempt_states v).*1 ++ (v_dependency_versions v).*1 ++
  (v_transition_authorities v ≫= authority_strings) ++
  (v_attempt_work_item_owners v ≫= ownership_strings) ++
  (v_reconciliation_resolutions v ≫= resolution_record_strings) ++
  v_applied_idempotency_keys v ++ opt_list (v_last_event_hash v).

(** [_fresh_contract]: the undeclared-field and exact-type checks hold of every
    value of the model's types. *)
Definition fresh_contract {A} (strings : A -> list string) (validate : cleaner A) : cleaner A := fun x =>
  _ ← reject_sensitive_values (strings x); validate x.

Record Inputs := {
  in_candidate : Candidate; in_view : HarnessSessionView;
  in_authorization : option Authorization;
  in_retry : option StaleAttemptRetryAuthorization;
  in_resolution : option ReconciliationResolution }.
Definition revalidate_public_inputs (i : Inputs) : result Inputs :=
  c ← fresh_contract candidate_strings validate_candidate (in_candidate i);
  v ← fresh_contract view_strings validate_view (in_view i);
  a ← optional (fresh_contract authorization_strings validate_authorization) (in_authorization i);
  r ← optional (fresh_contract retry_strings validate_retry) (in_retry i);
  s ← optional (fresh_contract resolution_strings validate_resolution) (in_resolution i);
  Ok {| in_candidate := c; in_view := v; in_authorization := a; in_retry := r; in_resolution := s |}.

(** ** Validation *)
Definition current_value {A} (value : A -> string) (s : option A) : string :=
  match s with Some s => value s | None => "none" end.
Definition in_states {A} `{EqDecision A} (s : option A) (states : list A) : bool :=
  match s with Some s => bool_decide (s ∈ states) | None => false end.

(** [_resolution_matches] *)
Definition resolution_matches (resolution : option ReconciliationResolution)
    (t : HarnessTransition) (v : HarnessSessionView) : bool :=
  match resolution with
  | None => false
  | Some r =>
      bool_decide (rs_run_id r = tr_run_id t) && bool_decide (Some (tr_run_id t) = v_run_id v) &&
      (bool_decide (rs_trace_id r = tr_trace_id t) && bool_decide (Some (tr_trace_id t) = v_trace_id v)) &&
      bool_decide (rs_entity_id r = tr_entity_id t) &&
      ((rs_expected_state_revision r =? tr_expected_state_revision t) &&
       (tr_expected_state_revision t =? v_state_revision v)) &&
      ((rs_plan_revision r =? tr_plan_revision t) && (tr_plan_revision t =? v_plan_revision v)) &&
      let expected :=
        {| rr_run_id := rs_run_id r; rr_trace_id := rs_trace_id r;
           rr_reconciliation_id := rs_reconciliation_id r;
           rr_expected_state_revision := rs_expected_state_revision r;
           rr_plan_revision := rs_plan_revision r;
           rr_broker_observation_digest := rs_broker_observation_digest r |} in
      bool_decide
        (filter (fun record => semantic_authority_key record = semantic_authority_key expected)
           (v_reconciliation_resolutions v) = [expected])
  end.

(** [_validate_retry_authorization].  Python's [a != b == c] is
    [a != b and b == c]. *)
Definition validate_retry_authorization (retry : option StaleAttemptRetryAuthorization)
    (t : HarnessTransition) (v : HarnessSessionView) (source : option WorkItemState) : TransitionValidation :=
  if negb (in_states source [W_LEASED; W_RUNNING; W_VALIDATING]) then
    reject "retry wait source is not retryable"
  else match retry with
  | None => reject "stale attempt retry proof is missing"
  | Some r =>
      if (negb (bool_decide (sr_run_id r = tr_run_id t)) && bool_decide (Some (tr_run_id t) = v_run_id v))
         || (negb (bool_decide (sr_trace_id r = tr_trace_id t)) &&
             bool_decide (Some (tr_trace_id t) = v_trace_id v))
         || negb (bool_decide (sr_work_item_id r = tr_entity_id t))
         || negb (sr_expected_state_revision r =? tr_expected_state_revision t)
         || negb (sr_expected_state_revision r =? v_state_revision v)
         || negb (sr_plan_revision r =? tr_plan_revision t)
         || negb (sr_plan_revision r =? v_plan_revision v)
         || negb (bool_decide (Some (sr_lease_epoch r) = tr_lease_epoch t))
         || negb (bool_decide (Some (sr_fencing_token_digest r) = tr_fencing_token_digest t))
      then reject "stale attempt retry proof does not match"
      else if negb (bool_decide (dict_get (dict_of (v_attempt_states v)) (sr_attempt_id r) = Some A_STALE))
      then reject "retry attempt is not stale"
      else
        let ownership :=
          {| ow_run_id := sr_run_id r; ow_trace_id := sr_trace_id r;
             ow_attempt_id := sr_attempt_id r; ow_work_item_id := sr_work_item_id r;
             ow_plan_revision := sr_plan_revision r |} in
        if negb (bool_decide (ownership ∈ v_attempt_work_item_owners v))
        then reject "committed attempt ownership is missing"
        else accept
  end.

(** [_authority_record] *)
Definition authority_record (t : HarnessTransition) (a : Authorization) : TransitionAuthorityRecord :=
  {| ta_run_id := te_run_id (evidence_of a); ta_trace_id := te_trace_id (evidence_of a);
     ta_entity_kind := tr_entity_kind t; ta_entity_id := te_entity_id (evidence_of a);
     ta_from_state := tr_from_state t; ta_to_state := tr_to_state t;
     ta_expected_state_revision := te_expected_state_revision (evidence_of a);
     ta_plan_revision := te_plan_revision (evidence_of a);
     ta_reason_code := tr_reason_code t; ta_idempotency_key := tr_idempotency_key t;
     ta_dependency_versions := te_dependency_versions (evidence_of a);
     ta_reservation_id := la_reservation_id <$> lease_of a;
     ta_grant_id := la_grant_id <$> lease_of a;
     ta_lease_epoch := la_lease_epoch <$> lease_of a;
     ta_fencing_token_digest := la_fencing_token_digest <$> lease_of a |}.

(** [_validate_evidence]: [None] when nothing is wrong. *)
Definition check_evidence (t : HarnessTransition) (v : HarnessSessionView)
    (authorization : option Authorization) : option TransitionValidation :=
  match authorization with
  | None => Some (reject "required transition evidence is missing")
  | Some a =>
      let e := evidence_of a in
      let non_run := negb (bool_decide (tr_entity_kind t = E_run)) in
      if non_run && negb (is_Some_b (v_run_id v) && is_Some_b (v_trace_id v) && is_Some_b (v_run_state v))
      then Some (reject "non-run transition requires active run")
      else if non_run && in_states (v_run_state v) RUN_TERMINAL_STATES
      then Some (reject "non-run transition requires nonterminal run")
      else if negb (bool_decide (authorization_kind a = tr_entity_kind t))
      then Some (reject "transition evidence type is incompatible")
      else if negb (bool_decide (te_run_id e = tr_run_id t)) ||
              (is_Some_b (v_run_id v) && negb (bool_decide (Some (te_run_id e) = v_run_id v)))
      then Some (reject "evidence run identity does not match")
      else if negb (bool_decide (te_trace_id e = tr_trace_id t)) ||
              (is_Some_b (v_trace_id v) && negb (bool_decide (Some (te_trace_id e) = v_trace_id v))) ||
              negb (bool_decide (te_entity_id e = tr_entity_id t))
      then Some (reject "evidence identity does not match")
      else if negb (te_expected_state_revision e =? tr_expected_state_revision t) ||
              negb (te_expected_state_revision e =? v_state_revision v)
      then Some (reject "evidence state revision is stale")
      else if negb (te_plan_revision e =? tr_plan_revision t) ||
              negb (te_plan_revision e =? v_plan_revision v)
      then Some (reject "evidence plan revision is stale")
      else if negb (bool_decide (te_dependency_versions e = v_dependency_versions v))
      then Some (reject "evidence dependency versions do not match")
      else if match lease_of a with
              | Some l => negb (bool_decide (Some (la_lease_epoch l) = tr_lease_epoch t)) ||
                          negb (bool_decide (Some (la_fencing_token_digest l) = tr_fencing_token_digest t))
              | None => false
              end
      then Some (reject "durable lease evidence does not match")
      else if negb (bool_decide (authority_record t a ∈ v_transition_authorities v))
      then Some (reject "committed transition authority is missing")
      else None
  end.

Definition validate_run (t : HarnessTransition) (v : HarnessSessionView)
    (resolution : option ReconciliationResolution) : TransitionValidation :=
  if negb (bool_decide (tr_entity_id t = tr_run_id t))
  then reject "run entity identity does not match"
  else match run_state_of (tr_to_state t) with
  | None => reject "unknown run target state"
  | Some target =>
      let source := v_run_state v in
      if negb (bool_decide (tr_from_state t = current_value run_state_value source))
      then reject "run source state does not match"
      else if in_states source RUN_TERMINAL_STATES
      then reject "terminal run state is absorbing"
      else
        let edge :=
          if negb (bool_decide (target ∈ RUN_EDGES source)) then reject "illegal run transition"
          else accept in
        if v_external_side_effect_unknown v then
          if negb (resolution_matches resolution t v)
          then reject "unknown external effects require reconciliation"
          else if negb (bool_decide (source = Some R_WAITING_RECONCILIATION)) ||
                  negb (bool_decide (target = R_RECONCILING))
          then reject "reconciliation proof has invalid edge"
          else edge
        else if is_Some_b resolution then reject "reconciliation proof is not applicable"
        else edge
  end.

Definition validate_work_item (t : HarnessTransition) (v : HarnessSessionView)
    (retry : option StaleAttemptRetryAuthorization) : TransitionValidation :=
  match work_item_state_of (tr_to_state t) with
  | None => reject "unknown work-item target state"
  | Some target =>
      let source := dict_get (dict_of (v_work_item_states v)) (tr_entity_id t) in
      if negb (bool_decide (tr_from_state t = current_value work_item_state_value source))
      then reject "work-item source state does not match"
      else if in_states source WORK_ITEM_TERMINAL_STATES
      then reject "terminal work-item state is absorbing"
      else if bool_decide (target = W_RETRY_WAIT)
      then validate_retry_authorization retry t v source
      else if is_Some_b retry then reject "retry proof is only valid for retry wait"
      else
        let allowed := WORK_ITEM_EDGES source ++
          (if is_Some_b source then [W_BLOCKED; W_FAILED; W_CANCELLED] else []) in
        if negb (bool_decide (target ∈ allowed)) then reject "illegal work-item transition"
        else accept
  end.

Definition validate_attempt (t : HarnessTransition) (v : HarnessSessionView) : TransitionValidation :=
  match attempt_state_of (tr_to_state t) with
  | None => reject "unknown attempt target state"
  | Some target =>
      let source := dict_get (dict_of (v_attempt_states v)) (tr_entity_id t) in
      if negb (bool_decide (tr_from_state t = current_value attempt_state_value source))
      then reject "attempt source state does not match"
      else if in_states source ATTEMPT_TERMINAL_STATES
      then reject "terminal attempt state is absorbing"
      else
        let allowed := ATTEMPT_EDGES source ++
          (if is_Some_b source then [A_TIMED_OUT; A_REJECTED; A_FAILED; A_STALE; A_CANCELLED] else []) in
        if negb (bool_decide (target ∈ allowed)) then reject "illegal attempt transition"
        else accept
  end.

Definition validate_permanent_failure (d : PermanentFailureDecision) (v : HarnessSessionView) : TransitionValidation :=
  if negb (is_Some_b (v_run_id v) && is_Some_b (v_trace_id v) && is_Some_b (v_run_state v))
  then reject "permanent failure requires active run"
  else if in_states (v_run_state v) RUN_TERMINAL_STATES
  then reject "terminal run state is absorbing"
  else if v_external_side_effect_unknown v
  then reject "unknown external effects require reconciliation"
  else if negb (bool_decide (Some (pf_run_id d) = v_run_id v)) ||
          negb (bool_decide (Some (pf_trace_id d) = v_trace_id v))
  then reject "permanent failure identity does not match"
  else if negb (bool_decide (Some (pf_from_state d) = v_run_state v))
  then reject "permanent failure source state does not match"
  else if negb (pf_expected_state_revision d =? v_state_revision v)
  then reject "permanent failure state revision is stale"
  else if negb (pf_plan_revision d =? v_plan_revision v)
  then reject "permanent failure plan revision is stale"
  else if bool_decide (pf_idempotency_key d ∈ v_applied_idempotency_keys v)
  then reject "duplicate idempotency key"
  else accept.

Definition validate_edge (t : HarnessTransition) (i : Inputs) : TransitionValidation :=
  match tr_entity_kind t with
  | E_run => validate_run t (in_view i) (in_resolution i)
  | kind =>
      if is_Some_b (in_resolution i) then reject "reconciliation proof requires run transition"
      else match kind with
      | E_work_item => validate_work_item t (in_view i) (in_retry i)
      | _ => if is_Some_b (in_retry i) then reject "retry proof requires work-item transition"
             else validate_attempt t (in_view i)
      end
  end.

(** [_validate_revalidated] *)
Definition validate_revalidated (i : Inputs) : TransitionValidation :=
  match in_candidate i with
  | PermanentFailure d => validate_permanent_failure d (in_view i)
  | Transition t =>
      match check_evidence t (in_view i) (in_authorization i) with
      | Some rejected => rejected
      | None =>
          if bool_decide (tr_idempotency_key t ∈ v_applied_idempotency_keys (in_view i))
          then reject "duplicate idempotency key"
          else validate_edge t i
      end
  end.

(** [GlobalTaskStateMachine.validate] *)
Definition validate (i : Inputs) : TransitionValidation :=
  match revalidate_public_inputs i with
  | Raise _ => reject "invalid state-machine input"
  | Ok i => validate_revalidated i
  end.

(** ** Application *)
Definition error_for (why : option string) : exn :=
  let message := match why with
                 | Some why => or_else why "state-machine validation failed"
                 | None => "state-machine validation failed"
                 end in
  Exn (if contains "stale" message && negb (contains "attempt" message) then "StaleTransitionError"
       else if contains "identity" message then "IdentityMismatchError"
       else if contains "idempotency" message then "IdempotencyConflictError"
       else if contains "dependency" message then "DependencyVersionError"
       else if contains "lease" message then "LeaseEvidenceError"
       else if contains "unknown external effects" message
       then "SideEffectReconciliationRequiredError"
       else "InvalidTransitionError") message.

(** [_transition]: a permanent failure is the run transition to [failed]. *)
Definition transition_of (c : Candidate) : result HarnessTransition :=
  match c with
  | Transition t => Ok t
  | PermanentFailure d =>
      validate_transition
        {| tr_run_id := pf_run_id d; tr_trace_id := pf_trace_id d; tr_entity_kind := E_run;
           tr_entity_id := pf_run_id d; tr_from_state := run_state_value (pf_from_state d);
           tr_to_state := run_state_value R_FAILED;
           tr_expected_state_revision := pf_expected_state_revision d;
           tr_plan_revision := pf_plan_revision d; tr_reason_code := pf_reason_code d;
           tr_idempotency_key := pf_idempotency_key d; tr_lease_epoch := None;
           tr_fencing_token_digest := None |}
  end.

Definition unknown_member (s : string) : exn := ValueError (s +:+ " is not a valid state").
(** The [changes] of [apply], as the updated copy of the view. *)
Definition updated_view (v : HarnessSessionView) (t : HarnessTransition) (resolved : bool) : result HarnessSessionView :=
  let v1 := set_revisions
    (set_cursor v (v_sequence v + 1)
       (match v_run_id v with None => Some (tr_run_id t) | some => some end)
       (match v_trace_id v with None => Some (tr_trace_id t) | some => some end)
       (v_last_event_hash v))
    (v_state_revision v + 1) (tr_plan_revision t) (tr_idempotency_key t) in
  let raise_unknown := Raise (unknown_member (tr_to_state t)) in
  match tr_entity_kind t with
  | E_run =>
      match run_state_of (tr_to_state t) with
      | None => raise_unknown
      | Some s => Ok (set_states v1 (Some s) (v_work_item_states v) (v_attempt_states v)
                        (if resolved then false else v_external_side_effect_unknown v))
      end
  | E_work_item =>
      match work_item_state_of (tr_to_state t) with
      | None => raise_unknown
      | Some s => Ok (set_states v1 (v_run_state v)
                        (set_and_sort (v_work_item_states v) (tr_entity_id t) s)
                        (v_attempt_states v) (v_external_side_effect_unknown v))
      end
  | E_attempt =>
      match attempt_state_of (tr_to_state t) with
      | None => raise_unknown
      | Some s => Ok (set_states v1 (v_run_state v) (v_work_item_states v)
                        (set_and_sort (v_attempt_states v) (tr_entity_id t) s)
                        (v_external_side_effect_unknown v))
      end
  end.

(** [GlobalTaskStateMachine.apply] *)
Definition apply (i : Inputs) : result HarnessSessionView :=
  i ← except_as (revalidate_public_inputs i)
        (Exn "InvalidTransitionError" "invalid state-machine input");
  let decision := validate_revalidated i in
  if negb (allowed decision) then Raise (error_for (reason decision))
  else
    t ← transition_of (in_candidate i);
    v ← updated_view (in_view i) t (is_Some_b (in_resolution i));
    validate_view v.

(** ** Lemmas *)
Record transition_clean (t : HarnessTransition) : Prop := {
  tc_run_id : ShortText (tr_run_id t) = Ok (tr_run_id t);
  tc_trace_id : ShortText (tr_trace_id t) = Ok (tr_trace_id t);
  tc_entity_id : ShortText (tr_entity_id t) = Ok (tr_entity_id t);
  tc_plan_revision : 0 <= tr_plan_revision t;
  tc_key : ShortText (tr_idempotency_key t) = Ok (tr_idempotency_key t) }.

Lemma validated_transition_clean x t : validate_transition x = Ok t -> transition_clean t.
Proof.
  unfold validate_transition. rewrite model_Ok. intros [H%idem _].
  unfold clean_transition in H. inv_ok H. destruct t; simpl in *.
  injection H as -> -> -> -> -> -> -> -> -> -> ->. constructor; simpl; try done.
  by apply NonNegativeInt_fix in Hok5 as [? _].
Qed.

Lemma revalidate_Ok i j :
  revalidate_public_inputs i = Ok j ->
  validate_candidate (in_candidate i) = Ok (in_candidate j) /\
  validate_view (in_view i) = Ok (in_view j).
Proof.
  unfold revalidate_public_inputs, fresh_contract. intros H. inv_ok H. subst j. simpl.
  inv_ok Hok. inv_ok Hok0. done.
Qed.

Lemma revalidate_transition_clean i j t :
  revalidate_public_inputs i = Ok j -> transition_of (in_candidate j) = Ok t -> transition_clean t.
Proof.
  intros [Hc _]%revalidate_Ok Ht. destruct (in_candidate j) as [t'|d]; simpl in *.
  - injection Ht as <-. destruct (in_candidate i); simpl in Hc; apply fmap_Ok in Hc as (x & Hx & [= ->]).
    by eapply validated_transition_clean.
  - by eapply validated_transition_clean.
Qed.

Lemma updated_view_clean v t b u :
  view_clean v -> transition_clean t -> updated_view v t b = Ok u ->
  (length (v_applied_idempotency_keys v) < 64)%nat -> view_clean u.
Proof.
  intros [] [] Hu Hlen. unfold updated_view in Hu.
  assert (Hrun : optional ShortText
    match v_run_id v with Some s => Some s | None => Some (tr_run_id t) end =
    Ok match v_run_id v with Some s => Some s | None => Some (tr_run_id t) end).
  { destruct (v_run_id v); [done|]. simpl. by rewrite tc_run_id0. }
  assert (Htrace : optional ShortText
    match v_trace_id v with Some s => Some s | None => Some (tr_trace_id t) end =
    Ok match v_trace_id v with Some s => Some s | None => Some (tr_trace_id t) end).
  { destruct (v_trace_id v); [done|]. simpl. by rewrite tc_trace_id0. }
  assert (Hkeys : tuple_of ShortText (v_applied_idempotency_keys v ++ [tr_idempotency_key t]) =
    Ok (v_applied_idempotency_keys v ++ [tr_idempotency_key t])) by by apply tuple_of_snoc.
  assert (Hset : forall V (l : list (string * V)) s,
    tuple_of (pair_of ShortText any) l = Ok l ->
    tuple_of (pair_of ShortText any) (set_and_sort l (tr_entity_id t) s) =
    Ok (set_and_sort l (tr_entity_id t) s)).
  { intros V l s. rewrite !tuple_of_fix. intros Hl x [->|Hx]%set_and_sort_elem; [|auto].
    by apply pair_of_fix. }
  destruct (tr_entity_kind t); walk Hu; injection Hu as <-;
    constructor; simpl; try done; try lia; try (by apply Hset); rewrite length_app; simpl; lia.
Qed.

Lemma updated_view_keys v t b u :
  updated_view v t b = Ok u ->
  v_applied_idempotency_keys u = v_applied_idempotency_keys v ++ [tr_idempotency_key t].
Proof. unfold updated_view. intros H. destruct (tr_entity_kind t); walk H; by injection H as <-. Qed.

(** What [apply] does, once its inputs are re-validated: the decision allows the
    candidate, there is room for one more idempotency key, and the result is the
    updated copy itself. *)
Lemma apply_inv i v' :
  apply i = Ok v' ->
  exists j t, revalidate_public_inputs i = Ok j /\ allowed (validate_revalidated j) = true /\
    transition_of (in_candidate j) = Ok t /\
    updated_view (in_view j) t (is_Some_b (in_resolution j)) = Ok v' /\
    (length (v_applied_idempotency_keys (in_view j)) < 64)%nat /\ well_formed v'.
Proof.
  unfold apply. intros H. apply bind_Ok in H as (j & Hj & H). apply except_as_Ok in Hj.
  destruct (allowed (validate_revalidated j)) eqn:Ha; [|done]. simpl in H.
  apply bind_Ok in H as (t & Ht & H). apply bind_Ok in H as (u & Hu & H).
  pose proof H as Hw. apply idem in Hw. unfold validate_view in H. rewrite model_Ok in H.
  destruct H as [Hc _].
  assert (Hlen : (length (v_applied_idempotency_keys (in_view j)) < 64)%nat).
  { destruct (decide (length (v_applied_idempotency_keys (in_view j)) < 64)%nat) as [|Hn]; [done|].
    exfalso. unfold clean_view in Hc. inv_ok Hc.
    match goal with HT : TargetIds (v_applied_idempotency_keys u) = Ok _ |- _ =>
      rewrite (updated_view_keys _ _ _ _ Hu), TargetIds_too_long in HT; [done|] end.
    rewrite length_app. simpl. lia. }
  pose proof (revalidate_Ok _ _ Hj) as [_ Hv].
  apply validated_well_formed, well_formed_spec in Hv as [Hv _].
  pose proof (revalidate_transition_clean _ _ _ Hj Ht) as Htc.
  pose proof (updated_view_clean _ _ _ _ Hv Htc Hu Hlen) as Huc.
  apply clean_view_fix in Huc. rewrite Huc in Hc. injection Hc as ->.
  exists j, t. done.
Qed.

Lemma check_evidence_rejects t v authorization r :
  check_evidence t v authorization = Some r -> allowed r = false.
Proof.
  unfold check_evidence. intros H. destruct authorization as [a|]; [|by injection H as <-].
  repeat match type of H with context [if ?b then _ else _] =>
    destruct b; [by injection H as <-|] end.
  done.
Qed.

Lemma check_evidence_None t v authorization :
  check_evidence t v authorization = None ->
  exists a, authorization = Some a /\ authorization_kind a = tr_entity_kind t /\
    (tr_entity_kind t <> E_run -> exists r, v_run_state v = Some r /\ r ∉ RUN_TERMINAL_STATES) /\
    tr_expected_state_revision t = v_state_revision v /\ tr_plan_revision t = v_plan_revision v /\
    (forall r, v_run_id v = Some r -> tr_run_id t = r) /\
    (forall r, v_trace_id v = Some r -> tr_trace_id t = r) /\
    (forall l, lease_of a = Some l -> tr_lease_epoch t = Some (la_lease_epoch l) /\
       tr_fencing_token_digest t = Some (la_fencing_token_digest l)) /\
    authority_record t a ∈ v_transition_authorities v.
Proof.
  unfold check_evidence. intros H. destruct authorization as [a|]; [|done].
  exists a. split; [done|].
  repeat match type of H with context [if ?b then _ else _] => destruct b eqn:?; [discriminate H|] end.
  to_prop. split_and!; try congruence; try lia.
  - intros Hk. rewrite (bool_decide_eq_false_2 (tr_entity_kind t = E_run)) in * by done. simpl in *.
    to_prop. destruct (v_run_state v) as [r|]; [|done]. exists r. split; [done|].
    simpl in *. by to_prop.
  - intros r Hr. rewrite Hr in *. simpl in *. to_prop. congruence.
  - intros r Hr. rewrite Hr in *. simpl in *. to_prop. congruence.
  - intros l Hl. rewrite Hl in *. to_prop. naive_solver.
Qed.

Lemma validate_run_accepted t v s :
  allowed (validate_run t v s) = true ->
  exists target, run_state_of (tr_to_state t) = Some target /\
    in_states (v_run_state v) RUN_TERMINAL_STATES = false /\
    target ∈ RUN_EDGES (v_run_state v) /\
    (v_external_side_effect_unknown v = true ->
       resolution_matches s t v = true /\ v_run_state v = Some R_WAITING_RECONCILIATION /\
       target = R_RECONCILING) /\
    (v_external_side_effect_unknown v = false -> s = None).
Proof.
  unfold validate_run. intros H.
  destruct (run_state_of (tr_to_state t)) as [target|] eqn:Et; [|by walk H].
  exists target. split; [done|].
  destruct (v_external_side_effect_unknown v) eqn:Eu; walk H; to_prop.
  - split_and!; done.
  - split_and!; try done. intros _. by destruct s.
Qed.

Lemma validate_work_item_accepted t v r :
  allowed (validate_work_item t v r) = true ->
  let source := dict_get (dict_of (v_work_item_states v)) (tr_entity_id t) in
  exists target, work_item_state_of (tr_to_state t) = Some target /\
    in_states source WORK_ITEM_TERMINAL_STATES = false /\
    (target ∈ WORK_ITEM_EDGES source \/ is_Some source /\ target ∈ [W_BLOCKED; W_FAILED; W_CANCELLED]) /\
    (target = W_RETRY_WAIT ->
      exists p, r = Some p /\ dict_get (dict_of (v_attempt_states v)) (sr_attempt_id p) = Some A_STALE /\
        exists o, o ∈ v_attempt_work_item_owners v /\ ow_attempt_id o = sr_attempt_id p /\
          ow_work_item_id o = tr_entity_id t /\ ow_plan_revision o = v_plan_revision v).
Proof.
  intros H source. unfold validate_work_item in H. fold source in H.
  destruct (work_item_state_of (tr_to_state t)) as [target|] eqn:Et; [|done].
  exists target. split; [done|].
  destruct (bool_decide (target = W_RETRY_WAIT)) eqn:Er.
  - to_prop. subst target. unfold validate_retry_authorization in H.
    destruct r as [p|]; walk H; to_prop. split_and!; [done| |].
    + left. destruct source as [[]|]; try done; set_solver.
    + intros _. exists p. split_and!; [done|done|]. eexists. split; [eassumption|].
      simpl. split_and!; congruence.
  - walk H; to_prop. split_and!; [done| |done].
    match goal with H : target ∈ _ ++ _ |- _ => apply elem_of_app in H as [|Hm]; [by left|right] end.
    destruct source; simpl in *; [split; [eauto|done]|by apply not_elem_of_nil in Hm].
Qed.

Lemma validate_attempt_accepted t v :
  allowed (validate_attempt t v) = true ->
  let source := dict_get (dict_of (v_attempt_states v)) (tr_entity_id t) in
  exists target, attempt_state_of (tr_to_state t) = Some target /\
    in_states source ATTEMPT_TERMINAL_STATES = false /\
    (target ∈ ATTEMPT_EDGES source \/
     is_Some source /\ target ∈ [A_TIMED_OUT; A_REJECTED; A_FAILED; A_STALE; A_CANCELLED]).
Proof.
  intros H source. unfold validate_attempt in H. fold source in H.
  destruct (attempt_state_of (tr_to_state t)) as [target|] eqn:Et; [|done].
  exists target. split; [done|]. walk H; to_prop. split; [done|].
  match goal with H : target ∈ _ ++ _ |- _ => apply elem_of_app in H as [|Hm]; [by left|right] end.
  destruct source; simpl in *; [split; [eauto|done]|by apply not_elem_of_nil in Hm].
Qed.

Lemma permanent_failure_accepted d v :
  allowed (validate_permanent_failure d v) = true ->
  v_run_state v = Some (pf_from_state d) /\ in_states (v_run_state v) RUN_TERMINAL_STATES = false /\
  v_external_side_effect_unknown v = false /\ (pf_idempotency_key d ∉ v_applied_idempotency_keys v) /\
  pf_expected_state_revision d = v_state_revision v /\ pf_plan_revision d = v_plan_revision v.
Proof. unfold validate_permanent_failure. intros H. walk H. to_prop. split_and!; congruence. Qed.

Lemma permanent_failure_transition d t :
  transition_of (PermanentFailure d) = Ok t ->
  tr_entity_kind t = E_run /\ run_state_of (tr_to_state t) = Some R_FAILED /\
  tr_expected_state_revision t = pf_expected_state_revision d /\
  tr_plan_revision t = pf_plan_revision d.
Proof.
  simpl. unfold validate_transition. rewrite model_Ok. intros [H _].
  unfold clean_transition in H. inv_ok H. subst t. simpl in *.
  split_and!; [done| | |].
  - assert (a3 = "failed") as -> by (vm_compute in Hok3; congruence). done.
  - by apply NonNegativeInt_fix in Hok4 as [_ ->].
  - by apply NonNegativeInt_fix in Hok5 as [_ ->].
Qed.

(** Every accepted candidate was checked against the current revisions and
    carries a fresh idempotency key; a run-level candidate needs a nonterminal
    run, and so does every other. *)
Lemma accepted_is_current j t :
  allowed (validate_revalidated j) = true -> transition_of (in_candidate j) = Ok t ->
  in_states (v_run_state (in_view j)) RUN_TERMINAL_STATES = false /\
  tr_expected_state_revision t = v_state_revision (in_view j) /\
  tr_plan_revision t = v_plan_revision (in_view j).
Proof.
  unfold validate_revalidated. intros Ha Ht. destruct (in_candidate j) as [t'|d].
  - injection Ht as ->. destruct (check_evidence t _ _) eqn:Ec.
    { by rewrite (check_evidence_rejects _ _ _ _ Ec) in Ha. }
    apply check_evidence_None in Ec as (a & _ & _ & Hterm & Hs & Hp & _).
    split_and!; [|done|done]. destruct (bool_decide (_ ∈ _)); [done|]. unfold validate_edge in Ha.
    destruct (tr_entity_kind t) eqn:Ek;
      [|destruct (Hterm ltac:(done)) as (r & -> & Hr); simpl; by apply bool_decide_eq_false..].
    by apply validate_run_accepted in Ha as (? & _ & ? & _).
  - pose proof (permanent_failure_transition _ _ Ht) as (_ & _ & -> & ->).
    by apply permanent_failure_accepted in Ha as (_ & ? & _ & _ & ? & ?).
Qed.

Lemma accepted_fresh_key i j t :
  revalidate_public_inputs i = Ok j ->
  allowed (validate_revalidated j) = true -> transition_of (in_candidate j) = Ok t ->
  tr_idempotency_key t ∉ v_applied_idempotency_keys (in_view j).
Proof.
  unfold validate_revalidated. intros Hj Ha Ht. destruct (in_candidate j) as [t'|d] eqn:Ec0.
  - injection Ht as ->. destruct (check_evidence t _ _) eqn:Ec.
    { by rewrite (check_evidence_rejects _ _ _ _ Ec) in Ha. }
    case_bool_decide; done.
  - apply permanent_failure_accepted in Ha as (_ & _ & _ & Hk & _).
    simpl in Ht. unfold validate_transition in Ht. rewrite model_Ok in Ht. destruct Ht as [Ht _].
    unfold clean_transition in Ht. inv_ok Ht. subst t. simpl in *.
    apply revalidate_Ok in Hj as [Hj _]. rewrite Ec0 in Hj.
    destruct (in_candidate i) as [|d0]; simpl in Hj;
      [by apply fmap_Ok in Hj as (? & _ & ?)|].
    apply fmap_Ok in Hj as (d' & Hd & [= ->]). apply idem in Hd.
    unfold validate_decision in Hd. inv_ok Hd.
    assert (pf_idempotency_key d' = a15) by by rewrite <- Hd. congruence.
Qed.

(** ** The lifecycle a session follows

    What the harness promises about states, with the evidence, revisions and
    identifiers of a candidate left out: a run moves along [RUN_EDGES], fails from
    any nonterminal state, or leaves an unknown external effect by reconciling it;
    work items and attempts move only under a nonterminal run, and an item is
    retried only when some attempt has gone stale. *)
Record Lifecycle := {
  l_run : option RunState;
  l_items : gmap string WorkItemState;
  l_attempts : gmap string AttemptState;
  l_unknown : bool }.

Inductive lifecycle_step : Lifecycle -> Lifecycle -> Prop :=
  | ls_run s s' items attempts :
      s' ∈ RUN_EDGES s ->
      lifecycle_step
        {| l_run := s; l_items := items; l_attempts := attempts; l_unknown := false |}
        {| l_run := Some s'; l_items := items; l_attempts := attempts; l_unknown := false |}
  | ls_reconcile items attempts :
      lifecycle_step
        {| l_run := Some R_WAITING_RECONCILIATION; l_items := items; l_attempts := attempts;
           l_unknown := true |}
        {| l_run := Some R_RECONCILING; l_items := items; l_attempts := attempts; l_unknown := false |}
  | ls_fail s items attempts :
      s ∉ RUN_TERMINAL_STATES ->
      lifecycle_step
        {| l_run := Some s; l_items := items; l_attempts := attempts; l_unknown := false |}
        {| l_run := Some R_FAILED; l_items := items; l_attempts := attempts; l_unknown := false |}
  | ls_work_item r k s items attempts u :
      r ∉ RUN_TERMINAL_STATES ->
      in_states (items !! k) WORK_ITEM_TERMINAL_STATES = false ->
      s ∈ WORK_ITEM_EDGES (items !! k) \/
        is_Some (items !! k) /\ s ∈ [W_BLOCKED; W_FAILED; W_CANCELLED] ->
      (s = W_RETRY_WAIT -> exists a, attempts !! a = Some A_STALE) ->
      lifecycle_step
        {| l_run := Some r; l_items := items; l_attempts := attempts; l_unknown := u |}
        {| l_run := Some r; l_items := <[k := s]> items; l_attempts := attempts; l_unknown := u |}
  | ls_attempt r k s items attempts u :
      r ∉ RUN_TERMINAL_STATES ->
      in_states (attempts !! k) ATTEMPT_TERMINAL_STATES = false ->
      s ∈ ATTEMPT_EDGES (attempts !! k) \/
        is_Some (attempts !! k) /\ s ∈ [A_TIMED_OUT; A_REJECTED; A_FAILED; A_STALE; A_CANCELLED] ->
      lifecycle_step
        {| l_run := Some r; l_items := items; l_attempts := attempts; l_unknown := u |}
        {| l_run := Some r; l_items := items; l_attempts := <[k := s]> attempts; l_unknown := u |}.

Definition lifecycle_of (v : HarnessSessionView) : Lifecycle :=
  {| l_run := v_run_state v; l_items := list_to_map (v_work_item_states v);
     l_attempts := list_to_map (v_attempt_states v); l_unknown := v_external_side_effect_unknown v |}.

Lemma lookup_dict {V} (l : list (string * V)) k :
  (list_to_map l : gmap string V) !! k = dict_get l k.
Proof.
  induction l as [|[k' v] l IH]; simpl; [apply lookup_empty|].
  destruct (decide (k = k')) as [->|Hn].
  - by rewrite lookup_insert_eq.
  - by rewrite lookup_insert_ne.
Qed.
Lemma set_and_sort_insert {V} (l : list (string * V)) k v :
  NoDup l.*1 -> list_to_map (set_and_sort l k v) = <[k := v]> (list_to_map l : gmap string V).
Proof.
  intros Hl. apply map_eq. intros k'. rewrite lookup_dict, set_and_sort_get by done.
  case_decide as Hk; [subst; by rewrite lookup_insert_eq|].
  rewrite lookup_insert_ne by done. by rewrite lookup_dict.
Qed.

(** The facts a well-formed view's validator establishes. *)
Lemma identity_Ok v :
  validate_identity_and_terminal_outcome v = Ok tt <->
  is_Some_b (v_run_id v) = is_Some_b (v_trace_id v) /\
  (v_external_side_effect_unknown v = true ->
     v_run_state v = Some R_WAITING_RECONCILIATION /\ v_outcome v = None) /\
  (forall o, v_outcome v = Some o -> v_run_state v = Some (oc_terminal_state o)) /\
  NoDup (v_work_item_states v).*1 /\ NoDup (v_attempt_states v).*1 /\
  NoDup (v_dependency_versions v).*1 /\
  NoDup ((fun r => (ta_entity_kind r, ta_entity_id r, ta_expected_state_revision r))
           <$> v_transition_authorities v) /\
  NoDup (ow_attempt_id <$> v_attempt_work_item_owners v) /\
  NoDup (semantic_authority_key <$> v_reconciliation_resolutions v) /\
  NoDup (v_applied_idempotency_keys v).
Proof.
  unfold validate_identity_and_terminal_outcome. split.
  - intros H. inv_ok H. apply check_Ok, Bool.eqb_prop in Hok. apply raise_when_Ok in Hok0, Hok1.
    repeat match goal with H : require_unique _ _ = Ok _ |- _ => apply require_unique_Ok in H end.
    split_and!; try done.
    + intros Hu. rewrite Hu in Hok0. simpl in Hok0. to_prop. split; [done|]. by destruct (v_outcome v).
    + intros o Ho. rewrite Ho in Hok1. by to_prop.
  - intros (Hid & Hunk & Hout & Hrest). rewrite Hid, Bool.eqb_reflx. simpl.
    destruct (v_external_side_effect_unknown v).
    + destruct (Hunk eq_refl) as [-> ->]. simpl. unfold require_unique.
      destruct_and! Hrest. by rewrite !(proj2 (unique_true _)) by done.
    + simpl. destruct (v_outcome v) as [o|].
      * rewrite (Hout o) by done. rewrite bool_decide_eq_true_2 by done. simpl. unfold require_unique.
        destruct_and! Hrest. by rewrite !(proj2 (unique_true _)) by done.
      * simpl. unfold require_unique. destruct_and! Hrest. by rewrite !(proj2 (unique_true _)) by done.
Qed.

Lemma well_formed_identifiers v :
  well_formed v ->
  NoDup (v_work_item_states v).*1 /\ NoDup (v_attempt_states v).*1 /\
  NoDup (v_applied_idempotency_keys v) /\ is_Some_b (v_run_id v) = is_Some_b (v_trace_id v) /\
  (v_external_side_effect_unknown v = true ->
     v_run_state v = Some R_WAITING_RECONCILIATION /\ v_outcome v = None) /\
  (forall o, v_outcome v = Some o -> v_run_state v = Some (oc_terminal_state o)).
Proof.
  intros [_ (? & ? & ? & ? & ? & ? & ? & ? & ? & ?)%identity_Ok]%well_formed_spec. done.
Qed.

Lemma accepted_lifecycle_step j t u :
  well_formed (in_view j) -> allowed (validate_revalidated j) = true ->
  transition_of (in_candidate j) = Ok t ->
  updated_view (in_view j) t (is_Some_b (in_resolution j)) = Ok u ->
  lifecycle_step (lifecycle_of (in_view j)) (lifecycle_of u).
Proof.
  intros (Hi & Ha & _ & _ & Hu & _)%well_formed_identifiers Hal Ht Hup.
  set (v := in_view j) in *. unfold validate_revalidated in Hal. fold v in Hal. unfold updated_view in Hup.
  destruct (in_candidate j) as [t'|d].
  - injection Ht as ->. destruct (check_evidence t v _) eqn:Ec.
    { by rewrite (check_evidence_rejects _ _ _ _ Ec) in Hal. }
    apply check_evidence_None in Ec as (a & _ & _ & Hterm & _).
    case_bool_decide; [done|]. unfold validate_edge in Hal. fold v in Hal.
    destruct (tr_entity_kind t) eqn:Ek.
    + apply validate_run_accepted in Hal as (s & Es & _ & Hedge & Hunk & Hkn). rewrite Es in Hup.
      injection Hup as <-. unfold lifecycle_of. simpl.
      destruct (v_external_side_effect_unknown v).
      * destruct (Hunk eq_refl) as (Hres & -> & ->). destruct (in_resolution j); [|done]. constructor.
      * rewrite (Hkn eq_refl). by constructor.
    + destruct (is_Some_b (in_resolution j)); [done|].
      apply validate_work_item_accepted in Hal as (s & Es & Hs & Hedge & Hretry). rewrite Es in Hup.
      destruct (Hterm ltac:(done)) as (r & Hr & Hrt).
      injection Hup as <-. unfold lifecycle_of. simpl. rewrite set_and_sort_insert, Hr by done.
      rewrite dict_of_get, <-lookup_dict in * by done.
      constructor; try done. intros ->. destruct (Hretry eq_refl) as (p & _ & Hp & _).
      exists (sr_attempt_id p). by rewrite lookup_dict, <-dict_of_get by done.
    + destruct (is_Some_b (in_resolution j)); [done|]. destruct (is_Some_b (in_retry j)); [done|].
      apply validate_attempt_accepted in Hal as (s & Es & Hs & Hedge). rewrite Es in Hup.
      destruct (Hterm ltac:(done)) as (r & Hr & Hrt).
      injection Hup as <-. unfold lifecycle_of. simpl. rewrite set_and_sort_insert, Hr by done.
      rewrite dict_of_get, <-lookup_dict in * by done. by constructor.
  - destruct (permanent_failure_transition _ _ Ht) as (Hk & Hs & _).
    apply permanent_failure_accepted in Hal as (Hr & Hrt & Hunk & _).
    rewrite Hk, Hs in Hup. injection Hup as <-. unfold lifecycle_of. simpl. rewrite Hunk.
    replace (if is_Some_b (in_resolution j) then false else false) with false by by destruct (is_Some_b _).
    rewrite Hr in *. apply ls_fail. simpl in Hrt. by apply bool_decide_eq_false in Hrt.
Qed.

(** ** Sessions driven by the state machine *)
Definition applied (v v' : HarnessSessionView) : Prop := exists i, in_view i = v /\ apply i = Ok v'.

Lemma revalidated_view i j :
  revalidate_public_inputs i = Ok j -> well_formed (in_view j) /\ (well_formed (in_view i) -> in_view j = in_view i).
Proof.
  intros [_ H]%revalidate_Ok. split; [by eapply validated_well_formed|].
  intros Hw. unfold well_formed in Hw. congruence.
Qed.

Lemma applied_step v v' : well_formed v -> applied v v' -> lifecycle_step (lifecycle_of v) (lifecycle_of v').
Proof.
  intros Hv (i & <- & H). apply apply_inv in H as (j & t & Hj & Ha & Ht & Hu & _ & _).
  destruct (revalidated_view _ _ Hj) as [Hw He]. rewrite <- (He Hv). by eapply accepted_lifecycle_step.
Qed.

Lemma applied_well_formed v v' : applied v v' -> well_formed v'.
Proof. intros (i & _ & H). by apply apply_inv in H as (? & ? & ? & ? & ? & ? & ? & ?). Qed.

Lemma applied_key v v' :
  well_formed v -> applied v v' ->
  exists k, v_applied_idempotency_keys v' = v_applied_idempotency_keys v ++ [k] /\
    (length (v_applied_idempotency_keys v) < 64)%nat.
Proof.
  intros Hv (i & <- & H). apply apply_inv in H as (j & t & Hj & _ & _ & Hu & Hl & _).
  destruct (revalidated_view _ _ Hj) as [_ He]. rewrite (He Hv) in *.
  exists (tr_idempotency_key t). split; [by eapply updated_view_keys|done].
Qed.

Lemma session_well_formed v v' : well_formed v -> rtc applied v v' -> well_formed v'.
Proof. intros Hv H. induction H as [|a b c Hab _ IH]; [done|]. by apply IH, (applied_well_formed a). Qed.

Lemma session_lifecycle v v' :
  well_formed v -> rtc applied v v' -> rtc lifecycle_step (lifecycle_of v) (lifecycle_of v').
Proof.
  intros Hv H. induction H as [|a b c Hab _ IH]; [done|].
  eapply rtc_l; [by apply applied_step|]. apply IH, (applied_well_formed a), Hab.
Qed.

Lemma session_keys v v' :
  well_formed v -> rtc applied v v' ->
  exists ks, v_applied_idempotency_keys v' = v_applied_idempotency_keys v ++ ks.
Proof.
  intros Hv H. induction H as [a|a b c Hab _ IH]; [exists []; by rewrite app_nil_r|].
  destruct (applied_key _ _ Hv Hab) as (k & Hk & _).
  destruct IH as [ks Hks]; [by apply (applied_well_formed a)|].
  exists (k :: ks). rewrite Hks, Hk, <- app_assoc. done.
Qed.

(** Facts of the lifecycle itself. *)
Lemma lifecycle_terminal l l' r :
  l_run l = Some r -> r ∈ RUN_TERMINAL_STATES -> ~ lifecycle_step l l'.
Proof.
  intros Hr Ht Hs. inversion Hs; subst; simpl in *; try congruence.
  - subst. destruct r; set_solver.
  - injection Hr as <-. set_solver.
Qed.

Lemma lifecycle_item_terminal l l' k s :
  rtc lifecycle_step l l' -> l_items l !! k = Some s -> s ∈ WORK_ITEM_TERMINAL_STATES ->
  l_items l' !! k = Some s.
Proof.
  intros H Hk Hs. induction H as [|a b c Hab _ IH]; [done|]. apply IH.
  inversion Hab; subst; simpl in *; try done.
  match goal with |- <[?x := _]> _ !! _ = _ => destruct (decide (x = k)) as [->|] end.
  - rewrite Hk in *. simpl in *. to_prop. done.
  - by rewrite lookup_insert_ne.
Qed.
Lemma lifecycle_attempt_terminal l l' k s :
  rtc lifecycle_step l l' -> l_attempts l !! k = Some s -> s ∈ ATTEMPT_TERMINAL_STATES ->
  l_attempts l' !! k = Some s.
Proof.
  intros H Hk Hs. induction H as [|a b c Hab _ IH]; [done|]. apply IH.
  inversion Hab; subst; simpl in *; try done.
  match goal with |- <[?x := _]> _ !! _ = _ => destruct (decide (x = k)) as [->|] end.
  - rewrite Hk in *. simpl in *. to_prop. done.
  - by rewrite lookup_insert_ne.
Qed.

(** ** An allowed candidate is applied *)
Lemma ShortText_run_state s : ShortText (run_state_value s) = Ok (run_state_value s).
Proof. by destruct s. Qed.

Lemma accepted_transition i j :
  revalidate_public_inputs i = Ok j -> exists t, transition_of (in_candidate j) = Ok t.
Proof.
  intros [Hc _]%revalidate_Ok. destruct (in_candidate i) as [t|d0]; simpl in Hc;
    apply fmap_Ok in Hc as (c & Hc & ->); [by exists c|].
  apply idem in Hc. unfold validate_decision in Hc. inv_ok Hc. simpl. unfold validate_transition.
  eexists. rewrite model_Ok. split.
  - unfold clean_transition. simpl.
    rewrite ShortText_run_state, Hok, Hok0, Hok1, Hok2, Hok3, Hok4. simpl. reflexivity.
  - done.
Qed.

Lemma accepted_updates j t :
  allowed (validate_revalidated j) = true -> transition_of (in_candidate j) = Ok t ->
  exists u, updated_view (in_view j) t (is_Some_b (in_resolution j)) = Ok u.
Proof.
  unfold validate_revalidated, updated_view. intros Ha Ht. destruct (in_candidate j) as [t'|d].
  - injection Ht as ->. destruct (check_evidence t _ _) eqn:Ec.
    { by rewrite (check_evidence_rejects _ _ _ _ Ec) in Ha. }
    case_bool_decide; [done|]. unfold validate_edge in Ha. destruct (tr_entity_kind t).
    + apply validate_run_accepted in Ha as (s & -> & _). eauto.
    + destruct (is_Some_b (in_resolution j)); [done|].
      apply validate_work_item_accepted in Ha as (s & -> & _). eauto.
    + destruct (is_Some_b (in_resolution j)); [done|]. destruct (is_Some_b (in_retry j)); [done|].
      apply validate_attempt_accepted in Ha as (s & -> & _). eauto.
  - destruct (permanent_failure_transition _ _ Ht) as (-> & -> & _). eauto.
Qed.

Lemma lifecycle_unknown l l' :
  lifecycle_step l l' -> l_unknown l' = true ->
  (l_unknown l = true -> l_run l = Some R_WAITING_RECONCILIATION) ->
  l_run l' = Some R_WAITING_RECONCILIATION.
Proof. intros H Hu Hr. destruct H; simpl in *; auto; done. Qed.

Lemma sealed_is_terminal o :
  optional validate_outcome (Some o) = Ok (Some o) ->
  in_states (Some (oc_terminal_state o)) RUN_TERMINAL_STATES <> false.
Proof.
  simpl. intros H. inv_ok H. subst. unfold validate_outcome in Hok.
  rewrite model_Ok in Hok. destruct Hok as [_ Hm].
  unfold validate_terminal_mapping in Hm. apply check_Ok in Hm.
  by destruct (oc_terminal_state o), (oc_outcome_kind o), (oc_knowledge_status o).
Qed.

(** The identities, terminal outcome and unique identifiers survive an update:
    a sealed run accepts nothing, and an update that keeps an unknown effect keeps
    the run waiting for its reconciliation. *)
Lemma updated_view_identity i j t u :
  revalidate_public_inputs i = Ok j ->
  allowed (validate_revalidated j) = true -> transition_of (in_candidate j) = Ok t ->
  updated_view (in_view j) t (is_Some_b (in_resolution j)) = Ok u ->
  validate_identity_and_terminal_outcome u = Ok tt.
Proof.
  intros Hj Ha Ht Hu. destruct (revalidated_view _ _ Hj) as [Hw _].
  pose proof (accepted_lifecycle_step _ _ _ Hw Ha Ht Hu) as Hl.
  pose proof (accepted_fresh_key _ _ _ Hj Ha Ht) as Hk.
  pose proof (accepted_is_current _ _ Ha Ht) as [Hterm _].
  pose proof (updated_view_keys _ _ _ _ Hu) as Hkeys.
  pose proof (well_formed_identifiers _ Hw) as (_ & _ & Hnd & Hid & Hunk & Hout).
  apply well_formed_spec in Hw as [_ Hw]. set (v := in_view j) in *.
  assert (Hnone : v_outcome v = None).
  { destruct (v_outcome v) as [o|] eqn:Eo; [exfalso|done]. rewrite (Hout o) in Hterm by done.
    destruct (revalidated_view _ _ Hj) as [[Hc _]%well_formed_spec _]. apply vc_outcome in Hc.
    fold v in Hc. rewrite Eo in Hc. by eapply sealed_is_terminal in Hc. }
  assert (Hunk' : v_external_side_effect_unknown u = true -> v_run_state u = Some R_WAITING_RECONCILIATION).
  { intros Hut. apply (lifecycle_unknown _ _ Hl Hut). by intros [? _]%Hunk. }
  assert (Hkn : NoDup (v_applied_idempotency_keys u)).
  { rewrite Hkeys. apply NoDup_app. split_and!; [done| |apply NoDup_singleton].
    intros x Hx ->%list_elem_of_singleton. done. }
  apply identity_Ok in Hw as (_ & _ & _ & Hi & Hat & ? & ? & ? & ? & _). apply identity_Ok.
  split_and!; unfold updated_view in Hu; destruct (tr_entity_kind t); walk Hu; injection Hu as <-;
    simpl in *; try done; try (by apply set_and_sort_NoDup); try (by intros; rewrite ?Hnone in *; auto);
    by destruct (v_run_id v), (v_trace_id v).
Qed.

Lemma lookup_insert_if {V} (m : gmap string V) (P : Prop) k k' `{Decision (P /\ k' = k)} v :
  P -> <[k := v]> m !! k' = if bool_decide (P /\ k' = k) then Some v else m !! k'.
Proof.
  intros HP. case_bool_decide as Hd; [destruct Hd as [_ ->]; apply lookup_insert_eq|].
  apply lookup_insert_ne. naive_solver.
Qed.

(** ** Properties *)

(** C1.  Refinement: every successful [apply] takes one step of the lifecycle,
    with the concrete view's states read as maps; its run only moves along the
    declared edges, fails, or reconciles, and never from a terminal state. *)
Theorem apply_refines_lifecycle (i : Inputs) (v' : HarnessSessionView) :
  apply i = Ok v' ->
  exists j, revalidate_public_inputs i = Ok j /\ validate_view (in_view i) = Ok (in_view j) /\
    lifecycle_step (lifecycle_of (in_view j)) (lifecycle_of v') /\ well_formed v'.
Proof.
  intros H. apply apply_inv in H as (j & t & Hj & Ha & Ht & Hu & _ & Hw).
  exists j. split_and!; [done|by apply revalidate_Ok| |done].
  destruct (revalidated_view _ _ Hj) as [Hv _]. by eapply accepted_lifecycle_step.
Qed.

(** C32.  [validate] decides [apply]: when the inputs re-validate, [apply]
    succeeds exactly when [validate] allows the candidate and the session has
    applied fewer than sixty-four transitions; a candidate that is not allowed
    raises the error its reason selects. *)
Theorem validate_decides_apply (i j : Inputs) :
  revalidate_public_inputs i = Ok j ->
  ((exists v', apply i = Ok v') <->
     allowed (validate i) = true /\ (length (v_applied_idempotency_keys (in_view j)) < 64)%nat) /\
  (allowed (validate i) = false -> apply i = Raise (error_for (reason (validate i)))).
Proof.
  intros Hj. unfold validate. rewrite Hj. split; [split|].
  - intros [v' H]. apply apply_inv in H as (j' & t & Hj' & Ha & _ & _ & Hl & _).
    rewrite Hj in Hj'. by injection Hj' as <-.
  - intros [Ha Hl]. unfold apply. rewrite Hj. simpl. rewrite Ha. simpl.
    destruct (accepted_transition _ _ Hj) as [t Ht]. rewrite Ht. simpl.
    destruct (accepted_updates _ _ Ha Ht) as [u Hu]. rewrite Hu. simpl.
    exists u. unfold validate_view. apply model_Ok. split; [|by eapply updated_view_identity].
    apply clean_view_fix. destruct (revalidated_view _ _ Hj) as [[Hv _]%well_formed_spec _].
    by eapply updated_view_clean; [| eapply revalidate_transition_clean| |].
  - intros Ha. unfold apply. rewrite Hj. simpl. by rewrite Ha.
Qed.

(**  An applied transition changes one entity: the sequence and the state
    revision advance by one from the revision the candidate expected, its fresh
    idempotency key is appended, and of the run, the work items and the attempts
    only the entity it names takes the named state. *)
Theorem apply_changes_one_entity (i : Inputs) (v' : HarnessSessionView) :
  apply i = Ok v' ->
  exists j t, revalidate_public_inputs i = Ok j /\ transition_of (in_candidate j) = Ok t /\
    let v := in_view j in
    v_sequence v' = v_sequence v + 1 /\ v_state_revision v' = v_state_revision v + 1 /\
    tr_expected_state_revision t = v_state_revision v /\
    v_plan_revision v' = v_plan_revision v /\
    (tr_idempotency_key t ∉ v_applied_idempotency_keys v) /\
    v_applied_idempotency_keys v' = v_applied_idempotency_keys v ++ [tr_idempotency_key t] /\
    (forall s, v_run_state v' = Some s -> tr_entity_kind t = E_run -> run_state_value s = tr_to_state t) /\
    (tr_entity_kind t <> E_run -> v_run_state v' = v_run_state v) /\
    (forall k, l_items (lifecycle_of v') !! k =
       if bool_decide (tr_entity_kind t = E_work_item /\ k = tr_entity_id t)
       then work_item_state_of (tr_to_state t) else l_items (lifecycle_of v) !! k) /\
    (forall k, l_attempts (lifecycle_of v') !! k =
       if bool_decide (tr_entity_kind t = E_attempt /\ k = tr_entity_id t)
       then attempt_state_of (tr_to_state t) else l_attempts (lifecycle_of v) !! k).
Proof.
  intros H. apply apply_inv in H as (j & t & Hj & Ha & Ht & Hu & _).
  destruct (revalidated_view _ _ Hj) as [(Hi & Hat & _)%well_formed_identifiers _].
  destruct (accepted_is_current _ _ Ha Ht) as (_ & Hs & Hp).
  pose proof (accepted_fresh_key _ _ _ Hj Ha Ht) as Hk.
  exists j, t. cbv zeta. unfold lifecycle_of, updated_view in *. simpl.
  destruct (tr_entity_kind t) eqn:Ek;
    [destruct (run_state_of (tr_to_state t)) as [s|] eqn:Es
    |destruct (work_item_state_of (tr_to_state t)) as [s|] eqn:Es
    |destruct (attempt_state_of (tr_to_state t)) as [s|] eqn:Es]; try discriminate Hu;
    injection Hu as <-; simpl; split_and!; try done; intros; rewrite ?set_and_sort_insert by done;
    try (by apply lookup_insert_if); try (by rewrite bool_decide_eq_false_2 by naive_solver).
  match goal with H : Some _ = Some _ |- _ => injection H as <- end. by eapply enum_of_value.
Qed.

(** Terminal states are absorbing along every session: from a well-formed
    view, whatever sequence of transitions is applied, a terminal run accepts
    none, and a terminal work item or attempt keeps its state. *)
Theorem sessions_preserve_terminal_states (v v' : HarnessSessionView) :
  well_formed v -> rtc applied v v' ->
  (in_states (v_run_state v) RUN_TERMINAL_STATES = true -> v' = v) /\
  (forall k s, dict_get (v_work_item_states v) k = Some s -> s ∈ WORK_ITEM_TERMINAL_STATES ->
     dict_get (v_work_item_states v') k = Some s) /\
  (forall k s, dict_get (v_attempt_states v) k = Some s -> s ∈ ATTEMPT_TERMINAL_STATES ->
     dict_get (v_attempt_states v') k = Some s).
Proof.
  intros Hv H. pose proof (session_lifecycle _ _ Hv H) as Hl. split_and!.
  - intros Ht. destruct (v_run_state v) as [r|] eqn:Er; [|done]. simpl in Ht. to_prop.
    inversion H as [|? y ? Hs _]; [done|]. subst.
    by destruct (lifecycle_terminal (lifecycle_of v) (lifecycle_of y) r Er Ht (applied_step _ _ Hv Hs)).
  - intros k s. rewrite <- !lookup_dict. exact (lifecycle_item_terminal _ _ k s Hl).
  - intros k s. rewrite <- !lookup_dict. exact (lifecycle_attempt_terminal _ _ k s Hl).
Qed.

(** Exactly-once and bounded: a session applies every idempotency key at
    most once, a candidate whose key the session has already applied is refused
    at every later point of it, and no session applies more than sixty-four
    transitions. *)
Theorem sessions_apply_each_key_once (v v' : HarnessSessionView) (n : nat) :
  well_formed v -> nsteps applied n v v' ->
  NoDup (v_applied_idempotency_keys v') /\
  (0 < n -> length (v_applied_idempotency_keys v) + n <= 64)%nat /\
  (forall i j t, in_view i = v' -> revalidate_public_inputs i = Ok j ->
     transition_of (in_candidate j) = Ok t ->
     tr_idempotency_key t ∈ v_applied_idempotency_keys v -> forall u, apply i <> Ok u).
Proof.
  intros Hv H. assert (Hr : rtc applied v v') by (apply rtc_nsteps; eauto).
  pose proof (session_well_formed _ _ Hv Hr) as Hv'.
  pose proof (session_keys _ _ Hv Hr) as [ks Hks]. split_and!.
  - by apply well_formed_identifiers.
  - clear Hr Hv' Hks ks. revert v Hv H. induction n as [|n IH]; intros v Hv H Hn; [lia|].
    inversion H as [|? ? y ? Hs H']; subst. destruct (applied_key _ _ Hv Hs) as (k & Hk & Hlen).
    destruct n as [|n]; [lia|]. specialize (IH y (applied_well_formed _ _ Hs) H' ltac:(lia)).
    rewrite Hk, length_app in IH. simpl in IH. lia.
  - intros i j t <- Hj Ht Hin u Hu. apply apply_inv in Hu as (j' & t' & Hj' & Ha & Ht' & _).
    rewrite Hj in Hj'. injection Hj' as <-. rewrite Ht in Ht'. injection Ht' as <-.
    pose proof (accepted_fresh_key _ _ _ Hj Ha Ht) as Hk.
    destruct (revalidated_view _ _ Hj) as [_ He]. rewrite (He Hv'), Hks in Hk. set_solver.
Qed.

(** Authority: an applied transition (a permanent failure apart) matches,
    field by field, a transition authority recorded in the session, its evidence
    carries the session's dependency versions and, for work items and attempts,
    the lease epoch and fencing token of the candidate; an item goes to retry only
    for a stale attempt recorded as its own. *)
Theorem applied_transition_is_authorised (i : Inputs) (v' : HarnessSessionView) :
  apply i = Ok v' ->
  exists j, revalidate_public_inputs i = Ok j /\
    forall t, in_candidate j = Transition t ->
      (exists a, in_authorization j = Some a /\ authorization_kind a = tr_entity_kind t /\
         authority_record t a ∈ v_transition_authorities (in_view j) /\
         (forall l, lease_of a = Some l ->
            tr_lease_epoch t = Some (la_lease_epoch l) /\
            tr_fencing_token_digest t = Some (la_fencing_token_digest l))) /\
      (tr_entity_kind t = E_work_item -> tr_to_state t = work_item_state_value W_RETRY_WAIT ->
         exists r o, in_retry j = Some r /\ o ∈ v_attempt_work_item_owners (in_view j) /\
           ow_attempt_id o = sr_attempt_id r /\ ow_work_item_id o = tr_entity_id t /\
           dict_get (dict_of (v_attempt_states (in_view j))) (sr_attempt_id r) = Some A_STALE).
Proof.
  intros H. apply apply_inv in H as (j & t & Hj & Ha & Ht & _). exists j. split; [done|].
  intros t' Hc. rewrite Hc in Ht. injection Ht as ->. unfold validate_revalidated in Ha. rewrite Hc in Ha.
  destruct (check_evidence t _ _) eqn:Ec; [by rewrite (check_evidence_rejects _ _ _ _ Ec) in Ha|].
  apply check_evidence_None in Ec as (a & Haj & Hk & _ & _ & _ & _ & _ & Hl & Hr).
  split; [by exists a|]. intros Hkind Hto. case_bool_decide; [done|].
  unfold validate_edge in Ha. rewrite Hkind in Ha. destruct (is_Some_b (in_resolution j)); [done|].
  apply validate_work_item_accepted in Ha as (s & Hs & _ & _ & Hretry).
  rewrite Hto, work_item_state_of_value in Hs. injection Hs as <-.
  destruct (Hretry eq_refl) as (r & Hrj & Hst & o & Ho & Hoa & Hoi & _).
  exists r, o. done.
Qed.

(**  Reconciliation before progress: while an external effect is unknown the
    run can only leave [waiting_reconciliation] for [reconciling], with a
    resolution whose observation is the one recorded in the session; and applying
    that transition is the only way the unknown flag is ever cleared. *)
Theorem unknown_effects_require_reconciliation (i : Inputs) (v' : HarnessSessionView) :
  apply i = Ok v' ->
  exists j t, revalidate_public_inputs i = Ok j /\ transition_of (in_candidate j) = Ok t /\
    (v_external_side_effect_unknown (in_view j) = true ->
       if bool_decide (tr_entity_kind t = E_run)
       then v_run_state (in_view j) = Some R_WAITING_RECONCILIATION /\
            v_run_state v' = Some R_RECONCILING /\ v_external_side_effect_unknown v' = false /\
            resolution_matches (in_resolution j) t (in_view j) = true
       else v_run_state v' = Some R_WAITING_RECONCILIATION /\ v_external_side_effect_unknown v' = true) /\
    (v_external_side_effect_unknown (in_view j) = false -> v_external_side_effect_unknown v' = false).
Proof.
  intros H. apply apply_inv in H as (j & t & Hj & Ha & Ht & Hu & _).
  exists j, t. split; [done|]. split; [done|].
  destruct (revalidated_view _ _ Hj) as [(_ & _ & _ & _ & Hunk & _)%well_formed_identifiers _].
  unfold validate_revalidated in Ha. unfold updated_view in Hu. destruct (in_candidate j) as [t'|d] eqn:Ec.
  - injection Ht as ->. destruct (check_evidence t _ _) eqn:Ev.
    { by rewrite (check_evidence_rejects _ _ _ _ Ev) in Ha. }
    case_bool_decide; [done|]. unfold validate_edge in Ha. destruct (tr_entity_kind t).
    + apply validate_run_accepted in Ha as (s & Es & _ & _ & Hx & Hy). rewrite Es in Hu.
      injection Hu as <-. simpl. split.
      * intros Hv. destruct (Hx Hv) as (Hm & -> & ->). rewrite Hv. destruct (in_resolution j); done.
      * intros Hv. rewrite (Hy Hv). done.
    + destruct (work_item_state_of (tr_to_state t)); [|done]. injection Hu as <-. simpl. naive_solver.
    + destruct (attempt_state_of (tr_to_state t)); [|done]. injection Hu as <-. simpl. naive_solver.
  - destruct (permanent_failure_transition _ _ Ht) as (Hk & Hs & _).
    apply permanent_failure_accepted in Ha as (_ & _ & Hv & _). rewrite Hk, Hs in Hu.
    injection Hu as <-. simpl. rewrite Hv. by destruct (is_Some_b _).
Qed.

(** ** Sample sessions *)
Definition sample_transition (kind : EntityKind) (entity from to key : string) (rev : Z) : HarnessTransition :=
  {| tr_run_id := "run-1"; tr_trace_id := "trace-1"; tr_entity_kind := kind; tr_entity_id := entity;
     tr_from_state := from; tr_to_state := to; tr_expected_state_revision := rev; tr_plan_revision := 0;
     tr_reason_code := "progress"; tr_idempotency_key := key;
     tr_lease_epoch := if bool_decide (kind = E_run) then None else Some 1;
     tr_fencing_token_digest := if bool_decide (kind = E_run) then None else Some zero_digest |}.
Definition sample_evidence (entity : string) (rev : Z) : TransitionEvidence :=
  {| te_run_id := "run-1"; te_trace_id := "trace-1"; te_entity_id := entity;
     te_expected_state_revision := rev; te_plan_revision := 0; te_dependency_versions := [] |}.
Definition sample_authorization (kind : EntityKind) (entity : string) (rev : Z) : Authorization :=
  let leased := {| la_evidence := sample_evidence entity rev; la_reservation_id := "reservation";
                   la_grant_id := "grant"; la_lease_epoch := 1; la_fencing_token_digest := zero_digest |} in
  match kind with
  | E_run => RunTransitionEvidence (sample_evidence entity rev)
  | E_work_item => WorkItemTransitionAuthorization leased
  | E_attempt => AttemptTransitionAuthorization leased
  end.
Definition sample_inputs (v : HarnessSessionView) (t : HarnessTransition)
    (r : option ReconciliationResolution) : Inputs :=
  let a := sample_authorization (tr_entity_kind t) (tr_entity_id t) (tr_expected_state_revision t) in
  {| in_candidate := Transition t;
     in_view := set_evidence v [authority_record t a] (v_attempt_work_item_owners v)
                  (v_reconciliation_resolutions v);
     in_authorization := Some a; in_retry := None; in_resolution := r |}.
Definition running_view (r : RunState) (unknown : bool) : HarnessSessionView :=
  set_states (set_cursor empty_view 5 (Some "run-1") (Some "trace-1") None)
    (Some r) [("item-1", W_LEASED); ("item-2", W_SUCCEEDED)] [("try-1", A_RESERVED)] unknown.
Definition start_item : Inputs :=
  sample_inputs (running_view R_RUNNING false)
    (sample_transition E_work_item "item-1" "leased" "running" "k1" 0) None.
Definition started_view : HarnessSessionView := unwrap empty_view (apply start_item).
Definition reconcile_run : Inputs :=
  let record := {| rr_run_id := "run-1"; rr_trace_id := "trace-1"; rr_reconciliation_id := "rec-1";
                   rr_expected_state_revision := 0; rr_plan_revision := 0;
                   rr_broker_observation_digest := zero_digest |} in
  sample_inputs (set_evidence (running_view R_WAITING_RECONCILIATION true) [] [] [record])
    (sample_transition E_run "run-1" "waiting_reconciliation" "reconciling" "k2" 0)
    (Some {| rs_run_id := "run-1"; rs_trace_id := "trace-1"; rs_entity_id := "run-1";
             rs_expected_state_revision := 0; rs_plan_revision := 0; rs_reconciliation_id := "rec-1";
             rs_broker_observation_digest := zero_digest |}).

Lemma start_item_applies : apply start_item = Ok started_view.
Proof. vm_compute. reflexivity. Qed.
Lemma start_item_view : well_formed (in_view start_item).
Proof. vm_compute. reflexivity. Qed.

Lemma apply_refines_lifecycle_witness :
  dict_get (v_work_item_states started_view) "item-1" = Some W_RUNNING /\ well_formed started_view.
Proof.
  split; [vm_compute; reflexivity|].
  destruct (apply_refines_lifecycle _ _ start_item_applies) as (j & _ & _ & _ & H). exact H.
Defined.

Lemma validate_decides_apply_witness : exists v', apply start_item = Ok v'.
Proof.
  refine (proj2 (proj1 (validate_decides_apply start_item
    (unwrap start_item (revalidate_public_inputs start_item)) _)) _).
  - vm_compute. reflexivity.
  - split; vm_compute; [reflexivity|lia].
Defined.

Lemma apply_changes_one_entity_witness :
  exists j, revalidate_public_inputs start_item = Ok j /\
    v_sequence started_view = v_sequence (in_view j) + 1.
Proof.
  destruct (apply_changes_one_entity _ _ start_item_applies) as (j & t & Hj & _ & H & _).
  exists j. split; [exact Hj|exact H].
Defined.

Lemma sessions_preserve_terminal_states_witness :
  dict_get (v_work_item_states started_view) "item-2" = Some W_SUCCEEDED.
Proof.
  refine (proj1 (proj2 (sessions_preserve_terminal_states (in_view start_item) started_view
    start_item_view _)) "item-2" W_SUCCEEDED _ _).
  - apply rtc_once. exists start_item. split; [reflexivity|exact start_item_applies].
  - vm_compute. reflexivity.
  - apply (bool_decide_unpack _). vm_compute. exact I.
Defined.

Lemma sessions_apply_each_key_once_witness : NoDup (v_applied_idempotency_keys started_view).
Proof.
  refine (proj1 (sessions_apply_each_key_once (in_view start_item) started_view 1 start_item_view _)).
  apply nsteps_once. exists start_item. split; [reflexivity|exact start_item_applies].
Defined.

Lemma applied_transition_is_authorised_witness :
  exists j, revalidate_public_inputs start_item = Ok j.
Proof.
  destruct (applied_transition_is_authorised _ _ start_item_applies) as (j & Hj & _).
  exists j. exact Hj.
Defined.

Lemma unknown_effects_require_reconciliation_witness :
  v_run_state (unwrap empty_view (apply reconcile_run)) = Some R_RECONCILING /\
  exists j, revalidate_public_inputs reconcile_run = Ok j.
Proof.
  split; [vm_compute; reflexivity|].
  destruct (unknown_effects_require_reconciliation reconcile_run (unwrap empty_view (apply reconcile_run)))
    as (j & t & Hj & _); [vm_compute; reflexivity|]. exists j. exact Hj.
Defined.
