(* ===== verification/HarnessSession.v ===== *)
(** * The harness event store: market_agent/workflow_session.py

    Events and their validation, the fold of a run's hash-chained stream into a
    session view, and the transactional store with optimistic counters and
    fenced leases.  The digest functions ([sha256] over canonical JSON) and
    pydantic's treatment of JSON payloads are the section's parameters; the
    persisted [event_json] of a row is the event it parses to, if any. *)
From Stdlib Require Import QArith.
From stdpp Require Import pretty.
From S2P Require Import Prelude PyStrings PyDict PyRegex PyJson PyModel PyTime HarnessContracts HarnessStateMachine.
Local Open Scope string_scope.
Local Open Scope list_scope.
Local Open Scope Z_scope.

Definition EventIntegrityError (msg : string) : exn := Exn "EventIntegrityError" msg.
Definition OptimisticConcurrencyError (msg : string) : exn := Exn "OptimisticConcurrencyError" msg.
Definition LeaseConflictError (msg : string) : exn := Exn "LeaseConflictError" msg.

(** ** Events *)
Definition SENSITIVE_KEY_MARKERS : list string :=
  ["authorization"; "cookie"; "credential"; "fencingtoken"; "password"; "privatekey";
   "secret"; "apikey"; "accesstoken"; "refreshtoken"].
(** [re.sub(r"[^a-z0-9]+", "", str(key).casefold())] *)
Definition compact_key (key : string) : string :=
  string_of_list_ascii
    (List.filter (fun c => is_lower c || is_digit c) (list_ascii_of_string (lower key))).
Definition sensitive_key (key : string) : bool :=
  existsb (fun marker => contains marker (compact_key key)) SENSITIVE_KEY_MARKERS.
(** [_reject_sensitive_payload] *)
Fixpoint reject_sensitive_payload (value : Json) : result unit :=
  match value with
  | JObject fields =>
      (fix items fields := match fields with
       | [] => Ok tt
       | (key, item) :: fields =>
           _ ← raise_when (sensitive_key key)
                 (ValueError "harness event payload contains a sensitive key");
           _ ← reject_sensitive_payload item;
           items fields
       end) fields
  | JList l =>
      (fix items l := match l with
       | [] => Ok tt
       | item :: l => _ ← reject_sensitive_payload item; items l
       end) l
  | JStr s => raise_when (search SENSITIVE_VALUE s)
                (ValueError "harness event payload contains a sensitive value")
  | _ => Ok tt
  end.
(** [_reject_sensitive_values] on the strings of a model's dump. *)
Definition reject_sensitive_texts (values : list string) : result unit :=
  raise_when (existsb (search SENSITIVE_VALUE) values)
    (ValueError "harness event contains a sensitive value").

(** An authority field is [None] when it was never set, [Some None] when it was
    set to [None]: the distinction [model_fields_set] keeps. *)
Record HarnessEvent := {
  ev_schema_version : string; ev_event_id : string; ev_trace_id : string; ev_span_id : string;
  ev_parent_span_id : option string; ev_run_id : string;
  ev_work_item_id : option string; ev_attempt_id : option string;
  ev_sequence : Z; ev_state_revision : Z; ev_event_type : string;
  ev_occurred_at : datetime; ev_monotonic_offset : Q; ev_actor : string;
  ev_payload : list (string * Json);
  ev_transition : option HarnessTransition;
  ev_transition_authority : option (option TransitionAuthorityRecord);
  ev_attempt_ownership : option (option AttemptWorkItemOwnershipRecord);
  ev_reconciliation_resolution : option (option ReconciliationResolutionRecord);
  ev_previous_event_hash : option string; ev_event_hash : option string }.

(** [model_copy(update=...)] on the counters and hashes, and on the hash alone. *)
Definition with_counters (e : HarnessEvent) (seq rev : Z) (prev hash : option string) : HarnessEvent :=
  {| ev_schema_version := ev_schema_version e; ev_event_id := ev_event_id e;
     ev_trace_id := ev_trace_id e; ev_span_id := ev_span_id e;
     ev_parent_span_id := ev_parent_span_id e; ev_run_id := ev_run_id e;
     ev_work_item_id := ev_work_item_id e; ev_attempt_id := ev_attempt_id e;
     ev_sequence := seq; ev_state_revision := rev; ev_event_type := ev_event_type e;
     ev_occurred_at := ev_occurred_at e; ev_monotonic_offset := ev_monotonic_offset e;
     ev_actor := ev_actor e; ev_payload := ev_payload e; ev_transition := ev_transition e;
     ev_transition_authority := ev_transition_authority e;
     ev_attempt_ownership := ev_attempt_ownership e;
     ev_reconciliation_resolution := ev_reconciliation_resolution e;
     ev_previous_event_hash := prev; ev_event_hash := hash |}.
Definition with_hash (e : HarnessEvent) (hash : option string) : HarnessEvent :=
  with_counters e (ev_sequence e) (ev_state_revision e) (ev_previous_event_hash e) hash.

Definition authority_of (e : HarnessEvent) : option TransitionAuthorityRecord :=
  default None (ev_transition_authority e).
Definition ownership_of (e : HarnessEvent) : option AttemptWorkItemOwnershipRecord :=
  default None (ev_attempt_ownership e).
Definition resolution_of (e : HarnessEvent) : option ReconciliationResolutionRecord :=
  default None (ev_reconciliation_resolution e).

Definition clean_version : cleaner string := fun s =>
  if bool_decide (s = "v1") then Ok s else Raise (ValidationError "schema version").
#[export] Instance clean_version_idem : Idem clean_version.
Proof. intros x y. unfold clean_version. case_bool_decide as Hb; [|done]. intros [= <-]. by rewrite bool_decide_eq_true_2. Qed.
(** [require_utc] *)
Definition require_utc : cleaner datetime := fun d =>
  if is_utc d then Ok d else Raise (ValueError "harness event timestamps must be UTC").
#[export] Instance require_utc_idem : Idem require_utc.
Proof. intros x y. unfold require_utc. split_if; [|done]. intros [= <-]. by rewrite Heqb. Qed.

(** [validate_transition_identity] *)
Definition authority_event_types : list string :=
  ["transition_authorized"; "attempt_ownership_recorded"; "reconciliation_resolved"].
Definition event_texts (e : HarnessEvent) : list string :=
  [ev_event_id e; ev_trace_id e; ev_span_id e] ++ opt_list (ev_parent_span_id e) ++
  [ev_run_id e] ++ opt_list (ev_work_item_id e) ++ opt_list (ev_attempt_id e) ++
  [ev_event_type e; ev_actor e].
Definition authority_identities (e : HarnessEvent) : list (string * (string * string)) :=
  opt_list ((fun r => ("transition_authorized", (ta_run_id r, ta_trace_id r))) <$> authority_of e) ++
  opt_list ((fun r => ("attempt_ownership_recorded", (ow_run_id r, ow_trace_id r))) <$> ownership_of e) ++
  opt_list ((fun r => ("reconciliation_resolved", (rr_run_id r, rr_trace_id r))) <$> resolution_of e).
Definition validate_transition_identity (e : HarnessEvent) : result unit :=
  let authorities := authority_identities e in
  _ ← reject_sensitive_payload (JObject (ev_payload e));
  _ ← match ev_transition e with
      | Some t => reject_sensitive_texts (transition_strings t) | None => Ok tt end;
  _ ← match authority_of e with
      | Some r => reject_sensitive_texts (authority_strings r) | None => Ok tt end;
  _ ← match ownership_of e with
      | Some r => reject_sensitive_texts (ownership_strings r) | None => Ok tt end;
  _ ← match resolution_of e with
      | Some r => reject_sensitive_texts (resolution_record_strings r) | None => Ok tt end;
  _ ← reject_sensitive_texts (event_texts e);
  _ ← raise_when (1 <? Z.of_nat (length authorities))
        (ValueError "harness authority event must carry one record");
  if bool_decide (ev_event_type e ∈ authority_event_types) then
    match dict_get authorities (ev_event_type e) with
    | None => Raise (ValueError "reserved harness authority event requires its corresponding record")
    | Some (run_id, trace_id) =>
        _ ← raise_when (is_Some_b (ev_transition e))
              (ValueError "harness authority event cannot carry a transition");
        check (bool_decide (run_id = ev_run_id e) && bool_decide (trace_id = ev_trace_id e))
          (ValueError "harness authority identity must match the event")
    end
  else if negb (bool_decide (authorities = [])) then
    _ ← raise_when (is_Some_b (ev_transition e))
          (ValueError "harness authority event cannot carry a transition");
    Raise (ValueError "harness authority event type is not allowlisted")
  else match ev_transition e with
  | None => Ok tt
  | Some t =>
      _ ← check (bool_decide (tr_run_id t = ev_run_id e) && bool_decide (tr_trace_id t = ev_trace_id e))
            (ValueError "event and transition identity must match");
      match tr_entity_kind t with
      | E_run => check (bool_decide (tr_entity_id t = ev_run_id e))
                   (ValueError "run transition entity must match the event run")
      | E_work_item => check (bool_decide (ev_work_item_id e = Some (tr_entity_id t)))
                   (ValueError "work-item transition entity must match the event")
      | E_attempt => check (bool_decide (ev_attempt_id e = Some (tr_entity_id t)))
                   (ValueError "attempt transition entity must match the event")
      end
  end.

Section Session.
(** Third-party behaviour the module relies on: pydantic's cleaning of a JSON
    payload, [sha256] of a text, and [sha256] of the canonical rendering of an
    event without its [event_hash]. *)
Context (clean_payload : cleaner (list (string * Json)))
        (sha256_hex : string -> string)
        (canonical_event_hash : HarnessEvent -> string).

Definition clean_event : cleaner HarnessEvent := fun e =>
  version ← clean_version (ev_schema_version e);
  event_id ← ShortText (ev_event_id e);
  trace ← ShortText (ev_trace_id e);
  span ← ShortText (ev_span_id e);
  parent ← optional ShortText (ev_parent_span_id e);
  run ← ShortText (ev_run_id e);
  item ← optional ShortText (ev_work_item_id e);
  attempt ← optional ShortText (ev_attempt_id e);
  seq ← NonNegativeInt (ev_sequence e);
  rev ← NonNegativeInt (ev_state_revision e);
  type ← ShortText (ev_event_type e);
  at_ ← require_utc (ev_occurred_at e);
  offset ← NonNegativeFinite (ev_monotonic_offset e);
  actor ← ShortText (ev_actor e);
  payload ← clean_payload (ev_payload e);
  transition ← optional validate_transition (ev_transition e);
  authority ← optional (optional validate_authority) (ev_transition_authority e);
  ownership ← optional (optional validate_ownership) (ev_attempt_ownership e);
  resolution ← optional (optional validate_resolution_record) (ev_reconciliation_resolution e);
  previous ← optional Digest (ev_previous_event_hash e);
  hash ← optional Digest (ev_event_hash e);
  Ok {| ev_schema_version := version; ev_event_id := event_id; ev_trace_id := trace;
        ev_span_id := span; ev_parent_span_id := parent; ev_run_id := run;
        ev_work_item_id := item; ev_attempt_id := attempt; ev_sequence := seq;
        ev_state_revision := rev; ev_event_type := type; ev_occurred_at := at_;
        ev_monotonic_offset := offset; ev_actor := actor; ev_payload := payload;
        ev_transition := transition; ev_transition_authority := authority;
        ev_attempt_ownership := ownership; ev_reconciliation_resolution := resolution;
        ev_previous_event_hash := previous; ev_event_hash := hash |}.
Definition model_validate_event : cleaner HarnessEvent :=
  model clean_event validate_transition_identity.
(** [_validated_event] *)
Definition validated_event : cleaner HarnessEvent := fun e =>
  except_as (model_validate_event e)
    (EventIntegrityError "schema mismatch or invalid harness event").

(** ** Folding a stream *)
(** [_event_hash_values] *)
Definition event_hash_values (e : HarnessEvent) : HarnessEvent := with_hash e None.

(** [_validated_view] *)
Definition validated_view (v : HarnessSessionView) : result HarnessSessionView :=
  except_as (validate_view v) (EventIntegrityError "invalid or conflicting folded authority").

(** [event.payload.get(key)], with JSON's [null] as [None]. *)
Definition payload_get (e : HarnessEvent) (key : string) : option Json :=
  match dict_get (ev_payload e) key with Some JNull | None => None | Some value => Some value end.
Definition is_text (value : Json) (text : string) : bool :=
  match value with JStr s => String.eqb s text | _ => false end.
(** A digest the payload may pin: unchanged when absent, refused when it differs
    from the one already folded. *)
Definition pinned_digest (current : option string) (found : option Json) (e : exn) : result (option Json) :=
  match found with
  | None => Ok (JStr <$> current)
  | Some value =>
      match current with
      | Some digest => if is_text value digest then Ok (Some value) else Raise e
      | None => Ok (Some value)
      end
  end.
(** The strict [Digest | None] field rejects every value but a string. *)
Definition digest_field (value : option Json) : result (option string) :=
  match value with
  | None => Ok None
  | Some (JStr s) => Ok (Some s)
  | Some _ => Raise (ValidationError "string type")
  end.

(** [_replace_state] is [set_and_sort]; the new state of the named entity. *)
Definition folded_states (v : HarnessSessionView) (t : HarnessTransition) : result HarnessSessionView :=
  match tr_entity_kind t with
  | E_run =>
      _ ← check (bool_decide (tr_from_state t = current_value run_state_value (v_run_state v)))
            (EventIntegrityError "run transition source does not match replay state");
      match run_state_of (tr_to_state t) with
      | None => Raise (EventIntegrityError "unknown run state in transition")
      | Some s => Ok (set_states v (Some s) (v_work_item_states v) (v_attempt_states v)
                        (v_external_side_effect_unknown v))
      end
  | E_work_item =>
      _ ← check (bool_decide (tr_from_state t = current_value work_item_state_value
                   (dict_get (dict_of (v_work_item_states v)) (tr_entity_id t))))
            (EventIntegrityError "work-item transition source does not match replay state");
      match work_item_state_of (tr_to_state t) with
      | None => Raise (EventIntegrityError "unknown work-item state in transition")
      | Some s => Ok (set_states v (v_run_state v)
                        (set_and_sort (v_work_item_states v) (tr_entity_id t) s)
                        (v_attempt_states v) (v_external_side_effect_unknown v))
      end
  | E_attempt =>
      _ ← check (bool_decide (tr_from_state t = current_value attempt_state_value
                   (dict_get (dict_of (v_attempt_states v)) (tr_entity_id t))))
            (EventIntegrityError "attempt transition source does not match replay state");
      match attempt_state_of (tr_to_state t) with
      | None => Raise (EventIntegrityError "unknown attempt state in transition")
      | Some s => Ok (set_states v (v_run_state v) (v_work_item_states v)
                        (set_and_sort (v_attempt_states v) (tr_entity_id t) s)
                        (v_external_side_effect_unknown v))
      end
  end.

Definition apply_transition_event (v : HarnessSessionView) (e : HarnessEvent) (t : HarnessTransition)
    (run_id trace_id : string) : result HarnessSessionView :=
  _ ← check (tr_expected_state_revision t =? v_state_revision v)
        (EventIntegrityError "transition expected state revision is stale");
  _ ← check (ev_state_revision e =? v_state_revision v + 1)
        (EventIntegrityError "transition did not advance state revision");
  _ ← check (tr_plan_revision t =? v_plan_revision v)
        (EventIntegrityError "transition plan revision differs from active plan revision");
  _ ← check (bool_decide (tr_run_id t = run_id) && bool_decide (tr_trace_id t = trace_id))
        (EventIntegrityError "transition identity changed during replay");
  request ← pinned_digest (v_request_digest v) (payload_get e "request_digest")
              (EventIntegrityError "workflow request digest changed during replay");
  prompt ← pinned_digest (v_prompt_release_digest v) (payload_get e "prompt_release_digest")
              (EventIntegrityError "workflow prompt digest changed during replay");
  accepted ← pinned_digest (v_accepted_result_digest v) (payload_get e "accepted_result_digest")
              (EventIntegrityError "accepted workflow result digest changed during replay");
  _ ← raise_when (bool_decide (tr_idempotency_key t ∈ v_applied_idempotency_keys v))
        (EventIntegrityError "duplicate transition idempotency key");
  states ← folded_states v t;
  except_as
    (request ← digest_field request;
     prompt ← digest_field prompt;
     accepted ← digest_field accepted;
     validate_view
       (set_digests
         (set_revisions
           (set_cursor states (ev_sequence e) (Some run_id) (Some trace_id) (ev_event_hash e))
           (ev_state_revision e) (tr_plan_revision t) (tr_idempotency_key t))
         request prompt accepted))
    (EventIntegrityError "committed event produces an invalid session view").

(** [_apply_committed_event] *)
Definition apply_committed_event (v : HarnessSessionView) (e : HarnessEvent) : result HarnessSessionView :=
  identity ← match v_run_id v with
    | None => Ok (ev_run_id e, ev_trace_id e)
    | Some run_id =>
        _ ← check (bool_decide (ev_run_id e = run_id))
              (EventIntegrityError "run identity changed during replay");
        _ ← check (bool_decide (Some (ev_trace_id e) = v_trace_id v))
              (EventIntegrityError "trace identity changed during replay");
        Ok (run_id, ev_trace_id e)
    end;
  let moved := set_cursor v (ev_sequence e) (Some identity.1) (Some identity.2) (ev_event_hash e) in
  match authority_of e, ownership_of e, resolution_of e, ev_transition e with
  | Some record, _, _, _ =>
      validated_view (set_evidence moved (v_transition_authorities v ++ [record])
                        (v_attempt_work_item_owners v) (v_reconciliation_resolutions v))
  | None, Some record, _, _ =>
      validated_view (set_evidence moved (v_transition_authorities v)
                        (v_attempt_work_item_owners v ++ [record]) (v_reconciliation_resolutions v))
  | None, None, Some record, _ =>
      validated_view (set_evidence moved (v_transition_authorities v)
                        (v_attempt_work_item_owners v) (v_reconciliation_resolutions v ++ [record]))
  | None, None, None, None =>
      _ ← check (ev_state_revision e =? v_state_revision v)
            (EventIntegrityError "non-transition changed state revision");
      Ok moved
  | None, None, None, Some t => apply_transition_event v e t identity.1 identity.2
  end.

(** One iteration of [fold_events], at the position its event must have. *)
Definition fold_event (v : HarnessSessionView) (expected_sequence : Z) (candidate : HarnessEvent)
    : result HarnessSessionView :=
  _ ← check (bool_decide (ev_schema_version candidate = "v1"))
        (EventIntegrityError "schema version mismatch");
  _ ← check (ev_sequence candidate =? expected_sequence)
        (EventIntegrityError "non-contiguous run sequence");
  _ ← raise_when (is_Some_b (v_run_id v) && negb (bool_decide (Some (ev_run_id candidate) = v_run_id v)))
        (EventIntegrityError "run identity changed during replay");
  _ ← raise_when (is_Some_b (v_trace_id v) && negb (bool_decide (Some (ev_trace_id candidate) = v_trace_id v)))
        (EventIntegrityError "trace identity changed during replay");
  e ← validated_event candidate;
  _ ← check (bool_decide (ev_previous_event_hash e = v_last_event_hash v))
        (EventIntegrityError "invalid previous event hash link");
  _ ← check (is_Some_b (ev_event_hash e)) (EventIntegrityError "committed event hash is missing");
  _ ← check (bool_decide (Some (canonical_event_hash (event_hash_values e)) = ev_event_hash e))
        (EventIntegrityError "event hash does not match canonical content");
  apply_committed_event v e.
Fixpoint fold_from (v : HarnessSessionView) (expected_sequence : Z) (events : list HarnessEvent)
    : result HarnessSessionView :=
  match events with
  | [] => Ok v
  | e :: events => v ← fold_event v expected_sequence e; fold_from v (expected_sequence + 1) events
  end.
Definition fold_events : list HarnessEvent -> result HarnessSessionView := fold_from empty_view 1.

(** ** The store

    A row of [harness_events] carries the columns and the event its [event_json]
    parses to, if it parses. *)
Record EventRow := {
  er_event_id : string; er_run_id : string; er_trace_id : string; er_sequence : Z;
  er_state_revision : Z; er_event_hash : option string; er_previous_event_hash : option string;
  er_event_json : option HarnessEvent }.
Record RunRow := {
  ru_trace_id : string; ru_sequence : Z; ru_state_revision : Z; ru_last_event_hash : option string }.
Record LeaseRow := {
  le_attempt_id : string; le_lease_epoch : Z; le_fencing_token_digest : string;
  le_holder_id : string; le_expires_at_monotonic : Q }.
Record OutboxRow := { ob_event_id : string; ob_run_id : string; ob_sequence : Z; ob_event_json : HarnessEvent }.
Record Store := {
  harness_runs : gmap string RunRow;
  harness_events : list EventRow;
  harness_outbox : list OutboxRow;
  harness_leases : gmap (string * string) LeaseRow }.
Definition empty_store : Store :=
  {| harness_runs := ∅; harness_events := []; harness_outbox := []; harness_leases := ∅ |}.

(** [ORDER BY sequence] *)
Fixpoint insert_row (r : EventRow) (rows : list EventRow) : list EventRow :=
  match rows with
  | [] => [r]
  | r' :: rows => if er_sequence r <=? er_sequence r' then r :: r' :: rows else r' :: insert_row r rows
  end.
Definition order_rows (rows : list EventRow) : list EventRow := foldr insert_row [] rows.
Definition rows_of (st : Store) (run_id : string) : list EventRow :=
  order_rows (List.filter (fun r => String.eqb (er_run_id r) run_id) (harness_events st)).

Definition row_event (r : EventRow) : result HarnessEvent :=
  match er_event_json r with
  | None => Raise (ValidationError "invalid JSON")
  | Some e => model_validate_event e
  end.
Definition row_matches (run_id : string) (r : EventRow) (e : HarnessEvent) : bool :=
  bool_decide (er_run_id r = run_id) && bool_decide (ev_event_id e = er_event_id r) &&
  bool_decide (ev_run_id e = er_run_id r) && bool_decide (ev_trace_id e = er_trace_id r) &&
  (ev_sequence e =? er_sequence r) && (ev_state_revision e =? er_state_revision r) &&
  bool_decide (ev_event_hash e = er_event_hash r) &&
  bool_decide (ev_previous_event_hash e = er_previous_event_hash r).
(** [_load_in_transaction] *)
Definition load (st : Store) (run_id : string) : result (list HarnessEvent) :=
  let rows := rows_of st run_id in
  events ← except_as (mapM row_event rows) (EventIntegrityError "persisted harness event is invalid");
  _ ← check (forallb (fun re => row_matches run_id re.1 re.2) (zip rows events))
        (EventIntegrityError "persisted event JSON does not match row membership");
  Ok events.
Definition snapshot (st : Store) (run_id : string) : result HarnessSessionView :=
  events ← load st run_id; fold_events events.

(** A reading of the monotonic clock; [None] when it is not a finite number. *)
Definition clock_valid (now : option Q) : bool :=
  match now with Some q => Qle_bool 0 q | None => false end.
Definition clock_reading (now : option Q) : Q := default 0%Q now.

(** [_validate_lease_authorization] *)
Definition validate_lease_authorization (st : Store) (e : HarnessEvent) (lease : option LeaseToken)
    (now : option Q) : result unit :=
  match ev_transition e with
  | None => raise_when (is_Some_b lease) (LeaseConflictError "non-transition cannot carry lease proof")
  | Some t =>
      if bool_decide (tr_entity_kind t = E_run)
      then raise_when (is_Some_b lease) (LeaseConflictError "run transition cannot carry lease proof")
      else match lease with
      | None => Raise (LeaseConflictError "work transition requires out-of-band lease proof")
      | Some lease =>
          lease ← except_as (validate_lease lease)
                    (LeaseConflictError "lease proof violates its strict contract");
          match ev_work_item_id e, ev_attempt_id e with
          | Some work_item_id, Some attempt_id =>
              _ ← check (bool_decide (lt_run_id lease = ev_run_id e) &&
                         bool_decide (lt_work_item_id lease = work_item_id) &&
                         bool_decide (lt_attempt_id lease = attempt_id))
                    (LeaseConflictError "lease proof identity does not match event");
              let digest := sha256_hex (lt_fencing_token lease) in
              _ ← check (bool_decide (tr_lease_epoch t = Some (lt_lease_epoch lease)) &&
                         bool_decide (tr_fencing_token_digest t = Some digest))
                    (LeaseConflictError "lease proof does not match durable evidence");
              _ ← check (match harness_leases st !! (ev_run_id e, work_item_id) with
                         | None => false
                         | Some row =>
                             bool_decide (le_attempt_id row = lt_attempt_id lease) &&
                             (le_lease_epoch row =? lt_lease_epoch lease) &&
                             bool_decide (le_fencing_token_digest row = digest) &&
                             bool_decide (le_holder_id row = lt_holder_id lease) &&
                             Qeq_bool (le_expires_at_monotonic row) (lt_expires_at_monotonic lease)
                         end)
                    (LeaseConflictError "stale lease identity, epoch, or fencing token");
              _ ← check (clock_valid now)
                    (LeaseConflictError "monotonic clock returned an invalid point");
              raise_when (Qle_bool (lt_expires_at_monotonic lease) (clock_reading now))
                (LeaseConflictError "lease proof is expired")
          | _, _ => Raise (LeaseConflictError "lease proof requires work and attempt identity")
          end
      end
  end.

(** The row of the event's run, inserted by its first append. *)
Definition run_row (st : Store) (e : HarnessEvent) : RunRow :=
  default {| ru_trace_id := ev_trace_id e; ru_sequence := 0; ru_state_revision := 0;
             ru_last_event_hash := None |} (harness_runs st !! ev_run_id e).
Definition event_row (e : HarnessEvent) : EventRow :=
  {| er_event_id := ev_event_id e; er_run_id := ev_run_id e; er_trace_id := ev_trace_id e;
     er_sequence := ev_sequence e; er_state_revision := ev_state_revision e;
     er_event_hash := ev_event_hash e; er_previous_event_hash := ev_previous_event_hash e;
     er_event_json := Some e |}.

(** [SQLiteHarnessEventStore.append]: its transaction commits the returned store,
    and rolls back to the given one when it raises. *)
Definition append (st : Store) (event : HarnessEvent) (expected_sequence expected_state_revision : Z)
    (lease : option LeaseToken) (now : option Q) : result (HarnessEvent * Store) :=
  event ← validated_event event;
  _ ← check ((ev_sequence event =? 0) && (ev_state_revision event =? 0) &&
             negb (is_Some_b (ev_previous_event_hash event)) && negb (is_Some_b (ev_event_hash event)))
        (ValueError "event counters and hashes are assigned by the store");
  _ ← check ((0 <=? expected_sequence) && (0 <=? expected_state_revision))
        (ValueError "expected counters must be nonnegative integers");
  let row := run_row st event in
  _ ← check (bool_decide (ru_trace_id row = ev_trace_id event))
        (EventIntegrityError "trace identity changed within run");
  _ ← check ((ru_sequence row =? expected_sequence) && (ru_state_revision row =? expected_state_revision))
        (OptimisticConcurrencyError "run sequence or state revision changed");
  next_revision ← match ev_transition event with
    | Some t =>
        _ ← check (tr_expected_state_revision t =? ru_state_revision row)
              (OptimisticConcurrencyError "transition expected state revision changed");
        Ok (ru_state_revision row + 1)
    | None => Ok (ru_state_revision row)
    end;
  _ ← validate_lease_authorization st event lease now;
  let copied := with_counters event (ru_sequence row + 1) next_revision (ru_last_event_hash row)
                  (ev_event_hash event) in
  committed ← validated_event (with_hash copied (Some (canonical_event_hash (event_hash_values copied))));
  prior_events ← load st (ev_run_id event);
  _ ← fold_events (prior_events ++ [committed]);
  _ ← raise_when (existsb (fun r => String.eqb (er_event_id r) (ev_event_id committed) ||
                            (String.eqb (er_run_id r) (ev_run_id committed) &&
                             (er_sequence r =? ev_sequence committed))) (harness_events st))
        (OptimisticConcurrencyError "append-only event commit raced with another writer");
  _ ← raise_when (existsb (fun r => String.eqb (ob_event_id r) (ev_event_id committed)) (harness_outbox st))
        (Exn "IntegrityError" "UNIQUE constraint failed: harness_outbox.event_id");
  Ok (committed,
    {| harness_runs := <[ev_run_id committed :=
           {| ru_trace_id := ru_trace_id row; ru_sequence := ev_sequence committed;
              ru_state_revision := ev_state_revision committed;
              ru_last_event_hash := ev_event_hash committed |}]> (harness_runs st);
       harness_events := harness_events st ++ [event_row committed];
       harness_outbox := harness_outbox st ++
         [{| ob_event_id := ev_event_id committed; ob_run_id := ev_run_id committed;
             ob_sequence := ev_sequence committed; ob_event_json := committed |}];
       harness_leases := harness_leases st |}).

(** [acquire_lease]; [token_hex] is what [secrets.token_hex(16)] returned. *)
Definition acquire_lease (st : Store) (run_id work_item_id attempt_id holder_id : string)
    (expires_at_monotonic : Q) (expected_lease_epoch : Z) (token_hex : string)
    : result (LeaseToken * Store) :=
  _ ← check (0 <=? expected_lease_epoch)
        (ValueError "expected lease epoch must be a nonnegative integer");
  _ ← check (is_Some_b (harness_runs st !! run_id))
        (EventIntegrityError "cannot lease work for an unknown run");
  let current_epoch := match harness_leases st !! (run_id, work_item_id) with
                       | None => 0 | Some row => le_lease_epoch row end in
  _ ← check (current_epoch =? expected_lease_epoch) (LeaseConflictError "lease epoch changed");
  let next_epoch := current_epoch + 1 in
  lease ← validate_lease
    {| lt_run_id := run_id; lt_work_item_id := work_item_id; lt_attempt_id := attempt_id;
       lt_lease_epoch := next_epoch;
       lt_fencing_token := "fence-" +:+ pretty next_epoch +:+ "-" +:+ token_hex;
       lt_holder_id := holder_id; lt_expires_at_monotonic := expires_at_monotonic |};
  _ ← check (is_Some_b (harness_runs st !! lt_run_id lease))
        (Exn "IntegrityError" "FOREIGN KEY constraint failed");
  Ok (lease,
    {| harness_runs := harness_runs st; harness_events := harness_events st;
       harness_outbox := harness_outbox st;
       harness_leases := <[(lt_run_id lease, lt_work_item_id lease) :=
         {| le_attempt_id := lt_attempt_id lease; le_lease_epoch := lt_lease_epoch lease;
            le_fencing_token_digest := sha256_hex (lt_fencing_token lease);
            le_holder_id := lt_holder_id lease;
            le_expires_at_monotonic := lt_expires_at_monotonic lease |}]> (harness_leases st) |}).

(** ** Lemmas on events *)
Context `{Hpayload : !Idem clean_payload}.

#[local] Instance clean_event_idem : Idem clean_event.
Proof. solve_fields_idem. Qed.
#[local] Instance model_validate_event_idem : Idem model_validate_event.
Proof. apply _. Qed.

Lemma validated_event_Ok e e' : validated_event e = Ok e' <-> model_validate_event e = Ok e'.
Proof. apply except_as_Ok. Qed.

(** Re-validating a clean event with new counters keeps everything else. *)
Lemma recounted_event e s r p h e' :
  model_validate_event e = Ok e -> model_validate_event (with_counters e s r p h) = Ok e' ->
  e' = with_counters e s r (ev_previous_event_hash e') (ev_event_hash e').
Proof.
  unfold model_validate_event. rewrite !model_Ok. intros [He _] [He' _].
  unfold clean_event in *. inv_ok He. inv_ok He'. destruct e. simpl in *.
  repeat match goal with
  | H1 : ?f ?x = Ok ?a, H2 : ?f ?x = Ok ?b |- _ => rewrite H1 in H2; injection H2 as <-
  | H : NonNegativeInt _ = Ok _ |- _ => apply NonNegativeInt_fix in H as [_ ->]
  end.
  injection He as -> -> -> -> -> -> -> -> -> -> -> -> -> -> -> -> -> -> ->.
  subst e'. reflexivity.
Qed.

Lemma authority_event_identity e :
  validate_transition_identity e = Ok tt ->
  authority_of e <> None \/ ownership_of e <> None \/ resolution_of e <> None -> ev_transition e = None.
Proof.
  unfold validate_transition_identity, authority_identities. intros H Hs. inv_ok H. clear Hok Hok0 Hok1 Hok2 Hok3 Hok4 Hok5.
  destruct (ev_transition e) as [t|]; [exfalso|done].
  case_bool_decide; [|by destruct (authority_of e), (ownership_of e), (resolution_of e); naive_solver].
  by destruct (dict_get _ _) as [[]|].
Qed.

Lemma transition_event_identity e t :
  validate_transition_identity e = Ok tt -> ev_transition e = Some t ->
  tr_run_id t = ev_run_id e /\ tr_trace_id t = ev_trace_id e /\
  authority_of e = None /\ ownership_of e = None /\ resolution_of e = None.
Proof.
  intros H Ht. pose proof (authority_event_identity e H) as Hau. rewrite Ht in Hau.
  assert (Hno : authority_of e = None /\ ownership_of e = None /\ resolution_of e = None).
  { destruct (authority_of e), (ownership_of e), (resolution_of e); try done; exfalso;
      (assert (Some t = None) by (apply Hau; naive_solver)); done. }
  destruct Hno as (H1 & H2 & H3). unfold validate_transition_identity, authority_identities in H.
  rewrite H1, H2, H3, Ht in H. inv_ok H. clear Hok Hok0 Hok1 Hok2 Hok3 Hok4 Hok5.
  case_bool_decide; [done|]. simpl in H. inv_ok H. inv_checks. by to_prop.
Qed.

(** ** Lemmas on the fold *)
Lemma fold_from_snoc l v n e :
  fold_from v n (l ++ [e]) = v' ← fold_from v n l; fold_event v' (n + Z.of_nat (length l)) e.
Proof.
  revert v n. induction l as [|x l IH]; intros v n; simpl.
  - rewrite Z.add_0_r. by destruct (fold_event v n e).
  - destruct (fold_event v n x); [|done]. simpl. rewrite IH. do 2 f_equal.
    replace (n + 1 + Z.of_nat (length l)) with (n + Z.of_nat (S (length l))) by lia. done.
Qed.

Record event_clean (e : HarnessEvent) : Prop := {
  ec_version : ev_schema_version e = "v1";
  ec_run_id : ShortText (ev_run_id e) = Ok (ev_run_id e);
  ec_trace_id : ShortText (ev_trace_id e) = Ok (ev_trace_id e);
  ec_hash : optional Digest (ev_event_hash e) = Ok (ev_event_hash e);
  ec_authority : optional (optional validate_authority) (ev_transition_authority e) =
                 Ok (ev_transition_authority e);
  ec_transition : optional validate_transition (ev_transition e) = Ok (ev_transition e);
  ec_identity : validate_transition_identity e = Ok tt }.
Lemma event_clean_fix e : model_validate_event e = Ok e -> event_clean e.
Proof.
  unfold model_validate_event. rewrite model_Ok. intros [He Hv].
  unfold clean_event in He. inv_ok He. destruct e. simpl in *.
  injection He as -> -> -> -> -> -> -> -> -> -> -> -> -> -> -> -> -> -> -> -> ->.
  constructor; simpl; try done. unfold clean_version in *. by case_bool_decide.
Qed.

Lemma validate_view_cursor x v :
  validate_view x = Ok v ->
  v_sequence v = v_sequence x /\ v_state_revision v = v_state_revision x /\
  optional ShortText (v_run_id x) = Ok (v_run_id v) /\
  optional ShortText (v_trace_id x) = Ok (v_trace_id v) /\
  optional Digest (v_last_event_hash x) = Ok (v_last_event_hash v) /\
  v_external_side_effect_unknown v = v_external_side_effect_unknown x.
Proof.
  unfold validate_view. rewrite model_Ok. intros [H _]. unfold clean_view in H. inv_ok H. subst v. simpl.
  repeat match goal with H : NonNegativeInt _ = Ok _ |- _ => apply NonNegativeInt_fix in H as [_ ->] end.
  done.
Qed.

Lemma folded_states_keeps v t u :
  folded_states v t = Ok u ->
  v_sequence u = v_sequence v /\ v_state_revision u = v_state_revision v /\
  v_external_side_effect_unknown u = v_external_side_effect_unknown v.
Proof.
  unfold folded_states. intros H. destruct (tr_entity_kind t); inv_ok H; walk H; by injection H as <-.
Qed.

(** Folding one committed event moves the cursor to it; only a transition moves
    the state revision, by one. *)
Lemma apply_committed_cursor v e v' :
  apply_committed_event v e = Ok v' -> event_clean e ->
  v_sequence v' = ev_sequence e /\ v_last_event_hash v' = ev_event_hash e /\
  v_run_id v' = Some (ev_run_id e) /\ v_trace_id v' = Some (ev_trace_id e) /\
  v_state_revision v' = (if is_Some_b (ev_transition e) then ev_state_revision e else v_state_revision v) /\
  (is_Some_b (ev_transition e) = true -> ev_state_revision e = v_state_revision v + 1) /\
  v_external_side_effect_unknown v' = v_external_side_effect_unknown v.
Proof.
  unfold apply_committed_event. intros H []. inv_ok H.
  assert (a = (ev_run_id e, ev_trace_id e)) as ->.
  { destruct (v_run_id v); [|by inv_ok Hok]. inv_ok Hok. inv_checks. to_prop. by subst. }
  assert (Hcursor : forall x u, validated_view x = Ok u ->
    v_run_id x = Some (ev_run_id e) -> v_trace_id x = Some (ev_trace_id e) ->
    v_last_event_hash x = ev_event_hash e -> v_sequence x = ev_sequence e ->
    v_sequence u = ev_sequence e /\ v_last_event_hash u = ev_event_hash e /\
    v_run_id u = Some (ev_run_id e) /\ v_trace_id u = Some (ev_trace_id e) /\
    v_state_revision u = v_state_revision x /\
    v_external_side_effect_unknown u = v_external_side_effect_unknown x).
  { intros x u Hx Hr Ht Hl Hs. unfold validated_view in Hx. apply except_as_Ok, validate_view_cursor in Hx.
    destruct Hx as (-> & -> & Hr' & Ht' & Hl' & ->). rewrite Hr in Hr'. rewrite Ht in Ht'. rewrite Hl in Hl'.
    simpl in Hr', Ht'. rewrite ec_run_id0 in Hr'. rewrite ec_trace_id0 in Ht'. simpl in Hr', Ht'.
    split_and!; congruence. }
  pose proof (authority_event_identity e ec_identity0) as Hauth.
  destruct (authority_of e) as [r1|]; [|destruct (ownership_of e) as [r2|]; [|destruct (resolution_of e) as [r3|]]].
  1-3: rewrite (Hauth ltac:(naive_solver)); apply Hcursor in H; try done;
       destruct H as (? & ? & ? & ? & ? & ?); split_and!; done.
  destruct (ev_transition e) as [t|] eqn:Et.
  - unfold apply_transition_event in H. inv_ok H. apply except_as_Ok in H. inv_ok H.
    apply folded_states_keeps in Hok8 as (Hx1 & Hx2 & Hx3).
    match goal with H : validate_view ?x = Ok v' |- _ =>
      destruct (Hcursor x v') as (? & ? & ? & ? & ? & ?); [by apply except_as_Ok|done..|] end.
    simpl in *. inv_checks. to_prop. split_and!; try done; congruence.
  - inv_ok H. inv_checks. subst v'. done.
Qed.

Lemma fold_event_Ok v n c v' :
  fold_event v n c = Ok v' ->
  exists e, model_validate_event c = Ok e /\ event_clean e /\ apply_committed_event v e = Ok v' /\
    ev_sequence c = n /\ ev_previous_event_hash e = v_last_event_hash v /\
    ev_event_hash e = Some (canonical_event_hash (event_hash_values e)).
Proof.
  unfold fold_event. intros H. inv_ok H. inv_checks. to_prop.
  match goal with H : validated_event _ = Ok ?a |- _ => apply validated_event_Ok in H; exists a end.
  split_and!; try done. by eapply event_clean_fix, model_validate_event_idem.
Qed.

(** A stream that folds and whose events are clean counts from one. *)
Lemma fold_from_sequences l : forall v n v',
  fold_from v n l = Ok v' ->
  Forall (fun e => n <= ev_sequence e < n + Z.of_nat (length l)) l.
Proof.
  induction l as [|e l IH]; intros v n v' H; [constructor|]. simpl in H. inv_ok H. constructor.
  - apply fold_event_Ok in Hok as (? & _ & _ & _ & Hs & _). simpl. lia.
  - apply IH in H. eapply Forall_impl; [done|]. simpl. lia.
Qed.

Lemma fold_from_cursor l : forall v n v',
  v_sequence v = n - 1 -> Forall (fun e => model_validate_event e = Ok e) l ->
  fold_from v n l = Ok v' -> v_sequence v' = n - 1 + Z.of_nat (length l).
Proof.
  induction l as [|e l IH]; intros v n v' Hv Hl H; simpl in *.
  { injection H as <-. lia. }
  inversion Hl as [|? ? He Hl']; subst. inv_ok H.
  apply fold_event_Ok in Hok as (e' & He' & Hc & Ha & Hs & _).
  rewrite He in He'. injection He' as <-. apply apply_committed_cursor in Ha as (Hva & _); [|done].
  apply IH in H; [lia|lia|done].
Qed.

(** Where a folded view's authorities and run state come from. *)
Definition run_moves_to (e : HarnessEvent) (r : RunState) : Prop :=
  exists t, ev_transition e = Some t /\ tr_entity_kind t = E_run /\ run_state_of (tr_to_state t) = Some r.
Lemma validate_view_authorities x v : validate_view x = Ok v ->
  tuple_of validate_authority (v_transition_authorities x) = Ok (v_transition_authorities v) /\ v_run_state v = v_run_state x.
Proof. unfold validate_view. rewrite model_Ok. intros [H _]. unfold clean_view in H. inv_ok H. by subst v. Qed.
Lemma clean_authorities l : Forall (fun a => validate_authority a = Ok a) l -> tuple_of validate_authority l = Ok l.
Proof. intros H. apply mapM_Ok. induction H; constructor; done. Qed.
Lemma apply_committed_source v e v' :
  apply_committed_event v e = Ok v' -> event_clean e -> Forall (fun a => validate_authority a = Ok a) (v_transition_authorities v) ->
  v_transition_authorities v' = v_transition_authorities v ++ opt_list (authority_of e) /\
  (v_run_state v' = v_run_state v \/ exists r, v_run_state v' = Some r /\ run_moves_to e r).
Proof.
  unfold apply_committed_event. intros H [] Hcl. inv_ok H. clear Hok.
  assert (Hrec : forall r, authority_of e = Some r -> validate_authority r = Ok r).
  { intros r Hr. unfold authority_of in Hr. destruct (ev_transition_authority e) as [[r'|]|]; [|done|done].
    injection Hr as ->. simpl in ec_authority0. by destruct (validate_authority r); [injection ec_authority0 as ->|]. }
  pose proof (authority_event_identity e ec_identity0) as Hauth.
  destruct (authority_of e) as [r1|] eqn:E1; [|destruct (ownership_of e) as [r2|]; [|destruct (resolution_of e) as [r3|]]].
  1-3: apply except_as_Ok, validate_view_authorities in H as [H ->]; simpl in H; split; [|by left].
  - rewrite clean_authorities in H; [by injection H as <-|]. apply Forall_app. split; [done|]. repeat constructor. by apply Hrec.
  - rewrite clean_authorities in H by done. injection H as <-. simpl. by rewrite app_nil_r.
  - rewrite clean_authorities in H by done. injection H as <-. simpl. by rewrite app_nil_r.
  - simpl. rewrite app_nil_r. destruct (ev_transition e) as [t|] eqn:Et; [|inv_ok H; subst v'; split; [done|by left]].
    unfold apply_transition_event in H. inv_ok H. apply except_as_Ok in H. inv_ok H.
    apply validate_view_authorities in H as [H ->]. unfold folded_states in Hok7.
    destruct (tr_entity_kind t) eqn:Ek; inv_ok Hok7;
      [destruct (run_state_of _) as [r|] eqn:Er|destruct (work_item_state_of _)|destruct (attempt_state_of _)]; try done;
      injection Hok7 as <-; simpl in *; (rewrite clean_authorities in H by done); injection H as <-; (split; [done|]); [|by left..].
    right. exists r. split; [done|]. by exists t.
Qed.
Lemma fold_from_source l : forall v n v',
  Forall (fun e => model_validate_event e = Ok e) l -> Forall (fun a => validate_authority a = Ok a) (v_transition_authorities v) ->
  fold_from v n l = Ok v' ->
  (forall a, a ∈ v_transition_authorities v' -> a ∈ v_transition_authorities v \/ exists e, e ∈ l /\ authority_of e = Some a) /\
  (v_run_state v' = v_run_state v \/ exists e r, e ∈ l /\ v_run_state v' = Some r /\ run_moves_to e r).
Proof.
  induction l as [|e l IH]; intros v n v' Hl Hv H; simpl in H; [injection H as <-; auto|].
  inversion Hl as [|? ? He Hl']; subst. inv_ok H. apply fold_event_Ok in Hok as (e' & He' & Hc & Ha & _).
  rewrite He in He'. injection He' as <-. pose proof (event_clean_fix e He) as Hec.
  apply apply_committed_source in Ha as [Hau Hst]; [|done|done].
  assert (Hclean : Forall (fun a => validate_authority a = Ok a) (v_transition_authorities a)).
  { rewrite Hau. apply Forall_app. split; [done|]. destruct (authority_of e) as [r|] eqn:E; simpl; repeat constructor.
    destruct Hec. unfold authority_of in E. destruct (ev_transition_authority e) as [[r'|]|]; [|done|done]. injection E as ->.
    simpl in ec_authority0. by destruct (validate_authority r); [injection ec_authority0 as ->|]. }
  destruct (IH a _ v' Hl' Hclean H) as [H1 H2]. split.
  - intros x [Hx|(e2 & ? & ?)]%H1; [|right; exists e2; split; [by right|done]]. rewrite Hau in Hx. apply elem_of_app in Hx as [Hx|Hx]; [by left|].
    right. exists e. split; [left|]. destruct (authority_of e); [|by apply not_elem_of_nil in Hx]. by apply list_elem_of_singleton in Hx as ->.
  - destruct H2 as [H2|(e2 & r & ? & ? & ?)]; [|right; exists e2, r; split; [by right|done]]. rewrite H2.
    destruct Hst as [->|(r & ? & ?)]; [by left|right]. exists e, r. split; [left|done].
Qed.

(** ** Lemmas on the store *)
Lemma order_rows_snoc rows r :
  Forall (fun x => er_sequence x <= er_sequence r) rows ->
  order_rows (rows ++ [r]) = order_rows rows ++ [r].
Proof.
  unfold order_rows. induction rows as [|x rows IH]; intros H; [done|]. simpl.
  inversion H as [|? ? Hx Hrows]; subst. rewrite IH by done. clear IH H Hrows.
  induction (foldr insert_row [] rows) as [|y l IH]; simpl.
  - by rewrite (proj2 (Z.leb_le _ _) Hx).
  - destruct (er_sequence x <=? er_sequence y); [done|]. by rewrite IH.
Qed.
Lemma insert_row_elem r rows x : x ∈ insert_row r rows <-> x = r \/ x ∈ rows.
Proof.
  induction rows as [|y rows IH]; simpl; [set_solver|].
  destruct (_ <=? _); rewrite ?elem_of_cons, ?IH; set_solver.
Qed.
Lemma order_rows_elem rows x : x ∈ order_rows rows <-> x ∈ rows.
Proof.
  unfold order_rows. induction rows as [|y rows IH]; simpl; [done|].
  rewrite insert_row_elem, IH. set_solver.
Qed.

Lemma load_Ok st run evs :
  load st run = Ok evs <->
  Forall2 (fun r e => row_event r = Ok e /\ row_matches run r e = true) (rows_of st run) evs.
Proof.
  unfold load. rewrite bind_Ok. setoid_rewrite except_as_Ok. setoid_rewrite mapM_Ok. split.
  - intros (l & Hl & H). inv_ok H. subst l. apply check_Ok in Hok. revert Hl Hok.
    generalize (rows_of st run). intros rows Hl. induction Hl; simpl; [constructor|].
    intros [H1 H2]%andb_true_iff. constructor; [done|]. auto.
  - intros H. exists evs. split; [eapply Forall2_impl; [done|]; naive_solver|].
    assert (forallb (fun re => row_matches run re.1 re.2) (zip (rows_of st run) evs) = true) as ->; [|done].
    induction H as [|r e rows es [_ Hm] _ IH]; simpl; [done|]. by rewrite Hm.
Qed.

Lemma row_event_clean r e : row_event r = Ok e -> model_validate_event e = Ok e.
Proof. unfold row_event. destruct (er_event_json r); [|done]. apply idem. Qed.
Lemma load_clean st run evs :
  load st run = Ok evs -> Forall (fun e => model_validate_event e = Ok e) evs.
Proof.
  rewrite load_Ok. intros H. induction H as [|r e rows es [He _] _ IH]; constructor; [|done].
  by eapply row_event_clean.
Qed.

Lemma rows_of_append st st' run r :
  harness_events st' = harness_events st ++ [r] ->
  Forall (fun x => er_sequence x <= er_sequence r) (rows_of st (er_run_id r)) ->
  rows_of st' run = if String.eqb (er_run_id r) run then rows_of st run ++ [r] else rows_of st run.
Proof.
  intros He Hr. unfold rows_of. rewrite He, List.filter_app. simpl.
  destruct (String.eqb_spec (er_run_id r) run) as [<-|]; [|by rewrite app_nil_r].
  apply order_rows_snoc. unfold rows_of in Hr. rewrite Forall_forall in Hr |- *.
  intros x Hx. apply Hr. by apply order_rows_elem.
Qed.

(** The steps the store takes, at any time and with any arguments. *)
Inductive store_step : Store -> Store -> Prop :=
  | step_append st st' event seq rev lease now committed :
      append st event seq rev lease now = Ok (committed, st') -> store_step st st'
  | step_acquire st st' run item attempt holder expires epoch token lease :
      acquire_lease st run item attempt holder expires epoch token = Ok (lease, st') -> store_step st st'.


(** What an append checked and committed. *)
Lemma append_inv st event seq rev lease now c st' :
  append st event seq rev lease now = Ok (c, st') ->
  exists ev prior v,
    model_validate_event event = Ok ev /\ model_validate_event c = Ok c /\
    c = with_counters ev (ev_sequence c) (ev_state_revision c) (ev_previous_event_hash c) (ev_event_hash c) /\
    ru_trace_id (run_row st c) = ev_trace_id c /\
    ru_sequence (run_row st c) = seq /\ ru_state_revision (run_row st c) = rev /\
    ev_sequence c = seq + 1 /\
    ev_state_revision c = (if is_Some_b (ev_transition c) then rev + 1 else rev) /\
    (forall t, ev_transition c = Some t -> tr_expected_state_revision t = rev) /\
    validate_lease_authorization st ev lease now = Ok tt /\
    load st (ev_run_id c) = Ok prior /\ fold_events (prior ++ [c]) = Ok v /\
    (forall r, r ∈ harness_events st -> er_event_id r <> ev_event_id c) /\
    harness_runs st' = <[ev_run_id c :=
      {| ru_trace_id := ev_trace_id c; ru_sequence := ev_sequence c;
         ru_state_revision := ev_state_revision c; ru_last_event_hash := ev_event_hash c |}]>
      (harness_runs st) /\
    harness_events st' = harness_events st ++ [event_row c] /\
    harness_outbox st' = harness_outbox st ++
      [{| ob_event_id := ev_event_id c; ob_run_id := ev_run_id c; ob_sequence := ev_sequence c;
          ob_event_json := c |}] /\
    harness_leases st' = harness_leases st.
Proof.
  unfold append. intros H. inv_ok H. apply validated_event_Ok in Hok. pose proof (idem _ _ Hok) as Ha.
  match goal with H : validated_event (with_hash _ _) = Ok _ |- _ => rename H into Hc end.
  apply validated_event_Ok in Hc. pose proof (idem _ _ Hc) as Hcc.
  unfold with_hash in Hc. pose proof (recounted_event _ _ _ _ _ _ Ha Hc) as Heq.
  set (row := run_row st a) in *.
  assert (Hrow : run_row st a6 = row) by (rewrite Heq; done).
  assert (Ht : ev_transition a6 = ev_transition a) by (rewrite Heq; done).
  assert (Hs : ev_sequence a6 = ru_sequence row + 1) by (rewrite Heq; done).
  assert (Hr : ev_state_revision a6 = a4) by (rewrite Heq; done).
  assert (Hrun : ev_run_id a6 = ev_run_id a) by (rewrite Heq; done).
  assert (Htr : ev_trace_id a6 = ev_trace_id a) by (rewrite Heq; done).
  subst c. subst st'. simpl. exists a, a7, a8. rewrite Hrow, Ht, Hs, Hr, Hrun, Htr.
  destruct a5. inv_checks. to_prop. split_and!; try done; try congruence.
  - destruct (ev_transition a); inv_ok Hok4; simpl; lia.
  - intros t Htt. rewrite Htt in Hok4. inv_ok Hok4. inv_checks. to_prop. lia.
  - intros r Hin Heqid. apply not_true_iff_false in Hok9. apply Hok9, existsb_exists.
    exists r. split; [by apply list_elem_of_In|]. by rewrite Heqid, String.eqb_refl.
Qed.

(** Acquiring a lease changes one lease row. *)
Lemma acquire_inv st run item attempt holder expires epoch token l st' :
  acquire_lease st run item attempt holder expires epoch token = Ok (l, st') ->
  validate_lease l = Ok l /\ ShortText item = Ok (lt_work_item_id l) /\
  ShortText run = Ok (lt_run_id l) /\ ShortText attempt = Ok (lt_attempt_id l) /\
  epoch = default 0 (le_lease_epoch <$> harness_leases st !! (run, item)) /\ lt_lease_epoch l = epoch + 1 /\
  harness_runs st' = harness_runs st /\ harness_events st' = harness_events st /\
  harness_outbox st' = harness_outbox st /\
  harness_leases st' = <[(lt_run_id l, lt_work_item_id l) :=
    {| le_attempt_id := lt_attempt_id l; le_lease_epoch := lt_lease_epoch l;
       le_fencing_token_digest := sha256_hex (lt_fencing_token l); le_holder_id := lt_holder_id l;
       le_expires_at_monotonic := lt_expires_at_monotonic l |}]> (harness_leases st).
Proof.
  unfold acquire_lease. intros H. inv_ok H. subst st'. simpl. pose proof (idem _ _ Hok2) as Hl.
  unfold validate_lease in Hok2. inv_ok Hok2. subst a2 l. simpl in *. inv_checks. to_prop.
  match goal with H : PositiveInt _ = Ok ?n |- _ =>
    unfold PositiveInt in H; destruct (0 <? _) in H; [injection H as H|done] end.
  split_and!; try done; destruct (harness_leases st !! (run, item)); simpl in *; lia.
Qed.

(** ** The invariant of the store *)
Definition run_replays (st : Store) (run : string) : Prop :=
  exists evs v, load st run = Ok evs /\ fold_events evs = Ok v /\
    match harness_runs st !! run with
    | None => evs = []
    | Some row =>
        v_sequence v = ru_sequence row /\ v_state_revision v = ru_state_revision row /\
        v_last_event_hash v = ru_last_event_hash row /\ v_run_id v = Some run /\
        v_trace_id v = Some (ru_trace_id row)
    end.
Definition store_ok (st : Store) : Prop := forall run, run_replays st run.

Lemma load_same_rows st st' run :
  rows_of st' run = rows_of st run -> load st' run = load st run.
Proof. unfold load. by intros ->. Qed.

Lemma loaded_sequences st run evs v :
  load st run = Ok evs -> fold_events evs = Ok v ->
  v_sequence v = Z.of_nat (length evs) /\
  Forall (fun r => er_sequence r <= Z.of_nat (length evs)) (rows_of st run).
Proof.
  intros Hl Hf. pose proof (fold_from_cursor evs empty_view 1 v ltac:(done) (load_clean _ _ _ Hl) Hf).
  pose proof (fold_from_sequences evs empty_view 1 v Hf) as Hs. split; [lia|].
  apply load_Ok in Hl. clear -Hl Hs. revert Hs. generalize (Z.of_nat (length evs)). intros n Hs.
  induction Hl as [|r e rows es [_ Hm] _ IH]; [constructor|]. inversion Hs; subst.
  constructor; [|auto]. unfold row_matches in Hm. to_prop. lia.
Qed.

Lemma row_event_row e : model_validate_event e = Ok e -> row_event (event_row e) = Ok e.
Proof. done. Qed.
Lemma row_matches_row e : row_matches (ev_run_id e) (event_row e) e = true.
Proof. unfold row_matches. simpl. rewrite !Z.eqb_refl. by rewrite !bool_decide_eq_true_2. Qed.

(** After an append the run's stream is one event longer, and no other has changed. *)
Lemma append_loads st event seq rev lease now c st' :
  store_ok st -> append st event seq rev lease now = Ok (c, st') ->
  exists prior, load st (ev_run_id c) = Ok prior /\ load st' (ev_run_id c) = Ok (prior ++ [c]) /\
    forall run, run <> ev_run_id c -> load st' run = load st run.
Proof.
  intros Hst H.
  apply append_inv in H as (ev & prior & v & _ & Hc & _ & _ & Hq & _ & Hs & _ & _ & _ & Hl & _ & _ & _ & Hevs & _).
  destruct (Hst (ev_run_id c)) as (evs & u & Hl' & Hf' & Hm). rewrite Hl in Hl'. injection Hl' as <-.
  destruct (loaded_sequences _ _ _ _ Hl Hf') as [Hu Hrows].
  assert (Hlen : ru_sequence (run_row st c) = Z.of_nat (length prior)).
  { unfold run_row. destruct (harness_runs st !! ev_run_id c) as [row|]; simpl; [by destruct Hm; congruence|by subst prior]. }
  assert (Hr : forall run', rows_of st' run' = if String.eqb (ev_run_id c) run'
            then rows_of st run' ++ [event_row c] else rows_of st run').
  { intros run'. apply (rows_of_append st st' run' (event_row c)); [done|]. simpl.
    eapply Forall_impl; [done|]. simpl. lia. }
  exists prior. split; [done|]. split.
  - apply load_Ok. rewrite Hr, String.eqb_refl. apply Forall2_app; [by apply load_Ok|].
    constructor; [|constructor]. split; [by apply row_event_row|apply row_matches_row].
  - intros run Hne. apply load_same_rows. rewrite Hr. by destruct (String.eqb_spec (ev_run_id c) run).
Qed.
Lemma store_step_ok st st' : store_ok st -> store_step st st' -> store_ok st'.
Proof.
  intros Hst Hstep. destruct Hstep as [st st' event seq rev lease now c H|st st' r item at_ h x ep tok l H].
  2:{ apply acquire_inv in H as (_ & _ & _ & _ & _ & _ & Hr & He & _). intros run.
      destruct (Hst run) as (evs & v & Hl & Hf & Hm). exists evs, v. rewrite Hr.
      split; [|done]. rewrite <- Hl. apply load_same_rows. unfold rows_of. by rewrite He. }
  destruct (append_loads _ _ _ _ _ _ _ _ Hst H) as (prior' & Hl0 & Happ & Hother).
  apply append_inv in H as (ev & prior & v & _ & Hc & _ & Htr & Hseq & Hrev & Hs & Hsr & _ & _ & Hl & Hf & _ & Hruns & _).
  rewrite Hl in Hl0. injection Hl0 as <-.
  intros run. destruct (Hst (ev_run_id c)) as (evs & u & Hl' & Hf' & Hm).
  rewrite Hl in Hl'. injection Hl' as <-. unfold run_replays. rewrite Hruns.
  destruct (String.eqb_spec (ev_run_id c) run) as [<-|Hne].
  - assert (Hlen : ru_state_revision (run_row st c) = v_state_revision u).
    { unfold run_row. destruct (harness_runs st !! ev_run_id c) as [row|]; simpl.
      - destruct Hm as (? & ? & _). congruence.
      - subst prior. simpl in Hf'. by injection Hf' as <-. }
    exists (prior ++ [c]), v. rewrite lookup_insert_eq. simpl. split; [done|]. split; [done|].
    unfold fold_events in *. rewrite fold_from_snoc, Hf' in Hf. cbn [mbind result_bind] in Hf.
    apply fold_event_Ok in Hf as (c' & Hc' & Hclean & Ha & _). rewrite Hc in Hc'. injection Hc' as <-.
    apply apply_committed_cursor in Ha as (? & ? & ? & ? & Hv & _); [|done].
    split_and!; try congruence. rewrite Hv. destruct (is_Some_b _); congruence.
  - destruct (Hst run) as (evs & w & Hl2 & Hf2 & Hm2). exists evs, w.
    rewrite lookup_insert_ne by done. split; [|done]. rewrite <- Hl2. by apply Hother.
Qed.

Lemma empty_store_ok : store_ok empty_store.
Proof. intros run. exists [], empty_view. done. Qed.
Lemma store_steps_ok st st' : store_ok st -> rtc store_step st st' -> store_ok st'.
Proof. intros Hst H. induction H as [|a b c Hab _ IH]; [done|]. by apply IH, (store_step_ok a). Qed.

(** What a step leaves behind it: the stream and the outbox only grow, together,
    and a run's counters only grow. *)
Lemma store_step_grows st st' :
  store_ok st -> store_step st st' ->
  exists evs, harness_events st' = harness_events st ++ (event_row <$> evs) /\
    harness_outbox st' = harness_outbox st ++
      ((fun e => {| ob_event_id := ev_event_id e; ob_run_id := ev_run_id e;
                    ob_sequence := ev_sequence e; ob_event_json := e |}) <$> evs) /\
    forall run row, harness_runs st !! run = Some row ->
      exists row', harness_runs st' !! run = Some row' /\ ru_sequence row <= ru_sequence row'.
Proof.
  intros _ Hstep. destruct Hstep as [st st' event seq rev lease now c H|st st' r item at_ h x ep tok l H].
  - apply append_inv in H as (ev & prior & v & _ & _ & _ & _ & Hseq & _ & Hs & _ & _ & _ & _ & _ & _ & Hruns & He & Ho & _).
    exists [c]. split; [done|]. split; [done|]. intros run row Hrow. rewrite Hruns.
    destruct (decide (ev_run_id c = run)) as [<-|Hne].
    + rewrite lookup_insert_eq. eexists. split; [done|]. simpl.
      unfold run_row in Hseq. rewrite Hrow in Hseq. simpl in Hseq. lia.
    + rewrite lookup_insert_ne by done. eauto with lia.
  - apply acquire_inv in H as (_ & _ & _ & _ & _ & _ & Hr & He & Ho & _). exists [].
    rewrite Hr, He, Ho. rewrite !app_nil_r. split_and!; [done|done|]. eauto with lia.
Qed.
Lemma store_steps_runs st st' run row :
  store_ok st -> rtc store_step st st' -> harness_runs st !! run = Some row ->
  exists row', harness_runs st' !! run = Some row' /\ ru_sequence row <= ru_sequence row'.
Proof.
  intros Hst H. revert row. induction H as [|a b c Hab _ IH]; intros row Hrow; [eauto with lia|].
  destruct (store_step_grows _ _ Hst Hab) as (_ & _ & _ & Hg).
  destruct (Hg _ _ Hrow) as (row1 & Hrow1 & ?).
  destruct (IH (store_step_ok _ _ Hst Hab) _ Hrow1) as (row2 & ? & ?). exists row2. split; [done|lia].
Qed.

(** ** Lemmas on leases *)
Definition lease_epoch (st : Store) (key : string * string) : Z :=
  default 0 (le_lease_epoch <$> harness_leases st !! key).
(** The steps whose lease requests spell their identifiers without padding. *)
Inductive normalised_step : Store -> Store -> Prop :=
  | norm_append st st' event seq rev lease now committed :
      append st event seq rev lease now = Ok (committed, st') -> normalised_step st st'
  | norm_acquire st st' run item attempt holder expires epoch token lease :
      ShortText run = Ok run -> ShortText item = Ok item ->
      acquire_lease st run item attempt holder expires epoch token = Ok (lease, st') ->
      normalised_step st st'.

Lemma acquire_epoch st run item attempt holder expires epoch token l st' :
  ShortText run = Ok run -> ShortText item = Ok item ->
  acquire_lease st run item attempt holder expires epoch token = Ok (l, st') ->
  lt_run_id l = run /\ lt_work_item_id l = item /\
  lt_lease_epoch l = lease_epoch st (run, item) + 1 /\
  forall key, lease_epoch st' key = if decide (key = (run, item)) then lt_lease_epoch l else lease_epoch st key.
Proof.
  intros Hr Hi H. apply acquire_inv in H as (_ & Hi' & Hr' & _ & He & Hn & _ & _ & _ & Hl).
  rewrite Hr in Hr'. rewrite Hi in Hi'. injection Hr' as Hr'. injection Hi' as Hi'.
  rewrite <- Hr', <- Hi' in Hl. split_and!; [done|done|by rewrite Hn, He|]. intros key. unfold lease_epoch. rewrite Hl.
  case_decide as Hk; [subst key; by rewrite lookup_insert_eq|by rewrite lookup_insert_ne].
Qed.

Lemma normalised_epoch st st' key : normalised_step st st' -> lease_epoch st key <= lease_epoch st' key.
Proof.
  intros [? ? ? ? ? ? ? ? H|? ? run item ? ? ? ? ? l Hr Hi H].
  - apply append_inv in H as (? & ? & ? & _ & _ & _ & _ & _ & _ & _ & _ & _ & _ & _ & _ & _ & _ & _ & _ & Hl).
    unfold lease_epoch. by rewrite Hl.
  - apply acquire_epoch in H as (_ & _ & He & Hk); [|done|done]. rewrite Hk. case_decide; [|lia]. subst. lia.
Qed.
Lemma normalised_epochs st st' key : rtc normalised_step st st' -> lease_epoch st key <= lease_epoch st' key.
Proof. induction 1 as [|a b c Hab _ IH]; [lia|]. pose proof (normalised_epoch _ _ key Hab). lia. Qed.

(** The lease an accepted work transition carries is the current one, and live. *)
Lemma lease_authorization_Ok st e t lease now :
  validate_lease_authorization st e lease now = Ok tt -> ev_transition e = Some t ->
  tr_entity_kind t <> E_run ->
  exists l l' row, lease = Some l' /\ validate_lease l' = Ok l /\
    lt_run_id l = ev_run_id e /\ Some (lt_work_item_id l) = ev_work_item_id e /\
    Some (lt_attempt_id l) = ev_attempt_id e /\
    harness_leases st !! (lt_run_id l, lt_work_item_id l) = Some row /\
    le_attempt_id row = lt_attempt_id l /\ le_lease_epoch row = lt_lease_epoch l /\
    le_fencing_token_digest row = sha256_hex (lt_fencing_token l) /\ le_holder_id row = lt_holder_id l /\
    tr_lease_epoch t = Some (lt_lease_epoch l) /\
    tr_fencing_token_digest t = Some (sha256_hex (lt_fencing_token l)) /\
    exists q, now = Some q /\ (q < lt_expires_at_monotonic l)%Q.
Proof.
  unfold validate_lease_authorization. intros H Ht Hk. rewrite Ht in H.
  rewrite bool_decide_eq_false_2 in H by done. destruct lease as [l'|]; [|done]. inv_ok H.
  apply except_as_Ok in Hok. destruct (ev_work_item_id e) as [wi|]; [|done].
  destruct (ev_attempt_id e) as [ai|]; [|done]. inv_ok H. inv_checks. to_prop.
  destruct (harness_leases st !! _) as [row|] eqn:Erow; [|done]. to_prop. subst.
  exists a, l', row. split_and!; try done; try congruence.
  destruct now as [q|]; [|done]. exists q. split; [done|].
  apply Qnot_le_lt. intros Hle. apply Qle_bool_iff in Hle. simpl in *. congruence.
Qed.
Lemma lease_authorization_work st e l now :
  validate_lease_authorization st e (Some l) now = Ok tt ->
  exists t, ev_transition e = Some t /\ tr_entity_kind t <> E_run.
Proof.
  unfold validate_lease_authorization. destruct (ev_transition e) as [t|]; [|done].
  case_bool_decide; [done|]. eauto.
Qed.

(** ** The fold follows the state machine *)
Lemma retry_source t v r source :
  allowed (validate_retry_authorization r t v source) = true -> is_Some source.
Proof. unfold validate_retry_authorization. destruct source; [eauto|done]. Qed.

(** A transition the state machine accepts on a view without unknown effects
    names the folded source state, and the fold sets the same target. *)
Lemma accepted_folds j t u :
  in_candidate j = Transition t -> allowed (validate_revalidated j) = true ->
  v_external_side_effect_unknown (in_view j) = false ->
  updated_view (in_view j) t (is_Some_b (in_resolution j)) = Ok u ->
  folded_states (in_view j) t =
    Ok (set_states (in_view j) (v_run_state u) (v_work_item_states u) (v_attempt_states u) false).
Proof.
  unfold validate_revalidated, updated_view, folded_states, validate_edge.
  intros -> Ha Hu Hup. destruct (check_evidence t _ _) eqn:Ec.
  { by rewrite (check_evidence_rejects _ _ _ _ Ec) in Ha. }
  case_bool_decide; [done|]. set (v := in_view j) in *. destruct (tr_entity_kind t).
  - unfold validate_run in Ha. destruct (run_state_of (tr_to_state t)) as [s|]; [|done].
    injection Hup as <-. simpl. destruct (negb (bool_decide (tr_entity_id t = _))); [done|].
    destruct (negb (bool_decide (tr_from_state t = _))) eqn:Ef; [done|]. to_prop.
    rewrite Ef, bool_decide_eq_true_2 by done. simpl. by rewrite Hu.
  - destruct (is_Some_b (in_resolution j)); [done|]. unfold validate_work_item in Ha.
    destruct (work_item_state_of (tr_to_state t)) as [s|]; [|done].
    injection Hup as <-. simpl. destruct (negb (bool_decide (tr_from_state t = _))) eqn:Ef; [done|]. to_prop.
    rewrite Ef, bool_decide_eq_true_2 by done. simpl. by rewrite Hu.
  - destruct (is_Some_b (in_resolution j)); [done|]. destruct (is_Some_b (in_retry j)); [done|].
    unfold validate_attempt in Ha.
    destruct (attempt_state_of (tr_to_state t)) as [s|]; [|done].
    injection Hup as <-. simpl. destruct (negb (bool_decide (tr_from_state t = _))) eqn:Ef; [done|]. to_prop.
    rewrite Ef, bool_decide_eq_true_2 by done. simpl. by rewrite Hu.
Qed.

Lemma updated_view_shape v t b u :
  updated_view v t b = Ok u ->
  u = set_states (set_revisions
        (set_cursor v (v_sequence v + 1)
          (match v_run_id v with None => Some (tr_run_id t) | some => some end)
          (match v_trace_id v with None => Some (tr_trace_id t) | some => some end)
          (v_last_event_hash v))
        (v_state_revision v + 1) (tr_plan_revision t) (tr_idempotency_key t))
      (v_run_state u) (v_work_item_states u) (v_attempt_states u)
      (if bool_decide (tr_entity_kind t = E_run) && b then false else v_external_side_effect_unknown v).
Proof.
  unfold updated_view. intros H. destruct (tr_entity_kind t);
    [destruct (run_state_of _)|destruct (work_item_state_of _)|destruct (attempt_state_of _)];
    try done; by injection H as <-.
Qed.

(** Changing only the last hash to a clean digest keeps a view well formed. *)
Lemma well_formed_last v h :
  well_formed v -> optional Digest h = Ok h ->
  well_formed (set_cursor v (v_sequence v) (v_run_id v) (v_trace_id v) h).
Proof.
  rewrite !well_formed_spec, !identity_Ok. intros [[] Hid] Hh. split; [by constructor|done].
Qed.

Lemma pinned_none current e : pinned_digest current None e = Ok (JStr <$> current).
Proof. done. Qed.
Lemma digest_field_text current : digest_field (JStr <$> current) = Ok current.
Proof. by destruct current. Qed.

Definition pins_nothing (e : HarnessEvent) : Prop :=
  payload_get e "request_digest" = None /\ payload_get e "prompt_release_digest" = None /\
  payload_get e "accepted_result_digest" = None.

(** ** Properties *)

(** C9.  Every store the program can reach, by any sequence of appends and lease
    acquisitions with any arguments, replays: each run's persisted stream loads,
    folds without error, and the run's row holds exactly the folded sequence,
    revision, last hash and identities. *)
Theorem reachable_store_replays (st : Store) (run : string) :
  rtc store_step empty_store st -> run_replays st run.
Proof. intros H. by apply (store_steps_ok _ _ empty_store_ok H). Qed.

(** Append only, and a transactional outbox: a step never alters or drops a
    persisted event, and in every reachable store the outbox lists the same events
    in the same order as the stream. *)
Theorem streams_only_grow (st st' : Store) :
  rtc store_step empty_store st -> rtc store_step st st' ->
  harness_events st `prefix_of` harness_events st' /\
  harness_outbox st `prefix_of` harness_outbox st' /\
  (fun o => (ob_event_id o, ob_run_id o, ob_sequence o, Some (ob_event_json o))) <$> harness_outbox st' =
  (fun r => (er_event_id r, er_run_id r, er_sequence r, er_event_json r)) <$> harness_events st'.
Proof.
  intros H0 H.
  assert (Hg : forall a b, store_ok a -> rtc store_step a b -> exists evs,
    harness_events b = harness_events a ++ (event_row <$> evs) /\
    harness_outbox b = harness_outbox a ++
      ((fun e => {| ob_event_id := ev_event_id e; ob_run_id := ev_run_id e;
                    ob_sequence := ev_sequence e; ob_event_json := e |}) <$> evs)).
  { clear st st' H0 H. intros a b Ha Hab. induction Hab as [|a b c Hab _ IH]; [exists []; by rewrite !app_nil_r|].
    destruct (store_step_grows _ _ Ha Hab) as (e1 & He1 & Ho1 & _).
    destruct (IH (store_step_ok _ _ Ha Hab)) as (e2 & He2 & Ho2). exists (e1 ++ e2).
    rewrite He2, Ho2, He1, Ho1, !fmap_app, !(assoc_L (++)). done. }
  destruct (Hg st st' (store_steps_ok _ _ empty_store_ok H0) H) as (e1 & -> & ->).
  split; [by eexists|]. split; [by eexists|].
  destruct (Hg _ _ empty_store_ok H0) as (e0 & -> & ->). simpl.
  rewrite !fmap_app, <- !list_fmap_compose. done.
Qed.

(** Optimistic concurrency: once an append that expected sequence [s] has
    committed, no append to that run expecting [s] ever commits again, whatever
    else happened to the store in between. *)
Theorem stale_counters_never_commit (st st1 st2 : Store) (e1 e2 c1 : HarnessEvent) (s r1 r2 : Z)
    (l1 l2 : option LeaseToken) (n1 n2 : option Q) :
  rtc store_step empty_store st -> append st e1 s r1 l1 n1 = Ok (c1, st1) -> rtc store_step st1 st2 ->
  (forall ev, validated_event e2 = Ok ev -> ev_run_id ev = ev_run_id c1) ->
  forall c2 st3, append st2 e2 s r2 l2 n2 <> Ok (c2, st3).
Proof.
  intros H0 H1 H2 Hrun c2 st3 H3.
  pose proof (store_steps_ok _ _ empty_store_ok H0) as Hst.
  pose proof (store_step_ok _ _ Hst (step_append _ _ _ _ _ _ _ _ H1)) as Hst1.
  apply append_inv in H1 as (ev1 & p1 & v1 & _ & _ & _ & _ & Hs1 & _ & Hq1 & _ & _ & _ & _ & _ & _ & Hr1 & _).
  destruct (store_steps_runs st1 st2 (ev_run_id c1)
    {| ru_trace_id := ev_trace_id c1; ru_sequence := ev_sequence c1;
       ru_state_revision := ev_state_revision c1; ru_last_event_hash := ev_event_hash c1 |})
    as (row & Hrow & Hle); [done|done|by rewrite Hr1, lookup_insert_eq|]. simpl in Hle.
  apply append_inv in H3 as (ev2 & p2 & v2 & Hv2 & _ & Hc2 & _ & Hs2 & _).
  assert (ev_run_id c2 = ev_run_id c1) as Heq.
  { rewrite Hc2. simpl. apply Hrun. by apply validated_event_Ok. }
  unfold run_row in Hs2. rewrite Heq, Hrow in Hs2. simpl in Hs2. lia.
Qed.

(** C33.  Leases: a work-item or attempt transition is committed only under the
    current lease of its work item: the row's holder, attempt, epoch and token
    digest are the presented lease's, the transition carries that epoch and digest,
    and the clock reads before the expiry. *)
Theorem work_transitions_hold_the_lease (st st' : Store) (e c : HarnessEvent) (t : HarnessTransition)
    (s r : Z) (lease : option LeaseToken) (now : option Q) :
  append st e s r lease now = Ok (c, st') -> ev_transition c = Some t -> tr_entity_kind t <> E_run ->
  exists l row q, validate_lease l = Ok l /\ lease ≫= (fun l' => Some (validate_lease l')) = Some (Ok l) /\
    harness_leases st !! (ev_run_id c, lt_work_item_id l) = Some row /\
    ev_work_item_id c = Some (lt_work_item_id l) /\ ev_attempt_id c = Some (le_attempt_id row) /\
    tr_lease_epoch t = Some (le_lease_epoch row) /\
    tr_fencing_token_digest t = Some (le_fencing_token_digest row) /\
    le_fencing_token_digest row = sha256_hex (lt_fencing_token l) /\ le_holder_id row = lt_holder_id l /\
    now = Some q /\ (q < lt_expires_at_monotonic l)%Q.
Proof.
  intros H Ht Hk. apply append_inv in H as (ev & p & v & _ & _ & Hc & _ & _ & _ & _ & _ & _ & Hl & _).
  assert (Hev : ev_transition ev = Some t) by (rewrite Hc in Ht; done).
  destruct (lease_authorization_Ok _ _ _ _ _ Hl Hev Hk)
    as (l & l' & row & -> & Hv & Hr & Hwi & Hai & Hrow & Ha & He & Hf & Hh & Hte & Htf & q & Hq & Hlt).
  exists l, row, q. rewrite Hc. simpl. rewrite <- Hr, <- Hwi, <- Hai, Ha, He, Hf, Hh, Hv, Hrow.
  split_and!; try done. by eapply validate_lease_idem.
Qed.

(** C34.  Fencing: once the lease of a work item has been acquired again, the
    superseded token never authorises another event, however the store moves on
    (through lease requests that spell their identifiers without padding). *)
Theorem superseded_lease_is_fenced (st0 st1 st2 st3 st4 : Store) (run item at1 at2 h1 h2 k1 k2 : string)
    (x1 x2 : Q) (n1 n2 : Z) (l1 l2 : LeaseToken) :
  ShortText run = Ok run -> ShortText item = Ok item ->
  acquire_lease st0 run item at1 h1 x1 n1 k1 = Ok (l1, st1) -> rtc normalised_step st1 st2 ->
  acquire_lease st2 run item at2 h2 x2 n2 k2 = Ok (l2, st3) -> rtc normalised_step st3 st4 ->
  forall e s r now res, append st4 e s r (Some l1) now <> Ok res.
Proof.
  intros Hr Hi H1 H12 H2 H34 e s r now [c st5] H.
  pose proof (acquire_inv _ _ _ _ _ _ _ _ _ _ H1) as (Hl1 & _).
  apply acquire_epoch in H1 as (Er1 & Ei1 & Ee1 & Ek1); [|done|done].
  apply acquire_epoch in H2 as (Er2 & Ei2 & Ee2 & Ek2); [|done|done].
  apply append_inv in H as (ev & p & v & _ & _ & _ & _ & _ & _ & _ & _ & _ & Hl & _).
  destruct (lease_authorization_work _ _ _ _ Hl) as (t & Ht & Hk).
  destruct (lease_authorization_Ok _ _ _ _ _ Hl Ht Hk)
    as (l & l' & row & [= <-] & Hv & _ & _ & _ & Hrow & _ & He & _).
  rewrite Hl1 in Hv. injection Hv as <-. rewrite Er1, Ei1 in Hrow.
  pose proof (normalised_epochs _ _ (run, item) H12) as M1.
  pose proof (normalised_epochs _ _ (run, item) H34) as M2.
  rewrite Ek1 in M1. rewrite Ek2 in M2. rewrite !decide_True in M1, M2 by done.
  unfold lease_epoch in M2 at 1. rewrite Hrow in M2. simpl in M2. lia.
Qed.

(** The event store and the state machine agree: when the state machine
    applies a transition to a folded view, folding the committed event that carries
    it gives the same view, up to the hash of that event. *)
Theorem fold_follows_state_machine (i j : Inputs) (v' : HarnessSessionView) (t : HarnessTransition)
    (e : HarnessEvent) :
  well_formed (in_view i) -> v_external_side_effect_unknown (in_view i) = false ->
  revalidate_public_inputs i = Ok j -> in_candidate j = Transition t -> apply i = Ok v' ->
  model_validate_event e = Ok e -> ev_transition e = Some t -> pins_nothing e ->
  ev_sequence e = v_sequence (in_view i) + 1 -> ev_state_revision e = v_state_revision (in_view i) + 1 ->
  apply_committed_event (in_view i) e =
    Ok (set_cursor v' (v_sequence v') (v_run_id v') (v_trace_id v') (ev_event_hash e)).
Proof.
  intros Hw Hunk Hj Hc H He Ht (Hp1 & Hp2 & Hp3) Hs Hr. apply event_clean_fix in He.
  apply apply_inv in H as (j' & t' & Hj' & Ha & Ht' & Hu & _ & Hw').
  rewrite Hj in Hj'. injection Hj' as <-. rewrite Hc in Ht'. injection Ht' as <-.
  destruct (revalidated_view _ _ Hj) as [_ Hv]. specialize (Hv Hw). rewrite <- Hv in *. clear Hv.
  pose proof (accepted_folds j t v' Hc Ha Hunk Hu) as Hf.
  pose proof (accepted_fresh_key i j t Hj Ha ltac:(by rewrite Hc)) as Hk.
  destruct (accepted_is_current j t Ha ltac:(by rewrite Hc)) as (_ & Hrev & Hplan).
  assert (Hid : (forall r, v_run_id (in_view j) = Some r -> tr_run_id t = r) /\
                (forall r, v_trace_id (in_view j) = Some r -> tr_trace_id t = r)).
  { unfold validate_revalidated in Ha. rewrite Hc in Ha. destruct (check_evidence t _ _) eqn:Ec.
    { by rewrite (check_evidence_rejects _ _ _ _ Ec) in Ha. }
    by apply check_evidence_None in Ec as (? & _ & _ & _ & _ & _ & ? & ? & _). }
  apply well_formed_identifiers in Hw as (_ & _ & _ & Hrt & _). destruct He.
  pose proof (transition_event_identity e t ec_identity0 Ht) as Hev.
  destruct Hev as (Er & Et & Ha1 & Ha2 & Ha3). destruct Hid as [Hid1 Hid2].
  unfold apply_committed_event. rewrite Ha1, Ha2, Ha3, Ht.
  assert (Hident : v_run_id (in_view j) = None \/
    v_run_id (in_view j) = Some (ev_run_id e) /\ v_trace_id (in_view j) = Some (ev_trace_id e)).
  { destruct (v_run_id (in_view j)) as [r|], (v_trace_id (in_view j)) as [tr|]; try done; [right|by left].
    rewrite <- Er, <- Et, (Hid1 r), (Hid2 tr) by done. done. }
  assert (Hmatch : match v_run_id (in_view j) with
    | Some run_id =>
        _ ← check (bool_decide (ev_run_id e = run_id))
              (EventIntegrityError "run identity changed during replay");
        _ ← check (bool_decide (Some (ev_trace_id e) = v_trace_id (in_view j)))
              (EventIntegrityError "trace identity changed during replay");
        Ok (run_id, ev_trace_id e)
    | None => Ok (ev_run_id e, ev_trace_id e) end = Ok (ev_run_id e, ev_trace_id e)).
  { destruct Hident as [->|[-> ->]]; [done|]. by rewrite !bool_decide_eq_true_2. }
  rewrite Hmatch. cbn [mbind result_bind fst snd]. unfold apply_transition_event.
  rewrite Hp1, Hp2, Hp3, !pinned_none, Hf, Hrev, Hr, Hplan, !Z.eqb_refl.
  rewrite !(bool_decide_eq_true_2 (_ = _)), bool_decide_eq_false_2 by done.
  cbn [check raise_when mbind result_bind andb]. rewrite !digest_field_text. cbn [mbind result_bind].
  pose proof (well_formed_last v' (ev_event_hash e) Hw' ec_hash0) as Hlast.
  apply except_as_Ok. refine (eq_trans (f_equal validate_view _) Hlast).
  pose proof (updated_view_shape _ _ _ _ Hu) as Hshape. rewrite Hunk in Hshape.
  replace (if bool_decide _ && _ then false else false) with false in Hshape by by destruct (_ && _).
  clear -Hshape Hident Hrt Er Et Hplan Hs. destruct (in_view j). simpl in *. destruct v'.
  unfold set_cursor, set_digests, set_revisions, set_states in *. simpl in *.
  injection Hshape as -> -> -> -> -> -> -> -> -> -> -> -> -> -> -> ->.
  destruct Hident as [->|[-> ->]]; [|by rewrite Hs, Hplan].
  match goal with H : _ = is_Some_b ?x |- _ => destruct x; [done|] end. by rewrite Er, Et, Hs, Hplan.
Qed.

Lemma lease_keys_clean st key row :
  rtc store_step empty_store st -> harness_leases st !! key = Some row -> ShortText key.2 = Ok key.2.
Proof.
  intros H. cut (forall a, rtc store_step a st ->
    (forall k r, harness_leases a !! k = Some r -> ShortText k.2 = Ok k.2) ->
    forall k r, harness_leases st !! k = Some r -> ShortText k.2 = Ok k.2).
  { intros Hc. eapply Hc; [done|]. intros k r Hk. simpl in Hk. by rewrite lookup_empty in Hk. }
  clear H key row. intros a H. induction H as [|a b c Hab _ IH]; [done|]. intros Ha. apply IH.
  destruct Hab as [? ? ? ? ? ? ? ? H|? ? ? ? ? ? ? ? ? l H].
  - apply append_inv in H as (? & ? & ? & _ & _ & _ & _ & _ & _ & _ & _ & _ & _ & _ & _ & _ & _ & _ & _ & Hl).
    by rewrite Hl.
  - apply acquire_inv in H as (_ & Hi & _ & _ & _ & _ & _ & _ & _ & Hl). rewrite Hl. intros k r.
    destruct (decide (k = (lt_run_id l, lt_work_item_id l))) as [->|Hne]; [intros _; by eapply ShortText_idem|].
    rewrite lookup_insert_ne by done. apply Ha.
Qed.

(** The current epoch is looked up under the identifier as given but stored
    under the stripped one: in every reachable store a lease request that pads the
    work item's identifier sees epoch 0 and, when it succeeds, resets the item's
    lease to epoch 1, whatever epoch it had reached. *)
Theorem padded_identifier_resets_epoch (st st' : Store) (run padded item attempt holder tok : string)
    (expires : Q) (epoch : Z) (l : LeaseToken) :
  rtc store_step empty_store st -> ShortText padded = Ok item -> padded <> item ->
  acquire_lease st run padded attempt holder expires epoch tok = Ok (l, st') ->
  epoch = 0 /\ lt_work_item_id l = item /\ lease_epoch st' (lt_run_id l, item) = 1.
Proof.
  intros Hst Hp Hne H. apply acquire_inv in H as (_ & Hi & _ & _ & He & Hn & _ & _ & _ & Hl).
  rewrite Hp in Hi. injection Hi as Hi. rewrite Hi in *.
  assert (Hnone : harness_leases st !! (run, padded) = None).
  { destruct (harness_leases st !! (run, padded)) as [row|] eqn:E; [|done].
    apply (lease_keys_clean _ _ _ Hst) in E. simpl in E. congruence. }
  rewrite Hnone in He. simpl in He. split; [done|]. split; [done|].
  unfold lease_epoch. rewrite Hl, lookup_insert_eq. simpl. lia.
Qed.

Lemma fold_from_unknown l : forall v n v',
  fold_from v n l = Ok v' -> v_external_side_effect_unknown v' = v_external_side_effect_unknown v.
Proof.
  induction l as [|e l IH]; intros v n v' H; simpl in H; [by injection H as <-|].
  inv_ok H. rewrite (IH _ _ _ H). apply fold_event_Ok in Hok as (e' & _ & Hc & Ha & _).
  by apply apply_committed_cursor in Ha as (_ & _ & _ & _ & _ & _ & ?).
Qed.

(**  No event makes an external effect unknown: the snapshot of every run of
    every store has the flag clear, so the guards the state machine keeps for unknown
    effects are never entered from a folded view. *)
Theorem snapshots_never_have_unknown_effects (st : Store) (run : string) (v : HarnessSessionView) :
  snapshot st run = Ok v -> v_external_side_effect_unknown v = false.
Proof.
  unfold snapshot. intros H. inv_ok H. by rewrite (fold_from_unknown _ _ _ _ H).
Qed.

End Session.

(** ** A sample store *)
Definition any_payload : cleaner (list (string * Json)) := any.
Definition flat_digest {A} (_ : A) : string := zero_digest.
Definition sample_append := append any_payload flat_digest flat_digest.
Definition sample_acquire := acquire_lease flat_digest.
Definition sample_event (id : string) (item attempt : option string) (t : option HarnessTransition) : HarnessEvent :=
  {| ev_schema_version := "v1"; ev_event_id := id; ev_trace_id := "trace-1"; ev_span_id := "span";
     ev_parent_span_id := None; ev_run_id := "run-1"; ev_work_item_id := item;
     ev_attempt_id := attempt; ev_sequence := 0; ev_state_revision := 0; ev_event_type := "harness";
     ev_occurred_at := utc 0; ev_monotonic_offset := 0; ev_actor := "harness";
     ev_payload := [("note", JStr "ok")]; ev_transition := t; ev_transition_authority := None;
     ev_attempt_ownership := None; ev_reconciliation_resolution := None;
     ev_previous_event_hash := None; ev_event_hash := None |}.
Definition created_event : HarnessEvent :=
  sample_event "e1" None None (Some (sample_transition E_run "run-1" "none" "created" "k1" 0)).
Definition pending_event : HarnessEvent :=
  sample_event "e2" (Some "item-1") (Some "try-1")
    (Some (sample_transition E_work_item "item-1" "none" "pending" "k2" 1)).
Definition committed_of (r : result (HarnessEvent * Store)) : HarnessEvent * Store :=
  unwrap (created_event, empty_store) r.
Definition created_run : HarnessEvent * Store :=
  committed_of (sample_append empty_store created_event 0 0 None None).
Definition sample_lease (st : Store) (item : string) (epoch : Z) : LeaseToken * Store :=
  unwrap ({| lt_run_id := ""; lt_work_item_id := ""; lt_attempt_id := ""; lt_lease_epoch := 0;
             lt_fencing_token := ""; lt_holder_id := ""; lt_expires_at_monotonic := 0 |}, empty_store)
    (sample_acquire st "run-1" item "try-1" "holder" (100 # 1) epoch "00").
Definition leased_run : LeaseToken * Store := sample_lease created_run.2 "item-1" 0.
Definition pending_run : HarnessEvent * Store :=
  committed_of (sample_append leased_run.2 pending_event 1 1 (Some leased_run.1) (Some (5 # 1))).
Definition released_run : LeaseToken * Store := sample_lease pending_run.2 "item-1" 1.
Definition padded_run : LeaseToken * Store := sample_lease released_run.2 " item-1" 0.

Example sample_epochs :
  (lease_epoch pending_run.2 ("run-1", "item-1"), lease_epoch released_run.2 ("run-1", "item-1"),
   lease_epoch padded_run.2 ("run-1", "item-1")) = (1, 2, 1).
Proof. vm_compute. reflexivity. Qed.

Lemma created_run_ok : sample_append empty_store created_event 0 0 None None = Ok created_run.
Proof. vm_compute. reflexivity. Qed.
Lemma leased_run_ok :
  sample_acquire created_run.2 "run-1" "item-1" "try-1" "holder" (100 # 1) 0 "00" = Ok leased_run.
Proof. vm_compute. reflexivity. Qed.
Lemma pending_run_ok :
  sample_append leased_run.2 pending_event 1 1 (Some leased_run.1) (Some (5 # 1)) = Ok pending_run.
Proof. vm_compute. reflexivity. Qed.
Lemma released_run_ok :
  sample_acquire pending_run.2 "run-1" "item-1" "try-1" "holder" (100 # 1) 1 "00" = Ok released_run.
Proof. vm_compute. reflexivity. Qed.

Definition sample_step : Store -> Store -> Prop := store_step any_payload flat_digest flat_digest.
Lemma sample_append_pair st e s r l n p :
  sample_append st e s r l n = Ok p ->
  append any_payload flat_digest flat_digest st e s r l n = Ok (p.1, p.2).
Proof. by destruct p. Qed.
Lemma sample_acquire_pair st run item at_ h x n k p :
  sample_acquire st run item at_ h x n k = Ok p ->
  acquire_lease flat_digest st run item at_ h x n k = Ok (p.1, p.2).
Proof. by destruct p. Qed.
Lemma released_run_reachable : rtc sample_step empty_store released_run.2.
Proof.
  apply (rtc_l _ _ created_run.2); [exact (step_append _ _ _ _ _ _ _ _ _ _ _ (sample_append_pair _ _ _ _ _ _ _ created_run_ok))|].
  apply (rtc_l _ _ leased_run.2); [exact (step_acquire _ _ _ _ _ _ _ _ _ _ _ _ _ (sample_acquire_pair _ _ _ _ _ _ _ _ _ leased_run_ok))|].
  apply (rtc_l _ _ pending_run.2); [exact (step_append _ _ _ _ _ _ _ _ _ _ _ (sample_append_pair _ _ _ _ _ _ _ pending_run_ok))|].
  apply rtc_once. exact (step_acquire _ _ _ _ _ _ _ _ _ _ _ _ _ (sample_acquire_pair _ _ _ _ _ _ _ _ _ released_run_ok)).
Qed.
#[export] Instance any_payload_idem : Idem any_payload.
Proof. apply any_idem. Qed.

Lemma reachable_store_replays_witness : run_replays any_payload flat_digest released_run.2 "run-1".
Proof. exact (reachable_store_replays any_payload flat_digest flat_digest _ _ released_run_reachable). Defined.

Lemma streams_only_grow_witness : harness_events released_run.2 `prefix_of` harness_events released_run.2.
Proof.
  exact (proj1 (streams_only_grow any_payload flat_digest flat_digest _ _ released_run_reachable
    (rtc_refl _ _))).
Defined.

Lemma stale_counters_never_commit_witness :
  is_ok (sample_append created_run.2 created_event 0 0 None None) = false.
Proof.
  apply never_Ok. intros [c st]. refine (stale_counters_never_commit any_payload flat_digest flat_digest empty_store created_run.2 created_run.2
    created_event created_event created_run.1 0 0 0 None None None None (rtc_refl _ _) _ (rtc_refl _ _) _ c st).
  - exact (sample_append_pair _ _ _ _ _ _ _ created_run_ok).
  - intros ev H. vm_compute in H. injection H as <-. vm_compute. reflexivity.
Defined.

Lemma work_transitions_hold_the_lease_witness :
  exists q, Some (5 # 1) = Some q /\ (q < 100 # 1)%Q.
Proof.
  destruct (work_transitions_hold_the_lease any_payload flat_digest flat_digest leased_run.2 pending_run.2
    pending_event pending_run.1 (sample_transition E_work_item "item-1" "none" "pending" "k2" 1) 1 1
    (Some leased_run.1) (Some (5 # 1)))
    as (l & row & q & _ & _ & _ & _ & _ & _ & _ & _ & _ & Hq & _).
  - exact (sample_append_pair _ _ _ _ _ _ _ pending_run_ok).
  - vm_compute. reflexivity.
  - discriminate.
  - exists q. split; [exact Hq|]. injection Hq as <-. reflexivity.
Defined.

Lemma superseded_lease_is_fenced_witness :
  is_ok (sample_append released_run.2 pending_event 2 2 (Some leased_run.1) (Some (5 # 1))) = false.
Proof.
  apply never_Ok. refine (superseded_lease_is_fenced any_payload flat_digest flat_digest created_run.2 leased_run.2 pending_run.2
    released_run.2 released_run.2 "run-1" "item-1" "try-1" "try-1" "holder" "holder" "00" "00" (100 # 1) (100 # 1)
    0 1 leased_run.1 released_run.1 eq_refl eq_refl _ _ _ (rtc_refl _ _) pending_event 2 2 (Some (5 # 1))).
  - exact (sample_acquire_pair _ _ _ _ _ _ _ _ _ leased_run_ok).
  - apply rtc_once. eapply norm_append.
    exact (sample_append_pair _ _ _ _ _ _ _ pending_run_ok).
  - exact (sample_acquire_pair _ _ _ _ _ _ _ _ _ released_run_ok).
Defined.

Lemma padded_identifier_resets_epoch_witness :
  lease_epoch released_run.2 ("run-1", "item-1") = 2 /\
  lease_epoch padded_run.2 (lt_run_id padded_run.1, "item-1") = 1.
Proof.
  split; [vm_compute; reflexivity|].
  refine (proj2 (proj2 (padded_identifier_resets_epoch any_payload flat_digest flat_digest released_run.2
    padded_run.2 "run-1" " item-1" "item-1" "try-1" "holder" "00" (100 # 1) 0 padded_run.1
    released_run_reachable eq_refl _ _))).
  - discriminate.
  - vm_compute. reflexivity.
Defined.

Lemma snapshots_never_have_unknown_effects_witness :
  v_external_side_effect_unknown
    (unwrap empty_view (snapshot any_payload flat_digest released_run.2 "run-1")) = false.
Proof.
  apply (snapshots_never_have_unknown_effects any_payload flat_digest flat_digest released_run.2 "run-1").
  vm_compute. reflexivity.
Defined.

Definition folded_view : HarnessSessionView :=
  set_evidence (set_cursor (running_view R_RUNNING false) 5 (Some "run-1") (Some "trace-1") (Some zero_digest))
    (v_transition_authorities (in_view start_item)) [] [].
Definition folded_inputs : Inputs :=
  {| in_candidate := in_candidate start_item; in_view := folded_view;
     in_authorization := in_authorization start_item; in_retry := None; in_resolution := None |}.
Definition started_transition : HarnessTransition :=
  sample_transition E_work_item "item-1" "leased" "running" "k1" 0.
Definition started_event : HarnessEvent :=
  with_counters (sample_event "e9" (Some "item-1") (Some "try-1") (Some started_transition)) 6 1
    (Some zero_digest) (Some zero_digest).

Lemma fold_follows_state_machine_witness :
  is_ok (apply_committed_event folded_view started_event) = true.
Proof.
  refine (eq_trans (f_equal is_ok (fold_follows_state_machine any_payload flat_digest flat_digest
    folded_inputs folded_inputs (unwrap empty_view (apply folded_inputs)) started_transition started_event
    _ _ _ _ _ _ _ _ _ _)) eq_refl); try (vm_compute; reflexivity).
  unfold pins_nothing. split; [|split]; vm_compute; reflexivity.
Defined.
