(* ===== verification/LoopGuard.v ===== *)
(** * The loop guard: market_agent/workflow_loop_guard.py

    Semantic fingerprints, the cycle detector, the comparison of progress vectors
    and the bounded per-scope guard that stops a run which repeats itself.  The
    digest ([sha256] of canonical JSON) is the section's parameter; the values it
    is applied to are the constructors of [Digested]. *)
From Stdlib Require Import QArith Qabs.
From S2P Require Import Prelude PyStrings PyDict PyRegex PyJson PyModel HarnessContracts HarnessStateMachine HarnessSession.
Local Open Scope string_scope.
Local Open Scope list_scope.
Local Open Scope Z_scope.

Definition FINGERPRINT_SCHEMA_VERSION : string := "v1".
Definition STATE_WINDOW_SIZE : nat := 12.
Definition ACTION_WINDOW_SIZE : nat := 5.
Definition RECOVERY_SIGNATURE_CAPACITY : nat := 12.
Definition MAX_ARGUMENTS : Z := 16.
Definition MAX_VALUE_LENGTH : Z := 256.
Definition MAX_NUMERIC_ABS : Z := 1000000000.

(** ** Progress *)
Record ProgressVector := {
  pg_completed_dependency_count : Z; pg_valid_required_field_count : Z;
  pg_filled_required_evidence_slot_count : Z; pg_fresh_authoritative_source_coverage : Q;
  pg_missing_evidence_count : Z; pg_validation_error_count : Z;
  pg_unresolved_conflict_count : Z; pg_risk_invariant_failure_count : Z }.
Definition validate_progress : cleaner ProgressVector := fun p =>
  a ← NonNegativeInt (pg_completed_dependency_count p);
  b ← NonNegativeInt (pg_valid_required_field_count p);
  c ← NonNegativeInt (pg_filled_required_evidence_slot_count p);
  d ← FiniteUnit (pg_fresh_authoritative_source_coverage p);
  e ← NonNegativeInt (pg_missing_evidence_count p);
  f ← NonNegativeInt (pg_validation_error_count p);
  g ← NonNegativeInt (pg_unresolved_conflict_count p);
  h ← NonNegativeInt (pg_risk_invariant_failure_count p);
  Ok {| pg_completed_dependency_count := a; pg_valid_required_field_count := b;
        pg_filled_required_evidence_slot_count := c; pg_fresh_authoritative_source_coverage := d;
        pg_missing_evidence_count := e; pg_validation_error_count := f;
        pg_unresolved_conflict_count := g; pg_risk_invariant_failure_count := h |}.

Definition POSITIVE_FIELDS : list string :=
  ["completed_dependency_count"; "valid_required_field_count";
   "filled_required_evidence_slot_count"; "fresh_authoritative_source_coverage"].
Definition NEGATIVE_FIELDS : list string :=
  ["missing_evidence_count"; "validation_error_count";
   "unresolved_conflict_count"; "risk_invariant_failure_count"].
Definition ALL_PROGRESS_FIELDS : list string := POSITIVE_FIELDS ++ NEGATIVE_FIELDS.
(** [getattr(vector, field)], every dimension as a rational. *)
Definition progress_field (p : ProgressVector) (field : string) : Q :=
  if String.eqb field "completed_dependency_count" then inject_Z (pg_completed_dependency_count p)
  else if String.eqb field "valid_required_field_count" then inject_Z (pg_valid_required_field_count p)
  else if String.eqb field "filled_required_evidence_slot_count"
  then inject_Z (pg_filled_required_evidence_slot_count p)
  else if String.eqb field "fresh_authoritative_source_coverage" then pg_fresh_authoritative_source_coverage p
  else if String.eqb field "missing_evidence_count" then inject_Z (pg_missing_evidence_count p)
  else if String.eqb field "validation_error_count" then inject_Z (pg_validation_error_count p)
  else if String.eqb field "unresolved_conflict_count" then inject_Z (pg_unresolved_conflict_count p)
  else inject_Z (pg_risk_invariant_failure_count p).

Record SeverityPolicy := {
  sp_policy_version : string; sp_critical_positive_regressions : list string;
  sp_critical_negative_regressions : list string }.
Definition subset (xs ys : list string) : bool := forallb (fun x => bool_decide (x ∈ ys)) xs.
Definition validate_policy (p : SeverityPolicy) : result unit :=
  _ ← check (subset (sp_critical_positive_regressions p) POSITIVE_FIELDS &&
             subset (sp_critical_negative_regressions p) NEGATIVE_FIELDS)
        (ValueError "severity fields must be declared progress dimensions");
  check (unique (sp_critical_positive_regressions p) && unique (sp_critical_negative_regressions p))
    (ValueError "severity fields must be unique").

Record ProgressDecision := {
  pd_advanced : bool; pd_critical_regression : bool; pd_worsened_fields : list string }.
Definition validate_progress_decision (d : ProgressDecision) : result unit :=
  _ ← raise_when (pd_advanced d && (pd_critical_regression d || negb (bool_decide (pd_worsened_fields d = []))))
        (ValueError "advanced progress cannot contain a regression");
  raise_when (pd_critical_regression d && bool_decide (pd_worsened_fields d = []))
    (ValueError "critical regression requires a worsened dimension").

Definition Qlt_bool (a b : Q) : bool := negb (Qle_bool b a).
Definition worsened_fields (before after : ProgressVector) : list string :=
  List.filter (fun f => Qlt_bool (progress_field after f) (progress_field before f)) POSITIVE_FIELDS ++
  List.filter (fun f => Qlt_bool (progress_field before f) (progress_field after f)) NEGATIVE_FIELDS.
(** [compare_progress] *)
Definition compare_progress (before after : ProgressVector) (policy : SeverityPolicy) : ProgressDecision :=
  let worsened := worsened_fields before after in
  let critical :=
    existsb (fun f => bool_decide (f ∈ sp_critical_positive_regressions policy)) worsened ||
    existsb (fun f => bool_decide (f ∈ sp_critical_negative_regressions policy)) worsened in
  if critical then
    {| pd_advanced := false; pd_critical_regression := true; pd_worsened_fields := worsened |}
  else
    {| pd_advanced := bool_decide (worsened = []) &&
         existsb (fun f => negb (Qeq_bool (progress_field after f) (progress_field before f))) ALL_PROGRESS_FIELDS;
       pd_critical_regression := false; pd_worsened_fields := worsened |}.

(** ** Scopes and observations *)
Inductive LoopScope := S_ATTEMPT | S_WORK_ITEM | S_STAGE | S_RUN.
#[export] Instance LoopScope_eq_dec : EqDecision LoopScope.
Proof. solve_decision. Defined.
Inductive ObservationKind := B_SEMANTIC_CHECKPOINT | B_HEARTBEAT | B_INFRASTRUCTURE.
#[export] Instance ObservationKind_eq_dec : EqDecision ObservationKind.
Proof. solve_decision. Defined.
Definition is_semantic (k : ObservationKind) : bool := bool_decide (k = B_SEMANTIC_CHECKPOINT).

(** ** Canonical arguments *)
Inductive SemanticArgumentName :=
  | N_LABEL | N_SYMBOL | N_EVENT_TYPE | N_ATTEMPT_LIMIT | N_OPERATION | N_TARGET
  | N_CONDITION | N_MODE | N_LIMIT.
#[export] Instance SemanticArgumentName_eq_dec : EqDecision SemanticArgumentName.
Proof. solve_decision. Defined.
Definition argument_name_value (n : SemanticArgumentName) : string :=
  match n with
  | N_LABEL => "label" | N_SYMBOL => "symbol" | N_EVENT_TYPE => "event_type"
  | N_ATTEMPT_LIMIT => "attempt_limit" | N_OPERATION => "operation" | N_TARGET => "target"
  | N_CONDITION => "condition" | N_MODE => "mode" | N_LIMIT => "limit"
  end.
Definition argument_name_of : string -> option SemanticArgumentName :=
  enum_of argument_name_value
    [N_LABEL; N_SYMBOL; N_EVENT_TYPE; N_ATTEMPT_LIMIT; N_OPERATION; N_TARGET; N_CONDITION; N_MODE; N_LIMIT].

Definition is_letter (c : ascii) : bool := is_lower c || is_upper c.
Definition alnum (c : ascii) : bool := is_letter c || is_digit c.
Definition or_chars (p : ascii -> bool) (extra : string) (c : ascii) : bool := p c || any_of extra c.
Definition anchored (r : regex) : regex := seqs [Bol; r; Eol].
Definition at_least (n : nat) (r : regex) : regex := Seq (rep n r) (Star r).
Definition IDENTIFIER_RE : regex :=
  anchored (Seq (Chr alnum) (upto 63 (Chr (or_chars alnum "_.-")))).
Definition lower_alnum (c : ascii) : bool := is_lower c || is_digit c.
Definition CODE_RE : regex :=
  anchored (Seq (Chr is_lower) (upto 63 (Chr (or_chars lower_alnum "_-")))).
Definition SYMBOL_RE : regex := anchored (Seq (Chr is_letter) (upto 15 (Chr alnum))).
Definition WORKER_ID_RE : regex :=
  anchored (Seq (Chr is_lower) (upto 31 (Chr (or_chars lower_alnum "-")))).
Definition jwt_part : regex := at_least 8 (Chr (or_chars alnum "_-")).
Definition JWT_RE : regex := anchored (seqs [jwt_part; lit "."; jwt_part; lit "."; jwt_part]).
Definition hex64 : regex := rep 64 (Chr hex_digit).

(** [_looks_sensitive] *)
Definition looks_sensitive (value : string) : bool :=
  fullmatch JWT_RE value ||
  fullmatch (Seq (lit "ghp_") (at_least 20 (Chr alnum))) value ||
  fullmatch (Seq (lit "AKIA") (rep 16 (Chr (fun c => is_upper c || is_digit c)))) value ||
  fullmatch (Seq (lit "sk-live-") (plus_re (Chr (or_chars alnum "-")))) value ||
  re_match (seqs [Bol; ilit "bearer"; plus_re hspace; at_least 12 (Chr (or_chars alnum "._-")); Eol]) value ||
  startswith value "-----BEGIN " ||
  search (seqs [Alt Bol (Chr (any_of "_-")); alts [lit "secret"; lit "password"; lit "credential"];
                Alt (Chr (any_of "_-")) Eol]) (lower value).
(** [_safe_code] *)
Definition safe_code (value : string) : bool :=
  (Z.of_nat (String.length value) <=? 32) && negb (looks_sensitive value).

Definition invalid_action : exn := ValueError "invalid action fingerprint input".
(** [_validate_scalar] *)
Definition validate_scalar (value : Json) : result unit :=
  match value with
  | JStr s => raise_when ((MAX_VALUE_LENGTH <? Z.of_nat (String.length s)) || looks_sensitive s) invalid_action
  | JBool _ => Ok tt
  | JInt n => raise_when (MAX_NUMERIC_ABS <? Z.abs n) invalid_action
  | JFloat q => raise_when (Qlt_bool (inject_Z MAX_NUMERIC_ABS) (Qabs q)) invalid_action
  | _ => Raise invalid_action
  end.
(** [_validate_argument_tree], by recursion on the tree: every rejection raises the
    same error, so the order of the worklist is not observed. *)
Fixpoint validate_argument_tree (value : Json) (depth : Z) : result unit :=
  if 4 <? depth then Raise invalid_action
  else match value with
  | JObject fields =>
      _ ← raise_when (MAX_ARGUMENTS <? Z.of_nat (length fields)) invalid_action;
      (fix go fields := match fields with
       | [] => Ok tt
       | (_, item) :: fields => _ ← validate_argument_tree item (depth + 1); go fields
       end) fields
  | JList l =>
      _ ← raise_when (MAX_ARGUMENTS <? Z.of_nat (length l)) invalid_action;
      (fix go l := match l with
       | [] => Ok tt
       | item :: l => _ ← validate_argument_tree item (depth + 1); go l
       end) l
  | scalar => validate_scalar scalar
  end.
(** [_validate_argument_value] *)
Definition validate_argument_value (name : SemanticArgumentName) (value : Json) : result unit :=
  if bool_decide (name ∈ [N_ATTEMPT_LIMIT; N_LIMIT]) then
    match value with
    | JInt n => check ((0 <=? n) && (n <=? 1000000)) invalid_action
    | _ => Raise invalid_action
    end
  else match value with
  | JStr s =>
      _ ← check (safe_code s) invalid_action;
      if bool_decide (name = N_SYMBOL) then check (fullmatch SYMBOL_RE s) invalid_action
      else check (fullmatch CODE_RE s) invalid_action
  | _ => Raise invalid_action
  end.
Definition normalize_argument (name : SemanticArgumentName) (value : Json) : Json :=
  match value with
  | JStr s => if bool_decide (name = N_SYMBOL) then JStr (upper s) else JStr (lower s)
  | other => other
  end.
Definition is_container (value : Json) : bool :=
  match value with JList _ | JObject _ => true | _ => false end.
Definition argument (field : string * Json) : result (string * Json) :=
  match argument_name_of field.1 with
  | None => Raise invalid_action
  | Some name =>
      _ ← validate_argument_value name field.2;
      Ok (argument_name_value name, normalize_argument name field.2)
  end.
(** [_arguments]: sorted by name. *)
Definition arguments (value : Json) : result (list (string * Json)) :=
  _ ← validate_argument_tree value 0;
  match value with
  | JObject fields =>
      _ ← raise_when (MAX_ARGUMENTS <? Z.of_nat (length fields)) invalid_action;
      _ ← raise_when (existsb (fun f => is_container f.2) fields) invalid_action;
      normalized ← mapM argument fields;
      Ok (sorted_items normalized)
  | _ => Raise invalid_action
  end.

(** ** Fingerprint inputs *)
Record ActionFingerprintInput := {
  ai_worker_id : string; ai_worker_version : string; ai_action_kind : string;
  ai_canonical_arguments : list (string * Json);
  ai_context_hash : string; ai_dependency_hash : string; ai_plan_revision : Z;
  ai_prompt_hash : string; ai_tool_hash : string; ai_output_schema_hash : string;
  ai_model_route : string; ai_correction_ordinal : Z }.
(** [StrictInt | ShortText] *)
Definition semantic_scalar : cleaner Json := fun j =>
  match j with
  | JInt n => Ok (JInt n)
  | JStr s => JStr <$> ShortText s
  | _ => Raise (ValidationError "semantic scalar")
  end.
Definition validate_action_input : cleaner ActionFingerprintInput :=
  model
    (fun a =>
      worker ← ShortText (ai_worker_id a);
      version ← ShortText (ai_worker_version a);
      kind ← ShortText (ai_action_kind a);
      args ← max_length MAX_ARGUMENTS (tuple_of (pair_of any semantic_scalar)) (ai_canonical_arguments a);
      context ← Digest (ai_context_hash a);
      deps ← Digest (ai_dependency_hash a);
      rev ← NonNegativeInt (ai_plan_revision a);
      prompt ← Digest (ai_prompt_hash a);
      tool ← Digest (ai_tool_hash a);
      schema ← Digest (ai_output_schema_hash a);
      route ← ShortText (ai_model_route a);
      ordinal ← NonNegativeInt (ai_correction_ordinal a);
      Ok {| ai_worker_id := worker; ai_worker_version := version; ai_action_kind := kind;
            ai_canonical_arguments := args; ai_context_hash := context; ai_dependency_hash := deps;
            ai_plan_revision := rev; ai_prompt_hash := prompt; ai_tool_hash := tool;
            ai_output_schema_hash := schema; ai_model_route := route; ai_correction_ordinal := ordinal |})
    (fun a =>
      _ ← check (unique (ai_canonical_arguments a).*1) invalid_action;
      each (fun f => match argument_name_of f.1 with
                     | Some name => validate_argument_value name f.2
                     | None => Raise invalid_action
                     end) (ai_canonical_arguments a)).

Record ResultFingerprintInput := {
  ri_outcome_kind : string; ri_validated_output_hash : option string;
  ri_normalized_error_class : option string; ri_normalized_error_code : option string;
  ri_accepted_evidence_ids : list string; ri_tool_result_hashes : list string;
  ri_result_schema_version : string }.
Definition invalid_result : exn := ValueError "invalid result fingerprint input".
Definition validate_result_input : cleaner ResultFingerprintInput :=
  model
    (fun r =>
      kind ← ShortText (ri_outcome_kind r);
      output ← optional Digest (ri_validated_output_hash r);
      class ← optional ShortText (ri_normalized_error_class r);
      code ← optional ShortText (ri_normalized_error_code r);
      evidence ← max_length 64 (tuple_of ShortText) (ri_accepted_evidence_ids r);
      tools ← max_length 64 (tuple_of Digest) (ri_tool_result_hashes r);
      version ← ShortText (ri_result_schema_version r);
      Ok {| ri_outcome_kind := kind; ri_validated_output_hash := output;
            ri_normalized_error_class := class; ri_normalized_error_code := code;
            ri_accepted_evidence_ids := evidence; ri_tool_result_hashes := tools;
            ri_result_schema_version := version |})
    (fun r => check (unique (ri_accepted_evidence_ids r) && unique (ri_tool_result_hashes r)) invalid_result).

Record StateFingerprintInput := {
  si_run_state : string; si_work_item_state : string; si_attempt_state : string; si_stage_id : string;
  si_plan_revision : Z; si_unresolved_work_ids : list string;
  si_dependency_versions : list (string * Z); si_progress : ProgressVector;
  si_normalized_error_class : option string }.
Definition invalid_state : exn := ValueError "invalid state fingerprint input".
Definition validate_state_input : cleaner StateFingerprintInput :=
  model
    (fun s =>
      run ← ShortText (si_run_state s);
      item ← ShortText (si_work_item_state s);
      attempt ← ShortText (si_attempt_state s);
      stage ← ShortText (si_stage_id s);
      rev ← NonNegativeInt (si_plan_revision s);
      unresolved ← max_length 64 (tuple_of ShortText) (si_unresolved_work_ids s);
      deps ← max_length 64 (tuple_of (pair_of ShortText NonNegativeInt)) (si_dependency_versions s);
      progress ← validate_progress (si_progress s);
      class ← optional ShortText (si_normalized_error_class s);
      Ok {| si_run_state := run; si_work_item_state := item; si_attempt_state := attempt;
            si_stage_id := stage; si_plan_revision := rev; si_unresolved_work_ids := unresolved;
            si_dependency_versions := deps; si_progress := progress; si_normalized_error_class := class |})
    (fun s =>
      _ ← check (unique (si_unresolved_work_ids s)) invalid_state;
      check (unique (si_dependency_versions s).*1) invalid_state).

(** The order of [(str, int)] tuples. *)
Definition pair_leb (a b : string * Z) : bool :=
  if String.eqb a.1 b.1 then a.2 <=? b.2 else String.leb a.1 b.1.

(** What [_digest] is applied to; [fingerprint_schema_version] is the constant, but
    for cycles, where it is the checkpoint's. *)
Inductive Digested :=
  | DAction (input : ActionFingerprintInput)
  | DResult (input : ResultFingerprintInput)
  | DState (input : StateFingerprintInput)
  | DObservation (scope : LoopScope) (action result : string)
  | DCycle (scope : LoopScope) (plan_revision : Z) (version : string) (period : list string).

Record ActionObservation := {
  ob_digest : string; ob_scope : LoopScope; ob_action : string; ob_result : string }.
Record CycleSignature := {
  cy_digest : string; cy_scope : LoopScope; cy_plan_revision : Z;
  cy_fingerprint_schema_version : string; cy_period : list string }.
#[export] Instance CycleSignature_eq_dec : EqDecision CycleSignature.
Proof. solve_decision. Defined.

(** [min] of tuples of strings: lexicographic. *)
Fixpoint lex_leb (a b : list string) : bool :=
  match a, b with
  | [], _ => true
  | _ :: _, [] => false
  | x :: a, y :: b => if String.eqb x y then lex_leb a b else String.leb x y
  end.
Definition min_list (l : list (list string)) : list string :=
  match l with
  | [] => []
  | x :: l => fold_left (fun best y => if lex_leb best y then best else y) l x
  end.
Definition rotated (n : nat) (l : list string) : list string := drop n l ++ take n l.
(** [_normalize_rotation] *)
Definition normalize_rotation (period : list string) : list string :=
  min_list ((fun n => rotated n period) <$> seq 0 (length period)).
Definition repeat_list (n : nat) (l : list string) : list string := mjoin (replicate n l).
(** [_is_primitive] *)
Definition is_primitive (values : list string) : bool :=
  negb (existsb (fun size => Nat.eqb (length values mod size) 0 &&
                   bool_decide (values = repeat_list (length values / size) (take size values)))
          (seq 1 (length values - 1))).

(** [detect_cycle]; [last n l] is [l[-n:]]. *)
Definition last_n {A} (n : nat) (l : list A) : list A := drop (length l - n) l.
Definition repeats (length : nat) (recent : list string) : bool :=
  bool_decide (take length (last_n (2 * length) recent) = last_n length recent).
Definition detect_cycle (states : list string) : option (list string) :=
  let recent := last_n STATE_WINDOW_SIZE states in
  match List.find (fun n => repeats n recent) (seq 1 (Nat.min 6 (length recent / 2))) with
  | Some n => Some (normalize_rotation (last_n n recent))
  | None => None
  end.

Record LoopDecision := {
  ld_allowed : bool; ld_ignored : bool; ld_stop_reason : option string;
  ld_cycle_signature : option CycleSignature }.
Definition validate_decision_shape (d : LoopDecision) : result unit :=
  _ ← raise_when (ld_ignored d && (negb (ld_allowed d) || is_Some_b (ld_stop_reason d) ||
                                   is_Some_b (ld_cycle_signature d)))
        (ValueError "ignored decisions must be neutral and allowed");
  _ ← raise_when (ld_allowed d && negb (ld_ignored d) && is_Some_b (ld_stop_reason d))
        (ValueError "allowed decisions cannot have a stop reason");
  raise_when (negb (ld_allowed d) && negb (is_Some_b (ld_stop_reason d)))
    (ValueError "stopped decisions require a reason").
Definition allowed_decision : LoopDecision :=
  {| ld_allowed := true; ld_ignored := false; ld_stop_reason := None; ld_cycle_signature := None |}.
Definition ignored_decision : LoopDecision :=
  {| ld_allowed := true; ld_ignored := true; ld_stop_reason := None; ld_cycle_signature := None |}.
Definition stopped (reason : string) (signature : option CycleSignature) : LoopDecision :=
  {| ld_allowed := false; ld_ignored := false; ld_stop_reason := Some reason;
     ld_cycle_signature := signature |}.

Record SemanticCheckpoint := {
  ck_scope : LoopScope; ck_observation_kind : ObservationKind; ck_state_fingerprint : string;
  ck_progress : ProgressVector; ck_plan_revision : Z; ck_fingerprint_schema_version : string;
  ck_worker_id : option string; ck_normalized_failure : option string;
  ck_failure_context_hash : option string; ck_failure_dependency_hash : option string;
  ck_correction_ordinal : Z; ck_model_route : option string }.
Definition validate_failure_shape (c : SemanticCheckpoint) : result unit :=
  let fields := [is_Some_b (ck_failure_context_hash c); is_Some_b (ck_failure_dependency_hash c);
                 is_Some_b (ck_model_route c)] in
  _ ← raise_when (negb (is_Some_b (ck_normalized_failure c)) &&
                  (is_Some_b (ck_worker_id c) || existsb id fields))
        (ValueError "failure metadata requires a normalized failure");
  _ ← raise_when (is_Some_b (ck_normalized_failure c) &&
                  (negb (is_Some_b (ck_worker_id c)) || existsb negb fields))
        (ValueError "normalized failure requires complete semantic route metadata");
  match ck_worker_id c with
  | Some worker => check (fullmatch WORKER_ID_RE worker)
                     (ValueError "worker identifier must be canonical lowercase ASCII")
  | None => Ok tt
  end.

(** ** Guard state, per scope *)
Definition Failure : Type :=
  option string * (option string * option string * option string * Z * option string).
Record ScopeState := {
  g_actions : list ActionObservation; g_states : list string; g_progress : option ProgressVector;
  g_no_progress : Z; g_failures : list Failure;
  g_observed_cycles : list (string * CycleSignature);
  g_recoveries : list (string * CycleSignature) }.
Definition LoopGuard : Type := LoopScope -> ScopeState.
(** [LoopGuard.__init__] *)
Definition fresh_scope : ScopeState :=
  {| g_actions := []; g_states := []; g_progress := None; g_no_progress := 0; g_failures := [];
     g_observed_cycles := []; g_recoveries := [] |}.
Definition fresh_guard : LoopGuard := fun _ => fresh_scope.
Definition set_scope (g : LoopGuard) (scope : LoopScope) (s : ScopeState) : LoopGuard :=
  fun x => if decide (x = scope) then s else g x.
(** [deque(maxlen=n).append(x)] *)
Definition push {A} (n : nat) (x : A) (l : list A) : list A := last_n n (l ++ [x]).

Definition with_actions (s : ScopeState) actions : ScopeState :=
  {| g_actions := actions; g_states := g_states s; g_progress := g_progress s;
     g_no_progress := g_no_progress s; g_failures := g_failures s;
     g_observed_cycles := g_observed_cycles s; g_recoveries := g_recoveries s |}.
Definition with_states (s : ScopeState) states : ScopeState :=
  {| g_actions := g_actions s; g_states := states; g_progress := g_progress s;
     g_no_progress := g_no_progress s; g_failures := g_failures s;
     g_observed_cycles := g_observed_cycles s; g_recoveries := g_recoveries s |}.
Definition with_progress (s : ScopeState) progress count : ScopeState :=
  {| g_actions := g_actions s; g_states := g_states s; g_progress := progress;
     g_no_progress := count; g_failures := g_failures s;
     g_observed_cycles := g_observed_cycles s; g_recoveries := g_recoveries s |}.
Definition with_failures (s : ScopeState) failures : ScopeState :=
  {| g_actions := g_actions s; g_states := g_states s; g_progress := g_progress s;
     g_no_progress := g_no_progress s; g_failures := failures;
     g_observed_cycles := g_observed_cycles s; g_recoveries := g_recoveries s |}.
Definition with_cycles (s : ScopeState) observed recoveries : ScopeState :=
  {| g_actions := g_actions s; g_states := g_states s; g_progress := g_progress s;
     g_no_progress := g_no_progress s; g_failures := g_failures s;
     g_observed_cycles := observed; g_recoveries := recoveries |}.

Definition count_by {A} (p : A -> bool) (l : list A) : nat := length (List.filter p l).

(** ** Rotations *)
Definition rot1 (l : list string) : list string := match l with [] => [] | x :: l => l ++ [x] end.
Lemma rot1_length l : length (rot1 l) = length l.
Proof. destruct l; simpl; [done|]. rewrite length_app. simpl. lia. Qed.
Lemma rot1_inj l k : rot1 l = rot1 k -> l = k.
Proof.
  destruct l, k; simpl; intros H; try done; try (by destruct l); try (by destruct k).
  by apply app_inj_2 in H as [-> [= ->]].
Qed.
Lemma rotated_iter n l : (n <= length l)%nat -> rotated n l = Nat.iter n rot1 l.
Proof.
  intros Hn. symmetry. revert l Hn. induction n as [|n IH]; intros l Hn; simpl.
  { unfold rotated. by rewrite drop_0, take_0, app_nil_r. }
  rewrite IH by lia. unfold rotated.
  destruct (drop n l) as [|x d] eqn:E.
  { apply (f_equal length) in E. rewrite length_drop in E. simpl in E. lia. }
  assert (Hx : l !! n = Some x).
  { rewrite <- (Nat.add_0_r n), <- lookup_drop, E. done. }
  assert (Hd : drop (S n) l = d).
  { rewrite (drop_S _ _ _ Hx) in E. by injection E. }
  simpl. rewrite Hd, (take_S_r _ _ _ Hx). by rewrite (assoc_L (++)).
Qed.
Lemma iter_rot1_length n l : length (Nat.iter n rot1 l) = length l.
Proof. induction n; simpl; [done|]. by rewrite rot1_length. Qed.
Lemma iter_rot1_inj n l k : Nat.iter n rot1 l = Nat.iter n rot1 k -> l = k.
Proof. induction n; simpl; [done|]. intros H. by apply IHn, rot1_inj. Qed.
Lemma iter_full l : Nat.iter (length l) rot1 l = l.
Proof.
  rewrite <- rotated_iter by done. unfold rotated. by rewrite drop_all, take_ge by done.
Qed.
Lemma iter_full_add n l : Nat.iter (n + length l) rot1 l = Nat.iter n rot1 l.
Proof. by rewrite Nat.iter_add, iter_full. Qed.
(** Every number of rotations is one below the length. *)
Lemma iter_rotation n l : l <> [] -> exists k, (k < length l)%nat /\ Nat.iter n rot1 l = rotated k l.
Proof.
  intros Hl. assert (0 < length l)%nat by (destruct l; simpl; [done|lia]).
  induction n as [n IH] using lt_wf_ind.
  destruct (decide (n < length l)%nat) as [Hn|Hn].
  - exists n. split; [done|]. by rewrite rotated_iter by lia.
  - destruct (IH (n - length l)%nat) as (k & Hk & E); [lia|]. exists k. split; [done|].
    rewrite <- E, <- (iter_full_add (n - length l)). by replace (n - length l + length l)%nat with n by lia.
Qed.

(** A list whose rotation by [size] is itself repeats with that period. *)
Lemma rotated_fix_square size u :
  (size <= length u)%nat -> rotated size u = u ->
  exists t r, length t = size /\ u ++ u = r ++ t ++ t.
Proof.
  intros Hs Hr. unfold rotated in Hr. pose proof (take_drop size u) as Htd.
  set (t := take size u) in *. set (d := drop size u) in *.
  assert (Hlen : length t = size) by (apply length_take_le; lia).
  exists t, (d ++ d). split; [done|].
  rewrite <- Htd in Hr |- *. clearbody t d. clear Htd Hs.
  replace ((t ++ d) ++ t ++ d) with ((d ++ t) ++ d ++ t) by by rewrite Hr.
  rewrite <- !(assoc_L (++)). f_equal. rewrite (assoc_L (++) t d t), <- Hr. by rewrite <- !(assoc_L (++)).
Qed.

Lemma repeat_list_length n l : length (repeat_list n l) = (n * length l)%nat.
Proof. unfold repeat_list. induction n; simpl; [done|]. rewrite length_app. lia. Qed.
Lemma repeat_list_snoc n w : repeat_list n w ++ w = w ++ repeat_list n w.
Proof.
  unfold repeat_list. induction n; simpl; [by rewrite app_nil_r|]. by rewrite <- (assoc_L (++)), IHn.
Qed.
(** A list made of copies of its first [size] elements is fixed by rotating it. *)
Lemma repeated_rotated size n p :
  length p = (n * size)%nat -> p = repeat_list n (take size p) -> rotated size p = p.
Proof.
  intros Hl Hp. destruct n as [|n].
  { simpl in Hl. apply nil_length_inv in Hl. subst p. unfold rotated. by rewrite drop_nil, take_nil. }
  assert (Ht : length (take size p) = size) by (apply length_take_le; lia).
  remember (take size p) as w eqn:Ew. unfold rotated. rewrite Hp. simpl. fold (repeat_list n w).
  unfold repeat_list. simpl. fold (repeat_list n w).
  rewrite drop_app_length' by done. rewrite take_app_length' by done. apply repeat_list_snoc.
Qed.

(** ** Lexicographic minimum *)
Lemma lex_leb_refl a : lex_leb a a = true.
Proof. induction a; simpl; [done|]. by rewrite String.eqb_refl. Qed.
Lemma lex_leb_total a b : lex_leb a b = true \/ lex_leb b a = true.
Proof.
  revert b. induction a as [|x a IH]; intros [|y b]; simpl; auto.
  rewrite (String.eqb_sym y x). destruct (String.eqb_spec x y); [auto|]. apply String.leb_total.
Qed.
Lemma lex_leb_trans a b c : lex_leb a b = true -> lex_leb b c = true -> lex_leb a c = true.
Proof.
  revert b c. induction a as [|x a IH]; intros [|y b] [|z c]; simpl; try done.
  destruct (String.eqb_spec x y) as [->|Hxy]; destruct (String.eqb_spec y z) as [->|Hyz];
    rewrite ?String.eqb_refl.
  - apply IH.
  - by intros _ ?.
  - rewrite (proj2 (String.eqb_neq x z)) by done. by intros ? _.
  - destruct (String.eqb_spec x z) as [->|Hxz]; [|by intros; eapply string_leb_trans].
    intros H1 H2. by rewrite (String.leb_antisym _ _ H1 H2) in *.
Qed.
Lemma lex_leb_antisym a b : lex_leb a b = true -> lex_leb b a = true -> a = b.
Proof.
  revert b. induction a as [|x a IH]; intros [|y b]; simpl; try done.
  rewrite (String.eqb_sym y x). destruct (String.eqb_spec x y) as [->|Hxy].
  - intros H1 H2. f_equal. by apply IH.
  - intros H1 H2. by rewrite (String.leb_antisym _ _ H1 H2) in *.
Qed.
Lemma min_list_spec l : l <> [] -> min_list l ∈ l /\ forall x, x ∈ l -> lex_leb (min_list l) x = true.
Proof.
  destruct l as [|x l]; [done|]. intros _. unfold min_list. revert x.
  induction l as [|y l IH]; intros x; simpl.
  { split; [by left|]. intros z ->%list_elem_of_singleton. apply lex_leb_refl. }
  destruct (lex_leb x y) eqn:E.
  - destruct (IH x) as [Hin Hle]. split; [set_solver|]. intros z Hz.
    apply elem_of_cons in Hz as [->|[->|Hz]%elem_of_cons]; [apply Hle; by left| |apply Hle; by right].
    eapply lex_leb_trans; [apply Hle; by left|done].
  - destruct (IH y) as [Hin Hle]. split; [set_solver|]. intros z Hz.
    destruct (lex_leb_total x y) as [|E']; [congruence|].
    apply elem_of_cons in Hz as [->|[->|Hz]%elem_of_cons]; [|apply Hle; by left|apply Hle; by right].
    eapply lex_leb_trans; [apply Hle; by left|done].
Qed.

Lemma rotations_elem p x :
  x ∈ ((fun n => rotated n p) <$> seq 0 (length p)) <-> exists k, (k < length p)%nat /\ x = rotated k p.
Proof.
  rewrite list_elem_of_fmap. setoid_rewrite elem_of_seq. split; intros (k & H); exists k; naive_solver lia.
Qed.
Lemma normalize_rotation_spec u :
  u <> [] -> exists k, (k < length u)%nat /\ normalize_rotation u = rotated k u /\
    forall n, lex_leb (normalize_rotation u) (Nat.iter n rot1 u) = true.
Proof.
  intros Hu. unfold normalize_rotation.
  destruct (min_list_spec ((fun n => rotated n u) <$> seq 0 (length u))) as [Hin Hle].
  { destruct u; simpl; done. }
  apply rotations_elem in Hin as (k & Hk & E). exists k. split_and!; [done|done|]. intros n.
  destruct (iter_rotation n u Hu) as (m & Hm & ->). apply Hle, rotations_elem. eauto.
Qed.
Lemma normalize_rotation_idem u :
  u <> [] -> normalize_rotation (normalize_rotation u) = normalize_rotation u.
Proof.
  intros Hu. destruct (normalize_rotation_spec u Hu) as (k & Hk & E & Hle).
  assert (Hp : normalize_rotation u <> []).
  { rewrite E. intros Hn. apply (f_equal length) in Hn. rewrite rotated_iter, iter_rot1_length in Hn by lia.
    by destruct u. }
  destruct (normalize_rotation_spec _ Hp) as (m & Hm & E' & Hle').
  apply lex_leb_antisym; [apply (Hle' 0%nat)|].
  rewrite E' at 1. rewrite rotated_iter by lia. rewrite E at 2. rewrite rotated_iter by lia.
  rewrite <- Nat.iter_add. apply Hle.
Qed.

(** ** The cycle detector *)
Lemma find_seq_first (p : nat -> bool) n : forall a m,
  List.find p (seq a n) = Some m ->
  (a <= m < a + n)%nat /\ p m = true /\ forall k, (a <= k < m)%nat -> p k = false.
Proof.
  induction n as [|n IH]; intros a m; simpl; [done|]. destruct (p a) eqn:E.
  - intros [= <-]. split_and!; [lia|lia|done|lia].
  - intros H%IH. destruct H as (? & ? & Hk). split_and!; [lia|lia|done|].
    intros k Hak. destruct (decide (k = a)) as [->|]; [done|]. apply Hk. lia.
Qed.
Lemma repeats_spec n l :
  (2 * n <= length l)%nat ->
  repeats n l = true <-> exists u, length u = n /\ (u ++ u) `suffix_of` l.
Proof.
  intros Hn. unfold repeats. rewrite bool_decide_eq_true. unfold last_n. split.
  - intros H. exists (drop (length l - n) l). rewrite length_drop. split; [lia|].
    exists (take (length l - 2 * n) l). rewrite <- H at 1.
    replace (drop (length l - n) l) with (drop n (drop (length l - 2 * n) l))
      by (rewrite drop_drop; f_equal; lia).
    by rewrite take_drop, take_drop.
  - intros (u & Hu & r & ->). rewrite !length_app in *.
    replace (length r + (length u + length u) - 2 * n)%nat with (length r) by lia.
    replace (length r + (length u + length u) - n)%nat with (length (r ++ u)) by (rewrite length_app; lia).
    rewrite drop_app_length, take_app_length' by done.
    by rewrite (assoc_L (++)), drop_app_length.
Qed.
Lemma last_n_suffix {A} n (l : list A) : last_n n l `suffix_of` l.
Proof. exists (take (length l - n) l). unfold last_n. by rewrite take_drop. Qed.
Lemma last_n_length {A} n (l : list A) : length (last_n n l) = Nat.min n (length l).
Proof. unfold last_n. rewrite length_drop. lia. Qed.
Lemma suffix_last_n {A} n (k l : list A) : (length k <= n)%nat -> k `suffix_of` l -> k `suffix_of` last_n n l.
Proof.
  intros Hk [r ->]. unfold last_n. rewrite length_app.
  exists (drop (length r + length k - n) r). rewrite drop_app_le by lia. done.
Qed.
Lemma square_suffix (states u : list string) :
  (1 <= length u <= 6)%nat ->
  (u ++ u) `suffix_of` states <->
  (2 * length u <= length (last_n STATE_WINDOW_SIZE states))%nat /\
  (u ++ u) `suffix_of` last_n STATE_WINDOW_SIZE states.
Proof.
  intros Hu. split.
  - intros Hs. apply (suffix_last_n STATE_WINDOW_SIZE) in Hs; [|rewrite length_app; unfold STATE_WINDOW_SIZE; lia].
    split; [|done]. apply suffix_length in Hs. rewrite length_app in Hs. lia.
  - intros [_ Hs]. etrans; [exact Hs|apply last_n_suffix].
Qed.

Lemma square_is_last (u l : list string) n :
  length u = n -> (u ++ u) `suffix_of` l -> last_n n l = u.
Proof.
  intros <- [r ->]. unfold last_n. rewrite (assoc_L (++)), length_app.
  replace (length (r ++ u) + length u - length u)%nat with (length (r ++ u)) by lia. by rewrite drop_app_length.
Qed.

Definition square_free_below (n : nat) (states : list string) : Prop :=
  forall w, (1 <= length w < n)%nat -> ~ (w ++ w) `suffix_of` states.

Lemma primitive_rotation u states k :
  (k < length u)%nat -> (u ++ u) `suffix_of` states -> square_free_below (length u) states ->
  is_primitive (rotated k u) = true.
Proof.
  intros Hk Hs Hfree. unfold is_primitive. apply negb_true_iff, not_true_iff_false. intros H.
  apply existsb_exists in H as (size & Hsize & H). apply andb_true_iff in H as [Hmod Hrep].
  apply Nat.eqb_eq in Hmod. apply bool_decide_eq_true in Hrep.
  apply list_elem_of_In, elem_of_seq in Hsize.
  rewrite rotated_iter in * by lia. rewrite iter_rot1_length in *.
  pose proof (Nat.div_mod (length u) size ltac:(lia)) as Hdm.
  apply repeated_rotated in Hrep; [|rewrite iter_rot1_length; lia].
  rewrite rotated_iter in Hrep by (rewrite iter_rot1_length; lia).
  rewrite <- Nat.iter_add, Nat.add_comm, Nat.iter_add in Hrep. apply iter_rot1_inj in Hrep.
  rewrite <- rotated_iter in Hrep by lia.
  destruct (rotated_fix_square size u ltac:(lia) Hrep) as (t & r & Ht & Hsq).
  apply (Hfree t); [lia|]. etrans; [|done]. exists r. by rewrite Hsq, (assoc_L (++)).
Qed.

(** What [detect_cycle] returns. *)
Lemma detect_cycle_spec states :
  match detect_cycle states with
  | Some p => exists u k, (1 <= length u <= 6)%nat /\ (u ++ u) `suffix_of` states /\
      square_free_below (length u) states /\ (k < length u)%nat /\ p = rotated k u /\
      normalize_rotation p = p /\ is_primitive p = true
  | None => square_free_below 7 states
  end.
Proof.
  unfold detect_cycle. set (recent := last_n STATE_WINDOW_SIZE states).
  assert (Hhalf : forall n, (n <= length recent / 2 <-> 2 * n <= length recent)%nat).
  { intros n. pose proof (Nat.div_mod (length recent) 2 ltac:(lia)).
    pose proof (Nat.mod_upper_bound (length recent) 2 ltac:(lia)). lia. }
  destruct (List.find _ _) as [n|] eqn:E.
  - apply find_seq_first in E as (Hn & Hr & Hmin).
    assert (Hn2 : (2 * n <= length recent)%nat) by (apply Hhalf; lia).
    apply repeats_spec in Hr as (u & Hu & Hs); [|done].
    rewrite (square_is_last u) by done.
    assert (Hfree : square_free_below (length u) states).
    { intros w Hw Hsw. apply square_suffix in Hsw as [Hl Hsw]; [|lia].
      assert (repeats (length w) recent = true) as Ht by (apply repeats_spec; eauto).
      rewrite Hmin in Ht by lia. done. }
    assert (Hsu : (u ++ u) `suffix_of` states) by (etrans; [exact Hs|apply last_n_suffix]).
    destruct (normalize_rotation_spec u) as (k & Hk & Ek & _); [by intros ->; simpl in *; lia|].
    exists u, k. split_and!; try done; try lia.
    + apply normalize_rotation_idem. intros ->. simpl in *. lia.
    + rewrite Ek. by eapply primitive_rotation.
  - intros w Hw Hsw. apply square_suffix in Hsw as [Hl Hsw]; [|lia]. fold recent in Hl, Hsw.
    assert (Hin : (length w) ∈ seq 1 (Nat.min 6 (length recent / 2))).
    { apply elem_of_seq. pose proof (proj2 (Hhalf (length w)) Hl). lia. }
    apply list_elem_of_In in Hin. pose proof (List.find_none _ _ E _ Hin) as Hf. simpl in Hf.
    rewrite (proj2 (repeats_spec _ _ Hl)) in Hf; [done|eauto].
Qed.

Section Guard.
Context (digest : Digested -> string) (severity_policy : SeverityPolicy).

(** ** Fingerprints *)
Definition action_inputs (worker_id worker_version action_kind : string) (canonical_arguments : Json)
    (context_hash dependency_hash : string) (plan_revision : Z)
    (prompt_hash tool_hash output_schema_hash model_route : string) (correction_ordinal : Z)
    : result ActionFingerprintInput :=
  _ ← check (fullmatch WORKER_ID_RE worker_id &&
             forallb (fun v => fullmatch IDENTIFIER_RE v && safe_code v)
               [worker_version; action_kind; model_route]) invalid_action;
  args ← arguments canonical_arguments;
  validate_action_input
    {| ai_worker_id := worker_id; ai_worker_version := worker_version; ai_action_kind := action_kind;
       ai_canonical_arguments := args; ai_context_hash := context_hash;
       ai_dependency_hash := dependency_hash; ai_plan_revision := plan_revision;
       ai_prompt_hash := prompt_hash; ai_tool_hash := tool_hash;
       ai_output_schema_hash := output_schema_hash; ai_model_route := model_route;
       ai_correction_ordinal := correction_ordinal |}.
Definition build_action_fingerprint (worker_id worker_version action_kind : string)
    (canonical_arguments : Json) (context_hash dependency_hash : string) (plan_revision : Z)
    (prompt_hash tool_hash output_schema_hash model_route : string) (correction_ordinal : Z)
    (extra : list (string * Json)) : result string :=
  values ← except_as
    (_ ← raise_when (negb (bool_decide (length extra = 0%nat))) invalid_action;
     action_inputs worker_id worker_version action_kind canonical_arguments context_hash dependency_hash
       plan_revision prompt_hash tool_hash output_schema_hash model_route correction_ordinal)
    invalid_action;
  Digest (digest (DAction values)).

Definition code_or_none (value : option string) : bool :=
  match value with None => true | Some s => fullmatch CODE_RE s && safe_code s end.
Definition build_result_fingerprint (outcome_kind : string)
    (validated_output_hash normalized_error_class normalized_error_code : option string)
    (accepted_evidence_ids tool_result_hashes : list string) (result_schema_version : string)
    (extra : list (string * Json)) : result string :=
  values ← except_as
    (_ ← raise_when (negb (bool_decide (length extra = 0%nat))) invalid_result;
     _ ← check (Z.of_nat (length accepted_evidence_ids) <=? 64) invalid_result;
     _ ← check (Z.of_nat (length tool_result_hashes) <=? 64) invalid_result;
     _ ← check (forallb (fun v => fullmatch IDENTIFIER_RE v && safe_code v) accepted_evidence_ids) invalid_result;
     _ ← check (forallb (fullmatch hex64) tool_result_hashes) invalid_result;
     _ ← check (forallb code_or_none
                  [Some outcome_kind; normalized_error_class; normalized_error_code;
                   Some result_schema_version]) invalid_result;
     validate_result_input
       {| ri_outcome_kind := outcome_kind; ri_validated_output_hash := validated_output_hash;
          ri_normalized_error_class := normalized_error_class;
          ri_normalized_error_code := normalized_error_code;
          ri_accepted_evidence_ids := sort_by String.leb accepted_evidence_ids;
          ri_tool_result_hashes := sort_by String.leb tool_result_hashes;
          ri_result_schema_version := result_schema_version |})
    invalid_result;
  Digest (digest (DResult values)).

Definition build_state_fingerprint (run_state work_item_state attempt_state stage_id : string)
    (plan_revision : Z) (unresolved_work_ids : list string) (dependency_versions : list (string * Z))
    (progress : ProgressVector) (normalized_error_class : option string)
    (extra : list (string * Json)) : result string :=
  values ← except_as
    (_ ← raise_when (negb (bool_decide (length extra = 0%nat))) invalid_state;
     _ ← check (Z.of_nat (length unresolved_work_ids) <=? 64) invalid_state;
     _ ← check (Z.of_nat (length dependency_versions) <=? 64) invalid_state;
     _ ← check (forallb (fun v => fullmatch IDENTIFIER_RE v && safe_code v) unresolved_work_ids) invalid_state;
     _ ← check (forallb (fun d => fullmatch IDENTIFIER_RE d.1 && safe_code d.1 && (0 <=? d.2))
                  dependency_versions) invalid_state;
     _ ← check (forallb (fun v => fullmatch CODE_RE v && safe_code v)
                  [run_state; work_item_state; attempt_state; stage_id] &&
                code_or_none normalized_error_class) invalid_state;
     validate_state_input
       {| si_run_state := run_state; si_work_item_state := work_item_state;
          si_attempt_state := attempt_state; si_stage_id := stage_id; si_plan_revision := plan_revision;
          si_unresolved_work_ids := sort_by String.leb unresolved_work_ids;
          si_dependency_versions := sort_by pair_leb dependency_versions;
          si_progress := progress; si_normalized_error_class := normalized_error_class |})
    invalid_state;
  Digest (digest (DState values)).

(** [ActionObservationFingerprint.from_parts] and its validator. *)
Definition from_parts (action result : string) (scope : LoopScope) : ActionObservation :=
  {| ob_digest := digest (DObservation scope action result); ob_scope := scope;
     ob_action := action; ob_result := result |}.
Definition validate_observation (o : ActionObservation) : result unit :=
  check (String.eqb (ob_digest o) (digest (DObservation (ob_scope o) (ob_action o) (ob_result o))))
    (ValueError "action observation digest must bind scope, action, and result").

(** [CycleSignature]: its fields and [validate_signature]. *)
Definition validate_signature : cleaner CycleSignature :=
  model
    (fun c =>
      dig ← Digest (cy_digest c);
      rev ← NonNegativeInt (cy_plan_revision c);
      version ← ShortText (cy_fingerprint_schema_version c);
      period ← min_length 1 (max_length 6 (tuple_of Digest)) (cy_period c);
      Ok {| cy_digest := dig; cy_scope := cy_scope c; cy_plan_revision := rev;
            cy_fingerprint_schema_version := version; cy_period := period |})
    (fun c =>
      _ ← check (bool_decide (cy_period c = normalize_rotation (cy_period c)) && is_primitive (cy_period c))
            (ValueError "cycle period must be primitive and rotation-normalized");
      check (String.eqb (cy_digest c) (digest (DCycle (cy_scope c) (cy_plan_revision c)
               (cy_fingerprint_schema_version c) (cy_period c))))
        (ValueError "cycle digest must bind scope, plan, schema, and period")).

(** ** Operations *)
Definition observe_action_result (g : LoopGuard) (o : ActionObservation) : LoopDecision * LoopGuard :=
  let s := g (ob_scope o) in
  let actions := push ACTION_WINDOW_SIZE o (g_actions s) in
  let g := set_scope g (ob_scope o) (with_actions s actions) in
  if (3 <=? count_by (fun i => String.eqb (ob_digest i) (ob_digest o)) actions)%nat
  then (stopped "repeated_action_result" None, g)
  else if (3 <=? count_by (fun i => String.eqb (ob_action i) (ob_action o)) actions)%nat
  then (stopped "repeated_action" None, g)
  else (allowed_decision, g).

(** [_cycle]: the signature of the detected cycle, registered while there is room. *)
Definition cycle (c : SemanticCheckpoint) (s : ScopeState) : result (option CycleSignature * ScopeState) :=
  match detect_cycle (g_states s) with
  | None => Ok (None, s)
  | Some period =>
      signature ← validate_signature
        {| cy_digest := digest (DCycle (ck_scope c) (ck_plan_revision c)
                                  (ck_fingerprint_schema_version c) period);
           cy_scope := ck_scope c; cy_plan_revision := ck_plan_revision c;
           cy_fingerprint_schema_version := ck_fingerprint_schema_version c; cy_period := period |};
      let observed := g_observed_cycles s in
      if negb (is_Some_b (dict_get observed (cy_digest signature))) &&
         (length observed <? RECOVERY_SIGNATURE_CAPACITY)%nat
      then Ok (Some signature, with_cycles s (dict_set observed (cy_digest signature) signature) (g_recoveries s))
      else Ok (Some signature, s)
  end.

(** [_failure] *)
Definition failure (c : SemanticCheckpoint) (s : ScopeState) : option LoopDecision * ScopeState :=
  match ck_normalized_failure c with
  | None => (None, with_failures s [])
  | Some _ =>
      let entry := (ck_worker_id c,
        (ck_normalized_failure c, ck_failure_context_hash c, ck_failure_dependency_hash c,
         ck_correction_ordinal c, ck_model_route c)) in
      let failures := push 3 entry (g_failures s) in
      let s := with_failures s failures in
      match failures with
      | [a; b; c] =>
          if bool_decide (a.1 = c.1) && negb (bool_decide (c.1 = b.1)) &&
             bool_decide (a.2 = b.2) && bool_decide (b.2 = c.2)
          then (Some (stopped "cross_worker_failure_oscillation" None), s)
          else (None, s)
      | _ => (None, s)
      end
  end.

(** [observe_checkpoint]; the state it leaves when constructing the signature would
    raise is the one its last assignment left. *)
Definition checkpoint_comparison (s : ScopeState) (c : SemanticCheckpoint) : ProgressDecision :=
  match g_progress s with
  | Some previous => compare_progress previous (ck_progress c) severity_policy
  | None => {| pd_advanced := false; pd_critical_regression := false; pd_worsened_fields := [] |}
  end.
Definition progressed_scope (s : ScopeState) (c : SemanticCheckpoint) : ScopeState :=
  let advanced := pd_advanced (checkpoint_comparison s c) in
  let s' := with_progress s (Some (ck_progress c))
    (if advanced then 0
     else if is_Some_b (g_progress s) then Z.min 2 (g_no_progress s + 1) else g_no_progress s) in
  if advanced then with_states s' [] else s'.
Definition observe_checkpoint (g : LoopGuard) (c : SemanticCheckpoint) : result LoopDecision * LoopGuard :=
  if negb (is_semantic (ck_observation_kind c)) then (Ok ignored_decision, g)
  else
    let comparison := checkpoint_comparison (g (ck_scope c)) c in
    let s := progressed_scope (g (ck_scope c)) c in
    let commit s := set_scope g (ck_scope c) s in
    if pd_critical_regression comparison
    then (Ok (stopped "critical_progress_regression" None), commit s)
    else
      let duplicate := bool_decide (ck_state_fingerprint c ∈ g_states s) && negb (pd_advanced comparison) in
      let s := with_states s (push STATE_WINDOW_SIZE (ck_state_fingerprint c) (g_states s)) in
      match cycle c s with
      | Raise e => (Raise e, commit s)
      | Ok (Some signature, s) =>
          (Ok (if duplicate && Nat.eqb (length (cy_period signature)) 1
               then stopped "duplicate_state_no_progress" None
               else if is_Some_b (dict_get (g_recoveries s) (cy_digest signature))
               then stopped "recovered_cycle_returned" (Some signature)
               else stopped "state_cycle" (Some signature)), commit s)
      | Ok (None, s) =>
          if duplicate then (Ok (stopped "duplicate_state_no_progress" None), commit s)
          else
            let '(failed, s) := failure c s in
            match failed with
            | Some decision => (Ok decision, commit s)
            | None =>
                if 2 <=? g_no_progress s then (Ok (stopped "no_progress" None), commit s)
                else (Ok allowed_decision, commit s)
            end
      end.

Definition authorize_recovery (g : LoopGuard) (signature : CycleSignature) : LoopDecision * LoopGuard :=
  let s := g (cy_scope signature) in
  if negb (bool_decide (dict_get (g_observed_cycles s) (cy_digest signature) = Some signature))
  then (stopped "unregistered_cycle_signature" (Some signature), g)
  else if is_Some_b (dict_get (g_recoveries s) (cy_digest signature))
  then (stopped "recovery_exhausted" (Some signature), g)
  else if (RECOVERY_SIGNATURE_CAPACITY <=? length (g_recoveries s))%nat
  then (stopped "recovery_capacity_exhausted" (Some signature), g)
  else (allowed_decision, set_scope g (cy_scope signature)
         (with_cycles s (g_observed_cycles s)
            (dict_set (g_recoveries s) (cy_digest signature) signature))).

(** ** The guard's invariant *)
Context (Hdigest : forall d, Digest (digest d) = Ok (digest d)).

Record scope_ok (s : ScopeState) : Prop := {
  so_actions : (length (g_actions s) <= ACTION_WINDOW_SIZE)%nat;
  so_states : (length (g_states s) <= STATE_WINDOW_SIZE)%nat;
  so_digests : forall d, d ∈ g_states s -> Digest d = Ok d;
  so_no_progress : 0 <= g_no_progress s <= 2;
  so_failures : (length (g_failures s) <= 3)%nat;
  so_observed : (length (g_observed_cycles s) <= RECOVERY_SIGNATURE_CAPACITY)%nat;
  so_recoveries : (length (g_recoveries s) <= RECOVERY_SIGNATURE_CAPACITY)%nat;
  so_unique : NoDup (g_recoveries s).*1 }.
Definition guard_ok (g : LoopGuard) : Prop := forall scope, scope_ok (g scope).

(** A checkpoint as its contract admits it. *)
Record checkpoint_ok (c : SemanticCheckpoint) : Prop := {
  co_state : Digest (ck_state_fingerprint c) = Ok (ck_state_fingerprint c);
  co_revision : 0 <= ck_plan_revision c;
  co_version : ShortText (ck_fingerprint_schema_version c) = Ok (ck_fingerprint_schema_version c) }.

Inductive GuardOp :=
  | OpAction (o : ActionObservation)
  | OpCheckpoint (c : SemanticCheckpoint)
  | OpRecovery (s : CycleSignature).
Definition op_scope (op : GuardOp) : LoopScope :=
  match op with OpAction o => ob_scope o | OpCheckpoint c => ck_scope c | OpRecovery s => cy_scope s end.
Definition op_ok (op : GuardOp) : Prop :=
  match op with OpCheckpoint c => checkpoint_ok c | _ => True end.
Definition guard_step (g : LoopGuard) (op : GuardOp) : result LoopDecision * LoopGuard :=
  match op with
  | OpAction o => let '(d, g) := observe_action_result g o in (Ok d, g)
  | OpCheckpoint c => observe_checkpoint g c
  | OpRecovery s => let '(d, g) := authorize_recovery g s in (Ok d, g)
  end.
Definition guard_run (g : LoopGuard) (ops : list GuardOp) : LoopGuard :=
  fold_left (fun g op => (guard_step g op).2) ops g.

Lemma set_scope_eq g scope s : set_scope g scope s scope = s.
Proof. unfold set_scope. by rewrite decide_True. Qed.
Lemma set_scope_ne g scope s x : x <> scope -> set_scope g scope s x = g x.
Proof. unfold set_scope. intros. by rewrite decide_False. Qed.
Lemma set_scope_ok g scope s : guard_ok g -> scope_ok s -> guard_ok (set_scope g scope s).
Proof. intros Hg Hs x. unfold set_scope. by case_decide. Qed.

Lemma push_length {A} n (x : A) l : (length (push n x l) <= n)%nat.
Proof. unfold push. rewrite last_n_length. lia. Qed.
Lemma push_elem {A} n (x y : A) l : y ∈ push n x l -> y = x \/ y ∈ l.
Proof.
  unfold push, last_n. intros H. destruct (last_n_suffix n (l ++ [x])) as [r Hr].
  assert (Hy : y ∈ l ++ [x]) by (rewrite Hr; apply elem_of_app; auto).
  apply elem_of_app in Hy as [?|?%list_elem_of_singleton]; auto.
Qed.

(** The cycle signature is always constructible: the detected period is primitive
    and rotation-normalised, and its elements are digests. *)
Lemma cycle_total c s :
  checkpoint_ok c -> (forall d, d ∈ g_states s -> Digest d = Ok d) ->
  exists o s', cycle c s = Ok (o, s') /\
    (s' = s \/ exists sg, o = Some sg /\ s' = with_cycles s (g_observed_cycles s ++ [(cy_digest sg, sg)]) (g_recoveries s) /\
       (length (g_observed_cycles s) < RECOVERY_SIGNATURE_CAPACITY)%nat).
Proof.
  intros [] Hd. unfold cycle. pose proof (detect_cycle_spec (g_states s)) as Hspec.
  destruct (detect_cycle (g_states s)) as [p|]; [|by exists None, s; auto].
  destruct Hspec as (u & k & Hu & Hs & _ & Hk & Hp & Hnorm & Hprim).
  assert (Hlen : length p = length u) by (rewrite Hp, rotated_iter, iter_rot1_length by lia; done).
  assert (Hperiod : tuple_of Digest p = Ok p).
  { apply tuple_of_fix. intros x Hx. apply Hd. destruct Hs as [r Hr]. rewrite Hr.
    apply elem_of_app. right. apply elem_of_app. left. rewrite Hp in Hx. unfold rotated in Hx.
    rewrite <- (take_drop k u). set_solver. }
  set (sg := {| cy_digest := _ |}).
  assert (Hsg : validate_signature sg = Ok sg).
  { unfold validate_signature. apply model_Ok. simpl. split.
    - rewrite Hdigest. simpl. rewrite (proj2 (NonNegativeInt_fix _ _)) by (split; [eassumption|done]).
      rewrite co_version0. simpl. unfold min_length, max_length. rewrite Hlen.
      rewrite (proj2 (Z.leb_le 1 _)), (proj2 (Z.leb_le _ 6)) by lia. rewrite Hperiod. done.
    - rewrite Hnorm, Hprim. rewrite bool_decide_eq_true_2 by done. simpl. by rewrite String.eqb_refl. }
  rewrite Hsg. cbn [mbind result_bind].
  destruct (dict_get (g_observed_cycles s) (cy_digest sg)) eqn:E; simpl; [eauto|].
  destruct (Nat.ltb_spec (length (g_observed_cycles s)) RECOVERY_SIGNATURE_CAPACITY); [|eauto].
  eexists _, _. split; [done|]. right. exists sg. split_and!; [done| |done].
  by rewrite dict_set_new by by apply dict_get_None.
Qed.

Lemma compare_progress_shape before after p :
  validate_progress_decision (compare_progress before after p) = Ok tt.
Proof.
  unfold compare_progress, validate_progress_decision. destruct (_ || _) eqn:E; simpl.
  - by destruct (worsened_fields before after).
  - destruct (worsened_fields before after); simpl; [|done]. by rewrite andb_false_r.
Qed.

Lemma progressed_ok s c : scope_ok s -> scope_ok (progressed_scope s c).
Proof.
  intros []. unfold progressed_scope.
  destruct (pd_advanced _); [constructor; simpl; try done; try lia; by intros d ?%not_elem_of_nil|].
  constructor; simpl; try done. destruct (is_Some_b _); lia.
Qed.
Lemma failure_ok s c d s' : scope_ok s -> failure c s = (d, s') -> scope_ok s'.
Proof.
  intros [] H. unfold failure in H. destruct (ck_normalized_failure c).
  - set (e := (_, _)) in H. pose proof (push_length 3 e (g_failures s)).
    assert (s' = with_failures s (push 3 e (g_failures s))) as -> by (repeat case_match; by injection H).
    by constructor.
  - injection H as _ <-. constructor; simpl; try done. lia.
Qed.

(** One step keeps the invariant, touches only its own scope, and never raises. *)
Lemma guard_step_ok g op :
  guard_ok g -> op_ok op ->
  guard_ok (guard_step g op).2 /\
  (exists d, (guard_step g op).1 = Ok d /\ validate_decision_shape d = Ok tt) /\
  forall scope, scope <> op_scope op -> (guard_step g op).2 scope = g scope.
Proof.
  intros Hg Hop. destruct op as [o|c|sg]; simpl in *.
  - unfold observe_action_result.
    assert (Hs : scope_ok (with_actions (g (ob_scope o)) (push ACTION_WINDOW_SIZE o (g_actions (g (ob_scope o)))))).
    { destruct (Hg (ob_scope o)). constructor; try done. simpl. apply push_length. }
    destruct (_ <=? _)%nat; [|destruct (_ <=? _)%nat]; simpl;
      (split; [by apply set_scope_ok|]; split; [by eexists|]; intros; by apply set_scope_ne).
  - pose proof (progressed_ok _ c (Hg (ck_scope c))) as Hp. unfold observe_checkpoint.
    destruct (negb _); simpl; [split; [done|]; split; [by eexists|done]|].
    destruct (pd_critical_regression _); simpl.
    { split; [by apply set_scope_ok|]. split; [by eexists|]. intros. by apply set_scope_ne. }
    set (s := progressed_scope _ _) in *. set (s1 := with_states s _).
    assert (Hs1 : scope_ok s1).
    { destruct Hp. constructor; simpl; try done; [apply push_length|].
      intros d [->|Hd]%push_elem; [apply Hop|auto]. }
    destruct (cycle_total c s1 Hop (so_digests _ Hs1)) as (o & s2 & Hc & Hs2). rewrite Hc.
    assert (Hok2 : scope_ok s2).
    { destruct Hs2 as [->|(sg & _ & -> & Hlt)]; [done|]. destruct Hs1. constructor; try done.
      simpl in *. rewrite length_app. simpl. lia. }
    destruct o as [sg|].
    { simpl. split; [by apply set_scope_ok|]. split; [|intros; by apply set_scope_ne].
      eexists. split; [done|]. by repeat case_match. }
    destruct (_ && _); simpl.
    { split; [by apply set_scope_ok|]. split; [by eexists|]. intros. by apply set_scope_ne. }
    destruct (failure c s2) as [d s3] eqn:Ef. pose proof (failure_ok _ _ _ _ Hok2 Ef) as Hok3.
    assert (Hd : forall d', d = Some d' -> validate_decision_shape d' = Ok tt).
    { intros d' ->. unfold failure in Ef. repeat case_match; try discriminate Ef; by injection Ef as <- <-. }
    destruct d as [d|]; [|destruct (2 <=? _)]; simpl;
      (split; [by apply set_scope_ok|]; split; [|intros; by apply set_scope_ne]; eexists; split; [done|]; auto; done).
  - unfold authorize_recovery. destruct (negb _); cbn [fst snd]; [split; [done|]; split; [by eexists|done]|].
    destruct (is_Some_b _) eqn:E; cbn [fst snd]; [split; [done|]; split; [by eexists|done]|].
    destruct (Nat.leb_spec RECOVERY_SIGNATURE_CAPACITY (length (g_recoveries (g (cy_scope sg))))); cbn [fst snd];
      [split; [done|]; split; [by eexists|done]|].
    split; [|split; [by eexists|]; intros; by apply set_scope_ne]. apply set_scope_ok; [done|].
    destruct (Hg (cy_scope sg)). constructor; try done; simpl.
    + rewrite dict_set_new, length_app by (apply dict_get_None; by destruct (dict_get _ _)). simpl. lia.
    + by apply dict_set_NoDup.
Qed.

Lemma fresh_ok : guard_ok fresh_guard.
Proof.
  intros scope. constructor; simpl; unfold ACTION_WINDOW_SIZE, STATE_WINDOW_SIZE, RECOVERY_SIGNATURE_CAPACITY;
    try lia; [by intros d ?%not_elem_of_nil|constructor].
Qed.
Lemma guard_run_ok g ops : guard_ok g -> Forall op_ok ops -> guard_ok (guard_run g ops).
Proof.
  intros Hg H. revert g Hg. induction H as [|op ops Hop _ IH]; intros g Hg; [done|].
  simpl. apply IH. by apply guard_step_ok.
Qed.

(** The signatures a run of operations authorised for recovery in a scope. *)
Definition authorised (g : LoopGuard) (op : GuardOp) (scope : LoopScope) : list string :=
  match op, (guard_step g op).1 with
  | OpRecovery s, Ok d => if ld_allowed d && bool_decide (cy_scope s = scope) then [cy_digest s] else []
  | _, _ => []
  end.
Fixpoint recovered (g : LoopGuard) (ops : list GuardOp) (scope : LoopScope) : list string :=
  match ops with
  | [] => []
  | op :: ops => authorised g op scope ++ recovered (guard_step g op).2 ops scope
  end.

Lemma progressed_recoveries s c : g_recoveries (progressed_scope s c) = g_recoveries s.
Proof. unfold progressed_scope. by destruct (pd_advanced _). Qed.
(** What a semantic checkpoint leaves in its scope, and when it cannot be allowed. *)
Lemma semantic_checkpoint g c :
  guard_ok g -> checkpoint_ok c -> is_semantic (ck_observation_kind c) = true ->
  let s := progressed_scope (g (ck_scope c)) c in
  exists d s', observe_checkpoint g c = (Ok d, set_scope g (ck_scope c) s') /\
    g_recoveries s' = g_recoveries s /\ g_progress s' = g_progress s /\
    g_no_progress s' = g_no_progress s /\ (2 <= g_no_progress s -> ld_allowed d = false).
Proof.
  intros Hg Hc Hsem s. pose proof (progressed_ok _ c (Hg (ck_scope c))) as Hp. fold s in Hp.
  unfold observe_checkpoint. rewrite Hsem. simpl. fold s.
  destruct (pd_critical_regression _); [by eexists _, s|].
  set (s1 := with_states s _).
  assert (Hd : forall d, d ∈ g_states s1 -> Digest d = Ok d).
  { intros d [->|Hd]%push_elem; [apply Hc|by apply Hp]. }
  destruct (cycle_total c s1 Hc Hd) as (o & s2 & Hcy & Hs2). rewrite Hcy.
  assert (Hr2 : g_recoveries s2 = g_recoveries s /\ g_progress s2 = g_progress s /\
                g_no_progress s2 = g_no_progress s).
  { destruct Hs2 as [->|(sg & _ & -> & _)]; done. }
  destruct o as [sg|]; [eexists _, s2; split; [done|]; split_and!; try apply Hr2; by repeat case_match|].
  destruct (_ && _); [eexists _, s2; split; [done|]; by split_and!; try apply Hr2|].
  destruct (failure c s2) as [d s3] eqn:Ef.
  assert (Hr3 : g_recoveries s3 = g_recoveries s2 /\ g_progress s3 = g_progress s2 /\
     g_no_progress s3 = g_no_progress s2 /\ forall d', d = Some d' -> ld_allowed d' = false).
  { unfold failure in Ef. repeat case_match; injection Ef as <- <-; split_and!; try done; by intros ? [= <-]. }
  destruct Hr3 as (E1 & E2 & E3 & Hd'). destruct Hr2 as (F1 & F2 & F3).
  destruct d as [d|]; [eexists d, s3; split; [done|]; split_and!; try congruence; intros; by apply Hd'|].
  destruct (Z.leb_spec 2 (g_no_progress s3)); (eexists _, s3; split; [done|]; split_and!; try congruence; try done; lia).
Qed.
Lemma checkpoint_recoveries g c scope :
  guard_ok g -> checkpoint_ok c ->
  g_recoveries ((observe_checkpoint g c).2 scope) = g_recoveries (g scope).
Proof.
  intros Hg Hc. destruct (is_semantic (ck_observation_kind c)) eqn:Hs.
  2:{ unfold observe_checkpoint. by rewrite Hs. }
  destruct (semantic_checkpoint g c Hg Hc Hs) as (d & s' & -> & Hr & _). cbn [snd].
  unfold set_scope. case_decide as Hsc; [|done]. by rewrite Hr, progressed_recoveries, Hsc.
Qed.

(** The digests authorised by a step are exactly the keys it adds. *)
Lemma authorised_step g op scope :
  guard_ok g -> op_ok op ->
  (g_recoveries ((guard_step g op).2 scope)).*1 = (g_recoveries (g scope)).*1 ++ authorised g op scope.
Proof.
  intros Hg Hop. unfold authorised. destruct op as [o|c|sg]; simpl.
  - rewrite app_nil_r. unfold observe_action_result.
    assert (Hs : forall s, g_recoveries (set_scope g (ob_scope o) (with_actions (g (ob_scope o)) s) scope) =
                 g_recoveries (g scope)).
    { intros s. unfold set_scope. by case_decide; subst. }
    repeat case_match; simplify_eq; cbn [snd]; by rewrite Hs.
  - rewrite app_nil_r. by rewrite checkpoint_recoveries.
  - unfold authorize_recovery.
    destruct (negb _); cbn [fst snd]; [by rewrite app_nil_r|].
    destruct (is_Some_b _) eqn:E; cbn [fst snd]; [by rewrite app_nil_r|].
    destruct (_ <=? _)%nat; cbn [fst snd]; [by rewrite app_nil_r|]. simpl.
    unfold set_scope. case_decide as Hs.
    + subst scope. rewrite bool_decide_eq_true_2 by done. simpl.
      rewrite dict_set_new by (apply dict_get_None; by destruct (dict_get _ _)). by rewrite fmap_app.
    + rewrite bool_decide_eq_false_2 by done. by rewrite app_nil_r.
Qed.
Lemma recovered_run ops : forall g scope,
  guard_ok g -> Forall op_ok ops ->
  (g_recoveries (guard_run g ops scope)).*1 = (g_recoveries (g scope)).*1 ++ recovered g ops scope.
Proof.
  induction ops as [|op ops IH]; intros g scope Hg H; simpl; [by rewrite app_nil_r|].
  inversion H as [|? ? Hop Hops]; subst. destruct (guard_step_ok g op Hg Hop) as [Hg' _].
  change (guard_run g (op :: ops)) with (guard_run (guard_step g op).2 ops).
  rewrite IH by done. rewrite authorised_step by done. by rewrite (assoc_L (++)).
Qed.

(** ** Properties *)

(** Cycle detection: within the state window, [detect_cycle] finds the
    shortest block of at most six states whose immediate repetition ends the
    history, and returns its least rotation, which is primitive; when it finds
    none, no such block exists.  Hence the signature built from it always
    satisfies the signature's contract. *)
Theorem detect_cycle_finds_shortest (states : list string) :
  match detect_cycle states with
  | Some p => exists u k, (1 <= length u <= 6)%nat /\ (u ++ u) `suffix_of` states /\
      square_free_below (length u) states /\ (k < length u)%nat /\ p = rotated k u /\
      normalize_rotation p = p /\ is_primitive p = true
  | None => square_free_below 7 states
  end.
Proof. apply detect_cycle_spec. Qed.

(** C35.  Bounded and total: however many observations the guard has seen, every
    window of every scope keeps its bound, and every further operation returns a
    decision of the declared shape instead of raising. *)
Theorem guard_is_bounded_and_total (ops : list GuardOp) (op : GuardOp) :
  Forall op_ok ops -> op_ok op ->
  guard_ok (guard_run fresh_guard ops) /\
  exists d, (guard_step (guard_run fresh_guard ops) op).1 = Ok d /\ validate_decision_shape d = Ok tt.
Proof.
  intros H Hop. pose proof (guard_run_ok _ _ fresh_ok H) as Hg. split; [done|].
  by apply guard_step_ok.
Qed.

(**  Recovery happens at most once: over any run of operations, a scope never
    authorises the same cycle signature twice, nor more than twelve signatures, and
    only signatures its own checkpoints registered. *)
Theorem recovery_at_most_once (ops : list GuardOp) (scope : LoopScope) (s : CycleSignature) :
  Forall op_ok ops ->
  NoDup (recovered fresh_guard ops scope) /\
  (length (recovered fresh_guard ops scope) <= RECOVERY_SIGNATURE_CAPACITY)%nat /\
  (ld_allowed (authorize_recovery (guard_run fresh_guard ops) s).1 = true ->
     dict_get (g_observed_cycles (guard_run fresh_guard ops (cy_scope s))) (cy_digest s) = Some s /\
     (cy_digest s ∉ recovered fresh_guard ops (cy_scope s))).
Proof.
  intros H. pose proof (guard_run_ok _ _ fresh_ok H) as Hg.
  pose proof (recovered_run ops fresh_guard scope fresh_ok H) as Hr. simpl in Hr.
  destruct (Hg scope). rewrite <- Hr. split; [done|]. split; [by rewrite length_fmap|].
  unfold authorize_recovery. destruct (negb _) eqn:E1; [done|].
  destruct (is_Some_b _) eqn:E2; [done|]. destruct (_ <=? _)%nat; [done|]. intros _. to_prop.
  split; [done|]. pose proof (recovered_run ops fresh_guard (cy_scope s) fresh_ok H) as Hr2. simpl in Hr2.
  rewrite <- Hr2.
  apply (proj1 (dict_get_None _ _)). by destruct (dict_get (g_recoveries _) _).
Qed.

(**  Scopes are independent: an operation leaves every other scope's windows
    alone, and its decision and its effect depend on its own scope only. *)
Theorem scopes_are_isolated (g1 g2 : LoopGuard) (op : GuardOp) :
  guard_ok g1 -> op_ok op -> g1 (op_scope op) = g2 (op_scope op) ->
  (guard_step g1 op).1 = (guard_step g2 op).1 /\
  (guard_step g1 op).2 (op_scope op) = (guard_step g2 op).2 (op_scope op) /\
  forall scope, scope <> op_scope op -> (guard_step g1 op).2 scope = g1 scope.
Proof.
  intros Hg Hop Heq.
  assert (Hsame : (guard_step g1 op).1 = (guard_step g2 op).1 /\
    (guard_step g1 op).2 (op_scope op) = (guard_step g2 op).2 (op_scope op)).
  { destruct op as [o|c|sg]; simpl in *;
      unfold observe_action_result, observe_checkpoint, authorize_recovery; rewrite <- Heq;
      repeat case_match; simplify_eq; cbn [fst snd]; rewrite ?set_scope_eq; done. }
  split_and!; try apply Hsame. by apply guard_step_ok.
Qed.

(** A run that stops progressing is stopped: of two consecutive semantic
    checkpoints of a scope that both fail to advance on the progress recorded before
    them, the second is never allowed. *)
Theorem stalled_checkpoints_are_stopped (g : LoopGuard) (c1 c2 : SemanticCheckpoint) :
  guard_ok g -> checkpoint_ok c1 -> checkpoint_ok c2 ->
  is_semantic (ck_observation_kind c1) = true -> is_semantic (ck_observation_kind c2) = true ->
  ck_scope c2 = ck_scope c1 -> g_progress (g (ck_scope c1)) <> None ->
  pd_advanced (checkpoint_comparison (g (ck_scope c1)) c1) = false ->
  pd_advanced (compare_progress (ck_progress c1) (ck_progress c2) severity_policy) = false ->
  exists d, (observe_checkpoint (observe_checkpoint g c1).2 c2).1 = Ok d /\ ld_allowed d = false.
Proof.
  intros Hg H1 H2 Hs1 Hs2 Hsc Hprev Ha1 Ha2.
  destruct (semantic_checkpoint g c1 Hg H1 Hs1) as (d1 & s1 & E1 & _ & Hp1 & Hn1 & _).
  pose proof (proj1 (guard_step_ok g (OpCheckpoint c1) Hg H1)) as Hg1. simpl in Hg1.
  destruct (semantic_checkpoint _ c2 Hg1 H2 Hs2) as (d2 & s2 & E2 & _ & _ & _ & Hd2).
  exists d2. rewrite E2. split; [done|]. apply Hd2. rewrite E1, Hsc. cbn [snd]. rewrite set_scope_eq.
  unfold progressed_scope, checkpoint_comparison in *. rewrite Ha1 in *. simpl in Hp1, Hn1.
  rewrite Hp1, Ha2. simpl. rewrite Hn1. destruct (Hg (ck_scope c1)).
  destruct (g_progress (g (ck_scope c1))); [simpl; lia|done].
Qed.

(**  Repetition is bounded: the third time a scope reports the same action
    within its window of five, and the third time it reports the same action with
    the same result, the guard stops it. *)
Theorem third_repetition_is_stopped (g : LoopGuard) (o : ActionObservation) :
  ld_allowed (observe_action_result g o).1 = true <->
  (count_by (fun i => String.eqb (ob_digest i) (ob_digest o))
     (push ACTION_WINDOW_SIZE o (g_actions (g (ob_scope o)))) <= 2)%nat /\
  (count_by (fun i => String.eqb (ob_action i) (ob_action o))
     (push ACTION_WINDOW_SIZE o (g_actions (g (ob_scope o)))) <= 2)%nat.
Proof.
  unfold observe_action_result. set (actions := push _ _ _).
  destruct (Nat.leb_spec 3 (count_by (fun i => String.eqb (ob_digest i) (ob_digest o)) actions)); cbn [fst];
    [split; [done|lia]|].
  destruct (Nat.leb_spec 3 (count_by (fun i => String.eqb (ob_action i) (ob_action o)) actions)); cbn [fst];
    [split; [done|lia]|]. split; [lia|done].
Qed.

End Guard.

Lemma Qlt_bool_iff a b : Qlt_bool a b = true <-> (a < b)%Q.
Proof.
  unfold Qlt_bool. rewrite negb_true_iff. split.
  - intros H. apply Qnot_le_lt. intros Hle. apply Qle_bool_iff in Hle. congruence.
  - intros H. apply not_true_iff_false. rewrite Qle_bool_iff. by apply Qlt_not_le.
Qed.
Lemma filter_nil_iff {A} (p : A -> bool) l : List.filter p l = [] <-> forall x, x ∈ l -> p x = false.
Proof.
  induction l as [|y l IH]; simpl; [split; [by intros _ x ?%not_elem_of_nil|done]|].
  destruct (p y) eqn:E.
  - split; [done|]. intros H. rewrite H in E; [done|by left].
  - rewrite IH. split; intros H x; [intros [->|Hx]%elem_of_cons; auto|intros Hx; apply H; by right].
Qed.

(** A progress vector is at least as good as another in every dimension. *)
Definition at_least_as_good (before after : ProgressVector) : Prop :=
  (forall f, f ∈ POSITIVE_FIELDS -> (progress_field before f <= progress_field after f)%Q) /\
  (forall f, f ∈ NEGATIVE_FIELDS -> (progress_field after f <= progress_field before f)%Q).
Lemma worsened_nil before after : worsened_fields before after = [] <-> at_least_as_good before after.
Proof.
  unfold worsened_fields, at_least_as_good. split.
  - intros [H1 H2]%app_eq_nil. rewrite filter_nil_iff in H1, H2.
    split; intros f Hf; apply Qnot_lt_le; intros Hlt; apply Qlt_bool_iff in Hlt;
      rewrite ?H1, ?H2 in Hlt; done.
  - intros [H1 H2]. rewrite app_nil, !filter_nil_iff.
    split; intros f Hf; apply not_true_iff_false; rewrite Qlt_bool_iff; apply Qle_not_lt; auto.
Qed.
Definition some_change (before after : ProgressVector) : Prop :=
  exists f, f ∈ ALL_PROGRESS_FIELDS /\ ~ (progress_field after f == progress_field before f)%Q.
Lemma advanced_iff before after policy :
  pd_advanced (compare_progress before after policy) = true <->
  at_least_as_good before after /\ some_change before after.
Proof.
  rewrite <- worsened_nil. unfold compare_progress.
  destruct (worsened_fields before after) as [|w ws].
  - cbn [existsb orb pd_advanced]. rewrite bool_decide_eq_true_2 by done. cbn [andb].
    rewrite existsb_exists. unfold some_change. split.
    + intros (f & Hf & Hne). split; [done|]. exists f. split; [by apply list_elem_of_In|].
      apply negb_true_iff in Hne. by apply Qeq_bool_neq.
    + intros [_ (f & Hf & Hne)]. exists f. split; [by apply list_elem_of_In|].
      apply negb_true_iff, not_true_iff_false. intros H. by apply Hne, Qeq_bool_iff.
  - split; [|by intros [? _]]. by destruct (_ || _).
Qed.

(**  Progress advances exactly when no dimension worsens and one changes: a
    strict Pareto improvement, so no two vectors each advance on the other and
    advances compose. *)
Theorem advance_is_strict_improvement (a b c : ProgressVector) (policy : SeverityPolicy) :
  (pd_advanced (compare_progress a b policy) = true <-> at_least_as_good a b /\ some_change a b) /\
  (pd_advanced (compare_progress a b policy) = true -> pd_advanced (compare_progress b a policy) = false) /\
  (pd_advanced (compare_progress a b policy) = true -> pd_advanced (compare_progress b c policy) = true ->
   pd_advanced (compare_progress a c policy) = true).
Proof.
  split; [apply advanced_iff|]. split.
  - intros [[H1 H2] (f & Hf & Hne)]%advanced_iff. apply not_true_iff_false. rewrite advanced_iff.
    intros [[H3 H4] _]. apply Hne. unfold ALL_PROGRESS_FIELDS in Hf.
    apply elem_of_app in Hf as [Hf|Hf]; apply Qle_antisym; auto.
  - rewrite !advanced_iff. intros [[H1 H2] (f & Hf & Hne)] [[H3 H4] _]. split.
    + split; intros x Hx; [eapply Qle_trans; [by apply H1|by apply H3]|eapply Qle_trans; [by apply H4|by apply H2]].
    + exists f. split; [done|]. intros Heq. apply Hne. unfold ALL_PROGRESS_FIELDS in Hf.
      apply elem_of_app in Hf as [Hf|Hf]; apply Qle_antisym; auto.
      * rewrite <- Heq. auto.
      * rewrite <- Heq. auto.
Qed.

(** ** Canonical arguments do not depend on the order of the mapping *)
Definition uniform (r : result unit) : Prop := r = Ok tt \/ r = Raise invalid_action.
Lemma uniform_check b : uniform (check b invalid_action).
Proof. destruct b; [by left|by right]. Qed.
Lemma uniform_raise b : uniform (raise_when b invalid_action).
Proof. destruct b; [by right|by left]. Qed.
Lemma uniform_bind (r s : result unit) : uniform r -> uniform s -> uniform (r ≫= fun _ => s).
Proof. intros [->| ->] Hs; [done|by right]. Qed.
Lemma uniform_scalar v : uniform (validate_scalar v).
Proof. destruct v; simpl; try apply uniform_raise; first [by left|by right]. Qed.
Lemma uniform_value n v : uniform (validate_argument_value n v).
Proof.
  unfold validate_argument_value. case_bool_decide.
  - destruct v; try (by right). apply uniform_check.
  - destruct v; try (by right). apply uniform_bind; [apply uniform_check|]. case_bool_decide; apply uniform_check.
Qed.
Lemma uniform_tree : forall v d, uniform (validate_argument_tree v d).
Proof.
  fix IH 1. intros v d. destruct v as [|b|n|q|s|l|fields]; cbn [validate_argument_tree];
    destruct (4 <? d); try (by right); try apply uniform_scalar.
  - apply uniform_bind; [apply uniform_raise|]. induction l as [|x l IHl]; [by left|].
    apply uniform_bind; [apply IH|done].
  - apply uniform_bind; [apply uniform_raise|]. induction fields as [|[k x] fields IHf]; [by left|].
    apply uniform_bind; [apply IH|done].
Qed.

Definition field_trees (fields : list (string * Json)) : result unit :=
  _ ← mapM (fun f => validate_argument_tree f.2 1) fields; Ok tt.
Lemma object_tree fields :
  validate_argument_tree (JObject fields) 0 =
  (_ ← raise_when (MAX_ARGUMENTS <? Z.of_nat (length fields)) invalid_action; field_trees fields).
Proof.
  cbn [validate_argument_tree]. replace (4 <? 0) with false by done.
  destruct (raise_when _ _) as [[]|]; [|done]. cbn [mbind result_bind].
  unfold field_trees. change (0 + 1) with 1. induction fields as [|[k x] fields IH]; [done|].
  simpl. destruct (validate_argument_tree x 1) as [[]|]; [|done]. simpl. rewrite IH.
  by destruct (mapM _ fields).
Qed.

Lemma argument_key f r : argument f = Ok r -> r.1 = f.1.
Proof.
  unfold argument. destruct (argument_name_of f.1) as [n|] eqn:E; [|done]. intros H. inv_ok H. subst r.
  simpl. by eapply enum_of_value.
Qed.
Lemma argument_uniform f : is_ok (argument f) = true \/ argument f = Raise invalid_action.
Proof.
  unfold argument. destruct (argument_name_of f.1) as [n|]; [|by right].
  destruct (uniform_value n f.2) as [->| ->]; [by left|by right].
Qed.
Lemma arguments_keys fields l : mapM argument fields = Ok l -> l.*1 = fields.*1.
Proof.
  rewrite mapM_Ok. induction 1 as [|f r fs rs H _ IH]; [done|].
  rewrite !fmap_cons, IH. by rewrite (argument_key _ _ H).
Qed.

Lemma arguments_permuted fields fields' :
  fields ≡ₚ fields' -> NoDup fields.*1 -> arguments (JObject fields) = arguments (JObject fields').
Proof.
  intros Hp Hnd. unfold arguments. rewrite !object_tree, <- !(Permutation_length Hp).
  destruct (raise_when (MAX_ARGUMENTS <? _) _) as [[]|]; [|done]. cbn [mbind result_bind]. unfold field_trees.
  destruct (mapM_permuted (fun f : string * Json => validate_argument_tree f.2 1) invalid_action fields fields')
    as [(l & k & -> & -> & _)|[-> ->]]; [|done| |done].
  { intros a. destruct (uniform_tree a.2 1) as [->| ->]; [by left|by right]. }
  cbn [mbind result_bind].
  assert (He : existsb (fun f => is_container f.2) fields = existsb (fun f => is_container f.2) fields').
  { apply eq_bool_prop_intro. rewrite !Is_true_true, !existsb_exists.
    by setoid_rewrite <- list_elem_of_In; setoid_rewrite Hp. }
  rewrite He. destruct (raise_when _ _) as [[]|]; [|done]. cbn [mbind result_bind].
  destruct (mapM_permuted argument invalid_action fields fields' argument_uniform Hp)
    as [(l' & k' & Hl & Hk & Hlk)|[-> ->]]; [|done].
  rewrite Hl, Hk. cbn [mbind result_bind]. f_equal. apply sorted_items_permuted; [done|].
  by rewrite (arguments_keys _ _ Hl).
Qed.

(**  A fingerprint identifies the action, not its spelling: reordering the
    argument mapping gives the same fingerprint, or the same rejection. *)
Theorem action_fingerprint_ignores_order (digest : Digested -> string)
    (worker version kind : string) (fields fields' : list (string * Json))
    (context deps : string) (revision : Z) (prompt tool schema route : string) (ordinal : Z)
    (extra : list (string * Json)) :
  fields ≡ₚ fields' -> NoDup fields.*1 ->
  build_action_fingerprint digest worker version kind (JObject fields) context deps revision
    prompt tool schema route ordinal extra =
  build_action_fingerprint digest worker version kind (JObject fields') context deps revision
    prompt tool schema route ordinal extra.
Proof.
  intros Hp Hnd. unfold build_action_fingerprint, action_inputs. by rewrite (arguments_permuted _ _ Hp Hnd).
Qed.

(** ** Samples *)
Lemma flat_is_digest (d : Digested) : Digest (flat_digest d) = Ok (flat_digest d).
Proof. vm_compute. reflexivity. Qed.
Definition default_policy : SeverityPolicy :=
  {| sp_policy_version := "v1";
     sp_critical_positive_regressions :=
       ["filled_required_evidence_slot_count"; "fresh_authoritative_source_coverage"];
     sp_critical_negative_regressions := ["validation_error_count"; "risk_invariant_failure_count"] |}.
Definition sample_progress (filled missing : Z) : ProgressVector :=
  {| pg_completed_dependency_count := 1; pg_valid_required_field_count := 1;
     pg_filled_required_evidence_slot_count := filled; pg_fresh_authoritative_source_coverage := 1;
     pg_missing_evidence_count := missing; pg_validation_error_count := 0;
     pg_unresolved_conflict_count := 0; pg_risk_invariant_failure_count := 0 |}.
Definition sample_checkpoint (state : string) (filled missing : Z) : SemanticCheckpoint :=
  {| ck_scope := S_WORK_ITEM; ck_observation_kind := B_SEMANTIC_CHECKPOINT; ck_state_fingerprint := state;
     ck_progress := sample_progress filled missing; ck_plan_revision := 0;
     ck_fingerprint_schema_version := "v1"; ck_worker_id := None; ck_normalized_failure := None;
     ck_failure_context_hash := None; ck_failure_dependency_hash := None; ck_correction_ordinal := 0;
     ck_model_route := None |}.
Definition one_digest : string := "1111111111111111111111111111111111111111111111111111111111111111".
Definition sample_signature : CycleSignature :=
  {| cy_digest := zero_digest; cy_scope := S_WORK_ITEM; cy_plan_revision := 0;
     cy_fingerprint_schema_version := "v1"; cy_period := [one_digest] |}.
(** A repeated state, its recovery, and a second request for the same recovery. *)
Definition sample_ops : list GuardOp :=
  [OpCheckpoint (sample_checkpoint one_digest 0 3); OpCheckpoint (sample_checkpoint one_digest 0 3);
   OpRecovery sample_signature; OpRecovery sample_signature;
   OpAction {| ob_digest := zero_digest; ob_scope := S_RUN; ob_action := one_digest; ob_result := one_digest |}].
Lemma sample_checkpoint_ok state filled missing :
  Digest state = Ok state -> checkpoint_ok (sample_checkpoint state filled missing).
Proof. intros H. constructor; [exact H|simpl; lia|vm_compute; reflexivity]. Qed.
Lemma sample_ops_ok : Forall op_ok sample_ops.
Proof.
  unfold sample_ops. repeat constructor; vm_compute; try reflexivity; discriminate.
Qed.
Lemma sample_guard_ok : guard_ok (guard_run flat_digest default_policy fresh_guard sample_ops).
Proof. apply guard_run_ok; [apply flat_is_digest|apply fresh_ok|apply sample_ops_ok]. Qed.

Example sample_recovered :
  recovered flat_digest default_policy fresh_guard sample_ops S_WORK_ITEM = [zero_digest].
Proof. vm_compute. reflexivity. Qed.

Lemma guard_is_bounded_and_total_witness :
  exists d, (guard_step flat_digest default_policy
    (guard_run flat_digest default_policy fresh_guard sample_ops) (OpRecovery sample_signature)).1 = Ok d /\
    validate_decision_shape d = Ok tt.
Proof.
  exact (proj2 (guard_is_bounded_and_total flat_digest default_policy flat_is_digest sample_ops
    (OpRecovery sample_signature) sample_ops_ok I)).
Defined.

Lemma recovery_at_most_once_witness :
  NoDup (recovered flat_digest default_policy fresh_guard sample_ops S_WORK_ITEM).
Proof.
  exact (proj1 (recovery_at_most_once flat_digest default_policy flat_is_digest sample_ops S_WORK_ITEM
    sample_signature sample_ops_ok)).
Defined.

Lemma scopes_are_isolated_witness :
  (guard_step flat_digest default_policy fresh_guard (OpRecovery sample_signature)).2 S_RUN = fresh_scope.
Proof.
  exact (proj2 (proj2 (scopes_are_isolated flat_digest default_policy flat_is_digest fresh_guard fresh_guard
    (OpRecovery sample_signature) fresh_ok I eq_refl)) S_RUN ltac:(discriminate)).
Defined.

Lemma stalled_checkpoints_are_stopped_witness :
  exists d, (observe_checkpoint flat_digest default_policy
    (observe_checkpoint flat_digest default_policy
       (guard_run flat_digest default_policy fresh_guard sample_ops) (sample_checkpoint zero_digest 0 3)).2
    (sample_checkpoint one_digest 0 3)).1 = Ok d /\ ld_allowed d = false.
Proof.
  apply (stalled_checkpoints_are_stopped flat_digest default_policy flat_is_digest
    (guard_run flat_digest default_policy fresh_guard sample_ops)
    (sample_checkpoint zero_digest 0 3) (sample_checkpoint one_digest 0 3) sample_guard_ok);
    try (apply sample_checkpoint_ok); try (vm_compute; reflexivity); vm_compute; discriminate.
Defined.

Definition sample_fields : list (string * Json) :=
  [("symbol", JStr "btc"); ("limit", JInt 5); ("mode", JStr "live")].
Lemma action_fingerprint_ignores_order_witness :
  build_action_fingerprint flat_digest "technical-agent" "v1" "fetch" (JObject sample_fields)
    zero_digest zero_digest 0 zero_digest zero_digest zero_digest "terra" 0 [] = Ok zero_digest.
Proof.
  refine (eq_trans (action_fingerprint_ignores_order flat_digest "technical-agent" "v1" "fetch" sample_fields
    [("limit", JInt 5); ("mode", JStr "live"); ("symbol", JStr "btc")]
    zero_digest zero_digest 0 zero_digest zero_digest zero_digest "terra" 0 [] _ _) _).
  - unfold sample_fields. apply (Permutation_cons_append [("limit", JInt 5); ("mode", JStr "live")]).
  - apply unique_true. vm_compute. reflexivity.
  - vm_compute. reflexivity.
Defined.
