(* ===== verification/JobStore.v ===== *)
(** * Durable jobs: market_agent/backend/database.py

    The job table and its events, as [JobRepository] keeps them in SQLite (with
    ISO texts for times, compared as texts by the SQL) and as
    [PostgresJobRepository] keeps them in PostgreSQL (with native timestamps).
    [Spec] is the job ledger both promise, on instants: every operation of either
    repository is a step of it, with the same answer or the same exception.

    A transaction that raises rolls back: it leaves the store it was given.
    Payloads, results and errors are the JSON values their columns hold.  SQLite
    keeps the text of [json.dumps], which [json.loads] reads back; psycopg decodes a
    JSONB column itself, and [_json_load] parses once more what it decoded to a text.
    [json.loads], the digest of a payload and PostgreSQL's interval arithmetic are
    parameters. *)
From S2P Require Import Prelude PyStrings PyDict PyTime PyIso PyFloat PyJson.
Local Open Scope string_scope.
Local Open Scope list_scope.
Local Open Scope Z_scope.

(** ** Data *)
Inductive JobStatus := ACCEPTED | RUNNING | SUCCEEDED | FAILED.
#[export] Instance JobStatus_eq_dec : EqDecision JobStatus.
Proof. solve_decision. Defined.
Definition status_text (s : JobStatus) : string :=
  match s with ACCEPTED => "accepted" | RUNNING => "running" | SUCCEEDED => "succeeded" | FAILED => "failed" end.
(** [_allowed_transitions] *)
Definition allowed_transitions (s : JobStatus) : list JobStatus :=
  match s with
  | ACCEPTED => [RUNNING; FAILED]
  | RUNNING => [ACCEPTED; SUCCEEDED; FAILED]
  | SUCCEEDED | FAILED => []
  end.
Definition finished (s : JobStatus) : bool := bool_decide (s ∈ [SUCCEEDED; FAILED]).
Definition open_status (s : JobStatus) : bool := bool_decide (s ∈ [ACCEPTED; RUNNING]).

Definition Payload : Type := list (string * Json).
(** [T] is the type of the time columns. *)
Record JobRecord {T : Type} := {
  jr_job_id : string; jr_task_name : string; jr_status : JobStatus; jr_payload : Payload;
  jr_idempotency_key : option string; jr_payload_fingerprint : string; jr_result : Json; jr_error : Json;
  jr_attempt_count : Z; jr_max_attempts : Z; jr_request_id : string; jr_created_at : T; jr_updated_at : T;
  jr_execution_token : option string; jr_lease_expires_at : option T }.
Arguments JobRecord : clear implicits.
Record EventRecord {T : Type} := {
  er_event_id : Z; er_job_id : string; er_event_type : string; er_event_payload : Payload; er_created_at : T }.
Arguments EventRecord : clear implicits.
(** The two tables; rows are in the order of their insertion. *)
Record JobStore {T : Type} := { js_jobs : list (JobRecord T); js_events : list (EventRecord T) }.
Arguments JobStore : clear implicits.

(** ** Times in a column *)
Class Timestamp (T : Type) := {
  stamp : Z -> T;                 (** the value stored for a UTC reading *)
  not_after : T -> T -> bool;     (** [<=] of the SQL *)
  moment : T -> Z;                (** the instant a stored value denotes *)
  storable : Z -> bool            (** the readings the column can hold *) }.
Class TimestampLaws (T : Type) `{Timestamp T} := {
  not_after_stamp a b : storable a = true -> storable b = true -> not_after (stamp a) (stamp b) = (a <=? b);
  moment_stamp a : storable a = true -> moment (stamp a) = a }.
(** SQLite: [datetime.now(timezone.utc).isoformat()], compared as texts. *)
#[export] Instance text_timestamp : Timestamp string := {
  stamp := isoformat; not_after := String.leb;
  moment t := match fromisoformat t with Some d => instant d | None => 0 end; storable := in_range }.
(** PostgreSQL: [TIMESTAMPTZ]. *)
#[export] Instance native_timestamp : Timestamp Z := { stamp a := a; not_after := Z.leb; moment a := a; storable _ := true }.
#[export] Instance text_timestamp_laws : TimestampLaws string.
Proof.
  split.
  - intros a b Ha Hb. change (String.leb (isoformat a) (isoformat b) = (a <=? b)). unfold String.leb.
    rewrite isoformat_compare by done. unfold Z.leb. by destruct (a ?= b).
  - intros a Ha. change (moment (isoformat a) = a). unfold moment, text_timestamp.
    rewrite fromisoformat_iso by done. apply instant_utc.
Qed.
#[export] Instance native_timestamp_laws : TimestampLaws Z.
Proof. split; done. Qed.

(** ** Validation *)
Definition ExecutionLeaseLostError : exn := Exn "ExecutionLeaseLostError" "job execution lease is lost or expired".
Definition IdempotencyConflictError : exn :=
  Exn "IdempotencyConflictError" "idempotency key was already used with a different task or payload".
Definition IntegrityError : exn := Exn "IntegrityError" "UNIQUE constraint failed".
(** [_validate_lease] *)
Definition validate_job_lease (execution_token : string) (lease_seconds : spec_float) : result spec_float :=
  _ ← check (truthy (strip execution_token)) (ValueError "execution_token is required");
  _ ← check (float_positive lease_seconds) (ValueError "lease_seconds must be finite and positive");
  Ok lease_seconds.
(** [_normalize_idempotency_key] *)
Definition normalize_idempotency_key (value : option string) : result (option string) :=
  match value with
  | None => Ok None
  | Some value =>
      let normalized := strip value in
      _ ← check (truthy normalized) (ValidationError "idempotency key cannot be blank");
      _ ← raise_when (256 <? String.length normalized)%nat
            (ValidationError "idempotency key cannot exceed 256 characters");
      Ok (Some normalized)
  end.
(** [int(limit)] clamped: [max(1, min(limit, most))]. *)
Definition clamp_limit (limit most : Z) : nat := Z.to_nat (Z.max 1 (Z.min limit most)).

(** ** Statements of the SQL, on either store *)
Section Tables.
  Context {T : Type} `{Timestamp T}.
  Implicit Types (j : JobRecord T) (st : JobStore T).

Definition find_job (p : JobRecord T -> bool) st : option (JobRecord T) := List.find p (js_jobs st).
Definition has_id (job_id : string) j : bool := String.eqb (jr_job_id j) job_id.
Definition has_key (key : string) j : bool := bool_decide (jr_idempotency_key j = Some key).
Definition job_of st (job_id : string) : option (JobRecord T) := find_job (has_id job_id) st.
(** [UPDATE jobs SET set WHERE where]: the store and the count of the rows. *)
Definition update_jobs st (where_ : JobRecord T -> bool) (set_ : JobRecord T -> JobRecord T) : JobStore T * nat :=
  ({| js_jobs := map (fun j => if where_ j then set_ j else j) (js_jobs st); js_events := js_events st |},
   length (List.filter where_ (js_jobs st))).
(** [_append_event]; the key is [AUTOINCREMENT] in a table nothing is deleted from. *)
Definition append_job_event st (job_id event_type : string) (payload : Payload) (at_ : Z) : JobStore T :=
  {| js_jobs := js_jobs st;
     js_events := js_events st ++
       [{| er_event_id := Z.of_nat (length (js_events st)) + 1; er_job_id := job_id; er_event_type := event_type;
           er_event_payload := payload; er_created_at := stamp at_ |}] |}.
(** [execution_token IS NULL OR lease_expires_at IS NULL OR lease_expires_at <= now] *)
Definition lease_free (now : T) j : bool :=
  match jr_execution_token j, jr_lease_expires_at j with
  | Some _, Some lease => not_after lease now
  | _, _ => true
  end.
Definition with_lease j (status : JobStatus) (token : option string) (lease : option T) (now : T) : JobRecord T :=
  {| jr_job_id := jr_job_id j; jr_task_name := jr_task_name j; jr_status := status; jr_payload := jr_payload j;
     jr_idempotency_key := jr_idempotency_key j; jr_payload_fingerprint := jr_payload_fingerprint j;
     jr_result := jr_result j; jr_error := jr_error j; jr_attempt_count := jr_attempt_count j;
     jr_max_attempts := jr_max_attempts j; jr_request_id := jr_request_id j; jr_created_at := jr_created_at j;
     jr_updated_at := now; jr_execution_token := token; jr_lease_expires_at := lease |}.
Definition with_outcome j (status : JobStatus) (result error : Json) (attempt_count : Z) (now : T) : JobRecord T :=
  {| jr_job_id := jr_job_id j; jr_task_name := jr_task_name j; jr_status := status; jr_payload := jr_payload j;
     jr_idempotency_key := jr_idempotency_key j; jr_payload_fingerprint := jr_payload_fingerprint j;
     jr_result := result; jr_error := error; jr_attempt_count := attempt_count;
     jr_max_attempts := jr_max_attempts j; jr_request_id := jr_request_id j; jr_created_at := jr_created_at j;
     jr_updated_at := now;
     jr_execution_token := if finished status then None else jr_execution_token j;
     jr_lease_expires_at := if finished status then None else jr_lease_expires_at j |}.

Definition with_json j (result error : Json) : JobRecord T :=
  {| jr_job_id := jr_job_id j; jr_task_name := jr_task_name j; jr_status := jr_status j; jr_payload := jr_payload j;
     jr_idempotency_key := jr_idempotency_key j; jr_payload_fingerprint := jr_payload_fingerprint j;
     jr_result := result; jr_error := error; jr_attempt_count := jr_attempt_count j;
     jr_max_attempts := jr_max_attempts j; jr_request_id := jr_request_id j; jr_created_at := jr_created_at j;
     jr_updated_at := jr_updated_at j; jr_execution_token := jr_execution_token j;
     jr_lease_expires_at := jr_lease_expires_at j |}.

(** The statements of [claim_job], [renew_job_lease] and [release_job_lease]. *)
Definition claimable (recovery : bool) (now : T) j : bool :=
  bool_decide (jr_status j ∈ if recovery then [ACCEPTED; RUNNING] else [ACCEPTED]) && lease_free now j.
Definition claim_row (recovery : bool) (token : string) (deadline now : T) j : JobRecord T :=
  with_lease j (if recovery && bool_decide (jr_status j = RUNNING) then ACCEPTED else jr_status j)
    (Some token) (Some deadline) now.
Definition renewable (token : string) (now : T) j : bool :=
  bool_decide (jr_execution_token j = Some token) &&
  match jr_lease_expires_at j with Some lease => negb (not_after lease now) | None => false end &&
  open_status (jr_status j).
Definition releasable (token : string) j : bool :=
  bool_decide (jr_execution_token j = Some token) && open_status (jr_status j).

(** The row [create_or_get_job] inserts. *)
Definition new_job (job_id task_name : string) (payload : Payload) (key : option string) (fingerprint : string)
    (max_attempts : Z) (request_id : string) (now : T) : JobRecord T :=
  {| jr_job_id := job_id; jr_task_name := task_name; jr_status := ACCEPTED; jr_payload := payload;
     jr_idempotency_key := key; jr_payload_fingerprint := fingerprint; jr_result := JNull; jr_error := JNull;
     jr_attempt_count := 0; jr_max_attempts := max_attempts; jr_request_id := request_id; jr_created_at := now;
     jr_updated_at := now; jr_execution_token := None; jr_lease_expires_at := None |}.
Definition insert_job st j : JobStore T := {| js_jobs := js_jobs st ++ [j]; js_events := js_events st |}.
(** [_validate_existing_job] *)
Definition validate_existing_job j (task_name fingerprint : string) : result unit :=
  check (String.eqb (jr_task_name j) task_name && String.eqb (jr_payload_fingerprint j) fingerprint)
    IdempotencyConflictError.

(** Reads. *)
Definition list_recoverable_jobs st (task_name : string) (limit : Z) (now : Z) : list (JobRecord T) :=
  take (clamp_limit limit 10000)
    (sort_by (fun a b => not_after (jr_created_at a) (jr_created_at b))
       (List.filter (fun j => String.eqb (jr_task_name j) task_name && open_status (jr_status j) &&
                              lease_free (stamp now) j) (js_jobs st))).
Definition get_job st (job_id : string) : option (JobRecord T) := job_of st job_id.
Definition get_job_by_idempotency_key st (idempotency_key : string) : result (option (JobRecord T)) :=
  key ← normalize_idempotency_key (Some idempotency_key);
  Ok (match key with None => None | Some key => find_job (has_key key) st end).
Definition list_job_events st (job_id : string) (limit : Z) : list (EventRecord T) :=
  take (clamp_limit limit 1000) (List.filter (fun e => String.eqb (er_job_id e) job_id) (js_events st)).
(** [_transaction]: commit, or roll back and raise. *)
Definition transaction_of {A} (operation : JobStore T -> result (A * JobStore T)) : io (JobStore T) A := fun st =>
  match operation st with Ok (a, st') => (st', Ok a) | Raise e => (st, Raise e) end.
End Tables.

(** ** Operations, as both repositories offer them

    [mark_running], [mark_retry_scheduled], [mark_recovery_queued],
    [mark_succeeded] and [mark_failed] are [Transition]s. *)
Record Outcome := {
  ou_target : JobStatus; ou_event : string; ou_payload : Payload; ou_result : Json; ou_error : Json;
  ou_attempt_count : option Z }.
Definition mark_running (attempt : Z) : Outcome :=
  {| ou_target := RUNNING; ou_event := "task_started"; ou_payload := [("attempt", JInt attempt)];
     ou_result := JNull; ou_error := JNull; ou_attempt_count := Some attempt |}.
Definition mark_retry_scheduled (payload : Payload) : Outcome :=
  {| ou_target := ACCEPTED; ou_event := "task_retry_scheduled"; ou_payload := payload;
     ou_result := JNull; ou_error := JNull; ou_attempt_count := None |}.
Definition mark_recovery_queued (payload : Payload) : Outcome :=
  {| ou_target := ACCEPTED; ou_event := "task_recovery_queued"; ou_payload := payload;
     ou_result := JNull; ou_error := JNull; ou_attempt_count := None |}.
Definition mark_succeeded (result : Json) : Outcome :=
  {| ou_target := SUCCEEDED; ou_event := "task_succeeded"; ou_payload := [("result", result)];
     ou_result := result; ou_error := JNull; ou_attempt_count := None |}.
Definition mark_failed (error : Json) : Outcome :=
  {| ou_target := FAILED; ou_event := "task_failed"; ou_payload := [("error", error)];
     ou_result := JNull; ou_error := error; ou_attempt_count := None |}.
Definition outcome_result (o : Outcome) : Json := if bool_decide (ou_target o = SUCCEEDED) then ou_result o else JNull.
Definition outcome_error (o : Outcome) : Json := if bool_decide (ou_target o = FAILED) then ou_error o else JNull.
Definition invalid_transition (current target : JobStatus) : exn :=
  RuntimeError ("invalid job state transition: " +:+ status_text current +:+ " -> " +:+ status_text target).

Inductive JobOp :=
  | CreateOrGet (task_name : string) (payload : Payload) (idempotency_key : option string)
      (max_attempts : Z) (request_id new_id : string)   (** [new_id] is [uuid.uuid4().hex] *)
  | ClaimJob (job_id token : string) (lease_seconds : spec_float) (recovery : bool)
  | RenewLease (job_id token : string) (lease_seconds : spec_float)
  | ReleaseLease (job_id token : string)
  | Transition (job_id : string) (o : Outcome) (token : option string).
Inductive JobReply {J : Type} :=
  | Created (j : J) (reused : bool)
  | Claimed (j : option J)
  | Flag (b : bool)
  | Updated (j : J).
Arguments JobReply : clear implicits.

(** *** [JobRepository]; [now] and [logged] are two readings of [_utc_now()]: the
    operation's and the one of its event. *)
Module Sqlite.
Section Repository.
  Variable fingerprint_of : Payload -> string.  (** [_payload_fingerprint] *)

(** [_lease_deadline] *)
Definition lease_deadline (now execution_token : string) (lease_seconds : spec_float) : result string :=
  start ← from_option Ok (Raise (ValueError "Invalid isoformat string")) (fromisoformat now);
  seconds ← validate_job_lease execution_token lease_seconds;
  let deadline := instant start + timedelta_us seconds in
  _ ← check (in_range deadline) (Exn "OverflowError" "date value out of range");
  Ok (isoformat deadline).
(** [_check_lease] *)
Definition check_lease (j : JobRecord string) (execution_token : option string) (now : string) : result unit :=
  match execution_token, jr_execution_token j, jr_lease_expires_at j with
  | None, None, None => Ok tt
  | Some token, owner, Some lease =>
      if negb (bool_decide (owner = Some token)) then Raise ExecutionLeaseLostError
      else
        match fromisoformat lease, fromisoformat now with
        | Some expires, Some now => raise_when (instant expires <=? instant now) ExecutionLeaseLostError
        | _, _ => Raise (ValueError "Invalid isoformat string")
        end
  | _, _, _ => Raise ExecutionLeaseLostError
  end.

Definition create_or_get_job (task_name : string) (payload : Payload) (idempotency_key : option string)
    (max_attempts : Z) (request_id job_id : string) (now logged : Z) (st : JobStore string)
    : result (JobRecord string * bool * JobStore string) :=
  key ← normalize_idempotency_key idempotency_key;
  let fingerprint := fingerprint_of payload in
  match (match key with Some key => find_job (has_key key) st | None => None end) with
  | Some existing =>
      _ ← validate_existing_job existing task_name fingerprint;
      Ok (existing, true, st)
  | None =>
      let row := new_job job_id task_name payload key fingerprint max_attempts request_id (stamp now) in
      _ ← raise_when (is_Some_b (job_of st job_id)) IntegrityError;
      Ok (row, false, append_job_event (insert_job st row) job_id "task_accepted"
                        [("task_name", JStr task_name); ("request_id", JStr request_id)] logged)
  end.
Definition find_idempotent_job (st : JobStore string) (task_name : string) (payload : Payload)
    (idempotency_key : option string) : result (option (JobRecord string)) :=
  key ← normalize_idempotency_key idempotency_key;
  match (match key with Some key => find_job (has_key key) st | None => None end) with
  | None => Ok None
  | Some existing => _ ← validate_existing_job existing task_name (fingerprint_of payload); Ok (Some existing)
  end.
Definition claim_job (job_id token : string) (lease_seconds : spec_float) (recovery : bool) (now logged : Z)
    (st : JobStore string) : result (option (JobRecord string) * JobStore string) :=
  deadline ← lease_deadline (stamp now) token lease_seconds;
  let '(st, rowcount) := update_jobs st (fun j => has_id job_id j && claimable recovery (stamp now) j)
                           (claim_row recovery token deadline (stamp now)) in
  if negb (rowcount =? 1)%nat then Ok (None, st)
  else
    let st := if recovery then append_job_event st job_id "task_recovery_queued" [] logged else st in
    Ok (job_of st job_id, st).
Definition renew_job_lease (job_id token : string) (lease_seconds : spec_float) (now : Z)
    (st : JobStore string) : result (bool * JobStore string) :=
  deadline ← lease_deadline (stamp now) token lease_seconds;
  let '(st, rowcount) := update_jobs st (fun j => has_id job_id j && renewable token (stamp now) j)
                           (fun j => with_lease j (jr_status j) (jr_execution_token j) (Some deadline) (stamp now)) in
  Ok ((rowcount =? 1)%nat, st).
Definition release_job_lease (job_id token : string) (now : Z) (st : JobStore string)
    : result (bool * JobStore string) :=
  _ ← check (truthy (strip token)) (ValueError "execution_token is required");
  let '(st, rowcount) := update_jobs st (fun j => has_id job_id j && releasable token j)
                           (fun j => with_lease j (jr_status j) None None (stamp now)) in
  Ok ((rowcount =? 1)%nat, st).
(** [_transition] *)
Definition transition (job_id : string) (o : Outcome) (token : option string) (now logged : Z)
    (st : JobStore string) : result (JobRecord string * JobStore string) :=
  match job_of st job_id with
  | None => Raise (KeyError job_id)
  | Some current =>
      _ ← check (bool_decide (ou_target o ∈ allowed_transitions (jr_status current)))
            (invalid_transition (jr_status current) (ou_target o));
      _ ← check_lease current token (stamp now);
      let set_ j := with_outcome j (ou_target o) (outcome_result o) (outcome_error o)
                      (default (jr_attempt_count current) (ou_attempt_count o)) (stamp now) in
      let '(st, _) := update_jobs st (has_id job_id) set_ in
      let st := append_job_event st job_id (ou_event o) (ou_payload o) logged in
      Ok (default (set_ current) (job_of st job_id), st)
  end.
Definition append_event (job_id event_type : string) (payload : Payload) (logged : Z) (st : JobStore string)
    : result (unit * JobStore string) :=
  match job_of st job_id with
  | None => Raise (KeyError job_id)
  | Some _ => Ok (tt, append_job_event st job_id event_type payload logged)
  end.

Definition perform (op : JobOp) (now logged : Z) : io (JobStore string) (JobReply (JobRecord string)) :=
  match op with
  | CreateOrGet task payload key most request new_id =>
      '(j, reused) ← transaction_of (create_or_get_job task payload key most request new_id now logged);
      mret (Created j reused)
  | ClaimJob id token seconds recovery => j ← transaction_of (claim_job id token seconds recovery now logged); mret (Claimed j)
  | RenewLease id token seconds => b ← transaction_of (renew_job_lease id token seconds now); mret (Flag b)
  | ReleaseLease id token => b ← transaction_of (release_job_lease id token now); mret (Flag b)
  | Transition id o token => j ← transaction_of (transition id o token now logged); mret (Updated j)
  end.
End Repository.
End Sqlite.

(** *** [PostgresJobRepository]; [clock] is the [clock_timestamp()] a condition
    reads and [written] the one an assignment reads, or [CURRENT_TIMESTAMP]. *)
Module Postgres.
Section Repository.
  Variable fingerprint_of : Payload -> string.  (** [_payload_fingerprint] *)
  Variable interval_us : spec_float -> Z.       (** [seconds * INTERVAL '1 second'] *)
  Variable json_loads : string -> result Json.  (** [json.loads] *)

(** [_json_load], of what psycopg decodes a JSONB value to. *)
Definition json_load (value : Json) : result Json :=
  match value with JStr text => json_loads text | _ => Ok value end.
(** [_to_job] of a row. *)
Definition to_job (row : JobRecord Z) : result (JobRecord Z) :=
  result ← json_load (jr_result row);
  error ← json_load (jr_error row);
  Ok (with_json row result error).
(** [None if row is None else self._to_job(row)] *)
Definition to_job_or_none (row : option (JobRecord Z)) : result (option (JobRecord Z)) :=
  match row with None => Ok None | Some row => Some <$> to_job row end.

(** [INSERT ... ON CONFLICT (idempotency_key) DO NOTHING], then the row in its way. *)
Definition create_or_get_job (task_name : string) (payload : Payload) (idempotency_key : option string)
    (max_attempts : Z) (request_id job_id : string) (now logged : Z) (st : JobStore Z)
    : result (JobRecord Z * bool * JobStore Z) :=
  key ← normalize_idempotency_key idempotency_key;
  let fingerprint := fingerprint_of payload in
  let conflict := match key with Some key => find_job (has_key key) st | None => None end in
  if is_Some_b conflict then
    match key, conflict with
    | Some _, Some row =>
        existing ← to_job row;
        _ ← validate_existing_job existing task_name fingerprint;
        Ok (existing, true, st)
    | _, _ => Raise (RuntimeError "PostgreSQL job insert returned no row")
    end
  else
    let row := new_job job_id task_name payload key fingerprint max_attempts request_id (stamp now) in
    _ ← raise_when (is_Some_b (job_of st job_id)) IntegrityError;
    created ← to_job row;
    Ok (created, false, append_job_event (insert_job st row) job_id "task_accepted"
                          [("task_name", JStr task_name); ("request_id", JStr request_id)] logged).
Definition find_idempotent_job (st : JobStore Z) (task_name : string) (payload : Payload)
    (idempotency_key : option string) : result (option (JobRecord Z)) :=
  key ← normalize_idempotency_key idempotency_key;
  match (match key with Some key => find_job (has_key key) st | None => None end) with
  | None => Ok None
  | Some row =>
      existing ← to_job row;
      _ ← validate_existing_job existing task_name (fingerprint_of payload);
      Ok (Some existing)
  end.
(** The transaction of [claim_job]; the row becomes a job after the commit. *)
Definition claim_job (job_id token : string) (lease_seconds : spec_float) (recovery : bool) (clock written logged : Z)
    (st : JobStore Z) : result (option (JobRecord Z) * JobStore Z) :=
  seconds ← validate_job_lease token lease_seconds;
  let '(st, rowcount) := update_jobs st (fun j => has_id job_id j && claimable recovery clock j)
                           (claim_row recovery token (written + interval_us seconds) written) in
  if (rowcount =? 0)%nat then Ok (None, st)
  else
    let row := job_of st job_id in
    Ok (row, if recovery then append_job_event st job_id "task_recovery_queued" [] logged else st).
Definition renew_job_lease (job_id token : string) (lease_seconds : spec_float) (clock written : Z)
    (st : JobStore Z) : result (bool * JobStore Z) :=
  seconds ← validate_job_lease token lease_seconds;
  let '(st, rowcount) := update_jobs st (fun j => has_id job_id j && renewable token clock j)
      (fun j => with_lease j (jr_status j) (jr_execution_token j) (Some (written + interval_us seconds)) written) in
  Ok (negb (rowcount =? 0)%nat, st).
Definition release_job_lease (job_id token : string) (written : Z) (st : JobStore Z) : result (bool * JobStore Z) :=
  _ ← check (truthy (strip token)) (ValueError "execution_token is required");
  let '(st, rowcount) := update_jobs st (fun j => has_id job_id j && releasable token j)
                           (fun j => with_lease j (jr_status j) None None written) in
  Ok (negb (rowcount =? 0)%nat, st).
(** The lease condition of the [UPDATE] of [_transition]. *)
Definition lease_holds (token : option string) (clock : Z) (j : JobRecord Z) : bool :=
  match jr_execution_token j, jr_lease_expires_at j, token with
  | None, None, None => true
  | Some owner, Some lease, Some token => String.eqb owner token && negb (not_after lease clock)
  | _, _, _ => false
  end.
(** [_transition] *)
Definition transition (job_id : string) (o : Outcome) (token : option string) (clock written logged : Z)
    (st : JobStore Z) : result (JobRecord Z * JobStore Z) :=
  match job_of st job_id with
  | None => Raise (KeyError job_id)
  | Some row =>
      current ← to_job row;
      _ ← check (bool_decide (ou_target o ∈ allowed_transitions (jr_status current)))
            (invalid_transition (jr_status current) (ou_target o));
      let set_ j := with_outcome j (ou_target o) (outcome_result o) (outcome_error o)
                      (default (jr_attempt_count current) (ou_attempt_count o)) written in
      let '(st, rowcount) := update_jobs st (fun j => has_id job_id j && lease_holds token clock j) set_ in
      _ ← raise_when (rowcount =? 0)%nat ExecutionLeaseLostError;
      let st' := append_job_event st job_id (ou_event o) (ou_payload o) logged in
      job ← to_job (default (set_ row) (job_of st job_id));
      Ok (job, st')
  end.
Definition append_event (job_id event_type : string) (payload : Payload) (logged : Z) (st : JobStore Z)
    : result (unit * JobStore Z) :=
  current ← to_job_or_none (job_of st job_id);
  match current with
  | None => Raise (KeyError job_id)
  | Some _ => Ok (tt, append_job_event st job_id event_type payload logged)
  end.
Definition get_job (st : JobStore Z) (job_id : string) : result (option (JobRecord Z)) :=
  to_job_or_none (job_of st job_id).

Definition perform (op : JobOp) (clock written logged : Z) : io (JobStore Z) (JobReply (JobRecord Z)) :=
  match op with
  | CreateOrGet task payload key most request new_id =>
      '(j, reused) ← transaction_of (create_or_get_job task payload key most request new_id written logged);
      mret (Created j reused)
  | ClaimJob id token seconds recovery =>
      row ← transaction_of (claim_job id token seconds recovery clock written logged);
      j ← lift (to_job_or_none row);
      mret (Claimed j)
  | RenewLease id token seconds => b ← transaction_of (renew_job_lease id token seconds clock written); mret (Flag b)
  | ReleaseLease id token => b ← transaction_of (release_job_lease id token written); mret (Flag b)
  | Transition id o token => j ← transaction_of (transition id o token clock written logged); mret (Updated j)
  end.
End Repository.
End Postgres.

(** ** The ledger both implement

    A job as the rules of the ledger see it: [sp_owner] is the token of its lease
    and the instant it expires at. *)
Record SpecJob := {
  sp_task : string; sp_fingerprint : string; sp_key : option string; sp_status : JobStatus;
  sp_attempts : Z; sp_max_attempts : Z; sp_owner : option (string * Z) }.
Abbreviation Spec := (gmap string SpecJob).
Definition unowned (now : Z) (j : SpecJob) : bool :=
  match sp_owner j with Some (_, expires) => expires <=? now | None => true end.
Definition holds (token : string) (now : Z) (j : SpecJob) : bool :=
  match sp_owner j with Some (owner, expires) => String.eqb owner token && (now <? expires) | None => false end.
Definition sp_with (j : SpecJob) (status : JobStatus) (attempts : Z) (owner : option (string * Z)) : SpecJob :=
  {| sp_task := sp_task j; sp_fingerprint := sp_fingerprint j; sp_key := sp_key j; sp_status := status;
     sp_attempts := attempts; sp_max_attempts := sp_max_attempts j; sp_owner := owner |}.
Definition spec_of_key (key : string) (s : Spec) : option (string * SpecJob) :=
  head (filter (fun kv => sp_key kv.2 = Some key) (map_to_list s)).

Section Specification.
  Variable fingerprint_of : Payload -> string.

(** [deadline] is the expiry a lease taken by the operation gets, or why it cannot be taken. *)
Definition spec_perform (op : JobOp) (now : Z) (deadline : result Z) (s : Spec)
    : Spec * result (JobReply (string * SpecJob)) :=
  match op with
  | CreateOrGet task payload key most _ new_id =>
      match normalize_idempotency_key key with
      | Raise e => (s, Raise e)
      | Ok key =>
          match (match key with Some key => spec_of_key key s | None => None end) with
          | Some (id, j) =>
              (s, if String.eqb (sp_task j) task && String.eqb (sp_fingerprint j) (fingerprint_of payload)
                  then Ok (Created (id, j) true) else Raise IdempotencyConflictError)
          | None =>
              let j := {| sp_task := task; sp_fingerprint := fingerprint_of payload; sp_key := key;
                          sp_status := ACCEPTED; sp_attempts := 0; sp_max_attempts := most; sp_owner := None |} in
              match s !! new_id with
              | Some _ => (s, Raise IntegrityError)
              | None => (<[new_id := j]> s, Ok (Created (new_id, j) false))
              end
          end
      end
  | ClaimJob id token _ recovery =>
      match deadline with
      | Raise e => (s, Raise e)
      | Ok expires =>
          match s !! id with
          | None => (s, Ok (Claimed None))
          | Some j =>
              if bool_decide (sp_status j ∈ if recovery then [ACCEPTED; RUNNING] else [ACCEPTED]) && unowned now j
              then let j' := sp_with j ACCEPTED (sp_attempts j) (Some (token, expires)) in
                   (<[id := j']> s, Ok (Claimed (Some (id, j'))))
              else (s, Ok (Claimed None))
          end
      end
  | RenewLease id token _ =>
      match deadline with
      | Raise e => (s, Raise e)
      | Ok expires =>
          match s !! id with
          | Some j => if holds token now j && open_status (sp_status j)
                      then (<[id := sp_with j (sp_status j) (sp_attempts j) (Some (token, expires))]> s, Ok (Flag true))
                      else (s, Ok (Flag false))
          | None => (s, Ok (Flag false))
          end
      end
  | ReleaseLease id token =>
      if negb (truthy (strip token)) then (s, Raise (ValueError "execution_token is required"))
      else match s !! id with
      | Some j => if match sp_owner j with Some (owner, _) => String.eqb owner token | None => false end &&
                     open_status (sp_status j)
                  then (<[id := sp_with j (sp_status j) (sp_attempts j) None]> s, Ok (Flag true))
                  else (s, Ok (Flag false))
      | None => (s, Ok (Flag false))
      end
  | Transition id o token =>
      match s !! id with
      | None => (s, Raise (KeyError id))
      | Some j =>
          if negb (bool_decide (ou_target o ∈ allowed_transitions (sp_status j)))
          then (s, Raise (invalid_transition (sp_status j) (ou_target o)))
          else if negb (match token with
                        | Some token => holds token now j
                        | None => negb (is_Some_b (sp_owner j))
                        end)
          then (s, Raise ExecutionLeaseLostError)
          else
            let j' := sp_with j (ou_target o) (default (sp_attempts j) (ou_attempt_count o))
                        (if finished (ou_target o) then None else sp_owner j) in
            (<[id := j']> s, Ok (Updated (id, j')))
      end
  end.
End Specification.

(** ** The ledger a store holds *)
Section Abstraction.
  Context {T : Type} `{TimestampLaws T}.
  Implicit Types (j : JobRecord T) (st : JobStore T).

Definition owner_of j : option (string * Z) :=
  match jr_execution_token j, jr_lease_expires_at j with
  | Some token, Some lease => Some (token, moment lease)
  | _, _ => None
  end.
Definition abs_job j : SpecJob :=
  {| sp_task := jr_task_name j; sp_fingerprint := jr_payload_fingerprint j; sp_key := jr_idempotency_key j;
     sp_status := jr_status j; sp_attempts := jr_attempt_count j; sp_max_attempts := jr_max_attempts j;
     sp_owner := owner_of j |}.
Definition entry j : string * SpecJob := (jr_job_id j, abs_job j).
Definition abs st : Spec := list_to_map (map entry (js_jobs st)).
Definition abs_reply (r : JobReply (JobRecord T)) : JobReply (string * SpecJob) :=
  match r with
  | Created j reused => Created (entry j) reused
  | Claimed j => Claimed (entry <$> j)
  | Flag b => Flag b
  | Updated j => Updated (entry j)
  end.

(** The two lease columns are written together, and never on a finished job. *)
Definition job_ok j : Prop :=
  match jr_execution_token j, jr_lease_expires_at j with
  | None, None => True
  | Some _, Some lease => (exists z, storable z = true /\ lease = stamp z) /\ finished (jr_status j) = false
  | _, _ => False
  end.
Record store_ok st : Prop := {
  so_ids : NoDup (map jr_job_id (js_jobs st));
  so_keys : NoDup (omap jr_idempotency_key (js_jobs st));
  so_jobs : Forall job_ok (js_jobs st) }.

Lemma has_id_true id j : has_id id j = true <-> jr_job_id j = id.
Proof. apply String.eqb_eq. Qed.
Lemma job_of_elem st id j : job_of st id = Some j -> j ∈ js_jobs st /\ jr_job_id j = id.
Proof. intros [H1 H2]%find_some. split; [by apply list_elem_of_In|by apply has_id_true]. Qed.
Lemma job_of_None st id : job_of st id = None <-> id ∉ map jr_job_id (js_jobs st).
Proof.
  unfold job_of, find_job. rewrite list_elem_of_fmap. split.
  - intros Hn (j & -> & Hj%list_elem_of_In). pose proof (find_none _ _ Hn _ Hj) as Hf. unfold has_id in Hf.
    by rewrite String.eqb_refl in Hf.
  - intros Hn. destruct (List.find _ _) as [j|] eqn:E; [|done]. destruct Hn. exists j.
    by apply (job_of_elem st id j) in E as [? <-].
Qed.
(** The rows around the one of an identifier. *)
Lemma job_of_split st id j :
  NoDup (map jr_job_id (js_jobs st)) -> job_of st id = Some j ->
  exists l1 l2, js_jobs st = l1 ++ j :: l2 /\ Forall (fun x => has_id id x = false) (l1 ++ l2) /\ jr_job_id j = id.
Proof.
  intros Hnd Hj. apply job_of_elem in Hj as [Hj Hid]. apply list_elem_of_split in Hj as (l1 & l2 & E).
  exists l1, l2. split; [done|]. split; [|done]. rewrite E, map_app in Hnd. simpl in Hnd.
  apply NoDup_app in Hnd as (_ & Hd & Hnd). apply NoDup_cons in Hnd as [Hn _].
  apply Forall_forall. intros x Hx. apply not_true_iff_false. rewrite has_id_true. intros Ex.
  apply elem_of_app in Hx as [Hx|Hx]; apply (list_elem_of_fmap_2 jr_job_id) in Hx; rewrite Ex, <- Hid in Hx.
  - apply (Hd _ Hx). by left.
  - done.
Qed.
Lemma abs_lookup st id : NoDup (map jr_job_id (js_jobs st)) -> abs st !! id = abs_job <$> job_of st id.
Proof.
  intros Hnd. unfold abs. destruct (job_of st id) as [j|] eqn:E; simpl.
  - apply job_of_elem in E as [Hj <-]. apply elem_of_list_to_map_1.
    + by rewrite <- list_fmap_compose.
    + apply list_elem_of_fmap. by exists j.
  - apply not_elem_of_list_to_map_1. apply job_of_None in E. by rewrite <- list_fmap_compose.
Qed.

(** *** Updating the row of an identifier *)
Lemma map_unaffected (w : JobRecord T -> bool) (f : JobRecord T -> JobRecord T) l :
  Forall (fun x => w x = false) l -> map (fun j => if w j then f j else j) l = l.
Proof. induction 1 as [|x l Hx _ IH]; simpl; [done|]. by rewrite Hx, IH. Qed.
Lemma filter_unaffected (w : JobRecord T -> bool) l : Forall (fun x => w x = false) l -> List.filter w l = [].
Proof. induction 1 as [|x l Hx _ IH]; simpl; [done|]. by rewrite Hx. Qed.
Lemma find_app_skip (w : JobRecord T -> bool) l1 x l2 :
  Forall (fun x => w x = false) l1 -> w x = true -> List.find w (l1 ++ x :: l2) = Some x.
Proof. induction 1 as [|y l Hy _ IH]; simpl; [by intros ->|]. intros Hx. rewrite Hy. by apply IH. Qed.

Definition keeps_identity (set_ : JobRecord T -> JobRecord T) : Prop :=
  forall j, jr_job_id (set_ j) = jr_job_id j /\ jr_idempotency_key (set_ j) = jr_idempotency_key j.

Lemma update_row st id p set_ :
  store_ok st -> keeps_identity set_ ->
  let '(st', n) := update_jobs st (fun j => has_id id j && p j) set_ in
  match job_of st id with
  | Some j => if p j then n = 1%nat /\ job_of st' id = Some (set_ j) /\ abs st' = <[id := abs_job (set_ j)]> (abs st) /\
                          (job_ok (set_ j) -> store_ok st')
              else n = 0%nat /\ st' = st
  | None => n = 0%nat /\ st' = st
  end.
Proof.
  intros [Hids Hkeys Hjobs] Hset. unfold update_jobs. cbv zeta.
  destruct (job_of st id) as [j|] eqn:E.
  - destruct (job_of_split _ _ _ Hids E) as (l1 & l2 & El & Hother & Hid).
    apply Forall_app in Hother as [H1 H2].
    assert (Hskip : forall l, Forall (fun x => has_id id x = false) l -> Forall (fun x => has_id id x && p x = false) l).
    { intros l Hl. eapply Forall_impl; [exact Hl|]. simpl. by intros x ->. }
    assert (Hj : has_id id j = true) by by apply has_id_true.
    rewrite El, map_app, List.filter_app. simpl. rewrite !(map_unaffected _ _ _ (Hskip _ H1)), !(map_unaffected _ _ _ (Hskip _ H2)),
      !filter_unaffected by auto. rewrite Hj. simpl. destruct (p j); simpl.
    + split; [done|]. destruct (Hset j) as [Hi Hk]. split; [|split].
      * unfold job_of, find_job. simpl. apply find_app_skip; [done|]. apply has_id_true. by rewrite Hi.
      * unfold abs. simpl. rewrite El, !map_app. simpl. unfold entry at 2 5. rewrite Hi, Hid.
        rewrite !list_to_map_app, !list_to_map_cons. symmetry.
        etrans; [apply insert_union_r|by rewrite insert_insert_eq].
        apply not_elem_of_list_to_map_1; rewrite <- list_fmap_compose; intros (x & Ex & Hx)%list_elem_of_fmap;
          rewrite Forall_forall in H1; specialize (H1 x Hx); simpl in Ex;
          rewrite (proj2 (has_id_true id x)) in H1 by done; done.
      * intros Hok. constructor; simpl.
        -- rewrite El, map_app in Hids. rewrite map_app. simpl in *. by rewrite Hi.
        -- rewrite El, omap_app in Hkeys. rewrite omap_app. simpl in *. by rewrite Hk.
        -- rewrite El, Forall_app, Forall_cons in Hjobs. rewrite Forall_app, Forall_cons. tauto.
    + split; [done|]. destruct st. simpl in *. by rewrite El.
  - apply job_of_None in E.
    assert (Hnone : Forall (fun x => has_id id x && p x = false) (js_jobs st)).
    { apply Forall_forall. intros x Hx. apply andb_false_iff. left. apply not_true_iff_false. rewrite has_id_true.
      intros <-. apply E. apply list_elem_of_fmap. by exists x. }
    rewrite map_unaffected, filter_unaffected by done. split; [done|]. by destruct st.
Qed.
Lemma append_event_abs st id e p z : abs (append_job_event st id e p z) = abs st.
Proof. done. Qed.
Lemma append_event_ok st id e p z : store_ok st -> store_ok (append_job_event st id e p z).
Proof. intros []. by constructor. Qed.

(** *** Rows of an idempotency key *)
Lemma has_key_true key j : has_key key j = true <-> jr_idempotency_key j = Some key.
Proof. apply bool_decide_eq_true. Qed.
Lemma filter_key key l :
  NoDup (omap jr_idempotency_key l) ->
  filter (fun kv : string * SpecJob => sp_key kv.2 = Some key) (map entry l) =
  option_list (entry <$> List.find (has_key key) l).
Proof.
  induction l as [|j l IH]; simpl; [done|]. intros Hnd. unfold has_key at 1.
  assert (Htail : NoDup (omap jr_idempotency_key l)).
  { destruct (jr_idempotency_key j); [by apply NoDup_cons in Hnd as [_ ?]|done]. }
  specialize (IH Htail). case_bool_decide as E.
  - rewrite filter_cons_True by done. simpl. f_equal. rewrite E in Hnd. apply NoDup_cons in Hnd as [Hn _].
    rewrite IH. destruct (List.find (has_key key) l) as [j'|] eqn:Ef; [|done]. destruct Hn.
    apply find_some in Ef as [Hin Hk]. apply has_key_true in Hk. apply list_elem_of_omap. exists j'.
    split; [by apply list_elem_of_In|done].
  - by rewrite filter_cons_False by done.
Qed.
Lemma spec_of_key_abs st key : store_ok st -> spec_of_key key (abs st) = entry <$> find_job (has_key key) st.
Proof.
  intros [Hids Hkeys _]. unfold spec_of_key, abs.
  assert (Hp : map_to_list (list_to_map (map entry (js_jobs st)) : Spec) ≡ₚ map entry (js_jobs st)).
  { apply map_to_list_to_map. by rewrite <- list_fmap_compose. }
  apply (filter_Permutation (fun kv : string * SpecJob => sp_key kv.2 = Some key)) in Hp.
  rewrite filter_key in Hp by done. unfold find_job. destruct (List.find _ _) as [j|]; simpl in *.
  - apply Permutation_singleton_r in Hp. by rewrite Hp.
  - apply Permutation_nil_r in Hp. by rewrite Hp.
Qed.
Lemma find_key_job_of st key j : store_ok st -> find_job (has_key key) st = Some j -> job_of st (jr_job_id j) = Some j.
Proof.
  intros [Hids _ _] [Hin _]%find_some. apply list_elem_of_In, list_elem_of_split in Hin as (l1 & l2 & E).
  unfold job_of, find_job. rewrite E in *. apply find_app_skip; [|by apply has_id_true].
  rewrite map_app in Hids. apply NoDup_app in Hids as (_ & Hd & _). apply Forall_forall. intros x Hx.
  apply not_true_iff_false. rewrite has_id_true. intros Ex. apply (list_elem_of_fmap_2 jr_job_id) in Hx. rewrite Ex in Hx.
  apply (Hd _ Hx). by left.
Qed.
Lemma insert_row_ok st j :
  store_ok st -> job_ok j -> job_of st (jr_job_id j) = None ->
  (forall key, jr_idempotency_key j = Some key -> find_job (has_key key) st = None) ->
  store_ok (insert_job st j) /\ abs (insert_job st j) = <[jr_job_id j := abs_job j]> (abs st).
Proof.
  intros [Hids Hkeys Hjobs] Hj Hid Hkey. apply job_of_None in Hid. split; [constructor|]; simpl.
  - rewrite map_app. apply NoDup_app. split; [done|]. split; [|by apply NoDup_singleton]. set_solver.
  - rewrite omap_app. apply NoDup_app. split; [done|]. simpl. destruct (jr_idempotency_key j) as [key|]; simpl.
    + split; [|by apply NoDup_singleton]. intros k Hk Hin. apply list_elem_of_singleton in Hin as ->.
      apply list_elem_of_omap in Hk as (x & Hx & Hxk). specialize (Hkey key eq_refl).
      apply list_elem_of_In in Hx. pose proof (find_none _ _ Hkey _ Hx) as Hf. apply (proj2 (has_key_true key x)) in Hxk. congruence.
    + split; [set_solver|constructor].
  - apply Forall_app. by rewrite Forall_singleton.
  - unfold abs. simpl. rewrite map_app, list_to_map_app. simpl. symmetry.
    rewrite insert_union_singleton_r; [done|]. apply not_elem_of_list_to_map_1. by rewrite <- list_fmap_compose.
Qed.

(** *** What the conditions say of the abstract job *)
Lemma job_ok_owner j : job_ok j -> sp_owner (abs_job j) = None <-> jr_execution_token j = None.
Proof.
  unfold job_ok, abs_job, owner_of. simpl. destruct (jr_execution_token j), (jr_lease_expires_at j); naive_solver.
Qed.
Lemma lease_free_unowned j now :
  job_ok j -> storable now = true -> lease_free (stamp now) j = unowned now (abs_job j).
Proof.
  unfold job_ok, lease_free, unowned, abs_job, owner_of. simpl. intros Hj Hnow.
  destruct (jr_execution_token j), (jr_lease_expires_at j); try done. destruct Hj as [(z & Hz & ->) _].
  by rewrite not_after_stamp, moment_stamp.
Qed.
Lemma renewable_holds j token now :
  job_ok j -> storable now = true -> renewable token (stamp now) j = holds token now (abs_job j) && open_status (jr_status j).
Proof.
  unfold job_ok, renewable, holds, abs_job, owner_of. simpl. intros Hj Hnow.
  destruct (jr_execution_token j) as [owner|], (jr_lease_expires_at j); try done. destruct Hj as [(z & Hz & ->) _].
  rewrite not_after_stamp, moment_stamp by done. rewrite <- Z.ltb_antisym. f_equal.
  destruct (String.eqb_spec owner token) as [->|Hne]; [by rewrite bool_decide_eq_true_2|].
  by rewrite bool_decide_eq_false_2 by congruence.
Qed.
Lemma claimable_spec j recovery now :
  job_ok j -> storable now = true ->
  claimable recovery (stamp now) j =
  bool_decide (jr_status j ∈ if recovery then [ACCEPTED; RUNNING] else [ACCEPTED]) && unowned now (abs_job j).
Proof. intros. unfold claimable. by rewrite lease_free_unowned. Qed.
Lemma releasable_spec j token :
  job_ok j ->
  releasable token j = match sp_owner (abs_job j) with Some (owner, _) => String.eqb owner token | None => false end &&
                       open_status (jr_status j).
Proof.
  unfold job_ok, releasable, abs_job, owner_of. simpl. intros Hj.
  destruct (jr_execution_token j) as [owner|], (jr_lease_expires_at j); try done. f_equal.
  destruct (String.eqb_spec owner token) as [->|Hne]; [by rewrite bool_decide_eq_true_2|].
  by rewrite bool_decide_eq_false_2 by congruence.
Qed.
Lemma open_not_finished s : open_status s = negb (finished s).
Proof. by destruct s. Qed.
Lemma store_ok_job st id j : store_ok st -> job_of st id = Some j -> job_ok j /\ jr_job_id j = id.
Proof. intros [_ _ H'] [Hin Hid]%job_of_elem. split; [|done]. by eapply Forall_forall in H'. Qed.

(** *** The statements are the steps of the ledger *)
Variable fingerprint_of : Payload -> string.

Lemma claim_update st id token seconds recovery d now (w : T) :
  store_ok st -> storable d = true -> storable now = true ->
  let '(st', n) := update_jobs st (fun j => has_id id j && claimable recovery (stamp now) j)
                     (claim_row recovery token (stamp d) w) in
  let '(s', r) := spec_perform fingerprint_of (ClaimJob id token seconds recovery) now (Ok d) (abs st) in
  abs st' = s' /\ store_ok st' /\
  (n = 0%nat /\ r = Ok (Claimed None) \/
   n = 1%nat /\ exists j, job_of st' id = Some j /\ r = Ok (Claimed (Some (entry j)))).
Proof.
  intros Hst Hd Hnow.
  pose proof (update_row st id (claimable recovery (stamp now)) (claim_row recovery token (stamp d) w) Hst
                ltac:(split; reflexivity)) as Hu.
  destruct (update_jobs _ _ _) as [st' n]. simpl. rewrite abs_lookup by apply Hst.
  destruct (job_of st id) as [j|] eqn:Ej; simpl; [|destruct Hu as [-> ->]; auto].
  destruct (store_ok_job _ _ _ Hst Ej) as [Hj Hid]. rewrite <- claimable_spec by done.
  destruct (claimable recovery (stamp now) j) eqn:Ec; [|destruct Hu as [-> ->]; auto].
  destruct Hu as (-> & Hj' & Habs & Hok).
  assert (Hs : jr_status (claim_row recovery token (stamp d) w j) = ACCEPTED).
  { unfold claimable in Ec. to_prop. simpl. destruct recovery, (jr_status j); set_solver. }
  assert (Hrow : abs_job (claim_row recovery token (stamp d) w j) =
                 sp_with (abs_job j) ACCEPTED (jr_attempt_count j) (Some (token, d))).
  { rewrite <- Hs. unfold abs_job, owner_of, sp_with. simpl. by rewrite moment_stamp. }
  split; [by rewrite Habs, Hrow|]. split.
  - apply Hok. unfold job_ok. simpl. split; [by exists d|]. simpl in Hs. by rewrite Hs.
  - right. split; [done|]. eexists. split; [exact Hj'|]. unfold entry. rewrite Hrow. simpl. by rewrite Hid.
Qed.
Lemma renew_update st id token seconds d now (w : T) :
  store_ok st -> storable d = true -> storable now = true ->
  let '(st', n) := update_jobs st (fun j => has_id id j && renewable token (stamp now) j)
                     (fun j => with_lease j (jr_status j) (jr_execution_token j) (Some (stamp d)) w) in
  let '(s', r) := spec_perform fingerprint_of (RenewLease id token seconds) now (Ok d) (abs st) in
  abs st' = s' /\ store_ok st' /\ (n = 0%nat /\ r = Ok (Flag false) \/ n = 1%nat /\ r = Ok (Flag true)).
Proof.
  intros Hst Hd Hnow. set (f := fun j => with_lease j _ _ _ _).
  pose proof (update_row st id (renewable token (stamp now)) f Hst ltac:(split; reflexivity)) as Hu.
  destruct (update_jobs _ _ _) as [st' n]. simpl. rewrite abs_lookup by apply Hst.
  destruct (job_of st id) as [j|] eqn:Ej; simpl; [|destruct Hu as [-> ->]; auto].
  destruct (store_ok_job _ _ _ Hst Ej) as [Hj Hid]. rewrite <- renewable_holds by done.
  destruct (renewable token (stamp now) j) eqn:Ec; [|destruct Hu as [-> ->]; auto].
  destruct Hu as (-> & _ & Habs & Hok). unfold renewable in Ec.
  apply andb_true_iff in Ec as [[Et _]%andb_true_iff Eo]. apply bool_decide_eq_true in Et.
  split; [|split; [|auto]].
  - rewrite Habs. unfold abs_job, owner_of, sp_with. simpl. by rewrite Et, moment_stamp.
  - apply Hok. unfold job_ok. simpl. rewrite Et. split; [by exists d|]. by rewrite open_not_finished, negb_true_iff in Eo.
Qed.
Lemma release_update st id token now (w : T) :
  store_ok st -> truthy (strip token) = true ->
  let '(st', n) := update_jobs st (fun j => has_id id j && releasable token j)
                     (fun j => with_lease j (jr_status j) None None w) in
  let '(s', r) := spec_perform fingerprint_of (ReleaseLease id token) now (Raise (KeyError "")) (abs st) in
  abs st' = s' /\ store_ok st' /\ (n = 0%nat /\ r = Ok (Flag false) \/ n = 1%nat /\ r = Ok (Flag true)).
Proof.
  intros Hst Ht. set (f := fun j => with_lease j _ _ _ _).
  pose proof (update_row st id (releasable token) f Hst ltac:(split; reflexivity)) as Hu.
  destruct (update_jobs _ _ _) as [st' n]. simpl. rewrite Ht, abs_lookup by apply Hst. simpl.
  destruct (job_of st id) as [j|] eqn:Ej; simpl; [|destruct Hu as [-> ->]; auto].
  destruct (store_ok_job _ _ _ Hst Ej) as [Hj Hid]. change (owner_of j) with (sp_owner (abs_job j)).
  rewrite <- releasable_spec by done.
  destruct (releasable token j) eqn:Ec; [|destruct Hu as [-> ->]; auto].
  destruct Hu as (-> & _ & Habs & Hok). split; [by rewrite Habs|]. split; [|auto]. by apply Hok.
Qed.

Lemma existing_check j task payload :
  (_ ← validate_existing_job j task (fingerprint_of payload); Ok (j, true)) =
  if String.eqb (jr_task_name j) task && String.eqb (jr_payload_fingerprint j) (fingerprint_of payload)
  then Ok (j, true) else Raise IdempotencyConflictError.
Proof. unfold validate_existing_job, check. by destruct (_ && _). Qed.
(** Inserting a job whose key nobody has. *)
Lemma create_insert st task payload raw key most request new_id now logged (w : T) dl :
  store_ok st -> normalize_idempotency_key raw = Ok key ->
  (match key with Some k => find_job (has_key k) st | None => None end) = None ->
  let row := new_job new_id task payload key (fingerprint_of payload) most request w in
  let '(s', r) := spec_perform fingerprint_of (CreateOrGet task payload raw most request new_id) now dl (abs st) in
  if is_Some_b (job_of st new_id) then s' = abs st /\ r = Raise IntegrityError
  else store_ok (insert_job st row) /\ abs (append_job_event (insert_job st row) new_id "task_accepted"
         [("task_name", JStr task); ("request_id", JStr request)] logged) = s' /\ r = Ok (Created (entry row) false).
Proof.
  intros Hst Hkey Hnone. simpl. rewrite Hkey.
  assert (Hspec : (match key with Some k => spec_of_key k (abs st) | None => None end) = None).
  { destruct key as [k|]; [|done]. by rewrite spec_of_key_abs, Hnone. }
  rewrite Hspec, abs_lookup by apply Hst. destruct (job_of st new_id) as [j|] eqn:E; simpl; [done|].
  destruct (insert_row_ok st (new_job new_id task payload key (fingerprint_of payload) most request w)) as [Hok Habs]; try done.
  - simpl. intros k ->. done.
Qed.

Lemma transition_row st id o token p now attempts (w : T) dl j :
  store_ok st -> job_of st id = Some j -> p j = true ->
  ou_target o ∈ allowed_transitions (jr_status j) ->
  (match token with Some token => holds token now (abs_job j) | None => negb (is_Some_b (owner_of j)) end) = true ->
  attempts = default (jr_attempt_count j) (ou_attempt_count o) ->
  let set_ j := with_outcome j (ou_target o) (outcome_result o) (outcome_error o) attempts w in
  let '(st', n) := update_jobs st (fun j => has_id id j && p j) set_ in
  n = 1%nat /\ job_of st' id = Some (set_ j) /\ store_ok st' /\
  spec_perform fingerprint_of (Transition id o token) now dl (abs st) = (abs st', Ok (Updated (entry (set_ j)))).
Proof.
  intros Hst Ej Hp Htarget Hlease -> set_.
  pose proof (update_row st id p set_ Hst ltac:(split; reflexivity)) as Hu.
  destruct (update_jobs _ _ _) as [st' n]. rewrite Ej, Hp in Hu. destruct Hu as (-> & Hj' & Habs & Hok).
  destruct (store_ok_job _ _ _ Hst Ej) as [Hj Hid].
  assert (Hrow : abs_job (set_ j) = sp_with (abs_job j) (ou_target o) (default (jr_attempt_count j) (ou_attempt_count o))
                                      (if finished (ou_target o) then None else sp_owner (abs_job j))).
  { unfold abs_job, owner_of, sp_with, set_. simpl. by destruct (finished (ou_target o)). }
  split; [done|]. split; [done|]. split.
  - apply Hok. unfold job_ok, set_. simpl. destruct (finished (ou_target o)); [done|].
    unfold job_ok in Hj. destruct (jr_execution_token j), (jr_lease_expires_at j); naive_solver.
  - simpl. rewrite abs_lookup, Ej by apply Hst. simpl. rewrite bool_decide_eq_true_2 by done. simpl.
    rewrite Hlease. simpl. rewrite Habs, Hrow. unfold entry. rewrite Hrow. simpl. by rewrite Hid.
Qed.
Lemma spec_transition_refused st id o token now dl j :
  store_ok st -> job_of st id = Some j ->
  spec_perform fingerprint_of (Transition id o token) now dl (abs st) =
  if negb (bool_decide (ou_target o ∈ allowed_transitions (jr_status j)))
  then (abs st, Raise (invalid_transition (jr_status j) (ou_target o)))
  else if negb (match token with Some token => holds token now (abs_job j) | None => negb (is_Some_b (owner_of j)) end)
  then (abs st, Raise ExecutionLeaseLostError)
  else spec_perform fingerprint_of (Transition id o token) now dl (abs st).
Proof.
  intros Hst Ej. simpl. rewrite abs_lookup, Ej by apply Hst. simpl. by repeat destruct (negb _).
Qed.
End Abstraction.

(** ** Both repositories implement the ledger *)
Lemma reuse_reply {T} `{TimestampLaws T} (st : JobStore T) fp task payload raw key most request new_id now dl j :
  store_ok st -> normalize_idempotency_key raw = Ok key ->
  (match key with Some k => find_job (has_key k) st | None => None end) = Some j ->
  spec_perform fp (CreateOrGet task payload raw most request new_id) now dl (abs st) =
  (abs st, _ ← validate_existing_job j task (fp payload); Ok (Created (entry j) true)).
Proof.
  intros Hst Hkey Hj. simpl. rewrite Hkey. destruct key as [k|]; [|done]. rewrite spec_of_key_abs, Hj by done. simpl.
  unfold validate_existing_job, check. by destruct (_ && _).
Qed.
Lemma created_reply {T} `{TimestampLaws T} (st : JobStore T) fp task payload raw key most request new_id now dl logged (w : T) :
  store_ok st -> normalize_idempotency_key raw = Ok key ->
  (match key with Some k => find_job (has_key k) st | None => None end) = None ->
  let row := new_job new_id task payload key (fp payload) most request w in
  let st' := append_job_event (insert_job st row) new_id "task_accepted"
               [("task_name", JStr task); ("request_id", JStr request)] logged in
  if is_Some_b (job_of st new_id)
  then spec_perform fp (CreateOrGet task payload raw most request new_id) now dl (abs st) = (abs st, Raise IntegrityError)
  else store_ok st' /\ spec_perform fp (CreateOrGet task payload raw most request new_id) now dl (abs st) =
                       (abs st', Ok (Created (entry row) false)).
Proof.
  intros Hst Hkey Hnone row st'. pose proof (create_insert fp st task payload raw key most request new_id now logged w dl Hst Hkey Hnone) as Hc.
  destruct (spec_perform _ _ _ _ _) as [s' r]. destruct (is_Some_b _); [by destruct Hc as [-> ->]|].
  destruct Hc as (Hok & <- & ->). split; [|done]. by apply append_event_ok.
Qed.

Definition refines {T} `{Timestamp T} (fp : Payload -> string) (op : JobOp) (now : Z) (dl : result Z)
    (st : JobStore T) (after : JobStore T * result (JobReply (JobRecord T))) : Prop :=
  store_ok after.1 /\ spec_perform fp op now dl (abs st) = (abs after.1, abs_reply <$> after.2).

Section Implementations.
  Variable fingerprint_of : Payload -> string.

(** The expiry a lease taken now has in SQLite. *)
Definition sqlite_deadline (now : Z) (token : string) (lease_seconds : spec_float) : result Z :=
  seconds ← validate_job_lease token lease_seconds;
  let deadline := now + timedelta_us seconds in
  _ ← check (in_range deadline) (Exn "OverflowError" "date value out of range");
  Ok deadline.
Definition op_lease (op : JobOp) : option (string * spec_float) :=
  match op with
  | ClaimJob _ token seconds _ | RenewLease _ token seconds => Some (token, seconds)
  | _ => None
  end.
Definition sqlite_expiry (op : JobOp) (now : Z) : result Z :=
  match op_lease op with Some (token, seconds) => sqlite_deadline now token seconds | None => Raise (KeyError "") end.

Lemma lease_deadline_text now token seconds :
  in_range now = true -> Sqlite.lease_deadline (isoformat now) token seconds = isoformat <$> sqlite_deadline now token seconds.
Proof.
  intros Hn. unfold Sqlite.lease_deadline, sqlite_deadline. rewrite fromisoformat_iso by done. simpl.
  rewrite instant_utc. destruct (validate_job_lease token seconds) as [s|e]; [|done]. simpl.
  unfold check. destruct (in_range (now + timedelta_us s)); reflexivity.
Qed.
Lemma sqlite_deadline_range now token seconds d : sqlite_deadline now token seconds = Ok d -> in_range d = true.
Proof. unfold sqlite_deadline. intros H. inv_ok H. inv_checks. by subst d. Qed.
Lemma check_lease_spec j token now :
  job_ok j -> in_range now = true ->
  Sqlite.check_lease j token (isoformat now) =
  if match token with Some token => holds token now (abs_job j) | None => negb (is_Some_b (owner_of j)) end
  then Ok tt else Raise ExecutionLeaseLostError.
Proof.
  intros Hj Hn. unfold job_ok in Hj. unfold Sqlite.check_lease, holds, abs_job, owner_of. simpl.
  destruct (jr_execution_token j) as [owner|], (jr_lease_expires_at j) as [l|], token as [token|]; try done.
  destruct Hj as [(z & Hz & ->) _]. unfold stamp, text_timestamp. rewrite !fromisoformat_iso by done.
  rewrite !instant_utc. rewrite Z.leb_antisym. destruct (String.eqb_spec owner token) as [->|Hne].
  - rewrite bool_decide_eq_true_2 by done. simpl. unfold raise_when. by destruct (now <? z).
  - by rewrite bool_decide_eq_false_2 by congruence.
Qed.

(** A transaction that answers [Ok] commits. *)
Lemma refines_intro {T} `{Timestamp T} fp op now dl (st st' : JobStore T) r :
  store_ok st' -> spec_perform fp op now dl (abs st) = (abs st', abs_reply <$> r) -> refines fp op now dl st (st', r).
Proof. by split. Qed.
Lemma sqlite_create_refines task payload raw most request new_id now logged dl st :
  store_ok st ->
  refines fingerprint_of (CreateOrGet task payload raw most request new_id) now dl st
    (Sqlite.perform fingerprint_of (CreateOrGet task payload raw most request new_id) now logged st).
Proof.
  intros Hst. unfold Sqlite.perform, mbind, io_bind, transaction_of, Sqlite.create_or_get_job.
  destruct (normalize_idempotency_key raw) as [key|e] eqn:Hk;
    [|apply refines_intro; [done|]; simpl; by rewrite Hk].
  cbn [result_bind mbind]. destruct (match key with Some k => find_job (has_key k) st | None => None end) as [j|] eqn:Ej.
  - pose proof (reuse_reply st fingerprint_of task payload raw key most request new_id now dl j Hst Hk Ej) as Hr.
    destruct (validate_existing_job j task (fingerprint_of payload)) as [u|e]; apply refines_intro; done.
  - pose proof (created_reply st fingerprint_of task payload raw key most request new_id now dl logged (stamp now) Hst Hk Ej) as Hc.
    cbv zeta in Hc. unfold raise_when. destruct (is_Some_b (job_of st new_id)); [by apply refines_intro|].
    destruct Hc as [Hok Hc]. by apply refines_intro.
Qed.
Lemma job_of_append {T} `{Timestamp T} (st : JobStore T) id e p z id' : job_of (append_job_event st id e p z) id' = job_of st id'.
Proof. done. Qed.
Lemma sqlite_claim_refines id token seconds recovery now logged st :
  store_ok st -> in_range now = true ->
  refines fingerprint_of (ClaimJob id token seconds recovery) now (sqlite_deadline now token seconds) st
    (Sqlite.perform fingerprint_of (ClaimJob id token seconds recovery) now logged st).
Proof.
  intros Hst Hnow. unfold Sqlite.perform, mbind, io_bind, transaction_of, Sqlite.claim_job.
  change (stamp now) with (isoformat now). rewrite lease_deadline_text by done.
  destruct (sqlite_deadline now token seconds) as [d|e] eqn:Ed; [|by apply refines_intro].
  pose proof (claim_update fingerprint_of st id token seconds recovery d now (stamp now) Hst
                (sqlite_deadline_range _ _ _ _ Ed) Hnow) as Hc.
  cbn [result_bind mbind fmap result_fmap].
  change (stamp now) with (isoformat now) in Hc. change (stamp d) with (isoformat d) in Hc.
  destruct (update_jobs _ _ _) as [st' n], (spec_perform _ _ _ _ _) as [s' r] eqn:Es.
  destruct Hc as (<- & Hok & [(-> & ->)|(-> & j & Hj & ->)]); [by apply refines_intro|]. cbn [Nat.eqb negb].
  destruct recovery; rewrite ?job_of_append, Hj; apply refines_intro; done || by apply append_event_ok.
Qed.
Lemma sqlite_renew_refines id token seconds now logged st :
  store_ok st -> in_range now = true ->
  refines fingerprint_of (RenewLease id token seconds) now (sqlite_deadline now token seconds) st
    (Sqlite.perform fingerprint_of (RenewLease id token seconds) now logged st).
Proof.
  intros Hst Hnow. unfold Sqlite.perform, mbind, io_bind, transaction_of, Sqlite.renew_job_lease.
  change (stamp now) with (isoformat now). rewrite lease_deadline_text by done.
  destruct (sqlite_deadline now token seconds) as [d|e] eqn:Ed; [|by apply refines_intro].
  pose proof (renew_update fingerprint_of st id token seconds d now (stamp now) Hst
                (sqlite_deadline_range _ _ _ _ Ed) Hnow) as Hc.
  cbn [result_bind mbind fmap result_fmap].
  change (stamp now) with (isoformat now) in Hc. change (stamp d) with (isoformat d) in Hc.
  destruct (update_jobs _ _ _) as [st' n], (spec_perform _ _ _ _ _) as [s' r] eqn:Es.
  destruct Hc as (<- & Hok & [(-> & ->)|(-> & ->)]); by apply refines_intro.
Qed.
(** The expiry is not read by an operation that takes no lease. *)
Lemma spec_release_deadline fp id token now dl dl' s :
  spec_perform fp (ReleaseLease id token) now dl s = spec_perform fp (ReleaseLease id token) now dl' s.
Proof. done. Qed.
Lemma sqlite_release_refines id token now logged dl st :
  store_ok st ->
  refines fingerprint_of (ReleaseLease id token) now dl st
    (Sqlite.perform fingerprint_of (ReleaseLease id token) now logged st).
Proof.
  intros Hst. unfold Sqlite.perform, mbind, io_bind, transaction_of, Sqlite.release_job_lease, check.
  destruct (truthy (strip token)) eqn:Et; [|apply refines_intro; [done|]; simpl; by rewrite Et].
  pose proof (release_update fingerprint_of st id token now (stamp now) Hst Et) as Hc. cbn [result_bind mbind].
  destruct (update_jobs _ _ _) as [st' n], (spec_perform _ _ _ _ _) as [s' r] eqn:Es.
  destruct Hc as (<- & Hok & [(-> & ->)|(-> & ->)]); by apply refines_intro.
Qed.
Lemma sqlite_transition_refines id o token now logged dl st :
  store_ok st -> in_range now = true ->
  refines fingerprint_of (Transition id o token) now dl st
    (Sqlite.perform fingerprint_of (Transition id o token) now logged st).
Proof.
  intros Hst Hnow. unfold Sqlite.perform, mbind, io_bind, transaction_of, Sqlite.transition.
  destruct (job_of st id) as [j|] eqn:Ej; [|apply refines_intro; [done|]; simpl; by rewrite abs_lookup, Ej by apply Hst].
  destruct (store_ok_job _ _ _ Hst Ej) as [Hj Hid].
  pose proof (spec_transition_refused fingerprint_of st id o token now dl j Hst Ej) as Hs.
  change (stamp now) with (isoformat now). rewrite check_lease_spec by done.
  unfold check. case_bool_decide as Ht; [|by apply refines_intro].
  cbn [result_bind mbind negb] in *.
  destruct (match token with Some _ => _ | None => _ end) eqn:El; [|by apply refines_intro].
  pose proof (transition_row fingerprint_of st id o token (fun _ => true) now _ (isoformat now) dl j Hst Ej eq_refl Ht El eq_refl) as Hr.
  cbv zeta in Hr.
  assert (Eu : forall set_, update_jobs st (fun j => has_id id j && true) set_ = update_jobs st (has_id id) set_).
  { intros set_. unfold update_jobs. f_equal; [f_equal; apply map_ext; intros x; by rewrite andb_true_r|].
    f_equal. apply List.filter_ext. intros x. apply andb_true_r. }
  rewrite Eu in Hr. destruct (update_jobs _ _ _) as [st' n]. destruct Hr as (_ & Hj' & Hok & Hr).
  rewrite job_of_append, Hj'. apply refines_intro; [by apply append_event_ok|done].
Qed.

Lemma sqlite_refines op now logged (st : JobStore string) :
  store_ok st -> in_range now = true ->
  refines fingerprint_of op now (sqlite_expiry op now) st (Sqlite.perform fingerprint_of op now logged st).
Proof.
  intros Hst Hnow. destruct op; [by apply sqlite_create_refines|by apply sqlite_claim_refines|
    by apply sqlite_renew_refines|by apply sqlite_release_refines|by apply sqlite_transition_refines].
Qed.

(** *** PostgreSQL *)
Variable interval_us : spec_float -> Z.
Variable json_loads : string -> result Json.
Abbreviation postgres := (Postgres.perform fingerprint_of interval_us json_loads).
Definition postgres_expiry (op : JobOp) (written : Z) : result Z :=
  match op_lease op with
  | Some (token, seconds) => (fun s => written + interval_us s) <$> validate_job_lease token seconds
  | None => Raise (KeyError "")
  end.
(** The rows that can be read as jobs; and the second parse of what an operation
    stores, with its exception. *)
Definition readable (row : JobRecord Z) : Prop := exists j, Postgres.to_job json_loads row = Ok j.
Definition all_readable (pg : JobStore Z) : Prop := Forall readable (js_jobs pg).
Definition read_back (op : JobOp) : result unit :=
  match op with
  | Transition _ o _ =>
      _ ← Postgres.json_load json_loads (outcome_result o);
      _ ← Postgres.json_load json_loads (outcome_error o);
      Ok tt
  | _ => Ok tt
  end.

(** Decoding touches nothing the ledger sees. *)
Lemma to_job_Ok row j : Postgres.to_job json_loads row = Ok j ->
  entry j = entry row /\ jr_status j = jr_status row /\ jr_attempt_count j = jr_attempt_count row /\
  (forall task fp, validate_existing_job j task fp = validate_existing_job row task fp).
Proof. unfold Postgres.to_job. intros H. inv_ok H. by subst j. Qed.
Lemma to_job_with_lease row status token lease now :
  readable row -> readable (with_lease row status token lease now).
Proof. intros [j H]. unfold readable, Postgres.to_job in *. inv_ok H. simpl. rewrite Hok, Hok0. eauto. Qed.
Lemma to_job_with_outcome row o attempts now :
  Postgres.to_job json_loads (with_outcome row (ou_target o) (outcome_result o) (outcome_error o) attempts now) =
  (r ← Postgres.json_load json_loads (outcome_result o);
   e ← Postgres.json_load json_loads (outcome_error o);
   Ok (with_outcome row (ou_target o) r e attempts now)).
Proof. done. Qed.
Lemma read_back_Ok id o token u row attempts now : read_back (Transition id o token) = Ok u ->
  exists j, Postgres.to_job json_loads (with_outcome row (ou_target o) (outcome_result o) (outcome_error o) attempts now) = Ok j.
Proof. intros H. simpl in H. inv_ok H. rewrite to_job_with_outcome, Hok, Hok0. simpl. eauto. Qed.
Lemma read_back_Raise id o token e row attempts now : read_back (Transition id o token) = Raise e ->
  Postgres.to_job json_loads (with_outcome row (ou_target o) (outcome_result o) (outcome_error o) attempts now) = Raise e.
Proof.
  simpl. rewrite to_job_with_outcome. destruct (Postgres.json_load _ (outcome_result o)); simpl; [|by intros [= ->]].
  destruct (Postgres.json_load _ (outcome_error o)); simpl; [done|by intros [= ->]].
Qed.
Lemma readable_job pg id row : all_readable pg -> job_of pg id = Some row -> readable row.
Proof. intros Hr Hj. apply job_of_elem in Hj as [Hin _]. unfold all_readable in Hr. rewrite Forall_forall in Hr. by apply Hr. Qed.
Lemma readable_key pg key row : all_readable pg -> find_job (has_key key) pg = Some row -> readable row.
Proof.
  intros Hr Hj. unfold find_job in Hj. apply List.find_some in Hj as [Hin _]. apply list_elem_of_In in Hin.
  unfold all_readable in Hr. rewrite Forall_forall in Hr. by apply Hr.
Qed.
Lemma update_readable pg w set_ :
  all_readable pg -> (forall row, readable row -> readable (set_ row)) -> all_readable (update_jobs pg w set_).1.
Proof.
  intros Hr Hset. unfold all_readable, update_jobs. simpl. apply Forall_map. eapply Forall_impl; [exact Hr|].
  intros row Hrow. simpl. destruct (w row); auto.
Qed.

(** What the theorem says of one operation. *)
Definition postgres_step (op : JobOp) (clock written : Z) (pg : JobStore Z)
    (after : JobStore Z * result (JobReply (JobRecord Z))) : Prop :=
  all_readable after.1 /\ refines fingerprint_of op clock (postgres_expiry op written) pg after.
Lemma postgres_create_step task payload raw most request new_id clock written logged (pg : JobStore Z) :
  store_ok pg -> all_readable pg ->
  let op := CreateOrGet task payload raw most request new_id in
  postgres_step op clock written pg (postgres op clock written logged pg).
Proof.
  intros Hst Hr. cbv zeta. unfold Postgres.perform, mbind, io_bind, transaction_of, Postgres.create_or_get_job.
  generalize (postgres_expiry (CreateOrGet task payload raw most request new_id) written). intros dl.
  destruct (normalize_idempotency_key raw) as [key|e] eqn:Hk;
    [|split; [done|apply refines_intro; [done|]; simpl; by rewrite Hk]].
  cbn [result_bind mbind]. destruct (match key with Some k => find_job (has_key k) pg | None => None end) as [row|] eqn:Ej.
  - destruct key as [key|]; [|done]. cbn [is_Some_b].
    destruct (readable_key _ _ _ Hr Ej) as [j Hj]. destruct (to_job_Ok _ _ Hj) as (He & _ & _ & Hv).
    pose proof (reuse_reply pg fingerprint_of task payload raw (Some key) most request new_id clock dl row Hst Hk Ej) as Hs.
    rewrite <- Hv in Hs. rewrite Hj. cbn [result_bind mbind].
    destruct (validate_existing_job j task (fingerprint_of payload)) as [u|e]; (split; [done|]); apply refines_intro; try done.
    simpl. by rewrite He.
  - pose proof (created_reply pg fingerprint_of task payload raw key most request new_id clock dl logged (stamp written) Hst Hk Ej) as Hc.
    cbv zeta in Hc. unfold raise_when. cbn [is_Some_b].
    destruct (is_Some_b (job_of pg new_id)); [split; [done|by apply refines_intro]|].
    destruct Hc as [Hok Hc]. cbn [result_bind mbind].
    change (Postgres.to_job json_loads (new_job ?a ?b ?c ?d ?e ?f ?g ?h)) with (Ok (new_job a b c d e f g h : JobRecord Z)).
    cbn [result_bind mbind]. split; [|by apply refines_intro].
    unfold all_readable. simpl. apply Forall_app. split; [done|]. constructor; [|constructor]. eexists. reflexivity.
Qed.
Lemma postgres_claim_step id token seconds recovery clock written logged (pg : JobStore Z) :
  store_ok pg -> all_readable pg ->
  let op := ClaimJob id token seconds recovery in
  postgres_step op clock written pg (postgres op clock written logged pg).
Proof.
  intros Hst Hr. cbv zeta. unfold postgres_step, Postgres.perform, mbind, io_bind, transaction_of, Postgres.claim_job, postgres_expiry, op_lease.
  destruct (validate_job_lease token seconds) as [s|e]; [|split; [done|by apply refines_intro]]. cbn [result_bind mbind fmap result_fmap].
  pose proof (claim_update fingerprint_of pg id token seconds recovery (written + interval_us s) clock written Hst eq_refl eq_refl) as Hc.
  change (stamp clock) with clock in Hc. change (stamp (written + interval_us s)) with (written + interval_us s) in Hc.
  pose proof (update_readable pg (fun j => has_id id j && claimable recovery clock j)
    (claim_row recovery token (written + interval_us s) written) Hr) as Hu.
  specialize (Hu ltac:(intros row; apply to_job_with_lease)).
  destruct (update_jobs _ _ _) as [st' n], (spec_perform _ _ _ _ _) as [s' r] eqn:Es. simpl in Hu.
  destruct Hc as (<- & Hok & [(-> & ->)|(-> & row & Hj & ->)]); [split; [done|by apply refines_intro]|]. cbn [Nat.eqb].
  destruct (readable_job _ _ _ Hu Hj) as [j Hjob]. destruct (to_job_Ok _ _ Hjob) as (He & _ & _ & _).
  rewrite Hj. unfold lift, mret, io_ret. cbn [Postgres.to_job_or_none]. rewrite Hjob. cbn [fmap result_fmap].
  destruct recovery; (split; [done|]); apply refines_intro; try (by apply append_event_ok); try done; simpl; by rewrite He.
Qed.
Lemma postgres_renew_step id token seconds clock written logged (pg : JobStore Z) :
  store_ok pg -> all_readable pg ->
  let op := RenewLease id token seconds in
  postgres_step op clock written pg (postgres op clock written logged pg).
Proof.
  intros Hst Hr. cbv zeta. unfold postgres_step, Postgres.perform, mbind, io_bind, transaction_of, Postgres.renew_job_lease, postgres_expiry, op_lease.
  destruct (validate_job_lease token seconds) as [s|e]; [|split; [done|by apply refines_intro]]. cbn [result_bind mbind fmap result_fmap].
  pose proof (renew_update fingerprint_of pg id token seconds (written + interval_us s) clock written Hst eq_refl eq_refl) as Hc.
  change (stamp clock) with clock in Hc. change (stamp (written + interval_us s)) with (written + interval_us s) in Hc.
  match type of Hc with let '(_, _) := update_jobs ?a ?b ?c in _ => pose proof (update_readable a b c Hr) as Hu end.
  specialize (Hu ltac:(intros row; apply to_job_with_lease)).
  destruct (update_jobs _ _ _) as [st' n], (spec_perform _ _ _ _ _) as [s' r] eqn:Es. simpl in Hu.
  destruct Hc as (<- & Hok & [(-> & ->)|(-> & ->)]); (split; [done|by apply refines_intro]).
Qed.
Lemma postgres_release_step id token clock written logged (pg : JobStore Z) :
  store_ok pg -> all_readable pg ->
  let op := ReleaseLease id token in
  postgres_step op clock written pg (postgres op clock written logged pg).
Proof.
  intros Hst Hr. cbv zeta. unfold Postgres.perform, mbind, io_bind, transaction_of, Postgres.release_job_lease, check.
  destruct (truthy (strip token)) eqn:Et; [|split; [done|apply refines_intro; [done|]; simpl; by rewrite Et]].
  pose proof (release_update fingerprint_of pg id token clock written Hst Et) as Hc. cbn [result_bind mbind].
  match type of Hc with let '(_, _) := update_jobs ?a ?b ?c in _ => pose proof (update_readable a b c Hr) as Hu end.
  specialize (Hu ltac:(intros row; apply to_job_with_lease)).
  destruct (update_jobs _ _ _) as [st' n], (spec_perform _ _ _ _ _) as [s' r] eqn:Es. simpl in Hu.
  destruct Hc as (<- & Hok & [(-> & ->)|(-> & ->)]); (split; [done|by apply refines_intro]).
Qed.
Lemma lease_holds_spec (j : JobRecord Z) token clock :
  job_ok j ->
  Postgres.lease_holds token clock j =
  match token with Some token => holds token clock (abs_job j) | None => negb (is_Some_b (owner_of j)) end.
Proof.
  intros Hj. unfold job_ok in Hj. unfold Postgres.lease_holds, holds, abs_job, owner_of. simpl.
  destruct (jr_execution_token j) as [owner|], (jr_lease_expires_at j) as [l|], token as [token|]; try done.
  by rewrite Z.ltb_antisym.
Qed.
(** What the theorem says of an operation, with the second parse of what it stores:
    the ledger's refusals come first, and a text that does not parse again rolls the
    rest back. *)
Definition postgres_outcome (op : JobOp) (clock written : Z) (pg : JobStore Z)
    (after : JobStore Z * result (JobReply (JobRecord Z))) : Prop :=
  match read_back op with
  | Ok _ => postgres_step op clock written pg after
  | Raise e => after = (pg, match (spec_perform fingerprint_of op clock (postgres_expiry op written) (abs pg)).2 with
                            | Ok _ => Raise e | Raise refusal => Raise refusal end)
  end.
Lemma postgres_refused op clock written pg refusal :
  store_ok pg -> all_readable pg ->
  spec_perform fingerprint_of op clock (postgres_expiry op written) (abs pg) = (abs pg, Raise refusal) ->
  postgres_outcome op clock written pg (pg, Raise refusal).
Proof.
  intros Hst Hr Hs. unfold postgres_outcome. rewrite Hs. destruct (read_back op); [|done].
  split; [done|]. by apply refines_intro.
Qed.
Lemma postgres_transition_step id o token clock written logged (pg : JobStore Z) :
  store_ok pg -> all_readable pg ->
  let op := Transition id o token in
  postgres_outcome op clock written pg (postgres op clock written logged pg).
Proof.
  intros Hst Hr. cbv zeta. set (dl := postgres_expiry (Transition id o token) written).
  unfold Postgres.perform, mbind, io_bind, transaction_of, Postgres.transition.
  destruct (job_of pg id) as [row|] eqn:Ej.
  2: { apply postgres_refused; [done..|]. simpl. by rewrite abs_lookup, Ej by apply Hst. }
  destruct (store_ok_job _ _ _ Hst Ej) as [Hj Hid].
  destruct (readable_job _ _ _ Hr Ej) as [j Hjob]. destruct (to_job_Ok _ _ Hjob) as (_ & Hstatus & Hcount & _).
  rewrite Hjob. cbn [result_bind mbind]. rewrite Hstatus, Hcount.
  pose proof (spec_transition_refused fingerprint_of pg id o token clock dl row Hst Ej) as Hs.
  rewrite <- lease_holds_spec in Hs by done.
  unfold check. case_bool_decide as Ht; [|by apply postgres_refused]. cbn [result_bind mbind negb] in *.
  set (set_ := fun j => with_outcome j _ _ _ _ written).
  destruct (Postgres.lease_holds token clock row) eqn:El; cbn [negb] in Hs.
  2: { pose proof (update_row pg id (Postgres.lease_holds token clock) set_ Hst ltac:(split; reflexivity)) as Hu.
       destruct (update_jobs _ _ _) as [st' n]. rewrite Ej, El in Hu. destruct Hu as [-> ->].
       unfold raise_when. cbn [Nat.eqb result_bind mbind]. by apply postgres_refused. }
  clear Hs. pose proof El as El'. rewrite lease_holds_spec in El' by done.
  pose proof (transition_row fingerprint_of pg id o token (Postgres.lease_holds token clock) clock _ written dl row
                Hst Ej El Ht El' eq_refl) as Hs.
  cbv zeta in Hs. fold set_ in Hs.
  pose proof (update_readable pg (fun j => has_id id j && Postgres.lease_holds token clock j) set_ Hr) as Hu.
  destruct (update_jobs _ _ _) as [st' n]. destruct Hs as (-> & Hj' & Hok & Hs). simpl in Hu.
  unfold raise_when. cbn [Nat.eqb result_bind mbind]. rewrite Hj'. cbn [default from_option Datatypes.id].
  unfold postgres_outcome. fold dl. rewrite Hs. cbn [snd].
  destruct (read_back (Transition id o token)) as [u|e] eqn:Hback.
  - destruct (read_back_Ok _ _ _ _ row (default (jr_attempt_count row) (ou_attempt_count o)) written Hback) as [job Hb].
    fold (set_ row) in Hb. rewrite Hb. cbn [result_bind mbind]. destruct (to_job_Ok _ _ Hb) as (He & _).
    split; [apply Hu; intros r _; by eapply read_back_Ok|]. apply refines_intro; [by apply append_event_ok|].
    fold dl. rewrite Hs. simpl. by rewrite He.
  - pose proof (read_back_Raise _ _ _ _ row (default (jr_attempt_count row) (ou_attempt_count o)) written Hback) as Hb.
    fold (set_ row) in Hb. by rewrite Hb.
Qed.
Lemma postgres_steps op clock written logged (pg : JobStore Z) :
  store_ok pg -> all_readable pg -> postgres_outcome op clock written pg (postgres op clock written logged pg).
Proof.
  intros Hst Hr. destruct op; [by apply postgres_create_step|by apply postgres_claim_step|
    by apply postgres_renew_step|by apply postgres_release_step|by apply postgres_transition_step].
Qed.

End Implementations.

(** ** Examples *)
Definition empty_jobs {T} : JobStore T := {| js_jobs := []; js_events := [] |}.
Lemma empty_jobs_ok {T} `{Timestamp T} : store_ok (T := T) empty_jobs.
Proof. constructor; simpl; constructor. Qed.
Module JobExample.
Definition digest_of (p : Payload) : string := match p with [] => "empty" | _ => "other" end.
Definition NOW : Z := 1783688310000000.
Definition half_minute : spec_float := float_quotient 30 1.
Definition create : JobOp := CreateOrGet "analyse" [] (Some " key ") 3 "request" "job-1".
Definition created : JobStore string := (Sqlite.perform digest_of create NOW NOW empty_jobs).1.
Definition claim : JobOp := ClaimJob "job-1" "worker-1" half_minute false.
Definition claimed : JobStore string := (Sqlite.perform digest_of claim NOW NOW created).1.
(** The lease is held until its last microsecond, whatever its text looks like. *)
Example lease_texts :
  (jr_lease_expires_at <$> job_of claimed "job-1",
   map (fun now => (Sqlite.perform digest_of (ClaimJob "job-1" "worker-2" half_minute true) now now claimed).2)
       [NOW + 29999999] )
  = (Some (Some "2026-07-10T12:59:00+00:00"), [Ok (Claimed None)]).
Proof. vm_compute. reflexivity. Qed.
Example expired_lease :
  match (Sqlite.perform digest_of (ClaimJob "job-1" "worker-2" half_minute true) (NOW + 30000000) NOW claimed).2 with
  | Ok (Claimed (Some j)) => jr_execution_token j | _ => None end = Some "worker-2".
Proof. vm_compute. reflexivity. Qed.
(** A job that runs under a lease in each store, and a result that is a text. *)
Definition loads (text : string) : result Json :=
  if String.eqb text "5" then Ok (JInt 5) else Raise (Exn "JSONDecodeError" "Expecting value: line 1 column 1 (char 0)").
Definition interval (seconds : spec_float) : Z := 30000000.
Definition start : JobOp := Transition "job-1" (mark_running 1) (Some "worker-1").
Definition finish (answer : string) : JobOp := Transition "job-1" (mark_succeeded (JStr answer)) (Some "worker-1").
Definition in_postgres (op : JobOp) (pg : JobStore Z) : JobStore Z * result (JobReply (JobRecord Z)) :=
  Postgres.perform digest_of interval loads op NOW NOW NOW pg.
Definition in_sqlite (op : JobOp) (st : JobStore string) := Sqlite.perform digest_of op NOW NOW st.
Definition pg_running : JobStore Z := (in_postgres start (in_postgres claim (in_postgres create empty_jobs).1).1).1.
Definition running : JobStore string := (in_sqlite start claimed).1.
Definition recorded {T} (r : result (JobReply (JobRecord T))) : result (option (JobStatus * Json)) :=
  (fun a => match a with Updated j => Some (jr_status j, jr_result j) | _ => None end) <$> r.
Example text_results :
  (map (fun answer => recorded (in_sqlite (finish answer) running).2) ["done"; "5"],
   map (fun answer => recorded (in_postgres (finish answer) pg_running).2) ["done"; "5"]) =
  ([Ok (Some (SUCCEEDED, JStr "done")); Ok (Some (SUCCEEDED, JStr "5"))],
   [Raise (Exn "JSONDecodeError" "Expecting value: line 1 column 1 (char 0)"); Ok (Some (SUCCEEDED, JInt 5))]).
Proof. vm_compute. reflexivity. Qed.
Lemma in_sqlite_ok op st : store_ok st -> store_ok (in_sqlite op st).1.
Proof. intros H. exact (proj1 (sqlite_refines digest_of op NOW NOW st H eq_refl)). Qed.
Lemma in_postgres_ok op pg : store_ok pg /\ all_readable loads pg -> read_back loads op = Ok tt ->
  store_ok (in_postgres op pg).1 /\ all_readable loads (in_postgres op pg).1.
Proof.
  intros [H1 H2] Hb. pose proof (postgres_steps digest_of interval loads op NOW NOW NOW pg H1 H2) as H.
  unfold postgres_outcome in H. rewrite Hb in H. by destruct H as [? [? _]].
Qed.
Lemma running_ok : store_ok running /\ store_ok pg_running /\ all_readable loads pg_running.
Proof.
  split; [by repeat apply in_sqlite_ok; apply empty_jobs_ok|].
  repeat (apply in_postgres_ok; [|reflexivity]). split; [apply empty_jobs_ok|constructor].
Qed.
End JobExample.
