(* ===== verification/JobLedger.v ===== *)
(** * The job ledger and its interface

    [JobRepository] is what the task queue asks of a repository: operations whose
    every answer is a step of the ledger of JobStore, or a transition that raised and
    changed nothing.  Both repositories of
    market_agent/backend/database.py are instances.  The rest of the file is about
    the ledger alone: what a step may change, and who may take it. *)
From S2P Require Import Prelude PyStrings PyTime PyIso PyFloat PyJson JobStore.
Local Open Scope string_scope.
Local Open Scope list_scope.
Local Open Scope Z_scope.

Class JobRepository := {
  repo_state : Type;
  repo_tick : Type;                           (** the clock readings of one operation *)
  repo_now : repo_tick -> Z;                  (** the one its conditions compare *)
  repo_valid : repo_tick -> bool;
  repo_fingerprint : Payload -> string;
  repo_inv : repo_state -> Prop;
  repo_ledger : repo_state -> Spec;
  repo_perform : JobOp -> repo_tick -> io repo_state (JobReply (string * SpecJob)) }.
(** The answers of an operation that changed nothing. *)
Definition refusal (op : JobOp) (r : result (JobReply (string * SpecJob))) : Prop :=
  match op with
  | ClaimJob _ _ _ _ => forall claimed, r <> Ok (Claimed (Some claimed))
  | Transition _ _ _ => is_ok r = false
  | _ => True
  end.
Class JobRepositoryLaws (R : JobRepository) := {
  repo_step op t (s : repo_state) :
    repo_inv s -> repo_valid t = true ->
    let after := repo_perform op t s in
    repo_inv after.1 /\
    ((exists dl, spec_perform repo_fingerprint op (repo_now t) dl (repo_ledger s) = (repo_ledger after.1, after.2)) \/
     (repo_ledger after.1 = repo_ledger s /\ refusal op after.2)) }.

Definition abstract_reply {T} `{Timestamp T} (m : io (JobStore T) (JobReply (JobRecord T)))
    : io (JobStore T) (JobReply (string * SpecJob)) := fun st =>
  let '(st', r) := m st in (st', abs_reply <$> r).
Section Instances.
  Variable fingerprint_of : Payload -> string.
  Variable interval_us : spec_float -> Z.
  Variable json_loads : string -> result Json.
#[local] Instance sqlite_repository : JobRepository := {|
  repo_state := JobStore string; repo_tick := Z * Z; repo_now := fst; repo_valid t := in_range t.1;
  repo_fingerprint := fingerprint_of; repo_inv := store_ok; repo_ledger := abs;
  repo_perform op t := abstract_reply (Sqlite.perform fingerprint_of op t.1 t.2) |}.
#[local] Instance postgres_repository : JobRepository := {|
  repo_state := JobStore Z; repo_tick := Z * Z * Z; repo_now t := t.1.1; repo_valid _ := true;
  repo_fingerprint := fingerprint_of; repo_inv s := store_ok s /\ all_readable json_loads s; repo_ledger := abs;
  repo_perform op t := abstract_reply (Postgres.perform fingerprint_of interval_us json_loads op t.1.1 t.1.2 t.2) |}.
Lemma abstract_reply_eq {T} `{Timestamp T} (m : io (JobStore T) (JobReply (JobRecord T))) st :
  abstract_reply m st = ((m st).1, abs_reply <$> (m st).2).
Proof. unfold abstract_reply. by destruct (m st). Qed.
#[local] Instance sqlite_laws : JobRepositoryLaws sqlite_repository.
Proof.
  split. intros op t s Hs Ht. simpl in *. rewrite abstract_reply_eq.
  destruct (sqlite_refines fingerprint_of op t.1 t.2 s Hs Ht) as [Hok H]. by eauto.
Qed.
#[local] Instance postgres_laws : JobRepositoryLaws postgres_repository.
Proof.
  split. intros op t s Hs _. simpl in *. rewrite abstract_reply_eq.
  pose proof (postgres_steps fingerprint_of interval_us json_loads op t.1.1 t.1.2 t.2 s (proj1 Hs) (proj2 Hs)) as H.
  unfold postgres_outcome in H. destruct (read_back json_loads op) as [u|e] eqn:Hb; [destruct H as [? [? ?]]; by eauto|].
  rewrite H. cbn [fst snd]. split; [done|]. right. split; [done|]. destruct op; try discriminate Hb.
  unfold refusal. by destruct (spec_perform _ _ _ _ _) as [? [?|?]].
Qed.
End Instances.

(** ** Steps of the ledger *)
Section Ledger.
  Variable fingerprint_of : Payload -> string.
  Implicit Types (s : Spec) (j : SpecJob).

(** What an operation did, and its answer. *)
Inductive ledger_step (now : Z) s : JobOp -> Spec -> result (JobReply (string * SpecJob)) -> Prop :=
  | ls_refused op r : refusal op r -> ledger_step now s op s r
  | ls_create task payload key most request id j :
      s !! id = None -> sp_attempts j = 0 -> sp_max_attempts j = most -> sp_owner j = None ->
      ledger_step now s (CreateOrGet task payload key most request id) (<[id := j]> s) (Ok (Created (id, j) false))
  | ls_claim id token seconds recovery expires j :
      s !! id = Some j -> unowned now j = true -> open_status (sp_status j) = true ->
      let j' := sp_with j ACCEPTED (sp_attempts j) (Some (token, expires)) in
      ledger_step now s (ClaimJob id token seconds recovery) (<[id := j']> s) (Ok (Claimed (Some (id, j'))))
  | ls_renew id token seconds expires j :
      s !! id = Some j -> holds token now j = true ->
      ledger_step now s (RenewLease id token seconds)
        (<[id := sp_with j (sp_status j) (sp_attempts j) (Some (token, expires))]> s) (Ok (Flag true))
  | ls_release id token expires j :
      s !! id = Some j -> sp_owner j = Some (token, expires) ->
      ledger_step now s (ReleaseLease id token) (<[id := sp_with j (sp_status j) (sp_attempts j) None]> s) (Ok (Flag true))
  | ls_transition id o token j :
      s !! id = Some j -> ou_target o ∈ allowed_transitions (sp_status j) ->
      (match token with Some token => holds token now j = true | None => sp_owner j = None end) ->
      let j' := sp_with j (ou_target o) (default (sp_attempts j) (ou_attempt_count o))
                  (if finished (ou_target o) then None else sp_owner j) in
      ledger_step now s (Transition id o token) (<[id := j']> s) (Ok (Updated (id, j'))).

Lemma spec_perform_step op now dl s s' r :
  spec_perform fingerprint_of op now dl s = (s', r) -> ledger_step now s op s' r.
Proof.
  destruct op as [task payload key most request id|id token seconds recovery|id token seconds|id token|id o token]; simpl.
  - destruct (normalize_idempotency_key key) as [k|e]; [|intros [= <- <-]; by constructor].
    destruct (match k with Some k => spec_of_key k s | None => None end) as [[id' j]|].
    { destruct (_ && _); intros [= <- <-]; by constructor. }
    destruct (s !! id) as [j|] eqn:E; intros [= <- <-]; by constructor.
  - destruct dl as [d|e]; [|intros [= <- <-]; by constructor].
    destruct (s !! id) as [j|] eqn:E; [|intros [= <- <-]; by constructor].
    destruct (bool_decide (sp_status j ∈ _) && unowned now j) eqn:Ec; intros [= <- <-]; [|by constructor].
    to_prop. apply ls_claim; [done..|]. destruct recovery, (sp_status j); set_solver.
  - destruct dl as [d|e]; [|intros [= <- <-]; by constructor].
    destruct (s !! id) as [j|] eqn:E; [|intros [= <- <-]; by constructor].
    destruct (holds token now j && _) eqn:Ec; intros [= <- <-]; [|by constructor].
    apply andb_true_iff in Ec as [? _]. by apply ls_renew.
  - destruct (negb _); [intros [= <- <-]; by constructor|].
    destruct (s !! id) as [j|] eqn:E; [|intros [= <- <-]; by constructor].
    destruct (sp_owner j) as [[owner expires]|] eqn:Eo; [|intros [= <- <-]; by constructor].
    destruct (String.eqb_spec owner token) as [->|]; simpl; [|intros [= <- <-]; by constructor].
    destruct (open_status (sp_status j)); intros [= <- <-]; [by eapply ls_release|by constructor].
  - destruct (s !! id) as [j|] eqn:E; [|intros [= <- <-]; by constructor].
    case_bool_decide as Ht; simpl; [|intros [= <- <-]; by constructor].
    destruct (match token with Some token => holds token now j | None => negb (is_Some_b (sp_owner j)) end) eqn:El;
      simpl; intros [= <- <-]; [|by constructor].
    apply ls_transition; [done..|]. destruct token; [done|]. by destruct (sp_owner j).
Qed.

(** A finished job is never touched again, and a job keeps what it was created with. *)
Lemma ledger_step_preserves now s op s' r id j :
  ledger_step now s op s' r -> s !! id = Some j ->
  exists j', s' !! id = Some j' /\ sp_task j' = sp_task j /\ sp_fingerprint j' = sp_fingerprint j /\ sp_key j' = sp_key j /\
             sp_max_attempts j' = sp_max_attempts j /\ (finished (sp_status j) = true -> sp_owner j = None -> j' = j).
Proof.
  intros Hs Hj. destruct Hs as [| |id' ? ? ? ? j0 Hj0|id' ? ? ? j0 Hj0|id' ? ? j0 Hj0|id' ? ? j0 Hj0]; try by exists j.
  all: rewrite lookup_insert; case_decide as Hid; subst; try (by exists j); try congruence.
  all: rewrite Hj in Hj0; injection Hj0 as <-; eexists; split; [done|]; do 4 (split; [done|]); intros Hf Ho; exfalso.
  - by destruct (sp_status j).
  - unfold holds in *. by rewrite Ho in *.
  - congruence.
  - destruct (sp_status j); [done|done|by apply not_elem_of_nil in H..].
Qed.
End Ledger.
