(* ===== verification/TaskQueue.v ===== *)
(** * The background task queue: market_agent/backend/task_queue.py

    The queue's methods as programs that ask their environment: the repository,
    the fence of the execution, the semaphore of the capacity, the handler.  A
    program is a tree of questions and continuations, so a theorem about all its
    paths covers every answer, fault and exception the environment can produce,
    and programs of several workers interleave at their questions.

    Metrics, traces, logs and published messages are left out: none of them
    raises into the queue or changes its state. *)
From S2P Require Import Prelude PyStrings PyTime PyIso PyFloat PyJson JobStore JobLedger.
Local Open Scope string_scope.
Local Open Scope list_scope.
Local Open Scope Z_scope.

(** ** Programs *)
(** What a handler does: return, or raise an exception with its [retryable]
    attribute and, for a [BackendError], the code and the details. *)
Inductive HandlerResult :=
  | Returned (value : Json)
  | Failed (e : exn) (retryable : bool) (extra : Payload).

(** The index is the type of the answer. *)
Inductive Query : Type -> Type :=
  | QRepo (op : JobOp) : Query (JobReply (string * SpecJob))
  | QGetJob (job_id : string) : Query (option (string * SpecJob))
  | QFindIdempotent (task_name : string) (payload : Payload) (key : string) : Query (option (string * SpecJob))
  | QFenceLost (job_id token : string) : Query bool            (** the fence of [_execution_fence(job)] is lost *)
  | QLatch (job_id token : string) : Query unit                (** [_latch_execution_lost] *)
  | QHandler (job_id : string) (attempt : Z) : Query HandlerResult
  | QRetryDelay (attempt : Z) : Query bool                     (** [delay > 0 and _shutdown_event.wait(delay)] *)
  | QShutdown : Query bool                                     (** [_shutdown_event.is_set()] *)
  | QActive (job_id : string) : Query bool                     (** [job_id in _active_job_ids] *)
  | QToken : Query string                                      (** [uuid.uuid4().hex] *)
  | QActivate (job_id token : string) : Query unit             (** add to the active jobs *)
  | QDeactivate (job_id : string) : Query unit
  | QAcquire : Query bool                                      (** [_capacity.acquire(blocking=False)] *)
  | QRelease : Query unit                                      (** [_capacity.release()] *)
  | QExecute (job_id token : string) (j : SpecJob) : Query unit (** [_executor.submit(_run_task_guarded, ...)] *)
  | QPublishDispatch (job_id : string) : Query unit.

Inductive prog (A : Type) : Type :=
  | Done (r : result A)
  | Ask {X : Type} (q : Query X) (k : result X -> prog A).
Arguments Done {A} r.
Arguments Ask {A X} q k.

#[export] Instance prog_ret : MRet prog := fun A a => Done (Ok a).
Fixpoint prog_bind_ {A B} (f : A -> prog B) (p : prog A) : prog B :=
  match p with
  | Done (Ok a) => f a
  | Done (Raise e) => Done (Raise e)
  | Ask q k => Ask q (fun r => prog_bind_ f (k r))
  end.
#[export] Instance prog_bind : MBind prog := @prog_bind_.
Definition throw {A} (e : exn) : prog A := Done (Raise e).
(** A question whose exception is raised. *)
Definition ask {X} (q : Query X) : prog X := Ask q Done.
(** [try: p except Exception as e: handler e] *)
Fixpoint catch {A} (p : prog A) (handler : exn -> prog A) : prog A :=
  match p with
  | Done (Raise e) => handler e
  | Done r => Done r
  | Ask q k => Ask q (fun r => catch (k r) handler)
  end.
(** [try: p finally: last] *)
Fixpoint finally {A} (p : prog A) (last : prog unit) : prog A :=
  match p with
  | Done r => _ ← last; Done r
  | Ask q k => Ask q (fun r => finally (k r) last)
  end.

Definition LostError (msg : string) : exn := Exn "ExecutionLeaseLostError" msg.
Definition is_lost_error (e : exn) : bool := String.eqb (exn_class e) "ExecutionLeaseLostError".
(** errors.py: the subclasses of [BackendError]. *)
Definition BACKEND_ERRORS : list string :=
  ["BackendError"; "ConfigurationError"; "ValidationError"; "NotFoundError"; "ConflictError"; "AuthenticationError";
   "AuthorizationError"; "DependencyUnavailableError"; "RetryableTaskError"; "TaskQueueFullError"; "UnknownTaskError";
   "JobNotFoundError"; "IdempotencyConflictError"].
Definition is_backend_error (e : exn) : bool := bool_decide (exn_class e ∈ BACKEND_ERRORS).
Definition DependencyUnavailableError (msg : string) : exn := Exn "DependencyUnavailableError" msg.
(** [_error_payload] *)
Definition error_payload (e : exn) (retryable : bool) (extra : Payload) : Json :=
  JObject ([("type", JStr (exn_class e)); ("message", JStr (exn_msg e)); ("retryable", JBool retryable)] ++ extra).

(** ** Executing a job: what [_submit_reserved] scheduled, until [_task_done] *)
Section Execution.
  Variable lease_seconds : spec_float.
  Variables (id token : string).

(** [_check_execution_fence] *)
Definition check_execution_fence : prog unit :=
  lost ← ask (QFenceLost id token);
  if lost : bool then throw (LostError "task execution lease was lost") else mret tt.
(** [_ensure_execution_lease] *)
Definition ensure_execution_lease : prog unit :=
  _ ← check_execution_fence;
  Ask (QRepo (RenewLease id token lease_seconds)) (fun renewed =>
    match renewed with
    | Raise _ => _ ← ask (QLatch id token); throw (LostError "task execution lease renewal is uncertain")
    | Ok (Flag true) => check_execution_fence
    | Ok _ => _ ← ask (QLatch id token); throw (LostError "task execution lease was lost")
    end).
Definition mark (o : Outcome) : prog unit := _ ← ask (QRepo (Transition id o (Some token))); mret tt.
Definition retry_payload (attempt : Z) (error : Json) : Payload :=
  [("attempt", JInt attempt); ("next_attempt", JInt (attempt + 1)); ("error", error)].
Definition task_shutdown : Json :=
  JObject [("type", JStr "TaskShutdown"); ("message", JStr "task queue shut down before retry"); ("retryable", JBool false)].
(** [_run_task]: the attempts from [attempt] on, [remaining] of them. *)
Fixpoint run_attempts (max_attempts attempt : Z) (remaining : nat) : prog unit :=
  match remaining with
  | O => mret tt
  | S remaining =>
      _ ← ensure_execution_lease;
      _ ← mark (mark_running attempt);
      _ ← check_execution_fence;
      outcome ← ask (QHandler id attempt);
      _ ← check_execution_fence;
      match outcome with
      | Failed e retryable extra =>
          if is_lost_error e then throw e
          else
            let error := error_payload e retryable extra in
            _ ← check_execution_fence;
            if retryable && (attempt <? max_attempts) then
              _ ← mark (mark_retry_scheduled (retry_payload attempt error));
              stopped ← ask (QRetryDelay attempt);
              _ ← check_execution_fence;
              if stopped : bool then mark (mark_failed task_shutdown)
              else run_attempts max_attempts (attempt + 1) remaining
            else mark (mark_failed error)
      | Returned value =>
          _ ← check_execution_fence;
          mark (mark_succeeded value)
      end
  end.
Definition run_task (j : SpecJob) : prog unit :=
  let first := Z.max 1 (sp_attempts j + 1) in
  run_attempts (sp_max_attempts j) first (Z.to_nat (sp_max_attempts j + 1 - first)).
(** [_record_terminal_failure] *)
Definition record_terminal_failure (e : exn) (error_type : string) : prog unit :=
  let error := JObject [("type", JStr error_type); ("message", JStr (exn_msg e)); ("retryable", JBool false)] in
  catch
    (_ ← check_execution_fence;
     current ← ask (QGetJob id);
     match current with
     | Some (_, j) => if open_status (sp_status j)
                      then _ ← check_execution_fence; mark (mark_failed error)
                      else mret tt
     | None => mret tt
     end)
    (fun _ => mret tt).
(** [_run_task_guarded] *)
Definition run_task_guarded (j : SpecJob) : prog unit :=
  catch (run_task j) (fun e =>
    if is_lost_error e then ask (QLatch id token) else record_terminal_failure e "TaskInfrastructureError").
(** [_task_done] *)
Definition task_done : prog unit :=
  _ ← ask (QDeactivate id);
  _ ← catch (_ ← ask (QRepo (ReleaseLease id token)); mret tt) (fun _ => mret tt);
  ask QRelease.
(** What the executor runs: the future keeps an exception, and its callback follows. *)
Definition execute_job (j : SpecJob) : prog unit :=
  _ ← catch (run_task_guarded j) (fun _ => mret tt);
  task_done.
End Execution.

(** ** Admission *)
Section Admission.
  Variable lease_seconds : spec_float.
  Variable durable_dispatch : bool.

Definition recovery_exhausted : Json :=
  JObject [("type", JStr "RecoveryExhausted"); ("message", JStr "task exhausted attempts before recovery")].
(** [_submit_reserved]: whether the job was scheduled. *)
Definition submit_reserved (id : string) (recovery : bool) : prog bool :=
  active ← ask (QActive id);
  if active : bool then mret false
  else
    token ← ask QToken;
    claimed ← ask (QRepo (ClaimJob id token lease_seconds recovery));
    match claimed with
    | Claimed (Some (_, j)) =>
        if sp_max_attempts j <=? sp_attempts j then
          _ ← finally (mark id token (mark_failed recovery_exhausted))
                (_ ← ask (QRepo (ReleaseLease id token)); mret tt);
          mret false
        else
          _ ← ask (QActivate id token);
          _ ← catch (ask (QExecute id token j)) (fun e =>
                _ ← finally (_ ← ask (QRepo (ReleaseLease id token)); mret tt) (ask (QDeactivate id));
                throw e);
          mret true
    | _ => mret false
    end.

Definition reused_job (task_name : string) (payload : Payload) (key : option string) : prog (option (string * SpecJob)) :=
  match key with
  | None => mret None
  | Some key =>
      catch (ask (QFindIdempotent task_name payload key)) (fun e =>
        if is_backend_error e then throw e else throw (DependencyUnavailableError "idempotency lookup failed"))
  end.
(** The [try] of [submit]: the job, whether it was reused, and whether the permit stays to be released. *)
Definition submit_body (task_name : string) (payload : Payload) (key : option string) (attempts : Z)
    (request_id new_id : string) : prog (string * SpecJob * bool * bool) :=
  created ← ask (QRepo (CreateOrGet task_name payload key attempts request_id new_id));
  match created with
  | Created job reused =>
      if reused : bool then mret (job, true, negb durable_dispatch)
      else if durable_dispatch then
        _ ← ask (QPublishDispatch job.1);
        mret (job, false, false)
      else
        scheduled ← submit_reserved job.1 false;
        mret (job, false, negb scheduled)
  | _ => throw (TypeError "cannot unpack")
  end.
(** [submit] *)
Definition submit (registered : bool) (task_name : string) (payload : Payload) (key : option string)
    (attempts : Z) (request_id new_id : string) : prog (string * SpecJob * bool) :=
  if negb registered then throw (Exn "UnknownTaskError" ("unknown task: " +:+ task_name))
  else
    stopped ← ask QShutdown;
    if stopped : bool then throw (DependencyUnavailableError "task queue has been shut down")
    else if attempts <? 1 then throw (ValueError "max_attempts must be at least 1")
    else
      acquired ← (if durable_dispatch then mret true else ask QAcquire);
      if negb acquired then
        existing ← reused_job task_name payload key;
        match existing with
        | Some job => mret (job, true)
        | None => throw (Exn "TaskQueueFullError" "task queue is at capacity")
        end
      else
        let release := if durable_dispatch then mret tt else ask QRelease in
        '(job, reused, keep) ← catch (submit_body task_name payload key attempts request_id new_id) (fun e =>
            _ ← release;
            throw (if is_backend_error e then e else DependencyUnavailableError "task could not be scheduled"));
        _ ← (if keep : bool then release else mret tt);
        mret (job, reused).
(** The handling of one recoverable job in [_recover_registered_tasks]: whether the page goes on. *)
Definition recover_job (id : string) : prog bool :=
  stopped ← ask QShutdown;
  if stopped : bool then mret false
  else
    active ← ask (QActive id);
    if active : bool then mret true
    else
      acquired ← ask QAcquire;
      if negb acquired then mret false
      else
        scheduled ← catch (submit_reserved id true) (fun e => _ ← ask QRelease; throw e);
        _ ← (if scheduled : bool then mret tt else ask QRelease);
        mret true.
Fixpoint recover_page (jobs : list string) : prog unit :=
  match jobs with
  | [] => mret tt
  | id :: jobs => more ← recover_job id; if more : bool then recover_page jobs else mret tt
  end.
(** [_handle_dispatch_message] of a well-formed message. *)
Definition handle_dispatch (registered : bool) (task_name id : string) : prog unit :=
  if negb registered then throw (Exn "UnknownTaskError" ("unknown task: " +:+ task_name))
  else
    stopped ← ask QShutdown;
    if stopped : bool then throw (DependencyUnavailableError "task worker is shutting down")
    else
      job ← ask (QGetJob id);
      match job with
      | None => mret tt
      | Some (_, j) =>
          if finished (sp_status j) then mret tt
          else if negb (String.eqb (sp_task j) task_name)
          then throw (ValueError "task dispatch does not match persisted task")
          else
            active ← ask (QActive id);
            if active : bool then mret tt
            else
              acquired ← ask QAcquire;
              if negb acquired then throw (Exn "TaskQueueFullError" "task worker capacity is temporarily exhausted")
              else
                scheduled ← catch (submit_reserved id true) (fun _ =>
                    _ ← ask QRelease;
                    throw (DependencyUnavailableError "task worker could not schedule delivery"));
                if scheduled : bool then mret tt else ask QRelease
      end.
End Admission.

(** ** Reasoning about programs

    [wp p g Q]: whatever the environment answers, a program started in ghost state
    [g] asks only what [allowed] admits and ends with an outcome and a state in [Q];
    [moves] is how an answered question changes the ghost state. *)
Section WeakestPrecondition.
  Context {G : Type}.
  Variable allowed : forall X, Query X -> G -> Prop.
  Variable moves : forall X, Query X -> result X -> G -> G -> Prop.

Fixpoint wp {A} (p : prog A) (g : G) (Q : result A -> G -> Prop) : Prop :=
  match p with
  | Done r => Q r g
  | Ask q k => allowed _ q g /\ forall a g', moves _ q a g g' -> wp (k a) g' Q
  end.
Lemma wp_mono {A} (p : prog A) g (Q R : result A -> G -> Prop) :
  (forall r g, Q r g -> R r g) -> wp p g Q -> wp p g R.
Proof.
  intros H. revert g. induction p as [r|X q k IH]; intros g; simpl; [apply H|].
  intros [Ha Hk]. split; [done|]. intros a g' Hm. apply IH, Hk, Hm.
Qed.
Lemma wp_bind {A B} (p : prog A) (f : A -> prog B) g Q :
  wp p g (fun r g' => match r with Ok a => wp (f a) g' Q | Raise e => Q (Raise e) g' end) -> wp (p ≫= f) g Q.
Proof.
  unfold mbind, prog_bind. revert g. induction p as [[a|e]|X q k IH]; intros g; simpl; [done|done|].
  intros [Ha Hk]. split; [done|]. intros a g' Hm. apply IH, Hk, Hm.
Qed.
Lemma wp_catch {A} (p : prog A) handler g Q :
  wp p g (fun r g' => match r with Ok a => Q (Ok a) g' | Raise e => wp (handler e) g' Q end) -> wp (catch p handler) g Q.
Proof.
  revert g. induction p as [[a|e]|X q k IH]; intros g; simpl; [done|done|].
  intros [Ha Hk]. split; [done|]. intros a g' Hm. apply IH, Hk, Hm.
Qed.
Lemma wp_finally {A} (p : prog A) last g Q :
  wp p g (fun r g' => wp last g' (fun l g'' => match l with Ok _ => Q r g'' | Raise e => Q (Raise e) g'' end)) ->
  wp (finally p last) g Q.
Proof.
  revert g. induction p as [r|X q k IH]; intros g; cbn [finally wp].
  - intros H. apply wp_bind. eapply wp_mono; [|exact H]. intros [[]|e] g'; done.
  - intros [Ha Hk]. split; [done|]. intros a g' Hm. apply IH, Hk, Hm.
Qed.
Lemma wp_ask {X} (q : Query X) g Q :
  allowed _ q g -> (forall a g', moves _ q a g g' -> Q a g') -> wp (ask q) g Q.
Proof. intros Ha Hk. split; [done|]. intros a g' Hm. by apply Hk. Qed.
Lemma wp_ret {A} (a : A) g (Q : result A -> G -> Prop) : Q (Ok a) g -> wp (mret a) g Q.
Proof. done. Qed.
Lemma wp_throw {A} e g (Q : result A -> G -> Prop) : Q (Raise e) g -> wp (throw e) g Q.
Proof. done. Qed.
End WeakestPrecondition.

(** ** Permits of the capacity *)
(** A question about the queue's own objects is answered without an exception. *)
Definition local_query {X} (q : Query X) : bool :=
  match q with
  | QFenceLost _ _ | QLatch _ _ | QShutdown | QActive _ | QToken | QActivate _ _ | QDeactivate _ | QAcquire | QRelease => true
  | _ => false
  end.
Definition possible {X} (q : Query X) (a : result X) : Prop := local_query q = true -> is_ok a = true.
(** A path through a program, with the permits it takes, gives back and hands over. *)
Inductive PermitEvent := Took | Gave | HandedOver.
Definition permit_event {X} (q : Query X) : result X -> list PermitEvent :=
  match q in Query X return result X -> list PermitEvent with
  | QAcquire => fun a => match a with Ok true => [Took] | _ => [] end
  | QRelease => fun _ => [Gave]
  | QExecute _ _ _ => fun a => match a with Ok _ => [HandedOver] | Raise _ => [] end
  | _ => fun _ => []
  end.
Inductive runs {A} : prog A -> list PermitEvent -> result A -> Prop :=
  | runs_done r : runs (Done r) [] r
  | runs_ask X (q : Query X) k a t r : possible q a -> runs (k a) t r -> runs (Ask q k) (permit_event q a ++ t) r.
(** The permits held after a path, from [held]; [None] when one is given that is not held. *)
Fixpoint permits_after (held : nat) (t : list PermitEvent) : option nat :=
  match t with
  | [] => Some held
  | Took :: t => permits_after (S held) t
  | _ :: t => match held with O => None | S held => permits_after held t end
  end.

Definition permit_allowed X (q : Query X) (held : nat) : Prop :=
  match q with QRelease | QExecute _ _ _ => (1 <= held)%nat | _ => True end.
Definition permit_moves X (q : Query X) (a : result X) (g g' : nat) : Prop :=
  possible q a /\ permits_after g (permit_event q a) = Some g'.
Abbreviation permits := (wp permit_allowed permit_moves).
Lemma permits_after_app t t' : forall g, permits_after g (t ++ t') = permits_after g t ≫= fun g' => permits_after g' t'.
Proof. induction t as [|[] t IH]; intros g; simpl; [done|apply IH|destruct g; [done|apply IH]..]. Qed.
Lemma permits_sound {A} (p : prog A) g Q t r :
  permits p g Q -> runs p t r -> exists g', permits_after g t = Some g' /\ Q r g'.
Proof.
  intros Hp Hr. revert g Hp. induction Hr as [r|X q k a t r Ha Hr IH]; intros g; simpl; [eauto|].
  intros [Hq Hk].
  assert (Hm : exists g', permits_after g (permit_event q a) = Some g').
  { destruct q; simpl in *; try (eexists; reflexivity); destruct a as [x|e]; simpl; try (eexists; reflexivity).
    - destruct x; eexists; reflexivity.
    - destruct g; [lia|eexists; reflexivity].
    - destruct g; [lia|eexists; reflexivity].
    - destruct g; [lia|eexists; reflexivity]. }
  destruct Hm as [g' Hg]. destruct (IH g') as (g'' & H1 & H2); [apply Hk; by split|].
  exists g''. split; [|done]. by rewrite permits_after_app, Hg.
Qed.

(** Questions that leave the permits alone. *)
Lemma permits_quiet {X} (q : Query X) g Q :
  (forall a, permit_event q a = []) -> (forall a, possible q a -> Q a g) -> permits (ask q) g Q.
Proof.
  intros Hq H. apply wp_ask.
  - destruct q; try exact I; [specialize (Hq (Ok tt))|specialize (Hq (Ok tt))]; discriminate.
  - intros a g' [Ha Hg]. rewrite Hq in Hg. injection Hg as <-. by apply H.
Qed.
Lemma permits_local {X} (q : Query X) g Q :
  (forall a, permit_event q a = []) -> local_query q = true -> (forall a, Q (Ok a) g) -> permits (ask q) g Q.
Proof. intros Hq Hl H. apply permits_quiet; [done|]. intros [a|e] Ha; [done|]. by specialize (Ha Hl). Qed.
Lemma permits_release g Q : Q (Ok tt) g -> permits (ask QRelease) (S g) Q.
Proof.
  intros H. apply wp_ask; [simpl; lia|]. intros [[]|e] g' [Ha Hg]; [|by specialize (Ha eq_refl)].
  by injection Hg as <-.
Qed.
Lemma permits_acquire g Q : Q (Ok true) (S g) -> Q (Ok false) g -> permits (ask QAcquire) g Q.
Proof.
  intros H1 H2. apply wp_ask; [exact I|]. intros [[]|e] g' [Ha Hg]; [..|by specialize (Ha eq_refl)]; by injection Hg as <-.
Qed.
Lemma permits_execute id token j g Q :
  Q (Ok tt) g -> (forall e, Q (Raise e) (S g)) -> permits (ask (QExecute id token j)) (S g) Q.
Proof.
  intros H1 H2. apply wp_ask; [simpl; lia|]. intros [[]|e] g' [Ha Hg]; injection Hg as <-; auto.
Qed.

(** Programs that leave the permits alone. *)
Definition quiet {A} (p : prog A) : Prop := forall g Q, (forall r, Q r g) -> permits p g Q.
Lemma quiet_bind {A B} (p : prog A) (f : A -> prog B) : quiet p -> (forall a, quiet (f a)) -> quiet (p ≫= f).
Proof. intros Hp Hf g Q H. apply wp_bind, Hp. intros [a|e]; [by apply Hf|done]. Qed.
Lemma quiet_catch {A} (p : prog A) handler : quiet p -> (forall e, quiet (handler e)) -> quiet (catch p handler).
Proof. intros Hp Hf g Q H. apply wp_catch, Hp. intros [a|e]; [done|by apply Hf]. Qed.
Lemma quiet_finally {A} (p : prog A) last : quiet p -> quiet last -> quiet (finally p last).
Proof. intros Hp Hl g Q H. apply wp_finally, Hp. intros r. apply Hl. by intros []. Qed.
Lemma quiet_done {A} (r : result A) : quiet (Done r).
Proof. intros g Q H. apply H. Qed.
Lemma quiet_ret {A} (a : A) : quiet (mret a : prog A).
Proof. apply quiet_done. Qed.
Lemma quiet_question {A X} (q : Query X) (k : result X -> prog A) :
  (forall a, permit_event q a = []) -> (forall a, quiet (k a)) -> quiet (Ask q k).
Proof.
  intros Hq Hk g Q H. split; [|intros a g' [_ Hg]; rewrite Hq in Hg; injection Hg as <-; by apply Hk].
  destruct q; try exact I; [specialize (Hq (Ok tt))|specialize (Hq (Ok tt))]; discriminate.
Qed.
Create HintDb quiet.
#[export] Hint Resolve quiet_done quiet_ret : quiet.
#[export] Hint Extern 1 (quiet (ask _)) => apply quiet_question; [done|] : quiet.
#[export] Hint Extern 1 (quiet (throw _)) => apply quiet_done : quiet.
Ltac prove_quiet :=
  repeat match goal with
  | |- forall _, _ => intros
  | |- quiet (match ?x with _ => _ end) => destruct x
  | |- quiet (let _ := _ in _) => cbv zeta
  | |- quiet (Ask _ _) => apply quiet_question; [done|]
  | |- _ => progress auto with quiet
  | |- quiet (_ ≫= _) => apply quiet_bind
  | |- quiet (catch _ _) => apply quiet_catch
  | |- quiet (finally _ _) => apply quiet_finally
  end.
Lemma quiet_fence id token : quiet (check_execution_fence id token).
Proof. unfold check_execution_fence. prove_quiet. Qed.
Lemma quiet_mark id token o : quiet (mark id token o).
Proof. unfold mark. prove_quiet. Qed.
#[export] Hint Resolve quiet_fence quiet_mark : quiet.
Lemma quiet_ensure seconds id token : quiet (ensure_execution_lease seconds id token).
Proof. unfold ensure_execution_lease. prove_quiet. Qed.
#[export] Hint Resolve quiet_ensure : quiet.
Lemma quiet_attempts seconds id token most n : forall attempt, quiet (run_attempts seconds id token most attempt n).
Proof. induction n as [|n IH]; intros attempt; cbn [run_attempts]; prove_quiet. Qed.
Lemma quiet_run_task_guarded seconds id token j : quiet (run_task_guarded seconds id token j).
Proof.
  unfold run_task_guarded, run_task, record_terminal_failure. cbv zeta.
  apply quiet_catch; [apply quiet_attempts|]. prove_quiet.
Qed.

Lemma permits_submit_reserved seconds id recovery (Q : result bool -> nat -> Prop) g :
  (forall e, Q (Raise e) (S g)) -> Q (Ok false) (S g) -> Q (Ok true) g ->
  permits (submit_reserved seconds id recovery) (S g) Q.
Proof.
  intros He Hf Ht. unfold submit_reserved. apply wp_bind, permits_local; [done|done|]. intros [|]; [done|].
  apply wp_bind, permits_local; [done|done|]. intros token.
  apply wp_bind, permits_quiet; [done|]. intros [r|e] _; [|done].
  destruct r as [| [[id' j]|] | |]; try done. destruct (sp_max_attempts j <=? sp_attempts j).
  - apply wp_bind. apply quiet_finally; [prove_quiet..|]. by intros [].
  - apply wp_bind, permits_local; [done|done|]. intros _. apply wp_bind, wp_catch, permits_execute; [done|].
    intros e. apply wp_bind. apply quiet_finally; [prove_quiet..|]. intros []; apply He.
Qed.

(** The capacity is conserved: on every path through [submit], the recovery of a
    job and the handling of a dispatch message, whatever is answered or raised, each
    permit that is taken is given back or handed over to exactly one execution, never
    twice and never without having been taken; and every path of an execution gives
    its permit back exactly once. *)
Theorem permits_are_balanced seconds registered task payload key attempts request new_id id token j :
  (forall t r, runs (submit seconds false registered task payload key attempts request new_id) t r -> permits_after 0 t = Some 0%nat) /\
  (forall t r, runs (recover_job seconds id) t r -> permits_after 0 t = Some 0%nat) /\
  (forall t r, runs (handle_dispatch seconds registered task id) t r -> permits_after 0 t = Some 0%nat) /\
  (forall t r, runs (execute_job seconds id token j) t r -> permits_after 1 t = Some 0%nat).
Proof.
  assert (Hsound : forall A (p : prog A) g t r, permits p g (fun _ g' => g' = 0%nat) -> runs p t r -> permits_after g t = Some 0%nat).
  { intros A p g t r Hp Hr. by destruct (permits_sound p g _ t r Hp Hr) as (g' & ? & ->). }
  split; [|split; [|split]]; intros t r; apply Hsound; clear.
  - unfold submit. destruct registered; [|done]. cbn [negb]. apply wp_bind, permits_local; [done|done|]. intros [|]; [done|].
    destruct (attempts <? 1); [done|]. apply wp_bind, permits_acquire; cbn [negb].
    + apply wp_bind, wp_catch. unfold submit_body. apply wp_bind, permits_quiet; [done|].
      intros [[job [|]| | |]|e] _; try (apply wp_bind, permits_release; done).
      cbn [negb]. apply wp_bind, permits_submit_reserved; [|apply wp_ret, wp_bind; by apply permits_release|done].
      intros; apply wp_bind, permits_release; done.
    + apply wp_bind. unfold reused_job. destruct key as [key|]; [|done]. apply wp_catch, permits_quiet; [done|].
      intros [[]|e] _; [done..|]. by destruct (is_backend_error e).
  - unfold recover_job. apply wp_bind, permits_local; [done|done|]. intros [|]; [done|].
    apply wp_bind, permits_local; [done|done|]. intros [|]; [done|]. apply wp_bind, permits_acquire; [|done]. cbn [negb].
    apply wp_bind, wp_catch, permits_submit_reserved; [| |done]; [intros e|]; by apply wp_bind, permits_release.
  - unfold handle_dispatch. destruct registered; [|done]. cbn [negb]. apply wp_bind, permits_local; [done|done|].
    intros [|]; [done|]. apply wp_bind, permits_quiet; [done|]. intros [[[id' j]|]|e] _; [|done..].
    destruct (finished _); [done|]. destruct (negb _); [done|].
    apply wp_bind, permits_local; [done|done|]. intros [|]; [done|]. apply wp_bind, permits_acquire; [|done]. cbn [negb].
    apply wp_bind, wp_catch, permits_submit_reserved; [| |done]; [intros e; by apply wp_bind, permits_release|by apply permits_release].
  - unfold execute_job, task_done. apply wp_bind, wp_catch, quiet_run_task_guarded.
    assert (Hdone : permits (task_done id token) 1%nat (fun _ g => g = 0%nat)).
    { apply wp_bind, permits_local; [done|done|]. intros _. apply wp_bind, wp_catch, wp_bind, permits_quiet; [done|].
      intros [r|e] _; by apply permits_release. }
    by intros [[]|e].
Qed.
