(* ===== verification/TaskSystem.v ===== *)
(** * Workers over one repository

    The programs of TaskQueue.v run by any number of threads of any number of
    processes against one repository, interleaved at their questions, with
    requests and replies that get lost, threads that die and handlers that do
    anything.  The theorem is the queue's bound: a job's handler is started at
    most [max_attempts] times, and never twice for the same attempt. *)
From S2P Require Import Prelude PyStrings PyTime PyIso PyFloat PyJson JobStore JobLedger TaskQueue.
Local Open Scope string_scope.
Local Open Scope list_scope.
Local Open Scope Z_scope.

(** ** What a thread knows of the attempts

    [Owned id token n most pending]: it claimed the job with the token, and while
    the token owns the job its recorded attempts are [n]; [pending] when attempt [n]
    was recorded for a handler not started yet. *)
Inductive Ghost :=
  | Idle
  | Fresh (token : string)
  | Owned (id token : string) (n most : Z) (pending : bool).
Definition ghost_token (g : Ghost) : option string :=
  match g with Idle => None | Fresh token | Owned _ token _ _ _ => Some token end.
Definition ghost_pending (g : Ghost) : option (string * Z) :=
  match g with Owned id _ n _ true => Some (id, n) | _ => None end.

Definition admissible X (q : Query X) (g : Ghost) : Prop :=
  match q with
  | QRepo (CreateOrGet _ _ _ most _ _) => 1 <= most
  | QRepo (ClaimJob _ token _ _) => g = Fresh token
  | QRepo (Transition id o token) =>
      match ou_attempt_count o with
      | None => True
      | Some a => exists tok n most p, token = Some tok /\ g = Owned id tok n most p /\ n < a <= most /\ 1 <= a /\
                                       finished (ou_target o) = false
      end
  | QRepo _ => True
  | QHandler id a => exists tok most, g = Owned id tok a most true
  | QExecute id token j => g = Owned id token (sp_attempts j) (sp_max_attempts j) false
  | _ => True
  end.
Definition after_repo (op : JobOp) (a : result (JobReply (string * SpecJob))) (g : Ghost) : Ghost :=
  match op with
  | ClaimJob id token _ _ =>
      match a with Ok (Claimed (Some (_, j))) => Owned id token (sp_attempts j) (sp_max_attempts j) false | _ => Idle end
  | Transition _ o _ =>
      match ou_attempt_count o, g, a with
      | None, _, _ => g
      | Some n, Owned id token _ most _, Ok _ => Owned id token n most true
      | _, _, _ => Idle
      end
  | _ => g
  end.
Definition after X (q : Query X) : result X -> Ghost -> Ghost :=
  match q in Query X return result X -> Ghost -> Ghost with
  | QRepo op => after_repo op
  | QToken => fun a _ => match a with Ok token => Fresh token | Raise _ => Idle end
  | QHandler _ _ => fun _ g => match g with Owned id token n most _ => Owned id token n most false | g => g end
  | QExecute _ _ _ => fun a g => match a with Ok _ => Idle | Raise _ => g end
  | _ => fun _ g => g
  end.
Definition becomes X (q : Query X) (a : result X) (g g' : Ghost) : Prop := g' = after X q a g.
Abbreviation counted := (wp admissible becomes).

(** Programs that need no knowledge. *)
Definition careful {A} (p : prog A) : Prop := forall g Q, (forall r g', Q r g') -> counted p g Q.
Lemma careful_bind {A B} (p : prog A) (f : A -> prog B) : careful p -> (forall a, careful (f a)) -> careful (p ≫= f).
Proof. intros Hp Hf g Q H. apply wp_bind, Hp. intros [a|e] g'; [by apply Hf|done]. Qed.
Lemma careful_catch {A} (p : prog A) handler : careful p -> (forall e, careful (handler e)) -> careful (catch p handler).
Proof. intros Hp Hf g Q H. apply wp_catch, Hp. intros [a|e] g'; [done|by apply Hf]. Qed.
Lemma careful_finally {A} (p : prog A) last : careful p -> careful last -> careful (finally p last).
Proof. intros Hp Hl g Q H. apply wp_finally, Hp. intros r g'. apply Hl. by intros []. Qed.
Lemma careful_done {A} (r : result A) : careful (Done r).
Proof. intros g Q H. apply H. Qed.
Lemma careful_ret {A} (a : A) : careful (mret a : prog A).
Proof. apply careful_done. Qed.
Lemma careful_question {A X} (q : Query X) (k : result X -> prog A) :
  (forall g, admissible X q g) -> (forall a, careful (k a)) -> careful (Ask q k).
Proof. intros Hq Hk g Q H. split; [done|]. intros a g' _. by apply Hk. Qed.
Create HintDb careful.
#[export] Hint Resolve careful_done careful_ret : careful.
#[export] Hint Extern 1 (careful (ask _)) => apply careful_question; [done|] : careful.
#[export] Hint Extern 1 (careful (throw _)) => apply careful_done : careful.
Ltac prove_careful :=
  repeat match goal with
  | |- forall _, _ => intros
  | |- careful (match ?x with _ => _ end) => destruct x
  | |- careful (let _ := _ in _) => cbv zeta
  | |- careful (Ask _ _) => apply careful_question; [done|]
  | |- _ => progress auto with careful
  | |- careful (_ ≫= _) => apply careful_bind
  | |- careful (catch _ _) => apply careful_catch
  | |- careful (finally _ _) => apply careful_finally
  end.
(** Programs that change no knowledge either. *)
Definition steady {A} (p : prog A) : Prop := forall g Q, (forall r, Q r g) -> counted p g Q.
Lemma steady_bind {A B} (p : prog A) (f : A -> prog B) : steady p -> (forall a, steady (f a)) -> steady (p ≫= f).
Proof. intros Hp Hf g Q H. apply wp_bind, Hp. intros [a|e]; [by apply Hf|done]. Qed.
Lemma steady_done {A} (r : result A) : steady (Done r).
Proof. intros g Q H. apply H. Qed.
Lemma steady_question {A X} (q : Query X) (k : result X -> prog A) :
  (forall g, admissible X q g) -> (forall a g, after X q a g = g) -> (forall a, steady (k a)) -> steady (Ask q k).
Proof. intros Hq Ha Hk g Q H. split; [done|]. intros a g' Hg. unfold becomes in Hg. rewrite Ha in Hg. subst. by apply Hk. Qed.
Lemma steady_ask {X} (q : Query X) : (forall g, admissible X q g) -> (forall a g, after X q a g = g) -> steady (ask q).
Proof. intros. apply steady_question; [done..|]. intros a. apply steady_done. Qed.

Section Programs.
  Variable seconds : spec_float.
Lemma steady_fence id token : steady (check_execution_fence id token).
Proof. apply steady_bind; [by apply steady_ask|]. intros [|]; apply steady_done. Qed.
Lemma steady_ensure id token : steady (ensure_execution_lease seconds id token).
Proof.
  apply steady_bind; [apply steady_fence|]. intros _. apply steady_question; [done..|].
  intros [[|?|[|]|]|]; [..|apply steady_fence| | |]; (apply steady_bind; [by apply steady_ask|]; intros _; apply steady_done).
Qed.
Lemma steady_mark id token o : ou_attempt_count o = None -> steady (mark id token o).
Proof.
  intros Ho. unfold mark. apply steady_bind; [|intros _; apply steady_done].
  apply steady_ask; intros; simpl; by rewrite Ho.
Qed.
Lemma careful_of_steady {A} (p : prog A) : steady p -> careful p.
Proof. intros Hp g Q H. by apply Hp. Qed.
Lemma counted_attempts id token most n : forall attempt m pending,
  m < attempt -> 1 <= attempt -> Z.of_nat n <= Z.max 0 (most + 1 - attempt) ->
  counted (run_attempts seconds id token most attempt n) (Owned id token m most pending) (fun _ _ => True).
Proof.
  induction n as [|n IH]; intros attempt m pending Hm Ha Hmost; cbn [run_attempts]; [done|].
  apply wp_bind, steady_ensure. intros [[]|e]; [|done].
  apply wp_bind. unfold mark at 1. apply wp_bind, wp_ask.
  { simpl. do 4 eexists. split; [done|]. split; [done|]. repeat split; lia. }
  intros [r|e] g ->; [|done]. apply wp_ret. cbn [after after_repo mark_running ou_attempt_count]. apply wp_bind, steady_fence. intros [[]|e]; [|done].
  apply wp_bind, wp_ask; [simpl; eauto|]. intros [outcome|e] g ->; [|done]. cbn [after].
  apply wp_bind, steady_fence. intros [[]|e]; [|done].
  destruct outcome as [value|e retryable extra].
  - apply wp_bind, steady_fence. intros [[]|e]; [|done]. by apply steady_mark.
  - destruct (is_lost_error e); [done|]. apply wp_bind, steady_fence. intros [[]|e']; [|done].
    destruct (retryable && _); [|by apply steady_mark].
    apply wp_bind, steady_mark; [done|]. intros [[]|e']; [|done].
    apply wp_bind, steady_ask; [done|done|]. intros [stopped|e']; [|done].
    apply wp_bind, steady_fence. intros [[]|e']; [|done]. destruct stopped; [by apply steady_mark|].
    apply IH; lia.
Qed.
Lemma careful_task_done id token : careful (task_done id token).
Proof. unfold task_done. prove_careful. Qed.
Lemma careful_record id token e kind : careful (record_terminal_failure id token e kind).
Proof.
  unfold record_terminal_failure. cbv zeta.
  pose proof (fun o H => careful_of_steady _ (steady_mark id token o H)) as Hmark.
  pose proof (careful_of_steady _ (steady_fence id token)) as Hfence.
  apply careful_catch; [|prove_careful]. apply careful_bind; [done|]. intros _. apply careful_bind; [prove_careful|].
  intros [[id' j]|]; [|prove_careful]. destruct (open_status _); [|prove_careful]. apply careful_bind; [done|]. intros _. by apply Hmark.
Qed.
Lemma counted_execute id token j :
  0 <= sp_attempts j ->
  counted (execute_job seconds id token j) (Owned id token (sp_attempts j) (sp_max_attempts j) false) (fun _ _ => True).
Proof.
  intros Hj. unfold execute_job. apply wp_bind, wp_catch. unfold run_task_guarded. apply wp_catch.
  assert (Hdone : forall g, counted (task_done id token) g (fun _ _ => True)) by (intros g; by apply careful_task_done).
  unfold run_task. cbv zeta. pose proof (counted_attempts id token (sp_max_attempts j)
    (Z.to_nat (sp_max_attempts j + 1 - Z.max 1 (sp_attempts j + 1))) (Z.max 1 (sp_attempts j + 1)) (sp_attempts j) false
    ltac:(lia) ltac:(lia) ltac:(lia)) as Hrun.
  revert Hrun. apply wp_mono.
  intros [[]|e] g _; [apply Hdone|]. simpl.
  destruct (is_lost_error e).
  - apply wp_ask; [done|]. intros [[]|e'] g' _; apply Hdone.
  - apply careful_record. intros [[]|e'] g'; apply Hdone.
Qed.
Lemma careful_submit_reserved id recovery : careful (submit_reserved seconds id recovery).
Proof.
  intros g Q H. unfold submit_reserved.
  apply wp_bind, steady_ask; [done|done|]. intros [[|]|e]; [by apply wp_ret| |done].
  apply wp_bind, wp_ask; [done|]. intros [token|e] g' ->; [|done].
  apply wp_bind, wp_ask; [done|]. intros [r|e] g' ->; [|done].
  destruct r as [| [[id' j]|] | |]; try by apply wp_ret. cbn [after after_repo].
  pose proof (fun o Ho => careful_of_steady _ (steady_mark id token o Ho)) as Hmark.
  destruct (sp_max_attempts j <=? sp_attempts j).
  - apply wp_bind. apply careful_finally; [by apply Hmark|prove_careful|]. intros [] g''; apply H.
  - apply wp_bind, steady_ask; [done|done|]. intros [[]|e]; [|done]. apply wp_bind, wp_catch, wp_ask; [done|].
    intros [[]|e] g' ->; [by apply wp_ret|]. apply wp_bind. apply careful_finally; [prove_careful..|]. intros [] g''; apply H.
Qed.
#[local] Hint Resolve careful_submit_reserved : careful.
Lemma careful_submit durable registered task payload key attempts request new_id :
  careful (submit seconds durable registered task payload key attempts request new_id).
Proof.
  unfold submit. destruct registered; [|apply careful_done]. cbn [negb]. apply careful_bind; [prove_careful|]. intros [|]; [apply careful_done|].
  destruct (Z.ltb_spec attempts 1); [apply careful_done|]. apply careful_bind; [destruct durable; prove_careful|].
  intros [|]; cbn [negb].
  - assert (Hrelease : careful (if durable then mret tt else ask QRelease)) by (destruct durable; prove_careful).
    apply careful_bind.
    + apply careful_catch; [|intros e; apply careful_bind; [done|prove_careful]].
      unfold submit_body. apply careful_bind; [by apply careful_question; [|prove_careful]|].
      intros [job reused| | |]; prove_careful.
    + intros [[job reused] [|]]; prove_careful.
  - unfold reused_job. prove_careful.
Qed.
Lemma careful_recover_page jobs : careful (recover_page seconds jobs).
Proof. induction jobs as [|id jobs IH]; cbn [recover_page]; [apply careful_done|]. unfold recover_job. prove_careful. Qed.
Lemma careful_handle_dispatch registered task id : careful (handle_dispatch seconds registered task id).
Proof. unfold handle_dispatch. prove_careful. Qed.
End Programs.

(** ** The system *)
Section System.
  Context {R : JobRepository} {L : JobRepositoryLaws R}.
  Variable seconds : spec_float.

Record System := {
  sy_repo : repo_state;
  sy_threads : list (prog unit);
  sy_tokens : list string;             (** the [uuid4]s drawn so far *)
  sy_starts : list (string * Z)        (** the handlers started: job and attempt *) }.
Definition with_threads (y : System) (s : repo_state) (ts : list (prog unit)) : System :=
  {| sy_repo := s; sy_threads := ts; sy_tokens := sy_tokens y; sy_starts := sy_starts y |}.
Definition plain {X} (q : Query X) : bool :=
  match q with QRepo _ | QToken | QHandler _ _ | QExecute _ _ _ => false | _ => true end.
(** The entry points of the queue, as threads. *)
Inductive entry_point : prog unit -> Prop :=
  | entry_submit durable registered task payload key attempts request new_id :
      entry_point (_ ← submit seconds durable registered task payload key attempts request new_id; mret tt)
  | entry_recover jobs : entry_point (recover_page seconds jobs)
  | entry_dispatch registered task id : entry_point (handle_dispatch seconds registered task id).

Inductive sys_step (y : System) : System -> Prop :=
  | step_enter p : entry_point p -> sys_step y (with_threads y (sy_repo y) (sy_threads y ++ [p]))
  | step_repo ts1 op k ts2 t :
      sy_threads y = ts1 ++ Ask (QRepo op) k :: ts2 -> repo_valid t = true ->
      sys_step y (with_threads y (repo_perform op t (sy_repo y)).1
                    (ts1 ++ k (repo_perform op t (sy_repo y)).2 :: ts2))
  | step_reply_lost ts1 op k ts2 t e :
      sy_threads y = ts1 ++ Ask (QRepo op) k :: ts2 -> repo_valid t = true ->
      sys_step y (with_threads y (repo_perform op t (sy_repo y)).1 (ts1 ++ k (Raise e) :: ts2))
  | step_request_lost ts1 op k ts2 e :
      sy_threads y = ts1 ++ Ask (QRepo op) k :: ts2 ->
      sys_step y (with_threads y (sy_repo y) (ts1 ++ k (Raise e) :: ts2))
  | step_token ts1 k ts2 token :
      sy_threads y = ts1 ++ Ask QToken k :: ts2 -> token ∉ sy_tokens y ->
      sys_step y {| sy_repo := sy_repo y; sy_threads := ts1 ++ k (Ok token) :: ts2;
                    sy_tokens := token :: sy_tokens y; sy_starts := sy_starts y |}
  | step_handler ts1 id attempt k ts2 a :
      sy_threads y = ts1 ++ Ask (QHandler id attempt) k :: ts2 ->
      sys_step y {| sy_repo := sy_repo y; sy_threads := ts1 ++ k a :: ts2;
                    sy_tokens := sy_tokens y; sy_starts := (id, attempt) :: sy_starts y |}
  | step_execute ts1 id token j k ts2 :
      sy_threads y = ts1 ++ Ask (QExecute id token j) k :: ts2 ->
      sys_step y (with_threads y (sy_repo y) (ts1 ++ k (Ok tt) :: ts2 ++ [execute_job seconds id token j]))
  | step_execute_refused ts1 id token j k ts2 e :
      sy_threads y = ts1 ++ Ask (QExecute id token j) k :: ts2 ->
      sys_step y (with_threads y (sy_repo y) (ts1 ++ k (Raise e) :: ts2))
  | step_plain ts1 X (q : Query X) k ts2 a :
      sy_threads y = ts1 ++ Ask q k :: ts2 -> plain q = true ->
      sys_step y (with_threads y (sy_repo y) (ts1 ++ k a :: ts2))
  | step_dies ts1 p ts2 :
      sy_threads y = ts1 ++ p :: ts2 -> sys_step y (with_threads y (sy_repo y) (ts1 ++ ts2)).
Definition start_system (s : repo_state) : System :=
  {| sy_repo := s; sy_threads := []; sy_tokens := []; sy_starts := [] |}.

(** ** The invariant *)
Definition ledger (y : System) : Spec := repo_ledger (sy_repo y).
Definition owner_token (j : SpecJob) : option string := fst <$> sp_owner j.
Definition ghost_ok (s : Spec) (tokens : list string) (g : Ghost) : Prop :=
  match g with
  | Idle => True
  | Fresh token => token ∈ tokens /\ forall id j, s !! id = Some j -> owner_token j <> Some token
  | Owned id token n most _ =>
      token ∈ tokens /\ 0 <= n /\
      forall id' j, s !! id' = Some j -> owner_token j = Some token ->
        id' = id /\ sp_attempts j = n /\ sp_max_attempts j = most
  end.
Definition recorded (s : Spec) (start : string * Z) : Prop :=
  exists j, s !! start.1 = Some j /\ 1 <= start.2 <= sp_attempts j.
Definition sound_job (tokens : list string) (j : SpecJob) : Prop :=
  0 <= sp_attempts j <= sp_max_attempts j /\ forall token, owner_token j = Some token -> token ∈ tokens.
Record ledger_ok (s : Spec) (tokens : list string) (starts : list (string * Z)) (gs : list Ghost) : Prop := {
  lo_jobs : map_Forall (fun _ => sound_job tokens) s;
  lo_ghosts : Forall (ghost_ok s tokens) gs;
  lo_tokens : NoDup (omap ghost_token gs);
  lo_starts : NoDup (starts ++ omap ghost_pending gs);
  lo_recorded : Forall (recorded s) (starts ++ omap ghost_pending gs) }.
Definition system_ok (y : System) : Prop :=
  repo_inv (sy_repo y) /\
  exists gs, Forall2 (fun p g => counted p g (fun _ _ => True)) (sy_threads y) gs /\
             ledger_ok (ledger y) (sy_tokens y) (sy_starts y) gs.

(** *** One job in one step *)
(** The token an operation needs its thread to own. *)
Definition op_token (op : JobOp) : option string :=
  match op with
  | ClaimJob _ token _ _ => Some token
  | Transition _ o token => match ou_attempt_count o with Some _ => token | None => None end
  | _ => None
  end.
Lemma holds_owner token now j : holds token now j = true -> owner_token j = Some token.
Proof.
  unfold holds, owner_token. destruct (sp_owner j) as [[owner e]|]; [|done]. intros [H _]%andb_true_iff.
  by apply String.eqb_eq in H as ->.
Qed.
Lemma owner_of_with j status n o : owner_token (sp_with j status n o) = fst <$> o.
Proof. done. Qed.
(** What a step can have done to a job. *)
Definition job_change (op : JobOp) (id : string) (j j' : SpecJob) : Prop :=
  sp_max_attempts j' = sp_max_attempts j /\
  (owner_token j' = owner_token j \/ owner_token j' = None \/
   exists token seconds recovery, op = ClaimJob id token seconds recovery /\ owner_token j' = Some token) /\
  (sp_attempts j' = sp_attempts j \/
   exists o tok, op = Transition id o tok /\ ou_attempt_count o = Some (sp_attempts j') /\
                 forall token, tok = Some token -> owner_token j = Some token).
Lemma step_changes now s op s' r id j :
  ledger_step now s op s' r -> s !! id = Some j -> exists j', s' !! id = Some j' /\ job_change op id j j'.
Proof.
  intros Hs Hj. assert (Hsame : job_change op id j j) by (split; [done|]; split; by left).
  destruct Hs as [| |id' ? ? ? ? j0 Hj0|id' ? ? e j0 Hj0 Hh|id' ? ? j0 Hj0|id' o tok j0 Hj0 ? Hh]; try by exists j.
  all: rewrite lookup_insert; case_decide as Hid; subst; try (by exists j); try congruence.
  all: rewrite Hj in Hj0; injection Hj0 as <-; eexists; split; [done|]; split; [done|].
  - split; [|by left]. right; right. by do 3 eexists.
  - split; [|by left]. left. by rewrite (holds_owner _ _ _ Hh).
  - split; [|by left]. right; by left.
  - split; [destruct (finished _); [right; by left|by left]|].
    destruct (ou_attempt_count o) as [a|] eqn:Ea; [|by left]. right. exists o, tok. split; [done|]. split; [done|].
    intros token ->. by eapply holds_owner.
Qed.
Lemma step_comes_from now s op s' r id j' :
  ledger_step now s op s' r -> s' !! id = Some j' ->
  (exists task payload key request, op = CreateOrGet task payload key (sp_max_attempts j') request id /\
     sp_attempts j' = 0 /\ owner_token j' = None) \/
  exists j, s !! id = Some j /\ job_change op id j j'.
Proof.
  intros Hs Hj'. destruct (s !! id) as [j|] eqn:Hj.
  - right. exists j. split; [done|]. destruct (step_changes _ _ _ _ _ _ _ Hs Hj) as (j2 & Hj2 & Hc). congruence.
  - left. destruct Hs as [|task payload key most request id' j0 Hn Ha Hm Ho| | | |]; try congruence.
    all: rewrite lookup_insert in Hj'; case_decide; subst; try congruence.
    injection Hj' as <-. exists task, payload, key, request. split; [done|]. split; [done|]. unfold owner_token. by rewrite Ho.
Qed.
(** What its thread may know of an operation. *)
Lemma admissible_token op g : admissible _ (QRepo op) g -> op_token op = None \/ op_token op = ghost_token g.
Proof.
  destruct op as [| |??|??|? o ?]; simpl; auto; [intros ->; by right|].
  destruct (ou_attempt_count o); [|by left]. intros (tok & n & most & p & -> & -> & _). by right.
Qed.
Lemma admissible_attempt id o tok a g :
  admissible _ (QRepo (Transition id o tok)) g -> ou_attempt_count o = Some a ->
  exists token n most p, tok = Some token /\ g = Owned id token n most p /\ n < a <= most /\ 1 <= a.
Proof. simpl. intros H Ho. rewrite Ho in H. destruct H as (token & n & most & p & ? & ? & ? & ? & ?). eauto 8. Qed.

(** *** What a step of the repository does to what is known *)
Section Step.
  Variables (now : Z) (s : Spec) (op : JobOp) (s' : Spec) (r : result (JobReply (string * SpecJob))).
  Variables (tokens : list string) (g : Ghost).
  Hypothesis Hstep : ledger_step now s op s' r.
  Hypothesis Hg : admissible _ (QRepo op) g.
  Hypothesis Hjobs : map_Forall (fun _ => sound_job tokens) s.
  Hypothesis Hok : ghost_ok s tokens g.

(** A transition that records an attempt is made by the thread that owns the job. *)
Lemma recorded_attempt id j o tok a :
  op = Transition id o tok -> ou_attempt_count o = Some a -> s !! id = Some j ->
  (forall token, tok = Some token -> owner_token j = Some token) ->
  exists token p, tok = Some token /\ g = Owned id token (sp_attempts j) (sp_max_attempts j) p /\
                  sp_attempts j < a <= sp_max_attempts j /\ 1 <= a.
Proof.
  intros -> Ho Hj Ht. destruct (admissible_attempt _ _ _ _ _ Hg Ho) as (token & n & most & p & -> & -> & Ha & H1).
  destruct Hok as (_ & _ & Hown). destruct (Hown id j Hj (Ht _ eq_refl)) as (_ & <- & <-). eauto 6.
Qed.
Lemma step_attempts id j j' : s !! id = Some j -> job_change op id j j' -> 0 <= sp_attempts j ->
  sp_attempts j' = sp_attempts j \/ sp_attempts j < sp_attempts j' <= sp_max_attempts j.
Proof.
  intros Hj (_ & _ & [H|(o & tok & Hop & Ho & Ht)]) _; [by left|right].
  by destruct (recorded_attempt _ _ _ _ _ Hop Ho Hj Ht) as (token & p & _ & _ & Ha & _).
Qed.
Lemma step_sound : map_Forall (fun _ => sound_job tokens) s'.
Proof.
  intros id j' Hj'. destruct (step_comes_from _ _ _ _ _ _ _ Hstep Hj') as [(task & payload & key & request & Hop & Ha & Ho)|(j & Hj & Hc)].
  - rewrite Hop in Hg. simpl in Hg. split; [lia|]. intros token. by rewrite Ho.
  - destruct (Hjobs _ _ Hj) as [Hn Ht]. pose proof (step_attempts _ _ _ Hj Hc ltac:(lia)) as Ha.
    destruct Hc as (Hm & Ho & _). split; [lia|]. intros token Hj2.
    destruct Ho as [Ho|[Ho|(token' & sec & rec & Hop & Ho)]]; rewrite Ho in Hj2; [by apply Ht|done|].
    injection Hj2 as <-. rewrite Hop in Hg. simpl in Hg. rewrite Hg in Hok. apply Hok.
Qed.
Lemma step_recorded x : recorded s x -> recorded s' x.
Proof.
  intros (j & Hj & Hx). destruct (step_changes _ _ _ _ _ _ _ Hstep Hj) as (j' & Hj' & Hc). exists j'. split; [done|].
  destruct (step_attempts _ _ _ Hj Hc) as [|]; [apply (Hjobs _ _ Hj)|lia|lia].
Qed.
(** What another token owns is not touched. *)
Lemma step_keeps h : op_token op = None \/ op_token op <> ghost_token h -> ghost_ok s tokens h -> ghost_ok s' tokens h.
Proof.
  intros Hne Hh.
  assert (Hfrom : forall token id j', ghost_token h = Some token -> s' !! id = Some j' -> owner_token j' = Some token ->
    exists j, s !! id = Some j /\ owner_token j = Some token /\ sp_attempts j' = sp_attempts j /\
              sp_max_attempts j' = sp_max_attempts j).
  { intros token id j' Ht Hj' Hj2.
    destruct (step_comes_from _ _ _ _ _ _ _ Hstep Hj') as [(task & payload & key & request & Hop & Ha & Ho)|(j & Hj & Hc)];
      [congruence|]. destruct Hc as (Hm & Ho & Ha).
    assert (owner_token j = Some token) as Ej.
    { destruct Ho as [Ho|[Ho|(token' & sec & rec & Hop & Ho)]]; [congruence|congruence|].
      rewrite Hop in Hne. simpl in Hne. destruct Hne; congruence. }
    exists j. split; [done|]. split; [done|]. split; [|done]. destruct Ha as [Ha|(o & tok & Hop & Hoa & Hown)]; [done|].
    destruct (recorded_attempt _ _ _ _ _ Hop Hoa Hj Hown) as (token' & p & -> & _).
    rewrite Hop in Hne. simpl in Hne. rewrite Hoa in Hne. rewrite (Hown _ eq_refl) in Ej. destruct Hne; congruence. }
  destruct h as [|token|id token n most p]; simpl in *; [done|..].
  - destruct Hh as [Hin Hh]. split; [done|]. intros id j' Hj' Hj2.
    destruct (Hfrom _ _ _ eq_refl Hj' Hj2) as (j & Hj & Ho & _). by apply (Hh id j).
  - destruct Hh as (Hin & Hn & Hh). do 2 (split; [done|]). intros id' j' Hj' Hj2.
    destruct (Hfrom _ _ _ eq_refl Hj' Hj2) as (j & Hj & Ho & -> & ->). by apply Hh.
Qed.
Lemma step_actor : ghost_ok s' tokens (after_repo op r g).
Proof.
  pose proof (fun H => step_keeps g (or_introl H) Hok) as Hkeep. revert Hkeep Hstep Hg Hok. generalize op r g.
  clear op r g. intros op r g Hkeep Hstep Hg Hok.
  destruct op as [task payload key most request id|id token seconds' recovery|id token seconds'|id token|id o tok];
    try (by apply Hkeep).
  - simpl in Hg. subst g. destruct Hok as [Hin Hfree]. cbn [after_repo].
    destruct r as [[| [[id' j']|] | |]|e]; try done.
    inversion Hstep as [? ? Href| |? ? ? ? ? j Hj Hfr Hop j2| | |]; subst; [by destruct (Href (id', j'))|].
    split; [done|]. split; [apply (Hjobs _ _ Hj)|]. intros id1 j1. rewrite lookup_insert. case_decide as Hid.
    + by intros [= <-] _.
    + intros Hj1 Ho1. by destruct (Hfree id1 j1).
  - cbn [after_repo]. destruct (ou_attempt_count o) as [a|] eqn:Ea; [|apply Hkeep; simpl; by rewrite Ea].
    destruct (admissible_attempt _ _ _ _ _ Hg Ea) as (token & n & most & p & -> & -> & Hlt & H1).
    destruct r as [rep|e]; [|done].
    inversion Hstep as [? ? Href| | | | |? ? ? j Hj Ht Hl j2]; subst; [done|].
    destruct Hok as (Hin & Hn & Hown). pose proof (holds_owner _ _ _ Hl) as Hj2.
    destruct (Hown id j Hj Hj2) as (_ & Hja & Hjm). split; [done|]. split; [lia|].
    intros id1 j1. rewrite lookup_insert. case_decide as Hid.
    + intros [= <-] _. subst. unfold j2. simpl. by rewrite Ea.
    + intros Hj1 Ho1. destruct (Hown id1 j1 Hj1 Ho1) as [-> _]. done.
Qed.
(** A pending start is new, and recorded. *)
Lemma step_pending :
  ghost_pending (after_repo op r g) = None \/ ghost_pending (after_repo op r g) = ghost_pending g \/
  exists x, ghost_pending (after_repo op r g) = Some x /\ recorded s' x /\ ~ recorded s x.
Proof.
  revert Hstep Hg Hok. generalize op r g. clear op r g. intros op r g Hstep Hg Hok.
  destruct op as [task payload key most request id|id token seconds' recovery|id token seconds'|id token|id o tok];
    try (right; by left); cbn [after_repo].
  - left. destruct r as [[| [[]|] | |]|]; done.
  - destruct (ou_attempt_count o) as [a|] eqn:Ea; [|right; by left].
    destruct (admissible_attempt _ _ _ _ _ Hg Ea) as (token & n & most & p & -> & -> & Hlt & H1).
    destruct r as [rep|e]; [|by left]. right; right. exists (id, a). split; [done|].
    inversion Hstep as [? ? Href| | | | |? ? ? j Hj Ht Hl j2]; subst; [done|].
    destruct Hok as (Hin & Hn & Hown). destruct (Hown id j Hj (holds_owner _ _ _ Hl)) as (_ & Hja & Hjm). split.
    + exists j2. simpl. rewrite lookup_insert_eq. unfold j2. simpl. rewrite Ea. simpl. split; [done|lia].
    + intros (j1 & Hj1 & Hx). simpl in *. rewrite Hj in Hj1. injection Hj1 as <-. lia.
Qed.
End Step.
Lemma after_repo_token op r g : admissible _ (QRepo op) g ->
  ghost_token (after_repo op r g) = None \/ ghost_token (after_repo op r g) = ghost_token g.
Proof.
  destruct op as [| | | |id o tok]; simpl; auto.
  - intros ->. destruct r as [[| [[]|] | |]|]; auto.
  - destruct (ou_attempt_count o); auto. intros (token & n & most & p & -> & -> & _). destruct r; auto.
Qed.
Lemma after_repo_raise op g e : after_repo op (Raise e) g = Idle \/ forall r, after_repo op r g = g.
Proof. destruct op as [| | | |id o tok]; simpl; auto. destruct (ou_attempt_count o), g; auto. Qed.

(** *** The bookkeeping of all threads *)
Lemma ledger_ok_perm s tokens starts gs gs' : gs ≡ₚ gs' -> ledger_ok s tokens starts gs -> ledger_ok s tokens starts gs'.
Proof.
  intros Hp []. split; [done|by rewrite <- Hp| | |].
  - by rewrite <- Hp.
  - by rewrite <- Hp.
  - by rewrite <- Hp.
Qed.
Lemma NoDup_middle {A} (l : list A) x k : NoDup (l ++ x :: k) -> NoDup (l ++ k).
Proof. rewrite <- Permutation_middle, NoDup_cons. by intros []. Qed.
Lemma Forall_middle {A} (P : A -> Prop) (l : list A) x k : Forall P (l ++ x :: k) -> Forall P (l ++ k).
Proof. rewrite <- Permutation_middle, Forall_cons. by intros []. Qed.
(** The acting thread first. *)
Lemma ledger_ok_at s tokens starts gs1 g gs2 :
  ledger_ok s tokens starts (gs1 ++ g :: gs2) <-> ledger_ok s tokens starts (g :: gs1 ++ gs2).
Proof. split; apply ledger_ok_perm; by rewrite Permutation_middle. Qed.
Lemma ledger_ok_drop s tokens starts g gs : ledger_ok s tokens starts (g :: gs) -> ledger_ok s tokens starts gs.
Proof.
  intros [Hj [_ Hg]%Forall_cons Ht Hs Hr]. split; [done|done| | |].
  - simpl in Ht. destruct (ghost_token g); [by apply NoDup_cons in Ht as [_ Ht]|done].
  - simpl in Hs. destruct (ghost_pending g); [|done]. by apply NoDup_middle in Hs.
  - simpl in Hr. destruct (ghost_pending g); [|done]. by apply Forall_middle in Hr.
Qed.
Lemma ledger_ok_idle s tokens starts gs : ledger_ok s tokens starts gs -> ledger_ok s tokens starts (Idle :: gs).
Proof. intros []. split; try done. by constructor. Qed.
Lemma ledger_ok_repo now s op s' r tokens starts g gs :
  ledger_step now s op s' r -> admissible _ (QRepo op) g ->
  ledger_ok s tokens starts (g :: gs) -> ledger_ok s' tokens starts (after_repo op r g :: gs).
Proof.
  intros Hstep Ha [Hj [Hg Hgs]%Forall_cons Ht Hs Hr].
  pose proof (step_recorded _ _ _ _ _ _ _ Hstep Ha Hj Hg) as Hkept.
  split.
  - by eapply step_sound.
  - constructor; [by eapply step_actor|]. rewrite Forall_forall in Hgs |- *. intros h Hh.
    apply (step_keeps now s op s' r tokens g); [done..| |by apply Hgs].
    destruct (admissible_token op g Ha) as [|E]; [by left|]. simpl in Ht. destruct (op_token op) as [token|]; [right|by left].
    rewrite <- E in Ht. intros E'. apply NoDup_cons in Ht as [Ht _]. apply Ht, list_elem_of_omap. exists h. by rewrite <- E'.
  - simpl in *. destruct (after_repo_token op r g Ha) as [->| ->]; [|done].
    destruct (ghost_token g); [by apply NoDup_cons in Ht as [_ Ht]|done].
  - simpl in *. destruct (step_pending _ _ _ _ _ _ _ Hstep Ha Hj Hg) as [->|[->|(x & -> & _ & Hx)]]; [|done|].
    + destruct (ghost_pending g); [|done]. by apply NoDup_middle in Hs.
    + rewrite <- Permutation_middle, NoDup_cons. rewrite Forall_forall in Hr. split.
      * intros Hin. apply Hx, Hr. destruct (ghost_pending g); [|done]. set_solver.
      * destruct (ghost_pending g); [|done]. by apply NoDup_middle in Hs.
  - simpl in *. assert (Hr' : Forall (recorded s') (starts ++ omap ghost_pending gs)).
    { eapply Forall_impl; [|apply Hkept]. destruct (ghost_pending g); [|done].
      by apply Forall_middle in Hr. }
    destruct (step_pending _ _ _ _ _ _ _ Hstep Ha Hj Hg) as [->|[->|(x & -> & Hx & _)]]; [done| |].
    + eapply Forall_impl; [exact Hr|apply Hkept].
    + rewrite <- Permutation_middle. by constructor.
Qed.
Lemma ledger_ok_token s tokens starts gs token :
  token ∉ tokens -> ledger_ok s tokens starts gs -> ledger_ok s (token :: tokens) starts (Fresh token :: gs).
Proof.
  intros Hnew [Hj Hg Ht Hs Hr]. split; [| | |done|done].
  - intros id j Hid. destruct (Hj id j Hid) as [Hn Ho]. split; [done|]. intros t E. apply list_elem_of_further, Ho, E.
  - constructor.
    + split; [apply list_elem_of_here|]. intros id j Hid E. by apply Hnew, (Hj id j Hid).
    + eapply Forall_impl; [exact Hg|]. intros [|t|id t n most p]; simpl; intros H; [done|split..]; try apply H;
        by apply list_elem_of_further, H.
  - simpl. apply NoDup_cons. split; [|done]. intros (h & Hh & E)%list_elem_of_omap. apply Hnew.
    rewrite Forall_forall in Hg. specialize (Hg h Hh). destruct h; simpl in *; simplify_eq; apply Hg.
Qed.
Lemma ledger_ok_start s tokens starts id token n most gs :
  ledger_ok s tokens starts (Owned id token n most true :: gs) ->
  ledger_ok s tokens ((id, n) :: starts) (Owned id token n most false :: gs).
Proof.
  intros [Hj Hg Ht Hs Hr]. split; [done| |done| |]; simpl in *.
  - apply Forall_cons in Hg as [Hg Hgs]. by constructor.
  - by rewrite <- Permutation_middle in Hs.
  - by rewrite <- Permutation_middle in Hr.
Qed.

Lemma counted_entry p : entry_point p -> counted p Idle (fun _ _ => True).
Proof.
  intros Hp. assert (Hc : careful p) by (destruct Hp;
    [apply careful_bind; [apply careful_submit|intros; apply careful_ret]|apply careful_recover_page|apply careful_handle_dispatch]).
  by apply Hc.
Qed.

(** ** Every step keeps it *)
Definition follows (p : prog unit) (g : Ghost) : Prop := counted p g (fun _ _ => True).
Lemma thread_at y ts1 p ts2 : system_ok y -> sy_threads y = ts1 ++ p :: ts2 ->
  exists gs1 g gs2, repo_inv (sy_repo y) /\ Forall2 follows ts1 gs1 /\ follows p g /\ Forall2 follows ts2 gs2 /\
    ledger_ok (ledger y) (sy_tokens y) (sy_starts y) (g :: gs1 ++ gs2).
Proof.
  intros (Hinv & gs & Hp & Hl) Hy. rewrite Hy in Hp.
  apply Forall2_app_inv_l in Hp as (gs1 & gs' & H1 & H2 & ->). apply Forall2_cons_inv_l in H2 as (g & gs2 & Hg & H2 & ->).
  exists gs1, g, gs2. by rewrite <- ledger_ok_at.
Qed.
Lemma system_ok_at y ts1 p ts2 gs1 g gs2 :
  sy_threads y = ts1 ++ p :: ts2 -> repo_inv (sy_repo y) -> Forall2 follows ts1 gs1 -> follows p g -> Forall2 follows ts2 gs2 ->
  ledger_ok (ledger y) (sy_tokens y) (sy_starts y) (g :: gs1 ++ gs2) -> system_ok y.
Proof.
  intros Hy Hinv H1 Hp H2 Hl. split; [done|]. exists (gs1 ++ g :: gs2). rewrite Hy. split; [|by apply ledger_ok_at].
  apply Forall2_app; [done|]. by constructor.
Qed.
Lemma repo_steps op t s : repo_inv s -> repo_valid t = true ->
  repo_inv (repo_perform op t s).1 /\
  ledger_step (repo_now t) (repo_ledger s) op (repo_ledger (repo_perform op t s).1) (repo_perform op t s).2.
Proof.
  intros Hs Ht. destruct (repo_step op t s Hs Ht) as [Hinv [(dl & Hdl)|[-> Hr]]]; (split; [done|]).
  - by eapply spec_perform_step.
  - by constructor.
Qed.
Lemma sys_step_ok y y' : sys_step y y' -> system_ok y -> system_ok y'.
Proof.
  intros Hs Hok. destruct Hs as [p Hp|ts1 op k ts2 t Hy Ht|ts1 op k ts2 t e Hy Ht|ts1 op k ts2 e Hy|ts1 k ts2 token Hy Hnew
    |ts1 id attempt k ts2 a Hy|ts1 id token j k ts2 Hy|ts1 id token j k ts2 e Hy|ts1 X q k ts2 a Hy Hq|ts1 p ts2 Hy].
  { destruct Hok as (Hinv & gs & Hgs & Hl). apply (system_ok_at _ (sy_threads y) p [] gs Idle []); try done.
    - by apply counted_entry.
    - rewrite app_nil_r. by apply ledger_ok_idle. }
  all: destruct (thread_at _ _ _ _ Hok Hy) as (gs1 & g & gs2 & Hinv & H1 & Hg & H2 & Hl).
  all: try (destruct Hg as [Ha Hk]).
  - destruct (repo_steps op t _ Hinv Ht) as [Hinv' Hstep].
    eapply system_ok_at; [done|done|exact H1| |exact H2|]; [by apply Hk|]. by eapply ledger_ok_repo.
  - destruct (repo_steps op t _ Hinv Ht) as [Hinv' Hstep]. pose proof (ledger_ok_repo _ _ _ _ _ _ _ _ _ Hstep Ha Hl) as Hl'.
    eapply system_ok_at; [done|done|exact H1| |exact H2|]; [by apply Hk|]. cbn [after].
    destruct (after_repo_raise op g e) as [-> | E]; [|by rewrite E in Hl' |- *].
    by apply ledger_ok_idle, (ledger_ok_drop _ _ _ _ _ Hl').
  - eapply system_ok_at; [done|done|exact H1| |exact H2|]; [by apply Hk|]. cbn [after].
    destruct (after_repo_raise op g e) as [-> | E]; [by apply ledger_ok_idle, (ledger_ok_drop _ _ _ _ _ Hl)|by rewrite E].
  - eapply system_ok_at; [done|done|exact H1| |exact H2|]; [by apply Hk|]. cbn [after].
    by apply ledger_ok_token, (ledger_ok_drop _ _ _ _ _ Hl).
  - simpl in Ha. destruct Ha as (tok & most & ->).
    eapply system_ok_at; [done|done|exact H1| |exact H2|]; [by apply Hk|]. by apply ledger_ok_start.
  - simpl in Ha. subst g. split; [done|]. exists (gs1 ++ Idle :: gs2 ++ [Owned id token (sp_attempts j) (sp_max_attempts j) false]).
    split.
    + apply Forall2_app; [done|]. constructor; [by apply Hk|]. apply Forall2_app; [done|]. constructor; [|done].
      apply counted_execute. pose proof (lo_ghosts _ _ _ _ Hl) as Hgs. apply Forall_cons in Hgs as [Hgs _]. apply Hgs.
    + apply ledger_ok_at, ledger_ok_idle. eapply ledger_ok_perm; [|exact Hl]. rewrite app_assoc. apply Permutation_cons_append.
  - simpl in Ha. subst g. eapply system_ok_at; [done|done|exact H1| |exact H2|exact Hl]. by apply (Hk (Raise e)).
  - eapply system_ok_at; [done|done|exact H1| |exact H2|exact Hl]. apply (Hk a). by destruct q.
  - split; [done|]. exists (gs1 ++ gs2). split; [by apply Forall2_app|]. by apply ledger_ok_drop in Hl.
Qed.
Lemma sys_steps_ok y y' : rtc sys_step y y' -> system_ok y -> system_ok y'.
Proof. induction 1 as [|y y1 y' Hs _ IH]; [done|]. intros Hy. by eapply IH, sys_step_ok. Qed.

(** C21. Attempts are bounded and never repeated: whatever the workers of however
    many processes do, in whatever order, with clocks that disagree, requests and
    replies of the repository that are lost, handlers that return or raise anything
    and threads that die at any question, a handler is started at most once for each
    attempt of a job, and only for attempts between one and the job's maximum. *)
Theorem attempts_are_bounded_and_unrepeated s y :
  repo_inv s -> repo_ledger s = ∅ -> rtc sys_step (start_system s) y ->
  NoDup (sy_starts y) /\
  forall id attempt, (id, attempt) ∈ sy_starts y ->
    exists j, ledger y !! id = Some j /\ 1 <= attempt <= sp_max_attempts j.
Proof.
  intros Hinv Hempty Hsteps.
  assert (Hok : system_ok (start_system s)).
  { split; [done|]. exists []. split; [constructor|]. unfold ledger. simpl. rewrite Hempty.
    split; simpl; first [apply map_Forall_empty|constructor]. }
  assert (Hy : system_ok y) by by eapply sys_steps_ok.
  destruct Hy as (_ & gs & _ & [Hj _ _ Hs Hr]). split; [by apply NoDup_app in Hs as [Hs _]|].
  intros id attempt Hin. rewrite Forall_forall in Hr. destruct (Hr (id, attempt)) as (j & Hid & Ha); [set_solver|].
  exists j. split; [done|]. destruct (Hj id j Hid) as [Hn _]. simpl in Ha. lia.
Qed.

(** ** A scheduler, to run the system *)
Inductive Choice :=
  | Reply (thread : nat) (t : repo_tick)
  | Answer (thread : nat) (a : forall X, Query X -> result X)
  | Draw (thread : nat) (token : string)
  | Handle (thread : nat) (a : result HandlerResult)
  | Schedule (thread : nat).
Definition drive (y : System) (c : Choice) : option System :=
  let at_ (i : nat) (act : forall X, Query X -> (result X -> prog unit) -> list (prog unit) -> list (prog unit) -> option System) :=
    match sy_threads y !! i with
    | Some (Ask q k) => act _ q k (take i (sy_threads y)) (drop (S i) (sy_threads y))
    | _ => None
    end in
  match c with
  | Reply i t => at_ i (fun X q =>
      match q in Query X return (result X -> prog unit) -> _ with
      | QRepo op => fun k ts1 ts2 =>
          if repo_valid t then Some (with_threads y (repo_perform op t (sy_repo y)).1
                                       (ts1 ++ k (repo_perform op t (sy_repo y)).2 :: ts2)) else None
      | _ => fun _ _ _ => None
      end)
  | Answer i a => at_ i (fun X q k ts1 ts2 =>
      if plain q then Some (with_threads y (sy_repo y) (ts1 ++ k (a X q) :: ts2)) else None)
  | Draw i token => at_ i (fun X q =>
      match q in Query X return (result X -> prog unit) -> _ with
      | QToken => fun k ts1 ts2 =>
          if bool_decide (token ∈ sy_tokens y) then None
          else Some {| sy_repo := sy_repo y; sy_threads := ts1 ++ k (Ok token) :: ts2;
                       sy_tokens := token :: sy_tokens y; sy_starts := sy_starts y |}
      | _ => fun _ _ _ => None
      end)
  | Handle i a => at_ i (fun X q =>
      match q in Query X return (result X -> prog unit) -> _ with
      | QHandler id attempt => fun k ts1 ts2 =>
          Some {| sy_repo := sy_repo y; sy_threads := ts1 ++ k a :: ts2;
                  sy_tokens := sy_tokens y; sy_starts := (id, attempt) :: sy_starts y |}
      | _ => fun _ _ _ => None
      end)
  | Schedule i => at_ i (fun X q =>
      match q in Query X return (result X -> prog unit) -> _ with
      | QExecute id token j => fun k ts1 ts2 =>
          Some (with_threads y (sy_repo y) (ts1 ++ k (Ok tt) :: ts2 ++ [execute_job seconds id token j]))
      | _ => fun _ _ _ => None
      end)
  end.
Lemma drive_step y c y' : drive y c = Some y' -> sys_step y y'.
Proof.
  destruct c as [i t|i a|i token|i a|i]; simpl; destruct (sy_threads y !! i) as [[r|X q k]|] eqn:Ei; try done;
    pose proof (eq_sym (take_drop_middle _ _ _ Ei)) as Hy.
  2: { destruct (plain q) eqn:Eq; [|done]. intros [= <-]. by eapply step_plain. }
  all: destruct q; try done.
  - destruct (repo_valid t) eqn:Et; [|done]. intros [= <-]. by eapply step_repo.
  - case_bool_decide; [done|]. intros [= <-]. by eapply step_token.
  - intros [= <-]. by eapply step_handler.
  - intros [= <-]. by eapply step_execute.
Qed.
Definition drive_all (cs : list Choice) (y : System) : option System := foldl (fun m c => y ← m; drive y c) (Some y) cs.
Lemma drive_all_steps cs : forall y y', drive_all cs y = Some y' -> rtc sys_step y y'.
Proof.
  unfold drive_all. induction cs as [|c cs IH]; intros y y'; simpl; [intros [= <-]; done|].
  destruct (drive y c) as [y1|] eqn:E.
  - intros H. eapply rtc_l; [by eapply drive_step|by apply IH].
  - assert (H : forall cs, foldl (fun m c => y ← m; drive y c) None cs = None) by (intros cs'; by induction cs').
    by rewrite H.
Qed.
End System.

Module SystemExample.
#[local] Instance R : JobRepository := sqlite_repository JobExample.digest_of.
#[local] Instance L : JobRepositoryLaws R := sqlite_laws JobExample.digest_of.
(** A worker that is not shut down, has capacity and keeps its lease. *)
Definition healthy X (q : Query X) : result X :=
  match q in Query X return result X with
  | QRepo _ => Ok (Flag false) | QGetJob _ => Ok None | QFindIdempotent _ _ _ => Ok None | QFenceLost _ _ => Ok false
  | QLatch _ _ => Ok tt | QHandler _ _ => Ok (Returned JNull) | QRetryDelay _ => Ok false | QShutdown => Ok false
  | QActive _ => Ok false | QToken => Ok "" | QActivate _ _ => Ok tt | QDeactivate _ => Ok tt | QAcquire => Ok true
  | QRelease => Ok tt | QExecute _ _ _ => Ok tt | QPublishDispatch _ => Ok tt
  end.
Definition tick (seconds : Z) : repo_tick := (JobExample.NOW + 1000000 * seconds, 0).
Definition submission : prog unit :=
  _ ← submit JobExample.half_minute false true "analyse" [] (Some "key") 2 "request" "job-1"; mret tt.
Definition admission : list Choice :=
  [Answer 0 healthy; Answer 0 healthy; Reply 0 (tick 0); Answer 0 healthy; Draw 0 "worker-1"; Reply 0 (tick 1);
   Answer 0 healthy; Schedule 0].
(** One attempt of thread 1: the lease, the record of the attempt, the handler. *)
Definition attempt (seconds : Z) (a : HandlerResult) : list Choice :=
  [Answer 1 healthy; Reply 1 (tick seconds); Answer 1 healthy; Reply 1 (tick seconds); Answer 1 healthy; Handle 1 (Ok a)].
Definition retry : list Choice :=
  [Answer 1 healthy; Answer 1 healthy; Reply 1 (tick 20); Answer 1 healthy; Answer 1 healthy].
Definition schedule : list Choice :=
  admission ++ attempt 10 (Failed (ValueError "busy") true []) ++ retry ++ attempt 25 (Returned JNull).
Definition no_jobs : repo_state := @empty_jobs string.
Definition begun : System := with_threads (start_system no_jobs) no_jobs [submission].
Definition started : list (string * Z) := from_option sy_starts [] (drive_all JobExample.half_minute schedule begun).
Example two_attempts : started = [("job-1", 2); ("job-1", 1)].
Proof. vm_compute. reflexivity. Qed.
Lemma reaches : exists y, rtc (sys_step JobExample.half_minute) (start_system no_jobs) y /\ sy_starts y = started.
Proof.
  unfold started. destruct (drive_all _ _ _) as [y|] eqn:E.
  - exists y. split; [|done]. eapply rtc_l; [eapply (step_enter _ _ submission), entry_submit|].
    by eapply drive_all_steps.
  - exists (start_system no_jobs). by split.
Qed.
End SystemExample.
Lemma attempts_are_bounded_and_unrepeated_witness : NoDup SystemExample.started /\ length SystemExample.started = 2%nat.
Proof.
  split; [|by rewrite SystemExample.two_attempts].
  destruct SystemExample.reaches as (y & Hy & <-).
  exact (proj1 (attempts_are_bounded_and_unrepeated (L := SystemExample.L) JobExample.half_minute SystemExample.no_jobs y empty_jobs_ok eq_refl Hy)).
Defined.
