(* ===== verification/CircuitBreaker.v ===== *)
(** * The circuit breaker of the model calls: market_agent/workflow_circuit_breaker.py

    A breaker keeps one circuit per model and task kind, and answers every call with
    allow, probe or reject.  [decision_of_log] says what it should answer, from what
    was asked and recorded; [breaker_decides_by_its_log] that it does. *)
From S2P Require Import Prelude PyStrings PyFloat.
Local Open Scope string_scope.
Local Open Scope list_scope.
Local Open Scope Z_scope.

(** ** The breaker *)
Inductive CircuitDecision := D_allow | D_probe | D_reject.
Inductive CircuitStatus := C_closed | C_open | C_half_open.
Record CircuitState := { cs_status : CircuitStatus; cs_failures : Z; cs_opened_at : option spec_float }.
Definition circuit : Type := string * string.
Record CircuitBreaker := {
  cb_failure_threshold : Z; cb_cooldown : spec_float; cb_states : gmap circuit CircuitState }.
Definition new_circuit : CircuitState := {| cs_status := C_closed; cs_failures := 0; cs_opened_at := None |}.

(** [CircuitBreaker.__init__] *)
Definition new_breaker (failure_threshold : Z) (cooldown : spec_float) : result CircuitBreaker :=
  _ ← raise_when ((failure_threshold <? 1) || SFltb cooldown float_0)
        (ValueError "breaker threshold must be positive and cooldown non-negative");
  Ok {| cb_failure_threshold := failure_threshold; cb_cooldown := cooldown; cb_states := ∅ |}.
Definition with_circuit (b : CircuitBreaker) (key : circuit) (state : CircuitState) : CircuitBreaker :=
  {| cb_failure_threshold := cb_failure_threshold b; cb_cooldown := cb_cooldown b;
     cb_states := <[key := state]> (cb_states b) |}.
(** [_state_for] *)
Definition state_for (key : circuit) : io CircuitBreaker CircuitState :=
  _ ← lift (raise_when (negb (truthy key.1) || negb (truthy key.2)) (ValueError "model and task_kind must be non-empty"));
  state ← read (fun b => default new_circuit (cb_states b !! key));
  _ ← modify (fun b => with_circuit b key state);
  mret state.
Definition acquire (key : circuit) (now : spec_float) : io CircuitBreaker CircuitDecision :=
  state ← state_for key;
  match cs_status state with
  | C_closed => mret D_allow
  | C_half_open => mret D_reject
  | C_open =>
      opened_at ← lift (from_option Ok (Raise (Exn "AssertionError" "")) (cs_opened_at state));
      cooldown ← read cb_cooldown;
      if SFltb now (float_add opened_at cooldown) then mret D_reject
      else
        _ ← modify (fun b => with_circuit b key
              {| cs_status := C_half_open; cs_failures := cs_failures state; cs_opened_at := cs_opened_at state |});
        mret D_probe
  end.
(** What [record] makes of the circuit. *)
Definition record_state (threshold : Z) (state : CircuitState) (success : bool) (now : spec_float) : CircuitState :=
  if success then new_circuit
  else match cs_status state with
       | C_half_open => {| cs_status := C_open; cs_failures := cs_failures state; cs_opened_at := Some now |}
       | status =>
           let failures := cs_failures state + 1 in
           if threshold <=? failures then {| cs_status := C_open; cs_failures := failures; cs_opened_at := Some now |}
           else {| cs_status := status; cs_failures := failures; cs_opened_at := cs_opened_at state |}
       end.
Definition record (key : circuit) (success : bool) (now : spec_float) : io CircuitBreaker unit :=
  state ← state_for key;
  modify (fun b => with_circuit b key (record_state (cb_failure_threshold b) state success now)).

(** ** What it should decide

    The log of a breaker, newest first: the decisions it gave and the outcomes it was told. *)
Inductive entry :=
  | Asked (key : circuit) (decision : CircuitDecision)
  | Told (key : circuit) (success : bool) (now : spec_float).
(** The failures told of a circuit since its last success. *)
Fixpoint failures_in_a_row (key : circuit) (log : list entry) : Z :=
  match log with
  | [] => 0
  | Told k success _ :: log =>
      if bool_decide (k = key) then (if success then 0 else failures_in_a_row key log + 1) else failures_in_a_row key log
  | Asked _ _ :: log => failures_in_a_row key log
  end.
(** The probe that was let through has not been told of. *)
Fixpoint probe_outstanding (key : circuit) (log : list entry) : bool :=
  match log with
  | [] => false
  | Told k _ _ :: log => if bool_decide (k = key) then false else probe_outstanding key log
  | Asked k D_probe :: log => bool_decide (k = key) || probe_outstanding key log
  | Asked _ _ :: log => probe_outstanding key log
  end.
Fixpoint last_failure (key : circuit) (log : list entry) : option spec_float :=
  match log with
  | [] => None
  | Told k false now :: log => if bool_decide (k = key) then Some now else last_failure key log
  | _ :: log => last_failure key log
  end.
Definition cooling (cooldown now : spec_float) (failed_at : option spec_float) : bool :=
  match failed_at with Some t => SFltb now (float_add t cooldown) | None => false end.
Definition decision_of_log (threshold : Z) (cooldown : spec_float) (log : list entry) (key : circuit) (now : spec_float)
    : CircuitDecision :=
  if failures_in_a_row key log <? threshold then D_allow
  else if probe_outstanding key log || cooling cooldown now (last_failure key log) then D_reject
  else D_probe.

(** ** Runs *)
Inductive call := Acquire (key : circuit) (now : spec_float) | Record_ (key : circuit) (success : bool) (now : spec_float).
Definition key_ok (key : circuit) : bool := truthy key.1 && truthy key.2.
(** A call and the log it leaves; a call that raises is not logged. *)
Definition run_call (c : call) (s : CircuitBreaker * list entry) : CircuitBreaker * list entry :=
  let '(b, log) := s in
  match c with
  | Acquire key now =>
      match acquire key now b with (b, Ok decision) => (b, Asked key decision :: log) | (b, Raise _) => (b, log) end
  | Record_ key success now =>
      match record key success now b with (b, Ok _) => (b, Told key success now :: log) | (b, Raise _) => (b, log) end
  end.
Definition run_calls (b : CircuitBreaker) (calls : list call) : CircuitBreaker * list entry :=
  fold_left (fun s c => run_call c s) calls (b, []).

(** ** The breaker follows its log *)
Definition circuit_of (b : CircuitBreaker) (key : circuit) : CircuitState := default new_circuit (cb_states b !! key).
Definition circuit_ok (threshold : Z) (log : list entry) (key : circuit) (s : CircuitState) : Prop :=
  match cs_status s with
  | C_closed => cs_failures s = failures_in_a_row key log /\ failures_in_a_row key log < threshold /\ probe_outstanding key log = false
  | C_open => threshold <= cs_failures s /\ threshold <= failures_in_a_row key log /\ probe_outstanding key log = false /\
              is_Some (cs_opened_at s) /\ cs_opened_at s = last_failure key log
  | C_half_open => threshold <= cs_failures s /\ threshold <= failures_in_a_row key log /\ probe_outstanding key log = true
  end.
Definition breaker_ok (threshold : Z) (cooldown : spec_float) (s : CircuitBreaker * list entry) : Prop :=
  1 <= threshold /\ cb_failure_threshold s.1 = threshold /\ cb_cooldown s.1 = cooldown /\
  forall key, circuit_ok threshold s.2 key (circuit_of s.1 key).

Lemma circuit_of_set b key s key' : circuit_of (with_circuit b key s) key' = if bool_decide (key = key') then s else circuit_of b key'.
Proof.
  unfold circuit_of. simpl. case_bool_decide as H; [by subst; rewrite lookup_insert_eq|by rewrite lookup_insert_ne].
Qed.
Lemma state_for_run key b : state_for key b =
  if key_ok key then (with_circuit b key (circuit_of b key), Ok (circuit_of b key))
  else (b, Raise (ValueError "model and task_kind must be non-empty")).
Proof. unfold state_for, key_ok, mbind, io_bind, lift, raise_when. destruct (truthy key.1), (truthy key.2); reflexivity. Qed.
Lemma record_run key success now b : record key success now b =
  if key_ok key
  then (with_circuit (with_circuit b key (circuit_of b key)) key
          (record_state (cb_failure_threshold b) (circuit_of b key) success now), Ok tt)
  else (b, Raise (ValueError "model and task_kind must be non-empty")).
Proof. unfold record, mbind, io_bind. rewrite state_for_run. by destruct (key_ok key). Qed.
Lemma record_state_ok threshold log key s success now : 1 <= threshold -> circuit_ok threshold log key s ->
  circuit_ok threshold (Told key success now :: log) key (record_state threshold s success now).
Proof.
  intros Ht Hs. unfold record_state, circuit_ok in *. destruct success.
  - simpl. rewrite bool_decide_true by done. split; [done|]. split; [lia|done].
  - destruct (cs_status s) eqn:E; simpl; rewrite ?bool_decide_true by done.
    + destruct Hs as (-> & H & _). destruct (Z.leb_spec threshold (failures_in_a_row key log + 1)) as [H1|H1]; simpl; rewrite ?bool_decide_true by done.
      * split; [done|]. split; [done|]. split; [done|]. split; [by eexists|done].
      * split; [done|]. split; [lia|done].
    + destruct Hs as (H1 & H2 & _). rewrite (proj2 (Z.leb_le _ _)) by lia. simpl. split; [lia|]. split; [lia|]. split; [done|]. split; [by eexists|done].
    + destruct Hs as (H1 & H2 & _). split; [done|]. split; [lia|]. split; [done|]. split; [by eexists|done].
Qed.
(** An entry of another circuit changes nothing. *)
Definition entry_key (e : entry) : circuit := match e with Asked k _ | Told k _ _ => k end.
Lemma circuit_ok_other threshold log key s e : entry_key e <> key -> circuit_ok threshold log key s -> circuit_ok threshold (e :: log) key s.
Proof.
  intros Hne Hs. assert (H : failures_in_a_row key (e :: log) = failures_in_a_row key log /\
    probe_outstanding key (e :: log) = probe_outstanding key log /\ last_failure key (e :: log) = last_failure key log).
  { destruct e as [k []|k []]; simpl in *; by rewrite ?bool_decide_false by done. }
  destruct H as (H1 & H2 & H3). unfold circuit_ok. by rewrite H1, H2, H3.
Qed.
Lemma acquire_run threshold cooldown key now b log : breaker_ok threshold cooldown (b, log) -> key_ok key = true ->
  exists b', acquire key now b = (b', Ok (decision_of_log threshold cooldown log key now)) /\
             breaker_ok threshold cooldown (b', Asked key (decision_of_log threshold cooldown log key now) :: log).
Proof.
  intros (Ht & Hth & Hcd & Hall) Hkey. simpl in *. pose proof (Hall key) as Hs.
  assert (Hset : forall s d, circuit_ok threshold (Asked key d :: log) key s ->
            breaker_ok threshold cooldown (with_circuit (with_circuit b key (circuit_of b key)) key s, Asked key d :: log)).
  { intros s d Hok. repeat split; simpl; [done|done|done|]. intros key'. rewrite !circuit_of_set. case_bool_decide as E; [by subst|].
    apply circuit_ok_other; [done|apply Hall]. }
  assert (Hkeep : forall d, circuit_ok threshold (Asked key d :: log) key (circuit_of b key) ->
            breaker_ok threshold cooldown (with_circuit b key (circuit_of b key), Asked key d :: log)).
  { intros d Hok. repeat split; simpl; [done|done|done|]. intros key'. rewrite circuit_of_set. case_bool_decide as E; [by subst|].
    apply circuit_ok_other; [done|apply Hall]. }
  unfold acquire, mbind, io_bind. rewrite state_for_run, Hkey. unfold circuit_ok in Hs. unfold decision_of_log.
  destruct (circuit_of b key) as [status failures opened_at] eqn:Es. cbn [cs_status cs_failures cs_opened_at] in *. destruct status.
  - destruct Hs as (H1 & H2 & H3). rewrite (proj2 (Z.ltb_lt _ _)) by lia. eexists. split; [reflexivity|]. by apply Hkeep.
  - destruct Hs as (H1 & H2 & H3 & [t Hto] & H5). subst opened_at.
    rewrite (proj2 (Z.ltb_ge _ _)), H3, <- H5 by lia. simpl. rewrite Hcd.
    destruct (SFltb now (float_add t cooldown)).
    + eexists. split; [reflexivity|]. apply Hkeep. unfold circuit_ok. simpl. split; [done|]. split; [done|]. split; [done|].
      split; [by eexists|done].
    + eexists. split; [reflexivity|]. apply Hset. unfold circuit_ok. simpl. rewrite bool_decide_true by done. by repeat split.
  - destruct Hs as (H1 & H2 & H3). rewrite (proj2 (Z.ltb_ge _ _)), H3 by lia. eexists. split; [reflexivity|]. by apply Hkeep.
Qed.
Lemma run_call_ok threshold cooldown c s : breaker_ok threshold cooldown s -> breaker_ok threshold cooldown (run_call c s).
Proof.
  destruct s as [b log]. intros H. destruct c as [key now|key success now]; cbn [run_call].
  - destruct (key_ok key) eqn:Hkey.
    + destruct (acquire_run _ _ key now _ _ H Hkey) as (b' & -> & Hok). exact Hok.
    + unfold acquire, mbind, io_bind. rewrite state_for_run, Hkey. exact H.
  - rewrite record_run. destruct (key_ok key); [|exact H].
    destruct H as (Ht & Hth & Hcd & Hall). simpl in *. repeat split; simpl; [done|done|done|]. intros key'. rewrite !circuit_of_set.
    case_bool_decide as E; [subst key'; rewrite Hth; by apply record_state_ok|]. apply circuit_ok_other; [done|apply Hall].
Qed.
Lemma run_calls_ok threshold cooldown b calls : new_breaker threshold cooldown = Ok b -> breaker_ok threshold cooldown (run_calls b calls).
Proof.
  intros Hb. assert (H0 : breaker_ok threshold cooldown (b, [])).
  { unfold new_breaker in Hb. inv_ok Hb. inv_checks. to_prop. subst b. split; [lia|]. split; [done|]. split; [done|].
    intros key. unfold circuit_of, circuit_ok. simpl. rewrite lookup_empty. simpl. split; [done|]. split; [lia|done]. }
  unfold run_calls. revert H0. generalize (b, @nil entry). induction calls as [|c calls IH]; intros s Hs; [exact Hs|].
  simpl. by apply IH, run_call_ok.
Qed.

(** C24. After any calls, of any models and kinds in any order, what a call is answered is what
    the log says: it is let through while fewer than the threshold of failures in a row were
    told of its circuit; then it is refused while the last failure is cooling, and while a
    probe is outstanding; otherwise it is the one probe.  No circuit affects another. *)
Theorem breaker_decides_by_its_log threshold cooldown b calls key now :
  new_breaker threshold cooldown = Ok b -> key_ok key = true ->
  let '(b', log) := run_calls b calls in
  (acquire key now b').2 = Ok (decision_of_log threshold cooldown log key now).
Proof.
  intros Hb Hkey. pose proof (run_calls_ok _ _ _ calls Hb) as Hok. destruct (run_calls b calls) as [b' log].
  destruct (acquire_run _ _ key now _ _ Hok Hkey) as (b'' & -> & _). reflexivity.
Qed.
(** *** A probe that is never told of *)
Definition untold (key : circuit) (c : call) : Prop := match c with Record_ k _ _ => k <> key | Acquire _ _ => True end.
Lemma untold_stays_outstanding key calls s : Forall (untold key) calls -> probe_outstanding key s.2 = true ->
  probe_outstanding key (fold_left (fun s c => run_call c s) calls s).2 = true.
Proof.
  revert s. induction calls as [|c calls IH]; intros s Hc Hs; [exact Hs|]. inversion Hc as [|? ? H1 H2]; subst. simpl. apply IH; [done|].
  destruct s as [b log]. destruct c as [k now|k success now]; cbn [run_call].
  - destruct (acquire k now b) as [b' [[]|e]]; simpl in *; rewrite ?Hs; auto using orb_true_r.
  - rewrite record_run. destruct (key_ok k); [|exact Hs]. simpl in *. by rewrite bool_decide_false.
Qed.
Lemma outstanding_is_refused threshold cooldown s key now : breaker_ok threshold cooldown s -> key_ok key = true ->
  probe_outstanding key s.2 = true -> (acquire key now s.1).2 = Ok D_reject.
Proof.
  intros Hs Hkey Ho. destruct s as [b log]. destruct (acquire_run _ _ key now _ _ Hs Hkey) as (b' & Hr & _). simpl in *. rewrite Hr. simpl. f_equal.
  unfold decision_of_log. destruct Hs as (_ & _ & _ & Hall). specialize (Hall key). simpl in Hall. unfold circuit_ok in Hall.
  destruct (cs_status _); [destruct Hall as (_ & _ & H); congruence|destruct Hall as (_ & _ & H & _); congruence|].
  destruct Hall as (_ & H & _). rewrite (proj2 (Z.ltb_ge _ _)), Ho by lia. done.
Qed.
Module BreakerExample.
Definition key : circuit := ("sol", "technical").
Definition other : circuit := ("luna", "technical").
Definition breaker : CircuitBreaker := {| cb_failure_threshold := 3; cb_cooldown := float_int 30; cb_states := ∅ |}.
Definition at_ (seconds : Z) : spec_float := float_int seconds.
Definition failing (k : circuit) (seconds : Z) : call := Record_ k false (at_ seconds).
(** Three failures open one circuit; its probe is let through after the cooldown, and once. *)
Definition outage : list call :=
  [failing key 1; failing other 2; failing key 3; failing key 4; Acquire key (at_ 10); Acquire other (at_ 10); Acquire key (at_ 34);
   Acquire key (at_ 100)].
Example outage_log : (run_calls breaker outage).2 =
  [Asked key D_reject; Asked key D_probe; Asked other D_allow; Asked key D_reject; Told key false (at_ 4); Told key false (at_ 3);
   Told other false (at_ 2); Told key false (at_ 1)].
Proof. vm_compute. reflexivity. Qed.
Lemma breaker_decides_by_its_log_witness :
  new_breaker 3 (float_int 30) = Ok breaker /\
  (acquire key (at_ 1000) (run_calls breaker outage).1).2 = Ok D_reject /\
  (acquire key (at_ 1000) (run_calls breaker (outage ++ [Record_ key true (at_ 999)])).1).2 = Ok D_allow.
Proof.
  split; [reflexivity|]. split.
  - exact (breaker_decides_by_its_log 3 (float_int 30) breaker outage key (at_ 1000) eq_refl eq_refl).
  - exact (breaker_decides_by_its_log 3 (float_int 30) breaker (outage ++ [Record_ key true (at_ 999)]) key (at_ 1000) eq_refl eq_refl).
Defined.
End BreakerExample.
