(* ===== verification/Resilience.v ===== *)
(** * Retries, fallback and cancellation: market_agent/workflow_retry_policy.py,
    market_agent/workflow_fallback.py, market_agent/workflow_cancellation.py and
    market_agent/backend/cancellation_store.py

    What a failed model call may do next, and the signal that stops a run on every
    replica.  Delays and times are binary64 floats. *)
From S2P Require Import Prelude PyStrings PyFloat.
Local Open Scope string_scope.
Local Open Scope list_scope.
Local Open Scope Z_scope.

(** ** Retries *)
Definition PERMANENT_PROVIDER_CODES : list string :=
  ["authentication"; "authorization"; "validation"; "schema"; "safety"; "malformed_output"].
(** What the policy reads of an exception: its [code], its [status_code] when that is an
    integer, its [retry_after] when that is a number, and whether it is a [TimeoutError]
    or a [ConnectionError]. *)
Record ProviderError := {
  pe_status_code : option Z; pe_code : option string; pe_retry_after : option spec_float; pe_network : bool }.
Inductive RetryDecision := Retry (delay : spec_float) | Terminal (reason : string).
Record RetryPolicy := {
  rp_base_delay : spec_float; rp_max_delay : spec_float; rp_max_attempts : Z; rp_retry_cost : spec_float }.
(** [RetryPolicy.__init__] *)
Definition new_retry_policy (p : RetryPolicy) : result RetryPolicy :=
  _ ← raise_when (SFltb (rp_base_delay p) float_0 || SFltb (rp_max_delay p) float_0 || (rp_max_attempts p <? 1) ||
                  SFltb (rp_retry_cost p) float_0)
        (ValueError "retry policy configuration must be non-negative and allow an attempt");
  Ok p.
Definition retryable_status (status : Z) : bool :=
  bool_decide (status ∈ [408; 409; 429]) || ((500 <=? status) && (status <=? 599)).
Definition is_retryable (error : ProviderError) : bool :=
  if match pe_code error with Some code => bool_decide (code ∈ PERMANENT_PROVIDER_CODES) | None => false end then false
  else pe_network error || match pe_status_code error with Some status => retryable_status status | None => false end.
(** [_retry_after] *)
Definition retry_after (error : ProviderError) : option spec_float :=
  match pe_retry_after error with Some value => if SFleb float_0 value then Some value else None | None => None end.
(** [min(self._max_delay, self._base_delay * 2**attempt)] *)
Definition ceiling (p : RetryPolicy) (attempt : Z) : spec_float :=
  float_min (rp_max_delay p) (float_mul (rp_base_delay p) (float_int (2 ^ attempt))).
(** [_uniform]; [random] is the source's answer to [uniform(0, ceiling)]. *)
Definition uniform (random : spec_float -> spec_float) (ceiling : spec_float) : result spec_float :=
  let sample := random ceiling in
  _ ← check (SFleb float_0 sample && SFleb sample ceiling)
        (ValueError "random source returned a value outside the full-jitter range");
  Ok sample.
Definition decide_retry (p : RetryPolicy) (error : ProviderError) (attempt : Z) (deadline remaining_cost now : spec_float)
    (random : spec_float -> spec_float) : result RetryDecision :=
  if negb (is_retryable error) then Ok (Terminal "non_retryable")
  else if (attempt <? 0) || (rp_max_attempts p <=? attempt) then Ok (Terminal "attempt_limit")
  else if SFltb remaining_cost (rp_retry_cost p) then Ok (Terminal "cost")
  else
    delay ← uniform random (ceiling p attempt);
    let delay := match retry_after error with Some value => float_max delay value | None => delay end in
    if SFleb deadline (float_add now delay) then Ok (Terminal "deadline") else Ok (Retry delay).
(** A retry is scheduled only for a retryable error, within the attempts and the cost. *)
Lemma retry_admitted p error attempt deadline remaining now random delay :
  decide_retry p error attempt deadline remaining now random = Ok (Retry delay) ->
  is_retryable error = true /\ 0 <= attempt < rp_max_attempts p /\ SFltb remaining (rp_retry_cost p) = false /\
  SFleb deadline (float_add now delay) = false.
Proof.
  unfold decide_retry. destruct (is_retryable error); [|done]. simpl. destruct (_ || _) eqn:Ha; [done|]. destruct (SFltb _ _) eqn:Hc; [done|].
  intros H. inv_ok H. destruct (SFleb _ _) eqn:Hd; [done|]. injection H as <-. to_prop. repeat split; [lia|lia|done].
Qed.

(** ** Fallback *)
Inductive ModelTier := LUNA_TIER | TERRA_TIER | SOL_TIER.
#[export] Instance ModelTier_eq_dec : EqDecision ModelTier.
Proof. solve_decision. Defined.
Definition tier_value (t : ModelTier) : string := match t with LUNA_TIER => "luna" | TERRA_TIER => "terra" | SOL_TIER => "sol" end.
Inductive FallbackDecision := Downgrade (tier : ModelTier) | UseLocalKnowledge | Abstain.
(** The permitted tiers; whether there is a knowledge base. *)
Record FallbackPolicy := { fp_tiers : list ModelTier; fp_knowledge_base : bool }.
(** [FallbackPolicy.__init__] *)
Definition new_fallback_policy (p : FallbackPolicy) : result FallbackPolicy :=
  _ ← check (bool_decide (NoDup (fp_tiers p))) (ValueError "fallback model tiers cannot repeat");
  _ ← check (bool_decide (fp_tiers p = filter (fun t => t ∈ fp_tiers p) [SOL_TIER; TERRA_TIER; LUNA_TIER]))
        (ValueError "fallback model tiers must be in strict descending order");
  Ok p.
(** The tiers after the first [current]; [None] when there is none. *)
Fixpoint after (current : ModelTier) (tiers : list ModelTier) : option (list ModelTier) :=
  match tiers with
  | [] => None
  | t :: tiers => if bool_decide (t = current) then Some tiers else after current tiers
  end.
(** [FallbackPolicy.next]; [None] stands for ["local_knowledge"] and for no tier. *)
Definition next (p : FallbackPolicy) (current : option ModelTier) : FallbackDecision :=
  match current with
  | None => Abstain
  | Some current =>
      match after current (fp_tiers p) with
      | None => Abstain
      | Some (t :: _) => Downgrade t
      | Some [] => if fp_knowledge_base p then UseLocalKnowledge else Abstain
      end
  end.
Definition tier_index (t : ModelTier) : Z := match t with LUNA_TIER => 0 | TERRA_TIER => 1 | SOL_TIER => 2 end.
(** A fallback only goes down. *)
Lemma next_descends p current t : new_fallback_policy p = Ok p -> next p (Some current) = Downgrade t ->
  tier_index t < tier_index current.
Proof.
  unfold new_fallback_policy, next. destruct p as [tiers kb]. simpl. intros H. inv_ok H. inv_checks. to_prop.
  match goal with E : tiers = _ |- _ => revert E end. clear. intros ->.
  set (s := filter _ _). assert (Hs : s ∈ [[]; [LUNA_TIER]; [TERRA_TIER]; [SOL_TIER]; [TERRA_TIER; LUNA_TIER]; [SOL_TIER; LUNA_TIER];
    [SOL_TIER; TERRA_TIER]; [SOL_TIER; TERRA_TIER; LUNA_TIER]]).
  { subst s. rewrite !filter_cons, filter_nil. repeat case_decide; set_solver. }
  clearbody s. repeat (apply elem_of_cons in Hs as [->|Hs]; [destruct current; simpl; repeat case_bool_decide; try done; by repeat split_if; intros [= <-]|]).
  by apply elem_of_nil in Hs.
Qed.

(** ** Cancellation *)
Module Cancellation.
Definition nul : ascii := Ascii.zero.
Definition identifier_ok (s : string) : bool :=
  truthy (strip s) && (Z.of_nat (String.length s) <=? 500) && negb (existsb (Ascii.eqb nul) (list_ascii_of_string s)).
(** [_validate_identifier] *)
Definition validate_identifier (value name : string) : result string :=
  _ ← check (identifier_ok value) (ValueError (name +:+ " must be a nonempty string of at most 500 characters without NUL"));
  Ok value.
(** The table [market_agent_workflow_cancellations]: its primary keys. *)
Abbreviation Rows := (gset (string * string)).
(** How a transaction of the store ends: committed, failed before its commit, or failed
    after it, so that the write stands although an exception is raised. *)
Inductive Transaction := Committed | Unavailable | LateFailure.
Definition StoreUnavailable : exn := Exn "OperationalError" "cancellation store unavailable".
Definition finish {A} (t : Transaction) (a : A) : result A :=
  match t with Committed => Ok a | Unavailable | LateFailure => Raise StoreUnavailable end.
(** [_SqlCancellationStore.cancel]: the insertion does nothing on a conflict. *)
Definition store_cancel (namespace run_id : string) (t : Transaction) : io Rows unit :=
  run_id ← lift (validate_identifier run_id "run identifier");
  _ ← modify (fun rows => match t with Unavailable => rows | _ => {[(namespace, run_id)]} ∪ rows end);
  lift (finish t tt).
(** [_SqlCancellationStore.is_cancelled] *)
Definition store_is_cancelled (namespace run_id : string) (t : Transaction) : io Rows bool :=
  run_id ← lift (validate_identifier run_id "run identifier");
  found ← read (fun rows => bool_decide ((namespace, run_id) ∈ rows));
  lift (finish t found).
(** A replica's registry: its events and whether they are set, and the namespace of its store. *)
Record Registry := { rg_events : gmap string bool; rg_store : option string }.
(** The replicas, and the table their stores share. *)
Record System := { sy_replicas : gmap nat Registry; sy_rows : Rows }.
Implicit Types (s : System).
Definition registry_of s (i : nat) : Registry := default {| rg_events := ∅; rg_store := None |} (sy_replicas s !! i).
Definition is_set s (i : nat) (run_id : string) : bool := default false (rg_events (registry_of s i) !! run_id).
Definition with_event (i : nat) (run_id : string) (value : bool) s : System :=
  {| sy_replicas := <[i := {| rg_events := <[run_id := value]> (rg_events (registry_of s i)); rg_store := rg_store (registry_of s i) |}]>
                      (sy_replicas s);
     sy_rows := sy_rows s |}.
(** An operation of the store, on the shared table. *)
Definition on_rows {A} (m : io Rows A) : io System A := fun s =>
  let '(rows, r) := m (sy_rows s) in ({| sy_replicas := sy_replicas s; sy_rows := rows |}, r).
(** [WorkflowCancellationRegistry.signal]: the event is there afterwards. *)
Definition signal (i : nat) (run_id : string) : io System unit :=
  _ ← lift (validate_identifier run_id "run identifier");
  modify (fun s => with_event i run_id (is_set s i run_id) s).
(** [WorkflowCancellationRegistry.cancel] *)
Definition cancel (i : nat) (run_id : string) (t : Transaction) : io System unit :=
  _ ← signal i run_id;
  store ← read (fun s => rg_store (registry_of s i));
  _ ← match store with Some namespace => on_rows (store_cancel namespace run_id t) | None => mret tt end;
  modify (with_event i run_id true).
(** [try: m except Exception: True] *)
Definition or_true (m : io System bool) : io System bool := fun s =>
  match m s with (s, Ok b) => (s, Ok b) | (s, Raise _) => (s, Ok true) end.
(** [CancellationSignal.is_cancelled] of the signal of a replica. *)
Definition is_cancelled (i : nat) (run_id : string) (t : Transaction) : io System bool :=
  event ← read (fun s => is_set s i run_id);
  if event : bool then mret true
  else
    store ← read (fun s => rg_store (registry_of s i));
    match store with
    | None => mret false
    | Some namespace => or_true (on_rows (store_is_cancelled namespace run_id t))
    end.
Inductive Op := Signal (i : nat) (run_id : string) | Cancel (i : nat) (run_id : string) (t : Transaction)
  | IsCancelled (i : nat) (run_id : string) (t : Transaction).
Definition run_op (o : Op) s : System :=
  match o with
  | Signal i run_id => (signal i run_id s).1
  | Cancel i run_id t => (cancel i run_id t s).1
  | IsCancelled i run_id t => (is_cancelled i run_id t s).1
  end.
Definition run_ops (ops : list Op) s : System := fold_left (fun s o => run_op o s) ops s.

(** *** What it should report

    [history] is what was done, in any order.  A cancellation sets the event of its replica
    when its store let it, and writes its row unless the store failed before the commit. *)
Definition sets_event (store : nat -> option string) (j : nat) (run_id : string) (o : Op) : bool :=
  match o with
  | Cancel i r t => bool_decide (i = j /\ r = run_id) && identifier_ok r &&
                    match store i, t with Some _, (Unavailable | LateFailure) => false | _, _ => true end
  | _ => false
  end.
Definition writes_row (store : nat -> option string) (namespace run_id : string) (o : Op) : bool :=
  match o with
  | Cancel i r t => bool_decide (store i = Some namespace /\ r = run_id) && identifier_ok r &&
                    match t with Unavailable => false | _ => true end
  | _ => false
  end.
Definition should_report (store : nat -> option string) (history : list Op) (j : nat) (run_id : string) (t : Transaction) : bool :=
  existsb (sets_event store j run_id) history ||
  match store j with
  | None => false
  | Some namespace => match t with Committed => existsb (writes_row store namespace run_id) history | _ => true end
  end.

(** *** That it does *)
Definition stores s (j : nat) : option string := rg_store (registry_of s j).
Lemma registry_with_event i run_id v s j :
  registry_of (with_event i run_id v s) j =
    if bool_decide (i = j) then {| rg_events := <[run_id := v]> (rg_events (registry_of s i)); rg_store := rg_store (registry_of s i) |}
    else registry_of s j.
Proof. unfold registry_of at 1. simpl. case_bool_decide as H; [by subst; rewrite lookup_insert_eq|by rewrite lookup_insert_ne]. Qed.
Lemma with_event_store i run_id v s j : stores (with_event i run_id v s) j = stores s j.
Proof. unfold stores. rewrite registry_with_event. by case_bool_decide; subst. Qed.
Lemma with_event_set i run_id v s j run_id' :
  is_set (with_event i run_id v s) j run_id' = if bool_decide (i = j /\ run_id = run_id') then v else is_set s j run_id'.
Proof.
  unfold is_set. rewrite registry_with_event. case_bool_decide as H1; case_bool_decide as H2; subst; try tauto; simpl.
  - destruct H2 as [_ ->]. by rewrite lookup_insert_eq.
  - rewrite lookup_insert_ne; [done|]. intros ->. tauto.
Qed.
(** The system [s] is what [history] made of the stores [store]. *)
Definition follows (store : nat -> option string) (history : list Op) s : Prop :=
  (forall j, stores s j = store j) /\
  (forall j run_id, is_set s j run_id = existsb (sets_event store j run_id) history) /\
  forall namespace run_id, bool_decide ((namespace, run_id) ∈ sy_rows s) = existsb (writes_row store namespace run_id) history.
(** Touching an event keeps everything. *)
Lemma follows_touch store history i run_id s : follows store history s -> follows store history (with_event i run_id (is_set s i run_id) s).
Proof.
  intros (Hs & He & Hr). split; [intros j; by rewrite with_event_store|]. split; [|done]. intros j run_id'. rewrite with_event_set.
  case_bool_decide as E; [|done]. destruct E as [-> ->]. done.
Qed.
Lemma follows_skip store history o s : follows store history s ->
  (forall j run_id, sets_event store j run_id o = false) -> (forall namespace run_id, writes_row store namespace run_id o = false) ->
  follows store (o :: history) s.
Proof. intros (Hs & He & Hr) H1 H2. split; [done|]. split; intros; simpl; [by rewrite H1, He|by rewrite H2, Hr]. Qed.
Lemma signal_run i run_id s : signal i run_id s =
  if identifier_ok run_id then (with_event i run_id (is_set s i run_id) s, Ok tt)
  else (s, Raise (ValueError "run identifier must be a nonempty string of at most 500 characters without NUL")).
Proof. unfold signal, validate_identifier, mbind, io_bind, lift, check. by destruct (identifier_ok run_id). Qed.
Definition add_row (namespace run_id : string) s : System :=
  {| sy_replicas := sy_replicas s; sy_rows := {[(namespace, run_id)]} ∪ sy_rows s |}.
(** What a cancellation of a valid run does to the system, once its event is there. *)
Definition cancel_effect i (run_id : string) (t : Transaction) s : System :=
  match stores s i, t with
  | None, _ => with_event i run_id true s
  | Some namespace, Committed => with_event i run_id true (add_row namespace run_id s)
  | Some namespace, LateFailure => add_row namespace run_id s
  | Some _, Unavailable => s
  end.
Lemma cancel_run i run_id t s :
  (cancel i run_id t s).1 = if identifier_ok run_id then cancel_effect i run_id t (with_event i run_id (is_set s i run_id) s) else s.
Proof.
  unfold cancel, mbind, io_bind. rewrite signal_run. destruct (identifier_ok run_id) eqn:Hid; [|done].
  unfold cancel_effect, read. set (s1 := with_event _ _ _ s). unfold stores. destruct (rg_store (registry_of s1 i)) as [namespace|]; [|done].
  unfold on_rows, store_cancel, validate_identifier, mbind, io_bind, lift, modify, check. rewrite Hid. simpl. destruct t; simpl; [done| |done].
  reflexivity.
Qed.
Lemma follows_cancel store history i run_id t s : follows store history s -> identifier_ok run_id = true ->
  follows store (Cancel i run_id t :: history) (cancel_effect i run_id t s).
Proof.
  intros (Hs & He & Hr) Hid. unfold cancel_effect. rewrite Hs.
  assert (Hrow : forall namespace ns r, bool_decide ((ns, r) ∈ ({[(namespace, run_id)]} ∪ sy_rows s : Rows)) =
            bool_decide (Some namespace = Some ns /\ run_id = r) || bool_decide ((ns, r) ∈ sy_rows s)).
  { intros namespace ns r. apply eq_true_iff_eq. rewrite orb_true_iff, !bool_decide_eq_true. set_solver. }
  destruct (store i) as [namespace|] eqn:Ei; [destruct t|].
  - split; [intros j; rewrite with_event_store; apply Hs|]. split.
    + intros j r. rewrite with_event_set. simpl. rewrite Hid, Ei, !andb_true_r. case_bool_decide; [done|apply He].
    + intros ns r. simpl. rewrite Hid, Ei, !andb_true_r, Hrow, Hr. done.
  - split; [done|]. split; [intros j r; simpl; by rewrite Ei, andb_false_r, He|intros ns r; simpl; by rewrite andb_false_r, Hr].
  - split; [intros j; apply Hs|]. split; [intros j r; simpl; rewrite Ei, andb_false_r; apply He|].
    intros ns r. simpl. rewrite Hid, Ei, !andb_true_r, Hrow, Hr. done.
  - split; [intros j; rewrite with_event_store; apply Hs|]. split.
    + intros j r. rewrite with_event_set. simpl. rewrite Hid, Ei, !andb_true_r. case_bool_decide; [done|apply He].
    + intros ns r. simpl. rewrite Ei, (bool_decide_false (None = Some ns /\ run_id = r)) by (by intros [? _]). simpl. apply Hr.
Qed.
Lemma store_reads namespace run_id t rows : store_is_cancelled namespace run_id t rows =
  (rows, _ ← validate_identifier run_id "run identifier"; finish t (bool_decide ((namespace, run_id) ∈ rows))).
Proof. unfold store_is_cancelled, validate_identifier, mbind, io_bind, result_bind, lift, read, check. by destruct (identifier_ok run_id). Qed.
Lemma is_cancelled_reads i run_id t s : (is_cancelled i run_id t s).1 = s.
Proof.
  unfold is_cancelled, mbind, io_bind, read. destruct (is_set s i run_id); [done|]. destruct (rg_store _); [|done].
  unfold or_true, on_rows. rewrite store_reads. destruct s. simpl. by destruct (validate_identifier _ _), t.
Qed.
Lemma run_op_follows store history o s : follows store history s -> follows store (o :: history) (run_op o s).
Proof.
  intros H. destruct o as [i run_id|i run_id t|i run_id t]; simpl.
  - rewrite signal_run. apply follows_skip; [|done|done]. destruct (identifier_ok run_id); [by apply follows_touch|done].
  - rewrite cancel_run. destruct (identifier_ok run_id) eqn:Hid; [apply follows_cancel; [by apply follows_touch|done]|].
    apply follows_skip; [done| |]; intros; simpl; by rewrite Hid, andb_false_r.
  - rewrite is_cancelled_reads. by apply follows_skip.
Qed.
Lemma run_ops_follows store history ops s : follows store history s -> follows store (rev ops ++ history) (run_ops ops s).
Proof.
  revert history s. induction ops as [|o ops IH]; intros history s H; [done|]. simpl. rewrite <- app_assoc. by apply IH, run_op_follows.
Qed.
(** Replicas that have just started, and an empty table. *)
Definition started (s : System) : Prop := sy_rows s = ∅ /\ forall j, rg_events (registry_of s j) = ∅.
Lemma started_follows s : started s -> follows (stores s) [] s.
Proof.
  intros [Hr He]. split; [done|]. split; [intros j r; unfold is_set; by rewrite He|].
  intros ns r. rewrite Hr. simpl. apply bool_decide_false. set_solver.
Qed.

(** C30. Whatever the replicas did since they started, in any order and whatever became of
    their store, a signal of a run reports a cancellation exactly when it should: when the
    run was cancelled on its replica, when a replica with a store of the same namespace wrote
    its cancellation, even one whose caller saw an error, or when its own store cannot be
    read now.  No cancellation is lost on another replica, and none is made up. *)
Theorem cancellation_is_reported_exactly s ops j run_id t :
  started s -> identifier_ok run_id = true ->
  (is_cancelled j run_id t (run_ops ops s)).2 = Ok (should_report (stores s) (rev ops) j run_id t).
Proof.
  intros H Hid. apply started_follows in H. apply (run_ops_follows _ [] ops) in H. rewrite app_nil_r in H. destruct H as (Hs & He & Hr).
  unfold is_cancelled, should_report, mbind, io_bind, read. rewrite He. destruct (existsb _ _); [done|]. simpl.
  change (rg_store (registry_of (run_ops ops s) j)) with (stores (run_ops ops s) j). rewrite Hs.
  destruct (stores s j) as [namespace|]; [|done]. unfold or_true, on_rows. rewrite store_reads. unfold validate_identifier, check. rewrite Hid. simpl.
  rewrite Hr. by destruct t.
Qed.
(** Two replicas of one namespace: a cancellation on the first is read on the second. *)
Definition replica (namespace : string) : Registry := {| rg_events := ∅; rg_store := Some namespace |}.
Definition two : System := {| sy_replicas := {[0%nat := replica "prod"; 1%nat := replica "prod"]}; sy_rows := ∅ |}.
Lemma two_started : started two.
Proof.
  split; [done|]. intros j. unfold registry_of, two. simpl. destruct (decide (j = 0%nat)) as [->|]; [by rewrite lookup_insert_eq|].
  rewrite lookup_insert_ne by done. destruct (decide (j = 1%nat)) as [->|]; [by rewrite lookup_singleton_eq|]. by rewrite lookup_singleton_ne.
Qed.
Lemma cancellation_is_reported_exactly_witness :
  (is_cancelled 1 "run" Committed (run_ops [Signal 1 "run"; Cancel 0 "run" LateFailure; Cancel 0 "other" Unavailable] two)).2 = Ok true /\
  (is_cancelled 1 "other" Committed (run_ops [Signal 1 "run"; Cancel 0 "run" LateFailure; Cancel 0 "other" Unavailable] two)).2 = Ok false.
Proof.
  split.
  - exact (cancellation_is_reported_exactly two _ 1 "run" Committed two_started eq_refl).
  - exact (cancellation_is_reported_exactly two _ 1 "other" Committed two_started eq_refl).
Defined.
End Cancellation.
