(* ===== verification/ConfidenceGate.v ===== *)
(** * The confidence gate: market_agent/workflow_confidence_calibration.py

    The policy that lets a run end in success: an artifact signed by the host, pinned
    by the trusted policy, over evidence whose records the host accepted.  Everything
    the gate hashes is an explicit JSON value; [sha256] of its canonical rendering and
    the signature verifier are parameters.  The theorems say that the gate answers
    "succeed" exactly when every condition holds, and that the signed payload
    determines the artifact. *)
From stdpp Require Import pretty.
From S2P Require Import Prelude PyStrings PyDict PyRegex PyDecimal PyDecimalGrid PyDecimalText PyJson PyModel.
Local Open Scope string_scope.
Local Open Scope list_scope.
Local Open Scope Z_scope.

Definition CalibrationError (msg : string) : exn := Exn "CalibrationError" msg.

(** ** Confidence decimals *)
Inductive FeatureName := required_evidence_coverage | required_source_coverage | conflict_resolution.
#[export] Instance FeatureName_eq_dec : EqDecision FeatureName.
Proof. solve_decision. Defined.
Definition feature_text (f : FeatureName) : string :=
  match f with
  | required_evidence_coverage => "required_evidence_coverage"
  | required_source_coverage => "required_source_coverage"
  | conflict_resolution => "conflict_resolution"
  end.
Definition FEATURE_ORDER : list FeatureName := [required_evidence_coverage; required_source_coverage; conflict_resolution].
Definition SUCCESS : decimal := Dec false 85 (-2).
Definition RECOVERY : decimal := Dec false 45 (-2).
(** The digits of [_CTX]; it rounds to the floor and traps every rounding. *)
Definition CTX_PREC : Z := 34.
Definition adjusted (d : decimal) : Z := d_exp d + ndigits (d_coef d) - 1.
(** [_dec]; the unary plus in [_CTX] is exact on at most 28 digits. *)
Definition confidence_decimal : cleaner decimal := fun d =>
  if (0 <=? d_coef d) && (ndigits (d_coef d) <=? 28) && (-18 <=? adjusted d) && (adjusted d <=? 0) &&
     (-18 <=? d_exp d) && (d_exp d <=? 0)
  then Ok d else Raise (CalibrationError "invalid confidence decimal").
(** [a + b] in [_CTX]. *)
Definition ctx_add (a b : decimal) : result decimal :=
  let m := common a b in
  let s := scaled m a + scaled m b in
  if s =? 0 then Ok (Dec (if xorb (d_neg a) (d_neg b) then true else d_neg a && d_neg b) 0 m)
  else if ndigits (Z.abs s) <=? CTX_PREC then Ok (Dec (s <? 0) (Z.abs s) m)
  else Raise (Exn "Inexact" "").
(** [intercept + sum(coefficients, Decimal(0))] *)
Definition ctx_sum (intercept : decimal) (coefficients : list decimal) : result decimal :=
  total ← foldl (fun acc c => acc ← acc; ctx_add acc c) (Ok ZERO) coefficients;
  ctx_add intercept total.
Definition unit_interval (d : decimal) : bool := dec_leb ZERO d && dec_leb d ONE.

(** ** Contracts *)
Record ConfidenceFeatureSpec := { fs_feature_name : FeatureName; fs_coefficient : decimal }.
Record AcceptedEvidenceRecord := { ae_evidence_id : string; ae_source_id : string; ae_required_slot_id : string; ae_provenance_hash : string }.
Record ConflictRecord := { cr_conflict_id : string; cr_evidence_ids : list string; cr_resolved : bool; cr_provenance_hash : string }.
Record SourceRegistryRecord := { sr_source_id : string; sr_registry_hash : string; sr_enabled : bool }.
Record ConfidenceFoldedState := {
  fo_completed_dependency_ids : list string; fo_valid_output_field_paths : list string;
  fo_satisfied_risk_invariant_ids : list string; fo_event_fold_hash : string }.
Record ConfidenceTargetSnapshot := {
  tg_required_dependency_ids : list string; tg_required_output_field_paths : list string;
  tg_required_evidence_slot_ids : list string; tg_required_source_ids : list string;
  tg_known_conflict_slot_ids : list string; tg_risk_invariant_ids : list string }.
Record ConfidenceObservation := {
  ob_applicability_domain : string; ob_targets : ConfidenceTargetSnapshot;
  ob_accepted_evidence : list AcceptedEvidenceRecord; ob_conflicts : list ConflictRecord;
  ob_source_registry : list SourceRegistryRecord; ob_folded_state : ConfidenceFoldedState;
  ob_accepted_record_snapshot_hash : string; ob_provenance_snapshot_hash : string;
  ob_model_confidence : option decimal }.
Record ConfidenceCalibratorArtifact := {
  ca_artifact_id : string; ca_schema_hash : string; ca_policy_hash : string; ca_dataset_hash : string;
  ca_applicability_domains : list string; ca_feature_specs : list ConfidenceFeatureSpec; ca_intercept : decimal;
  ca_issued_epoch : Z; ca_expires_epoch : Z; ca_key_id : string; ca_artifact_hash : string; ca_signature : string }.
Record TrustedConfidencePolicy := {
  tp_artifact_id : string; tp_artifact_hash : string; tp_schema_hash : string; tp_policy_hash : string;
  tp_dataset_hash : string; tp_key_id : string; tp_applicability_domain : string;
  tp_accepted_record_snapshot_hash : string; tp_provenance_snapshot_hash : string;
  tp_feature_order : list FeatureName; tp_issued_epoch : Z; tp_expires_epoch : Z }.
Record HardGateSnapshot := {
  hg_permission : bool; hg_risk : bool; hg_budget : bool; hg_loop : bool; hg_evidence : bool; hg_audit_integrity : bool;
  hg_run_id : string; hg_trace_hash : string; hg_plan_revision : Z; hg_policy_hash : string }.
Inductive RequestClass := RC_informational | RC_active | RC_trading.
#[export] Instance RequestClass_eq_dec : EqDecision RequestClass.
Proof. solve_decision. Defined.
Record TrustedRequestContext := {
  rc_request_class : RequestClass; rc_evaluation_epoch : Z; rc_recovery_used : bool; rc_hard_gates : HardGateSnapshot }.
Record ConfidenceFeatureVector := { fv_artifact_hash : string; fv_features : list (FeatureName * decimal) }.
Inductive NextAction := succeed | one_recovery | safe_retrieval | degrade_unknown | degrade_no_trade.
#[export] Instance NextAction_eq_dec : EqDecision NextAction.
Proof. solve_decision. Defined.
Inductive ConfidenceReason := calibrated | calibration_unavailable | hard_gate_blocked.
#[export] Instance ConfidenceReason_eq_dec : EqDecision ConfidenceReason.
Proof. solve_decision. Defined.
Record ConfidenceDecision := {
  cd_score : option decimal; cd_feature_vector : option ConfidenceFeatureVector; cd_artifact_hash : option string;
  cd_may_succeed : bool; cd_next_action : NextAction; cd_reason_code : ConfidenceReason }.

Definition validate_feature_spec : cleaner ConfidenceFeatureSpec := fun f =>
  v ← confidence_decimal (fs_coefficient f);
  _ ← check (unit_interval v) (CalibrationError "invalid confidence artifact");
  Ok {| fs_feature_name := fs_feature_name f; fs_coefficient := v |}.
Definition validate_evidence : cleaner AcceptedEvidenceRecord := fun e =>
  id ← ShortText (ae_evidence_id e); source ← ShortText (ae_source_id e); slot ← ShortText (ae_required_slot_id e);
  hash ← Digest (ae_provenance_hash e);
  Ok {| ae_evidence_id := id; ae_source_id := source; ae_required_slot_id := slot; ae_provenance_hash := hash |}.
Definition clean_conflict : cleaner ConflictRecord := fun c =>
  id ← ShortText (cr_conflict_id c);
  ids ← min_length 1 (max_length 64 (tuple_of ShortText)) (cr_evidence_ids c);
  hash ← Digest (cr_provenance_hash c);
  Ok {| cr_conflict_id := id; cr_evidence_ids := ids; cr_resolved := cr_resolved c; cr_provenance_hash := hash |}.
Definition validate_conflict : cleaner ConflictRecord :=
  model clean_conflict (fun c => check (unique (cr_evidence_ids c)) (CalibrationError "invalid conflict")).
Definition validate_source : cleaner SourceRegistryRecord := fun s =>
  id ← ShortText (sr_source_id s); hash ← Digest (sr_registry_hash s);
  Ok {| sr_source_id := id; sr_registry_hash := hash; sr_enabled := sr_enabled s |}.
Definition Ids64 : cleaner (list string) := max_length 64 (tuple_of ShortText).
Definition validate_folded : cleaner ConfidenceFoldedState := fun f =>
  dependencies ← Ids64 (fo_completed_dependency_ids f); paths ← Ids64 (fo_valid_output_field_paths f);
  invariants ← Ids64 (fo_satisfied_risk_invariant_ids f); hash ← Digest (fo_event_fold_hash f);
  Ok {| fo_completed_dependency_ids := dependencies; fo_valid_output_field_paths := paths;
        fo_satisfied_risk_invariant_ids := invariants; fo_event_fold_hash := hash |}.
Definition clean_target : cleaner ConfidenceTargetSnapshot := fun t =>
  dependencies ← Ids64 (tg_required_dependency_ids t); paths ← Ids64 (tg_required_output_field_paths t);
  slots ← Ids64 (tg_required_evidence_slot_ids t); sources ← Ids64 (tg_required_source_ids t);
  conflicts ← Ids64 (tg_known_conflict_slot_ids t); invariants ← Ids64 (tg_risk_invariant_ids t);
  Ok {| tg_required_dependency_ids := dependencies; tg_required_output_field_paths := paths;
        tg_required_evidence_slot_ids := slots; tg_required_source_ids := sources;
        tg_known_conflict_slot_ids := conflicts; tg_risk_invariant_ids := invariants |}.
Definition target_lists (t : ConfidenceTargetSnapshot) : list (list string) :=
  [tg_required_dependency_ids t; tg_required_output_field_paths t; tg_required_evidence_slot_ids t;
   tg_required_source_ids t; tg_known_conflict_slot_ids t; tg_risk_invariant_ids t].
Definition validate_target : cleaner ConfidenceTargetSnapshot :=
  model clean_target (fun t => check (forallb unique (target_lists t)) (CalibrationError "invalid confidence targets")).
Definition validate_observation : cleaner ConfidenceObservation := fun o =>
  domain ← ShortText (ob_applicability_domain o); targets ← validate_target (ob_targets o);
  evidence ← max_length 64 (tuple_of validate_evidence) (ob_accepted_evidence o);
  conflicts ← max_length 64 (tuple_of validate_conflict) (ob_conflicts o);
  sources ← max_length 64 (tuple_of validate_source) (ob_source_registry o);
  folded ← validate_folded (ob_folded_state o);
  accepted ← Digest (ob_accepted_record_snapshot_hash o); provenance ← Digest (ob_provenance_snapshot_hash o);
  confidence ← optional confidence_decimal (ob_model_confidence o);
  Ok {| ob_applicability_domain := domain; ob_targets := targets; ob_accepted_evidence := evidence;
        ob_conflicts := conflicts; ob_source_registry := sources; ob_folded_state := folded;
        ob_accepted_record_snapshot_hash := accepted; ob_provenance_snapshot_hash := provenance;
        ob_model_confidence := confidence |}.
Definition clean_artifact : cleaner ConfidenceCalibratorArtifact := fun a =>
  id ← ShortText (ca_artifact_id a); schema ← Digest (ca_schema_hash a); policy ← Digest (ca_policy_hash a);
  dataset ← Digest (ca_dataset_hash a);
  domains ← min_length 1 (max_length 16 (tuple_of ShortText)) (ca_applicability_domains a);
  specs ← min_length 3 (max_length 3 (tuple_of validate_feature_spec)) (ca_feature_specs a);
  intercept ← confidence_decimal (ca_intercept a);
  key ← ShortText (ca_key_id a); hash ← Digest (ca_artifact_hash a); signature ← Digest (ca_signature a);
  Ok {| ca_artifact_id := id; ca_schema_hash := schema; ca_policy_hash := policy; ca_dataset_hash := dataset;
        ca_applicability_domains := domains; ca_feature_specs := specs; ca_intercept := intercept;
        ca_issued_epoch := ca_issued_epoch a; ca_expires_epoch := ca_expires_epoch a; ca_key_id := key;
        ca_artifact_hash := hash; ca_signature := signature |}.
Definition artifact_score (a : ConfidenceCalibratorArtifact) : result decimal :=
  ctx_sum (ca_intercept a) (fs_coefficient <$> ca_feature_specs a).
(** [ConfidenceCalibratorArtifact.va] *)
Definition check_artifact (a : ConfidenceCalibratorArtifact) : result unit :=
  total ← artifact_score a;
  raise_when (negb (bool_decide ((fs_feature_name <$> ca_feature_specs a) = FEATURE_ORDER)) || (ca_issued_epoch a <? 0) ||
              (ca_expires_epoch a <=? ca_issued_epoch a) || dec_ltb ONE total)
    (CalibrationError "invalid calibration artifact").
Definition validate_artifact : cleaner ConfidenceCalibratorArtifact := model clean_artifact check_artifact.
Definition clean_trusted_policy : cleaner TrustedConfidencePolicy := fun p =>
  id ← ShortText (tp_artifact_id p); hash ← Digest (tp_artifact_hash p); schema ← Digest (tp_schema_hash p);
  policy ← Digest (tp_policy_hash p); dataset ← Digest (tp_dataset_hash p); key ← ShortText (tp_key_id p);
  domain ← ShortText (tp_applicability_domain p); accepted ← Digest (tp_accepted_record_snapshot_hash p);
  provenance ← Digest (tp_provenance_snapshot_hash p);
  Ok {| tp_artifact_id := id; tp_artifact_hash := hash; tp_schema_hash := schema; tp_policy_hash := policy;
        tp_dataset_hash := dataset; tp_key_id := key; tp_applicability_domain := domain;
        tp_accepted_record_snapshot_hash := accepted; tp_provenance_snapshot_hash := provenance;
        tp_feature_order := tp_feature_order p; tp_issued_epoch := tp_issued_epoch p; tp_expires_epoch := tp_expires_epoch p |}.
Definition validate_trusted_policy : cleaner TrustedConfidencePolicy :=
  model clean_trusted_policy (fun p =>
    raise_when (negb (bool_decide (tp_feature_order p = FEATURE_ORDER)) || (tp_issued_epoch p <? 0) ||
                (tp_expires_epoch p <=? tp_issued_epoch p)) (CalibrationError "invalid trusted confidence policy")).
Definition clean_hard_gates : cleaner HardGateSnapshot := fun g =>
  run ← ShortText (hg_run_id g); trace ← Digest (hg_trace_hash g); policy ← Digest (hg_policy_hash g);
  Ok {| hg_permission := hg_permission g; hg_risk := hg_risk g; hg_budget := hg_budget g; hg_loop := hg_loop g;
        hg_evidence := hg_evidence g; hg_audit_integrity := hg_audit_integrity g; hg_run_id := run;
        hg_trace_hash := trace; hg_plan_revision := hg_plan_revision g; hg_policy_hash := policy |}.
Definition validate_hard_gates : cleaner HardGateSnapshot :=
  model clean_hard_gates (fun g => raise_when (hg_plan_revision g <? 0) (CalibrationError "invalid hard gate snapshot")).
Definition clean_request_context : cleaner TrustedRequestContext := fun c =>
  gates ← validate_hard_gates (rc_hard_gates c);
  Ok {| rc_request_class := rc_request_class c; rc_evaluation_epoch := rc_evaluation_epoch c;
        rc_recovery_used := rc_recovery_used c; rc_hard_gates := gates |}.
Definition validate_request_context : cleaner TrustedRequestContext :=
  model clean_request_context (fun c => raise_when (rc_evaluation_epoch c <? 0) (CalibrationError "invalid request context")).
Definition validate_feature_vector : cleaner ConfidenceFeatureVector := fun v =>
  hash ← Digest (fv_artifact_hash v);
  features ← min_length 3 (max_length 3 (tuple_of (fun f : FeatureName * decimal =>
    value ← confidence_decimal f.2;
    _ ← check (unit_interval value) (CalibrationError "invalid feature value");
    Ok (f.1, value)))) (fv_features v);
  _ ← check (bool_decide (features.*1 = FEATURE_ORDER)) (CalibrationError "invalid confidence feature vector");
  Ok {| fv_artifact_hash := hash; fv_features := features |}.
(** [ConfidenceDecision.bounded_score] and [decision_shape] *)
Definition decision_shape (d : ConfidenceDecision) : bool :=
  let scored := is_Some_b (cd_score d) in
  let vectored := is_Some_b (cd_feature_vector d) in
  let hashed := is_Some_b (cd_artifact_hash d) in
  let is_calibrated := bool_decide (cd_reason_code d = calibrated) in
  eqb (cd_may_succeed d) (bool_decide (cd_next_action d = succeed)) &&
  negb (cd_may_succeed d && negb is_calibrated) &&
  negb (is_calibrated && (negb scored || negb vectored || negb hashed ||
        negb (bool_decide ((fv_artifact_hash <$> cd_feature_vector d) = cd_artifact_hash d)))) &&
  negb (cd_may_succeed d && (negb scored || negb vectored)) &&
  negb (negb (cd_may_succeed d) && negb is_calibrated && (scored || vectored || hashed)).
Definition bounded_score : cleaner decimal := fun d =>
  value ← confidence_decimal d;
  _ ← check (unit_interval value) (CalibrationError "invalid confidence decision");
  Ok value.
Definition validate_decision : cleaner ConfidenceDecision := fun d =>
  score ← optional bounded_score (cd_score d);
  hash ← optional Digest (cd_artifact_hash d);
  let d := {| cd_score := score; cd_feature_vector := cd_feature_vector d; cd_artifact_hash := hash;
              cd_may_succeed := cd_may_succeed d; cd_next_action := cd_next_action d; cd_reason_code := cd_reason_code d |} in
  _ ← check (decision_shape d) (CalibrationError "invalid confidence decision");
  Ok d.
(** [_fallback] *)
Definition fallback (c : option RequestClass) (reason : ConfidenceReason) : ConfidenceDecision :=
  {| cd_score := None; cd_feature_vector := None; cd_artifact_hash := None; cd_may_succeed := false;
     cd_next_action := if bool_decide (c = Some RC_informational) then safe_retrieval else degrade_no_trade;
     cd_reason_code := reason |}.

(** ** What is hashed and what is signed

    [_canon]: the values whose canonical rendering is hashed, keys in sorted order. *)
Definition texts (l : list string) : Json := JList (JStr <$> l).
Definition sorted_texts (l : list string) : list string := sort_by String.leb l.
Definition evidence_json (e : AcceptedEvidenceRecord) : Json :=
  JObject [("accepted_by_host", JBool true); ("evidence_id", JStr (ae_evidence_id e));
           ("provenance_hash", JStr (ae_provenance_hash e)); ("required_slot_id", JStr (ae_required_slot_id e));
           ("schema_version", JStr "v1"); ("source_id", JStr (ae_source_id e))].
Definition source_json (s : SourceRegistryRecord) : Json :=
  JObject [("enabled", JBool (sr_enabled s)); ("registry_hash", JStr (sr_registry_hash s));
           ("schema_version", JStr "v1"); ("source_id", JStr (sr_source_id s))].
Definition folded_json (f : ConfidenceFoldedState) : Json :=
  JObject [("completed_dependency_ids", texts (fo_completed_dependency_ids f)); ("event_fold_hash", JStr (fo_event_fold_hash f));
           ("satisfied_risk_invariant_ids", texts (fo_satisfied_risk_invariant_ids f)); ("schema_version", JStr "v1");
           ("valid_output_field_paths", texts (fo_valid_output_field_paths f))].
(** [sorted(..., key=str)]; no float is among the values. *)
Definition str_leb (a b : Json) : bool := String.leb (py_str (fun _ => "") a) (py_str (fun _ => "") b).
(** The order of tuples: a conflict's id, resolution, evidence and provenance. *)
Fixpoint texts_compare (l k : list string) : comparison :=
  match l, k with
  | [], [] => Eq
  | [], _ => Lt
  | _, [] => Gt
  | x :: l, y :: k => match String.compare x y with Eq => texts_compare l k | c => c end
  end.
Definition bool_compare (a b : bool) : comparison :=
  match a, b with false, true => Lt | true, false => Gt | _, _ => Eq end.
Definition conflict_leb (a b : ConflictRecord) : bool :=
  match String.compare (cr_conflict_id a) (cr_conflict_id b) with
  | Eq => match bool_compare (cr_resolved a) (cr_resolved b) with
          | Eq => match texts_compare (sorted_texts (cr_evidence_ids a)) (sorted_texts (cr_evidence_ids b)) with
                  | Eq => String.leb (cr_provenance_hash a) (cr_provenance_hash b)
                  | Lt => true | Gt => false end
          | Lt => true | Gt => false end
  | Lt => true | Gt => false
  end.
Definition conflict_json (c : ConflictRecord) : Json :=
  JList [JStr (cr_conflict_id c); JBool (cr_resolved c); texts (sorted_texts (cr_evidence_ids c)); JStr (cr_provenance_hash c)].
Definition accepted_content (o : ConfidenceObservation) : Json :=
  JObject [("evidence", JList (sort_by str_leb (evidence_json <$> ob_accepted_evidence o)));
           ("folded", folded_json (ob_folded_state o));
           ("sources", JList (sort_by str_leb (source_json <$> ob_source_registry o)))].
Definition provenance_content (o : ConfidenceObservation) : Json :=
  JObject [("conflicts", JList (conflict_json <$> sort_by conflict_leb (ob_conflicts o)));
           ("evidence", texts (sorted_texts (ae_provenance_hash <$> ob_accepted_evidence o)));
           ("sources", texts (sorted_texts (sr_registry_hash <$> ob_source_registry o)))].
Definition feature_json (f : ConfidenceFeatureSpec) : Json :=
  JObject [("coefficient", JStr (decimal_text (fs_coefficient f))); ("feature_name", JStr (feature_text (fs_feature_name f)));
           ("missing_value_behavior", JStr "fail_closed"); ("monotonicity", JStr "increasing");
           ("normalization", JStr "unit_interval"); ("schema_version", JStr "v1")].
(** [artifact_payload] before its rendering: every field but the signature. *)
Definition artifact_payload (a : ConfidenceCalibratorArtifact) : Json :=
  JObject [("applicability_domains", texts (ca_applicability_domains a)); ("artifact_hash", JStr (ca_artifact_hash a));
           ("artifact_id", JStr (ca_artifact_id a)); ("artifact_version", JStr "v1"); ("dataset_hash", JStr (ca_dataset_hash a));
           ("expires_epoch", JInt (ca_expires_epoch a)); ("feature_specs", JList (feature_json <$> ca_feature_specs a));
           ("intercept", JStr (decimal_text (ca_intercept a))); ("issued_epoch", JInt (ca_issued_epoch a));
           ("key_id", JStr (ca_key_id a)); ("policy_hash", JStr (ca_policy_hash a)); ("schema_hash", JStr (ca_schema_hash a));
           ("schema_version", JStr "v1")].

(** ** The gate *)
Record ConfidenceGate := {
  cg_sealed : bool; cg_context : option TrustedRequestContext; cg_policy : option TrustedConfidencePolicy }.
(** What a verifier did: it may answer a bool, answer something else, or raise. *)
Inductive Verdict := V_bool (valid : bool) | V_other | V_raises.

Section Gate.
Context (json_digest : Json -> string) (verify : string -> Json -> string -> Verdict).

Definition confidence_snapshot_hashes (o : ConfidenceObservation) : string * string :=
  (json_digest (accepted_content o), json_digest (provenance_content o)).
(** [ConfidenceGate.__init__] with arguments of the exact types; [None] stands for one that is not. *)
Definition new_gate (policy : option TrustedConfidencePolicy) (context : option TrustedRequestContext) (callable : bool)
    : ConfidenceGate :=
  let none := {| cg_sealed := true; cg_context := None; cg_policy := None |} in
  match policy, context with
  | Some policy, Some context =>
      if negb callable then none
      else match validate_trusted_policy policy with
      | Raise _ => none
      | Ok policy =>
          match validate_request_context context with
          | Raise _ => {| cg_sealed := true; cg_context := None; cg_policy := Some policy |}
          | Ok context => {| cg_sealed := false; cg_context := Some context; cg_policy := Some policy |}
          end
      end
  | _, _ => none
  end.
Definition trusted_context_snapshot (g : ConfidenceGate) : option TrustedRequestContext :=
  if cg_sealed g then None
  else match cg_context g with
  | Some c => match validate_request_context c with Ok c => Some c | Raise _ => None end
  | None => None
  end.
Definition trusted_policy_snapshot (g : ConfidenceGate) : option TrustedConfidencePolicy :=
  if cg_sealed g then None
  else match cg_policy g with
  | Some p => match validate_trusted_policy p with Ok p => Some p | Raise _ => None end
  | None => None
  end.
Definition gates_open (g : HardGateSnapshot) (p : TrustedConfidencePolicy) : bool :=
  hg_permission g && hg_risk g && hg_budget g && hg_loop g && hg_evidence g && hg_audit_integrity g &&
  bool_decide (hg_policy_hash g = tp_policy_hash p).
(** The test of an untrusted artifact, negated. *)
Definition trusted (o : ConfidenceObservation) (a : ConfidenceCalibratorArtifact) (p : TrustedConfidencePolicy)
    (epoch : Z) (signature_valid : bool) : bool :=
  bool_decide (ca_artifact_id a = tp_artifact_id p) && bool_decide (ca_artifact_hash a = tp_artifact_hash p) &&
  bool_decide (ca_schema_hash a = tp_schema_hash p) && bool_decide (ca_policy_hash a = tp_policy_hash p) &&
  bool_decide (ca_dataset_hash a = tp_dataset_hash p) && bool_decide (ca_key_id a = tp_key_id p) &&
  bool_decide ((fs_feature_name <$> ca_feature_specs a) = tp_feature_order p) &&
  (ca_issued_epoch a =? tp_issued_epoch p) && (ca_expires_epoch a =? tp_expires_epoch p) &&
  bool_decide (ob_applicability_domain o = tp_applicability_domain p) &&
  bool_decide (ob_applicability_domain o ∈ ca_applicability_domains a) &&
  bool_decide (confidence_snapshot_hashes o = (ob_accepted_record_snapshot_hash o, ob_provenance_snapshot_hash o)) &&
  bool_decide (ob_accepted_record_snapshot_hash o = tp_accepted_record_snapshot_hash p) &&
  bool_decide (ob_provenance_snapshot_hash o = tp_provenance_snapshot_hash p) &&
  (ca_issued_epoch a <=? epoch) && (epoch <=? ca_expires_epoch a) && signature_valid.
Definition subset (l k : list string) : bool := forallb (fun x => bool_decide (x ∈ k)) l.
Definition same_set (l k : list string) : bool := subset l k && subset k l.
(** [{slots[s].source_id for s in slots_required}]: the dictionary keeps the last record of a slot. *)
Definition slot_source (o : ConfidenceObservation) (slot : string) : option string :=
  ae_source_id <$> dict_get (dict_of ((fun e => (ae_required_slot_id e, e)) <$> ob_accepted_evidence o)) slot.
(** The test of incomplete metadata, negated. *)
Definition complete (o : ConfidenceObservation) : bool :=
  let t := ob_targets o in
  let evidence := ae_evidence_id <$> ob_accepted_evidence o in
  let slots := ae_required_slot_id <$> ob_accepted_evidence o in
  let sources := sr_source_id <$> ob_source_registry o in
  let conflicts := cr_conflict_id <$> ob_conflicts o in
  unique evidence && unique slots && unique sources && unique conflicts &&
  forallb sr_enabled (ob_source_registry o) &&
  forallb (fun e => bool_decide (ae_source_id e ∈ sources)) (ob_accepted_evidence o) &&
  same_set slots (tg_required_evidence_slot_ids t) && same_set sources (tg_required_source_ids t) &&
  same_set (omap (slot_source o) (tg_required_evidence_slot_ids t)) (tg_required_source_ids t) &&
  same_set (tg_known_conflict_slot_ids t) conflicts &&
  forallb (fun c => cr_resolved c && subset (cr_evidence_ids c) evidence) (ob_conflicts o) &&
  subset (tg_required_dependency_ids t) (fo_completed_dependency_ids (ob_folded_state o)) &&
  subset (tg_required_output_field_paths t) (fo_valid_output_field_paths (ob_folded_state o)) &&
  subset (tg_risk_invariant_ids t) (fo_satisfied_risk_invariant_ids (ob_folded_state o)).
(** [_decide] *)
Definition calibrated_decision (s : decimal) (v : ConfidenceFeatureVector) (ok : bool) (action : NextAction) : result ConfidenceDecision :=
  validate_decision {| cd_score := Some s; cd_feature_vector := Some v; cd_artifact_hash := Some (fv_artifact_hash v);
                       cd_may_succeed := ok; cd_next_action := action; cd_reason_code := calibrated |}.
Definition decide_score (c : RequestClass) (p : TrustedConfidencePolicy) (score : decimal) (recovered : bool)
    (vector : ConfidenceFeatureVector) : ConfidenceDecision :=
  let decided :=
    v ← validate_feature_vector vector;
    if negb (bool_decide (fv_artifact_hash v = tp_artifact_hash p)) then Ok (fallback (Some c) calibration_unavailable)
    else
      s ← confidence_decimal score;
      if dec_leb SUCCESS s then calibrated_decision s v true succeed
      else if dec_leb RECOVERY s && negb recovered then calibrated_decision s v false one_recovery
      else calibrated_decision s v false (if bool_decide (c = RC_informational) then degrade_unknown else degrade_no_trade) in
  match decided with Ok d => d | Raise _ => fallback (Some c) calibration_unavailable end.
(** The body of [evaluate] after the signature check. *)
Definition scored (c : TrustedRequestContext) (p : TrustedConfidencePolicy) (o : ConfidenceObservation)
    (a : ConfidenceCalibratorArtifact) (signature_valid : bool) : ConfidenceDecision :=
  let class := Some (rc_request_class c) in
  let decided :=
    _ ← check (trusted o a p (rc_evaluation_epoch c) signature_valid) (CalibrationError "untrusted artifact");
    _ ← check (complete o) (CalibrationError "incomplete host metadata");
    v ← validate_feature_vector {| fv_artifact_hash := ca_artifact_hash a; fv_features := (fun n => (n, ONE)) <$> FEATURE_ORDER |};
    score ← artifact_score a;
    Ok (decide_score (rc_request_class c) p score (rc_recovery_used c) v) in
  match decided with Ok d => d | Raise _ => fallback class calibration_unavailable end.
(** [evaluate]; an argument of another type is [None]. *)
Definition evaluate (g : ConfidenceGate) (observation : option ConfidenceObservation)
    (artifact : option ConfidenceCalibratorArtifact) : ConfidenceDecision * ConfidenceGate :=
  let sealed := {| cg_sealed := true; cg_context := cg_context g; cg_policy := cg_policy g |} in
  match cg_sealed g, cg_context g, cg_policy g with
  | false, Some c, Some p =>
      let class := Some (rc_request_class c) in
      match observation ≫= (fun o => match validate_observation o with Ok o => Some o | Raise _ => None end),
            artifact ≫= (fun a => match validate_artifact a with Ok a => Some a | Raise _ => None end) with
      | Some o, Some a =>
          if negb (gates_open (rc_hard_gates c) p) then (fallback class hard_gate_blocked, g)
          else match verify (ca_key_id a) (artifact_payload a) (ca_signature a) with
          | V_bool signature_valid => (scored c p o a signature_valid, g)
          | V_other | V_raises => (fallback None calibration_unavailable, sealed)
          end
      | _, _ => (fallback class calibration_unavailable, g)
      end
  | _, _, _ => (fallback None calibration_unavailable, g)
  end.
End Gate.

(** ** Confidence decimals are exact in the context *)
Definition PLACES : Z := -18.
Definition LIMIT : Z := 10 ^ 19.
Lemma confidence_decimal_Ok d d' :
  confidence_decimal d = Ok d' <->
  d' = d /\ on_grid PLACES d /\ ndigits (d_coef d) <= 28 /\ -18 <= adjusted d <= 0 /\ d_exp d <= 0.
Proof.
  unfold confidence_decimal. split.
  - split_if; [|done]. intros [= <-]. to_prop. unfold on_grid, PLACES; repeat split; lia.
  - intros (-> & [Hc He] & Hn & [Ha Hb] & Hx). unfold PLACES in He.
    rewrite !(proj2 (Z.leb_le _ _)) by lia. done.
Qed.
#[export] Instance confidence_decimal_idem : Idem confidence_decimal.
Proof. intros x y H. pose proof (proj1 (confidence_decimal_Ok _ _) H) as (-> & _). done. Qed.
Lemma confidence_units d : on_grid PLACES d -> adjusted d <= 0 -> Z.abs (units PLACES d) < LIMIT.
Proof.
  intros [Hc He] Ha. unfold units. rewrite scaled_abs by done. unfold adjusted in Ha.
  destruct (ndigits_bounds (d_coef d) Hc) as [_ Hn]. pose proof (pow10_pos (d_exp d - PLACES) ltac:(lia)).
  apply Z.lt_le_trans with (10 ^ ndigits (d_coef d) * 10 ^ (d_exp d - PLACES)); [nia|].
  unfold PLACES in *. destruct (ndigits_bounds (d_coef d) Hc) as [H1 _].
  rewrite <- Z.pow_add_r by lia. apply Z.pow_le_mono_r; lia.
Qed.
Lemma ctx_add_exact a b : on_grid PLACES a -> on_grid PLACES b -> Z.abs (units PLACES a + units PLACES b) < 10 ^ CTX_PREC ->
  exists c, ctx_add a b = Ok c /\ on_grid PLACES c /\ units PLACES c = units PLACES a + units PLACES b /\
            (d_exp a <= 0 -> d_exp b <= 0 -> d_exp c <= 0).
Proof.
  intros [Ha Hea] [Hb Heb] Hw. unfold ctx_add. set (m := common a b). assert (Hm : PLACES <= m) by (unfold m, common; lia).
  destruct (common_le a b) as [Hma Hmb]. fold m in Hma, Hmb. unfold units in *.
  rewrite (scaled_shift m PLACES a), (scaled_shift m PLACES b) in * by done.
  set (s := scaled m a + scaled m b). pose proof (pow10_pos (m - PLACES) ltac:(lia)) as Hp.
  rewrite <- Z.mul_add_distr_r in *. fold s in Hw. fold s.
  destruct (Z.eqb_spec s 0) as [Hs|Hs].
  - eexists. split; [done|]. split; [by split|]. split; [|by simpl; lia]. rewrite Hs. unfold scaled. cbn [d_neg d_coef d_exp].
    by destruct (xorb _ _), (d_neg a), (d_neg b).
  - rewrite Z.abs_mul, (Z.abs_eq (10 ^ (m - PLACES))) in Hw by lia.
    rewrite (proj2 (Z.leb_le _ CTX_PREC)) by (apply ndigits_le; [nia|done]).
    eexists. split; [done|]. split; [split; simpl; lia|]. split; [|by simpl; lia]. unfold scaled at 1. cbn [d_neg d_coef d_exp].
    destruct (Z.ltb_spec s 0); lia.
Qed.
Definition sum_units (l : list decimal) : Z := foldr (fun d acc => units PLACES d + acc) 0 l.
Definition small (d : decimal) : Prop := on_grid PLACES d /\ Z.abs (units PLACES d) < LIMIT /\ d_exp d <= 0.
Lemma confidence_small d d' : confidence_decimal d = Ok d' -> small d'.
Proof. intros (-> & Hg & _ & [_ Ha] & He)%confidence_decimal_Ok. split; [done|]. split; [by apply confidence_units|done]. Qed.
Lemma ctx_fold_exact l : Forall small l -> forall acc, on_grid PLACES acc -> d_exp acc <= 0 ->
  Z.abs (units PLACES acc) + Z.of_nat (length l) * LIMIT < 10 ^ CTX_PREC ->
  exists c, foldl (fun acc c => acc ← acc; ctx_add acc c) (Ok acc) l = Ok c /\ on_grid PLACES c /\ d_exp c <= 0 /\
            units PLACES c = units PLACES acc + sum_units l /\ Z.abs (units PLACES c) <= Z.abs (units PLACES acc) + Z.of_nat (length l) * LIMIT.
Proof.
  induction 1 as [|d l (Hg & Hd & Hx) _ IH]; intros acc Ha He Hw; cbn [foldl sum_units foldr length].
  { exists acc. repeat split; try done; simpl; try lia; apply Ha. }
  assert (0 < LIMIT) by done. cbn [length] in Hw. rewrite Nat2Z.inj_succ, Z.mul_succ_l in *.
  destruct (ctx_add_exact acc d Ha Hg) as (c & Ec & Gc & Uc & Xc); [lia|].
  cbn [mbind result_bind]. rewrite Ec. destruct (IH c Gc (Xc He Hx)) as (r & Er & Gr & Xr & Ur & Br); [lia|].
  exists r. split; [done|]. repeat split; try done; try apply Gr; fold (sum_units l); lia.
Qed.
Lemma ctx_sum_exact i l : small i -> Forall small l -> (length l <= 16)%nat ->
  exists c, ctx_sum i l = Ok c /\ on_grid PLACES c /\ d_exp c <= 0 /\ units PLACES c = units PLACES i + sum_units l.
Proof.
  intros (Hg & Hi & Hx) Hl Hn. unfold ctx_sum.
  assert (HB : LIMIT + (LIMIT + 16 * LIMIT) < 10 ^ CTX_PREC) by done.
  destruct (ctx_fold_exact l Hl ZERO) as (t & -> & Gt & Xt & Ut & Bt); [by apply units_zero|done|..].
  { rewrite (proj2 (units_zero PLACES ltac:(done))). simpl. nia. }
  rewrite (proj2 (units_zero PLACES ltac:(done))) in *. simpl in Bt.
  cbn [mbind result_bind]. destruct (ctx_add_exact i t Hg Gt) as (c & Ec & Gc & Uc & Xc); [nia|].
  exists c. split; [done|]. split; [done|]. split; [by apply Xc|]. lia.
Qed.

(** ** What success requires *)
Lemma subset_spec l k : subset l k = true <-> (forall x, x ∈ l -> x ∈ k).
Proof.
  unfold subset. rewrite forallb_forall. setoid_rewrite bool_decide_eq_true.
  split; intros H x Hx; apply H; [by apply list_elem_of_In|by apply list_elem_of_In in Hx].
Qed.
Lemma same_set_spec l k : same_set l k = true <-> (forall x, x ∈ l <-> x ∈ k).
Proof. unfold same_set. rewrite andb_true_iff, !subset_spec. naive_solver. Qed.
Lemma forallb_elem {A} (f : A -> bool) l : forallb f l = true <-> (forall x, x ∈ l -> f x = true).
Proof. rewrite forallb_forall. split; intros H x Hx; apply H; [by apply list_elem_of_In|by apply list_elem_of_In in Hx]. Qed.

(** The metadata of an observation, as sets of records. *)
Record completeness (o : ConfidenceObservation) : Prop := {
  co_evidence : NoDup (ae_evidence_id <$> ob_accepted_evidence o);
  co_slots : NoDup (ae_required_slot_id <$> ob_accepted_evidence o);
  co_sources : NoDup (sr_source_id <$> ob_source_registry o);
  co_conflicts : NoDup (cr_conflict_id <$> ob_conflicts o);
  co_enabled : forall s, s ∈ ob_source_registry o -> sr_enabled s = true;
  co_registered : forall e, e ∈ ob_accepted_evidence o -> ae_source_id e ∈ sr_source_id <$> ob_source_registry o;
  co_every_slot : forall slot, slot ∈ tg_required_evidence_slot_ids (ob_targets o) <->
    exists e, e ∈ ob_accepted_evidence o /\ ae_required_slot_id e = slot;
  co_every_source : forall source, source ∈ tg_required_source_ids (ob_targets o) <->
    exists s, s ∈ ob_source_registry o /\ sr_source_id s = source;
  co_source_used : forall source, source ∈ tg_required_source_ids (ob_targets o) ->
    exists e, e ∈ ob_accepted_evidence o /\ ae_source_id e = source;
  co_conflict_known : forall id, id ∈ tg_known_conflict_slot_ids (ob_targets o) <->
    exists c, c ∈ ob_conflicts o /\ cr_conflict_id c = id;
  co_resolved : forall c, c ∈ ob_conflicts o -> cr_resolved c = true /\
    forall id, id ∈ cr_evidence_ids c -> exists e, e ∈ ob_accepted_evidence o /\ ae_evidence_id e = id;
  co_dependencies : forall id, id ∈ tg_required_dependency_ids (ob_targets o) ->
    id ∈ fo_completed_dependency_ids (ob_folded_state o);
  co_paths : forall path, path ∈ tg_required_output_field_paths (ob_targets o) ->
    path ∈ fo_valid_output_field_paths (ob_folded_state o);
  co_invariants : forall id, id ∈ tg_risk_invariant_ids (ob_targets o) ->
    id ∈ fo_satisfied_risk_invariant_ids (ob_folded_state o) }.
Lemma fmap_elem {A} (f : A -> string) (l : list A) x : x ∈ f <$> l <-> exists a, a ∈ l /\ f a = x.
Proof. rewrite list_elem_of_fmap. naive_solver. Qed.
Lemma slot_source_spec o slot source : NoDup (ae_required_slot_id <$> ob_accepted_evidence o) ->
  slot_source o slot = Some source <-> exists e, e ∈ ob_accepted_evidence o /\ ae_required_slot_id e = slot /\ ae_source_id e = source.
Proof.
  intros Hn. unfold slot_source. set (l := (fun e => (ae_required_slot_id e, e)) <$> ob_accepted_evidence o).
  assert (Hl : NoDup l.*1) by (unfold l; by rewrite <- list_fmap_compose).
  rewrite dict_of_get by done. rewrite fmap_Some. setoid_rewrite (dict_get_elem l slot _ Hl). unfold l.
  setoid_rewrite list_elem_of_fmap. naive_solver.
Qed.
Lemma complete_spec o : complete o = true <-> completeness o.
Proof.
  unfold complete. rewrite !andb_true_iff, !unique_true, !same_set_spec, !subset_spec, !forallb_elem.
  setoid_rewrite bool_decide_eq_true. setoid_rewrite andb_true_iff. setoid_rewrite subset_spec.
  setoid_rewrite list_elem_of_omap. setoid_rewrite fmap_elem. split.
  - intros (((((((((((((H1 & H2) & H3) & H4) & H5) & H6) & H7) & H8) & H9) & H10) & H11) & H12) & H13) & H14).
    setoid_rewrite (slot_source_spec o _ _ H2) in H9.
    constructor; try done; try (intros e He; by apply fmap_elem, H6); try (intros x; by rewrite <- H7 || by rewrite <- H8 || by rewrite H10).
    intros source Hs. apply H9 in Hs as (slot & _ & e & He & _ & Hsrc). eauto.
  - intros []. setoid_rewrite (slot_source_spec o _ _ co_slots0).
    repeat match goal with |- _ /\ _ => split end; try done.
    + intros e He. by apply fmap_elem, co_registered0.
    + intros x. split; [|intros Hx; destruct (co_source_used0 x Hx) as (e & He & Hs)].
      * intros (slot & Hslot & e & He & _ & <-). apply co_every_source0. by apply fmap_elem, co_registered0.
      * exists (ae_required_slot_id e). split; [apply co_every_slot0; eauto|eauto].
Qed.

Section Earned.
Context (json_digest : Json -> string) (verify : string -> Json -> string -> Verdict).
(** The artifact is the policy's, field by field. *)
Definition pinned (a : ConfidenceCalibratorArtifact) (p : TrustedConfidencePolicy) : Prop :=
  ca_artifact_id a = tp_artifact_id p /\ ca_artifact_hash a = tp_artifact_hash p /\ ca_schema_hash a = tp_schema_hash p /\
  ca_policy_hash a = tp_policy_hash p /\ ca_dataset_hash a = tp_dataset_hash p /\ ca_key_id a = tp_key_id p /\
  (fs_feature_name <$> ca_feature_specs a) = tp_feature_order p /\
  ca_issued_epoch a = tp_issued_epoch p /\ ca_expires_epoch a = tp_expires_epoch p.
Record earned (c : TrustedRequestContext) (p : TrustedConfidencePolicy) (o : ConfidenceObservation)
    (a : ConfidenceCalibratorArtifact) : Prop := {
  er_gates : hg_permission (rc_hard_gates c) = true /\ hg_risk (rc_hard_gates c) = true /\ hg_budget (rc_hard_gates c) = true /\
    hg_loop (rc_hard_gates c) = true /\ hg_evidence (rc_hard_gates c) = true /\ hg_audit_integrity (rc_hard_gates c) = true /\
    hg_policy_hash (rc_hard_gates c) = tp_policy_hash p;
  er_signature : verify (ca_key_id a) (artifact_payload a) (ca_signature a) = V_bool true;
  er_pinned : pinned a p;
  er_domain : ob_applicability_domain o = tp_applicability_domain p /\ ob_applicability_domain o ∈ ca_applicability_domains a;
  er_accepted : json_digest (accepted_content o) = ob_accepted_record_snapshot_hash o /\
    ob_accepted_record_snapshot_hash o = tp_accepted_record_snapshot_hash p;
  er_provenance : json_digest (provenance_content o) = ob_provenance_snapshot_hash o /\
    ob_provenance_snapshot_hash o = tp_provenance_snapshot_hash p;
  er_epoch : ca_issued_epoch a <= rc_evaluation_epoch c <= ca_expires_epoch a;
  er_complete : completeness o;
  er_score : units PLACES SUCCESS <= units PLACES (ca_intercept a) + sum_units (fs_coefficient <$> ca_feature_specs a) }.

Lemma trusted_spec o a p epoch valid :
  trusted json_digest o a p epoch valid = true <->
  pinned a p /\ (ob_applicability_domain o = tp_applicability_domain p /\ ob_applicability_domain o ∈ ca_applicability_domains a) /\
  (json_digest (accepted_content o) = ob_accepted_record_snapshot_hash o /\ ob_accepted_record_snapshot_hash o = tp_accepted_record_snapshot_hash p) /\
  (json_digest (provenance_content o) = ob_provenance_snapshot_hash o /\ ob_provenance_snapshot_hash o = tp_provenance_snapshot_hash p) /\
  ca_issued_epoch a <= epoch <= ca_expires_epoch a /\ valid = true.
Proof.
  unfold trusted, pinned, confidence_snapshot_hashes. rewrite !andb_true_iff, !bool_decide_eq_true, !Z.eqb_eq, !Z.leb_le, pair_eq. tauto.
Qed.
Lemma leb_units a b : on_grid PLACES a -> on_grid PLACES b -> dec_leb a b = true <-> units PLACES a <= units PLACES b.
Proof. intros [_ Ha] [_ Hb]. by apply dec_leb_at. Qed.
Lemma confidence_constants : on_grid PLACES ZERO /\ on_grid PLACES ONE /\ on_grid PLACES SUCCESS /\ on_grid PLACES RECOVERY.
Proof. by unfold on_grid. Qed.

(** What a validated artifact is. *)
Record artifact_facts (a : ConfidenceCalibratorArtifact) (t : decimal) : Prop := {
  af_hash : Digest (ca_artifact_hash a) = Ok (ca_artifact_hash a);
  af_score : artifact_score a = Ok t;
  af_grid : on_grid PLACES t; af_exp : d_exp t <= 0;
  af_units : units PLACES t = units PLACES (ca_intercept a) + sum_units (fs_coefficient <$> ca_feature_specs a);
  af_bound : units PLACES t <= units PLACES ONE;
  af_specs : Forall small (fs_coefficient <$> ca_feature_specs a);
  af_intercept : small (ca_intercept a) }.
Lemma validate_feature_spec_small f g : validate_feature_spec f = Ok g -> small (fs_coefficient g).
Proof. unfold validate_feature_spec. intros H. inv_ok H. subst g. by eapply confidence_small. Qed.
Lemma validated_artifact a0 a : validate_artifact a0 = Ok a -> exists t, artifact_facts a t.
Proof.
  unfold validate_artifact. rewrite model_Ok. intros [H Hv]. unfold clean_artifact in H. inv_ok H. subst a.
  assert (Hs : Forall small (fs_coefficient <$> a6) /\ length a6 = 3%nat).
  { unfold min_length, max_length in Hok4. destruct (_ <=? _) eqn:E1 in Hok4; [|done].
    destruct (_ <=? _) eqn:E2 in Hok4; [|done]. pose proof (tuple_of_length _ _ _ Hok4) as Hl. to_prop. split; [|lia].
    unfold tuple_of in Hok4. apply mapM_Ok in Hok4. clear -Hok4. induction Hok4; constructor; [|done].
    by eapply validate_feature_spec_small. }
  destruct Hs as [Hs Hl]. apply confidence_small in Hok5.
  destruct (ctx_sum_exact a7 (fs_coefficient <$> a6) Hok5 Hs) as (t & Et & Gt & Xt & Ut); [rewrite length_fmap; lia|].
  exists t. unfold check_artifact, artifact_score in Hv. cbn [ca_intercept ca_feature_specs] in Hv. rewrite Et in Hv.
  cbn [mbind result_bind] in Hv. apply raise_when_Ok in Hv. apply orb_false_iff in Hv as [_ Hv].
  constructor; try done; cbn.
  - by eapply Digest_idem.
  - rewrite (units_ltb PLACES) in Hv by (done || apply confidence_constants). by apply Z.ltb_ge in Hv.
Qed.
Lemma score_is_decimal t : on_grid PLACES t -> d_exp t <= 0 -> 0 < units PLACES t <= units PLACES ONE ->
  confidence_decimal t = Ok t /\ bounded_score t = Ok t.
Proof.
  intros Hg He Hu. assert (Hc : confidence_decimal t = Ok t).
  { apply confidence_decimal_Ok. pose proof (units_abs PLACES t Hg) as Ha. destruct Hg as [Hc Hx].
    assert (Hn : ndigits (d_coef t) <= 1 - d_exp t).
    { apply ndigits_le; [|lia]. split; [done|]. unfold units in Hu.
      pose proof (scaled_abs PLACES t Hc Hx) as Hs. rewrite Z.abs_eq in Hs by lia. rewrite Hs in Hu.
      assert (E : units PLACES ONE = 10 ^ (- d_exp t) * 10 ^ (d_exp t - PLACES)).
      { rewrite <- Z.pow_add_r by (unfold PLACES in *; lia). replace (- d_exp t + (d_exp t - PLACES)) with (- PLACES) by lia. done. }
      unfold units in E. rewrite E in Hu. pose proof (pow10_pos (d_exp t - PLACES) ltac:(lia)).
      replace (1 - d_exp t) with (Z.succ (- d_exp t)) by lia. rewrite Z.pow_succ_r by lia.
      pose proof (pow10_pos (- d_exp t) ltac:(lia)). nia. }
    destruct (ndigits_bounds (d_coef t) Hc) as [H1 _]. unfold adjusted, PLACES in *.
    split; [done|]. split; [split; lia|]. lia. }
  split; [done|]. unfold bounded_score. rewrite Hc. cbn [mbind result_bind]. unfold unit_interval.
  destruct confidence_constants as (GZ & GO & _).
  rewrite (proj2 (leb_units ZERO t GZ Hg)), (proj2 (leb_units t ONE Hg GO)); [done|lia|]. change (units PLACES ZERO) with 0. lia.
Qed.
Lemma ones_are_valid hash : Digest hash = Ok hash ->
  validate_feature_vector {| fv_artifact_hash := hash; fv_features := (fun n => (n, ONE)) <$> FEATURE_ORDER |} =
  Ok {| fv_artifact_hash := hash; fv_features := (fun n => (n, ONE)) <$> FEATURE_ORDER |}.
Proof. intros H. unfold validate_feature_vector. cbn [fv_artifact_hash fv_features]. rewrite H. vm_compute. reflexivity. Qed.
Lemma calibrated_shape s v ok action : bounded_score s = Ok s -> Digest (fv_artifact_hash v) = Ok (fv_artifact_hash v) ->
  eqb ok (bool_decide (action = succeed)) = true ->
  exists d, calibrated_decision s v ok action = Ok d /\ cd_may_succeed d = ok /\ cd_score d = Some s.
Proof.
  intros Hs Hd He. unfold calibrated_decision, validate_decision. cbn. rewrite Hs. cbn. rewrite Hd. cbn [mbind result_bind].
  unfold decision_shape. cbn. rewrite He, (bool_decide_eq_true_2 (Some _ = Some _)) by done.
  destruct ok; cbn; eexists; (split; [reflexivity|]; split; reflexivity).
Qed.

(** The score decides: at least [SUCCESS] succeeds. *)
Lemma decide_score_spec c p t recovered v :
  v = {| fv_artifact_hash := tp_artifact_hash p; fv_features := (fun n => (n, ONE)) <$> FEATURE_ORDER |} ->
  Digest (tp_artifact_hash p) = Ok (tp_artifact_hash p) ->
  on_grid PLACES t -> d_exp t <= 0 -> units PLACES t <= units PLACES ONE ->
  cd_may_succeed (decide_score c p t recovered v) = true <-> units PLACES SUCCESS <= units PLACES t.
Proof.
  intros -> Hd Hg He Hu. unfold decide_score. rewrite (ones_are_valid _ Hd). cbn [mbind result_bind fv_artifact_hash].
  rewrite (bool_decide_eq_true_2 (tp_artifact_hash p = _)) by done. cbn [negb].
  destruct confidence_constants as (GZ & GO & GS & GR). rewrite <- (leb_units _ _ GS Hg).
  assert (Hlo : 0 < units PLACES SUCCESS) by done.
  split.
  - destruct (confidence_decimal t) as [s|] eqn:Es; [|done]. apply confidence_decimal_Ok in Es as (-> & _).
    cbn [mbind result_bind]. destruct (dec_leb SUCCESS t); [done|].
    destruct (dec_leb RECOVERY t && negb recovered); unfold calibrated_decision, validate_decision; cbn [cd_score cd_artifact_hash];
      (destruct (optional bounded_score _); [|done]); cbn [mbind result_bind]; (destruct (optional Digest _); [|done]);
      cbn [mbind result_bind]; by destruct (check _ _).
  - intros Hs. destruct (score_is_decimal t Hg He) as [Ec Eb].
    { apply (leb_units _ _ GS Hg) in Hs. lia. }
    rewrite Ec. cbn [mbind result_bind]. rewrite Hs.
    destruct (calibrated_shape t {| fv_artifact_hash := tp_artifact_hash p; fv_features := (fun n => (n, ONE)) <$> FEATURE_ORDER |}
      true succeed Eb Hd) as (d & -> & Hm & _); [done|]. done.
Qed.
Lemma scored_spec c p o a t : artifact_facts a t -> forall valid,
  cd_may_succeed (scored json_digest c p o a valid) = true <->
  trusted json_digest o a p (rc_evaluation_epoch c) valid = true /\ complete o = true /\ units PLACES SUCCESS <= units PLACES t.
Proof.
  intros [Hd Hs Hg He Hu Hb _ _] valid. unfold scored.
  destruct (trusted json_digest o a p _ valid) eqn:Et; [|cbn; naive_solver].
  cbn [check mbind result_bind]. destruct (complete o) eqn:Eo; [|cbn; naive_solver]. cbn [check mbind result_bind].
  apply trusted_spec in Et as ((_ & Hh & _) & _).
  rewrite (ones_are_valid _ Hd). cbn [mbind result_bind]. rewrite Hs. cbn [mbind result_bind]. rewrite Hh in *.
  rewrite decide_score_spec by done. tauto.
Qed.
Lemma gates_open_spec g p : gates_open g p = true <->
  hg_permission g = true /\ hg_risk g = true /\ hg_budget g = true /\ hg_loop g = true /\ hg_evidence g = true /\
  hg_audit_integrity g = true /\ hg_policy_hash g = tp_policy_hash p.
Proof. unfold gates_open. rewrite !andb_true_iff, bool_decide_eq_true. tauto. Qed.
(** C5.  The gate answers "succeed" exactly when it is earned: it was not sealed, every
    hard gate of the host is open under the trusted policy, the verifier accepted the
    signature on this artifact's payload, the artifact is the policy's field by field and
    in date, the accepted records and their provenance hash to the digests the policy
    pins, every required slot, source, conflict, dependency, output path and risk
    invariant is accounted for by the host's records, and the exact score, the intercept
    with all three features at one, reaches 0.85. *)
Theorem success_is_earned (g : ConfidenceGate) (o0 : ConfidenceObservation) (a0 : ConfidenceCalibratorArtifact) :
  cd_may_succeed (evaluate json_digest verify g (Some o0) (Some a0)).1 = true <->
  cg_sealed g = false /\
  exists c p o a, cg_context g = Some c /\ cg_policy g = Some p /\
    validate_observation o0 = Ok o /\ validate_artifact a0 = Ok a /\ earned c p o a.
Proof.
  unfold evaluate.
  destruct (cg_sealed g); [by split; [done|intros []]|].
  destruct (cg_context g) as [c|]; [|by split; [done|intros (_ & ? & ? & ? & ? & ? & _)]].
  destruct (cg_policy g) as [p|]; [|by split; [done|intros (_ & ? & ? & ? & ? & _ & ? & _)]].
  cbn [mbind option_bind].
  destruct (validate_observation o0) as [o|] eqn:Eo; [|by split; [done|intros (_ & ? & ? & ? & ? & _ & _ & ? & _)]].
  destruct (validate_artifact a0) as [a|] eqn:Ea; [|by split; [done|intros (_ & ? & ? & ? & ? & _ & _ & _ & ? & _)]].
  destruct (validated_artifact _ _ Ea) as [t Hf]. transitivity (earned c p o a).
  2:{ split; [intros H; split; [done|]; by exists c, p, o, a|]. by intros (_ & ? & ? & ? & ? & [= <-] & [= <-] & [= <-] & [= <-] & ?). }
  pose proof (scored_spec c p o a t Hf) as Hs. rewrite (af_units _ _ Hf) in Hs.
  setoid_rewrite trusted_spec in Hs. setoid_rewrite complete_spec in Hs.
  destruct (gates_open _ _) eqn:Eg; cbn [negb fst].
  2:{ split; [done|]. intros [Hg _ _ _ _ _ _ _ _]. apply gates_open_spec in Hg. congruence. }
  apply gates_open_spec in Eg.
  destruct (verify (ca_key_id a) (artifact_payload a) (ca_signature a)) as [valid| |] eqn:Ev; cbn [fst].
  - rewrite Hs. split.
    + intros ((H1 & H2 & H3 & H4 & H5 & ->) & Hc & Hsc). by constructor.
    + intros [_ Hv H1 H2 H3 H4 H5 Hc Hsc]. rewrite Ev in Hv. injection Hv as ->. tauto.
  - split; [done|]. intros [_ Hv _ _ _ _ _ _ _]. congruence.
  - split; [done|]. intros [_ Hv _ _ _ _ _ _ _]. congruence.
Qed.
End Earned.

(** ** The signature covers the artifact *)
Lemma confidence_text_injective d e d' e' :
  confidence_decimal d' = Ok d -> confidence_decimal e' = Ok e -> decimal_text d = decimal_text e -> d = e.
Proof.
  assert (H : forall d d', confidence_decimal d' = Ok d -> decimal_of (decimal_text d) = Some (Finite d)).
  { clear. intros d d' (-> & [Hc He] & Hn & [Ha Hb] & Hx)%confidence_decimal_Ok. unfold PLACES in He.
    rewrite decimal_text_round_trip; [|done|].
    - f_equal. f_equal. unfold fixed. destruct (Z.leb_spec 0 (d_exp d')); [|done].
      assert (d_exp d' = 0) as E by lia. destruct d'. simpl in *. subst. by rewrite Z.mul_1_r.
    - unfold holdable, adjusted in *. destruct (ndigits_bounds _ Hc). unfold MAX_EMAX, MIN_ETINY. lia. }
  intros Hd He E. pose proof (H _ _ Hd) as H1. pose proof (H _ _ He) as H2. rewrite E in H1. congruence.
Qed.
Lemma texts_injective l k : texts l = texts k -> l = k.
Proof. unfold texts. intros [= H]. revert k H. induction l as [|x l IH]; intros [|y k] [=]; [done|]. subst. f_equal. by apply IH. Qed.
Definition spec_valid (f : ConfidenceFeatureSpec) : Prop := exists d, confidence_decimal d = Ok (fs_coefficient f).
Lemma feature_jsons_injective l : Forall spec_valid l -> forall k, Forall spec_valid k -> feature_json <$> l = feature_json <$> k -> l = k.
Proof.
  induction 1 as [|[f c] l [d Hd] _ IH]; intros k Hk; [by destruct k|].
  destruct Hk as [|[f' c'] k [d' Hd'] Hk]; [done|]. cbn. intros [=E1 E2 E3]. cbn in *.
  f_equal; [|by apply IH]. f_equal; [by destruct f, f'|]. by eapply confidence_text_injective.
Qed.
Lemma validated_artifact_texts a0 a : validate_artifact a0 = Ok a ->
  Forall spec_valid (ca_feature_specs a) /\ exists d, confidence_decimal d = Ok (ca_intercept a).
Proof.
  unfold validate_artifact. rewrite model_Ok. intros [H _]. unfold clean_artifact in H. inv_ok H. subst a. cbn. split; [|eauto].
  unfold min_length, max_length in Hok4. destruct (_ <=? _) in Hok4; [|done]. destruct (_ <=? _) in Hok4; [|done].
  unfold tuple_of in Hok4. apply mapM_Ok in Hok4. clear -Hok4. induction Hok4 as [|f g l k H _ IH]; constructor; [|done].
  unfold validate_feature_spec in H. inv_ok H. subst g. by eexists.
Qed.
(** What the host signs determines the artifact: two validated artifacts with the
    same payload differ at most in their signature, so a signature cannot be moved to an
    artifact with other coefficients, dates, domains or digests. *)
Theorem payload_binds_the_artifact (a0 b0 a b : ConfidenceCalibratorArtifact) :
  validate_artifact a0 = Ok a -> validate_artifact b0 = Ok b -> artifact_payload a = artifact_payload b ->
  ca_signature a = ca_signature b -> a = b.
Proof.
  intros Ha Hb. destruct (validated_artifact_texts _ _ Ha) as [Hsa [da Hda]].
  destruct (validated_artifact_texts _ _ Hb) as [Hsb [db Hdb]]. clear Ha Hb. destruct a, b. cbn in *. unfold artifact_payload. cbn.
  intros [= E1 E2 E3 E4 E5 E6 E7 E8 E9 E10 E11] ->. subst.
  apply (feature_jsons_injective _ Hsa _ Hsb) in E6. pose proof (confidence_text_injective _ _ _ _ Hda Hdb E7) as ->.
  assert (E : texts ca_applicability_domains0 = texts ca_applicability_domains1) by (unfold texts; by rewrite E1).
  apply texts_injective in E. by subst.
Qed.

(** ** A gate that succeeds, and one that does not *)
Module GateExample.
Definition d0 : string := "0000000000000000000000000000000000000000000000000000000000000000".
Definition digest (_ : Json) : string := d0.
Definition accepts (key : string) (_ : Json) (signature : string) : Verdict := V_bool (String.eqb key "host" && String.eqb signature d0).
Definition policy : TrustedConfidencePolicy :=
  {| tp_artifact_id := "calibrator"; tp_artifact_hash := d0; tp_schema_hash := d0; tp_policy_hash := d0; tp_dataset_hash := d0;
     tp_key_id := "host"; tp_applicability_domain := "crypto"; tp_accepted_record_snapshot_hash := d0;
     tp_provenance_snapshot_hash := d0; tp_feature_order := FEATURE_ORDER; tp_issued_epoch := 100; tp_expires_epoch := 200 |}.
Definition context (risk : bool) : TrustedRequestContext :=
  {| rc_request_class := RC_trading; rc_evaluation_epoch := 150; rc_recovery_used := false;
     rc_hard_gates := {| hg_permission := true; hg_risk := risk; hg_budget := true; hg_loop := true; hg_evidence := true;
                         hg_audit_integrity := true; hg_run_id := "run-1"; hg_trace_hash := d0; hg_plan_revision := 0;
                         hg_policy_hash := d0 |} |}.
Definition artifact (third : Z) : ConfidenceCalibratorArtifact :=
  {| ca_artifact_id := "calibrator"; ca_schema_hash := d0; ca_policy_hash := d0; ca_dataset_hash := d0;
     ca_applicability_domains := ["crypto"];
     ca_feature_specs := [{| fs_feature_name := required_evidence_coverage; fs_coefficient := Dec false 3 (-1) |};
                          {| fs_feature_name := required_source_coverage; fs_coefficient := Dec false 3 (-1) |};
                          {| fs_feature_name := conflict_resolution; fs_coefficient := Dec false third (-3) |}];
     ca_intercept := Dec false 5 (-2); ca_issued_epoch := 100; ca_expires_epoch := 200; ca_key_id := "host";
     ca_artifact_hash := d0; ca_signature := d0 |}.
Definition observation (resolved : bool) : ConfidenceObservation :=
  {| ob_applicability_domain := "crypto";
     ob_targets := {| tg_required_dependency_ids := ["plan"]; tg_required_output_field_paths := ["answer"];
                      tg_required_evidence_slot_ids := ["price"; "news"]; tg_required_source_ids := ["feed"];
                      tg_known_conflict_slot_ids := ["c1"]; tg_risk_invariant_ids := [] |};
     ob_accepted_evidence := [{| ae_evidence_id := "e1"; ae_source_id := "feed"; ae_required_slot_id := "price"; ae_provenance_hash := d0 |};
                              {| ae_evidence_id := "e2"; ae_source_id := "feed"; ae_required_slot_id := "news"; ae_provenance_hash := d0 |}];
     ob_conflicts := [{| cr_conflict_id := "c1"; cr_evidence_ids := ["e2"]; cr_resolved := resolved; cr_provenance_hash := d0 |}];
     ob_source_registry := [{| sr_source_id := "feed"; sr_registry_hash := d0; sr_enabled := true |}];
     ob_folded_state := {| fo_completed_dependency_ids := ["plan"; "load"]; fo_valid_output_field_paths := ["answer"];
                           fo_satisfied_risk_invariant_ids := []; fo_event_fold_hash := d0 |};
     ob_accepted_record_snapshot_hash := d0; ob_provenance_snapshot_hash := d0; ob_model_confidence := None |}.
Definition outcome (risk resolved : bool) (third : Z) (verify : string -> Json -> string -> Verdict)
    : NextAction * ConfidenceReason * option decimal * bool :=
  let '(d, g) := evaluate digest verify (new_gate (Some policy) (Some (context risk)) true)
                   (Some (observation resolved)) (Some (artifact third)) in
  (cd_next_action d, cd_reason_code d, cd_score d, cg_sealed g).
Example outcomes :
  [outcome true true 200 accepts; outcome true true 199 accepts; outcome true false 200 accepts;
   outcome false true 200 accepts; outcome true true 200 (fun _ _ _ => V_raises)] =
  [(succeed, calibrated, Some (Dec false 850 (-3)), false); (one_recovery, calibrated, Some (Dec false 849 (-3)), false);
   (degrade_no_trade, calibration_unavailable, None, false); (degrade_no_trade, hard_gate_blocked, None, false);
   (degrade_no_trade, calibration_unavailable, None, true)].
Proof. vm_compute. reflexivity. Qed.
Lemma payload_binds_the_artifact_witness : artifact 200 = artifact 200.
Proof. apply (payload_binds_the_artifact (artifact 200) (artifact 200)); vm_compute; reflexivity. Defined.
End GateExample.
