(* ===== verification/WorkflowPricing.v ===== *)
(** * Prices and policies of the workflow's models: market_agent/openai_usage.py and
    market_agent/workflow_model_routing.py

    The cost of a use of a model, in decimals of the default context, and the fixed
    table of what each node of the workflow may spend.  [cost_of_usage] says what the
    cost is meant to be, and [estimate_exact] that the decimals compute it exactly
    for every use a node can make. *)
From S2P Require Import Prelude PyStrings PyDecimal PyDecimalText PyDecimalGrid.
Local Open Scope string_scope.
Local Open Scope list_scope.
Local Open Scope Z_scope.

(** ** Prices *)
Inductive PricingBand := SHORT | LONG.
#[export] Instance PricingBand_eq_dec : EqDecision PricingBand.
Proof. solve_decision. Defined.
Record ModelPricing := { mp_input : decimal; mp_cached_input : decimal; mp_cache_write : decimal; mp_output : decimal }.
Record UsageTokens := {
  us_input_tokens : Z; us_cached_input_tokens : Z; us_cache_write_tokens : Z; us_output_tokens : Z;
  us_web_search_tool_calls : Z }.
#[export] Instance UsageTokens_eq_dec : EqDecision UsageTokens.
Proof. solve_decision. Defined.
(** [UsageTokens.__post_init__] *)
Definition validate_usage (u : UsageTokens) : result UsageTokens :=
  _ ← check (forallb (Z.leb 0) [us_input_tokens u; us_cached_input_tokens u; us_cache_write_tokens u; us_output_tokens u;
                                us_web_search_tool_calls u])
        (ValueError "usage token counts must be non-negative integers");
  _ ← raise_when (us_input_tokens u <? us_cached_input_tokens u)
        (ValueError "cached input tokens cannot exceed input tokens");
  Ok u.
(** A price in cents. *)
Definition cents (n : Z) : decimal := Dec false n (-2).
Definition pricing (input cached write output : Z) : ModelPricing :=
  {| mp_input := cents input; mp_cached_input := cents cached; mp_cache_write := cents write; mp_output := cents output |}.
Definition WORKFLOW_MODEL_PRICING_USD_PER_1M : list (string * (ModelPricing * ModelPricing)) :=
  [("gpt-5.6-sol", (pricing 400 40 500 2000, pricing 800 80 1000 3000));
   ("gpt-5.6-terra", (pricing 200 20 250 1200, pricing 400 40 500 1800));
   ("gpt-5.6-luna", (pricing 20 2 25 120, pricing 40 4 50 180))].
Definition workflow_model_pricing (model : string) (band : PricingBand) : result ModelPricing :=
  match List.find (fun kv => String.eqb kv.1 model) WORKFLOW_MODEL_PRICING_USD_PER_1M with
  | None => Raise (ValueError "unknown workflow model")
  | Some (_, (short, long)) => Ok (match band with SHORT => short | LONG => long end)
  end.
Definition invalid_tool_price : exn := ValueError "web search tool price must be a non-negative finite decimal".
(** [get_openai_web_search_tool_price_usd_per_1k_decimal]; [raw] is the environment's text, or the default's. *)
Definition DEFAULT_OPENAI_WEB_SEARCH_TOOL_PRICE_USD_PER_1K : string := "10.0".
Definition web_search_tool_price (raw : option string) : result decimal :=
  match decimal_of (strip (default DEFAULT_OPENAI_WEB_SEARCH_TOOL_PRICE_USD_PER_1K raw)) with
  | Some (Finite price) => _ ← raise_when (dec_ltb price ZERO) invalid_tool_price; Ok price
  | _ => Raise invalid_tool_price
  end.
(** The parenthesis of [estimate_workflow_usage_cost]. *)
Definition token_sum (p : ModelPricing) (u : UsageTokens) : decimal :=
  dec_add (dec_add (dec_add (dec_mul (dec_of_Z (us_input_tokens u - us_cached_input_tokens u)) (mp_input p))
                            (dec_mul (dec_of_Z (us_cached_input_tokens u)) (mp_cached_input p)))
                   (dec_mul (dec_of_Z (us_cache_write_tokens u)) (mp_cache_write p)))
          (dec_mul (dec_of_Z (us_output_tokens u)) (mp_output p)).
Definition estimate_workflow_usage_cost (model : string) (band : PricingBand) (usage : UsageTokens) (tool_price : decimal)
    : result decimal :=
  _ ← raise_when (dec_ltb tool_price ZERO) (ValueError "web search tool price must be a non-negative finite decimal");
  pricing ← workflow_model_pricing model band;
  tokens ← dec_div (token_sum pricing usage) (dec_of_Z 1000000);
  tools ← dec_div (dec_mul (dec_of_Z (us_web_search_tool_calls usage)) tool_price) (dec_of_Z 1000);
  Ok (dec_add tokens tools).

(** ** Policies *)
Definition MODELS : list string := ["gpt-5.6-luna"; "gpt-5.6-terra"; "gpt-5.6-sol"].
Definition EFFORTS : list string := ["low"; "medium"; "high"].
Record ModelRouteTier := { rt_model : string; rt_effort : string }.
#[export] Instance ModelRouteTier_eq_dec : EqDecision ModelRouteTier.
Proof. solve_decision. Defined.
Definition validate_tier (t : ModelRouteTier) : result ModelRouteTier :=
  _ ← check (bool_decide (rt_model t ∈ MODELS)) (ValueError "unknown workflow model");
  _ ← check (bool_decide (rt_effort t ∈ EFFORTS)) (ValueError "invalid workflow effort");
  Ok t.
Record AgentExecutionPolicy := {
  po_node_name : string; po_tiers : list ModelRouteTier; po_attempt_timeout_seconds : Z; po_node_timeout_seconds : Z;
  po_maximum_attempts_per_tier : Z; po_maximum_total_attempts : Z; po_maximum_output_tokens : Z;
  po_node_cost_cap : decimal; po_maximum_tool_calls : Z }.
#[export] Instance AgentExecutionPolicy_eq_dec : EqDecision AgentExecutionPolicy.
Proof. solve_decision. Defined.
(** [AgentExecutionPolicy.__post_init__] *)
Definition validate_policy (p : AgentExecutionPolicy) : result AgentExecutionPolicy :=
  _ ← check (truthy (po_node_name p) && negb (Nat.eqb (length (po_tiers p)) 0))
        (ValueError "workflow policy requires a node and tier");
  _ ← raise_when ((po_attempt_timeout_seconds p <=? 0) || (po_node_timeout_seconds p <? po_attempt_timeout_seconds p))
        (ValueError "workflow policy timeout is invalid");
  _ ← raise_when ((po_maximum_attempts_per_tier p <=? 0) || (po_maximum_total_attempts p <=? 0))
        (ValueError "workflow policy attempt cap is invalid");
  _ ← raise_when (po_maximum_attempts_per_tier p * Z.of_nat (length (po_tiers p)) <? po_maximum_total_attempts p)
        (ValueError "workflow policy attempt cap is unreachable");
  _ ← raise_when ((po_maximum_output_tokens p <=? 0) || (po_maximum_tool_calls p <? 0))
        (ValueError "workflow policy output or tool cap is invalid");
  _ ← raise_when (dec_ltb (po_node_cost_cap p) ZERO) (ValueError "workflow policy cost cap is invalid");
  Ok p.
Definition LUNA : ModelRouteTier := {| rt_model := "gpt-5.6-luna"; rt_effort := "low" |}.
Definition TERRA : ModelRouteTier := {| rt_model := "gpt-5.6-terra"; rt_effort := "medium" |}.
Definition SOL : ModelRouteTier := {| rt_model := "gpt-5.6-sol"; rt_effort := "high" |}.
(** [_policy]; the cost cap in cents, which is how the table writes them all. *)
Definition policy (node_name : string) (tiers : list ModelRouteTier)
    (attempt_timeout node_timeout per_tier total output_tokens cap tool_calls : Z) : AgentExecutionPolicy :=
  {| po_node_name := node_name; po_tiers := tiers; po_attempt_timeout_seconds := attempt_timeout;
     po_node_timeout_seconds := node_timeout; po_maximum_attempts_per_tier := per_tier;
     po_maximum_total_attempts := total; po_maximum_output_tokens := output_tokens; po_node_cost_cap := cents cap;
     po_maximum_tool_calls := tool_calls |}.
Definition POLICIES : list AgentExecutionPolicy :=
  [policy "event_filter" [LUNA] 20 55 2 2 600 2 0;
   policy "market_context" [TERRA; LUNA] 60 150 2 3 1200 20 3;
   policy "fundamental" [TERRA; LUNA] 35 95 2 3 900 8 0;
   policy "technical" [TERRA; LUNA] 40 105 2 3 1400 12 0;
   policy "decision_planner" [TERRA; LUNA] 30 85 2 3 1100 10 0;
   policy "escalation" [SOL; TERRA; LUNA] 60 155 2 4 1400 25 0;
   policy "reflect_decision" [LUNA] 20 45 1 1 400 2 0;
   policy "reflect_escalation_if_used" [LUNA] 20 45 1 1 400 2 0;
   policy "reflect_coordinator_summary" [LUNA] 20 45 1 1 400 2 0].
Definition policy_for (node_name : string) : result AgentExecutionPolicy :=
  from_option Ok (Raise (Exn "UnknownWorkflowNodeError" ("unknown workflow node: " +:+ node_name)))
    (List.find (fun p => String.eqb (po_node_name p) node_name) POLICIES).
Lemma policies_are_valid : Forall (fun p => validate_policy p = Ok p) POLICIES.
Proof. repeat constructor. Qed.
Lemma policy_for_In node_name p : policy_for node_name = Ok p -> In p POLICIES.
Proof.
  unfold policy_for. destruct (List.find _ POLICIES) as [q|] eqn:E; [|done]. intros [= <-]. by apply List.find_some in E as [E _].
Qed.
Lemma policy_for_valid node_name p : policy_for node_name = Ok p -> validate_policy p = Ok p.
Proof. intros Hp. pose proof policies_are_valid as H. rewrite List.Forall_forall in H. by eapply H, policy_for_In. Qed.

(** ** Costs are exact

    Counted in [10 ^ GRID] dollars, every cost of this table is whole when the price
    of a tool call has at most [TOOL_PLACES] places. *)
Definition TOOL_PLACES : Z := 9.
Definition GRID : Z := -12.
(** Bounds far above what a provider reports. *)
Definition MAX_TOKENS : Z := 10 ^ 9.
Definition MAX_TOOL_PRICE : Z := 10 ^ 3.
Definition plausible_usage (u : UsageTokens) : Prop :=
  is_ok (validate_usage u) = true /\ us_input_tokens u <= MAX_TOKENS /\ us_cache_write_tokens u <= MAX_TOKENS /\
  us_output_tokens u <= MAX_TOKENS /\ us_web_search_tool_calls u <= MAX_TOKENS.
Definition plausible_tool_price (p : decimal) : Prop :=
  on_grid (- TOOL_PLACES) p /\ 0 <= units (- TOOL_PLACES) p <= MAX_TOOL_PRICE * 10 ^ TOOL_PLACES.
(** The cost of the tokens, in [10 ^ -8] dollars. *)
Definition token_units (p : ModelPricing) (u : UsageTokens) : Z :=
  (us_input_tokens u - us_cached_input_tokens u) * units (-2) (mp_input p) +
  us_cached_input_tokens u * units (-2) (mp_cached_input p) +
  us_cache_write_tokens u * units (-2) (mp_cache_write p) + us_output_tokens u * units (-2) (mp_output p).
(** What a use costs, in [10 ^ GRID] dollars. *)
Definition cost_of_usage (p : ModelPricing) (usage : UsageTokens) (tool_price : decimal) : Z :=
  token_units p usage * 10 ^ 4 + us_web_search_tool_calls usage * units (- TOOL_PLACES) tool_price.
Definition MAX_TOKEN_COST : Z := 12000 * MAX_TOKENS * 10 ^ 4.
Definition MAX_TOOL_COST : Z := 10 ^ 21.
Definition MAX_COST : Z := 10 ^ 22.

Definition price_ok (p : decimal) : Prop := on_grid (-2) p /\ 0 <= units (-2) p <= 3000.
Lemma pricing_bounds model band p : workflow_model_pricing model band = Ok p ->
  price_ok (mp_input p) /\ price_ok (mp_cached_input p) /\ price_ok (mp_cache_write p) /\ price_ok (mp_output p).
Proof.
  unfold workflow_model_pricing. destruct (List.find _ _) as [[m [short long]]|] eqn:E; [|done].
  apply List.find_some in E as [E _]. repeat destruct E as [E|E]; try done.
  all: injection E as <- <- <-; destruct band; intros [= <-]; unfold price_ok, on_grid; cbn; repeat split; done.
Qed.
(** A product of a count of tokens and a price. *)
Lemma token_cost n p : 0 <= n <= MAX_TOKENS -> price_ok p ->
  on_grid (-2) (dec_mul (dec_of_Z n) p) /\ units (-2) (dec_mul (dec_of_Z n) p) = n * units (-2) p /\
  0 <= n * units (-2) p <= 3000 * MAX_TOKENS.
Proof.
  intros Hn [Hp Hu]. destruct (units_of_Z n) as [Hg Hz].
  assert (Hb : 0 <= n * units (-2) p <= 3000 * MAX_TOKENS) by nia.
  destruct (grid_mul 0 (-2) (dec_of_Z n) p Hg Hp) as [H1 H2].
  { rewrite Hz, Z.abs_eq by lia. eapply Z.le_lt_trans; [apply Hb|done]. }
  rewrite Hz in H2. by split.
Qed.
Lemma plausible_counts u : plausible_usage u ->
  0 <= us_input_tokens u - us_cached_input_tokens u <= MAX_TOKENS /\ 0 <= us_cached_input_tokens u <= MAX_TOKENS /\
  0 <= us_cache_write_tokens u <= MAX_TOKENS /\ 0 <= us_output_tokens u <= MAX_TOKENS /\
  0 <= us_web_search_tool_calls u <= MAX_TOKENS.
Proof.
  intros (Hv & H1 & H2 & H3 & H4). unfold validate_usage, check, raise_when in Hv. cbn [forallb] in Hv.
  destruct (_ && _) eqn:Ec in Hv; [|done]. cbn [mbind result_bind] in Hv.
  destruct (_ <? _) eqn:Ei in Hv; [done|]. to_prop. lia.
Qed.
Lemma tokens_exact model band u p : workflow_model_pricing model band = Ok p -> plausible_usage u ->
  exists c, dec_div (token_sum p u) (dec_of_Z 1000000) = Ok c /\ on_grid (-8) c /\ units (-8) c = token_units p u /\
            0 <= token_units p u <= 12000 * MAX_TOKENS.
Proof.
  unfold token_sum, token_units. intros Hp Hu. destruct (plausible_counts u Hu) as (Hn1 & Hn2 & Hn3 & Hn4 & _).
  destruct (pricing_bounds _ _ _ Hp) as (P1 & P2 & P3 & P4).
  destruct (token_cost _ _ Hn1 P1) as (G1 & U1 & B1), (token_cost _ _ Hn2 P2) as (G2 & U2 & B2),
    (token_cost _ _ Hn3 P3) as (G3 & U3 & B3), (token_cost _ _ Hn4 P4) as (G4 & U4 & B4).
  destruct (grid_add_bounded (-2) _ _ _ _ _ _ G1 G2 U1 U2 B1 B2 ltac:(vm_compute; reflexivity)) as (G12 & U12 & B12).
  destruct (grid_add_bounded (-2) _ _ _ _ _ _ G12 G3 U12 U3 B12 B3 ltac:(vm_compute; reflexivity)) as (G123 & U123 & B123).
  destruct (grid_add_bounded (-2) _ _ _ _ _ _ G123 G4 U123 U4 B123 B4 ltac:(vm_compute; reflexivity)) as (Gs & Us & Bs).
  set (total := _ + us_output_tokens u * _) in *. clearbody total.
  assert (Hb : 0 <= total <= 12000 * MAX_TOKENS) by (split; [apply Bs|etrans; [apply Bs|done]]).
  assert (Hw : 12000 * MAX_TOKENS < WIDE) by done.
  destruct (grid_div (-2) 6 _ Gs) as (c & Ed & Gd & Ud); [rewrite Us; lia|unfold PREC; lia|]. rewrite Us in Ud.
  change (10 ^ 6) with 1000000 in Ed. change (-2 - 6) with (-8) in Gd, Ud. exists c. split; [exact Ed|].
  split; [exact Gd|]. split; [exact Ud|exact Hb].
Qed.
Lemma tools_exact calls tool_price : 0 <= calls <= MAX_TOKENS -> plausible_tool_price tool_price ->
  exists c, dec_div (dec_mul (dec_of_Z calls) tool_price) (dec_of_Z 1000) = Ok c /\ on_grid GRID c /\
            units GRID c = calls * units (- TOOL_PLACES) tool_price /\ 0 <= units GRID c <= MAX_TOOL_COST.
Proof.
  intros Hn [Htg Ht]. destruct (units_of_Z calls) as [Gc Uc].
  assert (Hb : 0 <= calls * units (- TOOL_PLACES) tool_price <= MAX_TOOL_COST).
  { split; [by apply Z.mul_nonneg_nonneg; lia|]. transitivity (MAX_TOKENS * (MAX_TOOL_PRICE * 10 ^ TOOL_PLACES)); [|done].
    apply Z.mul_le_mono_nonneg; lia. }
  assert (Hw : MAX_TOOL_COST < WIDE) by (vm_compute; reflexivity).
  destruct (grid_mul 0 (- TOOL_PLACES) _ _ Gc Htg) as [Gm Um]; [rewrite Uc; lia|]. rewrite Uc in Um.
  destruct (grid_div _ 3 _ Gm) as (c & Ed & Gd & Ud); [lia|unfold PREC; lia|]. rewrite Um in Ud.
  change (0 + - TOOL_PLACES - 3) with GRID in Gd, Ud. change (10 ^ 3) with 1000 in Ed. exists c. rewrite Ud.
  split; [exact Ed|]. split; [exact Gd|]. split; [reflexivity|exact Hb].
Qed.
Lemma estimate_exact model band usage tool_price p :
  workflow_model_pricing model band = Ok p -> plausible_usage usage -> plausible_tool_price tool_price ->
  exists c, estimate_workflow_usage_cost model band usage tool_price = Ok c /\
            on_grid GRID c /\ units GRID c = cost_of_usage p usage tool_price /\ 0 <= units GRID c <= MAX_COST.
Proof.
  intros Hp Hu Ht. destruct (units_zero (- TOOL_PLACES) ltac:(done)) as [Gz Uz]. pose proof Ht as [Htg Hb].
  destruct (tokens_exact _ _ _ _ Hp Hu) as (tokens & Et & Gt & Ut & Bt).
  destruct (tools_exact (us_web_search_tool_calls usage) tool_price) as (tools & El & Gl & Ul & Bl);
    [apply (plausible_counts usage Hu)|exact Ht|].
  destruct (units_finer (-8) GRID tokens Gt ltac:(done)) as [Gf Uf]. change (-8 - GRID) with 4 in Uf. rewrite Ut in Uf.
  assert (Bf : 0 <= units GRID tokens <= MAX_TOKEN_COST).
  { rewrite Uf. unfold MAX_TOKEN_COST. split; [apply Z.mul_nonneg_nonneg; [apply Bt|done]|apply Z.mul_le_mono_nonneg_r; [done|apply Bt]]. }
  assert (Hw : MAX_TOKEN_COST + MAX_TOOL_COST < MAX_COST < WIDE) by (split; vm_compute; reflexivity).
  destruct (grid_add_bounded GRID _ _ _ _ _ _ Gf Gl eq_refl eq_refl Bf Bl) as (Gr & Ur & Br); [lia|].
  exists (dec_add tokens tools). split; [|split; [exact Gr|split; [rewrite Ur, Uf, Ul; reflexivity|rewrite Ur; lia]]].
  unfold estimate_workflow_usage_cost.
  apply bind_Ok. exists tt. split; [apply raise_when_Ok; rewrite (units_ltb _ tool_price ZERO Htg Gz), Uz; apply Z.ltb_ge; lia|].
  apply bind_Ok. exists p. split; [exact Hp|]. apply bind_Ok. exists tokens. split; [exact Et|].
  apply bind_Ok. exists tools. split; [exact El|reflexivity].
Qed.
