(* ===== verification/WorkflowBudget.v ===== *)
(** * The workflow's budget: market_agent/workflow_budget.py

    One ledger per workflow: a reservation is admitted against the caps of time,
    attempts and cost of its node and of the workflow, and is closed once, by a
    settlement or a timeout.  Costs are decimals, times binary64 floats of a
    monotonic clock.  A reservation is an object: the ledger recognises its own by
    identity, so every reservation carries the number of the object it is, and the
    ledger the number of its nonce. *)
From S2P Require Import Prelude PyStrings PyDict PyFloat PyDecimal PyDecimalText PyDecimalGrid HarnessContracts WorkflowPricing.
Local Open Scope string_scope.
Local Open Scope list_scope.
Local Open Scope Z_scope.

Definition BudgetExceededError (msg : string) : exn := Exn "BudgetExceededError" msg.
Definition BudgetOverflowError : exn := Exn "BudgetOverflowError" "actual usage exceeds reservation".
Definition ReservationOwnershipError (msg : string) : exn := Exn "ReservationOwnershipError" msg.
Definition ReservationStateError (msg : string) : exn := Exn "ReservationStateError" msg.

(** ** Data *)
Record BudgetReservation := {
  rs_object : Z; rs_reservation_id : string; rs_node_name : string; rs_model : string; rs_band : PricingBand;
  rs_reserved_cost : decimal; rs_deadline_monotonic : spec_float; rs_ledger_nonce : Z; rs_reserved_usage : UsageTokens;
  rs_web_search_tool_price : decimal }.
Record BudgetSettlement := { se_reservation_id : string; se_charged_cost : decimal; se_timeout : bool }.
Record NodeBudget := {
  nb_policy : AgentExecutionPolicy; nb_started_monotonic : spec_float; nb_deadline_monotonic : spec_float;
  nb_reserved_cost : decimal; nb_settled_cost : decimal; nb_attempts : Z; nb_tier_attempts : gmap string Z;
  nb_exhausted : bool; nb_overdrawn : bool }.
Record NodeBudgetSnapshot := {
  ns_node_name : string; ns_remaining_cost : decimal; ns_reserved_cost : decimal; ns_settled_cost : decimal;
  ns_remaining_attempts : Z; ns_remaining_seconds : spec_float; ns_exhausted : bool; ns_overdrawn : bool }.
Record BudgetSnapshot := {
  sn_mode : WorkflowMode; sn_remaining_cost : decimal; sn_reserved_cost : decimal; sn_settled_cost : decimal;
  sn_remaining_attempts : Z; sn_remaining_seconds : spec_float; sn_deadline_monotonic : spec_float;
  sn_nodes : list NodeBudgetSnapshot; sn_exhausted : bool; sn_overdrawn : bool }.
(** [_WORKFLOW_CAPS]: seconds, attempts, cost. *)
Definition WORKFLOW_CAPS (mode : WorkflowMode) : Z * Z * decimal :=
  match mode with M_ACTIVE => (300, 10, cents 75) | M_PASSIVE => (130, 10, cents 30) end.
Definition maximum_attempts (mode : WorkflowMode) : Z := (WORKFLOW_CAPS mode).1.2.
Definition cost_cap (mode : WorkflowMode) : decimal := (WORKFLOW_CAPS mode).2.
Record WorkflowBudgetLedger := {
  bl_mode : WorkflowMode; bl_nonce : Z; bl_last_monotonic : spec_float; bl_deadline_monotonic : spec_float;
  bl_reserved_cost : decimal; bl_settled_cost : decimal; bl_attempts : Z; bl_nodes : gmap string NodeBudget;
  bl_active : gmap string BudgetReservation; bl_completed : gset string; bl_exhausted : bool; bl_overdrawn : bool }.

(** ** The clock *)
(** A reading of the clock, a canonical binary64; [None] when it is not a number. *)
Definition Reading : Type := option spec_float.
Definition read_clock (reading : Reading) : result spec_float :=
  match reading with
  | Some f => if float_finite f then Ok f else Raise (ValueError "workflow clock must return finite monotonic seconds")
  | None => Raise (ValueError "workflow clock must return finite monotonic seconds")
  end.
(** [WorkflowBudgetLedger.__init__] *)
Definition new_ledger (mode : WorkflowMode) (nonce : Z) (reading : Reading) : result WorkflowBudgetLedger :=
  now ← read_clock reading;
  Ok {| bl_mode := mode; bl_nonce := nonce; bl_last_monotonic := now;
        bl_deadline_monotonic := float_add now (float_of_Z (WORKFLOW_CAPS mode).1.1);
        bl_reserved_cost := ZERO; bl_settled_cost := ZERO; bl_attempts := 0; bl_nodes := ∅; bl_active := ∅;
        bl_completed := ∅; bl_exhausted := false; bl_overdrawn := false |}.

Section Ledger.
  Implicit Types (l : WorkflowBudgetLedger) (r : BudgetReservation) (n : NodeBudget).
Abbreviation Io := (io WorkflowBudgetLedger).

Definition with_last l (now : spec_float) : WorkflowBudgetLedger :=
  {| bl_mode := bl_mode l; bl_nonce := bl_nonce l; bl_last_monotonic := now;
     bl_deadline_monotonic := bl_deadline_monotonic l; bl_reserved_cost := bl_reserved_cost l;
     bl_settled_cost := bl_settled_cost l; bl_attempts := bl_attempts l; bl_nodes := bl_nodes l;
     bl_active := bl_active l; bl_completed := bl_completed l; bl_exhausted := bl_exhausted l;
     bl_overdrawn := bl_overdrawn l |}.
(** [_now] *)
Definition now_ (reading : Reading) : Io spec_float :=
  current ← lift (read_clock reading);
  last ← read bl_last_monotonic;
  _ ← lift (raise_when (SFltb current last) (ValueError "monotonic clock moved backwards"));
  _ ← modify (fun l => with_last l current);
  mret current.

(** ** Reserving *)
Record ReserveRequest := {
  rq_node_name : string; rq_model : string; rq_band : PricingBand; rq_usage : UsageTokens;
  rq_maximum_tool_calls : Z; rq_attempt_timeout_seconds : option Z }.
Definition reserved_usage (q : ReserveRequest) : UsageTokens :=
  {| us_input_tokens := us_input_tokens (rq_usage q); us_cached_input_tokens := us_cached_input_tokens (rq_usage q);
     us_cache_write_tokens := us_cache_write_tokens (rq_usage q); us_output_tokens := us_output_tokens (rq_usage q);
     us_web_search_tool_calls := rq_maximum_tool_calls q |}.
(** The checks before the lock: the policy and the timeout of the attempt. *)
Definition check_request (q : ReserveRequest) : result (AgentExecutionPolicy * Z) :=
  policy ← policy_for (rq_node_name q);
  _ ← check (bool_decide (rq_model q ∈ map rt_model (po_tiers policy)))
        (ValueError "model is not allowed for workflow node");
  _ ← check (0 <=? rq_maximum_tool_calls q) (ValueError "maximum_tool_calls must be a non-negative integer");
  _ ← raise_when (po_maximum_tool_calls policy <? rq_maximum_tool_calls q)
        (BudgetExceededError "node tool call cap exceeded");
  _ ← raise_when (po_maximum_output_tokens policy <? us_output_tokens (rq_usage q))
        (BudgetExceededError "node output token cap exceeded");
  timeout ← match rq_attempt_timeout_seconds q with
            | None => Ok (po_attempt_timeout_seconds policy)
            | Some t => if 0 <? t then Ok t else Raise (ValueError "attempt_timeout_seconds must be a positive integer")
            end;
  _ ← raise_when (po_attempt_timeout_seconds policy <? timeout) (BudgetExceededError "attempt timeout exceeds node cap");
  Ok (policy, timeout).
(** What the ledger knows of the node, or of a node it has not seen. *)
Definition new_node (policy : AgentExecutionPolicy) (now : spec_float) : NodeBudget :=
  {| nb_policy := policy; nb_started_monotonic := now;
     nb_deadline_monotonic := float_add now (float_of_Z (po_node_timeout_seconds policy));
     nb_reserved_cost := ZERO; nb_settled_cost := ZERO; nb_attempts := 0; nb_tier_attempts := ∅;
     nb_exhausted := false; nb_overdrawn := false |}.
Definition tier_attempts n (model : string) : Z := default 0 (nb_tier_attempts n !! model).
(** The admission: time, attempts and cost. *)
Definition check_admission l n (policy : AgentExecutionPolicy) (model : string) (timeout : Z) (cost : decimal) (now : spec_float)
    : result unit :=
  let ends := float_add now (float_of_Z timeout) in
  _ ← check (bool_decide (nb_policy n = policy)) (ReservationStateError "node policy changed");
  _ ← raise_when (SFleb (nb_deadline_monotonic n) now || SFleb (bl_deadline_monotonic l) now)
        (BudgetExceededError "workflow deadline exhausted");
  _ ← raise_when (SFltb (nb_deadline_monotonic n) ends || SFltb (bl_deadline_monotonic l) ends)
        (BudgetExceededError "attempt timeout exceeds remaining deadline");
  _ ← raise_when ((maximum_attempts (bl_mode l) <=? bl_attempts l) || (po_maximum_total_attempts policy <=? nb_attempts n))
        (BudgetExceededError "attempt cap exhausted");
  _ ← raise_when (po_maximum_attempts_per_tier policy <=? tier_attempts n model)
        (BudgetExceededError "model tier attempt cap exhausted");
  _ ← raise_when (dec_ltb (cost_cap (bl_mode l)) (dec_add (dec_add (bl_settled_cost l) (bl_reserved_cost l)) cost))
        (BudgetExceededError "workflow cost cap exceeded");
  raise_when (dec_ltb (po_node_cost_cap policy) (dec_add (dec_add (nb_settled_cost n) (nb_reserved_cost n)) cost))
    (BudgetExceededError "node cost cap exceeded").
Definition reserve_node n (model : string) (cost : decimal) : NodeBudget :=
  {| nb_policy := nb_policy n; nb_started_monotonic := nb_started_monotonic n;
     nb_deadline_monotonic := nb_deadline_monotonic n; nb_reserved_cost := dec_add (nb_reserved_cost n) cost;
     nb_settled_cost := nb_settled_cost n; nb_attempts := nb_attempts n + 1;
     nb_tier_attempts := <[model := tier_attempts n model + 1]> (nb_tier_attempts n);
     nb_exhausted := nb_exhausted n; nb_overdrawn := nb_overdrawn n |}.
Definition reserve_ledger l n r : WorkflowBudgetLedger :=
  {| bl_mode := bl_mode l; bl_nonce := bl_nonce l; bl_last_monotonic := bl_last_monotonic l;
     bl_deadline_monotonic := bl_deadline_monotonic l;
     bl_reserved_cost := dec_add (bl_reserved_cost l) (rs_reserved_cost r); bl_settled_cost := bl_settled_cost l;
     bl_attempts := bl_attempts l + 1;
     bl_nodes := <[rs_node_name r := reserve_node n (rs_model r) (rs_reserved_cost r)]> (bl_nodes l);
     bl_active := <[rs_reservation_id r := r]> (bl_active l); bl_completed := bl_completed l;
     bl_exhausted := bl_exhausted l; bl_overdrawn := bl_overdrawn l |}.
(** [reserve]; [raw_price] is the environment's tool price, [new_id] is [uuid.uuid4().hex]
    and [object] the number of the new reservation object. *)
Definition reserve (q : ReserveRequest) (raw_price : option string) (reading : Reading) (new_id : string) (object : Z)
    : Io BudgetReservation :=
  '(policy, timeout) ← lift (check_request q);
  usage ← lift (validate_usage (reserved_usage q));
  tool_price ← lift (web_search_tool_price raw_price);
  cost ← lift (estimate_workflow_usage_cost (rq_model q) (rq_band q) usage tool_price);
  now ← now_ reading;
  l ← read id;
  _ ← lift (raise_when (bl_exhausted l) (BudgetExceededError "workflow budget exhausted"));
  let n := default (new_node policy now) (bl_nodes l !! rq_node_name q) in
  _ ← lift (check_admission l n policy (rq_model q) timeout cost now);
  let r := {| rs_object := object; rs_reservation_id := new_id; rs_node_name := rq_node_name q; rs_model := rq_model q;
              rs_band := rq_band q; rs_reserved_cost := cost;
              rs_deadline_monotonic :=
                float_min (float_min (float_add now (float_of_Z timeout)) (nb_deadline_monotonic n)) (bl_deadline_monotonic l);
              rs_ledger_nonce := bl_nonce l; rs_reserved_usage := usage; rs_web_search_tool_price := tool_price |} in
  _ ← modify (fun l => reserve_ledger l n r);
  mret r.

(** ** Closing *)
(** [_active_reservation] *)
Definition active_reservation l r : result BudgetReservation :=
  _ ← check (rs_ledger_nonce r =? bl_nonce l) (ReservationOwnershipError "reservation does not belong to this ledger");
  match bl_active l !! rs_reservation_id r with
  | None =>
      if bool_decide (rs_reservation_id r ∈ bl_completed l)
      then Raise (ReservationStateError "reservation has already been settled")
      else Raise (ReservationOwnershipError "reservation is stale")
  | Some current =>
      _ ← check (rs_object current =? rs_object r) (ReservationOwnershipError "reservation identity is invalid");
      Ok current
  end.
Definition close_node n (cost charged : decimal) (overflowed : bool) : NodeBudget :=
  {| nb_policy := nb_policy n; nb_started_monotonic := nb_started_monotonic n;
     nb_deadline_monotonic := nb_deadline_monotonic n; nb_reserved_cost := dec_sub (nb_reserved_cost n) cost;
     nb_settled_cost := dec_add (nb_settled_cost n) charged; nb_attempts := nb_attempts n;
     nb_tier_attempts := nb_tier_attempts n; nb_exhausted := nb_exhausted n || overflowed;
     nb_overdrawn := nb_overdrawn n || overflowed |}.
Definition close_ledger l n r (charged : decimal) (overflowed : bool) : WorkflowBudgetLedger :=
  {| bl_mode := bl_mode l; bl_nonce := bl_nonce l; bl_last_monotonic := bl_last_monotonic l;
     bl_deadline_monotonic := bl_deadline_monotonic l;
     bl_reserved_cost := dec_sub (bl_reserved_cost l) (rs_reserved_cost r);
     bl_settled_cost := dec_add (bl_settled_cost l) charged; bl_attempts := bl_attempts l;
     bl_nodes := <[rs_node_name r := close_node n (rs_reserved_cost r) charged overflowed]> (bl_nodes l);
     bl_active := delete (rs_reservation_id r) (bl_active l);
     bl_completed := {[rs_reservation_id r]} ∪ bl_completed l;
     bl_exhausted := bl_exhausted l || overflowed; bl_overdrawn := bl_overdrawn l || overflowed |}.
(** [_close]: the settlement, and whether it overflowed the reservation. *)
Definition close_ r (charged : decimal) (timeout overflowed : bool) : Io (BudgetSettlement * bool) :=
  _ ← lift (raise_when (dec_ltb charged ZERO) (ValueError "settlement cost is invalid"));
  l ← read id;
  current ← lift (active_reservation l r);
  n ← lift (from_option Ok (Raise (KeyError (rs_node_name current))) (bl_nodes l !! rs_node_name current));
  let overflowed := overflowed || dec_ltb (rs_reserved_cost current) charged in
  _ ← modify (fun l => close_ledger l n current charged overflowed);
  mret ({| se_reservation_id := rs_reservation_id current; se_charged_cost := charged; se_timeout := timeout |}, overflowed).
Definition usage_overflows (usage reserved : UsageTokens) : bool :=
  (us_input_tokens reserved <? us_input_tokens usage) ||
  (us_cached_input_tokens reserved <? us_cached_input_tokens usage) ||
  (us_cache_write_tokens reserved <? us_cache_write_tokens usage) ||
  (us_output_tokens reserved <? us_output_tokens usage) ||
  (us_web_search_tool_calls reserved <? us_web_search_tool_calls usage).
(** [settle]; an overflow is recorded, then raised. *)
Definition settle r (usage : UsageTokens) : Io BudgetSettlement :=
  l ← read id;
  current ← lift (active_reservation l r);
  charged ← lift (estimate_workflow_usage_cost (rs_model current) (rs_band current) usage (rs_web_search_tool_price current));
  '(settlement, overflowed) ← close_ current charged false (usage_overflows usage (rs_reserved_usage current));
  _ ← lift (raise_when overflowed BudgetOverflowError);
  mret settlement.
(** [consume_timeout] charges the whole reservation. *)
Definition consume_timeout r : Io BudgetSettlement :=
  l ← read id;
  current ← lift (active_reservation l r);
  '(settlement, _) ← close_ current (rs_reserved_cost current) true false;
  mret settlement.

(** ** Snapshot *)
Definition remaining_cost (cap reserved settled : decimal) : decimal :=
  dec_max ZERO (dec_sub (dec_sub cap reserved) settled).
Definition node_snapshot (global_remaining : Z) (now : spec_float) (kv : string * NodeBudget) : NodeBudgetSnapshot :=
  let '(node_name, n) := kv in
  let policy := nb_policy n in
  {| ns_node_name := node_name;
     ns_remaining_cost := remaining_cost (po_node_cost_cap policy) (nb_reserved_cost n) (nb_settled_cost n);
     ns_reserved_cost := nb_reserved_cost n; ns_settled_cost := nb_settled_cost n;
     ns_remaining_attempts :=
       Z.min global_remaining (Z.min (Z.max 0 (po_maximum_total_attempts policy - nb_attempts n))
         (foldr Z.add 0 (map (fun tier => Z.max 0 (po_maximum_attempts_per_tier policy - tier_attempts n (rt_model tier)))
                             (po_tiers policy))));
     ns_remaining_seconds := float_max (S754_zero false) (float_sub (nb_deadline_monotonic n) now);
     ns_exhausted := nb_exhausted n; ns_overdrawn := nb_overdrawn n |}.
Definition snapshot (reading : Reading) : Io BudgetSnapshot :=
  now ← now_ reading;
  read (fun l =>
    let global_remaining := Z.max 0 (maximum_attempts (bl_mode l) - bl_attempts l) in
    {| sn_mode := bl_mode l;
       sn_remaining_cost := remaining_cost (cost_cap (bl_mode l)) (bl_reserved_cost l) (bl_settled_cost l);
       sn_reserved_cost := bl_reserved_cost l; sn_settled_cost := bl_settled_cost l;
       sn_remaining_attempts := global_remaining;
       sn_remaining_seconds := float_max (S754_zero false) (float_sub (bl_deadline_monotonic l) now);
       sn_deadline_monotonic := bl_deadline_monotonic l;
       sn_nodes := map (node_snapshot global_remaining now) (sorted_items (map_to_list (bl_nodes l)));
       sn_exhausted := bl_exhausted l; sn_overdrawn := bl_overdrawn l |}).
End Ledger.

(** ** The invariant

    Costs are counted in [10 ^ GRID] dollars, where WorkflowPricing has them exact. *)
Definition cost_of (r : BudgetReservation) : Z := units GRID (rs_reserved_cost r).
Definition cost_on (node : string) (r : BudgetReservation) : Z := if String.eqb (rs_node_name r) node then cost_of r else 0.
Definition spent (n : NodeBudget) : Z := units GRID (nb_settled_cost n).
Definition held (n : NodeBudget) : Z := units GRID (nb_reserved_cost n).
Record node_ok (active : gmap string BudgetReservation) (name : string) (n : NodeBudget) : Prop := {
  no_policy : policy_for name = Ok (nb_policy n);
  no_reserved : on_grid GRID (nb_reserved_cost n) /\ held n = total (cost_on name) active;
  no_settled : on_grid GRID (nb_settled_cost n) /\ 0 <= spent n;
  no_attempts : 0 <= nb_attempts n <= po_maximum_total_attempts (nb_policy n);
  no_tiers : map_Forall (fun _ k => 0 <= k <= po_maximum_attempts_per_tier (nb_policy n)) (nb_tier_attempts n);
  no_cap : nb_overdrawn n = false -> spent n + held n <= units GRID (po_node_cost_cap (nb_policy n)) }.
Record reservation_ok (nonce : Z) (nodes : gmap string NodeBudget) (id : string) (r : BudgetReservation) : Prop := {
  ro_id : rs_reservation_id r = id;
  ro_nonce : rs_ledger_nonce r = nonce;
  ro_cost : on_grid GRID (rs_reserved_cost r) /\ 0 <= cost_of r <= MAX_COST;
  ro_price : plausible_tool_price (rs_web_search_tool_price r);
  ro_node : is_Some (nodes !! rs_node_name r) }.
Record budget_ok (l : WorkflowBudgetLedger) : Prop := {
  bo_active : map_Forall (reservation_ok (bl_nonce l) (bl_nodes l)) (bl_active l);
  bo_nodes : map_Forall (node_ok (bl_active l)) (bl_nodes l);
  bo_reserved : on_grid GRID (bl_reserved_cost l) /\ units GRID (bl_reserved_cost l) = total cost_of (bl_active l);
  bo_settled : on_grid GRID (bl_settled_cost l) /\ units GRID (bl_settled_cost l) = total spent (bl_nodes l) /\
               units GRID (bl_settled_cost l) <= MAX_COST * Z.of_nat (size (bl_completed l));
  bo_counts : bl_attempts l = Z.of_nat (size (bl_active l)) + Z.of_nat (size (bl_completed l)) /\
              bl_attempts l <= maximum_attempts (bl_mode l);
  bo_attempts : bl_attempts l = total nb_attempts (bl_nodes l);
  bo_once : forall id, id ∈ bl_completed l -> bl_active l !! id = None;
  bo_exhausted : bl_exhausted l = bl_overdrawn l;
  bo_cap : bl_overdrawn l = false -> units GRID (bl_settled_cost l) + units GRID (bl_reserved_cost l) <= units GRID (cost_cap (bl_mode l));
  bo_overdrawn : bl_overdrawn l = false -> map_Forall (fun _ n => nb_overdrawn n = false) (bl_nodes l) }.

Lemma new_ledger_ok mode nonce reading l : new_ledger mode nonce reading = Ok l -> budget_ok l.
Proof.
  unfold new_ledger. intros H. inv_ok H. subst l.
  split; simpl; try done; try (rewrite ?total_empty, ?map_size_empty, ?size_empty; by destruct mode).
  all: by destruct mode.
Qed.
Lemma with_last_ok l now : budget_ok l -> budget_ok (with_last l now).
Proof. intros []. split; done. Qed.

(** *** Magnitudes *)
Definition LARGE : Z := 20 * MAX_COST.
Lemma maximum_attempts_eq mode : maximum_attempts mode = 10.
Proof. by destruct mode. Qed.
Definition cap_ok (cap : decimal) : bool :=
  (0 <=? d_coef cap) && (GRID <=? d_exp cap) && (0 <=? units GRID cap) && (units GRID cap <=? LARGE).
Lemma cap_ok_spec cap : cap_ok cap = true -> on_grid GRID cap /\ 0 <= units GRID cap <= LARGE.
Proof. unfold cap_ok, on_grid. intros H. to_prop. by repeat split. Qed.
Lemma caps_on_grid mode : on_grid GRID (cost_cap mode) /\ 0 <= units GRID (cost_cap mode) <= LARGE.
Proof. apply cap_ok_spec. destruct mode; vm_compute; reflexivity. Qed.
Lemma policy_caps name p : policy_for name = Ok p ->
  on_grid GRID (po_node_cost_cap p) /\ 0 <= units GRID (po_node_cost_cap p) <= LARGE.
Proof.
  intros Hp. apply cap_ok_spec. assert (H : forallb (fun p => cap_ok (po_node_cost_cap p)) POLICIES = true) by (vm_compute; reflexivity).
  rewrite forallb_forall in H. by eapply H, policy_for_In.
Qed.
Lemma exact_add a b : on_grid GRID a -> on_grid GRID b -> 0 <= units GRID a <= LARGE -> 0 <= units GRID b <= LARGE ->
  on_grid GRID (dec_add a b) /\ units GRID (dec_add a b) = units GRID a + units GRID b.
Proof. intros Ha Hb H1 H2. apply grid_add; [done..|]. assert (2 * LARGE < WIDE) by (vm_compute; reflexivity). lia. Qed.
Lemma exact_sub a b : on_grid GRID a -> on_grid GRID b -> 0 <= units GRID a <= LARGE -> 0 <= units GRID b <= LARGE ->
  on_grid GRID (dec_sub a b) /\ units GRID (dec_sub a b) = units GRID a - units GRID b.
Proof. intros Ha Hb H1 H2. apply grid_sub; [done..|]. assert (2 * LARGE < WIDE) by (vm_compute; reflexivity). lia. Qed.
Lemma cost_on_bounds l node : budget_ok l -> map_Forall (fun _ r => 0 <= cost_on node r <= cost_of r) (bl_active l).
Proof.
  intros Hl id r Hr. destruct (bo_active l Hl id r Hr) as [_ _ [_ H] _ _]. unfold cost_on. case_match; lia.
Qed.
Lemma total_reserved_bounds l : budget_ok l -> 0 <= total cost_of (bl_active l) <= 10 * MAX_COST.
Proof.
  intros Hl. pose proof (bo_counts l Hl) as Hc. rewrite maximum_attempts_eq in Hc.
  destruct (total_bounds cost_of (bl_active l) MAX_COST) as [H1 H2].
  { intros id r Hr. apply (bo_active l Hl id r Hr). }
  split; [done|]. etrans; [exact H2|]. rewrite Z.mul_comm. apply Z.mul_le_mono_nonneg_r; [done|lia].
Qed.
Lemma reserved_bounds l : budget_ok l -> 0 <= units GRID (bl_reserved_cost l) <= 10 * MAX_COST.
Proof. intros Hl. destruct (bo_reserved l Hl) as [_ ->]. by apply total_reserved_bounds. Qed.
Lemma settled_bounds l : budget_ok l -> 0 <= units GRID (bl_settled_cost l) <= 10 * MAX_COST.
Proof.
  intros Hl. destruct (bo_settled l Hl) as (_ & Ht & Hb). pose proof (bo_counts l Hl) as Hc. rewrite maximum_attempts_eq in Hc.
  split.
  - rewrite Ht. apply (total_bounds spent (bl_nodes l) (units GRID (bl_settled_cost l))). intros name n Hn. split; [apply (bo_nodes l Hl name n Hn)|].
    rewrite Ht. apply (total_lookup_le spent _ name); [|done]. intros name' n' Hn'. apply (bo_nodes l Hl name' n' Hn').
  - etrans; [exact Hb|]. rewrite Z.mul_comm. apply Z.mul_le_mono_nonneg_r; [done|lia].
Qed.
Lemma node_bounds l name n : budget_ok l -> bl_nodes l !! name = Some n ->
  0 <= spent n <= 10 * MAX_COST /\ 0 <= held n <= 10 * MAX_COST.
Proof.
  intros Hl Hn. destruct (bo_nodes l Hl name n Hn) as [_ [_ Hh] [_ Hs] _ _ _]. split.
  - split; [done|]. etrans; [|apply (settled_bounds l Hl)]. destruct (bo_settled l Hl) as (_ & -> & _).
    apply (total_lookup_le spent _ name); [|done]. intros name' n' Hn'. apply (bo_nodes l Hl name' n' Hn').
  - rewrite Hh. pose proof (cost_on_bounds l name Hl) as Hc. pose proof (total_reserved_bounds l Hl) as Ht. split.
    + apply total_nonneg. intros id r Hr. apply (Hc id r Hr).
    + etrans; [apply total_le|apply Ht]. intros id r Hr. apply (Hc id r Hr).
Qed.

(** *** Reserving keeps it *)
Lemma LARGE_bounds : 11 * MAX_COST < LARGE.
Proof. vm_compute. reflexivity. Qed.
(** A node the ledger has not seen has spent and holds nothing. *)
Definition node_at (l : WorkflowBudgetLedger) (name : string) (p : AgentExecutionPolicy) (now : spec_float) : NodeBudget :=
  default (new_node p now) (bl_nodes l !! name).
Lemma node_at_ok l name p now : budget_ok l -> policy_for name = Ok p -> node_ok (bl_active l) name (node_at l name p now).
Proof.
  intros Hl Hp. unfold node_at. destruct (bl_nodes l !! name) as [n|] eqn:E; [by apply (bo_nodes l Hl)|].
  assert (Hz : total (cost_on name) (bl_active l) = 0).
  { apply Z.le_antisymm; [|apply total_nonneg; intros id r Hr; apply (cost_on_bounds l name Hl id r Hr)].
    rewrite <- (Z.mul_0_l (Z.of_nat (size (bl_active l)))). apply total_bounds. intros id r Hr.
    destruct (bo_active l Hl id r Hr) as [_ _ _ _ [n Hn]]. unfold cost_on.
    destruct (String.eqb_spec (rs_node_name r) name) as [<-|]; [congruence|lia]. }
  destruct (policy_caps name p Hp) as [_ Hc].
  pose proof (policy_for_valid name p Hp) as Hv. unfold validate_policy in Hv. inv_ok Hv. inv_checks. to_prop.
  split; simpl; try done; [lia|]. intros _. change (0 + 0 <= units GRID (po_node_cost_cap p)). lia.
Qed.
Lemma admit_spec l n p model timeout cost now : check_admission l n p model timeout cost now = Ok tt ->
  nb_policy n = p /\ bl_attempts l < maximum_attempts (bl_mode l) /\ nb_attempts n < po_maximum_total_attempts p /\
  tier_attempts n model < po_maximum_attempts_per_tier p /\
  dec_ltb (cost_cap (bl_mode l)) (dec_add (dec_add (bl_settled_cost l) (bl_reserved_cost l)) cost) = false /\
  dec_ltb (po_node_cost_cap p) (dec_add (dec_add (nb_settled_cost n) (nb_reserved_cost n)) cost) = false.
Proof. unfold check_admission. intros H. inv_ok H. inv_checks. to_prop. by repeat split. Qed.
(** An admitted cost fits under the cap. *)
Lemma admitted_cost cap settled reserved cost :
  on_grid GRID cap -> on_grid GRID settled -> on_grid GRID reserved -> on_grid GRID cost ->
  0 <= units GRID settled <= 10 * MAX_COST -> 0 <= units GRID reserved <= 10 * MAX_COST -> 0 <= units GRID cost <= MAX_COST ->
  dec_ltb cap (dec_add (dec_add settled reserved) cost) = false ->
  units GRID settled + (units GRID reserved + units GRID cost) <= units GRID cap /\
  on_grid GRID (dec_add reserved cost) /\ units GRID (dec_add reserved cost) = units GRID reserved + units GRID cost.
Proof.
  intros Gp Gs Gr Gc Hs Hr Hc H. assert (Hl : 20 * MAX_COST <= LARGE) by done. pose proof LARGE_bounds.
  destruct (exact_add settled reserved Gs Gr ltac:(lia) ltac:(lia)) as [G1 U1].
  destruct (exact_add _ cost G1 Gc ltac:(lia) ltac:(lia)) as [G2 U2].
  rewrite (units_ltb GRID) in H by done. to_prop. rewrite U2, U1 in H. split; [lia|]. apply exact_add; [done..|lia|lia].
Qed.
Lemma total_cost_on_other (active : gmap string BudgetReservation) id r name :
  active !! id = None -> rs_node_name r <> name -> total (cost_on name) (<[id := r]> active) = total (cost_on name) active.
Proof.
  intros Hid Hn. rewrite total_insert by done. unfold cost_on at 1. by rewrite (proj2 (String.eqb_neq _ _) Hn).
Qed.
Lemma cost_on_own r : cost_on (rs_node_name r) r = cost_of r.
Proof. unfold cost_on. by rewrite String.eqb_refl. Qed.
Lemma node_insert_other active id r name n :
  active !! id = None -> rs_node_name r <> name -> node_ok active name n -> node_ok (<[id := r]> active) name n.
Proof. intros Hid Hn []. split; try done. by rewrite total_cost_on_other. Qed.
Lemma node_reserve l r n : budget_ok l -> node_ok (bl_active l) (rs_node_name r) n ->
  0 <= spent n <= 10 * MAX_COST -> 0 <= held n <= 10 * MAX_COST ->
  bl_active l !! rs_reservation_id r = None -> on_grid GRID (rs_reserved_cost r) -> 0 <= cost_of r <= MAX_COST ->
  nb_attempts n < po_maximum_total_attempts (nb_policy n) ->
  tier_attempts n (rs_model r) < po_maximum_attempts_per_tier (nb_policy n) ->
  dec_ltb (po_node_cost_cap (nb_policy n)) (dec_add (dec_add (nb_settled_cost n) (nb_reserved_cost n)) (rs_reserved_cost r)) = false ->
  node_ok (<[rs_reservation_id r := r]> (bl_active l)) (rs_node_name r) (reserve_node n (rs_model r) (rs_reserved_cost r)).
Proof.
  intros Hl [Hp [Gh Hh] [Gs Hs] Ha Ht Hcap] Bs Bh Hid Gc Hc Ha' Ht' Hadmit.
  destruct (policy_caps _ _ Hp) as [Gp _].
  destruct (admitted_cost _ _ _ _ Gp Gs Gh Gc Bs Bh Hc Hadmit) as (Hfit & Gr & Ur).
  split; simpl; try done.
  - split; [done|]. unfold held. simpl. rewrite Ur, total_insert, cost_on_own by done. fold (held n). fold (cost_of r). lia.
  - lia.
  - apply map_Forall_insert_2; [|done]. unfold tier_attempts in *. destruct (nb_tier_attempts n !! rs_model r) as [k|] eqn:E; simpl in *; [|lia].
    specialize (Ht _ _ E). simpl in Ht. lia.
  - intros _. unfold spent, held, cost_of in *. simpl. lia.
Qed.
Lemma reserve_ok l r n p timeout now :
  budget_ok l -> bl_overdrawn l = false -> policy_for (rs_node_name r) = Ok p -> n = node_at l (rs_node_name r) p now ->
  check_admission l n p (rs_model r) timeout (rs_reserved_cost r) now = Ok tt ->
  on_grid GRID (rs_reserved_cost r) -> 0 <= cost_of r <= MAX_COST -> rs_ledger_nonce r = bl_nonce l ->
  plausible_tool_price (rs_web_search_tool_price r) ->
  bl_active l !! rs_reservation_id r = None -> rs_reservation_id r ∉ bl_completed l ->
  budget_ok (reserve_ledger l n r).
Proof.
  intros Hl Hod Hp Hn Hadmit Gc Hc Hnonce Hprice Hid Hdone.
  pose proof (node_at_ok l _ p now Hl Hp) as Hnode. rewrite <- Hn in Hnode.
  destruct (admit_spec _ _ _ _ _ _ _ Hadmit) as (Hpol & Ha & Hna & Hta & Hcap & Hncap). subst p.
  assert (Hb : 0 <= spent n <= 10 * MAX_COST /\ 0 <= held n <= 10 * MAX_COST).
  { rewrite Hn. unfold node_at. destruct (bl_nodes l !! rs_node_name r) as [n'|] eqn:E; [exact (node_bounds l (rs_node_name r) n' Hl E)|by split]. }
  assert (Hold : from_option spent 0 (bl_nodes l !! rs_node_name r) = spent n /\
                 from_option nb_attempts 0 (bl_nodes l !! rs_node_name r) = nb_attempts n /\ nb_overdrawn n = false).
  { rewrite Hn. unfold node_at. destruct (bl_nodes l !! rs_node_name r) as [n'|] eqn:E; [|done]. simpl.
    by rewrite (bo_overdrawn l Hl Hod (rs_node_name r) n' E). }
  destruct Hb as [Bs Bh], Hold as (Hspent & Hatt & Hnod).
  destruct (caps_on_grid (bl_mode l)) as [Gp _].
  destruct (admitted_cost _ _ _ _ Gp (proj1 (bo_settled l Hl)) (proj1 (bo_reserved l Hl)) Gc (settled_bounds l Hl) (reserved_bounds l Hl) Hc Hcap)
    as (Hfit & Gr & Ur).
  pose proof Hl as [Hact Hnodes [_ Hres] [Gset [Hset Hsb]] [Hcount Hmax] Hattempts Honce Hex Hcapl Hodn].
  split; simpl; rewrite ?map_size_insert_None by done.
  - apply map_Forall_insert_2; [split; try done; rewrite lookup_insert_eq; by eexists|].
    intros id' r' Hr'. destruct (Hact id' r' Hr') as [? ? ? ? Hsome]. split; try done.
    destruct (decide (rs_node_name r' = rs_node_name r)) as [->|]; [rewrite lookup_insert_eq; by eexists|by rewrite lookup_insert_ne].
  - apply map_Forall_update; [by apply (node_reserve l)|]. intros name n' Hne Hn'.
    apply node_insert_other; [done|by apply not_eq_sym|by apply Hnodes].
  - split; [done|]. rewrite Ur, Hres, total_insert by done. fold (cost_of r). lia.
  - split; [done|]. split; [|done]. rewrite Hset, total_set, Hspent. change (spent (reserve_node _ _ _)) with (spent n). lia.
  - lia.
  - rewrite Hattempts, total_set, Hatt. simpl. lia.
  - intros id' Hid'. rewrite lookup_insert_ne; [by apply Honce|]. by intros <-.
  - done.
  - intros _. rewrite Ur. lia.
  - intros _. apply map_Forall_insert_2; [done|]. by apply Hodn.
Qed.

(** *** Closing keeps it *)
Lemma total_delete_cost_on (active : gmap string BudgetReservation) id r name :
  active !! id = Some r -> total (cost_on name) (delete id active) = total (cost_on name) active - cost_on name r.
Proof. intros Hr. rewrite (total_delete (cost_on name) active id r Hr). lia. Qed.
Lemma node_delete_other active id r name n :
  active !! id = Some r -> rs_node_name r <> name -> node_ok active name n -> node_ok (delete id active) name n.
Proof.
  intros Hid Hn []. split; try done. rewrite (total_delete_cost_on _ _ _ _ Hid). unfold cost_on at 2.
  rewrite (proj2 (String.eqb_neq _ _) Hn), Z.sub_0_r. done.
Qed.
Lemma node_close active id r n charged overflowed :
  active !! id = Some r -> node_ok active (rs_node_name r) n ->
  0 <= spent n <= 10 * MAX_COST -> 0 <= held n <= 10 * MAX_COST -> on_grid GRID (rs_reserved_cost r) -> 0 <= cost_of r <= MAX_COST ->
  on_grid GRID charged -> 0 <= units GRID charged <= MAX_COST -> (overflowed = false -> units GRID charged <= cost_of r) ->
  node_ok (delete id active) (rs_node_name r) (close_node n (rs_reserved_cost r) charged overflowed) /\
  spent (close_node n (rs_reserved_cost r) charged overflowed) = spent n + units GRID charged.
Proof.
  intros Hid [Hp [Gh Hh] [Gs Hs] Ha Ht Hcap] Bs Bh Gc Hc Gch Hch Hover. pose proof LARGE_bounds.
  destruct (exact_sub _ _ Gh Gc ltac:(unfold held in *; lia) ltac:(unfold cost_of in *; lia)) as [G1 U1].
  destruct (exact_add _ _ Gs Gch ltac:(unfold spent in *; lia) ltac:(lia)) as [G2 U2].
  assert (Hs' : spent (close_node n (rs_reserved_cost r) charged overflowed) = spent n + units GRID charged) by exact U2.
  assert (Hh' : held (close_node n (rs_reserved_cost r) charged overflowed) = held n - cost_of r) by exact U1.
  split; [|exact Hs']. split; [exact Hp|split; [exact G1|]|split; [exact G2|]|exact Ha|exact Ht|].
  - rewrite Hh', (total_delete_cost_on _ _ _ _ Hid), cost_on_own, Hh. reflexivity.
  - rewrite Hs'. lia.
  - intros [Hod Hov]%orb_false_iff. specialize (Hcap Hod). specialize (Hover Hov).
    rewrite Hs', Hh'. simpl. lia.
Qed.
Lemma close_ok l r n charged overflowed :
  budget_ok l -> bl_active l !! rs_reservation_id r = Some r -> bl_nodes l !! rs_node_name r = Some n ->
  on_grid GRID charged -> 0 <= units GRID charged <= MAX_COST -> (overflowed = false -> units GRID charged <= cost_of r) ->
  budget_ok (close_ledger l n r charged overflowed).
Proof.
  intros Hl Hr Hn Gch Hch Hover. destruct (node_bounds l _ _ Hl Hn) as [Bs Bh]. pose proof LARGE_bounds.
  destruct (bo_active l Hl _ _ Hr) as [_ _ [Gc Hc] _ _].
  pose proof (bo_nodes l Hl _ _ Hn) as Hnode.
  destruct (node_close _ _ r n charged overflowed Hr Hnode Bs Bh Gc Hc Gch Hch Hover) as [Hnode' Hspent].
  pose proof (reserved_bounds l Hl) as Br. pose proof (settled_bounds l Hl) as Bt.
  assert (Bc : 0 <= cost_of r <= LARGE) by lia.
  assert (Br' : 0 <= units GRID (bl_reserved_cost l) <= LARGE) by lia.
  assert (Bt' : 0 <= units GRID (bl_settled_cost l) <= LARGE) by lia.
  assert (Bch : 0 <= units GRID charged <= LARGE) by lia.
  destruct (exact_sub _ _ (proj1 (bo_reserved l Hl)) Gc Br' Bc) as [Gr Ur].
  destruct (exact_add _ _ (proj1 (bo_settled l Hl)) Gch Bt' Bch) as [Gs Us].
  fold (cost_of r) in Ur.
  pose proof Hl as [Hact Hnodes [_ Hres] [_ [Hset Hsb]] [Hcount Hmax] Hattempts Honce Hex Hcapl Hodn].
  assert (Hnew : rs_reservation_id r ∉ bl_completed l) by (intros Hin; rewrite (Honce _ Hin) in Hr; discriminate Hr).
  assert (Hsize : size ({[rs_reservation_id r]} ∪ bl_completed l) = S (size (bl_completed l)))
    by (rewrite size_union, size_singleton by set_solver; reflexivity).
  assert (Hdel : size (bl_active l) = S (size (delete (rs_reservation_id r) (bl_active l)))).
  { rewrite (map_size_delete_Some (rs_reservation_id r) (bl_active l)) by (rewrite Hr; by eexists).
    destruct (size (bl_active l)) eqn:E; [|reflexivity]. apply map_size_empty_inv in E. rewrite E in Hr. discriminate Hr. }
  split; simpl; rewrite ?Hsize.
  - intros id' r' Hr'. apply lookup_delete_Some in Hr' as [_ Hr']. destruct (Hact id' r' Hr') as [F1 F2 F3 F4 Hsome].
    split; [exact F1|exact F2|exact F3|exact F4|].
    destruct (decide (rs_node_name r' = rs_node_name r)) as [->|]; [rewrite lookup_insert_eq; by eexists|by rewrite lookup_insert_ne].
  - apply map_Forall_update; [exact Hnode'|]. intros name n' Hne Hn'.
    eapply node_delete_other; [exact Hr|by apply not_eq_sym|by apply Hnodes].
  - split; [exact Gr|]. rewrite Ur, Hres, (total_delete cost_of _ _ _ Hr). lia.
  - split; [exact Gs|]. rewrite Us, (total_update spent _ _ _ _ Hn), Hspent. split; [lia|].
    rewrite Nat2Z.inj_succ, Z.mul_succ_r. lia.
  - lia.
  - rewrite (total_update nb_attempts _ _ _ _ Hn). simpl. lia.
  - intros id' [->%elem_of_singleton|Hid']%elem_of_union; [apply lookup_delete_eq|].
    destruct (decide (id' = rs_reservation_id r)) as [->|]; [apply lookup_delete_eq|]. rewrite lookup_delete_ne by congruence. by apply Honce.
  - by rewrite Hex.
  - intros [Hod Hov]%orb_false_iff. specialize (Hcapl Hod). specialize (Hover Hov). rewrite Us, Ur. lia.
  - intros [Hod Hov]%orb_false_iff. apply map_Forall_update; [simpl; by rewrite (Hodn Hod _ _ Hn)|]. intros. by eapply Hodn.
Qed.

(** *** The operations *)
Inductive BudgetOp :=
  | OpReserve (q : ReserveRequest) (raw_price : option string) (reading : Reading) (new_id : string) (object : Z)
  | OpSettle (r : BudgetReservation) (usage : UsageTokens)
  | OpTimeout (r : BudgetReservation)
  | OpSnapshot (reading : Reading).
Definition discard {S A} (m : io S A) : io S unit := _ ← m; mret tt.
Definition run_op (o : BudgetOp) : io WorkflowBudgetLedger unit :=
  match o with
  | OpReserve q raw_price reading new_id object => discard (reserve q raw_price reading new_id object)
  | OpSettle r usage => discard (settle r usage)
  | OpTimeout r => discard (consume_timeout r)
  | OpSnapshot reading => discard (snapshot reading)
  end.
(** The counts and the tool price are what a provider can report, and an identifier is new. *)
Definition plausible_op (l : WorkflowBudgetLedger) (o : BudgetOp) : Prop :=
  match o with
  | OpReserve q raw_price _ new_id _ =>
      plausible_usage (reserved_usage q) /\
      (forall p, web_search_tool_price raw_price = Ok p -> plausible_tool_price p) /\
      bl_active l !! new_id = None /\ new_id ∉ bl_completed l
  | OpSettle _ usage => plausible_usage usage
  | OpTimeout _ | OpSnapshot _ => True
  end.
Inductive budget_step (l l' : WorkflowBudgetLedger) : Prop :=
  | budget_run o : plausible_op l o -> (run_op o l).1 = l' -> budget_step l l'.
Definition budget_reachable (l : WorkflowBudgetLedger) : Prop :=
  exists mode nonce reading l0, new_ledger mode nonce reading = Ok l0 /\ rtc budget_step l0 l.

Lemma discard_fst {S A} (m : io S A) s : (discard m s).1 = (m s).1.
Proof. unfold discard, mbind, io_bind. by destruct (m s) as [s' [a|e]]. Qed.
Lemma discard_run {S A} (m : io S A) s s' r : discard m s = (s', r) ->
  exists r', m s = (s', r') /\ match r' with Ok _ => r = Ok tt | Raise e => r = Raise e end.
Proof. unfold discard, mbind, io_bind. destruct (m s) as [s1 [a|e]]; intros [= <- <-]; by eexists. Qed.
Lemma estimate_priced model band usage tool_price c : estimate_workflow_usage_cost model band usage tool_price = Ok c ->
  exists p, workflow_model_pricing model band = Ok p.
Proof. unfold estimate_workflow_usage_cost. intros H. inv_ok H. by eexists. Qed.
Lemma estimate_units model band usage tool_price c : plausible_usage usage -> plausible_tool_price tool_price ->
  estimate_workflow_usage_cost model band usage tool_price = Ok c -> on_grid GRID c /\ 0 <= units GRID c <= MAX_COST.
Proof.
  intros Hu Ht H. destruct (estimate_priced _ _ _ _ _ H) as [p Hp].
  destruct (estimate_exact _ _ _ _ _ Hp Hu Ht) as (c' & H' & G & _ & B). rewrite H in H'. injection H' as ->. by split.
Qed.
Lemma estimate_raises model band usage tool_price e : estimate_workflow_usage_cost model band usage tool_price = Raise e ->
  e <> BudgetOverflowError.
Proof.
  assert (Hdiv : forall a n e', n <> 0 -> dec_div a (dec_of_Z n) = Raise e' -> e' <> BudgetOverflowError).
  { intros a n e' Hn H. destruct (dec_div_total a (dec_of_Z n)) as [d Hd]; [|congruence]. unfold dec_of_Z. simpl. lia. }
  unfold estimate_workflow_usage_cost. intros [H|(? & _ & H)]%bind_Raise.
  { unfold raise_when in H. destruct (dec_ltb _ _); [|discriminate H]. by injection H as <-. }
  apply bind_Raise in H as [H|(? & _ & H)].
  { unfold workflow_model_pricing in H. destruct (List.find _ _) as [[? []]|]; [discriminate H|]. by injection H as <-. }
  apply bind_Raise in H as [H|(? & _ & H)]; [eapply Hdiv; [|exact H]; lia|].
  apply bind_Raise in H as [H|(? & _ & H)]; [eapply Hdiv; [|exact H]; lia|discriminate H].
Qed.
Lemma active_reservation_spec l r cur : active_reservation l r = Ok cur ->
  bl_active l !! rs_reservation_id r = Some cur /\ rs_ledger_nonce r = bl_nonce l /\ rs_object cur = rs_object r.
Proof.
  unfold active_reservation. intros H. inv_ok H. inv_checks. to_prop. destruct (bl_active l !! _) as [c|] eqn:E.
  - inv_ok H. inv_checks. to_prop. subst c. done.
  - destruct (bool_decide _); discriminate H.
Qed.
Lemma active_reservation_raises l r e : active_reservation l r = Raise e -> e <> BudgetOverflowError.
Proof.
  unfold active_reservation, check. destruct (_ =? _); simpl; [|by intros [= <-]].
  destruct (bl_active l !! _); [destruct (_ =? _); simpl; [done|by intros [= <-]]|destruct (bool_decide _); by intros [= <-]].
Qed.

(** What closing does: nothing and an exception that is not an overflow, or the reservation
    of the ledger leaves it, charged. *)
Definition untouched {A} (l l' : WorkflowBudgetLedger) (res : result A) : Prop :=
  l' = l /\ exists e, res = Raise e /\ e <> BudgetOverflowError.
Inductive closes (l : WorkflowBudgetLedger) (r : BudgetReservation) (charged : decimal) : WorkflowBudgetLedger -> bool -> Prop :=
  | closes_intro cur n overflowed : active_reservation l r = Ok cur -> bl_nodes l !! rs_node_name cur = Some n ->
      (dec_ltb (rs_reserved_cost cur) charged = true -> overflowed = true) ->
      closes l r charged (close_ledger l n cur charged overflowed) overflowed.
Lemma close_inv l r charged timeout ov l' res : close_ r charged timeout ov l = (l', res) ->
  untouched l l' res \/ exists se overflowed, res = Ok (se, overflowed) /\ closes l r charged l' overflowed.
Proof.
  unfold close_. intros H.
  apply io_bind_inv in H as [(? & ? & [-> _]%lift_inv & H)|(e & [-> He]%lift_inv & ->)].
  2: { left. split; [done|]. eexists. split; [done|]. symmetry in He. unfold raise_when in He. destruct (dec_ltb _ _); [|done]. by injection He as <-. }
  apply io_bind_inv in H as [(? & cur0 & [= <- <-] & H)|(e & [=] & _)].
  apply io_bind_inv in H as [(? & cur & [-> Hcur]%lift_inv & H)|(e & [-> He]%lift_inv & ->)].
  2: { left. split; [done|]. eexists. split; [done|]. symmetry in He. by eapply active_reservation_raises. }
  apply io_bind_inv in H as [(? & n & [-> Hn]%lift_inv & H)|(e & [-> He]%lift_inv & ->)].
  2: { left. split; [done|]. eexists. split; [done|]. destruct (bl_nodes l !! _); [done|]. simpl in He. by injection He as ->. }
  destruct (bl_nodes l !! _) as [n0|] eqn:E; [|done]. simpl in Hn. injection Hn as ->.
  apply io_bind_inv in H as [(? & ? & [= <- <-] & H)|(e & [=] & _)]. injection H as <- <-.
  right. do 2 eexists. split; [done|]. apply closes_intro; [done|done|]. intros ->. apply orb_true_r.
Qed.
Lemma closed_current l r cur charged l' overflowed : budget_ok l -> active_reservation l r = Ok cur ->
  closes l cur charged l' overflowed -> closes l r charged l' overflowed.
Proof.
  intros Hl Hr [cur' n ov Hc Hn Hov]. destruct (active_reservation_spec _ _ _ Hr) as (Hact & _ & _).
  destruct (active_reservation_spec _ _ _ Hc) as (Hact' & _ & _).
  rewrite (ro_id _ _ _ _ (bo_active l Hl _ _ Hact)), Hact in Hact'. injection Hact' as ->. by apply closes_intro.
Qed.
Lemma settle_inv l r usage l' res : budget_ok l -> settle r usage l = (l', res) ->
  untouched l l' res \/
  exists cur charged overflowed, active_reservation l r = Ok cur /\
    estimate_workflow_usage_cost (rs_model cur) (rs_band cur) usage (rs_web_search_tool_price cur) = Ok charged /\
    closes l r charged l' overflowed /\
    (if overflowed then res = Raise BudgetOverflowError else exists se, res = Ok se).
Proof.
  unfold settle. intros Hl H.
  apply io_bind_inv in H as [(? & cur0 & [= <- <-] & H)|(e & [=] & _)].
  apply io_bind_inv in H as [(? & cur & [-> Hcur]%lift_inv & H)|(e & [-> He]%lift_inv & ->)].
  2: { left. split; [done|]. eexists. split; [done|]. symmetry in He. by eapply active_reservation_raises. }
  apply io_bind_inv in H as [(? & charged & [-> Hch]%lift_inv & H)|(e & [-> He]%lift_inv & ->)].
  2: { left. split; [done|]. eexists. split; [done|]. symmetry in He. by eapply estimate_raises. }
  symmetry in Hcur, Hch.
  apply io_bind_inv in H as [(l1 & [se ov] & Hc & H)|(e & Hc & ->)]; apply close_inv in Hc as [[-> (e' & He & Hne)]|(se' & ov' & He & Hc)].
  - discriminate He.
  - injection He as <- <-. right. exists cur, charged, ov. split; [done|]. split; [done|].
    destruct ov; injection H as <- <-; (split; [by eapply closed_current|]); [done|by eexists].
  - left. split; [done|]. eexists. split; [done|]. by injection He as ->.
  - discriminate He.
Qed.
Lemma timeout_inv l r l' res : budget_ok l -> consume_timeout r l = (l', res) ->
  untouched l l' res \/
  exists cur overflowed se, active_reservation l r = Ok cur /\ closes l r (rs_reserved_cost cur) l' overflowed /\ res = Ok se.
Proof.
  unfold consume_timeout. intros Hl H.
  apply io_bind_inv in H as [(? & cur0 & [= <- <-] & H)|(e & [=] & _)].
  apply io_bind_inv in H as [(? & cur & [-> Hcur]%lift_inv & H)|(e & [-> He]%lift_inv & ->)].
  2: { left. split; [done|]. eexists. split; [done|]. symmetry in He. by eapply active_reservation_raises. }
  symmetry in Hcur.
  apply io_bind_inv in H as [(l1 & [se ov] & Hc & H)|(e & Hc & ->)]; apply close_inv in Hc as [[-> (e' & He & Hne)]|(se' & ov' & He & Hc)].
  - discriminate He.
  - injection He as <- <-. injection H as <- <-. right. exists cur, ov, se. split; [done|]. split; [by eapply closed_current|done].
  - left. split; [done|]. eexists. split; [done|]. by injection He as ->.
  - discriminate He.
Qed.
Lemma closes_ok l r charged l' overflowed : budget_ok l -> closes l r charged l' overflowed ->
  on_grid GRID charged -> 0 <= units GRID charged <= MAX_COST -> budget_ok l'.
Proof.
  intros Hl [cur n ov Hc Hn Hov] Gch Hch. destruct (active_reservation_spec _ _ _ Hc) as (Hact & _ & _).
  pose proof (bo_active l Hl _ _ Hact) as [Hid _ [Gc Bc] _ _]. apply close_ok; [done|by rewrite Hid|done|done|done|].
  intros ->. rewrite (units_ltb GRID) in Hov by done. destruct (Z.ltb_spec (units GRID (rs_reserved_cost cur)) (units GRID charged)) as [|Hle];
    [by specialize (Hov eq_refl)|exact Hle].
Qed.
Lemma settle_ok l r usage : budget_ok l -> plausible_usage usage -> budget_ok (settle r usage l).1.
Proof.
  intros Hl Hu. destruct (settle r usage l) as [l' res] eqn:E. simpl.
  apply settle_inv in E as [[-> _]|(cur & charged & ov & Hc & Hch & Hcl & _)]; [done| |done].
  destruct (active_reservation_spec _ _ _ Hc) as (Hact & _ & _). pose proof (bo_active l Hl _ _ Hact) as [_ _ _ Hp _].
  destruct (estimate_units _ _ _ _ _ Hu Hp Hch) as [G B]. by eapply closes_ok.
Qed.
Lemma timeout_ok l r : budget_ok l -> budget_ok (consume_timeout r l).1.
Proof.
  intros Hl. destruct (consume_timeout r l) as [l' res] eqn:E. simpl.
  apply timeout_inv in E as [[-> _]|(cur & ov & se & Hc & Hcl & _)]; [done| |done].
  destruct (active_reservation_spec _ _ _ Hc) as (Hact & _ & _). pose proof (bo_active l Hl _ _ Hact) as [_ _ [G B] _ _].
  by eapply closes_ok.
Qed.
Lemma now_inv reading l l' res : now_ reading l = (l', res) ->
  match res with Ok now => l' = with_last l now | Raise _ => l' = l end.
Proof.
  unfold now_. intros H.
  apply io_bind_inv in H as [(? & c & [-> _]%lift_inv & H)|(e & [-> _]%lift_inv & ->)]; [|done].
  apply io_bind_inv in H as [(? & last & [= <- <-] & H)|(e & [=] & _)].
  apply io_bind_inv in H as [(? & ? & [-> _]%lift_inv & H)|(e & [-> _]%lift_inv & ->)]; [|done].
  apply io_bind_inv in H as [(? & ? & [= <- <-] & H)|(e & [=] & _)]. by injection H as <- <-.
Qed.
(** What an admitted reservation records. *)
Definition new_reservation (l : WorkflowBudgetLedger) (n : NodeBudget) (q : ReserveRequest) (timeout : Z) (now : spec_float)
    (cost tool_price : decimal) (new_id : string) (object : Z) : BudgetReservation :=
  {| rs_object := object; rs_reservation_id := new_id; rs_node_name := rq_node_name q; rs_model := rq_model q;
     rs_band := rq_band q; rs_reserved_cost := cost;
     rs_deadline_monotonic :=
       float_min (float_min (float_add now (float_of_Z timeout)) (nb_deadline_monotonic n)) (bl_deadline_monotonic l);
     rs_ledger_nonce := bl_nonce l; rs_reserved_usage := reserved_usage q; rs_web_search_tool_price := tool_price |}.
Lemma reserve_inv q raw reading new_id object l l' res : reserve q raw reading new_id object l = (l', res) ->
  (l' = l \/ exists now, l' = with_last l now) /\ (exists e, res = Raise e) \/
  exists p timeout tool_price cost now n,
    let l1 := with_last l now in let r := new_reservation l1 n q timeout now cost tool_price new_id object in
    policy_for (rq_node_name q) = Ok p /\ web_search_tool_price raw = Ok tool_price /\
    estimate_workflow_usage_cost (rq_model q) (rq_band q) (reserved_usage q) tool_price = Ok cost /\
    bl_exhausted l1 = false /\ n = node_at l1 (rq_node_name q) p now /\
    check_admission l1 n p (rq_model q) timeout cost now = Ok tt /\ l' = reserve_ledger l1 n r /\ res = Ok r.
Proof.
  unfold reserve. intros H.
  apply io_bind_inv in H as [(? & [p timeout] & [-> Hreq]%lift_inv & H)|(e & [-> _]%lift_inv & ->)]; [|by left; eauto].
  apply io_bind_inv in H as [(? & usage & [-> Hu]%lift_inv & H)|(e & [-> _]%lift_inv & ->)]; [|by left; eauto].
  apply io_bind_inv in H as [(? & tool_price & [-> Hp]%lift_inv & H)|(e & [-> _]%lift_inv & ->)]; [|by left; eauto].
  apply io_bind_inv in H as [(? & cost & [-> Hc]%lift_inv & H)|(e & [-> _]%lift_inv & ->)]; [|by left; eauto].
  apply io_bind_inv in H as [(l1 & now & Hn & H)|(e & Hn & ->)]; apply now_inv in Hn; [|by left; eauto]. subst l1.
  apply io_bind_inv in H as [(? & l2 & [= <- <-] & H)|(e & [=] & _)].
  apply io_bind_inv in H as [(? & ? & [-> Hex]%lift_inv & H)|(e & [-> _]%lift_inv & ->)]; [|by left; eauto].
  apply io_bind_inv in H as [(? & [] & [-> Had]%lift_inv & H)|(e & [-> _]%lift_inv & ->)]; [|by left; eauto].
  apply io_bind_inv in H as [(? & ? & [= <- <-] & H)|(e & [=] & _)]. injection H as <- <-.
  right. symmetry in Hreq, Hu, Hp, Hc, Hex, Had.
  assert (usage = reserved_usage q) as -> by (unfold validate_usage in Hu; inv_ok Hu; by inv_checks).
  assert (Hpol : policy_for (rq_node_name q) = Ok p).
  { unfold check_request in Hreq. apply bind_Ok in Hreq as (p0 & Hp0 & Hreq). inv_ok Hreq. congruence. }
  apply raise_when_Ok in Hex. exists p, timeout, tool_price, cost, now, (node_at (with_last l now) (rq_node_name q) p now). cbv zeta.
  split; [exact Hpol|]. split; [exact Hp|]. split; [exact Hc|]. split; [exact Hex|]. split; [reflexivity|].
  split; [exact Had|]. split; reflexivity.
Qed.
Lemma reserve_step_ok q raw reading new_id object l : budget_ok l -> plausible_op l (OpReserve q raw reading new_id object) ->
  budget_ok (reserve q raw reading new_id object l).1.
Proof.
  intros Hl (Hu & Hprice & Hid & Hdone). destruct (reserve q raw reading new_id object l) as [l' res] eqn:E. simpl.
  apply reserve_inv in E as [[[->|[now ->]] _]|(p & timeout & tool_price & cost & now & n & H)]; [done|by apply with_last_ok|].
  cbv zeta in H. destruct H as (Hp & Htp & Hc & Hex & Hn & Had & -> & _).
  destruct (estimate_units _ _ _ _ _ Hu (Hprice _ Htp) Hc) as [G B]. pose proof (with_last_ok l now Hl) as Hl1.
  set (r := new_reservation _ _ _ _ _ _ _ _ _).
  apply (reserve_ok (with_last l now) r n p timeout now); [exact Hl1| |exact Hp|exact Hn|exact Had|exact G|exact B|reflexivity| |exact Hid|exact Hdone].
  - rewrite <- (bo_exhausted _ Hl1). exact Hex.
  - exact (Hprice _ Htp).
Qed.
Lemma snapshot_state reading l : (snapshot reading l).1 = l \/ exists now, (snapshot reading l).1 = with_last l now.
Proof.
  destruct (snapshot reading l) as [l' res] eqn:H. unfold snapshot in H. simpl.
  apply io_bind_inv in H as [(l1 & now & Hn & H)|(e & Hn & ->)]; apply now_inv in Hn; subst; [|by left].
  right. exists now. by injection H as <- _.
Qed.
Lemma budget_step_ok l l' : budget_ok l -> budget_step l l' -> budget_ok l'.
Proof.
  intros Hl [o Ho <-]. destruct o as [q raw reading new_id object|r usage|r|reading]; unfold run_op; rewrite discard_fst.
  - by apply reserve_step_ok.
  - by apply settle_ok.
  - by apply timeout_ok.
  - destruct (snapshot_state reading l) as [->|[now ->]]; [done|by apply with_last_ok].
Qed.
Lemma budget_reachable_ok l : budget_reachable l -> budget_ok l.
Proof.
  intros (mode & nonce & reading & l0 & H0 & Hs). apply new_ledger_ok in H0.
  induction Hs as [|l0 l1 l2 H _ IH]; [done|]. by eapply IH, budget_step_ok.
Qed.
Lemma budget_step_grows l l' : budget_ok l -> budget_step l l' -> bl_nonce l' = bl_nonce l /\ bl_completed l ⊆ bl_completed l'.
Proof.
  intros Hl [o Ho <-]. destruct o as [q raw reading new_id object|r usage|r|reading]; unfold run_op; rewrite discard_fst.
  - destruct (reserve q raw reading new_id object l) as [l' res] eqn:E. simpl.
    apply reserve_inv in E as [[[->|[now ->]] _]|(p & timeout & tool_price & cost & now & n & H)]; [done..|].
    cbv zeta in H. by destruct H as (_ & _ & _ & _ & _ & _ & -> & _).
  - destruct (settle r usage l) as [l' res] eqn:E. simpl.
    apply settle_inv in E as [[-> _]|(cur & charged & ov & _ & _ & [cur' n ov' _ _ _] & _)]; [done| |done]. simpl. set_solver.
  - destruct (consume_timeout r l) as [l' res] eqn:E. simpl.
    apply timeout_inv in E as [[-> _]|(cur & ov & se & _ & [cur' n ov' _ _ _] & _)]; [done| |done]. simpl. set_solver.
  - by destruct (snapshot_state reading l) as [->|[now ->]].
Qed.
Lemma budget_steps_grow l l' : budget_ok l -> rtc budget_step l l' ->
  budget_ok l' /\ bl_nonce l' = bl_nonce l /\ bl_completed l ⊆ bl_completed l'.
Proof.
  intros Hl Hs. induction Hs as [|l0 l1 l2 H _ IH]; [done|].
  destruct (budget_step_grows _ _ Hl H) as [E1 S1]. destruct (IH (budget_step_ok _ _ Hl H)) as (? & E2 & S2).
  split; [done|]. split; [congruence|]. by transitivity (bl_completed l1).
Qed.
(** Operations that close [r]. *)
Definition closing (r : BudgetReservation) (o : BudgetOp) : Prop :=
  match o with OpSettle r' _ | OpTimeout r' => r' = r | _ => False end.
Lemma closed_is_refused l r o : budget_ok l -> rs_ledger_nonce r = bl_nonce l -> rs_reservation_id r ∈ bl_completed l ->
  closing r o -> run_op o l = (l, Raise (ReservationStateError "reservation has already been settled")).
Proof.
  intros Hl Hn Hid Ho.
  assert (H : active_reservation l r = Raise (ReservationStateError "reservation has already been settled")).
  { unfold active_reservation. rewrite Hn, Z.eqb_refl. simpl. rewrite (bo_once l Hl _ Hid). by rewrite bool_decide_true. }
  destruct o as [|r' usage|r'|]; simpl in Ho; try done; subst r'; unfold run_op, discard, settle, consume_timeout, mbind, io_bind, read, lift; simpl;
    by rewrite H.
Qed.
Lemma closing_closes l r o l1 res : budget_ok l -> closing r o -> run_op o l = (l1, res) ->
  res = Ok tt \/ res = Raise BudgetOverflowError ->
  rs_ledger_nonce r = bl_nonce l1 /\ rs_reservation_id r ∈ bl_completed l1.
Proof.
  assert (Hclosed : forall charged ov, budget_ok l -> closes l r charged l1 ov -> rs_ledger_nonce r = bl_nonce l1 /\ rs_reservation_id r ∈ bl_completed l1).
  { intros charged ov Hl [cur n ov' Hc _ _]. destruct (active_reservation_spec _ _ _ Hc) as (Hact & Hnonce & _). split; [done|].
    rewrite <- (ro_id _ _ _ _ (bo_active l Hl _ _ Hact)). simpl. set_solver. }
  intros Hl Ho Hrun Hres. destruct o as [|r' usage|r'|]; simpl in Ho; try done; subst r'; apply discard_run in Hrun as (res' & Hrun & Hr).
  - apply settle_inv in Hrun as [[_ (e & -> & Hne)]|(cur & charged & ov & _ & _ & Hcl & _)]; [|by eapply Hclosed|done].
    subst res. destruct Hres as [Hres|Hres]; [done|]. by injection Hres as ->.
  - apply timeout_inv in Hrun as [[_ (e & -> & Hne)]|(cur & ov & se & _ & Hcl & _)]; [|by eapply Hclosed|done].
    subst res. destruct Hres as [Hres|Hres]; [done|]. by injection Hres as ->.
Qed.

(** ** The properties *)
(** The decimal is [z] units, and counted whole. *)
Definition counts (d : decimal) (z : Z) : Prop := on_grid GRID d /\ units GRID d = z.

(** C23. In every ledger the operations can reach, what is reserved is exactly the sum of the
    open reservations, what is settled exactly the sum of what the nodes spent, every attempt
    is open or closed and within the caps of the workflow, the node and the tier; and until a
    use overflows its reservation, the settled and reserved costs fit under the workflow's cap,
    and each node's under the node's: no rounding of a decimal ever loses a cost. *)
Theorem budget_is_conserved l : budget_reachable l ->
  counts (bl_reserved_cost l) (total cost_of (bl_active l)) /\
  counts (bl_settled_cost l) (total spent (bl_nodes l)) /\
  bl_attempts l = Z.of_nat (size (bl_active l)) + Z.of_nat (size (bl_completed l)) /\
  bl_attempts l = total nb_attempts (bl_nodes l) /\ bl_attempts l <= maximum_attempts (bl_mode l) /\
  map_Forall (fun name n =>
    policy_for name = Ok (nb_policy n) /\
    counts (nb_reserved_cost n) (total (cost_on name) (bl_active l)) /\
    nb_attempts n <= po_maximum_total_attempts (nb_policy n) /\
    map_Forall (fun _ k => k <= po_maximum_attempts_per_tier (nb_policy n)) (nb_tier_attempts n)) (bl_nodes l) /\
  (bl_overdrawn l = false ->
   units GRID (bl_settled_cost l) + units GRID (bl_reserved_cost l) <= units GRID (cost_cap (bl_mode l)) /\
   map_Forall (fun _ n => spent n + held n <= units GRID (po_node_cost_cap (nb_policy n))) (bl_nodes l)).
Proof.
  intros Hl%budget_reachable_ok. destruct Hl as [Hact Hnodes Hres [Gs [Hset _]] [Hcount Hmax] Hatt _ _ Hcap Hod].
  split; [exact Hres|]. split; [by split|]. do 3 (split; [done|]). split.
  - intros name n Hn. destruct (Hnodes name n Hn) as [Hp Hr _ Ha Ht _]. split; [exact Hp|]. split; [exact Hr|]. split; [lia|].
    intros tier k Hk. apply (Ht tier k Hk).
  - intros Ho. split; [by apply Hcap|]. intros name n Hn. apply (no_cap _ _ _ (Hnodes name n Hn)). by eapply Hod.
Qed.
(** C26. A reservation is closed once: after a settlement or a timeout of it took effect, even
    one that raised its overflow, then whatever is reserved, settled, timed out or read
    afterwards, every settlement or timeout of it raises [ReservationStateError] and leaves
    the ledger as it was. *)
Theorem reservations_are_closed_once l r o l1 res l2 o' :
  budget_reachable l -> closing r o -> plausible_op l o -> run_op o l = (l1, res) ->
  res = Ok tt \/ res = Raise BudgetOverflowError -> rtc budget_step l1 l2 -> closing r o' ->
  run_op o' l2 = (l2, Raise (ReservationStateError "reservation has already been settled")).
Proof.
  intros Hl%budget_reachable_ok Ho Hp Hrun Hres Hs Ho'.
  destruct (closing_closes _ _ _ _ _ Hl Ho Hrun Hres) as [Hn Hid].
  assert (Hl1 : budget_ok l1) by (eapply budget_step_ok; [exact Hl|exists o; [exact Hp|by rewrite Hrun]]).
  destruct (budget_steps_grow _ _ Hl1 Hs) as (Hl2 & Hn2 & Hsub). apply (closed_is_refused l2 r); [done|congruence|set_solver|done].
Qed.

(** ** A run of the ledger *)
Module BudgetExample.
Definition clock (seconds : Z) : Reading := Some (float_int seconds).
Definition usage (input output : Z) : UsageTokens :=
  {| us_input_tokens := input; us_cached_input_tokens := 0; us_cache_write_tokens := 0; us_output_tokens := output;
     us_web_search_tool_calls := 0 |}.
Definition request (node model : string) : ReserveRequest :=
  {| rq_node_name := node; rq_model := model; rq_band := SHORT; rq_usage := usage 5000 600; rq_maximum_tool_calls := 0;
     rq_attempt_timeout_seconds := None |}.
Definition fresh_ledger : WorkflowBudgetLedger :=
  match new_ledger M_ACTIVE 7 (clock 100) with
  | Ok l => l
  | Raise _ => {| bl_mode := M_ACTIVE; bl_nonce := 0; bl_last_monotonic := S754_nan; bl_deadline_monotonic := S754_nan;
                  bl_reserved_cost := ZERO; bl_settled_cost := ZERO; bl_attempts := 0; bl_nodes := ∅; bl_active := ∅;
                  bl_completed := ∅; bl_exhausted := false; bl_overdrawn := false |}
  end.
Definition filter_request : BudgetOp := OpReserve (request "event_filter" "gpt-5.6-luna") None (clock 101) "a" 1.
Definition planner_request : BudgetOp := OpReserve (request "decision_planner" "gpt-5.6-terra") None (clock 102) "b" 2.
(** Two reservations, then the first is used past what it reserved. *)
Definition reserved_ledger : WorkflowBudgetLedger := (run_op filter_request fresh_ledger).1.
Definition both_reserved : WorkflowBudgetLedger := (run_op planner_request reserved_ledger).1.
Definition first : BudgetReservation :=
  default {| rs_object := 0; rs_reservation_id := ""; rs_node_name := ""; rs_model := ""; rs_band := SHORT; rs_reserved_cost := ZERO;
             rs_deadline_monotonic := S754_nan; rs_ledger_nonce := 0; rs_reserved_usage := usage 0 0;
             rs_web_search_tool_price := ZERO |} (bl_active both_reserved !! "a").
Definition overflowing : BudgetOp := OpSettle first (usage 5000 601).
Definition overdrawn_ledger : WorkflowBudgetLedger := (run_op overflowing both_reserved).1.

Lemma plausible (input output : Z) : bool_decide (0 <= input <= MAX_TOKENS /\ 0 <= output <= MAX_TOKENS) = true ->
  plausible_usage (usage input output).
Proof.
  intros [H1 H2]%bool_decide_eq_true. unfold plausible_usage. cbn [usage us_input_tokens us_cache_write_tokens us_output_tokens us_web_search_tool_calls].
  assert (0 <= MAX_TOKENS) by (vm_compute; discriminate). repeat split; try lia. unfold validate_usage. cbn -[Z.leb Z.ltb].
  rewrite !(proj2 (Z.leb_le _ _)) by lia. simpl. by rewrite (proj2 (Z.ltb_ge _ _)) by lia.
Qed.
Lemma default_price p : web_search_tool_price None = Ok p -> plausible_tool_price p.
Proof.
  intros H. assert (E : web_search_tool_price None = Ok (Dec false 100 (-1))) by (vm_compute; reflexivity).
  rewrite E in H. injection H as <-. split; split; vm_compute; discriminate.
Qed.
Lemma both_reachable : budget_reachable both_reserved.
Proof.
  exists M_ACTIVE, 7, (clock 100), fresh_ledger. split; [vm_compute; reflexivity|].
  apply (rtc_l _ _ reserved_ledger).
  { exists filter_request; [|reflexivity]. split; [by apply plausible|]. split; [exact default_price|]. split; [vm_compute; reflexivity|].
    by apply (bool_decide_eq_false_1 ("a" ∈ bl_completed fresh_ledger)); vm_compute. }
  apply (rtc_l _ _ both_reserved); [|apply rtc_refl].
  exists planner_request; [|reflexivity]. split; [by apply plausible|]. split; [exact default_price|].
  split; [vm_compute; reflexivity|]. by apply (bool_decide_eq_false_1 ("b" ∈ bl_completed reserved_ledger)); vm_compute.
Qed.
Example both_are_held : bl_attempts both_reserved = 2 /\ size (bl_active both_reserved) = 2%nat /\
  units GRID (bl_reserved_cost both_reserved) = total cost_of (bl_active both_reserved).
Proof. split; [|split]; vm_compute; reflexivity. Qed.

Lemma budget_is_conserved_witness :
  budget_reachable both_reserved /\ counts (bl_reserved_cost both_reserved) (total cost_of (bl_active both_reserved)).
Proof. split; [exact both_reachable|]. exact (proj1 (budget_is_conserved both_reserved both_reachable)). Defined.
(** The overflow is recorded, and the reservation closed. *)
Lemma reservations_are_closed_once_witness :
  (run_op overflowing both_reserved).2 = Raise BudgetOverflowError /\ bl_overdrawn overdrawn_ledger = true /\
  run_op (OpTimeout first) overdrawn_ledger =
    (overdrawn_ledger, Raise (ReservationStateError "reservation has already been settled")).
Proof.
  split; [vm_compute; reflexivity|]. split; [vm_compute; reflexivity|].
  apply (reservations_are_closed_once both_reserved first overflowing overdrawn_ledger (Raise BudgetOverflowError) overdrawn_ledger).
  - exact both_reachable.
  - reflexivity.
  - by apply plausible.
  - vm_compute. reflexivity.
  - by right.
  - apply rtc_refl.
  - reflexivity.
Defined.
End BudgetExample.
