(* ===== verification/WorkflowObservation.v ===== *)
(** * Host observations: market_agent/workflow_observation.py and
    market_agent/workflow_embedding_work_item.py

    What the host records of a coordinated execution: provider attempts with their
    pinned prices, the canonical fold of a workflow's usage, the checkpoints of the
    graph, and the append-only collector.  A float is a binary64; two records are
    equal in Python when their floats compare equal, which is equality up to the
    sign of a zero. *)
From stdpp Require Import pretty.
From S2P Require Import Prelude PyStrings PyDict PyFloat PyFloatText PyDecimal PyDecimalText PyModel Resilience WorkflowPricing.
Local Open Scope string_scope.
Local Open Scope list_scope.
Local Open Scope Z_scope.

(** ** Enumerations *)
Inductive CoreNodeName := N_plan | N_dispatch | N_recover | N_decide | N_reflect | N_risk | N_assemble.
#[export] Instance CoreNodeName_eq_dec : EqDecision CoreNodeName.
Proof. solve_decision. Defined.
Inductive NodeOutcome := NO_completed | NO_failed | NO_cancelled.
Inductive CheckpointDecision := CD_continue | CD_stop | CD_degrade.
#[export] Instance CheckpointDecision_eq_dec : EqDecision CheckpointDecision.
Proof. solve_decision. Defined.
Inductive UsageSource :=
  | provider_response | provider_usage_unavailable
  | fixed_cache | semantic_cache | local_knowledge | abstention | historical_cache
  | embedding_response | embedding_usage_unavailable.
#[export] Instance UsageSource_eq_dec : EqDecision UsageSource.
Proof. solve_decision. Defined.
Inductive ExecutionState := X_pending | X_running | X_succeeded | X_failed | X_cancelled.
#[export] Instance ExecutionState_eq_dec : EqDecision ExecutionState.
Proof. solve_decision. Defined.
#[export] Instance spec_float_eq_dec : EqDecision spec_float.
Proof. solve_decision. Defined.

(** ** Attempts *)
Definition EMBEDDING_MODEL_ID : string := "text-embedding-3-small".
Definition EMBEDDING_PRICING_VERSION : string := "openai-embedding-2026-09-15".
Definition EMBEDDING_INPUT_PRICE_PER_MILLION : decimal := Dec false 2 (-2).
Definition PROVIDER_PRICING_VERSION : string := "openai-standard-2026-08-01".
(** [embedding_cost] *)
Definition embedding_cost (prompt_tokens : Z) : result decimal :=
  _ ← check (0 <? prompt_tokens) (ValueError "embedding usage requires positive integer prompt tokens");
  dec_div (dec_mul (dec_of_Z prompt_tokens) EMBEDDING_INPUT_PRICE_PER_MILLION) (dec_of_Z 1000000).

(** [TokenUsage] has the five counters of [UsageTokens]. *)
Definition validate_tokens : cleaner UsageTokens := fun u =>
  _ ← check (forallb (Z.leb 0) [us_input_tokens u; us_cached_input_tokens u; us_cache_write_tokens u; us_output_tokens u;
                                us_web_search_tool_calls u]) (ValidationError "greater than or equal to 0");
  _ ← raise_when (us_input_tokens u <? us_cached_input_tokens u) (ValueError "cached input tokens cannot exceed input tokens");
  Ok u.
Definition zero_tokens : UsageTokens :=
  {| us_input_tokens := 0; us_cached_input_tokens := 0; us_cache_write_tokens := 0; us_output_tokens := 0; us_web_search_tool_calls := 0 |}.
(** [NonNegativeFinite] on floats. *)
Definition NonNegativeFloat : cleaner spec_float := fun f =>
  if float_finite f && SFleb float_0 f then Ok f else Raise (ValidationError "greater than or equal to 0").

Record AttemptUsage := {
  at_workflow_id : string; at_trace_id : string; at_task_id : string; at_attempt : Z; at_node : CoreNodeName;
  at_provider : string; at_provider_request_id : string; at_model_id : string; at_model_tier : option ModelTier;
  at_pricing_version : string; at_pricing_model_id : option string; at_pricing_band : option PricingBand;
  at_tokens : option UsageTokens; at_estimated_cost_usd : spec_float; at_latency_ms : Z; at_source : UsageSource }.
Definition PRICING_MODEL_IDS : list string := ["gpt-5.6-luna"; "gpt-5.6-terra"; "gpt-5.6-sol"; EMBEDDING_MODEL_ID].
Definition PricingModelId : cleaner string := fun s =>
  if bool_decide (s ∈ PRICING_MODEL_IDS) then Ok s else Raise (ValidationError "pricing model").
Definition clean_attempt : cleaner AttemptUsage := fun a =>
  workflow ← ShortText (at_workflow_id a); trace ← ShortText (at_trace_id a); task ← ShortText (at_task_id a);
  attempt ← NonNegativeInt (at_attempt a); provider ← ShortText (at_provider a);
  request ← ShortText (at_provider_request_id a); model_id ← ShortText (at_model_id a);
  version ← ShortText (at_pricing_version a); pricing_model ← optional PricingModelId (at_pricing_model_id a);
  tokens ← optional validate_tokens (at_tokens a); cost ← NonNegativeFloat (at_estimated_cost_usd a);
  latency ← NonNegativeInt (at_latency_ms a);
  Ok {| at_workflow_id := workflow; at_trace_id := trace; at_task_id := task; at_attempt := attempt; at_node := at_node a;
        at_provider := provider; at_provider_request_id := request; at_model_id := model_id; at_model_tier := at_model_tier a;
        at_pricing_version := version; at_pricing_model_id := pricing_model; at_pricing_band := at_pricing_band a;
        at_tokens := tokens; at_estimated_cost_usd := cost; at_latency_ms := latency; at_source := at_source a |}.

Definition is_embedding (s : UsageSource) : bool :=
  match s with embedding_response | embedding_usage_unavailable => true | _ => false end.
Definition is_provider (s : UsageSource) : bool :=
  match s with provider_response | provider_usage_unavailable => true | _ => false end.
(** [is_provider_attempt] *)
Definition is_provider_attempt (a : AttemptUsage) : bool := is_provider (at_source a) || is_embedding (at_source a).
(** [Decimal(str(item.estimated_cost_usd))] *)
Definition attempt_cost (a : AttemptUsage) : decimal := decimal_of_float (at_estimated_cost_usd a).

Section Observation.
(** The text of the web search tool price in the process environment, when it is set. *)
Context (tool_price : option string).

(** [estimate_workflow_usage_cost] without a price argument. *)
Definition pinned_cost (model : string) (band : PricingBand) (usage : UsageTokens) : result decimal :=
  pricing ← workflow_model_pricing model band;
  price ← web_search_tool_price tool_price;
  estimate_workflow_usage_cost model band usage price.
(** The branch of an embedding in [validate_source_shape]. *)
Definition embedding_shape (a : AttemptUsage) : result unit :=
  _ ← check (bool_decide (at_provider a = "openai") && bool_decide (at_model_tier a = None) &&
             bool_decide (at_model_id a = EMBEDDING_MODEL_ID) && bool_decide (at_pricing_model_id a = Some EMBEDDING_MODEL_ID) &&
             bool_decide (at_pricing_version a = EMBEDDING_PRICING_VERSION) && bool_decide (at_pricing_band a = None))
        (ValueError "embedding attempts require their exact pinned pricing identity");
  if bool_decide (at_source a = embedding_usage_unavailable) then
    raise_when (is_Some_b (at_tokens a) || SFleb (at_estimated_cost_usd a) float_0)
      (ValueError "unverified embeddings require positive reserved cost and no fabricated tokens")
  else match at_tokens a with
  | None => Raise (ValueError "embedding responses require verified input-only token usage")
  | Some tokens =>
      _ ← check (forallb (Z.eqb 0) [us_output_tokens tokens; us_cached_input_tokens tokens; us_cache_write_tokens tokens;
                                    us_web_search_tool_calls tokens])
            (ValueError "embedding responses require verified input-only token usage");
      cost ← embedding_cost (us_input_tokens tokens);
      check (dec_eqb (attempt_cost a) cost) (ValueError "embedding response cost does not match exact pinned pricing")
  end.
(** [AttemptUsage.validate_source_shape] *)
Definition validate_source_shape (a : AttemptUsage) : result unit :=
  if is_embedding (at_source a) then embedding_shape a
  else
    let provider := is_provider (at_source a) in
    let response := bool_decide (at_source a = provider_response) in
    _ ← raise_when (provider && negb (is_Some_b (at_model_tier a))) (ValueError "provider attempts require a model tier");
    _ ← raise_when (provider && (negb (is_Some_b (at_pricing_model_id a)) || negb (is_Some_b (at_pricing_band a))))
          (ValueError "provider attempts require pinned pricing identity");
    _ ← raise_when (provider && negb (bool_decide (at_pricing_model_id a =
                       (fun tier => "gpt-5.6-" +:+ tier_value tier) <$> at_model_tier a)))
          (ValueError "provider pricing model does not match model tier");
    _ ← raise_when (response && negb (is_Some_b (at_tokens a))) (ValueError "provider responses require verified token usage");
    _ ← raise_when (response && negb (bool_decide (at_pricing_version a = PROVIDER_PRICING_VERSION)))
          (ValueError "provider response pricing version is not pinned");
    _ ← raise_when (bool_decide (at_source a = provider_usage_unavailable) && is_Some_b (at_tokens a))
          (ValueError "unavailable provider usage cannot fabricate tokens");
    _ ← (if negb provider then
           _ ← raise_when (is_Some_b (at_model_tier a)) (ValueError "non-provider execution cannot carry a model tier");
           _ ← check (bool_decide (at_tokens a = Some zero_tokens) && SFeqb (at_estimated_cost_usd a) float_0)
                 (ValueError "non-provider execution must carry explicit zero usage");
           raise_when (is_Some_b (at_pricing_model_id a) || is_Some_b (at_pricing_band a))
             (ValueError "non-provider execution cannot carry pricing identity")
         else Ok tt);
    match response, at_tokens a, at_pricing_model_id a, at_pricing_band a with
    | true, Some tokens, Some model, Some band =>
        expected ← pinned_cost model band tokens;
        check (dec_eqb (attempt_cost a) expected) (ValueError "provider response cost does not match exact pinned pricing")
    | _, _, _, _ => Ok tt
    end.
Definition validate_attempt : cleaner AttemptUsage := model clean_attempt validate_source_shape.

(** ** Equality in Python *)
Definition float_value (f : spec_float) : spec_float := match f with S754_zero _ => float_0 | _ => f end.
(** An attempt up to the sign of a zero cost: what [==] compares. *)
Definition value_of (a : AttemptUsage) : AttemptUsage :=
  {| at_workflow_id := at_workflow_id a; at_trace_id := at_trace_id a; at_task_id := at_task_id a; at_attempt := at_attempt a;
     at_node := at_node a; at_provider := at_provider a; at_provider_request_id := at_provider_request_id a;
     at_model_id := at_model_id a; at_model_tier := at_model_tier a; at_pricing_version := at_pricing_version a;
     at_pricing_model_id := at_pricing_model_id a; at_pricing_band := at_pricing_band a; at_tokens := at_tokens a;
     at_estimated_cost_usd := float_value (at_estimated_cost_usd a); at_latency_ms := at_latency_ms a; at_source := at_source a |}.
#[export] Instance AttemptUsage_eq_dec : EqDecision AttemptUsage.
Proof. solve_decision. Defined.
Definition attempts_eqb (l k : list AttemptUsage) : bool := bool_decide (value_of <$> l = value_of <$> k).

(** ** The canonical fold of a workflow's usage *)
(** The derived fields of a [WorkflowUsage]. *)
Record UsageFold := {
  uf_aggregate : UsageTokens; uf_estimated_cost_usd : spec_float; uf_provider_attempt_count : Z;
  uf_unverified_provider_attempt_count : Z; uf_execution_count : Z; uf_total_latency_ms : Z;
  uf_model_versions : list (string * string) }.
Definition sum_of {A} (f : A -> Z) (l : list A) : Z := foldr (fun a acc => f a + acc) 0 l.
(** [_aggregate] *)
Definition aggregate (attempts : list AttemptUsage) : UsageTokens :=
  let known := omap at_tokens attempts in
  {| us_input_tokens := sum_of us_input_tokens known; us_cached_input_tokens := sum_of us_cached_input_tokens known;
     us_cache_write_tokens := sum_of us_cache_write_tokens known; us_output_tokens := sum_of us_output_tokens known;
     us_web_search_tool_calls := sum_of us_web_search_tool_calls known |}.
Definition pair_leb (a b : string * string) : bool :=
  match String.compare a.1 b.1 with Lt => true | Gt => false | Eq => String.leb a.2 b.2 end.
Definition count {A} (p : A -> bool) (l : list A) : Z := Z.of_nat (length (List.filter p l)).
(** [_usage_values] *)
Definition total_cost (attempts : list AttemptUsage) : decimal := foldl dec_add ZERO (attempt_cost <$> attempts).
Definition usage_values (attempts : list AttemptUsage) : result UsageFold :=
  tokens ← validate_tokens (aggregate attempts);
  Ok {| uf_aggregate := tokens;
        uf_estimated_cost_usd := float_of_decimal (total_cost attempts);
        uf_provider_attempt_count := count is_provider_attempt attempts;
        uf_unverified_provider_attempt_count :=
          count (fun a => bool_decide (at_source a = provider_usage_unavailable) || bool_decide (at_source a = embedding_usage_unavailable)) attempts;
        uf_execution_count := Z.of_nat (length attempts);
        uf_total_latency_ms := sum_of at_latency_ms attempts;
        uf_model_versions := sort_by pair_leb (remove_dups ((fun a => (at_model_id a, at_pricing_version a)) <$> List.filter is_provider_attempt attempts)) |}.
(** [==] on the folds; no cost is a NaN. *)
Definition fold_eqb (a b : UsageFold) : bool :=
  bool_decide (uf_aggregate a = uf_aggregate b) && SFeqb (uf_estimated_cost_usd a) (uf_estimated_cost_usd b) &&
  (uf_provider_attempt_count a =? uf_provider_attempt_count b) &&
  (uf_unverified_provider_attempt_count a =? uf_unverified_provider_attempt_count b) &&
  (uf_execution_count a =? uf_execution_count b) && (uf_total_latency_ms a =? uf_total_latency_ms b) &&
  bool_decide (uf_model_versions a = uf_model_versions b).
Record WorkflowUsage := {
  wu_workflow_id : string; wu_trace_id : string; wu_attempts : list AttemptUsage; wu_fold : UsageFold }.
Definition clean_fold : cleaner UsageFold := fun f =>
  tokens ← validate_tokens (uf_aggregate f); cost ← NonNegativeFloat (uf_estimated_cost_usd f);
  provider ← NonNegativeInt (uf_provider_attempt_count f); unverified ← NonNegativeInt (uf_unverified_provider_attempt_count f);
  executions ← NonNegativeInt (uf_execution_count f); latency ← NonNegativeInt (uf_total_latency_ms f);
  versions ← tuple_of (pair_of ShortText ShortText) (uf_model_versions f);
  Ok {| uf_aggregate := tokens; uf_estimated_cost_usd := cost; uf_provider_attempt_count := provider;
        uf_unverified_provider_attempt_count := unverified; uf_execution_count := executions; uf_total_latency_ms := latency;
        uf_model_versions := versions |}.
Definition clean_workflow_usage : cleaner WorkflowUsage := fun u =>
  workflow ← ShortText (wu_workflow_id u); trace ← ShortText (wu_trace_id u);
  attempts ← tuple_of validate_attempt (wu_attempts u); fold ← clean_fold (wu_fold u);
  Ok {| wu_workflow_id := workflow; wu_trace_id := trace; wu_attempts := attempts; wu_fold := fold |}.
Definition attempt_key (a : AttemptUsage) : string * Z * string := (at_task_id a, at_attempt a, at_provider_request_id a).
(** [WorkflowUsage.validate_canonical_fold] *)
Definition validate_canonical_fold (u : WorkflowUsage) : result unit :=
  _ ← check (forallb (fun a => bool_decide (at_workflow_id a = wu_workflow_id u) && bool_decide (at_trace_id a = wu_trace_id u)) (wu_attempts u))
        (ValueError "attempt identity does not match workflow usage");
  _ ← check (unique (attempt_key <$> wu_attempts u)) (ValueError "workflow usage attempts must be unique");
  expected ← usage_values (wu_attempts u);
  check (fold_eqb (wu_fold u) expected) (ValueError "workflow usage is not the exact canonical fold").
Definition validate_workflow_usage : cleaner WorkflowUsage := model clean_workflow_usage validate_canonical_fold.
(** [WorkflowUsage.from_attempts] *)
Definition from_attempts (workflow_id trace_id : string) (attempts : list AttemptUsage) : result WorkflowUsage :=
  checked ← tuple_of validate_attempt attempts;
  values ← usage_values checked;
  validate_workflow_usage {| wu_workflow_id := workflow_id; wu_trace_id := trace_id; wu_attempts := checked; wu_fold := values |}.
Definition usage_eqb (a b : WorkflowUsage) : bool :=
  bool_decide (wu_workflow_id a = wu_workflow_id b) && bool_decide (wu_trace_id a = wu_trace_id b) &&
  attempts_eqb (wu_attempts a) (wu_attempts b) && fold_eqb (wu_fold a) (wu_fold b).

(** ** Checkpoints *)
Record TaskRetryState := { rs_task_id : string; rs_attempts_consumed : Z; rs_retries_consumed : Z; rs_retries_remaining : Z }.
Definition clean_retry : cleaner TaskRetryState := fun r =>
  task ← ShortText (rs_task_id r); attempts ← NonNegativeInt (rs_attempts_consumed r);
  consumed ← NonNegativeInt (rs_retries_consumed r); remaining ← NonNegativeInt (rs_retries_remaining r);
  Ok {| rs_task_id := task; rs_attempts_consumed := attempts; rs_retries_consumed := consumed; rs_retries_remaining := remaining |}.
(** [TaskRetryState.validate_retry_accounting] *)
Definition validate_retry : cleaner TaskRetryState :=
  model clean_retry (fun r => check (rs_retries_consumed r =? Z.max 0 (rs_attempts_consumed r - 1))
                                (ValueError "retry counters do not match attempts consumed")).
Record ObservedWorkItem := {
  oi_task_id : string; oi_task_kind : string; oi_worker_id : string; oi_owner_node : CoreNodeName;
  oi_dependency_ids : list string; oi_maximum_retries : Z; oi_execution_state : ExecutionState; oi_attempt_ids : list string }.
Definition clean_item : cleaner ObservedWorkItem := fun w =>
  task ← ShortText (oi_task_id w); kind ← ShortText (oi_task_kind w); worker ← ShortText (oi_worker_id w);
  dependencies ← tuple_of ShortText (oi_dependency_ids w); retries ← NonNegativeInt (oi_maximum_retries w);
  attempts ← tuple_of ShortText (oi_attempt_ids w);
  Ok {| oi_task_id := task; oi_task_kind := kind; oi_worker_id := worker; oi_owner_node := oi_owner_node w;
        oi_dependency_ids := dependencies; oi_maximum_retries := retries; oi_execution_state := oi_execution_state w;
        oi_attempt_ids := attempts |}.
(** [ObservedWorkItem.validate_dependencies] *)
Definition validate_item : cleaner ObservedWorkItem :=
  model clean_item (fun w =>
    raise_when (bool_decide (oi_task_id w ∈ oi_dependency_ids w) || negb (unique (oi_dependency_ids w)) || negb (unique (oi_attempt_ids w)))
      (ValueError "work-item dependencies must be unique and external")).
Record NodeCheckpoint := {
  ck_workflow_id : string; ck_trace_id : string; ck_plan_revision : Z; ck_ordinal : Z; ck_node : CoreNodeName;
  ck_outcome : NodeOutcome; ck_task_ids : list string; ck_completed_task_ids : list string; ck_failed_task_ids : list string;
  ck_action_fingerprint : string; ck_work_items : list ObservedWorkItem; ck_retry_state : list TaskRetryState; ck_usage : WorkflowUsage }.
Definition clean_checkpoint : cleaner NodeCheckpoint := fun c =>
  workflow ← ShortText (ck_workflow_id c); trace ← ShortText (ck_trace_id c); revision ← NonNegativeInt (ck_plan_revision c);
  ordinal ← PositiveInt (ck_ordinal c); tasks ← tuple_of ShortText (ck_task_ids c);
  completed ← tuple_of ShortText (ck_completed_task_ids c); failed ← tuple_of ShortText (ck_failed_task_ids c);
  fingerprint ← Digest (ck_action_fingerprint c); items ← tuple_of validate_item (ck_work_items c);
  retries ← tuple_of validate_retry (ck_retry_state c); usage ← validate_workflow_usage (ck_usage c);
  Ok {| ck_workflow_id := workflow; ck_trace_id := trace; ck_plan_revision := revision; ck_ordinal := ordinal; ck_node := ck_node c;
        ck_outcome := ck_outcome c; ck_task_ids := tasks; ck_completed_task_ids := completed; ck_failed_task_ids := failed;
        ck_action_fingerprint := fingerprint; ck_work_items := items; ck_retry_state := retries; ck_usage := usage |}.
Definition within (l k : list string) : bool := forallb (fun x => bool_decide (x ∈ k)) l.
(** [NodeCheckpoint.validate_checkpoint] *)
Definition validate_progress (c : NodeCheckpoint) : result unit :=
  let tasks := ck_task_ids c in
  _ ← check (bool_decide (wu_workflow_id (ck_usage c) = ck_workflow_id c) && bool_decide (wu_trace_id (ck_usage c) = ck_trace_id c))
        (ValueError "checkpoint usage identity does not match");
  _ ← check (unique tasks) (ValueError "checkpoint task identities must be unique");
  _ ← check (within (ck_completed_task_ids c) tasks && within (ck_failed_task_ids c) tasks)
        (ValueError "checkpoint progress must reference checkpoint tasks");
  _ ← raise_when (existsb (fun x => bool_decide (x ∈ ck_failed_task_ids c)) (ck_completed_task_ids c))
        (ValueError "checkpoint completed and failed progress must be disjoint");
  let retry_ids := rs_task_id <$> ck_retry_state c in
  let item_ids := oi_task_id <$> ck_work_items c in
  _ ← raise_when (negb (bool_decide (tasks = [])) &&
                  negb (within retry_ids tasks && within tasks retry_ids && within item_ids tasks && within tasks item_ids))
        (ValueError "checkpoint tasks require complete retry and work-item bindings");
  check (unique retry_ids && unique item_ids) (ValueError "checkpoint task bindings must be unique").
Definition validate_checkpoint : cleaner NodeCheckpoint := model clean_checkpoint validate_progress.
Record CheckpointPermit := {
  pm_workflow_id : string; pm_trace_id : string; pm_checkpoint_ordinal : Z; pm_checkpoint_digest : string;
  pm_decision : CheckpointDecision; pm_reason_code : string }.
Definition validate_permit : cleaner CheckpointPermit := fun p =>
  workflow ← ShortText (pm_workflow_id p); trace ← ShortText (pm_trace_id p); ordinal ← PositiveInt (pm_checkpoint_ordinal p);
  digest ← Digest (pm_checkpoint_digest p); reason ← ShortText (pm_reason_code p);
  Ok {| pm_workflow_id := workflow; pm_trace_id := trace; pm_checkpoint_ordinal := ordinal; pm_checkpoint_digest := digest;
        pm_decision := pm_decision p; pm_reason_code := reason |}.
End Observation.

(** ** Embedding work items: market_agent/workflow_embedding_work_item.py *)
Definition lower_hex (c : ascii) : bool := is_digit c || ((97 <=? code c) && (code c <=? 102))%N.
(** [semantic-embedding-[0-9a-f]{40}] *)
Definition SEMANTIC_PREFIX : string := "semantic-embedding-".
Definition semantic_task_id (task_id : string) : bool :=
  startswith task_id SEMANTIC_PREFIX &&
  Nat.eqb (String.length task_id) (String.length SEMANTIC_PREFIX + 40) &&
  forallb lower_hex (drop (String.length SEMANTIC_PREFIX) (list_ascii_of_string task_id)).
Definition embedding_task_allowed (task_id : string) (node : CoreNodeName) : bool :=
  match node with
  | N_plan => bool_decide (task_id ∈ ["historical-query"; "core-memory-embedding"])
  | N_dispatch | N_recover => semantic_task_id task_id
  | _ => false
  end.
Definition verified_embedding_work_item (task_id : string) (node : CoreNodeName) (attempts : list AttemptUsage) : bool :=
  embedding_task_allowed task_id node &&
  match attempts with
  | [a] => bool_decide (at_task_id a = task_id) && bool_decide (at_node a = node) && (at_attempt a =? 0) && is_embedding (at_source a)
  | _ => false
  end.

(** ** The collector *)
Record Collector := {
  cl_workflow_id : string; cl_trace_id : string; cl_checkpoints : list NodeCheckpoint; cl_attempts : list AttemptUsage;
  cl_by_key : gmap (string * Z * string) AttemptUsage }.
(** The arguments of [checkpoint]. *)
Record CheckpointRequest := {
  cq_plan_revision : Z; cq_node : CoreNodeName; cq_outcome : NodeOutcome; cq_task_ids : list string;
  cq_completed_task_ids : list string; cq_failed_task_ids : list string; cq_retry_state : list TaskRetryState;
  cq_action_fingerprint : string; cq_work_items : list ObservedWorkItem }.
(** [canonical_digest] is a digest of the checkpoint's canonical JSON. *)
Section Collector.
Context (tool_price : option string) (checkpoint_digest : NodeCheckpoint -> string).
Abbreviation Io := (io Collector).

Definition contiguous (ordinals : list Z) : bool := bool_decide (ordinals = (fun n => Z.of_nat n) <$> seq 1 (length ordinals)).
Definition keyed (attempts : list AttemptUsage) : gmap (string * Z * string) AttemptUsage :=
  foldl (fun m a => <[attempt_key a := a]> m) ∅ attempts.
(** [ExecutionObservationCollector.__init__] *)
Definition new_collector (workflow_id trace_id : string) (prior : list NodeCheckpoint) : result Collector :=
  _ ← check (truthy workflow_id && truthy trace_id) (ValueError "collector requires workflow identity and a callable sink");
  checkpoints ← mapM (validate_checkpoint tool_price) prior;
  _ ← check (forallb (fun c => bool_decide (ck_workflow_id c = workflow_id) && bool_decide (ck_trace_id c = trace_id)) checkpoints &&
             contiguous (ck_ordinal <$> checkpoints)) (ValueError "prior checkpoints do not form this workflow prefix");
  let seeded := from_option (fun c => wu_attempts (ck_usage c)) [] (last checkpoints) in
  Ok {| cl_workflow_id := workflow_id; cl_trace_id := trace_id; cl_checkpoints := checkpoints; cl_attempts := seeded;
        cl_by_key := keyed seeded |}.
Definition append_attempt (a : AttemptUsage) (c : Collector) : Collector :=
  {| cl_workflow_id := cl_workflow_id c; cl_trace_id := cl_trace_id c; cl_checkpoints := cl_checkpoints c;
     cl_attempts := cl_attempts c ++ [a]; cl_by_key := <[attempt_key a := a]> (cl_by_key c) |}.
Definition append_checkpoint (k : NodeCheckpoint) (c : Collector) : Collector :=
  {| cl_workflow_id := cl_workflow_id c; cl_trace_id := cl_trace_id c; cl_checkpoints := cl_checkpoints c ++ [k];
     cl_attempts := cl_attempts c; cl_by_key := cl_by_key c |}.
Definition record_attempt (value : AttemptUsage) : Io AttemptUsage :=
  attempt ← lift (validate_attempt tool_price value);
  identity ← read (fun c => (cl_workflow_id c, cl_trace_id c));
  _ ← lift (check (bool_decide ((at_workflow_id attempt, at_trace_id attempt) = identity)) (ValueError "attempt belongs to another workflow"));
  existing ← read (fun c => cl_by_key c !! attempt_key attempt);
  match existing with
  | Some existing =>
      _ ← lift (check (bool_decide (value_of existing = value_of attempt)) (ValueError "conflicting duplicate attempt observation"));
      mret existing
  | None => _ ← modify (append_attempt attempt); mret attempt
  end.
Definition collected_usage (c : Collector) : result WorkflowUsage :=
  from_attempts tool_price (cl_workflow_id c) (cl_trace_id c) (cl_attempts c).
Definition usage : Io WorkflowUsage := fun c => (c, collected_usage c).
Definition checkpoint_of (q : CheckpointRequest) (c : Collector) : result NodeCheckpoint :=
  usage ← collected_usage c;
  validate_checkpoint tool_price
    {| ck_workflow_id := cl_workflow_id c; ck_trace_id := cl_trace_id c; ck_plan_revision := cq_plan_revision q;
       ck_ordinal := Z.of_nat (length (cl_checkpoints c)) + 1; ck_node := cq_node q; ck_outcome := cq_outcome q;
       ck_task_ids := cq_task_ids q; ck_completed_task_ids := cq_completed_task_ids q; ck_failed_task_ids := cq_failed_task_ids q;
       ck_action_fingerprint := cq_action_fingerprint q; ck_work_items := cq_work_items q; ck_retry_state := cq_retry_state q;
       ck_usage := usage |}.
Definition local_permit (k : NodeCheckpoint) : CheckpointPermit :=
  {| pm_workflow_id := ck_workflow_id k; pm_trace_id := ck_trace_id k; pm_checkpoint_ordinal := ck_ordinal k;
     pm_checkpoint_digest := checkpoint_digest k; pm_decision := CD_continue; pm_reason_code := "local_checkpoint_authorized" |}.
Definition binds (p : CheckpointPermit) (k : NodeCheckpoint) : bool :=
  bool_decide (pm_workflow_id p = ck_workflow_id k) && bool_decide (pm_trace_id p = ck_trace_id k) &&
  (pm_checkpoint_ordinal p =? ck_ordinal k) && bool_decide (pm_checkpoint_digest p = checkpoint_digest k).
(** [CheckpointPermit.authorizes_continuation] *)
Definition authorizes_continuation (p : CheckpointPermit) (k : NodeCheckpoint) : bool :=
  binds p k && bool_decide (pm_decision p = CD_continue).
(** [checkpoint]; the sink answers a permit or raises. *)
Definition checkpoint (sink : option (NodeCheckpoint -> result CheckpointPermit)) (q : CheckpointRequest) : Io CheckpointPermit :=
  made ← read (checkpoint_of q);
  k ← lift made;
  permit ← lift (match sink with
                 | Some sink =>
                     permit ← sink k;
                     permit ← validate_permit permit;
                     _ ← check (binds permit k) (ValueError "checkpoint permit does not bind the checkpoint");
                     Ok permit
                 | None => validate_permit (local_permit k)
                 end);
  _ ← modify (append_checkpoint k);
  mret permit.

(** *** Validation is idempotent *)
#[export] Instance validate_tokens_idem : Idem validate_tokens.
Proof. intros x y H. pose proof H as H'. unfold validate_tokens in H. inv_ok H. by subst. Qed.
#[export] Instance NonNegativeFloat_idem : Idem NonNegativeFloat.
Proof. intros x y. unfold NonNegativeFloat. split_if; [|done]. intros [= <-]. by rewrite Heqb. Qed.
#[export] Instance PricingModelId_idem : Idem PricingModelId.
Proof. intros x y. unfold PricingModelId. split_if; [|done]. intros [= <-]. by rewrite Heqb. Qed.
#[export] Instance clean_attempt_idem : Idem clean_attempt.
Proof. solve_fields_idem. Qed.
#[export] Instance validate_attempt_idem : Idem (validate_attempt tool_price).
Proof. apply _. Qed.
#[export] Instance clean_fold_idem : Idem clean_fold.
Proof. solve_fields_idem. Qed.
#[export] Instance validate_usage_idem : Idem (validate_workflow_usage tool_price).
Proof. unfold validate_workflow_usage. apply model_idem. unfold clean_workflow_usage. intros x y H. inv_ok H. subst y. cbn.
  by rewrite (idem _ _ Hok); cbn; rewrite (idem _ _ Hok0); cbn; rewrite (idem _ _ Hok1); cbn; rewrite (idem _ _ Hok2). Qed.
#[export] Instance validate_retry_idem : Idem validate_retry.
Proof. unfold validate_retry. apply model_idem. solve_fields_idem. Qed.
#[export] Instance validate_item_idem : Idem validate_item.
Proof. unfold validate_item. apply model_idem. solve_fields_idem. Qed.
#[export] Instance validate_checkpoint_idem : Idem (validate_checkpoint tool_price).
Proof. unfold validate_checkpoint. apply model_idem. unfold clean_checkpoint. intros x y H. inv_ok H. subst y. cbn.
  by repeat match goal with Ha : _ = Ok ?a |- context [?f ?a] => rewrite (idem _ _ Ha); cbn; clear Ha end. Qed.

(** *** The collector only appends *)
Lemma collected_attempts c u : Forall (fun a => validate_attempt tool_price a = Ok a) (cl_attempts c) ->
  collected_usage c = Ok u -> wu_attempts u = cl_attempts c /\ validate_workflow_usage tool_price u = Ok u.
Proof.
  intros Hv H. assert (Ht : tuple_of (validate_attempt tool_price) (cl_attempts c) = Ok (cl_attempts c)).
  { apply tuple_of_fix. intros a Ha. rewrite Forall_forall in Hv. by apply Hv. }
  unfold collected_usage, from_attempts in H. rewrite Ht in H. cbn [mbind result_bind] in H. inv_ok H.
  split; [|by eapply idem]. unfold validate_workflow_usage in H. apply model_Ok in H as [H _].
  unfold clean_workflow_usage in H. inv_ok H. subst u. cbn in *. congruence.
Qed.
Lemma made_checkpoint q c k : Forall (fun a => validate_attempt tool_price a = Ok a) (cl_attempts c) ->
  checkpoint_of q c = Ok k ->
  validate_checkpoint tool_price k = Ok k /\ ck_ordinal k = Z.of_nat (length (cl_checkpoints c)) + 1 /\
  wu_attempts (ck_usage k) = cl_attempts c.
Proof.
  intros Hv H. unfold checkpoint_of in H. inv_ok H. destruct (collected_attempts c a Hv Hok) as [Ha Hu].
  split; [by eapply idem|]. unfold validate_checkpoint in H. apply model_Ok in H as [H _].
  unfold clean_checkpoint in H. inv_ok H. subst k. cbn in *.
  match goal with H : PositiveInt _ = Ok ?n |- _ => unfold PositiveInt in H; destruct (0 <? _) in H; [injection H as <-|done] end.
  split; [done|]. match goal with H : validate_workflow_usage _ a = Ok ?u |- _ => rewrite Hu in H; by injection H as <- end.
Qed.
Inductive CollectorOp :=
  | RecordAttempt (value : AttemptUsage)
  | ReadUsage
  | MakeCheckpoint (sink : option (NodeCheckpoint -> result CheckpointPermit)) (q : CheckpointRequest).
Definition collect (o : CollectorOp) (c : Collector) : Collector :=
  match o with
  | RecordAttempt value => (record_attempt value c).1
  | ReadUsage => (usage c).1
  | MakeCheckpoint sink q => (checkpoint sink q c).1
  end.
Definition checkpoint_attempts (k : NodeCheckpoint) : list AttemptUsage := wu_attempts (ck_usage k).
Record collector_ok (c : Collector) : Prop := {
  cl_valid : Forall (fun a => validate_attempt tool_price a = Ok a) (cl_attempts c);
  cl_unique : NoDup (attempt_key <$> cl_attempts c);
  cl_keyed : forall key a, cl_by_key c !! key = Some a <-> a ∈ cl_attempts c /\ attempt_key a = key;
  cl_checked : Forall (fun k => validate_checkpoint tool_price k = Ok k) (cl_checkpoints c);
  cl_ordinals : forall i k, cl_checkpoints c !! i = Some k -> ck_ordinal k = Z.of_nat i + 1;
  cl_prefix : Forall (fun k => checkpoint_attempts k `prefix_of` cl_attempts c) (cl_checkpoints c);
  cl_growing : forall i j a b, (i <= j)%nat -> cl_checkpoints c !! i = Some a -> cl_checkpoints c !! j = Some b ->
    checkpoint_attempts a `prefix_of` checkpoint_attempts b }.
Lemma append_attempt_ok a c : collector_ok c -> validate_attempt tool_price a = Ok a -> cl_by_key c !! attempt_key a = None ->
  collector_ok (append_attempt a c).
Proof.
  intros [] Ha Hn.
  assert (Hfresh : forall b, b ∈ cl_attempts c -> attempt_key b <> attempt_key a).
  { intros b Hb E. assert (cl_by_key c !! attempt_key a = Some b) by (apply cl_keyed0; done). congruence. }
  constructor; cbn; try done.
  - apply Forall_app. split; [done|]. by constructor.
  - rewrite fmap_app. apply NoDup_app. split; [done|]. split; [|apply NoDup_singleton].
    intros key Hk Hs%list_elem_of_singleton. apply list_elem_of_fmap in Hk as (b & -> & Hb). by apply (Hfresh b).
  - intros key b. rewrite elem_of_app, list_elem_of_singleton. destruct (decide (key = attempt_key a)) as [->|Hne].
    + rewrite lookup_insert_eq. split; [intros [= <-]; tauto|]. intros [[Hb| ->] E]; [by destruct (Hfresh b Hb)|done].
    + rewrite lookup_insert_ne by done. rewrite cl_keyed0. split; [naive_solver|]. intros [[Hb| ->] E]; [done|congruence].
  - eapply Forall_impl; [done|]. intros k Hk. by apply prefix_app_r.
Qed.
Lemma append_checkpoint_ok k c : collector_ok c -> validate_checkpoint tool_price k = Ok k ->
  ck_ordinal k = Z.of_nat (length (cl_checkpoints c)) + 1 -> checkpoint_attempts k = cl_attempts c -> collector_ok (append_checkpoint k c).
Proof.
  intros [] Hk Ho Ha. constructor; cbn; try done.
  - apply Forall_app. split; [done|]. by constructor.
  - intros i x [Hx|[Hi Hx]]%lookup_app_Some; [by apply cl_ordinals0|]. destruct (i - _)%nat eqn:E; [|done]. injection Hx as <-. lia.
  - apply Forall_app. split; [done|]. constructor; [by rewrite Ha|done].
  - intros i j a b Hij Hi [Hj|[Hj Hb]]%lookup_app_Some.
    + apply lookup_app_Some in Hi as [Hi|[Hi _]]; [by apply (cl_growing0 i j)|]. apply lookup_lt_Some in Hj. lia.
    + destruct (j - _)%nat eqn:E; [|done]. injection Hb as <-. rewrite Ha.
      apply lookup_app_Some in Hi as [Hi|[Hi Ha']].
      * rewrite Forall_lookup in cl_prefix0. by eapply cl_prefix0.
      * destruct (i - _)%nat eqn:E'; [|done]. injection Ha' as <-. by rewrite Ha.
Qed.
Lemma collect_ok o c : collector_ok c -> collector_ok (collect o c).
Proof.
  intros Hc. destruct o as [value| |sink q]; cbn [collect].
  - unfold record_attempt, mbind, io_bind, lift, read. destruct (validate_attempt tool_price value) as [a|] eqn:Ea; [|done].
    destruct (check _ _); [|done]. destruct (cl_by_key c !! attempt_key a) eqn:Ek; [by destruct (check _ _)|].
    cbn. apply append_attempt_ok; [done|by eapply idem|done].
  - done.
  - unfold checkpoint, mbind, io_bind, lift, read. destruct (checkpoint_of q c) as [k|] eqn:Ek; [|done].
    destruct (made_checkpoint q c k (cl_valid c Hc) Ek) as (Hk & Ho & Ha).
    match goal with |- context [match ?m with Ok _ => _ | Raise _ => _ end] => destruct m; [|done] end.
    by apply append_checkpoint_ok.
Qed.
Lemma fresh_collector_ok workflow trace c : new_collector workflow trace [] = Ok c -> collector_ok c.
Proof.
  unfold new_collector. intros H. inv_ok H. simpl in Hok0. injection Hok0 as <-. subst c. constructor; cbn; try done.
  - constructor.
  - intros key a0. split; [done|by intros [?%elem_of_nil _]].
Qed.
(** The collector is append-only: whatever is recorded, read and checkpointed, and
    whatever the sink answers, its attempts stay distinct, checkpoint [i] carries the
    ordinal [i + 1], and the attempts of a checkpoint are a prefix of those of every
    later checkpoint and of those collected now. *)
Theorem collector_is_append_only (workflow trace : string) (c : Collector) (ops : list CollectorOp) :
  new_collector workflow trace [] = Ok c ->
  let c' := foldl (fun c o => collect o c) c ops in
  NoDup (attempt_key <$> cl_attempts c') /\
  (forall i k, cl_checkpoints c' !! i = Some k ->
     ck_ordinal k = Z.of_nat i + 1 /\ validate_checkpoint tool_price k = Ok k /\ checkpoint_attempts k `prefix_of` cl_attempts c') /\
  (forall i j a b, (i <= j)%nat -> cl_checkpoints c' !! i = Some a -> cl_checkpoints c' !! j = Some b ->
     checkpoint_attempts a `prefix_of` checkpoint_attempts b).
Proof.
  intros Hc c'. assert (H : collector_ok c').
  { unfold c'. apply fresh_collector_ok in Hc. clear workflow trace c'. revert c Hc. induction ops as [|o ops IH]; intros c Hc; [done|].
    cbn. apply IH. by apply collect_ok. }
  destruct H. split; [done|]. split; [|done]. intros i k Hi. rewrite Forall_lookup in cl_checked0, cl_prefix0.
  split; [by apply cl_ordinals0|]. split; [by eapply cl_checked0|by eapply cl_prefix0].
Qed.
End Collector.

(** ** A collector at work *)
Module CollectorExample.
Definition digest : string := "0000000000000000000000000000000000000000000000000000000000000000".
(** One answer from the cache for each of two tasks. *)
Definition cached (task : string) (node : CoreNodeName) : AttemptUsage :=
  {| at_workflow_id := "run-1"; at_trace_id := "trace-1"; at_task_id := task; at_attempt := 0; at_node := node; at_provider := "cache";
     at_provider_request_id := task +:+ "-request"; at_model_id := "cache"; at_model_tier := None; at_pricing_version := "none";
     at_pricing_model_id := None; at_pricing_band := None; at_tokens := Some zero_tokens; at_estimated_cost_usd := float_0;
     at_latency_ms := 5; at_source := fixed_cache |}.
Definition item (task : string) (node : CoreNodeName) (state : ExecutionState) (attempts : list string) : ObservedWorkItem :=
  {| oi_task_id := task; oi_task_kind := "technical"; oi_worker_id := "technical-agent"; oi_owner_node := node; oi_dependency_ids := [];
     oi_maximum_retries := 1; oi_execution_state := state; oi_attempt_ids := attempts |}.
Definition spent (task : string) : TaskRetryState :=
  {| rs_task_id := task; rs_attempts_consumed := 1; rs_retries_consumed := 0; rs_retries_remaining := 1 |}.
Definition request (node : CoreNodeName) (tasks : list (string * CoreNodeName)) : CheckpointRequest :=
  {| cq_plan_revision := 0; cq_node := node; cq_outcome := NO_completed; cq_task_ids := tasks.*1; cq_completed_task_ids := tasks.*1;
     cq_failed_task_ids := []; cq_retry_state := spent <$> tasks.*1; cq_action_fingerprint := digest;
     cq_work_items := (fun t => item t.1 t.2 X_succeeded [t.1 +:+ "-request"]) <$> tasks |}.
Definition ops : list CollectorOp :=
  [RecordAttempt (cached "first" N_plan); MakeCheckpoint None (request N_plan [("first", N_plan)]);
   RecordAttempt (cached "second" N_dispatch); RecordAttempt (cached "first" N_plan);
   MakeCheckpoint None (request N_dispatch [("first", N_plan); ("second", N_dispatch)])].
Definition empty : Collector :=
  {| cl_workflow_id := "run-1"; cl_trace_id := "trace-1"; cl_checkpoints := []; cl_attempts := []; cl_by_key := ∅ |}.
Definition collected : Collector := foldl (fun c o => collect None (fun _ => digest) o c) empty ops.
Example two_checkpoints :
  (at_task_id <$> cl_attempts collected, (fun k => (ck_ordinal k, length (checkpoint_attempts k))) <$> cl_checkpoints collected) =
  (["first"; "second"], [(1, 1%nat); (2, 2%nat)]).
Proof. vm_compute. reflexivity. Qed.
Lemma collector_is_append_only_witness :
  NoDup (attempt_key <$> cl_attempts collected) /\
  (forall i k, cl_checkpoints collected !! i = Some k ->
     ck_ordinal k = Z.of_nat i + 1 /\ validate_checkpoint None k = Ok k /\ checkpoint_attempts k `prefix_of` cl_attempts collected) /\
  (forall i j a b, (i <= j)%nat -> cl_checkpoints collected !! i = Some a -> cl_checkpoints collected !! j = Some b ->
     checkpoint_attempts a `prefix_of` checkpoint_attempts b).
Proof. exact (collector_is_append_only None (fun _ => digest) "run-1" "trace-1" empty ops eq_refl). Defined.
End CollectorExample.
