(* ===== verification/HarnessCheckpoints.v ===== *)
(** * Durable checkpoints: market_agent/workflow_harness.py

    What the kernel demands of the checkpoints of a run: [_checkpoint_permit],
    [_validate_checkpoint_sequence], [_validated_checkpoints] and the two routes that
    need no checkpoint.  A payload keeps a checkpoint as JSON text: reading and writing
    such texts is [json] and pydantic, so the text's parts are parameters.  The theorems
    say what any two checkpoints of an accepted stream have in common. *)
From S2P Require Import Prelude PyStrings PyDict PyJson PyModel WorkflowPricing HarnessContracts HarnessSession WorkflowObservation.
Local Open Scope string_scope.
Local Open Scope list_scope.
Local Open Scope Z_scope.

Definition HarnessKernelError (msg : string) : exn := Exn "HarnessKernelError" msg.
Definition HarnessDependencyError (msg : string) : exn := Exn "HarnessDependencyError" msg.

(** ** One checkpoint against its task registry *)
(** [TaskType] *)
Definition TASK_TYPES : list string :=
  ["market_context"; "event_filter"; "fundamental"; "technical"; "decision_planner"; "escalation"; "reconciliation"].
(** [{item.task_id: item for item in items}[task_id]] *)
Definition by_id {A} (key : A -> string) (items : list A) (task_id : string) : result A :=
  match dict_get (dict_of ((fun x => (key x, x)) <$> items)) task_id with
  | Some x => Ok x
  | None => Raise (KeyError task_id)
  end.
Definition task_attempts (c : NodeCheckpoint) (task_id : string) : list AttemptUsage :=
  List.filter (fun a => String.eqb (at_task_id a) task_id) (wu_attempts (ck_usage c)).
Definition registered_worker (kind : string) : string :=
  if String.eqb kind "embedding" then "embedding-agent"
  else if String.eqb kind "reflection" then "reflection-agent"
  else kind +:+ "-agent".
(** The branch of an embedding item, and that of the others. *)
Definition check_embedding (c : NodeCheckpoint) (item : ObservedWorkItem) (task_id : string) : result unit :=
  let attempts := task_attempts c task_id in
  if String.eqb (oi_task_kind item) "embedding" then
    _ ← check ((oi_maximum_retries item =? 0) && verified_embedding_work_item task_id (oi_owner_node item) attempts)
          (HarnessDependencyError "embedding work item has unverified host provenance");
    let completed := match attempts with a :: _ => bool_decide (at_source a = embedding_response) | [] => false end in
    check (bool_decide (oi_execution_state item = if completed then X_succeeded else X_failed) &&
           eqb (bool_decide (task_id ∈ ck_completed_task_ids c)) completed &&
           negb (eqb (bool_decide (task_id ∈ ck_failed_task_ids c)) completed))
      (HarnessDependencyError "embedding work-item progress is inconsistent")
  else
    raise_when (existsb (fun a => is_embedding (at_source a)) attempts)
      (HarnessDependencyError "embedding cannot borrow a specialist task identity").
(** The body of [for task_id in checkpoint.task_ids]. *)
Definition check_task (c : NodeCheckpoint) (task_id : string) : result unit :=
  retry ← by_id rs_task_id (ck_retry_state c) task_id;
  item ← by_id oi_task_id (ck_work_items c) task_id;
  _ ← check (bool_decide (oi_task_kind item ∈ "reflection" :: "embedding" :: TASK_TYPES))
        (HarnessDependencyError "checkpoint work item is absent from the task registry");
  _ ← check (bool_decide (oi_worker_id item = registered_worker (oi_task_kind item)))
        (HarnessDependencyError "checkpoint work-item owner is absent from the task registry");
  _ ← raise_when (3 <? oi_maximum_retries item) (HarnessDependencyError "checkpoint retry limit is invalid");
  _ ← check (within (oi_dependency_ids item) (ck_task_ids c)) (HarnessDependencyError "checkpoint dependency is not durable");
  let attempts := task_attempts c task_id in
  _ ← check_embedding c item task_id;
  _ ← check (bool_decide (oi_attempt_ids item = at_provider_request_id <$> attempts))
        (HarnessDependencyError "checkpoint work-item attempts are not durable");
  _ ← check (bool_decide ((at_attempt <$> attempts) = Z.of_nat <$> seq 0 (length attempts)))
        (HarnessDependencyError "checkpoint task attempt ordinals are not contiguous");
  _ ← raise_when (bool_decide (task_id ∈ ck_completed_task_ids c) && negb (bool_decide (oi_execution_state item = X_succeeded)) ||
                  bool_decide (task_id ∈ ck_failed_task_ids c) && negb (bool_decide (oi_execution_state item = X_failed)))
        (HarnessDependencyError "checkpoint progress does not match work-item state");
  _ ← check (rs_retries_consumed retry + rs_retries_remaining retry =? oi_maximum_retries item)
        (HarnessDependencyError "checkpoint retry budget binding is incomplete");
  let actual := Z.of_nat (length attempts) in
  _ ← check (rs_attempts_consumed retry =? actual) (HarnessDependencyError "checkpoint retry state does not bind observed attempts");
  raise_when (oi_maximum_retries item + 1 <? actual) (HarnessDependencyError "checkpoint retry limit was exceeded").
(** What does not depend on the previous checkpoint. *)
Definition check_alone (c : NodeCheckpoint) : result unit :=
  _ ← check (bool_decide ((oi_task_id <$> ck_work_items c) = ck_task_ids c))
        (HarnessDependencyError "checkpoint inventory is not canonical");
  _ ← check (forallb (fun a => bool_decide (at_task_id a ∈ ck_task_ids c)) (wu_attempts (ck_usage c)))
        (HarnessDependencyError "provider attempt references an unknown durable task");
  each (check_task c) (ck_task_ids c).

(** ** A checkpoint against its predecessor *)
Definition state_rank (s : ExecutionState) : Z :=
  match s with X_pending => 0 | X_running => 1 | _ => 2 end.
Definition terminal_item (s : ExecutionState) : bool :=
  match s with X_succeeded | X_failed | X_cancelled => true | _ => false end.
(** The body of [for task_id in previous.task_ids]. *)
Definition check_continued (previous c : NodeCheckpoint) (task_id : string) : result unit :=
  retry ← by_id rs_task_id (ck_retry_state c) task_id;
  prior ← by_id rs_task_id (ck_retry_state previous) task_id;
  item ← by_id oi_task_id (ck_work_items c) task_id;
  prior_item ← by_id oi_task_id (ck_work_items previous) task_id;
  _ ← raise_when ((rs_attempts_consumed retry <? rs_attempts_consumed prior) ||
                  (rs_retries_consumed retry <? rs_retries_consumed prior) ||
                  (rs_retries_remaining prior <? rs_retries_remaining retry) ||
                  negb (oi_maximum_retries item =? oi_maximum_retries prior_item))
        (HarnessDependencyError "checkpoint retry state is not monotonic");
  raise_when (negb (bool_decide (oi_worker_id item = oi_worker_id prior_item)) ||
              negb (bool_decide (oi_owner_node item = oi_owner_node prior_item)) ||
              negb (bool_decide (oi_dependency_ids item = oi_dependency_ids prior_item)) ||
              negb (bool_decide (take (length (oi_attempt_ids prior_item)) (oi_attempt_ids item) = oi_attempt_ids prior_item)) ||
              (state_rank (oi_execution_state item) <? state_rank (oi_execution_state prior_item)) ||
              terminal_item (oi_execution_state prior_item) && negb (bool_decide (oi_execution_state item = oi_execution_state prior_item)))
    (HarnessDependencyError "checkpoint work-item transition is not monotonic").
(** The body of [for task_id in checkpoint.task_ids[prior_count:]]. *)
Definition check_new_task (previous c : NodeCheckpoint) (task_id : string) : result unit :=
  item ← by_id oi_task_id (ck_work_items c) task_id;
  _ ← check (bool_decide (oi_owner_node item = ck_node c))
        (HarnessDependencyError "new checkpoint work must be owned by the executing node");
  raise_when (bool_decide (ck_node c = N_recover) &&
              (bool_decide (oi_dependency_ids item = []) || negb (within (oi_dependency_ids item) (ck_task_ids previous))))
    (HarnessDependencyError "recovery parent is not a durable predecessor").
Definition check_after (plan_revision : Z) (previous : option NodeCheckpoint) (c : NodeCheckpoint) : result unit :=
  new_attempts ← match previous with
    | None =>
        _ ← check (ck_plan_revision c =? plan_revision) (HarnessDependencyError "execution checkpoint plan revision is invalid");
        Ok (wu_attempts (ck_usage c))
    | Some previous =>
        let delta := ck_plan_revision c - ck_plan_revision previous in
        _ ← raise_when ((delta <? 0) || (1 <? delta) || negb (delta =? 0) && negb (bool_decide (ck_node c = N_recover)))
              (HarnessDependencyError "execution checkpoint plan revision is invalid");
        let prior_count := length (ck_task_ids previous) in
        _ ← check (bool_decide (take prior_count (ck_task_ids c) = ck_task_ids previous))
              (HarnessDependencyError "recovery inventory must preserve durable work");
        _ ← check (within (ck_completed_task_ids previous) (ck_completed_task_ids c) &&
                   within (ck_failed_task_ids previous) (ck_failed_task_ids c))
              (HarnessDependencyError "checkpoint progress is not monotonic");
        _ ← each (check_continued previous c) (ck_task_ids previous);
        _ ← each (check_new_task previous c) (drop prior_count (ck_task_ids c));
        Ok (drop (length (wu_attempts (ck_usage previous))) (wu_attempts (ck_usage c)))
    end;
  check (forallb (fun a => bool_decide (at_node a = ck_node c)) new_attempts)
    (HarnessDependencyError "provider attempt is attributed to the wrong graph node").
Fixpoint check_sequence (plan_revision : Z) (previous : option NodeCheckpoint) (checkpoints : list NodeCheckpoint) : result unit :=
  match checkpoints with
  | [] => Ok tt
  | c :: checkpoints =>
      _ ← check_alone c;
      _ ← check_after plan_revision previous c;
      check_sequence plan_revision (Some c) checkpoints
  end.
Definition LEGAL_NODES : list CoreNodeName := [N_plan; N_dispatch; N_recover; N_decide; N_reflect; N_risk; N_assemble].
(** [_validate_checkpoint_sequence] *)
Definition validate_checkpoint_sequence (checkpoints : list NodeCheckpoint) (plan : HarnessPlan) : result unit :=
  _ ← check (bool_decide ((ck_node <$> checkpoints) = take (length checkpoints) LEGAL_NODES))
        (HarnessDependencyError "execution checkpoints are not a legal graph prefix");
  check_sequence (pl_revision plan) None checkpoints.

(** ** Reading checkpoints back from a stream

    [loads] and [dumps] are [json.loads] and the sorted, compact [json.dumps];
    [json_digest] is [_canonical_digest]; [read_checkpoint] and [read_permit] are the
    fields [model_validate_json] finds in a text, before the model's validation;
    [checkpoint_json] is [model_dump(mode="json")]. *)
Section Checkpoints.
Context (tool_price : option string) (loads : string -> option Json) (dumps : Json -> string) (json_digest : Json -> string)
        (read_checkpoint : string -> option NodeCheckpoint) (checkpoint_json : NodeCheckpoint -> Json)
        (read_permit : string -> option CheckpointPermit) (permit_json : CheckpointPermit -> Json).

(** [NodeCheckpoint.canonical_digest] *)
Definition canonical_digest (c : NodeCheckpoint) : string := json_digest (checkpoint_json c).
Definition text_of (value : option Json) : option string := match value with Some (JStr s) => Some s | _ => None end.
(** A text that is its own canonical rendering, with the value it denotes. *)
Definition canonical_value (text : string) : option Json :=
  value ← loads text; if String.eqb (dumps value) text then Some value else None.
Definition CHECKPOINT_EVENT : string := "node_checkpoint_recorded".
Definition is_checkpoint_event (e : HarnessEvent) : bool := String.eqb (ev_event_type e) CHECKPOINT_EVENT.
(** [_checkpoint_permit] *)
Definition checkpoint_permit (e : HarnessEvent) : result CheckpointPermit :=
  let invalid := HarnessDependencyError "committed checkpoint permit is invalid" in
  match text_of (payload_get e "permit_json"), text_of (payload_get e "permit_digest") with
  | Some text, Some digest =>
      match canonical_value text, read_permit text with
      | Some value, Some permit =>
          permit ← except_as (validate_permit permit) invalid;
          _ ← check (String.eqb digest (json_digest value)) invalid;
          Ok permit
      | _, _ => Raise invalid
      end
  | _, _ => Raise invalid
  end.
Definition CHECKPOINT_KEYS : list string := ["checkpoint_json"; "checkpoint_digest"; "permit_json"; "permit_digest"].
(** One iteration of [_validated_checkpoints] on a checkpoint event. *)
Definition read_checkpoint_event (plan : HarnessPlan) (checkpoints : list NodeCheckpoint) (prior : option CheckpointPermit)
    (e : HarnessEvent) : result (NodeCheckpoint * CheckpointPermit) :=
  let invalid := HarnessDependencyError "committed execution checkpoint is invalid" in
  _ ← check (match prior with Some p => bool_decide (pm_decision p = CD_continue) | None => true end)
        (HarnessDependencyError "terminal checkpoint permit has a later checkpoint");
  let keys := (ev_payload e).*1 in
  _ ← check (within keys CHECKPOINT_KEYS && within CHECKPOINT_KEYS keys)
        (HarnessDependencyError "committed execution checkpoint is not canonical");
  match text_of (payload_get e "checkpoint_json"), text_of (payload_get e "checkpoint_digest") with
  | Some text, Some digest =>
      match canonical_value text, read_checkpoint text with
      | Some value, Some raw =>
          c ← except_as (validate_checkpoint tool_price raw) invalid;
          _ ← check (String.eqb digest (json_digest value) && String.eqb (ev_run_id e) (pl_run_id plan) &&
                     String.eqb (ev_trace_id e) (pl_trace_id plan) && String.eqb (ck_workflow_id c) (pl_run_id plan) &&
                     String.eqb (ck_trace_id c) (pl_trace_id plan) && (ck_ordinal c =? Z.of_nat (length checkpoints) + 1))
                (HarnessDependencyError "committed execution checkpoint binding is invalid");
          _ ← check (match last checkpoints with
                     | Some before =>
                         let attempts := wu_attempts (ck_usage before) in
                         attempts_eqb (take (length attempts) (wu_attempts (ck_usage c))) attempts
                     | None => true
                     end) (HarnessDependencyError "committed checkpoint usage is not append-only");
          permit ← checkpoint_permit e;
          _ ← check (binds canonical_digest permit c) (HarnessDependencyError "committed checkpoint permit binding is invalid");
          Ok (c, permit)
      | _, _ => Raise invalid
      end
  | _, _ => Raise invalid
  end.
Fixpoint read_checkpoints (plan : HarnessPlan) (checkpoints : list NodeCheckpoint) (prior : option CheckpointPermit)
    (events : list HarnessEvent) : result (list NodeCheckpoint) :=
  match events with
  | [] => Ok checkpoints
  | e :: events =>
      if is_checkpoint_event e then
        cp ← read_checkpoint_event plan checkpoints prior e;
        read_checkpoints plan (checkpoints ++ [cp.1]) (Some cp.2) events
      else read_checkpoints plan checkpoints prior events
  end.
(** [_validated_checkpoints] *)
Definition validated_checkpoints (events : list HarnessEvent) (plan : HarnessPlan) : result (list NodeCheckpoint) :=
  checked ← read_checkpoints plan [] None events;
  _ ← validate_checkpoint_sequence checked plan;
  Ok checked.

(** ** The routes without checkpoints *)
(** [_explicit_checkpoint_free_usage] *)
Definition explicit_checkpoint_free_usage (u : WorkflowUsage) : bool :=
  let attempts := wu_attempts u in
  let is_cache a := bool_decide (at_source a = historical_cache) in
  let informational a :=
    bool_decide (at_source a ∈ [provider_response; provider_usage_unavailable; fixed_cache; semantic_cache; local_knowledge; abstention]) in
  if bool_decide (length attempts = 0%nat) || existsb (fun a => negb (bool_decide (at_node a = N_plan))) attempts then false
  else if (count is_cache attempts =? 1) && forallb (fun a => is_cache a || is_embedding (at_source a)) attempts then
    forallb (fun a => String.eqb (at_task_id a) (if is_cache a then "historical-cache" else "historical-query")) attempts
  else
    existsb (fun a => String.eqb (at_task_id a) "informational") attempts &&
    forallb (fun a => String.eqb (at_task_id a) "historical-query" && is_embedding (at_source a) ||
                      String.eqb (at_task_id a) "informational" && informational a) attempts.
(** [coordinator_task_inventory], of the checkpoints. *)
Definition latest_inventory (checkpoints : list NodeCheckpoint) : result (list string) :=
  match last checkpoints with
  | None => Ok []
  | Some latest =>
      _ ← check (bool_decide ((oi_task_id <$> ck_work_items latest) = ck_task_ids latest))
            (HarnessDependencyError "coordinator inventory is not bound to durable work items");
      Ok (ck_task_ids latest)
  end.
End Checkpoints.

(** ** What later checkpoints keep *)
Record item_extends (a b : ObservedWorkItem) : Prop := {
  ie_worker : oi_worker_id b = oi_worker_id a;
  ie_owner : oi_owner_node b = oi_owner_node a;
  ie_dependencies : oi_dependency_ids b = oi_dependency_ids a;
  ie_retries : oi_maximum_retries b = oi_maximum_retries a;
  ie_attempts : oi_attempt_ids a `prefix_of` oi_attempt_ids b;
  ie_rank : state_rank (oi_execution_state a) <= state_rank (oi_execution_state b);
  ie_terminal : terminal_item (oi_execution_state a) = true -> oi_execution_state b = oi_execution_state a }.
Record retry_extends (a b : TaskRetryState) : Prop := {
  re_attempts : rs_attempts_consumed a <= rs_attempts_consumed b;
  re_consumed : rs_retries_consumed a <= rs_retries_consumed b;
  re_remaining : rs_retries_remaining b <= rs_retries_remaining a }.
(** [b] continues [a]: nothing durable is lost, reassigned, undone or replenished. *)
Record extends (a b : NodeCheckpoint) : Prop := {
  ex_tasks : ck_task_ids a `prefix_of` ck_task_ids b;
  ex_completed : forall t, t ∈ ck_completed_task_ids a -> t ∈ ck_completed_task_ids b;
  ex_failed : forall t, t ∈ ck_failed_task_ids a -> t ∈ ck_failed_task_ids b;
  ex_revision : ck_plan_revision a <= ck_plan_revision b;
  ex_work : forall t i, t ∈ ck_task_ids a -> by_id oi_task_id (ck_work_items a) t = Ok i ->
    exists j, by_id oi_task_id (ck_work_items b) t = Ok j /\ item_extends i j;
  ex_retry : forall t r, t ∈ ck_task_ids a -> by_id rs_task_id (ck_retry_state a) t = Ok r ->
    exists s, by_id rs_task_id (ck_retry_state b) t = Ok s /\ retry_extends r s }.
#[export] Instance item_extends_preorder : PreOrder item_extends.
Proof.
  split; [constructor; solve [reflexivity|done]|]. intros a b c [H1 H2 H3 H4 H5 H6 H7] [K1 K2 K3 K4 K5 K6 K7].
  constructor; try congruence; [by transitivity (oi_attempt_ids b)|by transitivity (state_rank (oi_execution_state b))|].
  intros Ht. specialize (H7 Ht). rewrite <- H7 in Ht. rewrite (K7 Ht). done.
Qed.
#[export] Instance retry_extends_preorder : PreOrder retry_extends.
Proof. split; [constructor; reflexivity|]. intros a b c [] []. constructor; lia. Qed.
#[export] Instance extends_preorder : PreOrder extends.
Proof.
  split.
  - intros a. constructor; try done; [intros t i _ Hi|intros t i _ Hi]; exists i; (split; [done|reflexivity]).
  - intros a b c [H1 H2 H3 H4 H5 H6] [K1 K2 K3 K4 K5 K6].
    assert (Ht : forall t, t ∈ ck_task_ids a -> t ∈ ck_task_ids b).
    { intros t Hin. destruct H1 as [k ->]. by apply elem_of_app; left. }
    constructor; [by transitivity (ck_task_ids b)|auto|auto|lia|..].
    + intros t i Hin Hi. destruct (H5 t i Hin Hi) as (j & Hj & Hij). destruct (K5 t j (Ht t Hin) Hj) as (l & Hl & Hjl).
      exists l. split; [done|]. by transitivity j.
    + intros t i Hin Hi. destruct (H6 t i Hin Hi) as (j & Hj & Hij). destruct (K6 t j (Ht t Hin) Hj) as (l & Hl & Hjl).
      exists l. split; [done|]. by transitivity j.
Qed.
Lemma take_prefix {A} (l k : list A) : take (length k) l = k -> k `prefix_of` l.
Proof. intros <-. exists (drop (length k) l). by rewrite take_drop. Qed.
Lemma within_spec l k : within l k = true <-> (forall x, x ∈ l -> x ∈ k).
Proof.
  unfold within. rewrite forallb_forall. setoid_rewrite bool_decide_eq_true.
  split; intros H x Hx; apply H; [by apply list_elem_of_In|by apply list_elem_of_In in Hx].
Qed.
Lemma continued_Ok a b t : check_continued a b t = Ok tt ->
  exists r s i j, by_id rs_task_id (ck_retry_state a) t = Ok r /\ by_id rs_task_id (ck_retry_state b) t = Ok s /\
    by_id oi_task_id (ck_work_items a) t = Ok i /\ by_id oi_task_id (ck_work_items b) t = Ok j /\
    retry_extends r s /\ item_extends i j.
Proof.
  unfold check_continued. intros H. inv_ok H. inv_checks. to_prop.
  eexists _, _, _, _. do 4 (split; [done|]). split; [constructor; lia|].
  constructor; try congruence; try (by apply take_prefix); try done.
  intros Ht.
  match goal with H : terminal_item _ && _ = false |- _ => rewrite Ht in H; cbn in H; to_prop; congruence end.
Qed.
Lemma after_extends revision a b : check_after revision (Some a) b = Ok tt ->
  extends a b /\ ck_plan_revision b <= ck_plan_revision a + (if bool_decide (ck_node b = N_recover) then 1 else 0).
Proof.
  unfold check_after. intros H. inv_ok H. clear H. inv_ok Hok. inv_checks.
  match goal with H : within _ _ && within _ _ = true |- _ => apply andb_true_iff in H as [Hc Hf] end.
  rewrite within_spec in Hc, Hf.
  pose proof (proj1 (each_Ok _ _ _) Hok3) as He.
  to_prop. match goal with H : negb (_ =? 0) && _ = false |- _ => rename H into Hn end.
  split.
  - constructor; try done; [by apply take_prefix|lia|..].
    + intros t i Ht Hi. destruct (continued_Ok a b t (He t Ht)) as (r & s & i' & j & _ & _ & Hi' & Hj & _ & Hx). rewrite Hi in Hi'.
      injection Hi' as <-. eauto.
    + intros t r Ht Hr. destruct (continued_Ok a b t (He t Ht)) as (r' & s & i' & j & Hr' & Hs & _ & _ & Hx & _). rewrite Hr in Hr'.
      injection Hr' as <-. eauto.
  - case_bool_decide; [lia|]. apply andb_false_iff in Hn as [Hn|Hn]; [to_prop; lia|done].
Qed.

Definition recovers (l : list NodeCheckpoint) : Z := count (fun c => bool_decide (ck_node c = N_recover)) l.
Lemma recovers_cons c l : recovers (c :: l) = (if bool_decide (ck_node c = N_recover) then 1 else 0) + recovers l.
Proof. unfold recovers, count. cbn [List.filter]. case_bool_decide; cbn [length]; rewrite ?Nat2Z.inj_succ; lia. Qed.
Lemma sequence_after revision cs : forall p, check_sequence revision (Some p) cs = Ok tt ->
  forall j b, cs !! j = Some b -> extends p b /\ ck_plan_revision b <= ck_plan_revision p + recovers (take (S j) cs).
Proof.
  induction cs as [|c cs IH]; intros p H j b Hj; [done|]. cbn [check_sequence] in H. inv_ok H. destruct a0.
  destruct (after_extends _ _ _ Hok0) as [Hx Hr]. rewrite firstn_cons, recovers_cons. destruct j as [|j].
  - injection Hj as <-. split; [done|]. change (recovers (take 0 cs)) with 0. lia.
  - destruct (IH c H j b Hj) as [Hx' Hr']. split; [by transitivity c|lia].
Qed.
Lemma sequence_pairs revision cs : forall p, check_sequence revision p cs = Ok tt ->
  forall i j a b, (i <= j)%nat -> cs !! i = Some a -> cs !! j = Some b -> extends a b.
Proof.
  induction cs as [|c cs IH]; intros p H i j a b Hij Hi Hj; [done|]. cbn [check_sequence] in H. inv_ok H.
  destruct i as [|i], j as [|j]; [|..|lia|].
  - injection Hi as <-. injection Hj as <-. reflexivity.
  - injection Hi as <-. by apply (sequence_after _ _ _ H j).
  - apply (IH _ H i j); [lia|done|done].
Qed.
Lemma sequence_alone revision cs : forall p, check_sequence revision p cs = Ok tt -> forall i a, cs !! i = Some a -> check_alone a = Ok tt.
Proof.
  induction cs as [|c cs IH]; intros p H i a Hi; [done|]. cbn [check_sequence] in H. inv_ok H. destruct a0.
  destruct i; [by injection Hi as <-|by eapply IH].
Qed.
Lemma check_task_bound c t : check_task c t = Ok tt -> (length (task_attempts c t) <= 4)%nat.
Proof. unfold check_task. intros H. inv_ok H. inv_checks. to_prop. lia. Qed.
Lemma sequence_revisions revision cs : check_sequence revision None cs = Ok tt ->
  forall i a, cs !! i = Some a -> revision <= ck_plan_revision a <= revision + recovers cs.
Proof.
  destruct cs as [|c cs]; intros H i a Hi; [done|]. cbn [check_sequence] in H. inv_ok H. destruct a1.
  unfold check_after in Hok0. inv_ok Hok0. clear Hok0. inv_ok Hok1. inv_checks. to_prop. subst.
  assert (Hn : forall l, 0 <= recovers l) by (intros; unfold recovers, count; lia).
  rewrite recovers_cons. destruct i as [|i].
  - injection Hi as <-. specialize (Hn cs). destruct (bool_decide _); lia.
  - destruct (sequence_after _ _ _ H i a Hi) as [[] Hr].
    assert (recovers (take (S i) cs) <= recovers cs).
    { rewrite <- (take_drop (S i) cs) at 2. unfold recovers, count. rewrite List.filter_app, length_app. lia. }
    destruct (bool_decide _); lia.
Qed.
Lemma legal_recovers cs : (ck_node <$> cs) = take (length cs) LEGAL_NODES -> recovers cs <= 1.
Proof.
  intros H. assert (E : recovers cs = count (fun n => bool_decide (n = N_recover)) (ck_node <$> cs)).
  { clear H. unfold recovers, count. induction cs as [|c cs IH]; [done|]. cbn. case_bool_decide; cbn [length]; lia. }
  rewrite E, H. generalize (length cs). intros n.
  rewrite <- (firstn_all LEGAL_NODES), take_take. assert (Hn : (n `min` length LEGAL_NODES <= 7)%nat) by (cbn; lia).
  revert Hn. generalize (n `min` length LEGAL_NODES)%nat. intros m Hm.
  do 8 (destruct m as [|m]; [vm_compute; done|]). lia.
Qed.

Definition attempt_values (c : NodeCheckpoint) : list AttemptUsage := value_of <$> wu_attempts (ck_usage c).
Definition growing (cs : list NodeCheckpoint) : Prop :=
  (forall i a, cs !! i = Some a -> ck_ordinal a = Z.of_nat i + 1) /\
  (forall i j a b, (i <= j)%nat -> cs !! i = Some a -> cs !! j = Some b -> attempt_values a `prefix_of` attempt_values b).
Section Reading.
Context (tool_price : option string) (loads : string -> option Json) (dumps : Json -> string) (json_digest : Json -> string)
        (read_checkpoint : string -> option NodeCheckpoint) (checkpoint_json : NodeCheckpoint -> Json)
        (read_permit : string -> option CheckpointPermit).
Abbreviation read_all := (read_checkpoints tool_price loads dumps json_digest read_checkpoint checkpoint_json read_permit).
Abbreviation validated := (validated_checkpoints tool_price loads dumps json_digest read_checkpoint checkpoint_json read_permit).

Lemma growing_snoc cs c : growing cs -> ck_ordinal c = Z.of_nat (length cs) + 1 ->
  match last cs with Some b => attempt_values b `prefix_of` attempt_values c | None => True end -> growing (cs ++ [c]).
Proof.
  intros [Ho Hg] Hc Hl. split.
  - intros i a [Hi|[Hi Ha]]%lookup_app_Some; [by apply Ho|]. destruct (i - _)%nat eqn:E; [|done]. injection Ha as <-. lia.
  - intros i j a b Hij Hi [Hj|[Hj Hb]]%lookup_app_Some.
    + apply lookup_app_Some in Hi as [Hi|[Hi _]]; [by apply (Hg i j)|]. apply lookup_lt_Some in Hj. lia.
    + destruct (j - _)%nat eqn:E; [|done]. injection Hb as <-.
      apply lookup_app_Some in Hi as [Hi|[Hi Ha]].
      * destruct (last cs) as [b|] eqn:El; [|by apply last_None in El as ->].
        transitivity (attempt_values b); [|done]. apply (Hg i (pred (length cs))); [|done|by rewrite <- last_lookup].
        apply lookup_lt_Some in Hi. lia.
      * destruct (i - _)%nat eqn:E'; [|done]. by injection Ha as <-.
Qed.
Lemma read_event_growing plan cs prior e c p : growing cs ->
  read_checkpoint_event tool_price loads dumps json_digest read_checkpoint checkpoint_json read_permit plan cs prior e = Ok (c, p) ->
  growing (cs ++ [c]).
Proof.
  unfold read_checkpoint_event. intros Hg H. inv_ok H. destruct (text_of _) as [text|]; [|done]. destruct (text_of _) as [digest|]; [|done].
  destruct (canonical_value _ _ _) as [value|]; [|done]. destruct (read_checkpoint text) as [raw|]; [|done]. inv_ok H.
  subst c. inv_checks. to_prop. apply growing_snoc; [done|done|].
  destruct (last cs) as [b|]; [|done]. match goal with H : attempts_eqb _ _ = true |- _ => unfold attempts_eqb in H; to_prop; rename H into Ha end.
  unfold attempt_values. apply take_prefix. by rewrite length_fmap, <- fmap_take.
Qed.
Lemma read_checkpoints_growing plan events : forall cs prior cs',
  growing cs -> read_all plan cs prior events = Ok cs' -> growing cs'.
Proof.
  induction events as [|e events IH]; intros cs prior cs' Hg H; cbn [read_checkpoints] in H; [by injection H as <-|].
  destruct (is_checkpoint_event e); [|by eapply IH]. inv_ok H. destruct a as [c p]. eapply IH; [|done]. by eapply read_event_growing.
Qed.

(** C19.  The durable checkpoints of a run only make progress.  In every stream the kernel
    accepts, the checkpoints follow the graph in order, at most once each; any later one
    extends any earlier one: it keeps the task inventory, the completed and the failed
    tasks, every work item's owner, worker, dependencies, retry limit and attempts, never
    leaves a terminal state and never gives retries back; the observed attempts grow by
    appending; the plan is revised at most once; and no task has more than four attempts. *)
Theorem durable_checkpoints_progress (events : list HarnessEvent) (plan : HarnessPlan) (cs : list NodeCheckpoint) :
  validated events plan = Ok cs ->
  (ck_node <$> cs) `prefix_of` LEGAL_NODES /\
  (forall i j a b, (i <= j)%nat -> cs !! i = Some a -> cs !! j = Some b ->
     extends a b /\ attempt_values a `prefix_of` attempt_values b) /\
  (forall i a, cs !! i = Some a ->
     ck_ordinal a = Z.of_nat i + 1 /\ pl_revision plan <= ck_plan_revision a <= pl_revision plan + 1 /\
     forall t, t ∈ ck_task_ids a -> (length (task_attempts a t) <= 4)%nat).
Proof.
  unfold validated_checkpoints, validate_checkpoint_sequence. intros H. inv_ok H. subst a. destruct a0. inv_ok Hok0. destruct a. inv_checks. to_prop.
  destruct (read_checkpoints_growing plan events [] None cs) as [Ho Hg]; [by split|done|].
  split; [|split].
  - match goal with H : _ = take _ LEGAL_NODES |- _ => rewrite H end. exists (drop (length cs) LEGAL_NODES). by rewrite take_drop.
  - intros i j a b Hij Hi Hj. split; [by eapply sequence_pairs|by apply (Hg i j)].
  - intros i a Hi. split; [by apply Ho|]. split.
    + match goal with H : _ = take _ LEGAL_NODES |- _ => apply legal_recovers in H end.
      pose proof (sequence_revisions _ _ Hok0 i a Hi). lia.
    + intros t Ht. pose proof (sequence_alone _ _ _ Hok0 i a Hi) as Ha. unfold check_alone in Ha. inv_ok Ha.
      apply check_task_bound. by apply (proj1 (each_Ok _ _ _) Ha).
Qed.
End Reading.

(** ** Two checkpoints in a stream *)
Module CheckpointsExample.
Import CollectorExample.
Definition permit_for (k : NodeCheckpoint) : CheckpointPermit := local_permit (fun _ => digest) k.
Definition read_one (text : string) : option NodeCheckpoint :=
  match text with "k1" => cl_checkpoints collected !! 0%nat | "k2" => cl_checkpoints collected !! 1%nat | _ => None end.
Definition read_permit_of (text : string) : option CheckpointPermit :=
  match text with "p1" => permit_for <$> read_one "k1" | "p2" => permit_for <$> read_one "k2" | _ => None end.
Definition recorded (ordinal : string) : HarnessEvent :=
  let e := sample_event ("checkpoint-" +:+ ordinal) None None None in
  {| ev_schema_version := ev_schema_version e; ev_event_id := ev_event_id e; ev_trace_id := ev_trace_id e; ev_span_id := ev_span_id e;
     ev_parent_span_id := None; ev_run_id := ev_run_id e; ev_work_item_id := None; ev_attempt_id := None; ev_sequence := 0;
     ev_state_revision := 0; ev_event_type := CHECKPOINT_EVENT; ev_occurred_at := ev_occurred_at e;
     ev_monotonic_offset := ev_monotonic_offset e; ev_actor := ev_actor e;
     ev_payload := [("checkpoint_json", JStr ("k" +:+ ordinal)); ("checkpoint_digest", JStr digest);
                    ("permit_json", JStr ("p" +:+ ordinal)); ("permit_digest", JStr digest)];
     ev_transition := None; ev_transition_authority := None; ev_attempt_ownership := None; ev_reconciliation_resolution := None;
     ev_previous_event_hash := None; ev_event_hash := None |}.
Definition text_value (s : string) : option Json := Some (JStr s).
Definition value_text (j : Json) : string := match j with JStr s => s | _ => "" end.
Abbreviation read_back := (validated_checkpoints None text_value value_text (fun _ => digest) read_one (fun _ => JNull) read_permit_of
  [recorded "1"; recorded "2"] (sample_plan [])).
Lemma checkpoints_are_read : read_back = Ok (cl_checkpoints collected).
Proof. vm_compute. reflexivity. Qed.
Lemma durable_checkpoints_progress_witness : read_back = Ok (cl_checkpoints collected) /\
  forall a b, cl_checkpoints collected !! 0%nat = Some a -> cl_checkpoints collected !! 1%nat = Some b ->
    extends a b /\ attempt_values a `prefix_of` attempt_values b.
Proof.
  split; [exact checkpoints_are_read|]. intros a b. pose proof checkpoints_are_read as H.
  destruct (durable_checkpoints_progress None text_value value_text (fun _ => digest) read_one (fun _ => JNull) read_permit_of
              [recorded "1"; recorded "2"] (sample_plan []) (cl_checkpoints collected) H) as (_ & Hx & _).
  exact (Hx 0%nat 1%nat a b (le_S _ _ (le_n 0%nat))).
Defined.
End CheckpointsExample.
