(* ===== verification/HarnessBudget.v ===== *)
(** * The durable budget of a run: market_agent/workflow_harness.py

    The kernel writes what each settlement leaves of a run's attempts, seconds, cost and
    tokens into the authority event it commits, with the evidence that binds it to the
    host; after a restart the budget is whatever that chain of projections says.  Here
    are the projection of a workflow's usage, the validation of a stored projection and
    of its evidence, and the replay of the chain.

    [Codec] gathers what the kernel takes from [json], [hashlib], pydantic and the host's
    signature check: texts are read to the fields they hold, and the models validate
    those fields here. *)
From stdpp Require Import pretty.
From S2P Require Import Prelude PyStrings PyDict PyJson PyModel PyFloat PyFloatText PyDecimal PyDecimalText.
From S2P Require Import HarnessContracts HarnessStateMachine HarnessSession WorkflowPricing WorkflowBudget WorkflowObservation HarnessCheckpoints.
Local Open Scope string_scope.
Local Open Scope list_scope.
Local Open Scope Z_scope.

(** ** Committed snapshots: workflow_execution_backend.py *)
Record CommittedExecutionSnapshot := {
  cs_run_id : string; cs_trace_id : string; cs_plan_id : string; cs_plan_digest : string; cs_plan_revision : Z;
  cs_sequence : Z; cs_state_revision : Z; cs_view_digest : string; cs_event_head_hash : string;
  cs_folded_view : option HarnessSessionView; cs_trust_key_id : string; cs_signature : string }.
Definition SignatureHex : cleaner string := fun s =>
  let s' := trim s in
  if Nat.eqb (String.length s') 512 && forallb hex_digit (list_ascii_of_string s') then Ok s' else Raise (ValidationError "signature pattern").
Definition validate_execution_snapshot : cleaner CommittedExecutionSnapshot := fun s =>
  run ← ShortText (cs_run_id s); trace ← ShortText (cs_trace_id s); plan ← ShortText (cs_plan_id s);
  digest ← Digest (cs_plan_digest s); revision ← NonNegativeInt (cs_plan_revision s); sequence ← PositiveInt (cs_sequence s);
  state ← NonNegativeInt (cs_state_revision s); view ← Digest (cs_view_digest s); head ← Digest (cs_event_head_hash s);
  folded ← optional validate_view (cs_folded_view s); key ← ShortText (cs_trust_key_id s); signature ← SignatureHex (cs_signature s);
  Ok {| cs_run_id := run; cs_trace_id := trace; cs_plan_id := plan; cs_plan_digest := digest; cs_plan_revision := revision;
        cs_sequence := sequence; cs_state_revision := state; cs_view_digest := view; cs_event_head_hash := head;
        cs_folded_view := folded; cs_trust_key_id := key; cs_signature := signature |}.

Record Codec := {
  k_tool_price : option string;                       (** the price text in the process environment *)
  k_loads : string -> option Json;                    (** [json.loads] *)
  k_dumps : Json -> string;                           (** [json.dumps], sorted and compact, not ASCII-escaped *)
  k_dumps_ascii : Json -> string;                     (** the same, ASCII-escaped *)
  k_json_digest : Json -> string;                     (** [_canonical_digest] *)
  k_read_checkpoint : string -> option NodeCheckpoint; k_checkpoint_json : NodeCheckpoint -> Json;
  k_read_permit : string -> option CheckpointPermit; k_permit_json : CheckpointPermit -> Json;
  k_read_usage : string -> option WorkflowUsage; k_usage_json : WorkflowUsage -> Json;
  k_read_snapshot : string -> option CommittedExecutionSnapshot; k_snapshot_json : CommittedExecutionSnapshot -> Json;
  k_read_plan : string -> option HarnessPlan; k_plan_text : HarnessPlan -> string;
  k_plan_digest : HarnessPlan -> string; k_view_digest : HarnessSessionView -> string;
  k_transition_digest : HarnessTransition -> string;
  k_verify_snapshot : CommittedExecutionSnapshot -> bool; (** the host's signature *)
  k_clean_payload : cleaner (list (string * Json)); k_sha256 : string -> string; k_event_hash : HarnessEvent -> string }.

(** ** Projections *)
(** What is left, or what is taken: attempts, seconds, cost, tokens. *)
Record Durable := { du_attempts : Z; du_seconds : decimal; du_cost : decimal; du_tokens : Z }.
Record Projection := { pj_before : Durable; pj_delta : Durable; pj_remaining : Durable }.
Definition _BUDGET_INTEGER_FIELDS : list string :=
  ["budget_before_attempts"; "budget_delta_attempts"; "budget_remaining_attempts";
   "budget_before_tokens"; "budget_delta_tokens"; "budget_remaining_tokens"].
Definition _BUDGET_DECIMAL_FIELDS : list string :=
  ["budget_before_seconds"; "budget_delta_seconds"; "budget_remaining_seconds";
   "budget_before_cost"; "budget_delta_cost"; "budget_remaining_cost"].
Definition _BUDGET_FIELDS : list string := _BUDGET_INTEGER_FIELDS ++ _BUDGET_DECIMAL_FIELDS.
Definition _BUDGET_SETTLEMENT_EVIDENCE_KEY : string := "budget_settlement_evidence".
Definition _BUDGET_SETTLEMENT_SCHEMA : string := "budget-settlement-evidence-v1".
Definition _BUDGET_SETTLEMENT_SCHEMA_V2 : string := "budget-settlement-evidence-v2".
(** [_BUDGET_AUTHORITY_TARGETS] *)
Definition budget_authority_target (reason : string) : option RunState :=
  if bool_decide (reason ∈ ["budget_exhausted"; "loop_guard_stopped"; "loop_checkpoint_binding_mismatch";
                            "confidence_context_mismatch"; "confidence_fail_closed"; "usage_evidence_unavailable"])
  then Some R_DEGRADING
  else if String.eqb reason "confidence_sufficient" then Some R_SUMMARIZING else None.
Definition decimal_json (d : decimal) : Json := JStr (decimal_text d).
Definition durable_fields (word : string) (d : Durable) : list (string * Json) :=
  [("budget_" +:+ word +:+ "_attempts", JInt (du_attempts d)); ("budget_" +:+ word +:+ "_seconds", decimal_json (du_seconds d));
   ("budget_" +:+ word +:+ "_cost", decimal_json (du_cost d)); ("budget_" +:+ word +:+ "_tokens", JInt (du_tokens d))].
Definition projection_fields (p : Projection) : list (string * Json) :=
  durable_fields "before" (pj_before p) ++ durable_fields "delta" (pj_delta p) ++ durable_fields "remaining" (pj_remaining p).
(** [before[i] - delta[i]] *)
Definition take_away (a b : Durable) : Durable :=
  {| du_attempts := du_attempts a - du_attempts b; du_seconds := dec_sub (du_seconds a) (du_seconds b);
     du_cost := dec_sub (du_cost a) (du_cost b); du_tokens := du_tokens a - du_tokens b |}.
(** [==] on the tuples. *)
Definition durable_eqb (a b : Durable) : bool :=
  (du_attempts a =? du_attempts b) && dec_eqb (du_seconds a) (du_seconds b) && dec_eqb (du_cost a) (du_cost b) && (du_tokens a =? du_tokens b).
Definition in_deficit (d : Durable) : bool :=
  (Z.min (du_attempts d) (du_tokens d) <? 0) || dec_ltb (dec_min (du_seconds d) (du_cost d)) ZERO.

Section Budget.
Context (K : Codec).
Abbreviation digest := (k_json_digest K).
Abbreviation checkpoints_of := (validated_checkpoints (k_tool_price K) (k_loads K) (k_dumps K) digest (k_read_checkpoint K) (k_checkpoint_json K) (k_read_permit K)).
Abbreviation fold_stream := (fold_events (k_clean_payload K) (k_event_hash K)).

(** What a usage takes. *)
Definition usage_delta (usage : WorkflowUsage) : result Durable :=
  seconds ← dec_div (dec_of_Z (uf_total_latency_ms (wu_fold usage))) (dec_of_Z 1000);
  let tokens := uf_aggregate (wu_fold usage) in
  Ok {| du_attempts := uf_provider_attempt_count (wu_fold usage); du_seconds := seconds;
        du_cost := decimal_of_float (uf_estimated_cost_usd (wu_fold usage));
        du_tokens := us_input_tokens tokens + us_cache_write_tokens tokens + us_output_tokens tokens |}.
Definition settlement_core_v2 (usage : WorkflowUsage) (checkpoints : list NodeCheckpoint) (p : Projection) : list (string * Json) :=
  [("schema_version", JStr _BUDGET_SETTLEMENT_SCHEMA_V2); ("charged_cost", decimal_json (du_cost (pj_delta p)));
   ("timeout", JBool false); ("workflow_usage_json", JStr (k_dumps K (k_usage_json K usage)));
   ("workflow_usage_digest", JStr (digest (k_usage_json K usage)));
   ("checkpoint_digests_json", JStr (k_dumps_ascii K (JList ((fun c => JStr (digest (k_checkpoint_json K c))) <$> checkpoints))));
   ("projection", JObject (projection_fields p))].
Definition signed (core : list (string * Json)) : Json := JObject (core ++ [("settlement_digest", JStr (digest (JObject core)))]).
Definition project (current delta : Durable) (over : exn) : result Projection :=
  let remaining := take_away current delta in
  _ ← raise_when (in_deficit remaining) over;
  Ok {| pj_before := current; pj_delta := delta; pj_remaining := remaining |}.

(** ** Reading a projection *)
(** [_budget_decimal] *)
Definition budget_decimal (value : option Json) : result decimal :=
  let invalid := HarnessDependencyError "committed budget projection is invalid" in
  match value with
  | Some (JStr text) =>
      if negb (truthy text) || (80 <? Z.of_nat (String.length text)) then Raise invalid
      else match decimal_of text with
      | Some (Finite d) =>
          _ ← raise_when (dec_ltb d ZERO || contains "e" (lower text) || startswith text "+" || startswith text "-" ||
                          negb (String.eqb (decimal_text d) text)) invalid;
          Ok d
      | _ => Raise invalid
      end
  | _ => Raise invalid
  end.
Definition budget_integer (value : option Json) : result Z :=
  let invalid := HarnessDependencyError "committed budget projection is invalid" in
  match value with Some (JInt n) => _ ← raise_when (n <? 0) invalid; Ok n | _ => Raise invalid end.
Definition read_durable (e : HarnessEvent) (word : string) : result Durable :=
  attempts ← budget_integer (payload_get e ("budget_" +:+ word +:+ "_attempts"));
  seconds ← budget_decimal (payload_get e ("budget_" +:+ word +:+ "_seconds"));
  cost ← budget_decimal (payload_get e ("budget_" +:+ word +:+ "_cost"));
  tokens ← budget_integer (payload_get e ("budget_" +:+ word +:+ "_tokens"));
  Ok {| du_attempts := attempts; du_seconds := seconds; du_cost := cost; du_tokens := tokens |}.
Definition budget_keys (e : HarnessEvent) : list string := List.filter (fun k => bool_decide (k ∈ _BUDGET_FIELDS)) (ev_payload e).*1.
Definition unknown_budget_keys (e : HarnessEvent) : list string :=
  List.filter (fun k => startswith k "budget_" && negb (bool_decide (k ∈ _BUDGET_FIELDS)) && negb (String.eqb k _BUDGET_SETTLEMENT_EVIDENCE_KEY))
    (ev_payload e).*1.
(** The binding of the authority event to the run and to its reason. *)
Definition authority_binds (plan : HarnessPlan) (e : HarnessEvent) : bool :=
  match authority_of e with
  | None => false
  | Some a =>
      match budget_authority_target (ta_reason_code a) with
      | None => false
      | Some target =>
          String.eqb (ev_run_id e) (pl_run_id plan) && String.eqb (ev_trace_id e) (pl_trace_id plan) && (0 <? ev_sequence e) &&
          (ev_state_revision e =? ta_expected_state_revision a) && String.eqb (ta_run_id a) (pl_run_id plan) &&
          String.eqb (ta_trace_id a) (pl_trace_id plan) && bool_decide (ta_entity_kind a = E_run) &&
          String.eqb (ta_entity_id a) (pl_run_id plan) && (ta_plan_revision a =? pl_revision plan) &&
          String.eqb (ta_from_state a) (run_state_value R_RUNNING) && String.eqb (ta_to_state a) (run_state_value target) &&
          String.eqb (ta_idempotency_key a) ("run-" +:+ pretty (ta_expected_state_revision a) +:+ "-" +:+ run_state_value target) &&
          match payload_get e "reason_code" with Some (JStr s) => String.eqb s (ta_reason_code a) | _ => false end
      end
  end.

(** ** The evidence of a settlement *)
Definition keys_are (fields : list (string * Json)) (keys : list string) : bool := within fields.*1 keys && within keys fields.*1.
Definition without (key : string) (fields : list (string * Json)) : list (string * Json) :=
  List.filter (fun kv => negb (String.eqb kv.1 key)) fields.
Definition is_str (value : option Json) (text : string) : bool :=
  match value with Some (JStr s) => String.eqb s text | _ => false end.
Definition is_int (value : option Json) (n : Z) : bool :=
  match value with Some v => json_eqb v (JInt n) | None => false end.
Definition EVIDENCE_KEYS : list string :=
  ["settlement"; "settlement_event_hash"; "settlement_event_sequence"; "host_receipt"; "binding_digest"].
Definition USAGE_KEYS : list string := ["input_tokens"; "cached_input_tokens"; "cache_write_tokens"; "output_tokens"; "web_search_tool_calls"].
Definition settlement_keys (schema : option Json) : list string :=
  if is_str schema _BUDGET_SETTLEMENT_SCHEMA then
    ["schema_version"; "reservation_id"; "charged_cost"; "timeout"; "usage"; "projection"; "settlement_digest"]
  else if is_str schema _BUDGET_SETTLEMENT_SCHEMA_V2 then
    ["schema_version"; "charged_cost"; "timeout"; "workflow_usage_json"; "workflow_usage_digest"; "checkpoint_digests_json";
     "projection"; "settlement_digest"]
  else [].
(** [UsageTokens(input_tokens=1, output_tokens=1)] *)
Definition unit_usage : UsageTokens :=
  {| us_input_tokens := 1; us_cached_input_tokens := 0; us_cache_write_tokens := 0; us_output_tokens := 1; us_web_search_tool_calls := 0 |}.
(** [UsageTokens( ** usage_value)] *)
Definition read_counter (fields : list (string * Json)) (key : string) : result Z :=
  match dict_get fields key with Some (JInt n) => Ok n | _ => Raise (ValueError "usage token counts must be non-negative integers") end.
Definition read_tokens (fields : list (string * Json)) : result UsageTokens :=
  input ← read_counter fields "input_tokens"; cached ← read_counter fields "cached_input_tokens";
  write ← read_counter fields "cache_write_tokens"; output ← read_counter fields "output_tokens";
  calls ← read_counter fields "web_search_tool_calls";
  validate_usage {| us_input_tokens := input; us_cached_input_tokens := cached; us_cache_write_tokens := write;
                    us_output_tokens := output; us_web_search_tool_calls := calls |}.
(** The settlement of a reservation: one attempt of one token each way, priced as luna. *)
Definition check_settlement_v1 (settlement : list (string * Json)) (p : Projection) (charged : decimal) : result unit :=
  _ ← check (match json_get settlement "reservation_id" with
             | Some (JStr id) => truthy id && String.eqb id (strip id) && (Z.of_nat (String.length id) <=? 256)
             | _ => false end) (HarnessDependencyError "budget settlement evidence is invalid");
  let invalid := HarnessDependencyError "budget settlement usage is invalid" in
  match json_get settlement "usage" with
  | Some (JObject fields) =>
      _ ← check (keys_are fields USAGE_KEYS) invalid;
      usage ← except_as (read_tokens fields) invalid;
      _ ← check (bool_decide (usage = unit_usage) && (du_attempts (pj_delta p) =? 1)) (HarnessDependencyError "budget settlement has no real attempt");
      let expected := us_input_tokens usage + us_cache_write_tokens usage + us_output_tokens usage in
      _ ← check (du_tokens (pj_delta p) =? expected) (HarnessDependencyError "budget settlement token total is inconsistent");
      cost ← pinned_cost (k_tool_price K) "gpt-5.6-luna" SHORT usage;
      check (dec_eqb charged cost) (HarnessDependencyError "budget settlement cost is inconsistent")
  | _ => Raise invalid
  end.
(** [HarnessKernel] has no attribute [_explicit_historical_cache_usage]. *)
Definition MissingMethod : exn := Exn "AttributeError" "type object 'HarnessKernel' has no attribute '_explicit_historical_cache_usage'".
(** The settlement of a workflow's usage. *)
Definition check_settlement_v2 (plan : HarnessPlan) (prior_events : list HarnessEvent) (settlement : list (string * Json))
    (p : Projection) (charged : decimal) : result unit :=
  let invalid := HarnessDependencyError "workflow usage settlement is invalid" in
  match json_get settlement "workflow_usage_json", json_get settlement "checkpoint_digests_json" with
  | Some (JStr usage_text), Some (JStr digests_text) =>
      match canonical_value (k_loads K) (k_dumps K) usage_text, canonical_value (k_loads K) (k_dumps_ascii K) digests_text,
            k_read_usage K usage_text with
      | Some value, Some (JList digests), Some raw =>
          usage ← except_as (validate_workflow_usage (k_tool_price K) raw) invalid;
          let canonical := digest (k_usage_json K usage) in
          _ ← check (String.eqb (wu_workflow_id usage) (pl_run_id plan) && String.eqb (wu_trace_id usage) (pl_trace_id plan) &&
                     is_str (json_get settlement "workflow_usage_digest") canonical && String.eqb (digest value) canonical)
                (HarnessDependencyError "workflow usage settlement binding is invalid");
          checkpoints ← checkpoints_of prior_events plan;
          let bound := match last checkpoints with Some c => usage_eqb (ck_usage c) usage | None => false end in
          _ ← check bound MissingMethod;
          _ ← check (json_eqb (JList digests) (JList ((fun c => JStr (digest (k_checkpoint_json K c))) <$> checkpoints)))
                (HarnessDependencyError "workflow usage checkpoint binding is invalid");
          delta ← usage_delta usage;
          check ((du_attempts (pj_delta p) =? du_attempts delta) &&
                 String.eqb (decimal_text (du_seconds (pj_delta p))) (decimal_text (du_seconds delta)) &&
                 (du_tokens (pj_delta p) =? du_tokens delta) && dec_eqb charged (du_cost delta))
            (HarnessDependencyError "workflow usage projection is inconsistent")
      | _, _, _ => Raise invalid
      end
  | _, _ => Raise invalid
  end.
(** The host's snapshot must be of the stream before the authority event. *)
Definition check_receipt (plan : HarnessPlan) (prior_events : list HarnessEvent) (e : HarnessEvent) (evidence : list (string * Json)) : result unit :=
  let invalid := HarnessDependencyError "budget settlement receipt is invalid" in
  match json_get evidence "host_receipt" with
  | Some (JStr text) =>
      _ ← check (truthy text && (Z.of_nat (String.length text) <=? 262144)) invalid;
      match canonical_value (k_loads K) (k_dumps K) text, k_read_snapshot K text with
      | Some _, Some raw =>
          pre ← except_as (validate_execution_snapshot raw) invalid;
          _ ← check (k_verify_snapshot K pre) (HarnessDependencyError "budget settlement receipt is not host verified");
          view ← except_as (fold_stream prior_events) (HarnessDependencyError "budget settlement receipt cannot fold authority");
          check (String.eqb (cs_run_id pre) (pl_run_id plan) && String.eqb (cs_trace_id pre) (pl_trace_id plan) &&
                 String.eqb (cs_plan_id pre) (pl_plan_id plan) && String.eqb (cs_plan_digest pre) (k_plan_digest K plan) &&
                 (cs_plan_revision pre =? pl_revision plan) && (cs_sequence pre =? ev_sequence e - 1) &&
                 (cs_state_revision pre =? ev_state_revision e) && String.eqb (cs_view_digest pre) (k_view_digest K view) &&
                 bool_decide (Some (cs_event_head_hash pre) = ev_previous_event_hash e) &&
                 match ev_previous_event_hash e with
                 | Some hash => is_str (json_get evidence "settlement_event_hash") hash
                 | None => negb (is_Some_b (json_get evidence "settlement_event_hash"))
                 end &&
                 is_int (json_get evidence "settlement_event_sequence") (ev_sequence e - 1))
            (HarnessDependencyError "budget settlement receipt does not bind authority")
      | _, _ => Raise invalid
      end
  | _ => Raise invalid
  end.
(** [_validated_budget_settlement_evidence] *)
Definition validated_settlement_evidence (plan : HarnessPlan) (prior_events : list HarnessEvent) (e : HarnessEvent) (p : Projection)
    : result unit :=
  match payload_get e _BUDGET_SETTLEMENT_EVIDENCE_KEY with
  | Some (JObject evidence) =>
      _ ← check (keys_are evidence EVIDENCE_KEYS) (HarnessDependencyError "budget settlement evidence is not canonical");
      _ ← check (match json_get evidence "binding_digest" with
                 | Some (JStr d) => Nat.eqb (String.length d) 64 && String.eqb d (digest (JObject (without "binding_digest" evidence)))
                 | _ => false end) (HarnessDependencyError "budget settlement evidence digest is invalid");
      match json_get evidence "settlement" with
      | Some (JObject settlement) =>
          let schema := json_get settlement "schema_version" in
          _ ← check (keys_are settlement (settlement_keys schema)) (HarnessDependencyError "budget settlement evidence is not canonical");
          _ ← check (match json_get settlement "projection" with
                     | Some j => json_eqb j (JObject (projection_fields p)) | None => false end &&
                     is_str (json_get settlement "settlement_digest") (digest (JObject (without "settlement_digest" settlement))))
                (HarnessDependencyError "budget settlement evidence digest is invalid");
          _ ← check (match json_get settlement "timeout" with Some (JBool false) => true | _ => false end)
                (HarnessDependencyError "budget settlement evidence is invalid");
          charged ← budget_decimal (json_get settlement "charged_cost");
          _ ← (if is_str schema _BUDGET_SETTLEMENT_SCHEMA then check_settlement_v1 settlement p charged
               else check_settlement_v2 plan prior_events settlement p charged);
          _ ← check (dec_eqb charged (du_cost (pj_delta p))) (HarnessDependencyError "budget settlement cost is inconsistent");
          _ ← check_receipt plan prior_events e evidence;
          match last prior_events with
          | None => Raise (HarnessDependencyError "budget settlement record is missing")
          | Some record =>
              check (String.eqb (ev_event_type record) "budget_settlement_recorded" && (ev_sequence record =? ev_sequence e - 1) &&
                     (ev_state_revision record =? ev_state_revision e) && bool_decide (ev_event_hash record = ev_previous_event_hash e) &&
                     json_eqb (JObject (ev_payload record)) (JObject [("budget_settlement", JObject settlement)]))
                (HarnessDependencyError "budget settlement record does not bind authority")
          end
      | _ => Raise (HarnessDependencyError "budget settlement evidence is invalid")
      end
  | _ => Raise (HarnessDependencyError "budget settlement evidence is missing")
  end.
(** [_validated_budget_projection] *)
Definition validated_budget_projection (plan : HarnessPlan) (current : Durable) (prior_events : list HarnessEvent) (e : HarnessEvent)
    : result Durable :=
  _ ← check (within _BUDGET_FIELDS (budget_keys e) && bool_decide (unknown_budget_keys e = []) &&
             String.eqb (ev_event_type e) "transition_authorized")
        (HarnessDependencyError "committed budget projection is not canonical");
  _ ← check (authority_binds plan e) (HarnessDependencyError "committed budget authority binding is invalid");
  before ← read_durable e "before"; delta ← read_durable e "delta"; after ← read_durable e "remaining";
  _ ← check (durable_eqb before current && durable_eqb (take_away before delta) after)
        (HarnessDependencyError "committed budget projection breaks monotonic chain");
  _ ← validated_settlement_evidence plan prior_events e {| pj_before := before; pj_delta := delta; pj_remaining := after |};
  Ok after.

(** ** The chain *)
Fixpoint replay_budget (plan : HarnessPlan) (current : Durable) (prior_events events : list HarnessEvent) : result Durable :=
  match events with
  | [] => Ok current
  | e :: events =>
      next ← (if bool_decide (budget_keys e = []) then Ok current else validated_budget_projection plan current prior_events e);
      replay_budget plan next (prior_events ++ [e]) events
  end.
(** The caps of a mode, as a fresh ledger's snapshot has them, and the tokens of the plan's workers. *)
Definition initial_durable (plan : HarnessPlan) : Durable :=
  let '(seconds, attempts, cost) := WORKFLOW_CAPS (pl_mode plan) in
  {| du_attempts := attempts; du_seconds := decimal_of_float (float_int seconds); du_cost := cost;
     du_tokens := foldr (fun w acc => wk_context_token_budget w + acc) 0 (pl_workers plan) |}.
(** [_budget_state] *)
Definition budget_state (events : list HarnessEvent) (plan : HarnessPlan) (s : BudgetSnapshot) : result Durable :=
  let '(seconds, attempts, cost) := WORKFLOW_CAPS (pl_mode plan) in
  _ ← raise_when (negb (float_finite (sn_remaining_seconds s)) || (sn_remaining_attempts s <? 0) ||
                  SFltb (sn_remaining_seconds s) float_0 || dec_ltb (sn_remaining_cost s) ZERO)
        (HarnessDependencyError "initial budget caps are invalid");
  _ ← raise_when ((attempts <? sn_remaining_attempts s) || SFltb (float_int seconds) (sn_remaining_seconds s) ||
                  dec_ltb cost (sn_remaining_cost s)) (HarnessDependencyError "runtime budget exceeds initial caps");
  replay_budget plan (initial_durable plan) [] events.
(** [_budget_closed] *)
Definition node_closed (n : NodeBudgetSnapshot) : bool :=
  ns_exhausted n || ns_overdrawn n || (ns_remaining_attempts n <=? 0) || SFleb (ns_remaining_seconds n) float_0 || dec_leb (ns_remaining_cost n) ZERO.
Definition budget_closed (events : list HarnessEvent) (plan : HarnessPlan) (s : BudgetSnapshot) : result bool :=
  d ← budget_state events plan s;
  Ok (sn_exhausted s || sn_overdrawn s || (du_attempts d <=? 0) || dec_leb (du_seconds d) ZERO || dec_leb (du_cost d) ZERO ||
      (du_tokens d <=? 0) || existsb node_closed (sn_nodes s)).
(** [TaskKind.value] *)
Definition task_kind_value (k : TaskKind) : string :=
  match k with
  | T_MARKET_CONTEXT => "market_context" | T_EVENT_FILTER => "event_filter" | T_FUNDAMENTAL => "fundamental"
  | T_TECHNICAL => "technical" | T_DECISION_PLANNER => "decision_planner" | T_ESCALATION => "escalation"
  | T_RECONCILIATION => "reconciliation" | T_RISK_GATE => "risk_gate" | T_PLAYBOOK_ASSEMBLY => "playbook_assembly"
  | T_PRESENTATION_SYNTHESIS => "presentation_synthesis" | T_LOCALE_RENDERING => "locale_rendering"
  | T_AUDIT_FINALIZATION => "audit_finalization" | T_INFORMATIONAL => "informational"
  end.
(** [_execution_policy_for] *)
Definition execution_policy_for (plan : HarnessPlan) : result AgentExecutionPolicy :=
  except_as (policy_for (if bool_decide (pl_task_kind plan = T_INFORMATIONAL) then "event_filter" else task_kind_value (pl_task_kind plan)))
    (HarnessDependencyError "plan has no declared execution policy").
Definition first_model (p : AgentExecutionPolicy) : string := match po_tiers p with t :: _ => rt_model t | [] => "" end.
(** [_budget_can_reserve] *)
Definition budget_can_reserve (events : list HarnessEvent) (plan : HarnessPlan) (s : BudgetSnapshot) (usage : UsageTokens) : result bool :=
  d ← budget_state events plan s;
  policy ← execution_policy_for plan;
  cost ← pinned_cost (k_tool_price K) (first_model policy) SHORT usage;
  Ok ((1 <=? du_attempts d) && dec_leb (decimal_of_float (float_int (po_attempt_timeout_seconds policy))) (du_seconds d) &&
      dec_leb cost (du_cost d) && (us_input_tokens usage + us_cache_write_tokens usage + us_output_tokens usage <=? du_tokens d)).

(** ** Writing a projection *)
(** [_budget_payload_v2] *)
Definition budget_payload_v2 (events : list HarnessEvent) (plan : HarnessPlan) (s : BudgetSnapshot) (usage : WorkflowUsage)
    (checkpoints : list NodeCheckpoint) : result (list (string * Json)) :=
  current ← budget_state events plan s;
  delta ← usage_delta usage;
  p ← project current delta (BudgetExceededError "observed workflow usage exceeds durable budget");
  Ok (projection_fields p ++ [(_BUDGET_SETTLEMENT_EVIDENCE_KEY, signed (settlement_core_v2 usage checkpoints p))]).
(** [_budget_payload], between two snapshots of the ledger. *)
Definition tokens_json (u : UsageTokens) : Json :=
  JObject [("input_tokens", JInt (us_input_tokens u)); ("cached_input_tokens", JInt (us_cached_input_tokens u));
           ("cache_write_tokens", JInt (us_cache_write_tokens u)); ("output_tokens", JInt (us_output_tokens u));
           ("web_search_tool_calls", JInt (us_web_search_tool_calls u))].
Definition settlement_core_v1 (settlement : BudgetSettlement) (reservation_id : string) (usage : UsageTokens) (p : Projection)
    : list (string * Json) :=
  [("schema_version", JStr _BUDGET_SETTLEMENT_SCHEMA); ("reservation_id", JStr reservation_id);
   ("charged_cost", decimal_json (se_charged_cost settlement)); ("timeout", JBool (se_timeout settlement));
   ("usage", tokens_json usage); ("projection", JObject (projection_fields p))].
Definition budget_payload (events : list HarnessEvent) (plan : HarnessPlan) (before after : BudgetSnapshot) (usage : UsageTokens)
    (reservation : BudgetReservation) (settlement : BudgetSettlement) : result (list (string * Json)) :=
  current ← budget_state events plan before;
  let delta := {| du_attempts := sn_remaining_attempts before - sn_remaining_attempts after;
                  du_seconds := dec_sub (decimal_of_float (sn_remaining_seconds before)) (decimal_of_float (sn_remaining_seconds after));
                  du_cost := dec_sub (sn_remaining_cost before) (sn_remaining_cost after);
                  du_tokens := us_input_tokens usage + us_cache_write_tokens usage + us_output_tokens usage |} in
  _ ← raise_when ((du_attempts delta <? 0) || dec_ltb (du_seconds delta) ZERO || dec_ltb (du_cost delta) ZERO || (du_tokens delta <? 0))
        (HarnessDependencyError "runtime budget counters moved backwards");
  p ← project current delta (HarnessDependencyError "runtime budget exceeded durable authority");
  _ ← raise_when (negb (String.eqb (se_reservation_id settlement) (rs_reservation_id reservation)) || se_timeout settlement ||
                  negb (dec_eqb (se_charged_cost settlement) (du_cost delta)) || negb (du_attempts delta =? 1))
        (HarnessDependencyError "budget settlement does not bind runtime usage");
  Ok (projection_fields p ++ [(_BUDGET_SETTLEMENT_EVIDENCE_KEY, signed (settlement_core_v1 settlement (rs_reservation_id reservation) usage p))]).
End Budget.

(** ** What the chain keeps *)
Record durable_le (a b : Durable) : Prop := {
  dl_attempts : du_attempts a <= du_attempts b; dl_seconds : dec_leb (du_seconds a) (du_seconds b) = true;
  dl_cost : dec_leb (du_cost a) (du_cost b) = true; dl_tokens : du_tokens a <= du_tokens b }.
Record durable_ok (d : Durable) : Prop := {
  do_attempts : 0 <= du_attempts d; do_seconds : rounded (du_seconds d);
  do_cost : rounded (du_cost d); do_tokens : 0 <= du_tokens d }.
#[export] Instance durable_le_preorder : PreOrder durable_le.
Proof.
  split.
  - intros d. by constructor; (lia || apply dec_leb_refl).
  - intros a b c [? ? ? ?] [? ? ? ?]. constructor; (lia || by eapply dec_leb_trans).
Qed.
Lemma budget_integer_nonneg value n : budget_integer value = Ok n -> 0 <= n.
Proof. unfold budget_integer. destruct value as [[]|]; try done. intros H. inv_ok H. inv_checks. lia. Qed.
Lemma budget_decimal_nonneg value d : budget_decimal value = Ok d -> dec_leb ZERO d = true.
Proof.
  unfold budget_decimal. destruct value as [[]|]; try done. destruct (_ || _); [done|].
  destruct (decimal_of _) as [[]|]; try done. intros H. inv_ok H. inv_checks. subst.
  rewrite !orb_false_iff in *. apply dec_ltb_not_leb. naive_solver.
Qed.
Lemma taken_away before current delta after :
  durable_eqb before current = true -> durable_eqb (take_away before delta) after = true -> durable_ok current ->
  0 <= du_attempts delta -> dec_leb ZERO (du_seconds delta) = true -> dec_leb ZERO (du_cost delta) = true -> 0 <= du_tokens delta ->
  0 <= du_attempts after -> dec_leb ZERO (du_seconds after) = true -> dec_leb ZERO (du_cost after) = true -> 0 <= du_tokens after ->
  durable_ok after /\ durable_le after current.
Proof.
  unfold durable_eqb, take_away. rewrite !andb_true_iff, !Z.eqb_eq. cbn.
  intros [[[E1 E2] E3] E4] [[[F1 F2] F3] F4] [C1 C2 C3 C4] ? ? ? ? ? ? ? ?.
  assert (step : forall b c d a, dec_eqb b c = true -> dec_eqb (dec_sub b d) a = true -> rounded c -> dec_leb ZERO d = true ->
                 dec_leb ZERO a = true -> rounded a /\ dec_leb a c = true).
  { intros b c d a Hb Ha Hc Hd Ha0. split; [by eapply dec_sub_rounded|]. apply dec_eqb_le in Ha as [_ Ha], Hb as [Hb _].
    eapply dec_leb_trans; [done|]. by apply dec_sub_below. }
  destruct (step (du_seconds before) (du_seconds current) (du_seconds delta) (du_seconds after)) as [? ?]; [done..|].
  destruct (step (du_cost before) (du_cost current) (du_cost delta) (du_cost after)) as [? ?]; [done..|].
  split; constructor; done || lia.
Qed.

Section Chain.
Context (K : Codec) (plan : HarnessPlan).
Lemma read_durable_nonneg e word d : read_durable e word = Ok d ->
  0 <= du_attempts d /\ dec_leb ZERO (du_seconds d) = true /\ dec_leb ZERO (du_cost d) = true /\ 0 <= du_tokens d.
Proof.
  unfold read_durable. intros H. inv_ok H. subst d. cbn.
  split; [by eapply budget_integer_nonneg|]. split; [by eapply budget_decimal_nonneg|].
  split; [by eapply budget_decimal_nonneg|by eapply budget_integer_nonneg].
Qed.
Lemma projection_shrinks current prior e d : durable_ok current ->
  validated_budget_projection K plan current prior e = Ok d -> durable_ok d /\ durable_le d current.
Proof.
  unfold validated_budget_projection. intros Hc H. inv_ok H. inv_checks. subst.
  match goal with
  | A : read_durable e "before" = Ok ?b, B : read_durable e "delta" = Ok ?x, C : read_durable e "remaining" = Ok d |- _ =>
      apply read_durable_nonneg in B as (? & ? & ? & ?), C as (? & ? & ? & ?)
  end.
  match goal with X : (_ && _)%bool = true |- _ => apply andb_true_iff in X as [X Y]; eapply taken_away in X end; try done.
Qed.
Lemma replay_shrinks current prior events d : durable_ok current ->
  replay_budget K plan current prior events = Ok d -> durable_ok d /\ durable_le d current.
Proof.
  revert current prior. induction events as [|e events IH]; intros current prior Hc; cbn [replay_budget].
  { intros [= <-]. done. }
  intros H. inv_ok H. assert (Ha : durable_ok a /\ durable_le a current).
  { case_bool_decide; [by injection Hok as <-|by eapply projection_shrinks]. }
  destruct Ha as [Ha1 Ha2]. destruct (IH a _ Ha1 H) as [? ?]. split; [done|]. by transitivity a.
Qed.
Lemma replay_app current prior es1 es2 d :
  replay_budget K plan current prior (es1 ++ es2) = Ok d <->
  exists d1, replay_budget K plan current prior es1 = Ok d1 /\ replay_budget K plan d1 (prior ++ es1) es2 = Ok d.
Proof.
  revert current prior. induction es1 as [|e es1 IH]; intros current prior; cbn [replay_budget app].
  { rewrite app_nil_r. naive_solver. }
  rewrite bind_Ok. setoid_rewrite bind_Ok. setoid_rewrite IH. setoid_rewrite <- (app_assoc prior [e] es1). naive_solver.
Qed.
Lemma initial_ok : Forall (fun w => 0 <= wk_context_token_budget w) (pl_workers plan) -> durable_ok (initial_durable plan).
Proof.
  intros Hw. unfold initial_durable. destruct (WORKFLOW_CAPS (pl_mode plan)) as [[seconds attempts] cost] eqn:E.
  assert (H : 0 <= attempts /\ rounded (decimal_of_float (float_int seconds)) /\ rounded cost).
  { destruct (pl_mode plan); injection E as <- <- <-.
    - split; [done|]. split; [by exists (Dec false 3000 (-1))|by exists (cents 75)].
    - split; [done|]. split; [by exists (Dec false 1300 (-1))|by exists (cents 30)]. }
  destruct H as (? & ? & ?). constructor; cbn; try done. induction Hw; cbn; lia.
Qed.
(** A settlement is replayed only when the last checkpoint carries its usage; the route of
    [_explicit_checkpoint_free_usage] ends in [MissingMethod]. *)
Lemma checkpoint_free_settlements_never_replay prior settlement p charged : check_settlement_v2 K plan prior settlement p charged = Ok tt ->
  exists cs c usage,
    validated_checkpoints (k_tool_price K) (k_loads K) (k_dumps K) (k_json_digest K) (k_read_checkpoint K) (k_checkpoint_json K) (k_read_permit K) prior plan = Ok cs /\
    last cs = Some c /\ usage_eqb (ck_usage c) usage = true.
Proof.
  unfold check_settlement_v2. intros H. do 2 (destruct (json_get _ _) as [[]|]; try done).
  destruct (canonical_value _ _ _); [|done]. destruct (canonical_value _ _ _) as [[]|]; try done. destruct (k_read_usage _ _); [|done].
  inv_ok H. inv_checks. match goal with H : match last ?cs with _ => _ end = true |- _ => destruct (last cs) as [c|] eqn:El; [|done] end.
  by exists a1, c, a.
Qed.
End Chain.
