(* ===== verification/HarnessKernel.v ===== *)
(** * The kernel of the harness: market_agent/workflow_harness.py

    [HarnessKernel] composes the state machine, the loop guard, the confidence gate and
    the budget around the append-only store: it admits a run, advances it one committed
    transition at a time, records its checkpoints and cancels it.  A method is a
    computation on the kernel's state, the store included; the clock, the identifiers,
    the receipt issuer, the execution backend and the factories are the operations of an
    [Environment], which have a state of their own and may raise.  One kernel runs at a
    time, so the per-run lock is the sequence of its calls. *)
From stdpp Require Import pretty.
From Stdlib Require Import QArith.
From S2P Require Import LoopGuard ConfidenceGate WorkflowBudget.
From S2P Require Import Prelude PyStrings PyDict PyTime PyFloat PyJson PyModel PyDecimal HarnessContracts HarnessStateMachine HarnessSession.
From S2P Require Import WorkflowPricing WorkflowObservation HarnessCheckpoints HarnessBudget.
Import LoopGuard (LoopGuard, SemanticCheckpoint, SeverityPolicy, ActionObservation).
Import ConfidenceGate (ConfidenceObservation, ConfidenceCalibratorArtifact, ConfidenceGate).
Import WorkflowBudget (WorkflowBudgetLedger, BudgetSnapshot, BudgetReservation, BudgetSettlement, Reading).
Local Open Scope string_scope.
Local Open Scope list_scope.
Local Open Scope Z_scope.

Definition HarnessKernelError (msg : string) : exn := Exn "HarnessKernelError" msg.
Definition InvalidHarnessInputError (msg : string) : exn := Exn "InvalidHarnessInputError" msg.
Definition UnknownHarnessRunError (msg : string) : exn := Exn "UnknownHarnessRunError" msg.
Definition ExecutionRegistrationError (msg : string) : exn := Exn "ExecutionRegistrationError" msg.
(** [except ExecutionBackendError]: the class and its subclasses. *)
Definition backend_error (e : exn) : bool :=
  bool_decide (exn_class e ∈
    ["ExecutionBackendError"; "ExecutionBackendUnavailableError"; "InvalidExecutionInputError"; "ExecutionRegistrationError";
     "ExecutionIdentityError"; "ExecutionPlanMismatchError"; "ExecutionHandleMismatchError"; "UncommittedTransitionError";
     "UnverifiedExecutionReceiptError"; "InvalidCommittedTransitionError"; "StaleExecutionSnapshotError"; "RegistrationPreparationError";
     "RegistrationTokenMismatchError"; "RegistrationTokenConsumedError"; "StaleExecutionTransitionError";
     "DuplicateExecutionTransitionError"; "CancelledExecutionError"; "ExecutionProjectionError"]).
Definition budget_error (e : exn) : bool := bool_decide (exn_class e ∈ ["BudgetExceededError"; "BudgetOverflowError"]).

#[export] Instance PinnedVersions_eq_dec : EqDecision PinnedVersions.
Proof. solve_decision. Defined.
#[export] Existing Instance ConfidenceGate.RequestClass_eq_dec.
#[export] Instance WorkflowMode_eq_dec : EqDecision WorkflowMode.
Proof. solve_decision. Defined.
#[export] Instance HarnessSessionView_eq_dec : EqDecision HarnessSessionView.
Proof. solve_decision. Defined.
#[export] Instance CommittedExecutionSnapshot_eq_dec : EqDecision CommittedExecutionSnapshot.
Proof. solve_decision. Defined.

(** ** What the kernel returns *)
Record RunHandle := {
  rh_run_id : string; rh_trace_id : string; rh_plan_id : string; rh_plan_revision : Z; rh_sequence : Z; rh_state_revision : Z;
  rh_run_state : RunState; rh_backend_synchronized : bool }.
Definition validate_handle : cleaner RunHandle := fun h =>
  run ← ShortText (rh_run_id h); trace ← ShortText (rh_trace_id h); plan ← ShortText (rh_plan_id h);
  revision ← NonNegativeInt (rh_plan_revision h); sequence ← NonNegativeInt (rh_sequence h); state ← NonNegativeInt (rh_state_revision h);
  Ok {| rh_run_id := run; rh_trace_id := trace; rh_plan_id := plan; rh_plan_revision := revision; rh_sequence := sequence;
        rh_state_revision := state; rh_run_state := rh_run_state h; rh_backend_synchronized := rh_backend_synchronized h |}.
Record HarnessDecision := {
  hd_run_id : string; hd_trace_id : string; hd_sequence : Z; hd_state_revision : Z; hd_run_state : RunState; hd_plan_revision : Z;
  hd_reason_code : string; hd_previous_run_state : option RunState; hd_transition : option HarnessTransition;
  hd_retry_authorized : bool; hd_no_trade : bool; hd_reconciliation_required : bool; hd_backend_synchronized : bool }.

(** [_INITIAL_TARGETS] *)
Definition initial_target (s : RunState) : option (RunState * string) :=
  match s with
  | R_CREATED => Some (R_ADMITTED, "request_admitted") | R_ADMITTED => Some (R_PLANNED, "plan_committed")
  | R_PLANNED => Some (R_READY, "dependencies_ready") | R_READY => Some (R_RUNNING, "execution_started")
  | _ => None
  end.
Definition DEGRADING_REASONS : list string :=
  ["budget_exhausted"; "loop_guard_stopped"; "loop_checkpoint_binding_mismatch"; "confidence_context_mismatch";
   "confidence_fail_closed"; "usage_evidence_unavailable"].
(** [_DECISION_REASON_STATES] *)
Definition _DECISION_REASON_STATES : list (string * list RunState) :=
  [("request_admitted", [R_ADMITTED]); ("plan_committed", [R_PLANNED]); ("dependencies_ready", [R_READY]);
   ("execution_started", [R_RUNNING]); ("safe_no_trade_summary", [R_SUMMARIZING]); ("confidence_sufficient", [R_SUMMARIZING]);
   ("completed", [R_SUCCEEDED])] ++ ((fun r => (r, [R_DEGRADING])) <$> DEGRADING_REASONS) ++
  [("safe_no_trade_due_to_degradation", [R_DEGRADING; R_DEGRADED]); ("reconciliation_required", [R_WAITING_RECONCILIATION]);
   ("cancellation_waits_for_reconciliation", [R_WAITING_RECONCILIATION]); ("cancellation_completed", [R_CANCELLED]);
   ("terminal_state", RUN_TERMINAL_STATES); ("stale_revision", all_run_states); ("candidate_rejected", all_run_states);
   ("cancellation_intent_recorded",
    [R_CREATED; R_ADMITTED; R_PLANNED; R_READY; R_RUNNING; R_RECONCILING; R_DEGRADING; R_SUMMARIZING; R_SUCCEEDED; R_DEGRADED; R_FAILED])].
(** [_COMMITTED_DECISION_REASONS] *)
Definition _COMMITTED_DECISION_REASONS : list string :=
  ["request_admitted"; "plan_committed"; "dependencies_ready"; "execution_started"; "safe_no_trade_summary"; "confidence_sufficient";
   "completed"] ++ DEGRADING_REASONS ++ ["safe_no_trade_due_to_degradation"; "cancellation_completed"].
(** The states, and the reason in a summarizing one, under which nothing may be traded. *)
Definition must_be_no_trade (s : RunState) (reason : string) : bool :=
  bool_decide (s ∈ [R_DEGRADING; R_DEGRADED; R_WAITING_RECONCILIATION]) ||
  (bool_decide (s = R_SUMMARIZING) && negb (String.eqb reason "confidence_sufficient")).
Definition transition_binds (d : HarnessDecision) (previous : RunState) (t : HarnessTransition) : bool :=
  bool_decide (tr_entity_kind t = E_run) && String.eqb (tr_entity_id t) (hd_run_id d) && String.eqb (tr_run_id t) (hd_run_id d) &&
  String.eqb (tr_trace_id t) (hd_trace_id d) && String.eqb (tr_from_state t) (run_state_value previous) &&
  String.eqb (tr_to_state t) (run_state_value (hd_run_state d)) && (tr_expected_state_revision t + 1 =? hd_state_revision d) &&
  (tr_plan_revision t =? hd_plan_revision d) && String.eqb (tr_reason_code t) (hd_reason_code d) &&
  String.eqb (tr_idempotency_key t) ("run-" +:+ pretty (tr_expected_state_revision t) +:+ "-" +:+ run_state_value (hd_run_state d)).
(** [HarnessDecision.validate_shape] *)
Definition validate_shape (d : HarnessDecision) : result unit :=
  let waiting := bool_decide (hd_run_state d = R_WAITING_RECONCILIATION) in
  _ ← raise_when (hd_retry_authorized d) (ValueError "Phase 1 Harness decisions cannot authorize retries");
  _ ← raise_when (hd_reconciliation_required d && negb waiting) (ValueError "reconciliation is required only while waiting reconciliation");
  _ ← raise_when (waiting && negb (hd_reconciliation_required d)) (ValueError "waiting reconciliation decisions must require reconciliation");
  _ ← check (Bool.eqb (hd_no_trade d) (must_be_no_trade (hd_run_state d) (hd_reason_code d)))
        (ValueError "decision no-trade flag and state/reason are inconsistent");
  _ ← raise_when (String.eqb (hd_reason_code d) "completed" && negb (bool_decide (hd_run_state d = R_SUCCEEDED)))
        (ValueError "completed reason requires succeeded state");
  _ ← check (match dict_get _DECISION_REASON_STATES (hd_reason_code d) with
             | Some states => bool_decide (hd_run_state d ∈ states) | None => false end)
        (ValueError "decision reason and run state are inconsistent");
  _ ← raise_when (is_Some_b (hd_transition d) && negb (bool_decide (hd_reason_code d ∈ _COMMITTED_DECISION_REASONS)))
        (ValueError "non-committing decisions cannot carry a transition");
  match hd_transition d with
  | None => raise_when (is_Some_b (hd_previous_run_state d)) (ValueError "non-transition decisions cannot claim a prior state")
  | Some t =>
      check (match hd_previous_run_state d with Some previous => transition_binds d previous t | None => false end)
        (ValueError "decision and committed transition are inconsistent")
  end.
Definition clean_harness_decision : cleaner HarnessDecision := fun d =>
  run ← ShortText (hd_run_id d); trace ← ShortText (hd_trace_id d); sequence ← NonNegativeInt (hd_sequence d);
  state ← NonNegativeInt (hd_state_revision d); revision ← NonNegativeInt (hd_plan_revision d); reason ← ShortText (hd_reason_code d);
  transition ← optional validate_transition (hd_transition d);
  Ok {| hd_run_id := run; hd_trace_id := trace; hd_sequence := sequence; hd_state_revision := state; hd_run_state := hd_run_state d;
        hd_plan_revision := revision; hd_reason_code := reason; hd_previous_run_state := hd_previous_run_state d;
        hd_transition := transition; hd_retry_authorized := hd_retry_authorized d; hd_no_trade := hd_no_trade d;
        hd_reconciliation_required := hd_reconciliation_required d; hd_backend_synchronized := hd_backend_synchronized d |}.
Definition validate_harness_decision : cleaner HarnessDecision := model clean_harness_decision validate_shape.
(** [_decision]; the flags not given follow the state and the reason. *)
Definition decision_value (plan : HarnessPlan) (view : HarnessSessionView) (state : RunState) (reason : string) (previous : option RunState)
    (transition : option HarnessTransition) (no_trade reconciliation_required synchronized : bool) : HarnessDecision :=
  {| hd_run_id := pl_run_id plan; hd_trace_id := pl_trace_id plan; hd_sequence := v_sequence view;
     hd_state_revision := v_state_revision view; hd_run_state := state; hd_plan_revision := pl_revision plan;
     hd_reason_code := reason; hd_previous_run_state := previous; hd_transition := transition; hd_retry_authorized := false;
     hd_no_trade := no_trade; hd_reconciliation_required := reconciliation_required; hd_backend_synchronized := synchronized |}.
Definition decision (plan : HarnessPlan) (view : HarnessSessionView) (reason : string) (transition : option HarnessTransition)
    (no_trade reconciliation_required : option bool) (synchronized : bool) : result HarnessDecision :=
  match v_run_state view with
  | None => Raise (HarnessDependencyError "decision requires an identified run state")
  | Some state =>
      previous ← match transition with
                 | Some t => match run_state_of (tr_from_state t) with Some s => Ok (Some s) | None => Raise (unknown_member (tr_from_state t)) end
                 | None => Ok None
                 end;
      validate_harness_decision
        (decision_value plan view state reason previous transition (default (must_be_no_trade state reason) no_trade)
           (default (bool_decide (state = R_WAITING_RECONCILIATION)) reconciliation_required) synchronized)
  end.
(** [_handle] *)
Definition handle_of (plan : HarnessPlan) (view : HarnessSessionView) (synchronized : bool) : result RunHandle :=
  match v_run_state view with
  | None => Raise (HarnessDependencyError "published run has no state")
  | Some state =>
      validate_handle {| rh_run_id := pl_run_id plan; rh_trace_id := pl_trace_id plan; rh_plan_id := pl_plan_id plan;
                         rh_plan_revision := pl_revision plan; rh_sequence := v_sequence view; rh_state_revision := v_state_revision view;
                         rh_run_state := state; rh_backend_synchronized := synchronized |}
  end.

(** ** Candidates *)
(** [_AdvanceCandidate] *)
Record AdvanceCandidate := {
  ac_confidence_observation : option ConfidenceObservation; ac_confidence_artifact : option ConfidenceCalibratorArtifact;
  ac_loop_checkpoint : option SemanticCheckpoint; ac_action_observation : option ActionObservation }.
Definition no_candidate : AdvanceCandidate :=
  {| ac_confidence_observation := None; ac_confidence_artifact := None; ac_loop_checkpoint := None; ac_action_observation := None |}.
(** The argument: [None], a dictionary, or something else.  A dictionary is what its
    entries hold, [None] when a key or a type is wrong; [empty] says it has no entry. *)
Inductive CandidateArgument := CA_none | CA_other | CA_dict (empty : bool) (raw : option AdvanceCandidate).
(** [SemanticCheckpoint], validated. *)
Definition validate_semantic_checkpoint : cleaner SemanticCheckpoint :=
  model (fun c =>
    state ← Digest (LoopGuard.ck_state_fingerprint c); progress ← LoopGuard.validate_progress (LoopGuard.ck_progress c);
    revision ← NonNegativeInt (LoopGuard.ck_plan_revision c); version ← ShortText (LoopGuard.ck_fingerprint_schema_version c);
    worker ← optional ShortText (LoopGuard.ck_worker_id c); failure ← optional ShortText (LoopGuard.ck_normalized_failure c);
    context ← optional Digest (LoopGuard.ck_failure_context_hash c);
    dependency ← optional Digest (LoopGuard.ck_failure_dependency_hash c);
    ordinal ← NonNegativeInt (LoopGuard.ck_correction_ordinal c); route ← optional ShortText (LoopGuard.ck_model_route c);
    Ok {| LoopGuard.ck_scope := LoopGuard.ck_scope c; LoopGuard.ck_observation_kind := LoopGuard.ck_observation_kind c;
          LoopGuard.ck_state_fingerprint := state; LoopGuard.ck_progress := progress; LoopGuard.ck_plan_revision := revision;
          LoopGuard.ck_fingerprint_schema_version := version; LoopGuard.ck_worker_id := worker;
          LoopGuard.ck_normalized_failure := failure; LoopGuard.ck_failure_context_hash := context;
          LoopGuard.ck_failure_dependency_hash := dependency; LoopGuard.ck_correction_ordinal := ordinal;
          LoopGuard.ck_model_route := route |})
    LoopGuard.validate_failure_shape.

(** ** Receipts: workflow_execution_backend.py *)
Record CommittedTransitionReceipt := {
  cr_pre : CommittedExecutionSnapshot; cr_post : CommittedExecutionSnapshot; cr_transition_digest : string;
  cr_trust_key_id : string; cr_signature : string }.
Definition validate_continuity (r : CommittedTransitionReceipt) : result unit :=
  let pre := cr_pre r in let post := cr_post r in
  _ ← check (String.eqb (cs_run_id pre) (cs_run_id post) && String.eqb (cs_trace_id pre) (cs_trace_id post) &&
             String.eqb (cs_plan_id pre) (cs_plan_id post) && String.eqb (cs_plan_digest pre) (cs_plan_digest post) &&
             (cs_plan_revision pre =? cs_plan_revision post)) (ValueError "receipt endpoints have different execution identity");
  _ ← check (cs_sequence post =? cs_sequence pre + 1) (ValueError "receipt sequence must advance exactly once");
  _ ← check (cs_state_revision post =? cs_state_revision pre + 1) (ValueError "receipt state revision must advance exactly once");
  raise_when (String.eqb (cs_event_head_hash post) (cs_event_head_hash pre)) (ValueError "receipt event-chain head must advance").
Definition validate_transition_receipt : cleaner CommittedTransitionReceipt :=
  model (fun r =>
    pre ← validate_execution_snapshot (cr_pre r); post ← validate_execution_snapshot (cr_post r);
    digest ← Digest (cr_transition_digest r); key ← ShortText (cr_trust_key_id r); signature ← SignatureHex (cr_signature r);
    Ok {| cr_pre := pre; cr_post := post; cr_transition_digest := digest; cr_trust_key_id := key; cr_signature := signature |})
    validate_continuity.
Record IssuerTrustDescriptor := { td_trust_version : string; td_trust_config_digest : string; td_key_id : string }.
#[export] Instance IssuerTrustDescriptor_eq_dec : EqDecision IssuerTrustDescriptor.
Proof. solve_decision. Defined.
Definition validate_descriptor : cleaner IssuerTrustDescriptor := fun d =>
  version ← ShortText (td_trust_version d); config ← Digest (td_trust_config_digest d); key ← ShortText (td_key_id d);
  Ok {| td_trust_version := version; td_trust_config_digest := config; td_key_id := key |}.
Record RegistrationPreparation := {
  rp_token_id : string; rp_run_id : string; rp_trace_id : string; rp_plan_id : string; rp_plan_digest : string; rp_plan_revision : Z;
  rp_provisional_view_digest : string; rp_provisional_sequence : Z; rp_provisional_state_revision : Z; rp_issuer : IssuerTrustDescriptor }.
Definition validate_preparation : cleaner RegistrationPreparation := fun p =>
  token ← Digest (rp_token_id p); run ← ShortText (rp_run_id p); trace ← ShortText (rp_trace_id p); plan ← ShortText (rp_plan_id p);
  digest ← Digest (rp_plan_digest p); revision ← NonNegativeInt (rp_plan_revision p); view ← Digest (rp_provisional_view_digest p);
  sequence ← NonNegativeInt (rp_provisional_sequence p); state ← NonNegativeInt (rp_provisional_state_revision p);
  issuer ← validate_descriptor (rp_issuer p);
  Ok {| rp_token_id := token; rp_run_id := run; rp_trace_id := trace; rp_plan_id := plan; rp_plan_digest := digest;
        rp_plan_revision := revision; rp_provisional_view_digest := view; rp_provisional_sequence := sequence;
        rp_provisional_state_revision := state; rp_issuer := issuer |}.
Record ExecutionHandle := {
  eh_run_id : string; eh_trace_id : string; eh_plan_id : string; eh_plan_revision : Z; eh_state_revision : Z;
  eh_routed_state : option string; eh_cancelled : bool }.

(** ** The environment

    What the kernel is given.  [W] is the state of the collaborators; an operation may
    raise.  A factory answers [None] when what it returns is not of the exact class. *)
Record Environment (W : Type) := {
  en_codec : Codec; en_pinned_versions : PinnedVersions; en_severity_policy : SeverityPolicy;
  en_loop_digest : LoopGuard.Digested -> string;
  en_confidence_verify : string -> Json -> string -> ConfidenceGate.Verdict;
  en_candidate_digest : AdvanceCandidate -> string;
  en_action_json : ActionObservation -> string; en_read_action : string -> option ActionObservation;
  en_checkpoint_json : SemanticCheckpoint -> string; en_read_checkpoint : string -> option SemanticCheckpoint;
  en_loop_guard : io W (option LoopGuard); en_confidence_gate : HarnessPlan -> io W (option ConfidenceGate);
  en_budget : WorkflowMode -> io W (option WorkflowBudgetLedger);
  en_ledger_clock : io W Reading; en_new_reservation : io W (string * Z);
  en_utc_now : io W (option datetime); en_monotonic : io W (option Q); en_new : string -> io W (option string);
  en_issuer_ready : io W (option bool); en_trust_descriptor : io W IssuerTrustDescriptor;
  en_issue_snapshot : HarnessPlan -> Store -> io W CommittedExecutionSnapshot;
  en_issue_transition_receipt : HarnessPlan -> HarnessTransition -> Z -> Store -> io W CommittedTransitionReceipt;
  en_verify_receipt : CommittedTransitionReceipt -> bool;
  en_prepare_registration : HarnessPlan -> HarnessSessionView -> IssuerTrustDescriptor -> io W RegistrationPreparation;
  en_commit_registration : RegistrationPreparation -> CommittedExecutionSnapshot -> io W unit;
  en_rollback_registration : RegistrationPreparation -> io W unit;
  en_resume : HarnessPlan -> HarnessSessionView -> CommittedExecutionSnapshot -> io W ExecutionHandle;
  en_apply : ExecutionHandle -> HarnessTransition -> HarnessSessionView -> HarnessSessionView -> CommittedTransitionReceipt -> io W unit;
  en_cancel : string -> io W unit }.
Arguments en_codec {W}. Arguments en_pinned_versions {W}. Arguments en_severity_policy {W}. Arguments en_loop_digest {W}.
Arguments en_confidence_verify {W}. Arguments en_candidate_digest {W}. Arguments en_action_json {W}. Arguments en_read_action {W}.
Arguments en_checkpoint_json {W}. Arguments en_read_checkpoint {W}. Arguments en_loop_guard {W}.
Arguments en_confidence_gate {W}. Arguments en_budget {W}. Arguments en_ledger_clock {W}. Arguments en_new_reservation {W}.
Arguments en_utc_now {W}. Arguments en_monotonic {W}. Arguments en_new {W}. Arguments en_issuer_ready {W}.
Arguments en_trust_descriptor {W}. Arguments en_issue_snapshot {W}. Arguments en_issue_transition_receipt {W}.
Arguments en_verify_receipt {W}. Arguments en_prepare_registration {W}. Arguments en_commit_registration {W}.
Arguments en_rollback_registration {W}. Arguments en_resume {W}. Arguments en_apply {W}. Arguments en_cancel {W}.

(** What the kernel takes from a [WorkflowRequest]: its identifiers, its canonical digest
    and the plan [PlanCompiler.compile] makes of it. *)
Record WorkflowRequest (W : Type) := {
  wq_workflow_id : string; wq_trace_id : string; wq_request_digest : string; wq_compile : io W HarnessPlan }.
Arguments wq_workflow_id {W}. Arguments wq_trace_id {W}. Arguments wq_request_digest {W}. Arguments wq_compile {W}.
(** [HarnessKernel]: its store, its caches, and the collaborators' state. *)
Record Kernel (W : Type) := {
  kn_store : Store; kn_budgets : gmap string WorkflowBudgetLedger; kn_confidence_gates : gmap string ConfidenceGate;
  kn_binding_failed : gset string; kn_backend_cancelled : gset string; kn_world : W }.
Arguments kn_store {W}. Arguments kn_budgets {W}. Arguments kn_confidence_gates {W}. Arguments kn_binding_failed {W}.
Arguments kn_backend_cancelled {W}. Arguments kn_world {W}.
Arguments Build_Kernel {W}.

(** ** What the stream says *)
Definition payload : Type := list (string * Json).
Definition put (p : payload) (key : string) (value : Json) : payload := dict_set p key value.
Definition update (p other : payload) : payload := foldl (fun p kv => put p kv.1 kv.2) p other.
(** [_strict_payload_bool] *)
Definition strict_payload_bool (p : payload) (name : string) : result bool :=
  match dict_get p name with
  | None => Ok false
  | Some (JBool b) => Ok b
  | Some _ => Raise (HarnessDependencyError ("committed " +:+ name +:+ " decision is invalid"))
  end.
(** [_pending_authority] *)
Definition pending_authority (events : list HarnessEvent) (view : HarnessSessionView)
    : result (option (TransitionAuthorityRecord * RunState * payload)) :=
  let pending := List.filter (fun a =>
    negb (bool_decide (ta_idempotency_key a ∈ v_applied_idempotency_keys view)) && (ta_expected_state_revision a =? v_state_revision view))
    (v_transition_authorities view) in
  match pending with
  | [] => Ok None
  | [authority] =>
      match List.filter (fun e => bool_decide (authority_of e = Some authority)) events with
      | [e] =>
          match run_state_of (ta_to_state authority) with
          | None => Raise (HarnessDependencyError "pending authority targets an invalid state")
          | Some target =>
              _ ← check (bool_decide (ta_entity_kind authority = E_run) && bool_decide (Some (ta_entity_id authority) = v_run_id view) &&
                         String.eqb (ta_from_state authority) (current_value run_state_value (v_run_state view)))
                    (HarnessDependencyError "pending authority does not bind current run");
              Ok (Some (authority, target, ev_payload e))
          end
      | _ => Raise (HarnessDependencyError "pending authority has no unique policy event")
      end
  | _ => Raise (HarnessDependencyError "run has ambiguous pending transition authority")
  end.
(** [_committed_candidate] *)
Definition committed_candidate (events : list HarnessEvent) (candidate_digest : string) : result (option (HarnessTransition * payload)) :=
  let applied := dict_of (omap (fun e => (fun t => (tr_idempotency_key t, t)) <$> ev_transition e) events) in
  let matches := omap (fun e =>
    authority ← authority_of e;
    transition ← dict_get applied (ta_idempotency_key authority);
    if is_str (payload_get e "candidate_digest") candidate_digest then Some (transition, ev_payload e) else None) events in
  match matches with
  | [] => Ok None
  | [found] => Ok (Some found)
  | _ => Raise (HarnessDependencyError "candidate digest identifies multiple decisions")
  end.
(** [_summary_source] *)
Definition summarizes (view : HarnessSessionView) (e : HarnessEvent) : bool :=
  match ev_transition e with
  | Some t => bool_decide (tr_entity_kind t = E_run) && String.eqb (tr_to_state t) (run_state_value R_SUMMARIZING) &&
              (tr_expected_state_revision t + 1 =? v_state_revision view)
  | None => false
  end.
Definition summary_source (events : list HarnessEvent) (view : HarnessSessionView) : result string :=
  match List.find (summarizes view) (reverse events) with
  | None => Raise (HarnessDependencyError "summarizing state has no source transition")
  | Some e =>
      if is_str (payload_get e "summary_source") "confidence_success" then Ok "confidence_success"
      else if is_str (payload_get e "summary_source") "degradation" then Ok "degradation"
      else Raise (HarnessDependencyError "summarizing transition has no valid source")
  end.
(** [_strict_run_id] *)
Definition strict_run_id (run_id : string) : result string :=
  _ ← check (truthy run_id && String.eqb run_id (strip run_id) && (Z.of_nat (String.length run_id) <=? 256))
        (InvalidHarnessInputError "run identifier must be a canonical string");
  Ok run_id.
(** [_loop_binding_payload] *)
Definition loop_binding_payload (plan : HarnessPlan) : payload :=
  [("loop_plan_revision", JInt (pl_revision plan));
   ("loop_fingerprint_schema_version", JStr (pv_fingerprint_schema_version (pl_pinned_versions plan)));
   ("loop_policy_version", JStr (pv_policy_version (pl_pinned_versions plan)))].

Section HarnessKernel.
Context {W : Type} (E : Environment W).
Abbreviation K := (en_codec E).
Abbreviation clean_payload := (k_clean_payload K).
Abbreviation event_hash := (k_event_hash K).
Abbreviation fold_stream := (fold_events clean_payload event_hash).
Abbreviation load_stream := (load clean_payload).
Abbreviation checkpoints_of :=
  (validated_checkpoints (k_tool_price K) (k_loads K) (k_dumps K) (k_json_digest K) (k_read_checkpoint K) (k_checkpoint_json K) (k_read_permit K)).
Abbreviation validate_action := (LoopGuard.validate_observation (en_loop_digest E)).
Abbreviation Kio := (io (Kernel W)).

(** [_candidate]: what the argument is, and its digest. *)
Definition validate_action_observation : cleaner ActionObservation :=
  model (fun o =>
    digest ← Digest (LoopGuard.ob_digest o); action ← Digest (LoopGuard.ob_action o); result ← Digest (LoopGuard.ob_result o);
    Ok {| LoopGuard.ob_digest := digest; LoopGuard.ob_scope := LoopGuard.ob_scope o; LoopGuard.ob_action := action; LoopGuard.ob_result := result |})
    validate_action.
Definition validate_advance_candidate : cleaner AdvanceCandidate := fun c =>
  observation ← optional ConfidenceGate.validate_observation (ac_confidence_observation c);
  artifact ← optional ConfidenceGate.validate_artifact (ac_confidence_artifact c);
  checkpoint ← optional validate_semantic_checkpoint (ac_loop_checkpoint c);
  action ← optional validate_action_observation (ac_action_observation c);
  Ok {| ac_confidence_observation := observation; ac_confidence_artifact := artifact; ac_loop_checkpoint := checkpoint;
        ac_action_observation := action |}.
Definition candidate_of (argument : CandidateArgument) : option AdvanceCandidate * option string :=
  match argument with
  | CA_none => (Some no_candidate, None)
  | CA_other | CA_dict _ None => (None, None)
  | CA_dict empty (Some raw) =>
      match validate_advance_candidate raw with
      | Raise _ => (None, None)
      | Ok parsed => (Some parsed, if empty then None else Some (en_candidate_digest E parsed))
      end
  end.
(** [_plan_from_events] *)
Definition plan_from_events (events : list HarnessEvent) : result HarnessPlan :=
  match omap (fun e => dict_get (ev_payload e) "plan_json") events with
  | [JStr text] =>
      match k_read_plan K text with
      | Some raw => except_as (validate_plan raw) (HarnessDependencyError "committed plan is invalid")
      | None => Raise (HarnessDependencyError "committed plan is invalid")
      end
  | [_] => Raise (HarnessDependencyError "committed plan is invalid")
  | _ => Raise (HarnessDependencyError "run stream must contain one committed plan")
  end.
(** The body of [_replayed_loop_guard] on one event. *)
Definition replay_loop_event (plan : HarnessPlan) (e : HarnessEvent) (g : LoopGuard) : result LoopGuard :=
  let action := payload_get e "loop_action_json" in
  let checkpoint := payload_get e "loop_checkpoint_json" in
  let pins := pl_pinned_versions plan in
  _ ← raise_when ((is_Some_b action || is_Some_b checkpoint) &&
        negb (is_int (payload_get e "loop_plan_revision") (pl_revision plan) &&
              is_str (payload_get e "loop_fingerprint_schema_version") (pv_fingerprint_schema_version pins) &&
              is_str (payload_get e "loop_policy_version") (pv_policy_version pins)))
        (HarnessDependencyError "committed loop observation pins do not match the plan");
  g ← match action with
      | None => Ok g
      | Some (JStr text) =>
          match en_read_action E text with
          | Some raw => o ← except_as (validate_action_observation raw) (HarnessDependencyError "committed loop action is invalid");
                        Ok (LoopGuard.observe_action_result g o).2
          | None => Raise (HarnessDependencyError "committed loop action is invalid")
          end
      | Some _ => Raise (HarnessDependencyError "committed loop action is invalid")
      end;
  match checkpoint with
  | None => Ok g
  | Some (JStr text) =>
      match en_read_checkpoint E text with
      | Some raw =>
          c ← except_as (validate_semantic_checkpoint raw) (HarnessDependencyError "committed loop checkpoint is invalid");
          let '(d, g) := LoopGuard.observe_checkpoint (en_loop_digest E) (en_severity_policy E) g c in
          _ ← d; Ok g
      | None => Raise (HarnessDependencyError "committed loop checkpoint is invalid")
      end
  | Some _ => Raise (HarnessDependencyError "committed loop checkpoint is invalid")
  end.
Fixpoint replay_loop (plan : HarnessPlan) (events : list HarnessEvent) (g : LoopGuard) : result LoopGuard :=
  match events with
  | [] => Ok g
  | e :: events => g ← replay_loop_event plan e g; replay_loop plan events g
  end.

(** ** The kernel's parts *)
Definition with_store (s : Kernel W) (st : Store) : Kernel W :=
  Build_Kernel st (kn_budgets s) (kn_confidence_gates s) (kn_binding_failed s) (kn_backend_cancelled s) (kn_world s).
Definition with_budgets (s : Kernel W) budgets : Kernel W :=
  Build_Kernel (kn_store s) budgets (kn_confidence_gates s) (kn_binding_failed s) (kn_backend_cancelled s) (kn_world s).
Definition with_gates (s : Kernel W) gates failed : Kernel W :=
  Build_Kernel (kn_store s) (kn_budgets s) gates failed (kn_backend_cancelled s) (kn_world s).
Definition with_cancelled (s : Kernel W) cancelled : Kernel W :=
  Build_Kernel (kn_store s) (kn_budgets s) (kn_confidence_gates s) (kn_binding_failed s) cancelled (kn_world s).
Definition with_world (s : Kernel W) (w : W) : Kernel W :=
  Build_Kernel (kn_store s) (kn_budgets s) (kn_confidence_gates s) (kn_binding_failed s) (kn_backend_cancelled s) w.
(** A call of a collaborator. *)
Definition call {A} (m : io W A) : Kio A := fun s => let '(w, r) := m (kn_world s) in (with_world s w, r).
(** [try: m except Exception as error: raise e] *)
Definition converting {A} (m : Kio A) (e : exn) : Kio A := try_ m (fun _ => lift (Raise e)).
(** A method of the run's ledger. *)
Definition on_ledger {A} (run_id : string) (m : io WorkflowBudgetLedger A) : Kio A := fun s =>
  match kn_budgets s !! run_id with
  | None => (s, Raise (KeyError run_id))
  | Some l => let '(l, r) := m l in (with_budgets s (<[run_id := l]> (kn_budgets s)), r)
  end.
(** A method of a ledger no cache holds yet. *)
Definition on_fresh_ledger {A} (l : WorkflowBudgetLedger) (m : io WorkflowBudgetLedger A) : Kio (A * WorkflowBudgetLedger) :=
  let '(l, r) := m l in a ← lift r; mret (a, l).
Definition load_events (run_id : string) : Kio (list HarnessEvent) := fun s => (s, load_stream (kn_store s) run_id).
(** [HarnessEventStore.append], of an event with no lease. *)
Definition append_event (e : HarnessEvent) (expected_sequence expected_state_revision : Z) : Kio HarnessEvent := fun s =>
  match append clean_payload (k_sha256 K) event_hash (kn_store s) e expected_sequence expected_state_revision None None with
  | Ok (committed, st) => (with_store s st, Ok committed)
  | Raise x => (s, Raise x)
  end.
(** [snapshot] *)
Definition kernel_snapshot (run_id : string) : Kio HarnessSessionView :=
  run_id ← lift (strict_run_id run_id);
  events ← load_events run_id;
  _ ← lift (check (negb (bool_decide (events = []))) (UnknownHarnessRunError "unknown Harness run"));
  lift (fold_stream events).
(** [_load] *)
Definition load_run (run_id : string) : Kio (list HarnessEvent * HarnessPlan * HarnessSessionView) :=
  events ← load_events run_id;
  _ ← lift (check (negb (bool_decide (events = []))) (UnknownHarnessRunError "unknown Harness run"));
  view ← lift (fold_stream events);
  plan ← lift (plan_from_events events);
  _ ← lift (check (String.eqb (pl_run_id plan) run_id && bool_decide (Some (pl_run_id plan) = v_run_id view) &&
                   bool_decide (Some (pl_trace_id plan) = v_trace_id view) && (pl_revision plan =? v_plan_revision view))
              (HarnessDependencyError "stored plan and folded stream disagree"));
  mret (events, plan, view).
(** [_identifier] *)
Definition identifier (purpose : string) : Kio string :=
  value ← call (en_new E purpose);
  match value with
  | Some s => if truthy s && String.eqb s (strip s) && (Z.of_nat (String.length s) <=? 256) then mret s
              else lift (Raise (HarnessDependencyError "identifier source returned invalid text"))
  | None => lift (Raise (HarnessDependencyError "identifier source returned invalid text"))
  end.
(** [_event] *)
Definition new_event (plan : HarnessPlan) (event_type : string) (p : payload) (transition : option HarnessTransition)
    (authority : option TransitionAuthorityRecord) : Kio HarnessEvent :=
  occurred ← call (en_utc_now E);
  monotonic ← call (en_monotonic E);
  match occurred, monotonic with
  | Some at_, Some offset =>
      _ ← lift (check (is_utc at_ && Qle_bool 0 offset) (HarnessDependencyError "clock returned an invalid deterministic point"));
      event_id ← identifier "event"; span_id ← identifier "span";
      lift (model_validate_event clean_payload
        {| ev_schema_version := "v1"; ev_event_id := event_id; ev_trace_id := pl_trace_id plan; ev_span_id := span_id;
           ev_parent_span_id := None; ev_run_id := pl_run_id plan; ev_work_item_id := None; ev_attempt_id := None; ev_sequence := 0;
           ev_state_revision := 0; ev_event_type := event_type; ev_occurred_at := at_; ev_monotonic_offset := offset;
           ev_actor := "harness-kernel"; ev_payload := p; ev_transition := transition; ev_transition_authority := Some authority;
           ev_attempt_ownership := None; ev_reconciliation_resolution := None; ev_previous_event_hash := None; ev_event_hash := None |})
  | _, _ => lift (Raise (HarnessDependencyError "clock returned an invalid deterministic point"))
  end.
(** [_append_observation] *)
Definition append_observation (plan : HarnessPlan) (view : HarnessSessionView) (event_type : string) (p : payload) : Kio HarnessSessionView :=
  e ← new_event plan event_type p None None;
  _ ← append_event e (v_sequence view) (v_state_revision view);
  kernel_snapshot (pl_run_id plan).
(** The fields a snapshot binds, in [_issued_snapshot] and [_validate_snapshot_value]. *)
Definition snapshot_binds (plan : HarnessPlan) (view : HarnessSessionView) (s : CommittedExecutionSnapshot) : bool :=
  String.eqb (cs_run_id s) (pl_run_id plan) && String.eqb (cs_trace_id s) (pl_trace_id plan) && String.eqb (cs_plan_id s) (pl_plan_id plan) &&
  String.eqb (cs_plan_digest s) (k_plan_digest K plan) && (cs_plan_revision s =? pl_revision plan) && (cs_sequence s =? v_sequence view) &&
  (cs_state_revision s =? v_state_revision view) && String.eqb (cs_view_digest s) (k_view_digest K view) &&
  bool_decide (Some (cs_event_head_hash s) = v_last_event_hash view) && bool_decide (cs_folded_view s = Some view).
Definition issued_snapshot (plan : HarnessPlan) (view : HarnessSessionView) : Kio CommittedExecutionSnapshot :=
  snapshot ← converting (st ← read kn_store; value ← call (en_issue_snapshot E plan st); lift (validate_execution_snapshot value))
               (HarnessDependencyError "host snapshot issuer failed");
  _ ← lift (check (snapshot_binds plan view snapshot) (HarnessDependencyError "host snapshot does not bind committed truth"));
  mret snapshot.
Definition issue_receipt (plan : HarnessPlan) (t : HarnessTransition) (pre_sequence : Z) (failure : string) : Kio CommittedTransitionReceipt :=
  converting (st ← read kn_store; value ← call (en_issue_transition_receipt E plan t pre_sequence st); lift (validate_transition_receipt value))
    (HarnessDependencyError failure).
(** [_issued_receipt] *)
Definition issued_receipt (plan : HarnessPlan) (t : HarnessTransition) (pre_view post_view : HarnessSessionView)
    (pre : CommittedExecutionSnapshot) : Kio CommittedTransitionReceipt :=
  receipt ← issue_receipt plan t (v_sequence pre_view) "host transition receipt issuer failed";
  _ ← lift (check (bool_decide (cr_pre receipt = pre) && String.eqb (cr_transition_digest receipt) (k_transition_digest K t))
              (HarnessDependencyError "host receipt does not bind the committed transition"));
  _ ← lift (check (snapshot_binds plan post_view (cr_post receipt)) (HarnessDependencyError "receipt endpoint does not bind committed truth"));
  mret receipt.

(** ** Dependencies *)
(** [_confidence_gate_matches_plan] *)
Definition request_class_of (plan : HarnessPlan) : ConfidenceGate.RequestClass :=
  match pl_risk_class plan with K_INFORMATIONAL => ConfidenceGate.RC_informational | _ => ConfidenceGate.RC_trading end.
Definition confidence_gate_matches_plan (plan : HarnessPlan) (gate : ConfidenceGate) : bool :=
  match ConfidenceGate.trusted_context_snapshot gate, ConfidenceGate.trusted_policy_snapshot gate with
  | Some context, Some policy =>
      let expected := k_sha256 K (pv_policy_version (pl_pinned_versions plan)) in
      let gates := ConfidenceGate.rc_hard_gates context in
      bool_decide (ConfidenceGate.rc_request_class context = request_class_of plan) &&
      String.eqb (ConfidenceGate.hg_run_id gates) (pl_run_id plan) &&
      String.eqb (ConfidenceGate.hg_trace_hash gates) (k_sha256 K (pl_trace_id plan)) &&
      (ConfidenceGate.hg_plan_revision gates =? pl_revision plan) &&
      String.eqb (ConfidenceGate.hg_policy_hash gates) expected && String.eqb (ConfidenceGate.tp_policy_hash policy) expected &&
      String.eqb (ConfidenceGate.tp_policy_hash policy) (ConfidenceGate.hg_policy_hash gates)
  | _, _ => false
  end.
Definition exact {A} (o : option A) (what : string) : result A :=
  match o with Some a => Ok a | None => Raise (HarnessDependencyError what) end.
(** [_ensure_runtime_dependencies]; a ledger of the cache is restored from the stream
    when it enters it. *)
Definition restored_ledger (plan : HarnessPlan) (l : WorkflowBudgetLedger) : Kio WorkflowBudgetLedger :=
  events ← load_events (pl_run_id plan);
  reading ← call (en_ledger_clock E);
  '(s, l) ← on_fresh_ledger l (WorkflowBudget.snapshot reading);
  _ ← lift (budget_state K events plan s);
  reading ← call (en_ledger_clock E);
  '(s, l) ← on_fresh_ledger l (WorkflowBudget.snapshot reading);
  _ ← lift (check (bool_decide (WorkflowBudget.sn_mode s = pl_mode plan)) (HarnessDependencyError "budget snapshot does not match the run"));
  mret l.
Definition ledger_snapshot (plan : HarnessPlan) : Kio BudgetSnapshot :=
  reading ← call (en_ledger_clock E);
  s ← on_ledger (pl_run_id plan) (WorkflowBudget.snapshot reading);
  _ ← lift (check (bool_decide (WorkflowBudget.sn_mode s = pl_mode plan)) (HarnessDependencyError "budget snapshot does not match the run"));
  mret s.
Definition ensure_runtime_dependencies (plan : HarnessPlan) : Kio unit :=
  _ ← lift (check (bool_decide (pl_pinned_versions plan = en_pinned_versions E)) (HarnessDependencyError "stored plan dependency pins changed"));
  guard ← call (en_loop_guard E);
  gate ← call (en_confidence_gate E plan);
  cached ← read (fun s => kn_budgets s !! pl_run_id plan);
  made ← match cached with Some l => mret (Some l) | None => call (en_budget E (pl_mode plan)) end;
  _ ← lift (exact guard "loop guard factory returned an invalid policy");
  gate ← lift (exact gate "confidence gate factory returned an invalid policy");
  ledger ← lift (exact made "budget factory returned an invalid ledger");
  _ ← match cached with
      | Some _ => _ ← ledger_snapshot plan; mret tt
      | None => l ← restored_ledger plan ledger; modify (fun s => with_budgets s (<[pl_run_id plan := l]> (kn_budgets s)))
      end;
  modify (fun s => with_gates s (<[pl_run_id plan := gate]> (kn_confidence_gates s))
                     (if confidence_gate_matches_plan plan gate then kn_binding_failed s else {[pl_run_id plan]} ∪ kn_binding_failed s)).

(** ** What an advance decides *)
Definition Outcome : Type := RunState * string * bool * payload.
(** The part of [_policy_decision] that needs no running run. *)
Definition settled_policy (events : list HarnessEvent) (view : HarnessSessionView) : result (option Outcome) :=
  match v_run_state view with
  | None => Raise (HarnessKernelError "run has no deterministic advance policy")
  | Some state =>
      match initial_target state with
      | Some (target, reason) => Ok (Some (target, reason, false, [("policy", JStr "state_machine")]))
      | None =>
          match state with
          | R_DEGRADING => Ok (Some (R_SUMMARIZING, "safe_no_trade_summary", true,
                                     [("policy", JStr "degradation"); ("summary_source", JStr "degradation")]))
          | R_SUMMARIZING =>
              source ← summary_source events view;
              if String.eqb source "confidence_success"
              then Ok (Some (R_SUCCEEDED, "completed", false, [("policy", JStr "terminal_success"); ("summary_source", JStr source)]))
              else Ok (Some (R_DEGRADED, "safe_no_trade_due_to_degradation", true,
                             [("policy", JStr "terminal_degradation"); ("summary_source", JStr "degradation")]))
          | R_RUNNING => Ok None
          | _ => Raise (HarnessKernelError "run has no deterministic advance policy")
          end
      end
  end.
Definition degrade (reason : string) (p : payload) : Outcome := (R_DEGRADING, reason, true, p).
Definition exhausted : Outcome := degrade "budget_exhausted" [("policy", JStr "budget")].
(** A step that either ends the decision or goes on. *)
Definition try_budget {A} (m : Kio A) : Kio (Outcome + A) :=
  try_ (a ← m; mret (inr a)) (fun e => if budget_error e then mret (inl exhausted) else lift (Raise e)).
Definition or_stop {A} (m : Kio (Outcome + A)) (f : A -> Kio Outcome) : Kio Outcome :=
  r ← m; match r with inl o => mret o | inr a => f a end.
(** The settlement of what the caller observed. *)
Definition settle_observed (events : list HarnessEvent) (plan : HarnessPlan) (budget : BudgetSnapshot) (usage : WorkflowUsage)
    : Kio (Outcome + payload) :=
  usage ← lift (except_as (validate_workflow_usage (k_tool_price K) usage) (HarnessDependencyError "workflow usage is invalid"));
  checkpoints ← lift (checkpoints_of events plan);
  let bound := match last checkpoints with Some c => usage_eqb (ck_usage c) usage | None => false end in
  _ ← lift (check (bound || explicit_checkpoint_free_usage usage)
              (HarnessDependencyError "terminal workflow usage is not bound by the latest checkpoint"));
  try_budget (lift (budget_payload_v2 K events plan budget usage checkpoints)).
(** The synthetic settlement of one token each way. *)
Definition reserve_and_settle (plan : HarnessPlan) : Kio (BudgetReservation * BudgetSettlement) :=
  policy ← lift (execution_policy_for plan);
  reading ← call (en_ledger_clock E);
  '(id, object) ← call (en_new_reservation E);
  reservation ← on_ledger (pl_run_id plan)
    (WorkflowBudget.reserve
       {| WorkflowBudget.rq_node_name := po_node_name policy; WorkflowBudget.rq_model := first_model policy; WorkflowBudget.rq_band := SHORT;
          WorkflowBudget.rq_usage := unit_usage; WorkflowBudget.rq_maximum_tool_calls := 0;
          WorkflowBudget.rq_attempt_timeout_seconds := None |} (k_tool_price K) reading id object);
  settlement ← on_ledger (pl_run_id plan) (WorkflowBudget.settle reservation unit_usage);
  mret (reservation, settlement).
Definition settle_synthetic (events : list HarnessEvent) (plan : HarnessPlan) (before : BudgetSnapshot) : Kio (Outcome + payload) :=
  can ← lift (budget_can_reserve K events plan before unit_usage);
  if negb can then mret (inl exhausted)
  else
    settled ← try_budget (reserve_and_settle plan);
    match settled with
    | inl o => mret (inl o)
    | inr (reservation, settlement) =>
        reading ← call (en_ledger_clock E);
        after ← on_ledger (pl_run_id plan) (WorkflowBudget.snapshot reading);
        p ← lift (budget_payload K events plan before after unit_usage reservation settlement);
        mret (inr p)
    end.
Definition settlement (events : list HarnessEvent) (plan : HarnessPlan) (usage : option WorkflowUsage) (observed : bool)
    : Kio (Outcome + payload) :=
  budget ← ledger_snapshot plan;
  closed ← lift (budget_closed K events plan budget);
  if (closed : bool) then mret (inl exhausted)
  else match usage with
  | Some usage => settle_observed events plan budget usage
  | None =>
      if observed then mret (inl (degrade "usage_evidence_unavailable" [("policy", JStr "observed_usage_required")]))
      else settle_synthetic events plan budget
  end.
(** [_replayed_loop_guard] *)
Definition replayed_loop_guard (events : list HarnessEvent) (plan : HarnessPlan) : Kio LoopGuard :=
  made ← call (en_loop_guard E);
  guard ← lift (exact made "loop guard factory returned an invalid policy");
  lift (replay_loop plan events guard).
Definition reason_text (d : LoopGuard.LoopDecision) : string :=
  match LoopGuard.ld_stop_reason d with Some r => or_else r "allowed" | None => "allowed" end.
Definition loop_fields (plan : HarnessPlan) (p : payload) (key text : string) (d : LoopGuard.LoopDecision) : payload :=
  put (update (put p key (JStr text)) (loop_binding_payload plan)) "loop_reason" (JStr (reason_text d)).
Definition observe_action (events : list HarnessEvent) (plan : HarnessPlan) (candidate : AdvanceCandidate) (p : payload)
    : Kio (Outcome + (payload * option LoopGuard)) :=
  match ac_action_observation candidate with
  | None => mret (inr (p, None))
  | Some o =>
      guard ← replayed_loop_guard events plan;
      let '(d, guard) := LoopGuard.observe_action_result guard o in
      let p := loop_fields plan p "loop_action_json" (en_action_json E o) d in
      mret (if LoopGuard.ld_allowed d then inr (p, Some guard) else inl (degrade "loop_guard_stopped" p))
  end.
Definition observe_loop_checkpoint (events : list HarnessEvent) (plan : HarnessPlan) (candidate : AdvanceCandidate)
    (pg : payload * option LoopGuard) : Kio (Outcome + payload) :=
  let '(p, guard) := pg in
  match ac_loop_checkpoint candidate with
  | None => mret (inr p)
  | Some c =>
      if negb (LoopGuard.ck_plan_revision c =? pl_revision plan) ||
         negb (String.eqb (LoopGuard.ck_fingerprint_schema_version c) (pv_fingerprint_schema_version (pl_pinned_versions plan)))
      then mret (inl (degrade "loop_checkpoint_binding_mismatch" (put p "policy" (JStr "loop_guard"))))
      else
        guard ← match guard with Some g => mret g | None => replayed_loop_guard events plan end;
        d ← lift (LoopGuard.observe_checkpoint (en_loop_digest E) (en_severity_policy E) guard c).1;
        let p := loop_fields plan p "loop_checkpoint_json" (en_checkpoint_json E c) d in
        mret (if LoopGuard.ld_allowed d then inr p else inl (degrade "loop_guard_stopped" p))
  end.
Definition action_text (a : ConfidenceGate.NextAction) : string :=
  match a with
  | ConfidenceGate.succeed => "succeed" | ConfidenceGate.one_recovery => "one_recovery" | ConfidenceGate.safe_retrieval => "safe_retrieval"
  | ConfidenceGate.degrade_unknown => "degrade_unknown" | ConfidenceGate.degrade_no_trade => "degrade_no_trade"
  end.
Definition confidence_reason_text (r : ConfidenceGate.ConfidenceReason) : string :=
  match r with
  | ConfidenceGate.calibrated => "calibrated" | ConfidenceGate.calibration_unavailable => "calibration_unavailable"
  | ConfidenceGate.hard_gate_blocked => "hard_gate_blocked"
  end.
(** The cached gate's [evaluate], which may seal it. *)
Definition evaluate_gate (run_id : string) (candidate : AdvanceCandidate) : Kio ConfidenceGate.ConfidenceDecision := fun s =>
  match kn_confidence_gates s !! run_id with
  | None => (s, Raise (KeyError run_id))
  | Some gate =>
      let '(d, gate) := ConfidenceGate.evaluate (k_json_digest K) (en_confidence_verify E) gate
                          (ac_confidence_observation candidate) (ac_confidence_artifact candidate) in
      (with_gates s (<[run_id := gate]> (kn_confidence_gates s)) (kn_binding_failed s), Ok d)
  end.
Definition gate_outcome (p : payload) (d : ConfidenceGate.ConfidenceDecision) : Outcome :=
  let p := put (put p "confidence_action" (JStr (action_text (ConfidenceGate.cd_next_action d))))
             "confidence_reason" (JStr (confidence_reason_text (ConfidenceGate.cd_reason_code d))) in
  if ConfidenceGate.cd_may_succeed d
  then (R_SUMMARIZING, "confidence_sufficient", false, put p "summary_source" (JStr "confidence_success"))
  else degrade "confidence_fail_closed" p.
Definition judge (plan : HarnessPlan) (candidate : AdvanceCandidate) (p : payload) : Kio Outcome :=
  failed ← read (fun s => bool_decide (pl_run_id plan ∈ kn_binding_failed s));
  if (failed : bool) then mret (degrade "confidence_context_mismatch" (put p "policy" (JStr "confidence_binding")))
  else d ← evaluate_gate (pl_run_id plan) candidate; mret (gate_outcome p d).
(** [_policy_decision] *)
Definition policy_decision (events : list HarnessEvent) (plan : HarnessPlan) (view : HarnessSessionView) (candidate : AdvanceCandidate)
    (usage : option WorkflowUsage) (observed : bool) : Kio Outcome :=
  settled ← lift (settled_policy events view);
  match settled with
  | Some o => mret o
  | None =>
      or_stop (settlement events plan usage observed) (fun spent =>
      or_stop (observe_action events plan candidate (update [("policy", JStr "confidence_gate")] spent)) (fun pg =>
      or_stop (observe_loop_checkpoint events plan candidate pg) (fun p =>
      judge plan candidate p)))
  end.

(** ** Committing a transition *)
Definition run_transition (plan : HarnessPlan) (view : HarnessSessionView) (target : RunState) (reason : string) : HarnessTransition :=
  {| tr_run_id := pl_run_id plan; tr_trace_id := pl_trace_id plan; tr_entity_kind := E_run; tr_entity_id := pl_run_id plan;
     tr_from_state := current_value run_state_value (v_run_state view); tr_to_state := run_state_value target;
     tr_expected_state_revision := v_state_revision view; tr_plan_revision := pl_revision plan; tr_reason_code := reason;
     tr_idempotency_key := "run-" +:+ pretty (v_state_revision view) +:+ "-" +:+ run_state_value target;
     tr_lease_epoch := None; tr_fencing_token_digest := None |}.
Definition run_authority (plan : HarnessPlan) (view : HarnessSessionView) (target : RunState) (reason : string) (t : HarnessTransition)
    : TransitionAuthorityRecord :=
  {| ta_run_id := pl_run_id plan; ta_trace_id := pl_trace_id plan; ta_entity_kind := E_run; ta_entity_id := pl_run_id plan;
     ta_from_state := current_value run_state_value (v_run_state view); ta_to_state := run_state_value target;
     ta_expected_state_revision := v_state_revision view; ta_plan_revision := pl_revision plan; ta_reason_code := reason;
     ta_idempotency_key := tr_idempotency_key t; ta_dependency_versions := v_dependency_versions view; ta_reservation_id := None;
     ta_grant_id := None; ta_lease_epoch := None; ta_fencing_token_digest := None |}.
Definition run_evidence (plan : HarnessPlan) (view : HarnessSessionView) : TransitionEvidence :=
  {| te_run_id := pl_run_id plan; te_trace_id := pl_trace_id plan; te_entity_id := pl_run_id plan;
     te_expected_state_revision := v_state_revision view; te_plan_revision := pl_revision plan;
     te_dependency_versions := v_dependency_versions view |}.
Definition has_key (p : payload) (key : string) : bool := is_Some_b (dict_get p key).
Definition observed_fields (p : payload) : payload :=
  List.filter (fun kv => negb (bool_decide (kv.1 ∈ _BUDGET_FIELDS)) && negb (String.eqb kv.1 _BUDGET_SETTLEMENT_EVIDENCE_KEY)) p.
(** The transition with its authority, as the state machine allows them; whether the
    view has the authority already. *)
Definition authorised_transition (plan : HarnessPlan) (view : HarnessSessionView) (target : RunState) (reason : string)
    : result (HarnessTransition * TransitionAuthorityRecord * bool) :=
  t ← validate_transition (run_transition plan view target reason);
  authority ← validate_authority (run_authority plan view target reason t);
  evidence ← validate_evidence (run_evidence plan view);
  let committed := bool_decide (authority ∈ v_transition_authorities view) in
  projected ← (if committed then Ok view
               else validate_view (set_evidence view (v_transition_authorities view ++ [authority])
                      (v_attempt_work_item_owners view) (v_reconciliation_resolutions view)));
  let decision := validate {| in_candidate := Transition t; in_view := projected; in_authorization := Some (RunTransitionEvidence evidence);
                              in_retry := None; in_resolution := None |} in
  _ ← check (allowed decision) (HarnessKernelError ("deterministic transition rejected: " +:+ default "None" (HarnessStateMachine.reason decision)));
  Ok (t, authority, committed).
(** The settlement's record, and the payload with the evidence that binds it. *)
Definition record_settlement (plan : HarnessPlan) (view : HarnessSessionView) (p : payload) (settlement : Json)
    : Kio (HarnessSessionView * payload) :=
  e ← new_event plan "budget_settlement_recorded" [("budget_settlement", settlement)] None None;
  _ ← append_event e (v_sequence view) (v_state_revision view);
  view ← kernel_snapshot (pl_run_id plan);
  host_receipt ← issued_snapshot plan view;
  let core := [("settlement", settlement);
               ("settlement_event_hash", from_option JStr JNull (v_last_event_hash view));
               ("settlement_event_sequence", JInt (v_sequence view));
               ("host_receipt", JStr (k_dumps K (k_snapshot_json K host_receipt)))] in
  mret (view, put p _BUDGET_SETTLEMENT_EVIDENCE_KEY (JObject (core ++ [("binding_digest", JStr (k_json_digest K (JObject core)))]))).
(** The authority event, unless the view has it. *)
Definition commit_authority (plan : HarnessPlan) (view : HarnessSessionView) (reason : string) (p : payload)
    (authority : TransitionAuthorityRecord) (committed : bool) : Kio (HarnessSessionView * payload) :=
  if committed then mret (view, p)
  else
    '(authority_view, p) ←
      (match dict_get p _BUDGET_SETTLEMENT_EVIDENCE_KEY with
       | Some settlement => record_settlement plan view p settlement
       | None => mret (view, p)
       end);
    e ← new_event plan "transition_authorized" (put p "reason_code" (JStr reason)) None (Some authority);
    _ ← append_event e (v_sequence authority_view) (v_state_revision authority_view);
    pre_view ← kernel_snapshot (pl_run_id plan);
    mret (pre_view, p).
(** The backend's copy of a committed transition; whether it is in step. *)
Definition synchronize (plan : HarnessPlan) (t : HarnessTransition) (pre_view post_view : HarnessSessionView)
    (pre_snapshot : CommittedExecutionSnapshot) (handle : ExecutionHandle) : Kio bool :=
  receipt ← issued_receipt plan t pre_view post_view pre_snapshot;
  try_ (_ ← call (en_apply E handle t pre_view post_view receipt); mret true)
       (fun e => if backend_error e then mret false else lift (Raise e)).
(** [_commit_run_transition] *)
Definition commit_run_transition (plan : HarnessPlan) (view : HarnessSessionView) (target : RunState) (reason : string)
    (handle : option ExecutionHandle) (p : payload) : Kio (HarnessSessionView * HarnessTransition * bool) :=
  '(t, authority, committed) ← lift (authorised_transition plan view target reason);
  if negb (is_Some_b (v_run_id view)) && negb (is_Some_b handle) then
    e ← new_event plan "transition_committed" (put p "reason_code" (JStr reason)) (Some t) None;
    _ ← append_event e (v_sequence view) (v_state_revision view);
    post_view ← kernel_snapshot (pl_run_id plan);
    mret (post_view, t, true)
  else
    '(pre_view, p) ← commit_authority plan view reason p authority committed;
    pre_snapshot ← issued_snapshot plan pre_view;
    handle ← match handle with
             | Some _ => h ← call (en_resume E plan pre_view pre_snapshot); mret (Some h)
             | None => mret None
             end;
    e ← new_event plan "transition_committed" (put (observed_fields p) "reason_code" (JStr reason)) (Some t) None;
    _ ← append_event e (v_sequence pre_view) (v_state_revision pre_view);
    post_view ← kernel_snapshot (pl_run_id plan);
    synchronized ← match handle with
                   | Some h => synchronize plan t pre_view post_view pre_snapshot h
                   | None => mret true
                   end;
    mret (post_view, t, synchronized).

(** ** The public operations *)
(** [try: m finally: f], where [f] runs unless [m] ended. *)
Definition unless_done {A} (m : Kio A) (f : Kio unit) : Kio A := try_ m (fun e => _ ← f; lift (Raise e)).
(** [_prepare_dependencies] *)
Definition prepare_dependencies (plan : HarnessPlan) (provisional : HarnessSessionView) : Kio RegistrationPreparation :=
  _ ← ensure_runtime_dependencies plan;
  ready ← converting (call (en_issuer_ready E)) (HarnessDependencyError "receipt issuer readiness failed");
  _ ← lift (check (bool_decide (ready = Some true)) (HarnessDependencyError "receipt issuer is not ready"));
  '(descriptor, token) ← try_
    (raw ← call (en_trust_descriptor E); descriptor ← lift (validate_descriptor raw);
     raw ← call (en_prepare_registration E plan provisional descriptor); token ← lift (validate_preparation raw);
     mret (descriptor, token))
    (fun e => lift (Raise (if backend_error e then e else HarnessDependencyError "registration preparation failed")));
  if bool_decide (rp_issuer token = descriptor) then mret token
  else
    _ ← try_ (call (en_rollback_registration E token)) (fun _ => mret tt);
    lift (Raise (HarnessDependencyError "registration token changed issuer trust binding")).
(** [HarnessSessionView(run_id=..., trace_id=..., plan_revision=...)] *)
Definition provisional_view (plan : HarnessPlan) : result HarnessSessionView :=
  validate_view
    {| v_sequence := 0; v_state_revision := 0; v_plan_revision := pl_revision plan; v_run_id := Some (pl_run_id plan);
       v_trace_id := Some (pl_trace_id plan); v_request_digest := None; v_prompt_release_digest := None;
       v_accepted_result_digest := None; v_run_state := None; v_outcome := None; v_work_item_states := []; v_attempt_states := [];
       v_dependency_versions := []; v_transition_authorities := []; v_attempt_work_item_owners := [];
       v_reconciliation_resolutions := []; v_applied_idempotency_keys := []; v_external_side_effect_unknown := false;
       v_last_event_hash := None |}.
(** [_create_locked]; the plan is what the compiler makes of the request. *)
Definition create (request : WorkflowRequest W) : Kio RunHandle :=
  events ← load_events (wq_workflow_id request);
  _ ← lift (check (bool_decide (events = [])) (ExecutionRegistrationError "run already exists"));
  raw ← call (wq_compile request);
  plan ← lift (except_as (validate_plan raw) (InvalidHarnessInputError "contract failed strict revalidation"));
  _ ← lift (check (negb (pl_allows_side_effects plan) && String.eqb (pl_run_id plan) (wq_workflow_id request) &&
                   String.eqb (pl_trace_id plan) (wq_trace_id request))
              (HarnessDependencyError "compiled plan violates no-side-effect run binding"));
  provisional ← lift (provisional_view plan);
  token ← prepare_dependencies plan provisional;
  view ← unless_done
    ('(view, _, _) ← commit_run_transition plan empty_view R_CREATED "run_created" None
       [("plan_json", JStr (k_plan_text K plan)); ("request_digest", JStr (wq_request_digest request))];
     snapshot ← issued_snapshot plan view;
     _ ← call (en_commit_registration E token snapshot);
     mret view) (call (en_rollback_registration E token));
  lift (handle_of plan view true).
Definition resume (run_id : string) : Kio RunHandle :=
  run_id ← lift (strict_run_id run_id);
  '(_, plan, view) ← load_run run_id;
  _ ← ensure_runtime_dependencies plan;
  snapshot ← issued_snapshot plan view;
  _ ← call (en_resume E plan view snapshot);
  lift (handle_of plan view true).
Definition handle (run_id : string) : Kio RunHandle :=
  run_id ← lift (strict_run_id run_id);
  '(_, plan, view) ← load_run run_id;
  lift (handle_of plan view false).
Definition terminal_receipt (run_id : string) : Kio CommittedTransitionReceipt :=
  run_id ← lift (strict_run_id run_id);
  '(events, plan, view) ← load_run run_id;
  _ ← lift (check (bool_decide (v_run_state view = Some R_SUCCEEDED)) (HarnessDependencyError "terminal success receipt is unavailable"));
  match last events ≫= ev_transition with
  | Some t =>
      _ ← lift (check (bool_decide (tr_entity_kind t = E_run) && String.eqb (tr_to_state t) (run_state_value R_SUCCEEDED) &&
                       String.eqb (tr_reason_code t) "completed") (HarnessDependencyError "terminal success receipt is stale"));
      pre_view ← lift (fold_stream (removelast events));
      receipt ← issue_receipt plan t (v_sequence pre_view) "host terminal receipt issuer failed";
      _ ← lift (check (String.eqb (cr_transition_digest receipt) (k_transition_digest K t))
                  (HarnessDependencyError "host terminal receipt changed transition"));
      _ ← lift (check (snapshot_binds plan pre_view (cr_pre receipt)) (HarnessDependencyError "receipt endpoint does not bind committed truth"));
      _ ← lift (check (snapshot_binds plan view (cr_post receipt)) (HarnessDependencyError "receipt endpoint does not bind committed truth"));
      _ ← lift (check (en_verify_receipt E receipt) (HarnessDependencyError "terminal success receipt is not host verified"));
      mret receipt
  | None => lift (Raise (HarnessDependencyError "terminal success receipt is stale"))
  end.
(** [_serialized_run]: one retry after a concurrency conflict, with the run's caches dropped. *)
Definition drop_caches (run_id : string) (s : Kernel W) : Kernel W :=
  Build_Kernel (kn_store s) (delete run_id (kn_budgets s)) (delete run_id (kn_confidence_gates s)) (kn_binding_failed s ∖ {[run_id]})
    (kn_backend_cancelled s) (kn_world s).
Definition conflict (e : exn) : bool := String.eqb (exn_class e) "OptimisticConcurrencyError".
Definition serialized {A} (method : string -> Kio A) (run_id : string) : Kio A :=
  run_id ← lift (strict_run_id run_id);
  let dropping e := if conflict e then modify (drop_caches run_id) else mret tt in
  try_ (method run_id) (fun e =>
    if conflict e then _ ← dropping e; try_ (method run_id) (fun e => _ ← dropping e; lift (Raise e))
    else lift (Raise e)).

(** [record_checkpoint] *)
Definition cancellation_requested (events : list HarnessEvent) : bool :=
  existsb (fun e => String.eqb (ev_event_type e) "cancellation_requested") events.
Definition last_permit (events : list HarnessEvent) : result (option CheckpointPermit) :=
  match last (List.filter is_checkpoint_event events) with
  | Some e => Some <$> checkpoint_permit (k_loads K) (k_dumps K) (k_json_digest K) (k_read_permit K) e
  | None => Ok None
  end.
Definition within_budget (m : result payload) : result bool :=
  match m with Ok _ => Ok true | Raise e => if budget_error e then Ok false else Raise e end.
Definition record_checkpoint_once (raw : NodeCheckpoint) (run_id : string) : Kio CheckpointPermit :=
  '(events, plan, view) ← load_run run_id;
  _ ← lift (check (bool_decide (v_run_state view = Some R_RUNNING)) (HarnessDependencyError "checkpoints require a running Harness run"));
  c ← lift (except_as (validate_checkpoint (k_tool_price K) raw) (HarnessDependencyError "execution checkpoint is invalid"));
  _ ← lift (check (String.eqb (ck_workflow_id c) (pl_run_id plan) && String.eqb (ck_trace_id c) (pl_trace_id plan))
              (HarnessDependencyError "execution checkpoint identity is invalid"));
  committed ← lift (checkpoints_of events plan);
  permit ← lift (last_permit events);
  _ ← lift (check (match permit with Some p => bool_decide (pm_decision p = CD_continue) | None => true end)
              (HarnessDependencyError "terminal checkpoint permit forbids further execution"));
  _ ← lift (check (ck_ordinal c =? Z.of_nat (length committed) + 1) (HarnessDependencyError "execution checkpoint ordinal is invalid"));
  _ ← lift (validate_checkpoint_sequence (committed ++ [c]) plan);
  _ ← lift (check (match last committed with
                   | Some before => let attempts := wu_attempts (ck_usage before) in
                                    attempts_eqb (take (length attempts) (wu_attempts (ck_usage c))) attempts
                   | None => true end) (HarnessDependencyError "execution checkpoint usage is not append-only"));
  _ ← ensure_runtime_dependencies plan;
  reading ← call (en_ledger_clock E);
  budget ← on_ledger (pl_run_id plan) (WorkflowBudget.snapshot reading);
  fits ← lift (within_budget (budget_payload_v2 K events plan budget (ck_usage c) (committed ++ [c])));
  let '(verdict, why) :=
    if cancellation_requested events then (CD_stop, "cooperative_cancellation")
    else if (fits : bool) then (CD_continue, "checkpoint_authorized") else (CD_degrade, "budget_exhausted") in
  permit ← lift (validate_permit
    {| pm_workflow_id := ck_workflow_id c; pm_trace_id := ck_trace_id c; pm_checkpoint_ordinal := ck_ordinal c;
       pm_checkpoint_digest := canonical_digest (k_json_digest K) (k_checkpoint_json K) c; pm_decision := verdict; pm_reason_code := why |});
  let permit_value := k_permit_json K permit in
  let checkpoint_value := k_checkpoint_json K c in
  _ ← append_observation plan view CHECKPOINT_EVENT
    [("checkpoint_json", JStr (k_dumps K checkpoint_value)); ("checkpoint_digest", JStr (k_json_digest K checkpoint_value));
     ("permit_json", JStr (k_dumps K permit_value)); ("permit_digest", JStr (k_json_digest K permit_value))];
  mret permit.
Definition record_checkpoint (raw : NodeCheckpoint) : string -> Kio CheckpointPermit := serialized (record_checkpoint_once raw).
Definition checkpoint_history (run_id : string) : Kio (list NodeCheckpoint) :=
  run_id ← lift (strict_run_id run_id);
  '(events, plan, _) ← load_run run_id;
  lift (checkpoints_of events plan).
Definition coordinator_task_inventory (run_id : string) : Kio (list string) :=
  checkpoints ← checkpoint_history run_id;
  lift (latest_inventory checkpoints).

(** [advance]'s keyword arguments. *)
Record AdvanceArguments := {
  aa_candidate : CandidateArgument; aa_workflow_usage : option WorkflowUsage; aa_observed_execution : bool;
  aa_prompt_release_digest : option string; aa_accepted_result_digest : option string; aa_expected_state_revision : option Z }.
(** The digest of an observed execution, which may not change during it. *)
Definition observed_digest (given current : option string) (observed : bool) (invalid unobserved changed : exn) : result (option string) :=
  match given with
  | None => Ok None
  | Some raw =>
      digest ← except_as (Digest raw) invalid;
      _ ← check observed unobserved;
      _ ← check (match current with Some c => String.eqb c digest | None => true end) changed;
      Ok (Some digest)
  end.
(** Completing the authority a previous call committed. *)
Definition complete_pending (plan : HarnessPlan) (view : HarnessSessionView) (authority : TransitionAuthorityRecord) (target : RunState)
    (p : payload) : Kio HarnessDecision :=
  _ ← ensure_runtime_dependencies plan;
  snapshot ← issued_snapshot plan view;
  handle ← call (en_resume E plan view snapshot);
  '(post, t, synchronized) ← commit_run_transition plan view target (ta_reason_code authority) (Some handle) p;
  no_trade ← lift (strict_payload_bool p "no_trade");
  lift (decision plan post (ta_reason_code authority) (Some t) (Some no_trade) None synchronized).
(** Answering a candidate the stream has decided already. *)
Definition replay_candidate (plan : HarnessPlan) (view : HarnessSessionView) (t : HarnessTransition) (p : payload) : Kio HarnessDecision :=
  _ ← ensure_runtime_dependencies plan;
  snapshot ← issued_snapshot plan view;
  _ ← call (en_resume E plan view snapshot);
  no_trade ← lift (strict_payload_bool p "no_trade");
  lift (decision plan view (tr_reason_code t) (Some t) (Some no_trade) None true).
Definition advance_fields (p : payload) (prompt accepted candidate : option string) (no_trade : bool) : payload :=
  let p := match prompt with Some d => put p "prompt_release_digest" (JStr d) | None => p end in
  let p := match accepted with Some d => put p "accepted_result_digest" (JStr d) | None => p end in
  let p := put p "no_trade" (JBool no_trade) in
  match candidate with Some d => put p "candidate_digest" (JStr d) | None => p end.
(** A new decision: resume, decide, commit. *)
Definition decide_and_commit (args : AdvanceArguments) (events : list HarnessEvent) (plan : HarnessPlan) (view : HarnessSessionView)
    (candidate : AdvanceCandidate) (candidate_digest : option string) : Kio HarnessDecision :=
  _ ← ensure_runtime_dependencies plan;
  snapshot ← issued_snapshot plan view;
  handle ← call (en_resume E plan view snapshot);
  prompt ← lift (observed_digest (aa_prompt_release_digest args) (v_prompt_release_digest view) (aa_observed_execution args)
                   (InvalidHarnessInputError "observed prompt release digest is invalid")
                   (InvalidHarnessInputError "prompt release digest requires observed execution")
                   (HarnessDependencyError "observed prompt release digest changed during execution"));
  accepted ← lift (observed_digest (aa_accepted_result_digest args) (v_accepted_result_digest view) (aa_observed_execution args)
                     (InvalidHarnessInputError "accepted workflow result digest is invalid")
                     (InvalidHarnessInputError "accepted result digest requires observed execution")
                     (HarnessDependencyError "accepted workflow result digest changed during execution"));
  '(target, reason, no_trade, p) ←
    policy_decision events plan view candidate (aa_workflow_usage args) (aa_observed_execution args);
  '(post, t, synchronized) ← commit_run_transition plan view target reason (Some handle)
                               (advance_fields p prompt accepted candidate_digest no_trade);
  lift (decision plan post reason (Some t) (Some no_trade) None synchronized).
Definition answer (args : AdvanceArguments) (events : list HarnessEvent) (plan : HarnessPlan) (view : HarnessSessionView)
    (parsed : AdvanceCandidate) (candidate_digest : option string) : Kio HarnessDecision :=
  found ← match candidate_digest with
          | Some d => lift (committed_candidate events d)
          | None => mret None
          end;
  match found with
  | Some (t, p) => replay_candidate plan view t p
  | None =>
      if in_states (v_run_state view) RUN_TERMINAL_STATES
      then lift (decision plan view "terminal_state" None (Some (bool_decide (v_run_state view = Some R_DEGRADED))) None true)
      else if bool_decide (v_run_state view = Some R_WAITING_RECONCILIATION)
      then lift (decision plan view "reconciliation_required" None None (Some true) true)
      else decide_and_commit args events plan view parsed candidate_digest
  end.
Definition advance_once (args : AdvanceArguments) (run_id : string) : Kio HarnessDecision :=
  '(events, plan, view) ← load_run run_id;
  pending ← lift (pending_authority events view);
  match pending with
  | Some (authority, target, p) => complete_pending plan view authority target p
  | None =>
      _ ← lift (check (match aa_expected_state_revision args with Some n => 0 <=? n | None => true end)
                  (InvalidHarnessInputError "expected revision must be a nonnegative integer"));
      if match aa_expected_state_revision args with Some n => negb (n =? v_state_revision view) | None => false end
      then lift (decision plan view "stale_revision" None None None false)
      else match candidate_of (aa_candidate args) with
      | (None, _) =>
          rejected ← append_observation plan view "candidate_rejected" [("policy", JStr "strict_candidate_schema")];
          lift (decision plan rejected "candidate_rejected" None None None false)
      | (Some parsed, candidate_digest) => answer args events plan view parsed candidate_digest
      end
  end.
Definition advance (args : AdvanceArguments) : string -> Kio HarnessDecision := serialized (advance_once args).

(** [cancel] *)
Definition cancel_backend (plan : HarnessPlan) : Kio unit :=
  _ ← call (en_cancel E (pl_run_id plan));
  modify (fun s => with_cancelled s ({[pl_run_id plan]} ∪ kn_backend_cancelled s)).
Definition finish_cancelled (plan : HarnessPlan) (recorded : HarnessSessionView) : Kio HarnessDecision :=
  done_ ← read (fun s => bool_decide (pl_run_id plan ∈ kn_backend_cancelled s));
  if (done_ : bool) then lift (decision plan recorded "cancellation_completed" None None None true)
  else
    _ ← ensure_runtime_dependencies plan;
    snapshot ← issued_snapshot plan recorded;
    resumed ← try_ (_ ← call (en_resume E plan recorded snapshot); mret true)
                (fun e => if backend_error e then mret false else lift (Raise e));
    if (resumed : bool) then _ ← cancel_backend plan; lift (decision plan recorded "cancellation_completed" None None None true)
    else lift (decision plan recorded "cancellation_completed" None None None false).
Definition commit_cancellation (plan : HarnessPlan) (recorded : HarnessSessionView) : Kio HarnessDecision :=
  _ ← ensure_runtime_dependencies plan;
  snapshot ← issued_snapshot plan recorded;
  handle ← call (en_resume E plan recorded snapshot);
  '(post, t, synchronized) ← commit_run_transition plan recorded R_CANCELLED "cancellation_completed" (Some handle)
                               [("policy", JStr "task4_cancellation"); ("no_trade", JBool false)];
  _ ← when_ synchronized (cancel_backend plan);
  lift (decision plan post "cancellation_completed" (Some t) None None synchronized).
Definition cancel_once (reason : string) (run_id : string) : Kio HarnessDecision :=
  _ ← lift (check (truthy reason && String.eqb reason (strip reason) && (Z.of_nat (String.length reason) <=? 256))
              (InvalidHarnessInputError "cancellation reason must be canonical text"));
  '(events, plan, view) ← load_run run_id;
  let intents := List.filter (fun e => String.eqb (ev_event_type e) "cancellation_requested") events in
  _ ← lift (raise_when (1 <? Z.of_nat (length intents)) (HarnessDependencyError "run has duplicate cancellation intents"));
  recorded ← match intents with
             | [] => append_observation plan view "cancellation_requested" [("reason_code", JStr reason); ("policy", JStr "task4_cancellation")]
             | _ => mret view
             end;
  if bool_decide (v_run_state recorded = Some R_WAITING_RECONCILIATION) || v_external_side_effect_unknown recorded
  then lift (decision plan recorded "cancellation_waits_for_reconciliation" None None (Some true) false)
  else if bool_decide (v_run_state recorded = Some R_CANCELLED) then finish_cancelled plan recorded
  else if in_states (v_run_state recorded) RUN_TERMINAL_STATES
  then lift (decision plan recorded "cancellation_intent_recorded" None None None false)
  else commit_cancellation plan recorded.
Definition cancel (reason : string) : string -> Kio HarnessDecision := serialized (cancel_once reason).
End HarnessKernel.
