(* ===== verification/ExecutionBackend.v ===== *)
(** * The execution backend: market_agent/workflow_execution_backend.py

    [LangGraphExecutionBackend] keeps a disposable projection of the committed runs: per
    run a handle, the plan, the folded view, its signed snapshot and the idempotency keys
    it projected; besides them the cancelled runs and the registration tokens.  A method
    takes the lock, releases it to verify what it was given, and takes it again to install
    the result, so the two halves are operations of their own, and the theorems hold for
    every interleaving of them.  The RSA verifier is modelled up to sha256 and the signed
    bytes; the backend's theorems hold for any verifier.  LangGraph's [invoke] is a
    parameter. *)
From Stdlib Require Import Zpow_facts QArith.
From S2P Require Import LoopGuard.
From S2P Require Import Prelude PyStrings PyDict PyRegex PyTime PyJson PyModel HarnessContracts HarnessStateMachine HarnessSession.
From S2P Require Import HarnessBudget HarnessKernel.
Local Open Scope string_scope.
Local Open Scope list_scope.
Local Open Scope Z_scope.

(** ** Equality of contracts *)
#[export] Instance Q_eq_dec : EqDecision Q.
Proof. solve_decision. Defined.
#[export] Instance StageSpec_eq_dec : EqDecision StageSpec.
Proof. solve_decision. Defined.
#[export] Instance WorkerSpec_eq_dec : EqDecision WorkerSpec.
Proof. solve_decision. Defined.
#[export] Instance ProgressTargetSet_eq_dec : EqDecision ProgressTargetSet.
Proof. solve_decision. Defined.
#[export] Instance WorkItemSpec_eq_dec : EqDecision WorkItemSpec.
Proof. solve_decision. Defined.
#[export] Instance RiskClass_eq_dec : EqDecision RiskClass.
Proof. solve_decision. Defined.
#[export] Instance HarnessPlan_eq_dec : EqDecision HarnessPlan.
Proof. solve_decision. Defined.
#[export] Instance CommittedTransitionReceipt_eq_dec : EqDecision CommittedTransitionReceipt.
Proof. solve_decision. Defined.
#[export] Instance RegistrationPreparation_eq_dec : EqDecision RegistrationPreparation.
Proof. solve_decision. Defined.
#[export] Instance ExecutionHandle_eq_dec : EqDecision ExecutionHandle.
Proof. solve_decision. Defined.

(** ** Errors *)
Definition InvalidExecutionInputError (msg : string) : exn := Exn "InvalidExecutionInputError" msg.
Definition ExecutionIdentityError (msg : string) : exn := Exn "ExecutionIdentityError" msg.
Definition ExecutionPlanMismatchError (msg : string) : exn := Exn "ExecutionPlanMismatchError" msg.
Definition ExecutionHandleMismatchError (msg : string) : exn := Exn "ExecutionHandleMismatchError" msg.
Definition UncommittedTransitionError (msg : string) : exn := Exn "UncommittedTransitionError" msg.
Definition UnverifiedExecutionReceiptError (msg : string) : exn := Exn "UnverifiedExecutionReceiptError" msg.
Definition InvalidCommittedTransitionError (msg : string) : exn := Exn "InvalidCommittedTransitionError" msg.
Definition StaleExecutionSnapshotError (msg : string) : exn := Exn "StaleExecutionSnapshotError" msg.
Definition RegistrationPreparationError (msg : string) : exn := Exn "RegistrationPreparationError" msg.
Definition RegistrationTokenMismatchError (msg : string) : exn := Exn "RegistrationTokenMismatchError" msg.
Definition RegistrationTokenConsumedError (msg : string) : exn := Exn "RegistrationTokenConsumedError" msg.
Definition StaleExecutionTransitionError (msg : string) : exn := Exn "StaleExecutionTransitionError" msg.
Definition DuplicateExecutionTransitionError (msg : string) : exn := Exn "DuplicateExecutionTransitionError" msg.
Definition CancelledExecutionError (msg : string) : exn := Exn "CancelledExecutionError" msg.
Definition ExecutionProjectionError (msg : string) : exn := Exn "ExecutionProjectionError" msg.

(** ** The pinned keys and the signature *)
Definition _TRUST_VERSION : string := "harness-execution-trust-v1".
Definition _EXPECTED_TRUST_CONFIG_DIGEST : string := "b2c85efa22de500b345d39fe9b7452395b8f3a54e4972d2bbf3ebabcd0312103".
Definition PINNED_MODULUS : Z :=
  0x92dda69113b634737c9d3ae71ad0a972dbb77cfcfdb5f7fff20084ed1790f3104f497fe93e648644c6060e932172c2250072d68b988fbd5f21073da3db470cb11c016e1248d2694933622fe45edd17e7bade074c38dfc6c7702cd1cb18aeeb968f37d31c24f5b5b2da3de7b0700bed5e22f39e853c8499e76b6c0577b4c59f7b78ba0f8b91a1abb3d7c140cf388eb32e329124fba941e16ccaaa0f536bf7b81d1a1fb4744b249fda51afea54223b1175b36295ad9829f125cd174a9dfaaded2b3bbda116621db228c318a032f571110771c0267ea1f1d643b29df636a6ad100a5fd4f935379c64036744689d6eb89caa7f460aed2e195f9c5584ffd63ca4e015.
Definition PinnedKeys : Type := list (string * (Z * Z)).
Definition _PINNED_PUBLIC_KEYS : PinnedKeys := [("host-rsa-2026-01", (PINNED_MODULUS, 65537))].
Definition bit_length (n : Z) : Z := if n <=? 0 then 0 else Z.log2 n + 1.
(** [[a-z][a-z0-9]*(?:-[a-z0-9]+)*] *)
Definition _CANONICAL_KEY_ID : regex :=
  let body := Chr (fun c => is_lower c || is_digit c) in
  Seq (Chr is_lower) (Seq (Star body) (Star (Seq (lit "-") (plus_re body)))).
Definition check_pinned_key (entry : string * (Z * Z)) : result unit :=
  let '(key_id, (modulus, exponent)) := entry in
  _ ← check ((Z.of_nat (String.length key_id) <=? 64) && fullmatch _CANONICAL_KEY_ID key_id)
        (InvalidExecutionInputError "pinned execution key ID is noncanonical");
  _ ← raise_when ((modulus <=? 0) || (modulus mod 2 =? 0) || negb (bit_length modulus =? 2048))
        (InvalidExecutionInputError "pinned RSA modulus must be an odd positive 2048-bit integer");
  check ((exponent =? 65537) && (1 <? exponent) && (exponent <? modulus)) (InvalidExecutionInputError "pinned RSA exponent must be 65537").
(** [_validated_pinned_public_keys] *)
Definition validated_pinned_public_keys (keys : PinnedKeys) : result PinnedKeys :=
  _ ← raise_when (bool_decide (keys = [])) (InvalidExecutionInputError "pinned execution keys cannot be empty");
  _ ← each check_pinned_key keys;
  _ ← check (bool_decide (NoDup keys.*1)) (InvalidExecutionInputError "pinned execution key IDs must be unique");
  Ok keys.

(** What the host signs. *)
Inductive Authority := SnapshotAuthority (s : CommittedExecutionSnapshot) | ReceiptAuthority (r : CommittedTransitionReceipt).
Definition authority_key (a : Authority) : string :=
  match a with SnapshotAuthority s => cs_trust_key_id s | ReceiptAuthority r => cr_trust_key_id r end.
Definition authority_signature (a : Authority) : string :=
  match a with SnapshotAuthority s => cs_signature s | ReceiptAuthority r => cr_signature r end.
(** [int(text, 16)] of lower-case hexadecimal digits. *)
Definition hex_digit_value (c : ascii) : Z :=
  let n := Z.of_N (code c) in if n <=? 57 then n - 48 else n - 87.
Definition hex_value (s : string) : Z := foldl (fun acc c => acc * 16 + hex_digit_value c) 0 (list_ascii_of_string s).
(** [n.to_bytes(size, "big")] *)
Fixpoint to_bytes_little (size : nat) (n : Z) : list Z :=
  match size with O => [] | S size => n mod 256 :: to_bytes_little size (n / 256) end.
Definition to_bytes (size : nat) (n : Z) : list Z := reverse (to_bytes_little size n).
Definition _SHA256_DIGEST_INFO_PREFIX : list Z :=
  [0x30; 0x31; 0x30; 0x0d; 0x06; 0x09; 0x60; 0x86; 0x48; 0x01; 0x65; 0x03; 0x04; 0x02; 0x01; 0x05; 0x00; 0x04; 0x20].
(** The padded block a signature must open to. *)
Definition padded (size : nat) (digest : list Z) : list Z :=
  let digest_info := _SHA256_DIGEST_INFO_PREFIX ++ digest in
  [0; 1] ++ replicate (size - length digest_info - 3) 255 ++ [0] ++ digest_info.
Section Verifier.
Context (sha256 : string -> list Z) (signing_bytes : Authority -> string).
(** [ExecutionReceiptVerifier.verify] *)
Definition verify (keys : PinnedKeys) (a : Authority) : bool :=
  match dict_get keys (authority_key a) with
  | None => false
  | Some (modulus, exponent) =>
      let size := (bit_length modulus + 7) / 8 in
      if negb (exponent =? 65537) || negb (Z.of_nat (String.length (authority_signature a)) =? size * 2) then false
      else
        let signature := hex_value (authority_signature a) in
        if modulus <=? signature then false
        else bool_decide (to_bytes (Z.to_nat size) (Zpow_mod signature exponent modulus) = padded (Z.to_nat size) (sha256 (signing_bytes a)))
  end.
End Verifier.

(** A signature binds one digest: what verifies under a key with the same signature has
    the same sha256. *)
Lemma padded_inj size d d' : length d = length d' -> padded size d = padded size d' -> d = d'.
Proof.
  unfold padded. rewrite !length_app. intros -> H. apply app_inv_head in H. apply app_inv_head in H.
  apply app_inv_head in H. by apply app_inv_head in H.
Qed.
Lemma verify_opens sha256 signing_bytes keys a :
  verify sha256 signing_bytes keys a = true ->
  exists modulus size, dict_get keys (authority_key a) = Some (modulus, 65537) /\ size = Z.to_nat ((bit_length modulus + 7) / 8) /\
    to_bytes size (Zpow_mod (hex_value (authority_signature a)) 65537 modulus) = padded size (sha256 (signing_bytes a)).
Proof.
  unfold verify. destruct (dict_get keys _) as [[n e]|]; [|done]. destruct (_ || _) eqn:E; [done|]. destruct (n <=? _); [done|].
  to_prop. subst e. intros H%bool_decide_eq_true. eauto.
Qed.
Theorem a_signature_binds_one_digest sha256 signing_bytes keys (a a' : Authority) :
  (forall bytes, length (sha256 bytes) = 32%nat) ->
  verify sha256 signing_bytes keys a = true -> verify sha256 signing_bytes keys a' = true ->
  authority_key a' = authority_key a -> authority_signature a' = authority_signature a ->
  sha256 (signing_bytes a') = sha256 (signing_bytes a).
Proof.
  intros Hlen (n & size & Hk & Hs & Hp)%verify_opens (n' & size' & Hk' & Hs' & Hp')%verify_opens Hkey Hsig.
  rewrite Hkey, Hk in Hk'. injection Hk' as <-. rewrite Hsig, Hs', <- Hs, Hp in Hp'. symmetry. apply (padded_inj size); [|done]. by rewrite !Hlen.
Qed.
Example pinned_keys_are_valid : validated_pinned_public_keys _PINNED_PUBLIC_KEYS = Ok _PINNED_PUBLIC_KEYS.
Proof. vm_compute. reflexivity. Qed.

(** ** The backend's state *)
Record PendingRegistration := {
  pd_token : RegistrationPreparation; pd_plan : HarnessPlan; pd_view : HarnessSessionView; pd_issuer : IssuerTrustDescriptor }.
#[export] Instance PendingRegistration_eq_dec : EqDecision PendingRegistration.
Proof. solve_decision. Defined.
Record Backend := {
  bk_handles : gmap string ExecutionHandle; bk_plans : gmap string HarnessPlan; bk_views : gmap string HarnessSessionView;
  bk_snapshots : gmap string CommittedExecutionSnapshot; bk_applied : gmap string (gset string); bk_cancelled : gset string;
  bk_pending : gmap string PendingRegistration; bk_consumed : gmap string (RegistrationPreparation * string) }.
Definition new_backend : Backend :=
  {| bk_handles := ∅; bk_plans := ∅; bk_views := ∅; bk_snapshots := ∅; bk_applied := ∅; bk_cancelled := ∅; bk_pending := ∅; bk_consumed := ∅ |}.
(** [LangGraphExecutionBackend.__init__]; the digest of a configuration is a parameter. *)
Definition make_backend (trust_config_digest : PinnedKeys -> string) : result Backend :=
  keys ← validated_pinned_public_keys _PINNED_PUBLIC_KEYS;
  _ ← check (String.eqb (trust_config_digest keys) _EXPECTED_TRUST_CONFIG_DIGEST) (InvalidExecutionInputError "pinned execution trust config mismatch");
  Ok new_backend.
(** The writes of a method. *)
Definition with_handle (run : string) (h : ExecutionHandle) (b : Backend) : Backend :=
  {| bk_handles := <[run := h]> (bk_handles b); bk_plans := bk_plans b; bk_views := bk_views b; bk_snapshots := bk_snapshots b;
     bk_applied := bk_applied b; bk_cancelled := bk_cancelled b; bk_pending := bk_pending b; bk_consumed := bk_consumed b |}.
Definition with_plan (run : string) (p : HarnessPlan) (b : Backend) : Backend :=
  {| bk_handles := bk_handles b; bk_plans := <[run := p]> (bk_plans b); bk_views := bk_views b; bk_snapshots := bk_snapshots b;
     bk_applied := bk_applied b; bk_cancelled := bk_cancelled b; bk_pending := bk_pending b; bk_consumed := bk_consumed b |}.
Definition with_authority (run : string) (v : HarnessSessionView) (s : CommittedExecutionSnapshot) (b : Backend) : Backend :=
  {| bk_handles := bk_handles b; bk_plans := bk_plans b; bk_views := <[run := v]> (bk_views b); bk_snapshots := <[run := s]> (bk_snapshots b);
     bk_applied := bk_applied b; bk_cancelled := bk_cancelled b; bk_pending := bk_pending b; bk_consumed := bk_consumed b |}.
Definition with_applied (run : string) (keys : gset string) (b : Backend) : Backend :=
  {| bk_handles := bk_handles b; bk_plans := bk_plans b; bk_views := bk_views b; bk_snapshots := bk_snapshots b;
     bk_applied := <[run := keys]> (bk_applied b); bk_cancelled := bk_cancelled b; bk_pending := bk_pending b; bk_consumed := bk_consumed b |}.
Definition add_cancelled (run : string) (b : Backend) : Backend :=
  {| bk_handles := bk_handles b; bk_plans := bk_plans b; bk_views := bk_views b; bk_snapshots := bk_snapshots b;
     bk_applied := bk_applied b; bk_cancelled := {[run]} ∪ bk_cancelled b; bk_pending := bk_pending b; bk_consumed := bk_consumed b |}.
Definition add_pending (id : string) (p : PendingRegistration) (b : Backend) : Backend :=
  {| bk_handles := bk_handles b; bk_plans := bk_plans b; bk_views := bk_views b; bk_snapshots := bk_snapshots b;
     bk_applied := bk_applied b; bk_cancelled := bk_cancelled b; bk_pending := <[id := p]> (bk_pending b); bk_consumed := bk_consumed b |}.
Definition consume (id : string) (token : RegistrationPreparation) (outcome : string) (b : Backend) : Backend :=
  {| bk_handles := bk_handles b; bk_plans := bk_plans b; bk_views := bk_views b; bk_snapshots := bk_snapshots b;
     bk_applied := bk_applied b; bk_cancelled := bk_cancelled b; bk_pending := delete id (bk_pending b);
     bk_consumed := <[id := (token, outcome)]> (bk_consumed b) |}.
Definition keys_of (v : HarnessSessionView) : gset string := list_to_set (v_applied_idempotency_keys v).
(** The five writes of a registration. *)
Definition install (run : string) (h : ExecutionHandle) (p : HarnessPlan) (v : HarnessSessionView) (s : CommittedExecutionSnapshot) (b : Backend) : Backend :=
  with_applied run (keys_of v) (with_authority run v s (with_plan run p (with_handle run h b))).

(** ** Fresh contracts *)
(** [_fresh_contract]: the value validates, to itself. *)
Definition fresh {A} `{EqDecision A} (validate : cleaner A) (e : exn) : cleaner A := fun x =>
  match validate x with
  | Ok y => if bool_decide (y = x) then Ok x else Raise e
  | Raise _ => Raise e
  end.
Definition validate_handle_contract : cleaner ExecutionHandle := fun h =>
  run ← ShortText (eh_run_id h); trace ← ShortText (eh_trace_id h); plan ← ShortText (eh_plan_id h);
  revision ← NonNegativeInt (eh_plan_revision h); state ← NonNegativeInt (eh_state_revision h); routed ← optional ShortText (eh_routed_state h);
  Ok {| eh_run_id := run; eh_trace_id := trace; eh_plan_id := plan; eh_plan_revision := revision; eh_state_revision := state;
        eh_routed_state := routed; eh_cancelled := eh_cancelled h |}.
Definition fresh_plan := fresh validate_plan (InvalidExecutionInputError "execution plan must be an exact valid HarnessPlan").
Definition fresh_view := fresh validate_view (InvalidExecutionInputError "execution view must be an exact valid folded HarnessSessionView").
Definition fresh_handle := fresh validate_handle_contract (ExecutionHandleMismatchError "execution handle is stale, forged, or invalid").
Definition fresh_transition := fresh validate_transition (UncommittedTransitionError "transition must be an exact valid HarnessTransition").
Definition fresh_snapshot := fresh validate_execution_snapshot (UnverifiedExecutionReceiptError "execution requires an exact committed snapshot").
Definition fresh_receipt := fresh validate_transition_receipt (UnverifiedExecutionReceiptError "transition requires an exact committed receipt").
Definition fresh_descriptor := fresh validate_descriptor (RegistrationPreparationError "issuer trust descriptor must be exact and valid").
Definition fresh_token := fresh validate_preparation (RegistrationTokenMismatchError "registration token must be exact and valid").

Section ExecutionBackend.
Context (plan_digest : HarnessPlan -> string) (view_digest : HarnessSessionView -> string) (transition_digest : HarnessTransition -> string)
        (verifies : Authority -> bool) (invoke : string -> result (option string)).
Abbreviation Bio := (io Backend).

(** [_validate_plan_view] *)
Definition validate_plan_view (plan : HarnessPlan) (view : HarnessSessionView) : result (HarnessPlan * HarnessSessionView) :=
  plan ← fresh_plan plan;
  view ← fresh_view view;
  _ ← check (is_Some_b (v_run_id view) && is_Some_b (v_trace_id view)) (ExecutionIdentityError "folded run and trace identity is required");
  _ ← check (bool_decide (Some (pl_run_id plan) = v_run_id view) && bool_decide (Some (pl_trace_id plan) = v_trace_id view))
        (ExecutionIdentityError "plan identity does not match folded view");
  _ ← check (pl_revision plan =? v_plan_revision view) (ExecutionPlanMismatchError "plan revision does not match folded view");
  _ ← check (is_Some_b (v_last_event_hash view)) (UnverifiedExecutionReceiptError "folded view has no committed event head");
  Ok (plan, view).
(** [_handle_from_view] *)
Definition handle_from_view (plan : HarnessPlan) (view : HarnessSessionView) : ExecutionHandle :=
  {| eh_run_id := pl_run_id plan; eh_trace_id := pl_trace_id plan; eh_plan_id := pl_plan_id plan; eh_plan_revision := pl_revision plan;
     eh_state_revision := v_state_revision view; eh_routed_state := run_state_value <$> v_run_state view; eh_cancelled := false |}.
(** A view but for the fields an authority event extends. *)
Definition forget_authority (v : HarnessSessionView) : HarnessSessionView :=
  set_evidence (set_cursor v 0 (v_run_id v) (v_trace_id v) None) [] [] [].
Definition extends_list {A} `{EqDecision A} (previous extended : list A) : bool := bool_decide (take (length previous) extended = previous).
Definition longer {A} (previous extended : list A) : bool := (length previous <? length extended)%nat.
(** [_is_same_revision_authority_extension] *)
Definition is_same_revision_authority_extension (current incoming : HarnessSessionView) : bool :=
  if negb (v_state_revision incoming =? v_state_revision current) || (v_sequence incoming <=? v_sequence current) ||
     bool_decide (v_last_event_hash incoming = v_last_event_hash current) then false
  else if negb (bool_decide (forget_authority current = forget_authority incoming)) then false
  else extends_list (v_transition_authorities current) (v_transition_authorities incoming) &&
       extends_list (v_attempt_work_item_owners current) (v_attempt_work_item_owners incoming) &&
       extends_list (v_reconciliation_resolutions current) (v_reconciliation_resolutions incoming) &&
       (longer (v_transition_authorities current) (v_transition_authorities incoming) ||
        longer (v_attempt_work_item_owners current) (v_attempt_work_item_owners incoming) ||
        longer (v_reconciliation_resolutions current) (v_reconciliation_resolutions incoming)).
(** [_verify_authority] *)
Definition verify_authority (a : Authority) : result unit :=
  let stale := UnverifiedExecutionReceiptError "commit authority contract is invalid" in
  _ ← match a with
      | SnapshotAuthority s => _ ← fresh validate_execution_snapshot stale s; Ok tt
      | ReceiptAuthority r => _ ← fresh validate_transition_receipt stale r; Ok tt
      end;
  check (verifies a) (UnverifiedExecutionReceiptError "commit authority was not verified").
(** [verify_committed_execution_snapshot] and [verify_committed_transition_receipt]: the
    stateless checks, which answer [False] for whatever they can not read. *)
Definition verify_committed_execution_snapshot (s : CommittedExecutionSnapshot) : bool :=
  match fresh_snapshot s with Ok s => verifies (SnapshotAuthority s) | Raise _ => false end.
Definition verify_committed_transition_receipt (r : CommittedTransitionReceipt) : bool :=
  match fresh_receipt r with
  | Ok r => verifies (ReceiptAuthority r) && verifies (SnapshotAuthority (cr_pre r)) && verifies (SnapshotAuthority (cr_post r))
  | Raise _ => false
  end.
(** [_validated_snapshot] *)
Definition snapshot_matches (plan : HarnessPlan) (view : HarnessSessionView) (s : CommittedExecutionSnapshot) : bool :=
  String.eqb (cs_run_id s) (pl_run_id plan) && String.eqb (cs_trace_id s) (pl_trace_id plan) && String.eqb (cs_plan_id s) (pl_plan_id plan) &&
  (cs_plan_revision s =? pl_revision plan) && String.eqb (cs_plan_digest s) (plan_digest plan) && (cs_sequence s =? v_sequence view) &&
  (cs_state_revision s =? v_state_revision view) && String.eqb (cs_view_digest s) (view_digest view) &&
  bool_decide (Some (cs_event_head_hash s) = v_last_event_hash view) && bool_decide (cs_folded_view s = Some view).
Definition validated_snapshot (plan : HarnessPlan) (view : HarnessSessionView) (s : CommittedExecutionSnapshot)
    : result (HarnessPlan * HarnessSessionView * CommittedExecutionSnapshot) :=
  '(plan, view) ← validate_plan_view plan view;
  s ← fresh_snapshot s;
  _ ← check (snapshot_matches plan view s) (UnverifiedExecutionReceiptError "snapshot does not bind the plan and folded view");
  _ ← verify_authority (SnapshotAuthority s);
  Ok (plan, view, s).

(** ** Registration *)
Definition is_cancelled (run : string) (b : Backend) : bool := bool_decide (run ∈ bk_cancelled b).
Definition is_registered (run : string) (b : Backend) : bool := is_Some_b (bk_handles b !! run).
Definition is_pending (run : string) (b : Backend) : bool :=
  existsb (fun kp => String.eqb (rp_run_id (pd_token kp.2)) run) (map_to_list (bk_pending b)).
Definition pinned_issuer (d : IssuerTrustDescriptor) : bool :=
  String.eqb (td_trust_version d) _TRUST_VERSION && String.eqb (td_trust_config_digest d) _EXPECTED_TRUST_CONFIG_DIGEST &&
  bool_decide (td_key_id d ∈ _PINNED_PUBLIC_KEYS.*1).
(** [prepare_registration]; [token_id] is what [secrets.token_hex(32)] returned. *)
Definition prepare_registration (plan : HarnessPlan) (provisional : HarnessSessionView) (descriptor : IssuerTrustDescriptor)
    (token_id : string) : Bio RegistrationPreparation :=
  plan ← lift (fresh_plan plan);
  view ← lift (fresh_view provisional);
  issuer ← lift (fresh_descriptor descriptor);
  expected ← lift (provisional_view plan);
  _ ← lift (check (bool_decide (view = expected))
              (RegistrationPreparationError "registration preparation requires an exact pre-event folded view"));
  _ ← lift (check (pinned_issuer issuer) (RegistrationPreparationError "issuer descriptor is incompatible with pinned execution trust"));
  preparation ← lift (validate_preparation
    {| rp_token_id := token_id; rp_run_id := pl_run_id plan; rp_trace_id := pl_trace_id plan; rp_plan_id := pl_plan_id plan;
       rp_plan_digest := plan_digest plan; rp_plan_revision := pl_revision plan; rp_provisional_view_digest := view_digest view;
       rp_provisional_sequence := v_sequence view; rp_provisional_state_revision := v_state_revision view; rp_issuer := issuer |});
  b ← read id;
  _ ← lift (raise_when (is_cancelled (pl_run_id plan) b) (CancelledExecutionError "cancelled execution cannot prepare registration"));
  _ ← lift (raise_when (is_registered (pl_run_id plan) b || is_pending (pl_run_id plan) b)
              (RegistrationPreparationError "run already has an execution or pending registration"));
  _ ← modify (add_pending (rp_token_id preparation) {| pd_token := preparation; pd_plan := plan; pd_view := view; pd_issuer := issuer |});
  mret preparation.
(** The first locked half of [commit_registration]. *)
Definition commit_begin (token : RegistrationPreparation) (snapshot : CommittedExecutionSnapshot) : Bio PendingRegistration :=
  token ← lift (fresh_token token);
  _ ← lift (fresh_snapshot snapshot);
  b ← read id;
  match bk_pending b !! rp_token_id token with
  | None =>
      lift (Raise (if bool_decide (fst <$> bk_consumed b !! rp_token_id token = Some token)
                   then RegistrationTokenConsumedError "registration token was already consumed"
                   else RegistrationTokenMismatchError "registration token is not active in this backend"))
  | Some pending =>
      _ ← lift (check (bool_decide (pd_token pending = token))
                  (RegistrationTokenMismatchError "registration token binding does not match active preparation"));
      _ ← lift (raise_when (is_cancelled (rp_run_id token) b) (CancelledExecutionError "cancelled execution cannot commit registration"));
      _ ← lift (raise_when (is_registered (rp_run_id token) b) (RegistrationPreparationError "run already has an execution handle"));
      mret pending
  end.
(** What it verifies without the lock. *)
Definition commit_verify (pending : PendingRegistration) (snapshot : CommittedExecutionSnapshot) : result (HarnessSessionView * CommittedExecutionSnapshot) :=
  _ ← check (String.eqb (cs_trust_key_id snapshot) (td_key_id (pd_issuer pending)))
        (RegistrationPreparationError "committed snapshot signer differs from prepared issuer");
  match cs_folded_view snapshot with
  | None => Raise (RegistrationPreparationError "registration commit snapshot must embed its committed folded view")
  | Some view =>
      '(_, view, snapshot) ← validated_snapshot (pd_plan pending) view snapshot;
      _ ← raise_when ((v_sequence view <=? v_sequence (pd_view pending)) || (v_state_revision view <? v_state_revision (pd_view pending)))
            (RegistrationPreparationError "committed snapshot does not advance the provisional fold");
      Ok (view, snapshot)
  end.
(** The second locked half. *)
Definition commit_finish (token : RegistrationPreparation) (pending : PendingRegistration) (snapshot : CommittedExecutionSnapshot) : Bio ExecutionHandle :=
  '(view, snapshot) ← lift (commit_verify pending snapshot);
  let run := rp_run_id token in
  let handle := handle_from_view (pd_plan pending) view in
  b ← read id;
  _ ← lift (check (bool_decide (bk_pending b !! rp_token_id token = Some pending))
              (RegistrationTokenMismatchError "registration preparation changed during commit verification"));
  _ ← lift (raise_when (is_cancelled run b) (CancelledExecutionError "execution was cancelled during registration commit"));
  _ ← lift (raise_when (is_registered run b) (RegistrationPreparationError "run was registered during commit verification"));
  _ ← modify (fun b => consume (rp_token_id token) token "committed" (install run handle (pd_plan pending) view snapshot b));
  mret handle.
Definition commit_registration (token : RegistrationPreparation) (snapshot : CommittedExecutionSnapshot) : Bio ExecutionHandle :=
  pending ← commit_begin token snapshot; commit_finish token pending snapshot.
(** [rollback_registration] *)
Definition rollback_registration (token : RegistrationPreparation) : Bio unit :=
  token ← lift (fresh_token token);
  b ← read id;
  match bk_pending b !! rp_token_id token with
  | Some pending =>
      _ ← lift (check (bool_decide (pd_token pending = token))
                  (RegistrationTokenMismatchError "registration token binding does not match active preparation"));
      modify (consume (rp_token_id token) token "rolled_back")
  | None =>
      match bk_consumed b !! rp_token_id token with
      | Some (known, outcome) =>
          _ ← lift (check (bool_decide (known = token)) (RegistrationTokenMismatchError "registration token is not known to this backend"));
          lift (check (String.eqb outcome "rolled_back") (RegistrationTokenConsumedError "committed registration cannot be rolled back"))
      | None => lift (Raise (RegistrationTokenMismatchError "registration token is not known to this backend"))
      end
  end.
(** [register] *)
Definition register (plan : HarnessPlan) (view : HarnessSessionView) (snapshot : CommittedExecutionSnapshot) : Bio ExecutionHandle :=
  '(plan, view, snapshot) ← lift (validated_snapshot plan view snapshot);
  let run := pl_run_id plan in
  let handle := handle_from_view plan view in
  b ← read id;
  _ ← lift (raise_when (is_cancelled run b) (CancelledExecutionError "cancelled execution cannot be registered"));
  _ ← lift (raise_when (is_pending run b) (ExecutionRegistrationError "pending create registration must commit its active token"));
  match bk_handles b !! run with
  | Some existing =>
      _ ← lift (check (bool_decide (existing = handle) && bool_decide (bk_plans b !! run = Some plan) &&
                       bool_decide (bk_views b !! run = Some view) && bool_decide (bk_snapshots b !! run = Some snapshot))
                  (ExecutionRegistrationError "run is already registered differently"));
      mret existing
  | None => _ ← modify (install run handle plan view snapshot); mret handle
  end.

(** ** Resumption and cancellation *)
(** [resume]; the disposable checkpoint is not read. *)
Definition resume (plan : HarnessPlan) (folded_view : HarnessSessionView) (snapshot : CommittedExecutionSnapshot) : Bio ExecutionHandle :=
  '(plan, view, snapshot) ← lift (validated_snapshot plan folded_view snapshot);
  let run := pl_run_id plan in
  let handle := handle_from_view plan view in
  b ← read id;
  _ ← lift (raise_when (is_cancelled run b) (CancelledExecutionError "cancelled execution cannot be resumed"));
  match bk_plans b !! run with
  | None => _ ← modify (install run handle plan view snapshot); mret handle
  | Some existing =>
      _ ← lift (check (bool_decide (existing = plan)) (ExecutionPlanMismatchError "resume plan differs from registered plan"));
      match bk_handles b !! run, bk_views b !! run, bk_snapshots b !! run, bk_applied b !! run with
      | Some current, Some current_view, Some current_snapshot, Some current_keys =>
          _ ← lift (raise_when (v_state_revision view <? v_state_revision current_view)
                      (StaleExecutionSnapshotError "resume snapshot is older than authority"));
          if v_state_revision view =? v_state_revision current_view then
            if bool_decide (view = current_view) && bool_decide (snapshot = current_snapshot) && bool_decide (keys_of view = current_keys)
            then mret current
            else
              _ ← lift (check (is_same_revision_authority_extension current_view view)
                          (StaleExecutionSnapshotError "same-revision snapshot is not an append-only authority extension"));
              _ ← modify (with_authority run view snapshot);
              mret current
          else
            _ ← lift (raise_when ((v_sequence view <=? v_sequence current_view) ||
                                  String.eqb (cs_event_head_hash snapshot) (cs_event_head_hash current_snapshot) ||
                                  negb (bool_decide (current_keys ⊆ keys_of view)))
                        (StaleExecutionSnapshotError "new snapshot is not a monotonic extension"));
            _ ← modify (fun b => with_applied run (keys_of view) (with_authority run view snapshot (with_handle run handle b)));
            mret handle
      | _, _, _, _ => lift (Raise (KeyError run))
      end
  end.
Definition cancelled_handle (h : ExecutionHandle) : ExecutionHandle :=
  {| eh_run_id := eh_run_id h; eh_trace_id := eh_trace_id h; eh_plan_id := eh_plan_id h; eh_plan_revision := eh_plan_revision h;
     eh_state_revision := eh_state_revision h; eh_routed_state := eh_routed_state h; eh_cancelled := true |}.
(** [cancel] *)
Definition cancel (run_id : string) : Bio unit :=
  let normalized := strip run_id in
  _ ← lift (raise_when (negb (truthy normalized) || (256 <? Z.of_nat (String.length normalized)))
              (InvalidExecutionInputError "run identifier must be nonblank and at most 256 characters"));
  b ← read id;
  match bk_handles b !! normalized with
  | None => mret tt
  | Some current =>
      if is_cancelled normalized b then mret tt
      else modify (fun b => add_cancelled normalized (with_handle normalized (cancelled_handle current) b))
  end.
(** ** Projecting a committed transition *)
Definition authority_matches (t : HarnessTransition) (r : TransitionAuthorityRecord) : bool :=
  String.eqb (ta_run_id r) (tr_run_id t) && String.eqb (ta_trace_id r) (tr_trace_id t) &&
  bool_decide (ta_entity_kind r = tr_entity_kind t) && String.eqb (ta_entity_id r) (tr_entity_id t) &&
  String.eqb (ta_from_state r) (tr_from_state t) && String.eqb (ta_to_state r) (tr_to_state t) &&
  (ta_expected_state_revision r =? tr_expected_state_revision t) && (ta_plan_revision r =? tr_plan_revision t) &&
  String.eqb (ta_reason_code r) (tr_reason_code t) && String.eqb (ta_idempotency_key r) (tr_idempotency_key t) &&
  bool_decide (ta_lease_epoch r = tr_lease_epoch t) && bool_decide (ta_fencing_token_digest r = tr_fencing_token_digest t).
Definition unauthorised : exn := InvalidCommittedTransitionError "exactly one committed authority record must identify the transition".
Definition record_evidence (r : TransitionAuthorityRecord) : TransitionEvidence :=
  {| te_run_id := ta_run_id r; te_trace_id := ta_trace_id r; te_entity_id := ta_entity_id r;
     te_expected_state_revision := ta_expected_state_revision r; te_plan_revision := ta_plan_revision r;
     te_dependency_versions := ta_dependency_versions r |}.
(** The leased evidence of a record; its fields may not be [None]. *)
Definition record_lease (r : TransitionAuthorityRecord) : result LeasedAuthorization :=
  match ta_reservation_id r, ta_grant_id r, ta_lease_epoch r, ta_fencing_token_digest r with
  | Some reservation, Some grant, Some epoch, Some fence =>
      validate_leased {| la_evidence := record_evidence r; la_reservation_id := reservation; la_grant_id := grant;
                         la_lease_epoch := epoch; la_fencing_token_digest := fence |}
  | _, _, _, _ => Raise (ValidationError "string type")
  end.
(** [_authorization] *)
Definition authorization (t : HarnessTransition) (v : HarnessSessionView) : result Authorization :=
  match List.filter (authority_matches t) (v_transition_authorities v) with
  | [r] =>
      match tr_entity_kind t with
      | E_run => RunTransitionEvidence <$> validate_evidence (record_evidence r)
      | E_work_item => WorkItemTransitionAuthorization <$> record_lease r
      | E_attempt => AttemptTransitionAuthorization <$> record_lease r
      end
  | _ => Raise unauthorised
  end.
(** [_validate_entity_ownership] *)
Definition validate_entity_ownership (plan : HarnessPlan) (v : HarnessSessionView) (t : HarnessTransition) : result unit :=
  let items := wi_work_item_id <$> pl_work_items plan in
  match tr_entity_kind t with
  | E_run => check (String.eqb (tr_entity_id t) (pl_run_id plan)) (ExecutionIdentityError "run transition entity is foreign")
  | E_work_item => check (bool_decide (tr_entity_id t ∈ items)) (ExecutionIdentityError "work item is not owned by the plan")
  | E_attempt =>
      match List.filter (fun o => String.eqb (ow_attempt_id o) (tr_entity_id t)) (v_attempt_work_item_owners v) with
      | [o] =>
          check (String.eqb (ow_run_id o) (pl_run_id plan) && String.eqb (ow_trace_id o) (pl_trace_id plan) &&
                 (ow_plan_revision o =? pl_revision plan) && bool_decide (ow_work_item_id o ∈ items))
            (ExecutionIdentityError "attempt ownership is foreign to the plan")
      | _ => Raise (ExecutionIdentityError "attempt has no unique committed owner")
      end
  end.
(** [StateMachineError] and its subclasses. *)
Definition state_machine_error (e : exn) : bool :=
  bool_decide (exn_class e ∈ ["StateMachineError"; "StaleTransitionError"; "IdentityMismatchError"; "IdempotencyConflictError";
    "DependencyVersionError"; "LeaseEvidenceError"; "SideEffectReconciliationRequiredError"; "InvalidTransitionError"]).
Definition forget_head (v : HarnessSessionView) : HarnessSessionView := set_cursor v (v_sequence v) (v_run_id v) (v_trace_id v) None.
(** What the first locked half of [apply_committed_transition] read. *)
Record Ticket := {
  tk_handle : ExecutionHandle; tk_transition : HarnessTransition; tk_plan : HarnessPlan; tk_view : HarnessSessionView;
  tk_snapshot : CommittedExecutionSnapshot; tk_applied : gset string }.
Definition look {A} (m : gmap string A) (key : string) : result A :=
  match m !! key with Some a => Ok a | None => Raise (KeyError key) end.
Definition apply_begin (handle : ExecutionHandle) (transition : HarnessTransition) : Bio Ticket :=
  handle ← lift (fresh_handle handle);
  t ← lift (fresh_transition transition);
  let run := eh_run_id handle in
  b ← read id;
  _ ← lift (raise_when (is_cancelled run b) (CancelledExecutionError "cancelled execution cannot project transitions"));
  _ ← lift (check (bool_decide (bk_handles b !! run = Some handle)) (ExecutionHandleMismatchError "execution handle is stale, forged, or unknown"));
  applied ← lift (look (bk_applied b) run);
  _ ← lift (raise_when (bool_decide (tr_idempotency_key t ∈ applied)) (DuplicateExecutionTransitionError "idempotency key was already projected"));
  _ ← lift (check (String.eqb (tr_run_id t) run && String.eqb (tr_trace_id t) (eh_trace_id handle))
              (ExecutionIdentityError "transition identity does not match execution"));
  _ ← lift (check (tr_plan_revision t =? eh_plan_revision handle) (ExecutionPlanMismatchError "transition plan revision does not match"));
  _ ← lift (check (tr_expected_state_revision t =? eh_state_revision handle) (StaleExecutionTransitionError "transition revision is stale"));
  plan ← lift (look (bk_plans b) run); view ← lift (look (bk_views b) run); snapshot ← lift (look (bk_snapshots b) run);
  mret {| tk_handle := handle; tk_transition := t; tk_plan := plan; tk_view := view; tk_snapshot := snapshot; tk_applied := applied |}.
(** The state machine's answer to a transition with its committed authority. *)
Definition expected_fold (t : HarnessTransition) (pre : HarnessSessionView) (a : Authorization) : result HarnessSessionView :=
  match HarnessStateMachine.apply {| in_candidate := Transition t; in_view := pre; in_authorization := Some a; in_retry := None; in_resolution := None |} with
  | Ok v => Ok v
  | Raise e => Raise (if state_machine_error e then InvalidCommittedTransitionError "transition is illegal for authoritative pre-state" else e)
  end.
Definition route_target (t : HarnessTransition) (post : HarnessSessionView) : string :=
  match tr_entity_kind t, v_run_state post with
  | E_run, Some s => run_state_value s
  | _, _ => tr_to_state t
  end.
(** [self._graph.invoke], whose failures but the router's own are projection errors. *)
Definition project (target : string) : result string :=
  let inconsistent := ExecutionProjectionError "LangGraph projected inconsistent target" in
  match invoke target with
  | Ok routed => _ ← check (bool_decide (routed = Some target)) inconsistent; Ok target
  | Raise e => Raise (if String.eqb (exn_class e) "UncommittedTransitionError" then e else ExecutionProjectionError "LangGraph failed to project route")
  end.
(** What [apply_committed_transition] does without the lock: the advanced handle with
    the view and the snapshot it stands for. *)
Definition apply_verify (k : Ticket) (pre_view post_view : HarnessSessionView) (receipt : CommittedTransitionReceipt)
    : result (ExecutionHandle * HarnessSessionView * CommittedExecutionSnapshot) :=
  let h := tk_handle k in let t := tk_transition k in let plan := tk_plan k in
  pre_view ← fresh_view pre_view;
  post_view ← fresh_view post_view;
  receipt ← fresh_receipt receipt;
  '(_, pre_view, pre_snapshot) ← validated_snapshot plan pre_view (cr_pre receipt);
  '(_, post_view, post_snapshot) ← validated_snapshot plan post_view (cr_post receipt);
  _ ← verify_authority (ReceiptAuthority receipt);
  _ ← check (String.eqb (transition_digest t) (cr_transition_digest receipt)) (InvalidCommittedTransitionError "receipt identifies another transition");
  _ ← check (bool_decide (tk_view k = pre_view) && bool_decide (tk_snapshot k = pre_snapshot) && (cs_state_revision pre_snapshot =? eh_state_revision h))
        (StaleExecutionTransitionError "receipt pre-state is not registered authority");
  _ ← validate_entity_ownership plan pre_view t;
  a ← authorization t pre_view;
  expected ← expected_fold t pre_view a;
  _ ← check (bool_decide (forget_head expected = forget_head post_view))
        (InvalidCommittedTransitionError "post fold differs from state-machine result");
  routed ← project (route_target t post_view);
  Ok ({| eh_run_id := eh_run_id h; eh_trace_id := eh_trace_id h; eh_plan_id := eh_plan_id h; eh_plan_revision := eh_plan_revision h;
         eh_state_revision := v_state_revision post_view; eh_routed_state := Some routed; eh_cancelled := false |}, post_view, post_snapshot).
(** The second locked half: nothing the first one read may have changed. *)
Definition unchanged (k : Ticket) (applied : gset string) (b : Backend) : bool :=
  let run := eh_run_id (tk_handle k) in
  bool_decide (bk_handles b !! run = Some (tk_handle k)) && bool_decide (bk_plans b !! run = Some (tk_plan k)) &&
  bool_decide (bk_views b !! run = Some (tk_view k)) && bool_decide (bk_snapshots b !! run = Some (tk_snapshot k)) &&
  bool_decide (applied = tk_applied k).
Definition apply_finish (k : Ticket) (pre_view post_view : HarnessSessionView) (receipt : CommittedTransitionReceipt) : Bio ExecutionHandle :=
  '(advanced, post, snapshot) ← lift (apply_verify k pre_view post_view receipt);
  let run := eh_run_id (tk_handle k) in let key := tr_idempotency_key (tk_transition k) in
  b ← read id;
  _ ← lift (raise_when (is_cancelled run b) (CancelledExecutionError "execution was cancelled during transition verification"));
  applied ← lift (look (bk_applied b) run);
  _ ← lift (raise_when (bool_decide (key ∈ applied)) (DuplicateExecutionTransitionError "idempotency key was projected during verification"));
  _ ← lift (check (unchanged k applied b) (StaleExecutionTransitionError "execution authority changed during transition verification"));
  _ ← modify (fun b => with_applied run ({[key]} ∪ applied) (with_authority run post snapshot (with_handle run advanced b)));
  mret advanced.
(** [apply_committed_transition], when nothing runs between its halves. *)
Definition apply_committed_transition (handle : ExecutionHandle) (transition : HarnessTransition) (pre_view post_view : HarnessSessionView)
    (receipt : CommittedTransitionReceipt) : Bio ExecutionHandle :=
  k ← apply_begin handle transition; apply_finish k pre_view post_view receipt.
(** A method called between the locked sections of others. *)
Inductive backend_step : Backend -> Backend -> Prop :=
  | bs_prepare plan v d token_id b : backend_step b (prepare_registration plan v d token_id b).1
  | bs_commit token s pending b0 s' b :
      (commit_begin token s b0).2 = Ok pending -> backend_step b (commit_finish token pending s' b).1
  | bs_rollback token b : backend_step b (rollback_registration token b).1
  | bs_register plan v s b : backend_step b (register plan v s b).1
  | bs_resume plan v s b : backend_step b (resume plan v s b).1
  | bs_apply h t k b0 pre post receipt b :
      (apply_begin h t b0).2 = Ok k -> backend_step b (apply_finish k pre post receipt b).1
  | bs_cancel run_id b : backend_step b (cancel run_id b).1.

(** ** The table of runs

    What the five maps and the set of cancelled runs say of a run, as one record: the
    specification the backend refines. *)
Record Registered := {
  rg_handle : ExecutionHandle; rg_plan : HarnessPlan; rg_view : HarnessSessionView; rg_snapshot : CommittedExecutionSnapshot;
  rg_keys : gset string; rg_cancelled : bool }.
Definition status (b : Backend) (run : string) : option Registered :=
  h ← bk_handles b !! run; p ← bk_plans b !! run; v ← bk_views b !! run; s ← bk_snapshots b !! run; keys ← bk_applied b !! run;
  Some {| rg_handle := h; rg_plan := p; rg_view := v; rg_snapshot := s; rg_keys := keys; rg_cancelled := is_cancelled run b |}.
(** The handle stands for the view, and the snapshot is the verified binding of it. *)
Record sound (run : string) (r : Registered) : Prop := {
  so_authentic : validated_snapshot (rg_plan r) (rg_view r) (rg_snapshot r) = Ok (rg_plan r, rg_view r, rg_snapshot r);
  so_run : pl_run_id (rg_plan r) = run;
  so_identity : (eh_run_id (rg_handle r), eh_trace_id (rg_handle r), eh_plan_id (rg_handle r), eh_plan_revision (rg_handle r)) =
                (run, pl_trace_id (rg_plan r), pl_plan_id (rg_plan r), pl_revision (rg_plan r));
  so_revision : eh_state_revision (rg_handle r) = v_state_revision (rg_view r);
  so_keys : rg_keys r = keys_of (rg_view r);
  so_cancelled : eh_cancelled (rg_handle r) = rg_cancelled r }.
Inductive run_step (run : string) : option Registered -> Registered -> Prop :=
  | rs_register r : sound run r -> rg_cancelled r = false -> run_step run None r
  | rs_advance r r' :
      sound run r' -> rg_cancelled r = false -> rg_cancelled r' = false -> rg_plan r' = rg_plan r ->
      v_state_revision (rg_view r) <= v_state_revision (rg_view r') -> v_sequence (rg_view r) < v_sequence (rg_view r') ->
      rg_keys r ⊆ rg_keys r' -> run_step run (Some r) r'
  | rs_cancel r : rg_cancelled r = false ->
      run_step run (Some r) {| rg_handle := cancelled_handle (rg_handle r); rg_plan := rg_plan r; rg_view := rg_view r;
                               rg_snapshot := rg_snapshot r; rg_keys := rg_keys r; rg_cancelled := true |}.
(** At most one run takes a step. *)
Definition table_step (t t' : string -> option Registered) : Prop :=
  (forall run, t' run = t run) \/
  exists run r, run_step run (t run) r /\ forall run', t' run' = if decide (run' = run) then Some r else t run'.
(** ** Lemmas *)
Section validation.
Context {A} `{EqDecision A} (validate : cleaner A) (e : exn).
Lemma fresh_Ok x y : fresh validate e x = Ok y <-> y = x /\ validate x = Ok x.
Proof.
  unfold fresh. destruct (validate x) as [z|] eqn:E; [|naive_solver]. case_bool_decide; naive_solver.
Qed.
End validation.
Lemma validate_plan_view_Ok plan view p v :
  validate_plan_view plan view = Ok (p, v) -> p = plan /\ v = view /\ validate_plan plan = Ok plan /\ well_formed view.
Proof.
  unfold validate_plan_view, fresh_plan, fresh_view. intros H. inv_ok H. apply fresh_Ok in Hok as [-> ?], Hok0 as [-> ?].
  by subst p v.
Qed.
Lemma validated_snapshot_Ok plan view s p v s' :
  validated_snapshot plan view s = Ok (p, v, s') ->
  (p, v, s') = (plan, view, s) /\ validate_plan plan = Ok plan /\ well_formed view /\ snapshot_matches plan view s = true.
Proof.
  unfold validated_snapshot, fresh_snapshot. intros H. apply bind_Ok in H as ([p' v'] & Hv & H).
  apply validate_plan_view_Ok in Hv as (-> & -> & Hp & Hw). inv_ok H. apply fresh_Ok in Hok as [-> _].
  apply check_Ok in Hok0. by subst p v s'.
Qed.

(** What the writes do to the table. *)
Lemma status_Some b run r :
  status b run = Some r <->
  bk_handles b !! run = Some (rg_handle r) /\ bk_plans b !! run = Some (rg_plan r) /\ bk_views b !! run = Some (rg_view r) /\
  bk_snapshots b !! run = Some (rg_snapshot r) /\ bk_applied b !! run = Some (rg_keys r) /\ is_cancelled run b = rg_cancelled r.
Proof.
  unfold status. split.
  - intros H. repeat (apply bind_Some in H as (? & ? & H)). by injection H as <-.
  - intros (-> & -> & -> & -> & -> & ->). by destruct r.
Qed.
Lemma status_install run h p v s b k :
  status (install run h p v s b) k =
    if decide (k = run)
    then Some {| rg_handle := h; rg_plan := p; rg_view := v; rg_snapshot := s; rg_keys := keys_of v; rg_cancelled := is_cancelled run b |}
    else status b k.
Proof. unfold status, install. simpl. case_decide; subst; simplify_map_eq; done. Qed.
Lemma status_advance run h v s keys b k p :
  bk_plans b !! run = Some p ->
  status (with_applied run keys (with_authority run v s (with_handle run h b))) k =
    if decide (k = run)
    then Some {| rg_handle := h; rg_plan := p; rg_view := v; rg_snapshot := s; rg_keys := keys; rg_cancelled := is_cancelled run b |}
    else status b k.
Proof. intros Hp. unfold status. simpl. case_decide; subst; simplify_map_eq; done. Qed.
Lemma status_authority run v s b k r :
  status b run = Some r ->
  status (with_authority run v s b) k =
    if decide (k = run)
    then Some {| rg_handle := rg_handle r; rg_plan := rg_plan r; rg_view := v; rg_snapshot := s; rg_keys := rg_keys r; rg_cancelled := rg_cancelled r |}
    else status b k.
Proof.
  intros (Hh & Hp & _ & _ & Hk & Hc)%status_Some. unfold status. simpl. case_decide; subst; simplify_map_eq; [|done].
  by rewrite <- Hc.
Qed.
Lemma status_cancelled run b k r :
  status b run = Some r ->
  status (add_cancelled run (with_handle run (cancelled_handle (rg_handle r)) b)) k =
    if decide (k = run)
    then Some {| rg_handle := cancelled_handle (rg_handle r); rg_plan := rg_plan r; rg_view := rg_view r;
                 rg_snapshot := rg_snapshot r; rg_keys := rg_keys r; rg_cancelled := true |}
    else status b k.
Proof.
  intros (Hh & Hp & Hv & Hs & Hk & _)%status_Some. unfold status, is_cancelled. simpl. case_decide; subst; simplify_map_eq.
  - rewrite bool_decide_true by set_solver. done.
  - rewrite (bool_decide_ext (k ∈ {[run]} ∪ bk_cancelled b) (k ∈ bk_cancelled b)) by set_solver. done.
Qed.
(** ** The backend refines the table of runs *)
Record backend_ok (b : Backend) : Prop := {
  ok_sound : forall run r, status b run = Some r -> sound run r;
  ok_aligned : forall run, status b run = None ->
    bk_handles b !! run = None /\ bk_plans b !! run = None /\ is_cancelled run b = false;
  ok_pending : forall id p, bk_pending b !! id = Some p -> rp_run_id (pd_token p) = pl_run_id (pd_plan p) }.
Lemma new_backend_ok : backend_ok new_backend.
Proof. by split. Qed.
(** A write that is about one run. *)
Record touches_only (run : string) (b b' : Backend) : Prop := {
  to_handles : forall k, k <> run -> bk_handles b' !! k = bk_handles b !! k;
  to_plans : forall k, k <> run -> bk_plans b' !! k = bk_plans b !! k;
  to_cancelled : forall k, k <> run -> is_cancelled k b' = is_cancelled k b;
  to_pending : bk_pending b' ⊆ bk_pending b }.
Lemma ok_update b b' run r :
  backend_ok b -> touches_only run b b' -> (forall k, status b' k = if decide (k = run) then Some r else status b k) ->
  sound run r -> backend_ok b'.
Proof.
  intros [Hs Ha Hp] [Hh Hpl Hc Hpe] Ht Hr. split.
  - intros k r'. rewrite Ht. case_decide; [|apply Hs]. intros [= <-]. by subst.
  - intros k. rewrite Ht. case_decide; [done|]. intros Hn. rewrite Hh, Hpl, Hc by done. by apply Ha.
  - intros id p H. eapply Hp, lookup_weaken; eassumption.
Qed.
(** What a method does from a given state. *)
Definition refines {A} (b : Backend) (m : Bio A) : Prop := table_step (status b) (status (m b).1) /\ backend_ok (m b).1.
Lemma refines_quiet {A} b (m : Bio A) :
  backend_ok b -> bk_handles (m b).1 = bk_handles b -> bk_plans (m b).1 = bk_plans b -> bk_cancelled (m b).1 = bk_cancelled b ->
  (forall k, status (m b).1 k = status b k) ->
  (forall id p, bk_pending (m b).1 !! id = Some p -> rp_run_id (pd_token p) = pl_run_id (pd_plan p)) -> refines b m.
Proof.
  intros [Hs Ha _] Hh Hp Hc Ht Hpe. split; [by left|]. split; [| |done].
  - intros run r. rewrite Ht. apply Hs.
  - intros run. unfold is_cancelled. rewrite Ht, Hh, Hp, Hc. apply Ha.
Qed.
Lemma refines_same {A} b (m : Bio A) : backend_ok b -> (m b).1 = b -> refines b m.
Proof. intros Hb H. unfold refines. rewrite H. split; [by left|done]. Qed.
Lemma refines_lift {A B} b (r : result A) (f : A -> Bio B) :
  backend_ok b -> (forall a, r = Ok a -> refines b (f a)) -> refines b (lift r ≫= f).
Proof. intros Hb H. destruct r as [a|e]; [by apply H|by apply refines_same]. Qed.
Lemma refines_read {A B} b (g : Backend -> A) (f : A -> Bio B) : refines b (f (g b)) -> refines b (read g ≫= f).
Proof. done. Qed.
Lemma refines_write {A} b run r (f : Backend -> Backend) (a : A) :
  backend_ok b -> run_step run (status b run) r -> sound run r -> touches_only run b (f b) ->
  (forall k, status (f b) k = if decide (k = run) then Some r else status b k) -> refines b (_ ← modify f; mret a).
Proof. intros Hb Hstep Hr Ht Hs. split; [right; exists run, r; done|by eapply ok_update]. Qed.
Lemma registered_sound plan view s :
  validated_snapshot plan view s = Ok (plan, view, s) ->
  sound (pl_run_id plan)
    {| rg_handle := handle_from_view plan view; rg_plan := plan; rg_view := view; rg_snapshot := s; rg_keys := keys_of view;
       rg_cancelled := false |}.
Proof. by split. Qed.
Lemma status_unregistered b run : bk_handles b !! run = None \/ bk_plans b !! run = None -> status b run = None.
Proof. intros H. destruct (status b run) eqn:E; [|done]. apply status_Some in E. naive_solver. Qed.
Lemma touches_install run h p v s b : touches_only run b (install run h p v s b).
Proof. by split; intros; simpl; simplify_map_eq. Qed.
Lemma refines_install {A} b plan view s (f : Backend -> Backend) (a : A) :
  backend_ok b -> validated_snapshot plan view s = Ok (plan, view, s) -> is_cancelled (pl_run_id plan) b = false ->
  status b (pl_run_id plan) = None ->
  f b = install (pl_run_id plan) (handle_from_view plan view) plan view s b ->
  refines b (_ ← modify f; mret a).
Proof.
  intros Hb Hs Hc Hn Hf. pose proof (registered_sound _ _ _ Hs) as Hr.
  eapply refines_write; [done| |exact Hr| |]; [rewrite Hn; by constructor| |]; rewrite Hf;
    [apply touches_install|]. intros k. by rewrite status_install, Hc.
Qed.
Ltac lifts :=
  repeat match goal with
  | |- refines _ (lift _ ≫= _) => apply refines_lift; [done|]; intros ? ?
  | |- refines _ (read _ ≫= _) => apply refines_read; cbn [id]
  | H : validated_snapshot _ _ _ = Ok ?x |- _ =>
      is_var x; destruct x as [[? ?] ?]; pose proof (validated_snapshot_Ok _ _ _ _ _ _ H) as (? & _); simplify_eq
  | H : raise_when _ _ = Ok _ |- _ => apply raise_when_Ok in H
  | H : check _ _ = Ok _ |- _ => apply check_Ok in H
  end.
Lemma register_refines b plan view s : backend_ok b -> refines b (register plan view s).
Proof.
  intros Hb. unfold register. lifts. destruct (bk_handles b !! _) eqn:Eh.
  - lifts. by apply refines_same.
  - eapply refines_install; eauto using status_unregistered.
Qed.
Lemma prepare_refines b plan view d token_id : backend_ok b -> refines b (prepare_registration plan view d token_id).
Proof.
  intros Hb. unfold prepare_registration, fresh_plan. lifts.
  match goal with H : fresh validate_plan _ _ = Ok _ |- _ => apply fresh_Ok in H as [-> Hrun%plan_run_clean] end.
  match goal with H : validate_preparation _ = Ok ?x |- _ => rename x into prep, H into Hv end.
  apply refines_quiet; try done. intros id p. simpl.
  intros [[<- <-]|[_ H]]%lookup_insert_Some; [|by apply (ok_pending b Hb id)]. simpl.
  unfold validate_preparation in Hv. simpl in Hv. inv_ok Hv. subst prep. simpl. congruence.
Qed.
Lemma rollback_refines b token : backend_ok b -> refines b (rollback_registration token).
Proof.
  intros Hb. unfold rollback_registration. lifts. destruct (bk_pending b !! _) eqn:E.
  - lifts. apply refines_quiet; try done. intros key q. simpl. intros [_ Hold]%lookup_delete_Some. by apply (ok_pending b Hb key).
  - destruct (bk_consumed b !! _) as [[? ?]|]; lifts; by apply refines_same.
Qed.
Lemma lift_bind_Ok {A B} (r : result A) (f : A -> Bio B) b x : ((lift r ≫= f) b).2 = Ok x -> exists a, r = Ok a /\ (f a b).2 = Ok x.
Proof. destruct r; [eauto|done]. Qed.
Lemma read_bind_Ok {A B} (g : Backend -> A) (f : A -> Bio B) b x : ((read g ≫= f) b).2 = Ok x -> (f (g b) b).2 = Ok x.
Proof. done. Qed.
Ltac runs H :=
  repeat lazymatch type of H with
  | ((lift _ ≫= _) _).2 = Ok _ =>
      let Hx := fresh "Hok" in
      apply lift_bind_Ok in H as (? & Hx & H); first [apply check_Ok in Hx|apply raise_when_Ok in Hx|idtac]
  | ((read _ ≫= _) _).2 = Ok _ => apply read_bind_Ok in H; cbn [id] in H
  end.
Lemma begun_token token s pending b : (commit_begin token s b).2 = Ok pending -> pd_token pending = token.
Proof.
  unfold commit_begin, fresh_token. intros H. runs H. apply fresh_Ok in Hok as [-> _].
  destruct (bk_pending b !! _) as [p|]; [|done]. runs H. injection H as <-. by apply bool_decide_eq_true in Hok.
Qed.
Lemma commit_refines b token s pending : backend_ok b -> pd_token pending = token -> refines b (commit_finish token pending s).
Proof.
  intros Hb <-. unfold commit_finish, commit_verify. apply refines_lift; [done|]. intros [view snapshot] Hv.
  apply bind_Ok in Hv as (u & _ & Hv). destruct (cs_folded_view s) as [v|]; [|done].
  apply bind_Ok in Hv as ([[p' v'] s'] & Hs & Hv). pose proof (validated_snapshot_Ok _ _ _ _ _ _ Hs) as (He & _).
  simplify_eq. apply bind_Ok in Hv as (u' & _ & Hv). simplify_eq. lifts.
  match goal with H : bool_decide (bk_pending b !! _ = _) = true |- _ => apply bool_decide_eq_true in H; apply (ok_pending b Hb) in H as Hrun end.
  rewrite Hrun in *. unfold is_registered in *.
  assert (Hn : status b (pl_run_id (pd_plan pending)) = None).
  { apply status_unregistered. left. by destruct (bk_handles b !! _). }
  pose proof (registered_sound _ _ _ Hs) as Hsound.
  eapply refines_write; [done| |exact Hsound| |]; [rewrite Hn; by constructor| |].
  - split; intros; simpl; simplify_map_eq; try done. apply delete_subseteq.
  - intros k. etransitivity; [|etransitivity; [apply (status_install (pl_run_id (pd_plan pending)))|]]; [reflexivity|].
    match goal with H : is_cancelled _ b = false |- _ => by rewrite H end.
Qed.
Lemma cancel_refines b run_id : backend_ok b -> refines b (cancel run_id).
Proof.
  intros Hb. unfold cancel. lifts. destruct (bk_handles b !! strip run_id) as [h|] eqn:Eh; [|by apply refines_same].
  destruct (is_cancelled (strip run_id) b) eqn:Ec; [by apply refines_same|].
  destruct (status b (strip run_id)) as [r|] eqn:Er; [|apply (ok_aligned b Hb) in Er as (? & _); congruence].
  pose proof (ok_sound b Hb _ _ Er) as []. pose proof Er as (Hh & _ & _ & _ & _ & Hc)%status_Some.
  assert (h = rg_handle r) as -> by congruence.
  change (refines b (_ ← modify (fun b => add_cancelled (strip run_id) (with_handle (strip run_id) (cancelled_handle (rg_handle r)) b)); mret tt)).
  eapply refines_write with (run := strip run_id); [done| | | |intros k; by apply status_cancelled].
  - rewrite Er. apply rs_cancel. congruence.
  - by split.
  - split; [by intros; simpl; simplify_map_eq|done| |done]. intros k Hk. unfold is_cancelled. simpl. apply bool_decide_ext. set_solver.
Qed.
Lemma extension_keeps current incoming :
  is_same_revision_authority_extension current incoming = true ->
  v_state_revision incoming = v_state_revision current /\ v_sequence current < v_sequence incoming /\
  v_applied_idempotency_keys incoming = v_applied_idempotency_keys current.
Proof.
  unfold is_same_revision_authority_extension. destruct (_ || _ || _) eqn:E; [done|]. to_prop.
  destruct (negb _) eqn:Ef; [done|]. to_prop. intros _. split_and!; try done.
  by apply (f_equal v_applied_idempotency_keys) in Ef.
Qed.
(** A run moves on to another view. *)
Lemma refines_advance {A} b run r h v s keys (f : Backend -> Backend) (a : A) :
  backend_ok b -> status b run = Some r -> rg_cancelled r = false ->
  validated_snapshot (rg_plan r) v s = Ok (rg_plan r, v, s) ->
  (eh_run_id h, eh_trace_id h, eh_plan_id h, eh_plan_revision h) = (run, pl_trace_id (rg_plan r), pl_plan_id (rg_plan r), pl_revision (rg_plan r)) ->
  eh_state_revision h = v_state_revision v -> eh_cancelled h = false -> keys = keys_of v ->
  v_state_revision (rg_view r) <= v_state_revision v -> v_sequence (rg_view r) < v_sequence v -> rg_keys r ⊆ keys ->
  touches_only run b (f b) ->
  (forall k, status (f b) k = if decide (k = run)
     then Some {| rg_handle := h; rg_plan := rg_plan r; rg_view := v; rg_snapshot := s; rg_keys := keys; rg_cancelled := false |}
     else status b k) ->
  refines b (_ ← modify f; mret a).
Proof.
  intros Hb Hr Hc Hs Hid Hrev Hcan -> Hle Hlt Hsub Ht Hf. pose proof (ok_sound b Hb _ _ Hr) as [].
  assert (Hsound : sound run {| rg_handle := h; rg_plan := rg_plan r; rg_view := v; rg_snapshot := s; rg_keys := keys_of v; rg_cancelled := false |}).
  { by split. }
  eapply refines_write; [done| |exact Hsound|done|exact Hf]. rewrite Hr. by apply rs_advance.
Qed.
Lemma resume_refines b plan view s : backend_ok b -> refines b (resume plan view s).
Proof.
  intros Hb. unfold resume. lifts. destruct (bk_plans b !! _) as [p|] eqn:Ep; lifts.
  2: { eapply refines_install; eauto using status_unregistered. }
  match goal with H : bool_decide (p = _) = true |- _ => apply bool_decide_eq_true in H as -> end.
  destruct (bk_handles b !! _) as [h|] eqn:Eh; [|by apply refines_same].
  destruct (bk_views b !! _) as [cv|] eqn:Ev; [|by apply refines_same].
  destruct (bk_snapshots b !! _) as [cs|] eqn:Es; [|by apply refines_same].
  destruct (bk_applied b !! _) as [keys|] eqn:Ek; [|by apply refines_same]. lifts.
  match goal with H : validated_snapshot ?pl ?v _ = _ |- _ => rename pl into plan', v into view' end.
  set (r := {| rg_handle := h; rg_plan := plan'; rg_view := cv; rg_snapshot := cs; rg_keys := keys; rg_cancelled := false |}).
  assert (Hr : status b (pl_run_id plan') = Some r) by by apply status_Some.
  pose proof (ok_sound b Hb _ _ Hr) as [_ _ Hid Hrev Hkeys Hcan]. simpl in *.
  destruct (v_state_revision view' =? v_state_revision cv) eqn:Eq.
  - destruct (_ && _ && _); [by apply refines_same|]. lifts.
    match goal with H : is_same_revision_authority_extension _ _ = true |- _ => apply extension_keeps in H as (Hrv & Hsq & Hks) end.
    assert (Hk : keys = keys_of view') by (unfold keys_of in *; congruence).
    apply (refines_advance b (pl_run_id plan') r h view' s (keys_of view')); simpl; try done; try congruence; try lia.
    intros k. etransitivity; [by apply status_authority|]. simpl. by rewrite Hk.
  - lifts. to_prop. apply (refines_advance b (pl_run_id plan') r (handle_from_view plan' view') view' s (keys_of view')); simpl; try done; try lia;
      [by split; intros; simpl; simplify_map_eq|].
    intros k. etransitivity; [by apply (status_advance _ _ _ _ _ _ _ plan')|].
    match goal with H : is_cancelled _ b = false |- _ => by rewrite H end.
Qed.
(** ** Committed transitions *)
Lemma begun_ticket h t b k :
  (apply_begin h t b).2 = Ok k -> tk_handle k = h /\ tk_transition k = t /\ validate_transition t = Ok t.
Proof.
  unfold apply_begin, fresh_handle, fresh_transition. intros H. runs H.
  apply fresh_Ok in Hok as [-> _], Hok0 as [-> Ht]. by injection H as <-.
Qed.
Lemma updated_view_counters v t c u :
  updated_view v t c = Ok u ->
  v_sequence u = v_sequence v + 1 /\ v_state_revision u = v_state_revision v + 1 /\
  v_request_digest u = v_request_digest v /\ v_prompt_release_digest u = v_prompt_release_digest v /\
  v_accepted_result_digest u = v_accepted_result_digest v.
Proof. unfold updated_view. intros H. destruct (tr_entity_kind t); walk H; by injection H as <-. Qed.
Lemma expected_fold_Ok t pre a u :
  validate_transition t = Ok t -> well_formed pre -> expected_fold t pre a = Ok u -> applied pre u /\ exists c, updated_view pre t c = Ok u.
Proof.
  intros Ht Hw H. unfold expected_fold in H. destruct (HarnessStateMachine.apply _) as [v|] eqn:E; [|done]. injection H as ->.
  split; [eexists; split; [|exact E]; done|]. apply apply_inv in E as (j & t' & Hj & _ & Ht' & Hu & _).
  pose proof (revalidate_Ok _ _ Hj) as [Hc _]. destruct (revalidated_view _ _ Hj) as [_ Hv]. simpl in Hc, Hv.
  rewrite Ht in Hc. injection Hc as Hc. rewrite <- Hc in Ht'. injection Ht' as <-. rewrite Hv in Hu by done. eauto.
Qed.
(** What [apply_verify] established of what it returns. *)
Record verified (k : Ticket) (pre post : HarnessSessionView) (receipt : CommittedTransitionReceipt) (advanced : ExecutionHandle) : Prop := {
  vf_receipt : verifies (ReceiptAuthority receipt) = true;
  vf_transition : transition_digest (tk_transition k) = cr_transition_digest receipt;
  vf_pre : tk_view k = pre; vf_pre_snapshot : tk_snapshot k = cr_pre receipt;
  vf_post : validated_snapshot (tk_plan k) post (cr_post receipt) = Ok (tk_plan k, post, cr_post receipt);
  vf_fold : exists a u, authorization (tk_transition k) pre = Ok a /\ expected_fold (tk_transition k) pre a = Ok u /\
                        forget_head u = forget_head post;
  vf_owner : validate_entity_ownership (tk_plan k) pre (tk_transition k) = Ok tt;
  vf_well_formed : well_formed pre;
  vf_handle : advanced =
    {| eh_run_id := eh_run_id (tk_handle k); eh_trace_id := eh_trace_id (tk_handle k); eh_plan_id := eh_plan_id (tk_handle k);
       eh_plan_revision := eh_plan_revision (tk_handle k); eh_state_revision := v_state_revision post;
       eh_routed_state := Some (route_target (tk_transition k) post); eh_cancelled := false |} }.
Lemma apply_verify_Ok k pre post receipt advanced v s :
  apply_verify k pre post receipt = Ok (advanced, v, s) -> v = post /\ s = cr_post receipt /\ verified k pre post receipt advanced.
Proof.
  unfold apply_verify, fresh_view, fresh_receipt. intros H.
  apply bind_Ok in H as (x & Hx & H). apply fresh_Ok in Hx as [-> Hpre].
  apply bind_Ok in H as (x & Hx & H). apply fresh_Ok in Hx as [-> Hpost].
  apply bind_Ok in H as (x & Hx & H). apply fresh_Ok in Hx as [-> _].
  apply bind_Ok in H as ([[p1 v1] s1] & H1 & H). pose proof (validated_snapshot_Ok _ _ _ _ _ _ H1) as ([= -> -> ->] & _).
  apply bind_Ok in H as ([[p2 v2] s2] & H2 & H). pose proof (validated_snapshot_Ok _ _ _ _ _ _ H2) as ([= -> -> ->] & _).
  apply bind_Ok in H as (? & Hv & H). apply bind_Ok in H as (? & Hd%check_Ok & H). apply bind_Ok in H as (? & Hb%check_Ok & H).
  apply bind_Ok in H as ([] & Ho & H). apply bind_Ok in H as (a & Ha & H). apply bind_Ok in H as (u & Hu & H).
  apply bind_Ok in H as (? & Hf%check_Ok & H). apply bind_Ok in H as (routed & Hr & H). injection H as <- <- <-.
  to_prop. apply String.eqb_eq in Hd.
  unfold verify_authority in Hv. apply bind_Ok in Hv as (? & _ & Hv%check_Ok).
  assert (routed = route_target (tk_transition k) post) as ->.
  { unfold project in Hr. destruct (invoke _); [|done]. inv_ok Hr. done. }
  split_and!; [done..|]. split; eauto.
Qed.
Lemma look_Ok {A} (m : gmap string A) key a : look m key = Ok a -> m !! key = Some a.
Proof. unfold look. destruct (m !! key); [by intros [= ->]|done]. Qed.
(** The registration a ticket was issued for, when it is still there. *)
Definition ticket_status (k : Ticket) : Registered :=
  {| rg_handle := tk_handle k; rg_plan := tk_plan k; rg_view := tk_view k; rg_snapshot := tk_snapshot k; rg_keys := tk_applied k; rg_cancelled := false |}.
Definition advanced_status (k : Ticket) (h : ExecutionHandle) (post : HarnessSessionView) (s : CommittedExecutionSnapshot) : Registered :=
  {| rg_handle := h; rg_plan := tk_plan k; rg_view := post; rg_snapshot := s;
     rg_keys := {[tr_idempotency_key (tk_transition k)]} ∪ tk_applied k; rg_cancelled := false |}.
Lemma unchanged_status k b run :
  run = eh_run_id (tk_handle k) ->
  is_cancelled run b = false -> unchanged k (tk_applied k) b = true -> bk_applied b !! run = Some (tk_applied k) ->
  status b run = Some (ticket_status k).
Proof. intros -> Hc Hu Ha. unfold unchanged in Hu. to_prop. by apply status_Some. Qed.
Lemma finish_writes k post s h b run :
  run = eh_run_id (tk_handle k) -> status b run = Some (ticket_status k) -> forall key,
  status (with_applied run ({[tr_idempotency_key (tk_transition k)]} ∪ tk_applied k) (with_authority run post s (with_handle run h b))) key =
    if decide (key = run) then Some (advanced_status k h post s) else status b key.
Proof.
  intros -> Hs key. apply status_Some in Hs as (_ & Hp & _ & _ & _ & Hc). etransitivity; [by apply (status_advance _ _ _ _ _ _ _ (tk_plan k))|].
  by rewrite Hc.
Qed.
Lemma forget_head_fields u post :
  forget_head u = forget_head post ->
  v_sequence u = v_sequence post /\ v_state_revision u = v_state_revision post /\
  v_applied_idempotency_keys u = v_applied_idempotency_keys post /\ v_request_digest u = v_request_digest post /\
  v_prompt_release_digest u = v_prompt_release_digest post /\ v_accepted_result_digest u = v_accepted_result_digest post.
Proof.
  intros H. split_and!; [apply (f_equal v_sequence) in H|apply (f_equal v_state_revision) in H|apply (f_equal v_applied_idempotency_keys) in H
    |apply (f_equal v_request_digest) in H|apply (f_equal v_prompt_release_digest) in H|apply (f_equal v_accepted_result_digest) in H]; done.
Qed.
(** The post view counts one transition more, under the ticket's key. *)
Lemma verified_counters k pre post receipt h :
  validate_transition (tk_transition k) = Ok (tk_transition k) -> verified k pre post receipt h ->
  v_sequence post = v_sequence pre + 1 /\ v_state_revision post = v_state_revision pre + 1 /\
  v_applied_idempotency_keys post = v_applied_idempotency_keys pre ++ [tr_idempotency_key (tk_transition k)] /\
  v_request_digest post = v_request_digest pre /\ v_prompt_release_digest post = v_prompt_release_digest pre /\
  v_accepted_result_digest post = v_accepted_result_digest pre.
Proof.
  intros Ht []. destruct vf_fold0 as (a & u & _ & Hu & Hf). apply expected_fold_Ok in Hu as (_ & c & Hu); [|done..].
  pose proof (updated_view_keys _ _ _ _ Hu). apply updated_view_counters in Hu as (? & ? & ? & ? & ?).
  apply forget_head_fields in Hf as (? & ? & ? & ? & ? & ?). split_and!; congruence.
Qed.
Lemma apply_refines b k pre post receipt :
  backend_ok b -> validate_transition (tk_transition k) = Ok (tk_transition k) -> refines b (apply_finish k pre post receipt).
Proof.
  intros Hb Ht. unfold apply_finish. apply refines_lift; [done|]. intros [[h v] s] (-> & -> & Hv)%apply_verify_Ok. lifts.
  match goal with H : look _ _ = Ok ?x |- _ => apply look_Ok in H; rename x into keys end.
  assert (keys = tk_applied k) as -> by (match goal with H : unchanged _ _ _ = true |- _ => unfold unchanged in H; to_prop; done end).
  set (run := eh_run_id (tk_handle k)) in *.
  assert (Hs : status b run = Some (ticket_status k)) by by apply unchanged_status.
  pose proof (verified_counters _ _ _ _ _ Ht Hv) as (Hseq & Hrev & Hkeys & _). destruct Hv. subst pre.
  pose proof (ok_sound b Hb _ _ Hs) as [_ _ Hid _ Hk _]. simpl in *.
  apply (refines_advance b run (ticket_status k) h post (cr_post receipt) ({[tr_idempotency_key (tk_transition k)]} ∪ tk_applied k)); rewrite ?vf_handle0; simpl; try done; try lia.
  - unfold keys_of in *. rewrite Hkeys, Hk, list_to_set_app_L. set_solver.
  - set_solver.
  - by split; intros; simpl; simplify_map_eq.
  - by apply finish_writes.
Qed.
Lemma step_refines b b' : backend_ok b -> backend_step b b' -> table_step (status b) (status b') /\ backend_ok b'.
Proof.
  intros Hb Hstep. revert Hb.
  destruct Hstep as [plan v d token_id b1|token s pending b0 s' b1 Hp|token b1|plan v s b1|plan v s b1|h t k b0 pre post receipt b1 Hk|run_id b1]; intros Hb.
  - exact (prepare_refines b1 plan v d token_id Hb).
  - exact (commit_refines b1 token s' pending Hb (begun_token _ _ _ _ Hp)).
  - exact (rollback_refines b1 token Hb).
  - exact (register_refines b1 plan v s Hb).
  - exact (resume_refines b1 plan v s Hb).
  - apply begun_ticket in Hk as (_ & <- & Ht). exact (apply_refines b1 k pre post receipt Hb Ht).
  - exact (cancel_refines b1 run_id Hb).
Qed.
Definition reachable : Backend -> Prop := rtc backend_step new_backend.
Lemma reachable_ok b : reachable b -> backend_ok b.
Proof.
  intros H. pose proof new_backend_ok as H0. revert H0. induction H as [|b1 b2 b3 Hs _ IH]; [done|].
  intros Hb. by apply IH, (step_refines b1 b2).
Qed.
(** What a later state knows of a registered run. *)
Record later (r r' : Registered) : Prop := {
  lt_plan : rg_plan r' = rg_plan r;
  lt_revision : v_state_revision (rg_view r) <= v_state_revision (rg_view r');
  lt_sequence : v_sequence (rg_view r) <= v_sequence (rg_view r');
  lt_keys : rg_keys r ⊆ rg_keys r';
  lt_same : v_sequence (rg_view r') = v_sequence (rg_view r) -> (rg_view r', rg_snapshot r') = (rg_view r, rg_snapshot r);
  lt_final : rg_cancelled r = true -> r' = r }.
#[local] Instance later_preorder : PreOrder later.
Proof.
  split; [by split|]. intros r1 r2 r3 [] []. split; try lia; [congruence|set_solver| |].
  - intros Hs. rewrite lt_same1 by lia. apply lt_same0. lia.
  - intros Hc. pose proof (lt_final0 Hc) as ->. by apply lt_final1.
Qed.
Lemma table_later t t' run r : table_step t t' -> t run = Some r -> exists r', t' run = Some r' /\ later r r'.
Proof.
  intros [H|(run' & r' & Hs & H)] Hr; rewrite H; [by exists r|]. case_decide as E; [subst run'|by exists r]. exists r'. split; [done|].
  rewrite Hr in Hs. inversion Hs; subst; simpl; split; simpl; intros; try done; try lia; congruence.
Qed.
Lemma reachable_later b b' run r :
  reachable b -> rtc backend_step b b' -> status b run = Some r -> exists r', status b' run = Some r' /\ later r r'.
Proof.
  intros Hb%reachable_ok H. revert r Hb. induction H as [b1|b1 b2 b3 Hs _ IH]; intros r Hb Hr; [by exists r|].
  destruct (step_refines _ _ Hb Hs) as [Ht Hb2]. destruct (table_later _ _ _ _ Ht Hr) as (r2 & Hr2 & H2).
  destruct (IH r2 Hb2 Hr2) as (r3 & Hr3 & H3). exists r3. split; [done|by transitivity r2].
Qed.
Lemma reachable_rtc b b' : reachable b -> rtc backend_step b b' -> reachable b'.
Proof. unfold reachable. intros. by etransitivity. Qed.
(** A ticket records the registration it was issued for. *)
Lemma begun_status h t b k :
  reachable b -> (apply_begin h t b).2 = Ok k ->
  status b (eh_run_id h) = Some (ticket_status k) /\ (tr_idempotency_key t ∉ tk_applied k) /\
  tr_run_id t = eh_run_id h /\ tr_expected_state_revision t = v_state_revision (tk_view k).
Proof.
  intros Hb Hk. pose proof (begun_ticket _ _ _ _ Hk) as (<- & <- & _). unfold apply_begin, fresh_handle, fresh_transition in Hk. runs Hk.
  repeat match goal with H : look _ _ = Ok _ |- _ => apply look_Ok in H end. apply fresh_Ok in Hok as [-> _], Hok0 as [-> _].
  to_prop. injection Hk as <-. simpl in *.
  match goal with H : (tr_run_id _ =? _)%string = true |- _ => apply String.eqb_eq in H end.
  match goal with |- context [ticket_status ?k] => assert (Hs : status b (eh_run_id (tk_handle k)) = Some (ticket_status k)) by by apply status_Some end.
  pose proof (ok_sound b (reachable_ok _ Hb) _ _ Hs) as [_ _ _ Hrev _ _]. simpl in *. split_and!; try done. congruence.
Qed.
(** What a projection that ended well did. *)
Ltac step_io H := cbv beta iota delta [lift read modify mbind io_bind mret io_ret raise_when check id] in H |- *.
Lemma finish_Ok k pre post receipt b h :
  (apply_finish k pre post receipt b).2 = Ok h ->
  verified k pre post receipt h /\ status b (eh_run_id (tk_handle k)) = Some (ticket_status k) /\
  (tr_idempotency_key (tk_transition k) ∉ tk_applied k) /\
  (forall run, status (apply_finish k pre post receipt b).1 run =
    if decide (run = eh_run_id (tk_handle k)) then Some (advanced_status k h post (cr_post receipt)) else status b run).
Proof.
  unfold apply_finish. destruct (apply_verify k pre post receipt) as [[[h' v] s]|] eqn:Ev; [|done].
  apply apply_verify_Ok in Ev as (-> & -> & Hv). intros H.
  set (run := eh_run_id (tk_handle k)) in *. step_io H.
  destruct (is_cancelled run b) eqn:Ec; [done|]. step_io H.
  destruct (look (bk_applied b) run) as [keys|] eqn:Ek; [|done]. apply look_Ok in Ek. step_io H.
  destruct (bool_decide (_ ∈ keys)) eqn:Ed; [done|]. step_io H.
  destruct (unchanged k keys b) eqn:Eu; [|done]. step_io H.
  assert (keys = tk_applied k) as -> by (unfold unchanged in Eu; to_prop; done).
  apply bool_decide_eq_false in Ed. injection H as <-.
  pose proof (unchanged_status k b run eq_refl Ec Eu Ek) as Hs. split_and!; try done. by apply finish_writes.
Qed.
(** ** Properties *)
(** C6.  The backend refines its table of runs.  Whatever operations ran, and however their
    halves were interleaved: a run has a handle exactly when it has a plan, a view, a
    snapshot and a key set; the handle stands for the view, the snapshot is the verified
    binding of plan and view, and the keys are the view's; and a further step leaves the
    table alone, or registers, advances or cancels one run of it. *)
Theorem backend_refines_the_table (b : Backend) :
  reachable b ->
  (forall run r, status b run = Some r -> sound run r) /\
  (forall run, is_Some (status b run) <-> is_Some (bk_handles b !! run)) /\
  (forall run, is_Some (status b run) <-> is_Some (bk_plans b !! run)) /\
  (forall run, run ∈ bk_cancelled b -> is_Some (status b run)) /\
  (forall b', backend_step b b' -> table_step (status b) (status b')).
Proof.
  intros Hb%reachable_ok. pose proof Hb as [Hs Ha _].
  assert (Hnone : forall run, ~ is_Some (status b run) -> bk_handles b !! run = None /\ bk_plans b !! run = None /\ is_cancelled run b = false).
  { intros run Hn. apply Ha. by apply eq_None_not_Some. }
  split_and!; [done|intros run|intros run|intros run|intros b' Hstep; by apply step_refines].
  - destruct (decide (is_Some (status b run))) as [Hr|Hr]; [|destruct (Hnone _ Hr) as (E & _); rewrite E; split; [done|by intros []]].
    split; [|done]. intros [r (? & _)%status_Some]. eauto.
  - destruct (decide (is_Some (status b run))) as [Hr|Hr]; [|destruct (Hnone _ Hr) as (_ & E & _); rewrite E; split; [done|by intros []]].
    split; [|done]. intros [r (_ & ? & _)%status_Some]. eauto.
  - intros Hc. destruct (decide (is_Some (status b run))) as [Hr|Hr]; [done|]. apply Hnone in Hr as (_ & _ & Hn).
    unfold is_cancelled in Hn. by apply bool_decide_eq_false in Hn.
Qed.
(** C15.  The projected authority only moves forward, and a cancellation is final.  A registered
    run keeps its plan; its revision, its sequence and its idempotency keys never go back,
    another view or snapshot means a later sequence, and once the run is cancelled nothing
    of it changes. *)
Theorem projected_authority_is_monotone (b b' : Backend) (run : string) (r : Registered) :
  reachable b -> rtc backend_step b b' -> status b run = Some r ->
  exists r', status b' run = Some r' /\ rg_plan r' = rg_plan r /\
    v_state_revision (rg_view r) <= v_state_revision (rg_view r') /\ v_sequence (rg_view r) <= v_sequence (rg_view r') /\
    rg_keys r ⊆ rg_keys r' /\
    ((rg_view r', rg_snapshot r') <> (rg_view r, rg_snapshot r) -> v_sequence (rg_view r) < v_sequence (rg_view r')) /\
    (rg_cancelled r = true -> r' = r).
Proof.
  intros Hb Hs Hr. destruct (reachable_later _ _ _ _ Hb Hs Hr) as (r' & Hr' & []). exists r'. split_and!; try done.
  intros Hn. destruct (decide (v_sequence (rg_view r') = v_sequence (rg_view r))) as [He|]; [by apply lt_same0 in He|lia].
Qed.
(** C8.  A committed transition is projected at most once.  After a projection ended well,
    whatever runs next, no ticket of the same run with the same idempotency key is
    projected: not one that was issued before, not one issued later. *)
Theorem each_transition_is_projected_once (b b' : Backend) h h' t t' b0 b0' k k' pre pre' post post' receipt receipt' advanced :
  reachable b -> (apply_begin h t b0).2 = Ok k -> (apply_finish k pre post receipt b).2 = Ok advanced ->
  rtc backend_step (apply_finish k pre post receipt b).1 b' ->
  (apply_begin h' t' b0').2 = Ok k' -> eh_run_id h' = eh_run_id h -> tr_idempotency_key t' = tr_idempotency_key t ->
  forall advanced', (apply_finish k' pre' post' receipt' b').2 <> Ok advanced'.
Proof.
  intros Hb Hk Hf Hs Hk' Hrun Hkey advanced' Hf'.
  pose proof (begun_ticket _ _ _ _ Hk) as (Hh & Ht & _). pose proof (begun_ticket _ _ _ _ Hk') as (Hh' & Ht' & _).
  apply finish_Ok in Hf' as (_ & Hst' & Hn & _). pose proof (finish_Ok _ _ _ _ _ _ Hf) as (_ & _ & _ & Hst).
  assert (H1 : reachable (apply_finish k pre post receipt b).1).
  { eapply reachable_rtc; [exact Hb|]. eapply rtc_once, bs_apply, Hk. }
  specialize (Hst (eh_run_id (tk_handle k))). rewrite decide_True in Hst by done.
  destruct (reachable_later _ _ _ _ H1 Hs Hst) as (r' & Hr' & Hl). rewrite Hh, <- Hrun, <- Hh', Hst' in Hr'. injection Hr' as <-.
  apply Hn. rewrite Ht', Hkey, <- Ht. apply (lt_keys _ _ Hl). simpl. set_solver.
Qed.
Lemma verified_snapshot plan view s x : validated_snapshot plan view s = Ok x -> verifies (SnapshotAuthority s) = true.
Proof.
  unfold validated_snapshot, verify_authority, fresh_snapshot. intros H. apply bind_Ok in H as ([p v] & _ & H).
  apply bind_Ok in H as (s' & Hs & H). apply fresh_Ok in Hs as [-> _]. apply bind_Ok in H as (? & _ & H).
  apply bind_Ok in H as (? & Hv & _). by apply bind_Ok in Hv as (? & _ & Hv%check_Ok).
Qed.
(** C7.  The projection follows the state machine.  A transition is projected only at the
    revision the run is registered at, under a verified receipt that names the transition
    and whose endpoints are the verified snapshots of the two folds, by a committed
    authority; the state machine allows it, and what is registered for the run afterwards
    is what the state machine makes of the registered view, under the advanced handle. *)
Theorem projection_follows_the_state_machine (b : Backend) h t b0 k pre post receipt advanced :
  reachable b0 -> reachable b -> (apply_begin h t b0).2 = Ok k -> (apply_finish k pre post receipt b).2 = Ok advanced ->
  exists r r' a u,
    status b (eh_run_id h) = Some r /\ status (apply_finish k pre post receipt b).1 (eh_run_id h) = Some r' /\
    rg_handle r = h /\ rg_view r = pre /\ rg_cancelled r = false /\ (tr_idempotency_key t ∉ rg_keys r) /\
    tr_expected_state_revision t = v_state_revision pre /\ transition_digest t = cr_transition_digest receipt /\
    Forall (fun x => verifies x = true)
      [ReceiptAuthority receipt; SnapshotAuthority (cr_pre receipt); SnapshotAuthority (cr_post receipt)] /\
    authorization t pre = Ok a /\
    HarnessStateMachine.apply {| in_candidate := Transition t; in_view := pre; in_authorization := Some a; in_retry := None; in_resolution := None |} = Ok u /\
    forget_head u = forget_head post /\
    rg_handle r' = advanced /\ rg_plan r' = rg_plan r /\ rg_view r' = post /\ rg_snapshot r' = cr_post receipt /\
    rg_keys r' = {[tr_idempotency_key t]} ∪ rg_keys r /\ eh_routed_state advanced = Some (route_target t post).
Proof.
  intros Hb0 Hb Hk Hf. pose proof (begun_ticket _ _ _ _ Hk) as (Hh & Ht & _).
  pose proof (begun_status _ _ _ _ Hb0 Hk) as (_ & _ & _ & Hrev).
  apply finish_Ok in Hf as (Hv & Hs & Hn & Hst). specialize (Hst (eh_run_id (tk_handle k))). rewrite decide_True in Hst by done.
  destruct Hv. destruct vf_fold0 as (a & u & Ha & Hu & Hf). rewrite Ht in *. rewrite Hh in *.
  exists (ticket_status k), (advanced_status k advanced post (cr_post receipt)), a, u. simpl. rewrite Ht, vf_handle0. simpl.
  pose proof (ok_sound b (reachable_ok _ Hb) _ _ Hs) as [Hpre _ _ _ _ _]. simpl in Hpre.
  apply verified_snapshot in Hpre, vf_post0. rewrite vf_pre_snapshot0 in Hpre.
  unfold expected_fold in Hu. destruct (HarnessStateMachine.apply _) eqn:E; [|done]. injection Hu as ->.
  rewrite vf_handle0 in Hst. split_and!; try done; [congruence|by repeat constructor].
Qed.
(** Only interference refuses a verified transition.  When the unlocked part of
    [apply_committed_transition] succeeds, its second half succeeds exactly when the run is
    still registered as its first half found it. *)
Theorem only_interference_refuses_a_verified_transition (b : Backend) h t b0 k pre post receipt x :
  reachable b0 -> reachable b -> (apply_begin h t b0).2 = Ok k -> apply_verify k pre post receipt = Ok x ->
  is_ok (apply_finish k pre post receipt b).2 = true <-> status b (eh_run_id h) = status b0 (eh_run_id h).
Proof.
  intros Hb0 Hb Hk Hv. pose proof (begun_status _ _ _ _ Hb0 Hk) as (-> & Hn & _).
  pose proof (begun_ticket _ _ _ _ Hk) as (<- & <- & _). split.
  - destruct (apply_finish k pre post receipt b).2 eqn:E; [|done]. by apply finish_Ok in E as (_ & ? & _).
  - intros (Hh & Hp & Hw & Hs & Ha & Hc)%status_Some. simpl in *. unfold apply_finish. rewrite Hv. destruct x as [[adv v] s].
    cbv beta iota delta [lift read modify mbind io_bind mret io_ret raise_when check id]. rewrite Hc.
    unfold look, unchanged. rewrite Ha, (bool_decide_false _ Hn), Hh, Hp, Hw, Hs. by rewrite !bool_decide_true.
Qed.
(** ** Views that only observe, and transitions that pin *)
(** An event that is neither an authority record nor a transition. *)
Definition observation (e : HarnessEvent) : Prop :=
  authority_of e = None /\ ownership_of e = None /\ resolution_of e = None /\ ev_transition e = None.
Lemma observed_view v e v' :
  observation e -> is_Some (v_run_id v) -> apply_committed_event v e = Ok v' ->
  v' = set_cursor v (ev_sequence e) (v_run_id v) (v_trace_id v) (ev_event_hash e).
Proof.
  intros (H1 & H2 & H3 & H4) [run Hr]. unfold apply_committed_event. rewrite H1, H2, H3, H4, Hr. intros H. inv_ok H.
  inv_ok Hok. apply check_Ok in Hok1, Hok2. to_prop. subst. simpl. by rewrite Hok2.
Qed.
Lemma longer_irrefl {A} (l : list A) : longer l l = false.
Proof. unfold longer. apply Nat.ltb_irrefl. Qed.
(** C16.  An observation blocks the run.  Once an event that is neither an authority nor a
    transition was folded over the view a run is registered at, as [record_checkpoint],
    [cancel] and a rejected candidate append them, [resume] refuses the new view with
    [StaleExecutionSnapshotError], however well it is signed, and changes nothing. *)
Theorem an_observation_blocks_resumption (b : Backend) run r e v' s' x :
  reachable b -> status b run = Some r -> rg_cancelled r = false ->
  observation e -> ev_sequence e <> v_sequence (rg_view r) -> apply_committed_event (rg_view r) e = Ok v' ->
  validated_snapshot (rg_plan r) v' s' = Ok x ->
  resume (rg_plan r) v' s' b =
    (b, Raise (StaleExecutionSnapshotError "same-revision snapshot is not an append-only authority extension")).
Proof.
  intros Hb Hr Hc He Hseq Hv Hs. pose proof (ok_sound b (reachable_ok _ Hb) _ _ Hr) as [Hau Hrun _ _ _ _].
  assert (Hid : is_Some (v_run_id (rg_view r))).
  { apply bind_Ok in Hau as (x0 & Hau & _). unfold validate_plan_view, fresh_view in Hau. inv_ok Hau. apply fresh_Ok in Hok0 as [-> _].
    apply check_Ok in Hok1. destruct (v_run_id (rg_view r)); [done|]. by to_prop. }
  apply observed_view in Hv as ->; [|done..]. destruct x as [[p v] s]. pose proof (validated_snapshot_Ok _ _ _ _ _ _ Hs) as ([= -> -> ->] & _).
  apply status_Some in Hr as (Hh & Hp & Hw & Hsn & Hk & Hca).
  unfold resume. rewrite Hs. cbv beta iota delta [lift read modify mbind io_bind mret io_ret raise_when check id].
  rewrite Hrun, Hca, Hc, Hp, bool_decide_true, Hh, Hw, Hsn, Hk by done. cbn [v_state_revision set_cursor]. rewrite Z.ltb_irrefl, Z.eqb_refl.
  rewrite bool_decide_false by (intros E%(f_equal v_sequence); simpl in E; congruence). simpl.
  unfold is_same_revision_authority_extension. destruct (_ || _ || _); [done|]. destruct (negb _); [done|].
  by rewrite !longer_irrefl, !andb_false_r.
Qed.
Lemma digests_kept x y :
  validate_view x = Ok y -> (is_Some (v_prompt_release_digest x) -> is_Some (v_prompt_release_digest y)) /\
                            (is_Some (v_accepted_result_digest x) -> is_Some (v_accepted_result_digest y)).
Proof.
  unfold validate_view. rewrite model_Ok. intros [H _]. unfold clean_view in H. inv_ok H. subst y. simpl.
  split; intros [d Hd].
  - rewrite Hd in *. match goal with H : optional Digest (Some d) = Ok ?o |- is_Some ?o => simpl in H; by apply fmap_Ok in H as (? & _ & ->) end.
  - rewrite Hd in *. match goal with H : optional Digest (Some d) = Ok ?o |- is_Some ?o => simpl in H; by apply fmap_Ok in H as (? & _ & ->) end.
Qed.
(** A transition event that puts a digest where the view has none. *)
Definition pins (v : HarnessSessionView) (e : HarnessEvent) : Prop :=
  (v_prompt_release_digest v = None /\ exists d, payload_get e "prompt_release_digest" = Some (JStr d)) \/
  (v_accepted_result_digest v = None /\ exists d, payload_get e "accepted_result_digest" = Some (JStr d)).
Lemma pinned_views v e t run trace post :
  pins v e -> apply_transition_event v e t run trace = Ok post ->
  v_prompt_release_digest post <> v_prompt_release_digest v \/ v_accepted_result_digest post <> v_accepted_result_digest v.
Proof.
  intros Hp H. unfold apply_transition_event in H. inv_ok H. apply except_as_Ok in H. inv_ok H. apply digests_kept in H as [H1 H2].
  simpl in H1, H2. destruct Hp as [[Hn [d Hd]]|[Hn [d Hd]]]; [left; clear H2; rename H1 into Hk|right; clear H1; rename H2 into Hk];
    rewrite Hn, Hd in *; match goal with H : pinned_digest None (Some (JStr d)) _ = Ok _ |- _ => injection H as <- end;
    match goal with H : digest_field (Some (JStr d)) = Ok _ |- _ => injection H as <- end;
    destruct Hk as [? ->]; by eauto.
Qed.
(** A transition that pins a digest is never projected.  The fold of its event records the
    prompt release or the accepted result in the view; the state machine, whose answer the
    backend compares the new view with, does not know the event: whatever the receipt, the
    backend refuses the transition. *)
Theorem pinning_transitions_are_never_projected (b : Backend) h t b0 k e pre post receipt :
  (apply_begin h t b0).2 = Ok k -> authority_of e = None -> ownership_of e = None -> resolution_of e = None -> is_Some (ev_transition e) ->
  pins pre e -> apply_committed_event pre e = Ok post ->
  is_ok (apply_finish k pre post receipt b).2 = false.
Proof.
  intros Hk H1 H2 H3 [t' Ht'] Hp Hf. apply never_Ok. intros advanced (Hv & _)%finish_Ok.
  pose proof (begun_ticket _ _ _ _ Hk) as (_ & <- & Ht).
  apply (verified_counters _ _ _ _ _ Ht) in Hv as (_ & _ & _ & _ & Hpr & Hac).
  unfold apply_committed_event in Hf. rewrite H1, H2, H3, Ht' in Hf. apply bind_Ok in Hf as ([run trace] & _ & Hf).
  by apply (pinned_views _ _ _ _ _ _ Hp) in Hf as [].
Qed.
End ExecutionBackend.

(** ** A registered run, an authorised transition and its projection *)
Module BackendExample.
Definition plan : HarnessPlan :=
  Eval vm_compute in let p := sample_plan [sample_item "a" T_TECHNICAL []] in unwrap p (validate_plan p).
Definition digest_of (c : ascii) : string := string_of_list_ascii (replicate 64 c).
Definition signature : string := String.concat "" (replicate 8 zero_digest).
Definition admission : HarnessTransition := sample_transition E_run "run-1" "created" "admitted" "key-1" 1.
Definition authority : TransitionAuthorityRecord := authority_record admission (sample_authorization E_run "run-1" 1).
Definition created_view : HarnessSessionView :=
  {| v_sequence := 2; v_state_revision := 1; v_plan_revision := 0; v_run_id := Some "run-1"; v_trace_id := Some "trace-1";
     v_request_digest := None; v_prompt_release_digest := None; v_accepted_result_digest := None; v_run_state := Some R_CREATED;
     v_outcome := None; v_work_item_states := []; v_attempt_states := []; v_dependency_versions := [];
     v_transition_authorities := [authority]; v_attempt_work_item_owners := []; v_reconciliation_resolutions := [];
     v_applied_idempotency_keys := ["key-0"]; v_external_side_effect_unknown := false; v_last_event_hash := Some (digest_of "1") |}.
Definition event (sequence revision : Z) (p : list (string * Json)) (t : option HarnessTransition) (hash : ascii) : HarnessEvent :=
  {| ev_schema_version := "v1"; ev_event_id := "e"; ev_trace_id := "trace-1"; ev_span_id := "span"; ev_parent_span_id := None;
     ev_run_id := "run-1"; ev_work_item_id := None; ev_attempt_id := None; ev_sequence := sequence; ev_state_revision := revision;
     ev_event_type := "harness"; ev_occurred_at := utc 0; ev_monotonic_offset := 0; ev_actor := "harness"; ev_payload := p;
     ev_transition := t; ev_transition_authority := None; ev_attempt_ownership := None; ev_reconciliation_resolution := None;
     ev_previous_event_hash := None; ev_event_hash := Some (digest_of hash) |}.
Definition fold (e : HarnessEvent) : HarnessSessionView := unwrap created_view (apply_committed_event created_view e).
Definition admitted_event : HarnessEvent := event 3 2 [] (Some admission) "2".
Definition admitted_view : HarnessSessionView := Eval vm_compute in fold admitted_event.
Definition pinning_event : HarnessEvent := event 3 2 [("prompt_release_digest", JStr zero_digest)] (Some admission) "2".
Definition pinned_view : HarnessSessionView := Eval vm_compute in fold pinning_event.
Definition rejected_event : HarnessEvent := event 3 1 [("policy", JStr "strict_candidate_schema")] None "3".
Definition rejected_view : HarnessSessionView := Eval vm_compute in fold rejected_event.
Definition snapshot_of (v : HarnessSessionView) : CommittedExecutionSnapshot :=
  {| cs_run_id := "run-1"; cs_trace_id := "trace-1"; cs_plan_id := pl_plan_id plan; cs_plan_digest := zero_digest; cs_plan_revision := 0;
     cs_sequence := v_sequence v; cs_state_revision := v_state_revision v; cs_view_digest := zero_digest;
     cs_event_head_hash := default "" (v_last_event_hash v); cs_folded_view := Some v; cs_trust_key_id := "host-rsa-2026-01";
     cs_signature := signature |}.
Definition receipt_of (post : HarnessSessionView) : CommittedTransitionReceipt :=
  {| cr_pre := snapshot_of created_view; cr_post := snapshot_of post; cr_transition_digest := zero_digest;
     cr_trust_key_id := "host-rsa-2026-01"; cr_signature := signature |}.
(** Digests that do not tell values apart, and a verifier that trusts everyone. *)
Definition flat {A} (_ : A) : string := zero_digest.
Definition trusts (_ : Authority) : bool := true.
Definition routes (target : string) : result (option string) := Ok (Some target).
Abbreviation step := (backend_step flat flat flat trusts routes).
Abbreviation reached := (reachable flat flat flat trusts routes).
Abbreviation finish := (apply_finish flat flat flat trusts routes).
Definition handle : ExecutionHandle := handle_from_view plan created_view.
Definition registered : Backend := (register flat flat trusts plan created_view (snapshot_of created_view) new_backend).1.
Definition ticket : Ticket :=
  {| tk_handle := handle; tk_transition := admission; tk_plan := plan; tk_view := created_view; tk_snapshot := snapshot_of created_view;
     tk_applied := {["key-0"]} |}.
Definition advanced : ExecutionHandle :=
  {| eh_run_id := "run-1"; eh_trace_id := "trace-1"; eh_plan_id := pl_plan_id plan; eh_plan_revision := 0; eh_state_revision := 2;
     eh_routed_state := Some "admitted"; eh_cancelled := false |}.
Definition projected : Backend := (finish ticket created_view admitted_view (receipt_of admitted_view) registered).1.
Lemma registered_handle : (register flat flat trusts plan created_view (snapshot_of created_view) new_backend).2 = Ok handle.
Proof. vm_compute. reflexivity. Qed.
Lemma registered_status : status registered "run-1" = Some (ticket_status ticket).
Proof. vm_compute. reflexivity. Qed.
Lemma ticket_begun : (apply_begin handle admission registered).2 = Ok ticket.
Proof. vm_compute. reflexivity. Qed.
Lemma admission_projected : (finish ticket created_view admitted_view (receipt_of admitted_view) registered).2 = Ok advanced.
Proof. vm_compute. reflexivity. Qed.
Lemma registered_reachable : reached registered.
Proof. eapply rtc_once, bs_register. Qed.
Lemma projected_reachable : reached projected.
Proof. eapply rtc_r; [apply registered_reachable|]. eapply bs_apply, ticket_begun. Qed.
(** A 1024-bit key, a digest, and the signature of the digest under the key. *)
Definition modulus : Z :=
  0xfa529ba3fe3bfada7cf20724d953ee261d87cec31f7296ab7961fd925d39d0a89a2ef80f58ee8571f4998d7c4093f6dea268aa872607679d6050914a9d33a01c353c631cdfd43f371200339d068739fa9d1de2a05d158a2ff2ee4e4519f9919c895fd7b326b94c7f9118bb16000f49c81a358ca00d75985d99c94309570dc195.
Definition signed : string :=
  "91421223d09ebfe2ffff7ff91731863051fcbf7218a3c53648dbbf72908627461696e25526ab468566a7b5fbce5b3b6b7fb712b9df9384bbeca0864a863500168e37b9799743bb476a4dc4a231c3442780b6ed72b110fc6d77d5c3ffd8b7139fb9b182560ef13a4c05d57edb033c1e9e31478683453975e068d3eec63f0958c7".
Definition keys : PinnedKeys := [("host-rsa-2026-01", (modulus, 65537))].
Definition digest (_ : string) : list Z := replicate 32 7.
Definition signed_at (sequence : Z) : Authority :=
  SnapshotAuthority
    {| cs_run_id := "run-1"; cs_trace_id := "trace-1"; cs_plan_id := "plan"; cs_plan_digest := zero_digest; cs_plan_revision := 0;
       cs_sequence := sequence; cs_state_revision := 0; cs_view_digest := zero_digest; cs_event_head_hash := zero_digest;
       cs_folded_view := None; cs_trust_key_id := "host-rsa-2026-01"; cs_signature := signed |}.
Lemma signature_verifies : verify digest (fun _ => "") keys (signed_at 1) = true.
Proof. vm_compute. reflexivity. Qed.
Lemma reused_signature_verifies : verify digest (fun _ => "") keys (signed_at 2) = true.
Proof. vm_compute. reflexivity. Qed.
Lemma a_signature_binds_one_digest_witness : digest ((fun _ : Authority => "") (signed_at 2)) = digest "".
Proof.
  apply (a_signature_binds_one_digest digest (fun _ => "") keys (signed_at 1) (signed_at 2));
    [done|apply signature_verifies|apply reused_signature_verifies|done|done].
Defined.
Lemma backend_refines_the_table_witness : table_step flat flat trusts (status registered) (status projected).
Proof. apply (backend_refines_the_table flat flat flat trusts routes registered registered_reachable). eapply bs_apply, ticket_begun. Defined.
Lemma projected_authority_is_monotone_witness : exists r', status projected "run-1" = Some r' /\ 2 <= v_sequence (rg_view r').
Proof.
  assert (H : rtc step registered projected) by (eapply rtc_once, bs_apply, ticket_begun).
  destruct (projected_authority_is_monotone flat flat flat trusts routes registered projected "run-1" (ticket_status ticket)
              registered_reachable H registered_status) as (r' & Hr & _ & _ & Hs & _). exists r'. split; [exact Hr|exact Hs].
Defined.
Lemma each_transition_is_projected_once_witness :
  (finish ticket created_view admitted_view (receipt_of admitted_view) projected).2 <> Ok advanced.
Proof.
  apply (each_transition_is_projected_once flat flat flat trusts routes registered projected handle handle admission admission registered registered
           ticket ticket created_view created_view admitted_view admitted_view (receipt_of admitted_view) (receipt_of admitted_view) advanced);
    [apply registered_reachable|apply ticket_begun|apply admission_projected|apply rtc_refl|apply ticket_begun|reflexivity|reflexivity].
Defined.
Lemma projection_follows_the_state_machine_witness :
  exists r', status projected "run-1" = Some r' /\ rg_view r' = admitted_view /\ rg_handle r' = advanced.
Proof.
  destruct (projection_follows_the_state_machine flat flat flat trusts routes registered handle admission registered ticket created_view
              admitted_view (receipt_of admitted_view) advanced registered_reachable registered_reachable ticket_begun admission_projected)
    as (r & r' & a & u & _ & Hr' & _ & _ & _ & _ & _ & _ & _ & _ & _ & _ & Hh & _ & Hv & _).
  exists r'. split; [exact Hr'|]. split; [exact Hv|exact Hh].
Defined.
Lemma admission_verifies :
  apply_verify flat flat flat trusts routes ticket created_view admitted_view (receipt_of admitted_view) =
  Ok (advanced, admitted_view, snapshot_of admitted_view).
Proof. vm_compute. reflexivity. Qed.
Lemma only_interference_refuses_a_verified_transition_witness :
  is_ok (finish ticket created_view admitted_view (receipt_of admitted_view) registered).2 = true.
Proof.
  apply (only_interference_refuses_a_verified_transition flat flat flat trusts routes registered handle admission registered ticket created_view
           admitted_view (receipt_of admitted_view) (advanced, admitted_view, snapshot_of admitted_view)
           registered_reachable registered_reachable ticket_begun admission_verifies).
  reflexivity.
Defined.
Lemma rejected_folds : apply_committed_event created_view rejected_event = Ok rejected_view.
Proof. vm_compute. reflexivity. Qed.
Lemma rejected_snapshot : validated_snapshot flat flat trusts plan rejected_view (snapshot_of rejected_view) = Ok (plan, rejected_view, snapshot_of rejected_view).
Proof. vm_compute. reflexivity. Qed.
Lemma rejected_observes : observation rejected_event.
Proof. by repeat split. Qed.
Lemma an_observation_blocks_resumption_witness :
  resume flat flat trusts plan rejected_view (snapshot_of rejected_view) registered =
    (registered, Raise (StaleExecutionSnapshotError "same-revision snapshot is not an append-only authority extension")).
Proof.
  apply (an_observation_blocks_resumption flat flat flat trusts routes registered "run-1" (ticket_status ticket) rejected_event rejected_view
           (snapshot_of rejected_view) (plan, rejected_view, snapshot_of rejected_view));
    [apply registered_reachable|apply registered_status|reflexivity|apply rejected_observes|discriminate|apply rejected_folds|apply rejected_snapshot].
Defined.
Lemma pinning_folds : apply_committed_event created_view pinning_event = Ok pinned_view.
Proof. vm_compute. reflexivity. Qed.
Lemma pinning_pins : pins created_view pinning_event.
Proof. left. split; [reflexivity|]. exists zero_digest. reflexivity. Qed.
Lemma pinning_transitions_are_never_projected_witness :
  is_ok (finish ticket created_view pinned_view (receipt_of pinned_view) registered).2 = false.
Proof.
  apply (pinning_transitions_are_never_projected flat flat flat trusts routes registered handle admission registered ticket pinning_event
           created_view pinned_view (receipt_of pinned_view));
    [apply ticket_begun|reflexivity|reflexivity|reflexivity|exists admission; reflexivity|apply pinning_pins|apply pinning_folds].
Defined.
End BackendExample.
