(* ===== verification/KernelRun.v ===== *)
(** * A kernel at work

    A run of the kernel on concrete collaborators: digests that tell numbers apart, a
    codec of numbers, a backend that may crash, the confidence gate of [ConfidenceGate]'s
    example.  It shows that the hypotheses of the kernel's theorems hold somewhere, and
    what the code does after a restart, a repeated candidate and a crash. *)
From stdpp Require Import pretty.
From Stdlib Require Import QArith.
From S2P Require Import LoopGuard ConfidenceGate WorkflowBudget.
From S2P Require Import Prelude PyStrings PyDict PyTime PyFloat PyJson PyModel PyDecimal HarnessContracts HarnessStateMachine HarnessSession.
From S2P Require Import WorkflowPricing WorkflowObservation HarnessCheckpoints HarnessBudget ExecutionBackend HarnessKernel.
Local Open Scope string_scope.
Local Open Scope list_scope.
Local Open Scope Z_scope.
Module KernelRun.
(** Digests that tell numbers apart, and texts that are numbers. *)
Definition zeros : string := zero_digest.
Definition hex_of (n : Z) : string :=
  let d := pretty n in substring 0 (64 - String.length d) zeros +:+ d.
Fixpoint number_from (acc : Z) (s : string) : option Z :=
  match s with
  | EmptyString => Some acc
  | String c s => if is_digit c then number_from (acc * 10 + Z.of_nat (nat_of_ascii c) - 48) s else None
  end.
Definition loads (s : string) : option Json :=
  match s with "plan" => Some (JStr s) | _ => JInt <$> number_from 0 s end.
Definition dumps (j : Json) : string := match j with JInt n => pretty n | JStr s => s | _ => "json" end.
Definition plan (kind : TaskKind) : HarnessPlan :=
  let p := sample_plan [sample_item "a" T_TECHNICAL []] in
  {| pl_plan_id := "plan"; pl_run_id := "run-1"; pl_trace_id := "trace-1"; pl_template_id := "t"; pl_revision := 0; pl_mode := M_ACTIVE;
     pl_task_kind := kind; pl_risk_class := K_TRADING; pl_pinned_versions := pl_pinned_versions p; pl_stages := pl_stages p;
     pl_workers := pl_workers p; pl_work_items := pl_work_items p; pl_allows_side_effects := false |}.
Definition signature : string := String.concat "" (replicate 8 zeros).
Definition snapshot_at (sequence revision : Z) (view : option HarnessSessionView) : CommittedExecutionSnapshot :=
  {| cs_run_id := "run-1"; cs_trace_id := "trace-1"; cs_plan_id := "plan"; cs_plan_digest := zeros; cs_plan_revision := 0;
     cs_sequence := sequence; cs_state_revision := revision; cs_view_digest := zeros; cs_event_head_hash := hex_of sequence;
     cs_folded_view := view; cs_trust_key_id := "host-rsa-2026-01"; cs_signature := signature |}.
Definition codec (kind : TaskKind) : Codec :=
  {| k_tool_price := None; k_loads := loads; k_dumps := dumps; k_dumps_ascii := dumps; k_json_digest := fun _ => zeros;
     k_read_checkpoint := fun _ => None; k_checkpoint_json := fun _ => JNull; k_read_permit := fun _ => None;
     k_permit_json := fun _ => JNull; k_read_usage := fun _ => None; k_usage_json := fun _ => JNull;
     k_read_snapshot := fun s => (fun n => snapshot_at (n / 1000) (n mod 1000) None) <$> number_from 0 s;
     k_snapshot_json := fun s => JInt (cs_sequence s * 1000 + cs_state_revision s);
     k_read_plan := fun s => if String.eqb s "plan" then Some (plan kind) else None; k_plan_text := fun _ => "plan";
     k_plan_digest := fun _ => zeros; k_view_digest := fun _ => zeros; k_transition_digest := fun _ => zeros;
     k_verify_snapshot := fun _ => true; k_clean_payload := Ok; k_sha256 := fun _ => zeros; k_event_hash := fun e => hex_of (ev_sequence e) |}.
Definition fold_run (kind : TaskKind) (st : Store) : result HarnessSessionView :=
  events ← load (k_clean_payload (codec kind)) st "run-1"; fold_events (k_clean_payload (codec kind)) (k_event_hash (codec kind)) events.
Definition issue (kind : TaskKind) (st : Store) : result CommittedExecutionSnapshot :=
  v ← fold_run kind st; Ok (snapshot_at (v_sequence v) (v_state_revision v) (Some v)).
Definition clock : WorkflowBudget.Reading := Some (float_int 100).
Definition some_handle : ExecutionHandle :=
  {| eh_run_id := "run-1"; eh_trace_id := "trace-1"; eh_plan_id := "plan"; eh_plan_revision := 0; eh_state_revision := 0;
     eh_routed_state := None; eh_cancelled := false |}.
Definition descriptor : IssuerTrustDescriptor := 
  {| td_trust_version := ExecutionBackend._TRUST_VERSION; td_trust_config_digest := ExecutionBackend._EXPECTED_TRUST_CONFIG_DIGEST;
     td_key_id := "host-rsa-2026-01" |}.
Definition token : RegistrationPreparation :=
  {| rp_token_id := zeros; rp_run_id := "run-1"; rp_trace_id := "trace-1"; rp_plan_id := "plan"; rp_plan_digest := zeros;
     rp_plan_revision := 0; rp_provisional_view_digest := zeros; rp_provisional_sequence := 0; rp_provisional_state_revision := 0;
     rp_issuer := descriptor |}.
(** The collaborators' state counts the identifiers; [crash] makes the backend's
    [resume] raise once that many were given. *)
Record World := { wo_next : Z; wo_crash : option Z }.
Definition fresh_id (purpose : string) : io World (option string) := fun w =>
  ({| wo_next := wo_next w + 1; wo_crash := wo_crash w |}, Ok (Some (purpose +:+ "-" +:+ pretty (wo_next w)))).
Definition resume_ : io World ExecutionHandle := fun w =>
  if match wo_crash w with Some n => n <=? wo_next w | None => false end then (w, Raise (Exn "ExecutionBackendUnavailableError" "gone"))
  else (w, Ok some_handle).
Definition environment (kind : TaskKind) : Environment World :=
  {| en_codec := codec kind; en_pinned_versions := pl_pinned_versions (plan kind); en_severity_policy := LoopGuard.default_policy;
     en_loop_digest := fun _ => zeros; en_confidence_verify := ConfidenceGate.GateExample.accepts;
     en_candidate_digest := fun _ => zeros; en_action_json := fun _ => "action"; en_read_action := fun _ => None;
     en_checkpoint_json := fun _ => "checkpoint"; en_read_checkpoint := fun _ => None;
     en_loop_guard := mret (Some LoopGuard.fresh_guard);
     en_confidence_gate := fun _ => mret (Some (ConfidenceGate.new_gate (Some ConfidenceGate.GateExample.policy)
                                                  (Some (ConfidenceGate.GateExample.context true)) true));
     en_budget := fun mode => lift (Some <$> WorkflowBudget.new_ledger mode 1 clock);
     en_ledger_clock := mret clock;
     en_new_reservation := fun w => ({| wo_next := wo_next w + 1; wo_crash := wo_crash w |}, Ok ("res-" +:+ pretty (wo_next w), wo_next w));
     en_utc_now := mret (Some (utc 0)); en_monotonic := mret (Some 0%Q); en_new := fresh_id;
     en_issuer_ready := mret (Some true); en_trust_descriptor := mret descriptor;
     en_issue_snapshot := fun _ st => lift (issue kind st);
     en_issue_transition_receipt := fun _ _ pre st => lift (
       events ← load Ok st "run-1";
       v0 ← fold_events Ok (fun e => hex_of (ev_sequence e)) (take (Z.to_nat pre) events);
       v1 ← fold_events Ok (fun e => hex_of (ev_sequence e)) (take (Z.to_nat pre + 1) events);
       Ok {| cr_pre := snapshot_at (v_sequence v0) (v_state_revision v0) (Some v0);
             cr_post := snapshot_at (v_sequence v1) (v_state_revision v1) (Some v1);
             cr_transition_digest := zeros; cr_trust_key_id := "host-rsa-2026-01"; cr_signature := signature |});
     en_verify_receipt := fun _ => true;
     en_prepare_registration := fun _ _ _ => mret token; en_commit_registration := fun _ _ => mret tt;
     en_rollback_registration := fun _ => mret tt; en_resume := fun _ _ _ => resume_;
     en_apply := fun _ _ _ _ _ => mret tt; en_cancel := fun _ => mret tt |}.
Definition request (kind : TaskKind) : WorkflowRequest World :=
  {| wq_workflow_id := "run-1"; wq_trace_id := "trace-1"; wq_request_digest := zeros; wq_compile := mret (plan kind) |}.
Definition new_kernel (st : Store) (w : World) : Kernel World := Build_Kernel st ∅ ∅ ∅ ∅ w.
Definition plain (candidate : CandidateArgument) : AdvanceArguments :=
  {| aa_candidate := candidate; aa_workflow_usage := None; aa_observed_execution := false; aa_prompt_release_digest := None;
     aa_accepted_result_digest := None; aa_expected_state_revision := None |}.
Definition evidence : CandidateArgument :=
  CA_dict false (Some {| ac_confidence_observation := Some (ConfidenceGate.GateExample.observation true);
                         ac_confidence_artifact := Some (ConfidenceGate.GateExample.artifact 200);
                         ac_loop_checkpoint := None; ac_action_observation := None |}).
Definition start : Kernel World := new_kernel empty_store {| wo_next := 0; wo_crash := None |}.
Definition created kind := create (environment kind) (request kind) start.
Fixpoint drive (kind : TaskKind) (args : list AdvanceArguments) (s : Kernel World) : list (result HarnessDecision) * Kernel World :=
  match args with
  | [] => ([], s)
  | a :: args => let '(s, r) := advance (environment kind) a "run-1" s in
                 let '(rs, s) := drive kind args s in (r :: rs, s)
  end.
Definition shown (r : result HarnessDecision) : result (RunState * string * bool * Z) :=
  d ← r; Ok (hd_run_state d, hd_reason_code d, hd_no_trade d, hd_sequence d).


Definition nothing : AdvanceArguments := plain CA_none.
(** A restart keeps the store; [crash] arms the backend. *)
Definition restart (crash : option Z) (s : Kernel World) : Kernel World :=
  new_kernel (kn_store s) {| wo_next := wo_next (kn_world s); wo_crash := crash |}.

(** ** A run that succeeds *)
Definition running : Kernel World :=
  Eval vm_compute in (drive T_INFORMATIONAL [nothing; nothing; nothing; nothing] (created T_INFORMATIONAL).1).2.
Definition summarizing : list (result HarnessDecision) * Kernel World := Eval vm_compute in drive T_INFORMATIONAL [plain evidence] running.
Definition finished : list (result HarnessDecision) * Kernel World := Eval vm_compute in drive T_INFORMATIONAL [nothing] summarizing.2.
Definition got {A} (a : A) (r : result A) : A := match r with Ok a => a | Raise _ => a end.
Definition stream : list HarnessEvent := Eval vm_compute in got [] (load Ok (kn_store finished.2) "run-1").
Definition whole_run : list (result HarnessDecision) * Kernel World :=
  drive T_INFORMATIONAL [nothing; nothing; nothing; nothing; plain evidence; nothing] (created T_INFORMATIONAL).1.
Lemma the_run_succeeds :
  (shown <$> whole_run.1, load Ok (kn_store whole_run.2) "run-1") =
  ([Ok (R_ADMITTED, "request_admitted", false, 3); Ok (R_PLANNED, "plan_committed", false, 5); Ok (R_READY, "dependencies_ready", false, 7);
    Ok (R_RUNNING, "execution_started", false, 9); Ok (R_SUMMARIZING, "confidence_sufficient", false, 12); Ok (R_SUCCEEDED, "completed", false, 14)],
   Ok stream).
Proof. vm_compute. reflexivity. Qed.

(** ** What a restart loses *)
(** The same run of technical analysis cannot go on after a restart: its settlement was
    priced with the first model of its policy, and is replayed with another. *)
Definition technical : Kernel World :=
  Eval vm_compute in (drive T_TECHNICAL [nothing; nothing; nothing; nothing; plain evidence] (created T_TECHNICAL).1).2.
Example a_restarted_technical_run_is_stuck :
  shown <$> (drive T_TECHNICAL [nothing] (restart None technical)).1 =
    [Raise (HarnessDependencyError "budget settlement cost is inconsistent")].
Proof. vm_compute. reflexivity. Qed.
(** A candidate that was committed is answered with its decision while the run is where
    it left it, and with an exception of the decision's own contract once the run moved on. *)
Example a_repeated_candidate_is_answered_once :
  shown <$> (drive T_INFORMATIONAL [plain evidence] summarizing.2).1 ++ (drive T_INFORMATIONAL [plain evidence] finished.2).1 =
    [Ok (R_SUMMARIZING, "confidence_sufficient", false, 12); Raise (ValueError "decision reason and run state are inconsistent")].
Proof. vm_compute. reflexivity. Qed.

(** ** What a crash leaves *)
(** The backend's failure after the authority was committed and before its transition. *)
Definition crashed : list (result HarnessDecision) * Kernel World :=
  Eval vm_compute in drive T_INFORMATIONAL [plain evidence] (restart (Some (wo_next (kn_world running) + 3)) running).
(** Cancelling the run then fails, after its intent was recorded; and the next advance
    completes the pending authority: the run goes on to its success all the same. *)
Definition cancel_then (args : list AdvanceArguments) (s : Kernel World) : list (result (RunState * string * bool * Z)) :=
  let '(s, r) := cancel (environment T_INFORMATIONAL) "stop" "run-1" s in
  shown r :: map shown (drive T_INFORMATIONAL args s).1.
Example a_pending_authority_survives_cancellation : cancel_then [nothing] (restart None crashed.2) =
  [Raise (ValueError "transition authorities must be unique"); Ok (R_SUMMARIZING, "confidence_sufficient", false, 13)].
Proof. vm_compute. reflexivity. Qed.
End KernelRun.
