(* ===== verification/BackendRun.v ===== *)
(** * The kernel with its execution backend

    [with_execution_backend] puts the backend of [ExecutionBackend] behind the kernel of
    [HarnessKernel], as [HarnessKernel(execution_backend=LangGraphExecutionBackend())] does,
    and the runs below are what the two do together: the projection keeps up with the
    committed transitions, and an observation event parts them. *)
From stdpp Require Import pretty.
From S2P Require Import LoopGuard ConfidenceGate WorkflowBudget.
From S2P Require Import Prelude PyStrings PyDict PyTime PyJson PyModel HarnessContracts HarnessStateMachine HarnessSession.
From S2P Require Import HarnessBudget ExecutionBackend HarnessKernel KernelRun.
Local Open Scope string_scope.
Local Open Scope list_scope.
Local Open Scope Z_scope.

Section composition.
Context {W : Type} (verifies : Authority -> bool) (invoke : string -> result (option string)) (token_hex : io W string).
(** The collaborators' state, and the backend's. *)
Definition on_world {A} (m : io W A) : io (W * Backend) A := fun s => let '(w, r) := m s.1 in ((w, s.2), r).
Definition on_backend {A} (m : io Backend A) : io (W * Backend) A := fun s => let '(b, r) := m s.2 in ((s.1, b), r).
Definition ignore {S A} (m : io S A) : io S unit := _ ← m; mret tt.
Definition with_execution_backend (E : Environment W) : Environment (W * Backend) :=
  let plan_digest := k_plan_digest (en_codec E) in
  let view_digest := k_view_digest (en_codec E) in
  let transition_digest := k_transition_digest (en_codec E) in
  {| en_codec := en_codec E; en_pinned_versions := en_pinned_versions E; en_severity_policy := en_severity_policy E;
     en_loop_digest := en_loop_digest E; en_confidence_verify := en_confidence_verify E; en_candidate_digest := en_candidate_digest E;
     en_action_json := en_action_json E; en_read_action := en_read_action E; en_checkpoint_json := en_checkpoint_json E;
     en_read_checkpoint := en_read_checkpoint E; en_loop_guard := on_world (en_loop_guard E);
     en_confidence_gate := fun plan => on_world (en_confidence_gate E plan); en_budget := fun mode => on_world (en_budget E mode);
     en_ledger_clock := on_world (en_ledger_clock E); en_new_reservation := on_world (en_new_reservation E);
     en_utc_now := on_world (en_utc_now E); en_monotonic := on_world (en_monotonic E); en_new := fun purpose => on_world (en_new E purpose);
     en_issuer_ready := on_world (en_issuer_ready E); en_trust_descriptor := on_world (en_trust_descriptor E);
     en_issue_snapshot := fun plan st => on_world (en_issue_snapshot E plan st);
     en_issue_transition_receipt := fun plan t pre st => on_world (en_issue_transition_receipt E plan t pre st);
     en_verify_receipt := en_verify_receipt E;
     en_prepare_registration := fun plan v d => id ← on_world token_hex; on_backend (prepare_registration plan_digest view_digest plan v d id);
     en_commit_registration := fun token s => on_backend (ignore (commit_registration plan_digest view_digest verifies token s));
     en_rollback_registration := fun token => on_backend (rollback_registration token);
     en_resume := fun plan v s => on_backend (ExecutionBackend.resume plan_digest view_digest verifies plan v s);
     en_apply := fun h t pre post receipt =>
       on_backend (ignore (apply_committed_transition plan_digest view_digest transition_digest verifies invoke h t pre post receipt));
     en_cancel := fun run_id => on_backend (ExecutionBackend.cancel run_id) |}.
End composition.

Module BackendRun.
Import KernelRun.
Definition token_hex : io World string := mret zeros.
Definition composed : Environment (World * Backend) :=
  with_execution_backend (fun _ => true) (fun target => Ok (Some target)) token_hex (environment T_INFORMATIONAL).
Definition composed_request : WorkflowRequest (World * Backend) :=
  {| wq_workflow_id := "run-1"; wq_trace_id := "trace-1"; wq_request_digest := zeros; wq_compile := mret (plan T_INFORMATIONAL) |}.
Definition kernel (st : Store) (w : World) : Kernel (World * Backend) := Build_Kernel st ∅ ∅ ∅ ∅ (w, new_backend).
Definition composed_start : Kernel (World * Backend) := kernel empty_store {| wo_next := 0; wo_crash := None |}.
Inductive call := Advance (args : AdvanceArguments) | Cancel | Restart.
Definition summary (r : result HarnessDecision) : result (RunState * string * bool * Z) :=
  d ← r; Ok (hd_run_state d, hd_reason_code d, hd_backend_synchronized d, hd_sequence d).
Fixpoint serve (calls : list call) (s : Kernel (World * Backend)) : list (result (RunState * string * bool * Z)) * Kernel (World * Backend) :=
  match calls with
  | [] => ([], s)
  | Restart :: calls => serve calls (kernel (kn_store s) (kn_world s).1)
  | c :: calls =>
      let '(s, r) := match c with Cancel => cancel composed "stop" "run-1" s | Advance args => advance composed args "run-1" s | Restart => (s, Raise (KeyError "")) end in
      let '(rs, s) := serve calls s in (summary r :: rs, s)
  end.
Definition composed_created : Kernel (World * Backend) := Eval vm_compute in (create composed composed_request composed_start).1.
(** The projection keeps up with a run from its creation to its success. *)
Example a_composed_run_succeeds :
  (serve [Advance nothing; Advance nothing; Advance nothing; Advance nothing; Advance (plain evidence); Advance nothing] composed_created).1 =
  [Ok (R_ADMITTED, "request_admitted", true, 3); Ok (R_PLANNED, "plan_committed", true, 5); Ok (R_READY, "dependencies_ready", true, 7);
   Ok (R_RUNNING, "execution_started", true, 9); Ok (R_SUMMARIZING, "confidence_sufficient", true, 12); Ok (R_SUCCEEDED, "completed", true, 14)].
Proof. vm_compute. reflexivity. Qed.
(** The process that runs a run can not cancel it: the intent is an observation, the
    backend refuses the view that holds it, and so every later call; another process can. *)
Definition stale : exn := StaleExecutionSnapshotError "same-revision snapshot is not an append-only authority extension".
Example cancellation_waits_for_a_restart :
  (serve [Advance nothing; Cancel; Cancel; Advance nothing; Restart; Cancel] composed_created).1 =
  [Ok (R_ADMITTED, "request_admitted", true, 3); Raise stale; Raise stale; Raise stale; Ok (R_CANCELLED, "cancellation_completed", true, 6)].
Proof. vm_compute. reflexivity. Qed.
(** A rejected candidate stops the run in the same way. *)
Example a_rejected_candidate_stops_the_run :
  (serve [Advance nothing; Advance (plain CA_other); Advance nothing; Restart; Advance nothing] composed_created).1 =
  [Ok (R_ADMITTED, "request_admitted", true, 3); Ok (R_ADMITTED, "candidate_rejected", false, 4); Raise stale; Ok (R_PLANNED, "plan_committed", true, 6)].
Proof. vm_compute. reflexivity. Qed.
(** A transition that pins the prompt release is committed and not projected; the next
    call's [resume] catches up. *)
Definition observed : AdvanceArguments :=
  {| aa_candidate := CA_none; aa_workflow_usage := None; aa_observed_execution := true; aa_prompt_release_digest := Some zeros;
     aa_accepted_result_digest := None; aa_expected_state_revision := None |}.
Example a_pinning_transition_is_not_projected :
  (serve [Advance nothing; Advance observed; Advance nothing] composed_created).1 =
  [Ok (R_ADMITTED, "request_admitted", true, 3); Ok (R_PLANNED, "plan_committed", false, 5); Ok (R_READY, "dependencies_ready", true, 7)].
Proof. vm_compute. reflexivity. Qed.
End BackendRun.
