(* ===== verification/HarnessKernelInvariant.v ===== *)
(** * What the kernel guarantees

    The policy's decisions are legal and well formed; every transition of a stream was
    authorised by an earlier event of it; a run succeeds only after the confidence gate
    allowed it and its settlement was recorded; a committed authority is completed by the
    next advance.  A run of the kernel on concrete collaborators shows the hypotheses can
    hold, and what the code does after a restart, a repeated candidate and a crash. *)
From stdpp Require Import pretty.
From Stdlib Require Import QArith.
From S2P Require Import LoopGuard ConfidenceGate WorkflowBudget.
From S2P Require Import Prelude PyStrings PyDict PyTime PyFloat PyJson PyModel PyDecimal HarnessContracts HarnessStateMachine HarnessSession.
From S2P Require Import WorkflowPricing WorkflowObservation HarnessCheckpoints HarnessBudget HarnessKernel KernelRun.
Local Open Scope string_scope.
Local Open Scope list_scope.
Local Open Scope Z_scope.

(** ** Payloads *)
(** A payload with a whole budget projection and its evidence. *)
Definition settled (p : payload) : Prop := Forall (fun key => is_Some (dict_get p key)) (_BUDGET_SETTLEMENT_EVIDENCE_KEY :: _BUDGET_FIELDS).
Lemma dict_get_put p key value k : dict_get (put p key value) k = if decide (k = key) then Some value else dict_get p k.
Proof. unfold put. apply dict_get_set. Qed.
Lemma settled_put p key value : settled p -> settled (put p key value).
Proof. unfold settled. rewrite !Forall_forall. intros H k Hk. rewrite dict_get_put. case_decide; [done|by apply H]. Qed.
(** The entries of a settlement: the whole projection and the evidence, each once. *)
Definition SETTLEMENT_KEYS : list string := _BUDGET_SETTLEMENT_EVIDENCE_KEY :: _BUDGET_FIELDS.
(** [p] has the entries of [spent] under some keys. *)
Definition agrees (keys : list string) (p spent : payload) : Prop := Forall (fun key => dict_get p key = dict_get spent key) keys.
Lemma settled_agrees p spent : settled spent -> agrees SETTLEMENT_KEYS p spent -> settled p.
Proof. unfold settled, agrees. rewrite !Forall_forall. intros Hs Ha key Hk. rewrite Ha by done. by apply Hs. Qed.
Lemma agrees_put keys p spent key value : key ∉ keys -> agrees keys p spent -> agrees keys (put p key value) spent.
Proof.
  unfold agrees. rewrite !Forall_forall. intros Hk Ha k Hin. rewrite dict_get_put. case_decide; [by subst|by apply Ha].
Qed.
Lemma agrees_trans keys p q spent : agrees keys p q -> agrees keys q spent -> agrees keys p spent.
Proof. unfold agrees. rewrite !Forall_forall. intros H1 H2 k Hk. by rewrite H1, H2. Qed.
Lemma agrees_sub keys keys' p spent : keys' ⊆ keys -> agrees keys p spent -> agrees keys' p spent.
Proof. unfold agrees. rewrite !Forall_forall. intros Hk H k Hin. by apply H, Hk. Qed.
Lemma update_get p other k : NoDup other.*1 ->
  dict_get (update p other) k = match dict_get other k with Some v => Some v | None => dict_get p k end.
Proof.
  unfold update. revert p. induction other as [|[k' v] other IH]; intros p; [done|].
  intros [Hn Hnd]%NoDup_cons. cbn [foldl fst snd dict_get]. rewrite IH, dict_get_put by done.
  destruct (decide (k = k')) as [->|]; [by rewrite (proj2 (dict_get_None _ _))|done].
Qed.
Lemma agrees_update keys p spent other : NoDup other.*1 -> Forall (fun key => dict_get other key = None) keys ->
  agrees keys p spent -> agrees keys (update p other) spent.
Proof.
  unfold agrees. rewrite !Forall_forall. intros Hn Ho Ha k Hk. by rewrite update_get, Ho, Ha.
Qed.
(** What a settlement answers. *)
Definition settlement_payload (spent : payload) : Prop := settled spent /\ NoDup spent.*1.
Lemma projection_settled q evidence : settlement_payload (projection_fields q ++ [(_BUDGET_SETTLEMENT_EVIDENCE_KEY, evidence)]).
Proof.
  split; [unfold settled, _BUDGET_FIELDS; repeat (constructor; [by eexists|]); constructor|].
  apply (bool_decide_unpack _). vm_compute. exact I.
Qed.
Lemma agrees_confidence spent : settlement_payload spent ->
  agrees SETTLEMENT_KEYS (update [("policy", JStr "confidence_gate")] spent) spent.
Proof.
  intros [Hs Hn]. unfold settled, agrees in *. rewrite Forall_forall in *. intros k Hk. rewrite update_get by done.
  by destruct (Hs k Hk) as [v ->].
Qed.

(** ** Outcomes *)
(** Whatever the state, a value satisfies [Q]. *)
Definition yields {S A} (m : io S A) (Q : A -> Prop) : Prop := keeps (fun _ => True) m Q.
Lemma yields_inv {S A} (m : io S A) Q s s' a : yields m Q -> m s = (s', Ok a) -> Q a.
Proof. intros H E. destruct (H s I) as [_ HQ]. apply HQ. by rewrite E. Qed.
Lemma yields_bind {S A B} (m : io S A) (f : A -> io S B) R : (forall a, yields (f a) R) -> yields (m ≫= f) R.
Proof. intros H. apply (keeps_bind _ _ _ (fun _ => True)); [done|]. intros a _. apply H. Qed.
Lemma yields_try {S A} (m : io S A) h Q : yields m Q -> (forall e, yields (h e) Q) -> yields (try_ m h) Q.
Proof.
  intros Hm Hh s Hs. specialize (Hm s Hs). unfold try_. destruct (m s) as [s' [a|e]]; [done|]. by apply Hh.
Qed.
Lemma yields_ret {S A} (a : A) (Q : A -> Prop) : Q a -> yields (mret a : io S A) Q.
Proof. apply keeps_ret. Qed.
Lemma yields_raise {S A} e (Q : A -> Prop) : yields (lift (Raise e) : io S A) Q.
Proof. by apply keeps_lift. Qed.


(** An outcome that degrades, for a reason of the kernel. *)
Definition degrading (o : Outcome) : Prop := exists reason p, o = degrade reason p /\ reason ∈ DEGRADING_REASONS.
Lemma degrading_intro reason p : bool_decide (reason ∈ DEGRADING_REASONS) = true -> degrading (degrade reason p).
Proof. intros H%bool_decide_eq_true. by exists reason, p. Qed.
(** ** What a call leaves alone

    [framed f m]: the part [f] of the state is as it was, however [m] ends. *)
Definition framed {S X A} (f : S -> X) (m : io S A) : Prop := forall s, f (m s).1 = f s.
Class Untouched {W X} (f : Kernel W -> X) : Prop := {
  untouched_world s w : f (with_world s w) = f s;
  untouched_budgets s b : f (with_budgets s b) = f s }.
Section Frames.
Context {W X : Type} (f : Kernel W -> X).
Lemma framed_bind {A B} (m : io (Kernel W) A) (g : A -> io (Kernel W) B) : framed f m -> (forall a, framed f (g a)) -> framed f (m ≫= g).
Proof.
  intros Hm Hg s. unfold mbind, io_bind. specialize (Hm s). destruct (m s) as [s1 [a|e]]; [|done]. simpl in Hm. by rewrite Hg.
Qed.
Lemma framed_ret {A} (a : A) : framed f (mret a : io (Kernel W) A).
Proof. done. Qed.
Lemma framed_lift {A} (r : result A) : framed f (lift r : io (Kernel W) A).
Proof. done. Qed.
Lemma framed_read {A} (g : Kernel W -> A) : framed f (read g).
Proof. done. Qed.
Lemma framed_modify (g : Kernel W -> Kernel W) : (forall s, f (g s) = f s) -> framed f (modify g).
Proof. intros H s. apply H. Qed.
Lemma framed_try {A} (m : io (Kernel W) A) h : framed f m -> (forall e, framed f (h e)) -> framed f (try_ m h).
Proof. intros Hm Hh s. unfold try_. specialize (Hm s). destruct (m s) as [s1 [a|e]]; [done|]. simpl in Hm. by rewrite Hh. Qed.
Lemma framed_when b (m : io (Kernel W) unit) : framed f m -> framed f (when_ b m).
Proof. by destruct b. Qed.
Lemma framed_on_fresh {A} l (m : io WorkflowBudget.WorkflowBudgetLedger A) : framed f (on_fresh_ledger (W := W) l m).
Proof. intros s. unfold on_fresh_ledger. destruct (m l) as [l' [a|e]]; done. Qed.
Lemma framed_load (E : Environment W) run : framed f (load_events E run).
Proof. done. Qed.
Context `{Untouched W X f}.
Lemma framed_call {A} (m : io W A) : framed f (call m).
Proof. intros s. unfold call. destruct (m (kn_world s)). apply untouched_world. Qed.
Lemma framed_ledger {A} run (m : io WorkflowBudget.WorkflowBudgetLedger A) : framed f (on_ledger run m).
Proof. intros s. unfold on_ledger. destruct (kn_budgets s !! run); [|done]. destruct (m _). apply untouched_budgets. Qed.
End Frames.
Create HintDb framed.
#[export] Hint Resolve framed_ret framed_lift framed_read framed_call framed_ledger framed_on_fresh framed_load : framed.
(** Peel a computation down to the calls that are framed by themselves. *)
Ltac framed_step :=
  match goal with
  | |- framed _ (_ ≫= _) => apply framed_bind
  | |- framed _ (try_ _ _) => apply framed_try
  | |- framed _ (when_ _ _) => apply framed_when
  | |- framed _ (modify _) => apply framed_modify
  | |- framed _ (converting _ _) => unfold converting
  | |- framed _ (try_budget _) => unfold try_budget
  | |- framed _ (or_stop _ _) => unfold or_stop
  | |- framed _ (match ?x with _ => _ end) => destruct x
  | |- framed _ (let '_ := ?x in _) => destruct x
  | |- forall _, _ => intros ?
  | |- _ = _ => reflexivity
  end.
Ltac solve_framed := repeat (first [solve [eauto 2 with framed typeclass_instances] | framed_step]).

Definition or_degrading {A} (R : A -> Prop) (r : Outcome + A) : Prop := match r with inl o => degrading o | inr a => R a end.
Section Policy.
Context {W : Type} (E : Environment W).
Lemma yields_or_stop {A} (m : io (Kernel W) (Outcome + A)) f R (Q : Outcome -> Prop) :
  yields m (or_degrading R) -> (forall o, degrading o -> Q o) -> (forall a, R a -> yields (f a) Q) -> yields (or_stop m f) Q.
Proof.
  intros Hm HQ Hf. apply (keeps_bind _ _ _ (or_degrading R)); [done|]. intros [o|a] Ho; [|by apply Hf]. by apply keeps_ret, HQ.
Qed.
Lemma try_budget_degrading {A} (m : io (Kernel W) A) R : yields m R -> yields (try_budget m) (or_degrading R).
Proof.
  intros Hm. apply yields_try.
  - apply (keeps_bind _ _ _ R); [done|]. intros a Ha. by apply yields_ret.
  - intros e. destruct (budget_error e); [|apply yields_raise]. apply yields_ret. by apply degrading_intro.
Qed.
Lemma settlement_degrading events plan usage observed : yields (settlement E events plan usage observed) (or_degrading settlement_payload).
Proof.
  unfold settlement. apply yields_bind. intros budget. apply yields_bind. intros [].
  { apply yields_ret. by apply degrading_intro. }
  destruct usage as [usage|]; [|destruct observed].
  - unfold settle_observed. do 3 (apply yields_bind; intros ?). apply try_budget_degrading, keeps_lift. intros p Hp.
    unfold budget_payload_v2 in Hp. inv_ok Hp. subst p. apply projection_settled.
  - apply yields_ret. by apply degrading_intro.
  - unfold settle_synthetic. apply yields_bind. intros can. destruct (negb can); [apply yields_ret; by apply degrading_intro|].
    apply (keeps_bind _ _ _ (or_degrading (fun _ => True))); [by apply try_budget_degrading; split|].
    intros [o|[reservation charged]] Ho; [by apply yields_ret|]. do 2 (apply yields_bind; intros ?).
    apply (keeps_bind _ _ _ settlement_payload); [|intros p Hp; by apply yields_ret]. apply keeps_lift. intros p Hp.
    unfold budget_payload in Hp. inv_ok Hp. subst p. apply projection_settled.
Qed.
(** The loop guard's fields are none of the settlement's. *)
Lemma loop_fields_agrees plan p spent key text d :
  key ∉ SETTLEMENT_KEYS -> agrees SETTLEMENT_KEYS p spent -> agrees SETTLEMENT_KEYS (loop_fields plan p key text d) spent.
Proof.
  intros Hk H. apply agrees_put; [by apply (bool_decide_unpack _)|]. apply agrees_update; [| |by apply agrees_put].
  - apply (bool_decide_unpack _). vm_compute. exact I.
  - unfold SETTLEMENT_KEYS, _BUDGET_FIELDS, loop_binding_payload. repeat (constructor; [done|]). constructor.
Qed.
Lemma observe_action_degrading events plan c p spent : agrees SETTLEMENT_KEYS p spent ->
  yields (observe_action E events plan c p) (or_degrading (fun pg => agrees SETTLEMENT_KEYS pg.1 spent)).
Proof.
  intros Hp. unfold observe_action. destruct (ac_action_observation c); [|by apply yields_ret]. apply yields_bind. intros g.
  destruct (LoopGuard.observe_action_result g _) as [d g']. apply yields_ret.
  destruct (LoopGuard.ld_allowed d); [|by apply degrading_intro]. apply loop_fields_agrees; [|done]. by apply (bool_decide_unpack _).
Qed.
Lemma observe_checkpoint_degrading events plan c pg spent : agrees SETTLEMENT_KEYS pg.1 spent ->
  yields (observe_loop_checkpoint E events plan c pg) (or_degrading (fun p => agrees SETTLEMENT_KEYS p spent)).
Proof.
  intros Hp. unfold observe_loop_checkpoint. destruct pg as [p g]. destruct (ac_loop_checkpoint c); [|by apply yields_ret].
  destruct (_ || _); [apply yields_ret; by apply degrading_intro|]. do 2 (apply yields_bind; intros ?). apply yields_ret.
  destruct (LoopGuard.ld_allowed _); [|by apply degrading_intro]. apply loop_fields_agrees; [|done]. by apply (bool_decide_unpack _).
Qed.
(** None of the steps before the judgement touches the gates. *)
Definition gates (s : Kernel W) : gmap string ConfidenceGate.ConfidenceGate * gset string := (kn_confidence_gates s, kn_binding_failed s).
#[export] Instance gates_untouched : Untouched gates.
Proof. by split. Qed.
Lemma settlement_gates events plan usage observed : framed gates (settlement E events plan usage observed).
Proof. unfold settlement, settle_observed, settle_synthetic, reserve_and_settle, ledger_snapshot. solve_framed. Qed.
Lemma observe_action_gates events plan c p : framed gates (observe_action E events plan c p).
Proof. unfold observe_action, replayed_loop_guard. solve_framed. Qed.
Lemma observe_checkpoint_gates events plan c pg : framed gates (observe_loop_checkpoint E events plan c pg).
Proof. unfold observe_loop_checkpoint, replayed_loop_guard. solve_framed. Qed.

(** The decision of a running run: it degrades, or the run's own gate, whose binding to
    the plan had not failed, judged what the candidate brought, and the settlement's
    fields are those the budget was settled with. *)
Definition verdict (gate : ConfidenceGate.ConfidenceGate) (c : AdvanceCandidate) : ConfidenceGate.ConfidenceDecision :=
  (ConfidenceGate.evaluate (k_json_digest (en_codec E)) (en_confidence_verify E) gate (ac_confidence_observation c) (ac_confidence_artifact c)).1.
Definition gate_of (s : Kernel W) (run : string) (gate : ConfidenceGate.ConfidenceGate) : Prop :=
  (run ∉ kn_binding_failed s) /\ kn_confidence_gates s !! run = Some gate.
Definition spent_in (events : list HarnessEvent) (plan : HarnessPlan) (usage : option WorkflowUsage) (observed : bool) (s : Kernel W)
    (p : payload) : Prop :=
  exists s1 spent, settlement E events plan usage observed s = (s1, Ok (inr spent)) /\ settled spent /\ agrees SETTLEMENT_KEYS p spent.
Definition judged (events : list HarnessEvent) (plan : HarnessPlan) (c : AdvanceCandidate) (usage : option WorkflowUsage) (observed : bool)
    (s : Kernel W) (o : Outcome) : Prop :=
  degrading o \/ exists p gate, spent_in events plan usage observed s p /\ gate_of s (pl_run_id plan) gate /\ o = gate_outcome p (verdict gate c).
Lemma or_stop_inv {A} (m : io (Kernel W) (Outcome + A)) f s s' o :
  or_stop m f s = (s', Ok o) ->
  m s = (s', Ok (inl o)) \/ exists s1 a, m s = (s1, Ok (inr a)) /\ f a s1 = (s', Ok o).
Proof.
  unfold or_stop. intros [(s1 & r & Hm & H)|(e & _ & [=])]%io_bind_inv.
  destruct r as [o'|a]; [injection H as -> ->; by left|right; by exists s1, a].
Qed.
Lemma judge_inv plan c p s s' o : judge E plan c p s = (s', Ok o) ->
  degrading o \/ exists gate, gate_of s (pl_run_id plan) gate /\ o = gate_outcome p (verdict gate c).
Proof.
  unfold judge. intros [(s1 & failed & Hr & H)|(e & _ & [=])]%io_bind_inv. injection Hr as <- <-.
  case_bool_decide as Hin; [injection H as _ <-; left; by apply degrading_intro|]. right.
  apply io_bind_inv in H as [(s1 & d & Hg & H)|(e & _ & [=])]. injection H as _ <-. unfold evaluate_gate in Hg.
  destruct (kn_confidence_gates s !! pl_run_id plan) as [gate|] eqn:Eg; [|done]. exists gate. split; [done|]. unfold verdict.
  destruct (ConfidenceGate.evaluate _ _ _ _ _) as [d' gate']. by injection Hg as _ <-.
Qed.
Lemma policy_decision_cases events plan view c usage observed s s' o :
  policy_decision E events plan view c usage observed s = (s', Ok o) ->
  settled_policy events view = Ok (Some o) \/ settled_policy events view = Ok None /\ judged events plan c usage observed s o.
Proof.
  unfold policy_decision. intros H. apply io_bind_inv in H as [(s1 & found & Hs & H)|(e & _ & [=])].
  apply lift_inv in Hs as [-> <-]. destruct found as [o'|]; [injection H as <- <-; by left|right; split; [done|]].
  pose proof (settlement_gates events plan usage observed s) as G1.
  pose proof (fun s2 r => yields_inv _ _ s s2 r (settlement_degrading events plan usage observed)) as Y1.
  apply or_stop_inv in H as [H|(s1 & spent & H1 & H)]; [left; by apply (Y1 _ _ H)|]. rewrite H1 in G1. pose proof (Y1 _ _ H1) as Hspent.
  pose proof (agrees_confidence _ Hspent) as Ha. destruct Hspent as [Hset _].
  match type of H with or_stop (observe_action _ _ _ _ ?p1) _ _ = _ =>
    pose proof (observe_action_gates events plan c p1 s1) as G2;
    pose proof (fun s2 r => yields_inv _ _ s1 s2 r (observe_action_degrading events plan c p1 spent Ha)) as Y2 end.
  apply or_stop_inv in H as [H|(s2 & pg & H2 & H)]; [left; by apply (Y2 _ _ H)|]. rewrite H2 in G2. pose proof (Y2 _ _ H2) as Ha2.
  pose proof (observe_checkpoint_gates events plan c pg s2) as G3.
  pose proof (fun s3 r => yields_inv _ _ s2 s3 r (observe_checkpoint_degrading events plan c pg spent Ha2)) as Y3.
  apply or_stop_inv in H as [H|(s3 & p & H3 & H)]; [left; by apply (Y3 _ _ H)|]. rewrite H3 in G3. pose proof (Y3 _ _ H3) as Ha3.
  apply judge_inv in H as [H|(gate & Hg & ->)]; [by left|right]. exists p, gate. split; [by exists s1, spent|]. split; [|done].
  unfold gates in *. cbn [fst] in *. assert (Eg : gates s3 = gates s) by (unfold gates; congruence). injection Eg as Eg1 Eg2.
  unfold gate_of in *. by rewrite <- Eg1, <- Eg2.
Qed.

(** A decision the policy may take from a state. *)
Definition legal (source : RunState) (o : Outcome) : Prop :=
  let '(target, reason, no_trade, _) := o in
  target ∈ RUN_EDGES (Some source) /\ no_trade = must_be_no_trade target reason /\ reason ∈ _COMMITTED_DECISION_REASONS /\
  (exists states, dict_get _DECISION_REASON_STATES reason = Some states /\ target ∈ states) /\
  (reason = "completed" -> target = R_SUCCEEDED) /\ target <> R_WAITING_RECONCILIATION.
Lemma legal_decide source o :
  (let '(target, reason, no_trade, _) := o in
   bool_decide (target ∈ RUN_EDGES (Some source)) && Bool.eqb no_trade (must_be_no_trade target reason) &&
   bool_decide (reason ∈ _COMMITTED_DECISION_REASONS) &&
   match dict_get _DECISION_REASON_STATES reason with Some states => bool_decide (target ∈ states) | None => false end &&
   (negb (String.eqb reason "completed") || bool_decide (target = R_SUCCEEDED)) &&
   negb (bool_decide (target = R_WAITING_RECONCILIATION))) = true -> legal source o.
Proof.
  destruct o as [[[target reason] no_trade] p]. rewrite !andb_true_iff. intros [[[[[H1 H2] H3] H4] H5] H6]. unfold legal.
  apply bool_decide_eq_true in H1, H3. apply Bool.eqb_prop in H2. apply negb_true_iff, bool_decide_eq_false in H6.
  split_and!; try done.
  - destruct (dict_get _ _) as [states|]; [|done]. apply bool_decide_eq_true in H4. by exists states.
  - intros ->. rewrite String.eqb_refl in H5. by apply bool_decide_eq_true in H5.
Qed.
Lemma degrading_legal o : degrading o -> legal R_RUNNING o.
Proof.
  intros (reason & p & -> & Hr). apply legal_decide. unfold degrade. revert reason Hr.
  assert (H : Forall (fun reason =>
    bool_decide (R_DEGRADING ∈ RUN_EDGES (Some R_RUNNING)) && Bool.eqb true (must_be_no_trade R_DEGRADING reason) &&
    bool_decide (reason ∈ _COMMITTED_DECISION_REASONS) &&
    match dict_get _DECISION_REASON_STATES reason with Some states => bool_decide (R_DEGRADING ∈ states) | None => false end &&
    (negb (String.eqb reason "completed") || bool_decide (R_DEGRADING = R_SUCCEEDED)) &&
    negb (bool_decide (R_DEGRADING = R_WAITING_RECONCILIATION)) = true) DEGRADING_REASONS)
    by (unfold DEGRADING_REASONS; repeat constructor).
  intros reason Hr. rewrite Forall_forall in H. by apply H.
Qed.
Lemma gate_outcome_legal p d : legal R_RUNNING (gate_outcome p d).
Proof. unfold gate_outcome. destruct (ConfidenceGate.cd_may_succeed d); by apply legal_decide. Qed.
Lemma settled_policy_legal events view o : settled_policy events view = Ok (Some o) -> exists source, v_run_state view = Some source /\ legal source o.
Proof.
  unfold settled_policy. destruct (v_run_state view) as [source|]; [|done]. intros Hs. exists source. split; [done|].
  destruct source; simpl in Hs; try done; try (injection Hs as <-; by apply legal_decide).
  unfold mbind, result_bind in Hs. destruct (summary_source events view); [|done].
  destruct (_ =? _)%string; injection Hs as <-; by apply legal_decide.
Qed.
Lemma settled_policy_running events view : settled_policy events view = Ok None -> v_run_state view = Some R_RUNNING.
Proof.
  unfold settled_policy. destruct (v_run_state view) as [source|]; [|done]. destruct source; simpl; try done.
  unfold mbind, result_bind. destruct (summary_source events view); [|done]. by destruct (_ =? _)%string.
Qed.
Lemma policy_decision_legal events plan view c usage observed s s' o :
  policy_decision E events plan view c usage observed s = (s', Ok o) -> exists source, v_run_state view = Some source /\ legal source o.
Proof.
  intros [H|[H Ho]]%policy_decision_cases; [by eapply settled_policy_legal|]. exists R_RUNNING. split; [by eapply settled_policy_running|].
  destruct Ho as [Ho|(p & gate & _ & _ & ->)]; [by apply degrading_legal|apply gate_outcome_legal].
Qed.
(** What a sufficient confidence comes from. *)
Lemma confidence_sufficient_inv events plan view c usage observed s s' target no_trade p :
  policy_decision E events plan view c usage observed s = (s', Ok (target, "confidence_sufficient", no_trade, p)) ->
  v_run_state view = Some R_RUNNING /\ target = R_SUMMARIZING /\ no_trade = false /\
  dict_get p "summary_source" = Some (JStr "confidence_success") /\
  exists gate, gate_of s (pl_run_id plan) gate /\ ConfidenceGate.cd_may_succeed (verdict gate c) = true /\
    spent_in events plan usage observed s p.
Proof.
  intros [H|[H Ho]]%policy_decision_cases.
  { exfalso. revert H. unfold settled_policy. destruct (v_run_state view) as [source|]; [|done].
    destruct source; simpl; try done. unfold mbind, result_bind. destruct (summary_source events view); [|done]. by destruct (_ =? _)%string. }
  apply settled_policy_running in H. destruct Ho as [(reason & q & Eq & Hr)|(q & gate & (s1 & spent & Hs & Hset & Ha) & Hg & Eq)].
  { exfalso. injection Eq as _ <- _ _. revert Hr. by apply (bool_decide_eq_false_1 (_ ∈ _)). }
  unfold gate_outcome in Eq. destruct (ConfidenceGate.cd_may_succeed (verdict gate c)) eqn:Em; [|done].
  injection Eq as -> -> ->. split_and!; try done.
  { by rewrite dict_get_put, decide_True. }
  exists gate. split_and!; [done..|]. exists s1, spent. split; [done|]. split; [done|].
  do 3 (apply agrees_put; [by apply (bool_decide_unpack _)|]). done.
Qed.
End Policy.

Section Decisions.
Context {W : Type} (E : Environment W).
(** C18.  What the policy decides can always be committed and answered: its target is
    an edge of the run's state, and the decision returned for the committed transition
    passes every check of the decision's own contract. *)
Theorem policy_decisions_are_well_formed events plan view post candidate usage observed s s' target reason no_trade p :
  policy_decision E events plan view candidate usage observed s = (s', Ok (target, reason, no_trade, p)) ->
  v_state_revision post = v_state_revision view + 1 ->
  exists source, v_run_state view = Some source /\ target ∈ RUN_EDGES (Some source) /\
    forall synchronized, validate_shape
      (decision_value plan post target reason (Some source) (Some (run_transition plan view target reason)) no_trade false synchronized) = Ok tt.
Proof.
  intros H Hrev. apply policy_decision_legal in H as (source & Hs & Hedge & -> & Hr & (states & Hget & Hin) & Hc & Hw).
  exists source. split; [done|]. split; [done|]. intros synchronized. unfold validate_shape, decision_value, transition_binds, run_transition.
  cbn [hd_retry_authorized hd_reconciliation_required hd_run_state hd_no_trade hd_reason_code hd_transition hd_previous_run_state
       hd_run_id hd_trace_id hd_state_revision hd_plan_revision tr_entity_kind tr_entity_id tr_run_id tr_trace_id tr_from_state tr_to_state
       tr_expected_state_revision tr_plan_revision tr_reason_code tr_idempotency_key is_Some_b].
  rewrite Hget, Hs, Hrev, (bool_decide_eq_false_2 _ Hw), (bool_decide_eq_true_2 _ Hin), (bool_decide_eq_true_2 _ Hr), Bool.eqb_reflx.
  rewrite (bool_decide_eq_true_2 (E_run = E_run)) by done. cbn [current_value]. rewrite !String.eqb_refl, !Z.eqb_refl.
  destruct (String.eqb_spec reason "completed") as [Ec|]; [rewrite (Hc Ec)|]; reflexivity.
Qed.
(** C14.  Only the gate's verdict makes confidence sufficient.  When an advance decides
    so, the run was running; the gate the kernel holds for this run, whose binding to the
    plan had not failed, allowed success for the very observation and artifact the
    candidate brought; and the payload that will be committed has, entry by entry, the
    projection and the evidence with which this decision settled the budget, and the
    claim the summary is later read from. *)
Theorem sufficient_confidence_is_the_verdict events plan view candidate usage observed s s' target no_trade p :
  policy_decision E events plan view candidate usage observed s = (s', Ok (target, "confidence_sufficient", no_trade, p)) ->
  v_run_state view = Some R_RUNNING /\ target = R_SUMMARIZING /\ no_trade = false /\
  dict_get p "summary_source" = Some (JStr "confidence_success") /\
  (exists gate o a, (pl_run_id plan ∉ kn_binding_failed s) /\ kn_confidence_gates s !! pl_run_id plan = Some gate /\
     ac_confidence_observation candidate = Some o /\ ac_confidence_artifact candidate = Some a /\
     ConfidenceGate.cd_may_succeed (verdict E gate candidate) = true) /\
  exists s1 spent, settlement E events plan usage observed s = (s1, Ok (inr spent)) /\
    forall key, key ∈ _BUDGET_SETTLEMENT_EVIDENCE_KEY :: _BUDGET_FIELDS ->
      dict_get p key = dict_get spent key /\ is_Some (dict_get spent key).
Proof.
  intros H. destruct (confidence_sufficient_inv _ _ _ _ _ _ _ _ _ _ _ _ H) as (Hv & -> & -> & Hsrc & gate & [Hb Hg] & Hm & s1 & spent & Hs & Hset & Ha).
  split_and!; try done.
  - exists gate. revert Hm. unfold verdict, ConfidenceGate.evaluate. destruct (ConfidenceGate.cg_sealed gate); [done|].
    destruct (ConfidenceGate.cg_context gate); [|done]. destruct (ConfidenceGate.cg_policy gate); [|done].
    destruct (ac_confidence_observation candidate) as [o|]; [|done]. destruct (ac_confidence_artifact candidate) as [a|]; [|by simpl; destruct (ConfidenceGate.validate_observation o)].
    by exists o, a.
  - exists s1, spent. split; [done|]. intros key Hk. unfold settled, agrees in *. rewrite Forall_forall in *. split; [by apply Ha|by apply Hset].
Qed.
End Decisions.

(** ** Streams the kernel writes *)
(** An authority record is for a transition. *)
Definition authorises (a : TransitionAuthorityRecord) (t : HarnessTransition) : Prop :=
  ta_entity_kind a = tr_entity_kind t /\ ta_entity_id a = tr_entity_id t /\ ta_from_state a = tr_from_state t /\
  ta_to_state a = tr_to_state t /\ ta_expected_state_revision a = tr_expected_state_revision t /\
  ta_plan_revision a = tr_plan_revision t /\ ta_reason_code a = tr_reason_code t /\ ta_idempotency_key a = tr_idempotency_key t.
Definition claims_confidence (p : payload) : Prop := dict_get p "summary_source" = Some (JStr "confidence_success").
(** The run entered its summary because the gate found the confidence sufficient. *)
Definition confident_summary (prior : list HarnessEvent) : Prop :=
  exists e t, e ∈ prior /\ ev_transition e = Some t /\ tr_to_state t = run_state_value R_SUMMARIZING /\ tr_reason_code t = "confidence_sufficient".
(** ** Earned success *)
Section Earned.
Context {W : Type} (E : Environment W).
(** On this very stream, in some state of the kernel that held it, the policy decided
    that confidence is sufficient and answered [p]: the plan and the view are the
    stream's; the gate the state holds for the run is one the host's factory made for
    that plan and its trusted context matches the plan; and it allowed success on what
    the candidate brought. *)
Definition decided (evs : list HarnessEvent) (p : payload) : Prop :=
  exists plan view candidate usage observed s s' gate,
    load (k_clean_payload (en_codec E)) (kn_store s) (pl_run_id plan) = Ok evs /\
    plan_from_events E evs = Ok plan /\
    fold_events (k_clean_payload (en_codec E)) (k_event_hash (en_codec E)) evs = Ok view /\
    policy_decision E evs plan view candidate usage observed s = (s', Ok (R_SUMMARIZING, "confidence_sufficient", false, p)) /\
    (pl_run_id plan ∉ kn_binding_failed s) /\ kn_confidence_gates s !! pl_run_id plan = Some gate /\
    (exists w w', en_confidence_gate E plan w = (w', Ok (Some gate))) /\ confidence_gate_matches_plan E plan gate = true /\
    ConfidenceGate.cd_may_succeed (verdict E gate candidate) = true.
(** The payload [q] of an authority after [prior] was earned: a decision was taken on a
    prefix of the stream, its settlement is the next event, and [q] carries the whole
    projection that decision settled. *)
Definition earned (prior : list HarnessEvent) (q : payload) : Prop :=
  exists i c p settlement,
    decided (take i prior) p /\ dict_get p _BUDGET_SETTLEMENT_EVIDENCE_KEY = Some settlement /\
    prior !! i = Some c /\ ev_event_type c = "budget_settlement_recorded" /\ ev_payload c = [("budget_settlement", settlement)] /\
    settled q /\ agrees _BUDGET_FIELDS q p.
(** What the kernel may append to a stream. *)
Record sound (prior : list HarnessEvent) (e : HarnessEvent) : Prop := {
  so_authorised t : ev_transition e = Some t ->
    (prior = [] /\ tr_to_state t = run_state_value R_CREATED) \/ exists e' a, e' ∈ prior /\ authority_of e' = Some a /\ authorises a t;
  so_earned a : authority_of e = Some a -> ta_reason_code a = "confidence_sufficient" -> earned prior (ev_payload e);
  so_transition_source t : ev_transition e = Some t -> claims_confidence (ev_payload e) ->
    tr_to_state t = run_state_value R_SUMMARIZING -> tr_reason_code t = "confidence_sufficient";
  so_authority_source a : authority_of e = Some a -> claims_confidence (ev_payload e) ->
    ta_to_state a = run_state_value R_SUMMARIZING -> ta_reason_code a = "confidence_sufficient";
  so_transition_success t : ev_transition e = Some t -> tr_to_state t = run_state_value R_SUCCEEDED -> confident_summary prior;
  so_authority_success a : authority_of e = Some a -> ta_to_state a = run_state_value R_SUCCEEDED -> confident_summary prior }.
Definition sound_stream (evs : list HarnessEvent) : Prop := forall i e, evs !! i = Some e -> sound (take i evs) e.

Lemma sound_stream_snoc evs e : sound_stream evs -> sound evs e -> sound_stream (evs ++ [e]).
Proof.
  intros Hs He i x Hi. destruct (decide (i < length evs)%nat).
  - rewrite lookup_app_l in Hi by done. rewrite take_app_le by lia. by apply Hs.
  - rewrite lookup_app_r in Hi by lia. apply list_lookup_singleton_Some in Hi as [Hi <-].
    replace i with (length evs) by lia. by rewrite take_app_length.
Qed.
Lemma confident_summary_app evs l : confident_summary evs -> confident_summary (evs ++ l).
Proof. intros (e & t & ? & ?). exists e, t. split; [apply elem_of_app; by left|done]. Qed.
Lemma confident_summary_take i evs : confident_summary (take i evs) -> confident_summary evs.
Proof. intros (e & t & Hin & ?). exists e, t. split; [|done]. rewrite <- (take_drop i evs). apply elem_of_app. by left. Qed.
(** An event that neither transitions nor authorises is sound anywhere. *)
Lemma observation_sound prior e : ev_transition e = None -> authority_of e = None -> sound prior e.
Proof. intros Ht Ha. constructor; intros x; rewrite ?Ht, ?Ha; done. Qed.
Lemma sound_recounted prior e s r p h : sound prior e -> sound prior (with_counters e s r p h).
Proof. by intros []. Qed.
Lemma earned_app prior l q : earned prior q -> earned (prior ++ l) q.
Proof.
  intros (i & c & p & settlement & Hd & Hs & Hi & Ht & Hp & Hq & Ha). exists i, c, p, settlement.
  pose proof (lookup_lt_Some _ _ _ Hi). rewrite take_app_le by lia. rewrite lookup_app_l by done. by split_and!.
Qed.
Lemma earned_take i evs q : earned (take i evs) q -> earned evs q.
Proof. intros H. rewrite <- (take_drop i evs). by apply earned_app. Qed.
Lemma earned_put prior q key value : key ∉ _BUDGET_FIELDS -> earned prior q -> earned prior (put q key value).
Proof.
  intros Hk (i & c & p & settlement & Hd & Hs & Hi & Ht & Hp & Hq & Ha). exists i, c, p, settlement.
  split_and!; [done..|by apply settled_put|by apply agrees_put].
Qed.
End Earned.

Lemma claims_put p key value : key <> "summary_source" -> claims_confidence (put p key value) <-> claims_confidence p.
Proof. intros Hk. unfold claims_confidence. rewrite dict_get_put. by rewrite decide_False by done. Qed.
Lemma dict_get_filter (f : string -> bool) (p : payload) k : f k = true -> dict_get (List.filter (fun kv => f kv.1) p) k = dict_get p k.
Proof.
  intros Hk. induction p as [|[k' v] p IH]; [done|]. simpl. destruct (f k') eqn:E; simpl; rewrite IH; [done|].
  case_decide; [congruence|done].
Qed.
Lemma claims_observed p : claims_confidence (observed_fields p) <-> claims_confidence p.
Proof.
  set (f := fun k => negb (bool_decide (k ∈ _BUDGET_FIELDS)) && negb (String.eqb k _BUDGET_SETTLEMENT_EVIDENCE_KEY)).
  unfold claims_confidence. change (observed_fields p) with (List.filter (fun kv => f kv.1) p). by rewrite dict_get_filter.
Qed.
Lemma is_str_get e key s : is_str (payload_get e key) s = true -> dict_get (ev_payload e) key = Some (JStr s).
Proof.
  unfold is_str, payload_get. destruct (dict_get (ev_payload e) key) as [[]|]; try done. by intros ->%String.eqb_eq.
Qed.

(** ** The kernel's calls keep every stream sound

    The payload cleaner freezes a JSON mapping; what it accepts it returns. *)
Section Safety.
Context {W : Type} (E : Environment W).
Context (Hclean : forall p p', k_clean_payload (en_codec E) p = Ok p' -> p' = p).
Abbreviation clean := (k_clean_payload (en_codec E)).
Abbreviation hash := (k_event_hash (en_codec E)).
Abbreviation loaded := (load clean).
Abbreviation folded := (fold_events clean hash).
#[local] Instance clean_idem : Idem clean.
Proof. intros p p' H. pose proof (Hclean _ _ H). by subst. Qed.

Record store_sound (st : Store) : Prop := {
  ss_ok : store_ok clean hash st;
  ss_sound run evs : loaded st run = Ok evs -> sound_stream E evs }.
(** From that store, whatever the rest of the state, the call leaves a sound one. *)
Definition safe {A} (st : Store) (m : io (Kernel W) A) : Prop := forall s, kn_store s = st -> store_sound (kn_store (m s).1).
Abbreviation stable := (framed (@kn_store W)).
#[local] Instance store_untouched : Untouched (@kn_store W).
Proof. by split. Qed.

Lemma stable_safe {A} (m : io (Kernel W) A) st : store_sound st -> stable m -> safe st m.
Proof. intros Hst Hm s <-. by rewrite Hm. Qed.
Lemma stable_gate run c : stable (evaluate_gate E run c).
Proof. intros s. unfold evaluate_gate. destruct (kn_confidence_gates s !! run); [|done]. by destruct (ConfidenceGate.evaluate _ _ _ _ _). Qed.
Create HintDb stable.
Hint Resolve stable_gate : stable.
Ltac solve_stable := repeat (first [solve [eauto 2 with framed stable typeclass_instances] | framed_step]).
Lemma stable_load_run run : stable (load_run E run).
Proof. unfold load_run. solve_stable. Qed.
Lemma stable_snapshot run : stable (kernel_snapshot E run).
Proof. unfold kernel_snapshot. solve_stable. Qed.
Lemma stable_issued plan view : stable (issued_snapshot E plan view).
Proof. unfold issued_snapshot. solve_stable. Qed.
Lemma stable_receipt plan t n what : stable (issue_receipt E plan t n what).
Proof. unfold issue_receipt. solve_stable. Qed.
Lemma stable_new_event plan type p t a : stable (new_event E plan type p t a).
Proof. unfold new_event, identifier. solve_stable. Qed.
Hint Resolve stable_load_run stable_snapshot stable_issued stable_receipt stable_new_event : stable.
Lemma stable_ledger_snapshot plan : stable (ledger_snapshot E plan).
Proof. unfold ledger_snapshot. solve_stable. Qed.
Hint Resolve stable_ledger_snapshot : stable.
Lemma stable_dependencies plan : stable (ensure_runtime_dependencies E plan).
Proof. unfold ensure_runtime_dependencies, restored_ledger. solve_stable. Qed.
Lemma stable_synchronize plan t v1 v2 s h : stable (synchronize E plan t v1 v2 s h).
Proof. unfold synchronize, issued_receipt. solve_stable. Qed.
Lemma stable_replayed events plan : stable (replayed_loop_guard E events plan).
Proof. unfold replayed_loop_guard. solve_stable. Qed.
Hint Resolve stable_dependencies stable_synchronize stable_replayed : stable.
Lemma stable_policy events plan view c usage observed : stable (policy_decision E events plan view c usage observed).
Proof.
  unfold policy_decision, settlement, settle_observed, settle_synthetic, reserve_and_settle, observe_action, observe_loop_checkpoint, judge.
  solve_stable.
Qed.
Lemma stable_cancel_backend plan : stable (cancel_backend E plan).
Proof. unfold cancel_backend. solve_stable. Qed.
Hint Resolve stable_policy stable_cancel_backend : stable.

Lemma safe_stable_bind {A B} st (m : io (Kernel W) A) (f : A -> io (Kernel W) B) :
  store_sound st -> stable m -> (forall a, safe st (f a)) -> safe st (m ≫= f).
Proof.
  intros Hst Hm Hf s Hs. unfold mbind, io_bind. specialize (Hm s). destruct (m s) as [s1 [a|e]]; simpl in *.
  - apply Hf. by rewrite Hm.
  - by rewrite Hm, Hs.
Qed.
Lemma safe_lift_bind {A B} st (r : result A) (f : A -> io (Kernel W) B) :
  store_sound st -> (forall a, r = Ok a -> safe st (f a)) -> safe st (lift r ≫= f).
Proof. intros Hst Hf s Hs. unfold mbind, io_bind, lift. destruct r as [a|e]; simpl; [by apply (Hf a)|by rewrite Hs]. Qed.
Lemma safe_yields_bind {A B} st (m : io (Kernel W) A) (f : A -> io (Kernel W) B) (Q : A -> Prop) :
  store_sound st -> stable m -> (forall s s' a, m s = (s', Ok a) -> Q a) -> (forall a, Q a -> safe st (f a)) -> safe st (m ≫= f).
Proof.
  intros Hst Hm HQ Hf s Hs. unfold mbind, io_bind. specialize (Hm s). specialize (HQ s). destruct (m s) as [s1 [a|e]]; simpl in *.
  - apply (Hf a); [by eapply HQ|by rewrite Hm].
  - by rewrite Hm, Hs.
Qed.
Lemma safe_bind_assoc {A B C} st (m : io (Kernel W) A) (f : A -> io (Kernel W) B) (g : B -> io (Kernel W) C) :
  safe st (m ≫= fun a => f a ≫= g) -> safe st ((m ≫= f) ≫= g).
Proof. intros H s Hs. specialize (H s Hs). unfold mbind, io_bind in *. destruct (m s) as [s1 [a|e]]; done. Qed.
Lemma safe_try {A} st (m : io (Kernel W) A) h :
  (forall s, kn_store s = st -> store_sound (kn_store (m s).1)) -> (forall st' e, store_sound st' -> safe st' (h e)) -> safe st (try_ m h).
Proof.
  intros Hm Hh s Hs. specialize (Hm s Hs). unfold try_. destruct (m s) as [s1 [a|e]]; simpl in *; [done|]. by apply (Hh (kn_store s1)).
Qed.
(** Reading a run's stream. *)
Lemma safe_load_bind {B} st run (f : list HarnessEvent -> io (Kernel W) B) :
  store_sound st -> (forall evs, loaded st run = Ok evs -> safe st (f evs)) -> safe st (load_events E run ≫= f).
Proof. intros Hst Hf s Hs. unfold mbind, io_bind, load_events. subst st. destruct (loaded (kn_store s) run) as [evs|e] eqn:El; [by eapply Hf|done]. Qed.
(** Appending an event that is sound after the run's stream. *)
Definition same_content (c e : HarnessEvent) : Prop :=
  ev_transition c = ev_transition e /\ authority_of c = authority_of e /\ ev_payload c = ev_payload e /\ ev_run_id c = ev_run_id e /\
  ev_event_type c = ev_event_type e.
Lemma safe_append_bind {B} st e n m (f : HarnessEvent -> io (Kernel W) B) prior :
  store_sound st -> model_validate_event clean e = Ok e -> loaded st (ev_run_id e) = Ok prior -> sound E prior e ->
  (forall c st', store_sound st' -> loaded st' (ev_run_id e) = Ok (prior ++ [c]) -> same_content c e -> safe st' (f c)) ->
  safe st (append_event E e n m ≫= f).
Proof.
  intros [Hok Hs] Hv Hl Hse Hf s Hst. unfold mbind, io_bind, append_event. subst st.
  destruct (append clean (k_sha256 (en_codec E)) hash (kn_store s) e n m None None) as [[c st']|x] eqn:Ea; [|by constructor].
  pose proof (append_loads clean (k_sha256 (en_codec E)) hash _ _ _ _ _ _ _ _ Hok Ea) as (prior' & Hp & Hp' & Hother).
  pose proof (store_step_ok clean (k_sha256 (en_codec E)) hash _ _ Hok (step_append _ _ _ _ _ _ _ _ _ _ _ Ea)) as Hok'.
  apply (append_inv clean (k_sha256 (en_codec E)) hash) in Ea as (ev & ? & ? & Hev & _ & Hc & _). rewrite Hv in Hev. injection Hev as <-.
  assert (Hrun : ev_run_id c = ev_run_id e) by by rewrite Hc. rewrite Hrun in *. rewrite Hl in Hp. injection Hp as <-.
  assert (Hsc : sound E prior c) by (rewrite Hc; by apply sound_recounted).
  assert (Hss : store_sound st').
  { split; [done|]. intros run evs He. destruct (decide (run = ev_run_id e)) as [->|Hne].
    - rewrite Hp' in He. injection He as <-. apply sound_stream_snoc; [by eapply Hs|done].
    - rewrite Hother in He by done. by eapply Hs. }
  eapply (Hf c st'); [done|done| |done]. rewrite Hc. by repeat split.
Qed.
(** What [_event] makes. *)
Lemma safe_event_bind {B} st plan type p t a (f : HarnessEvent -> io (Kernel W) B) :
  store_sound st -> ShortText (pl_run_id plan) = Ok (pl_run_id plan) -> optional validate_transition t = Ok t -> optional validate_authority a = Ok a ->
  ShortText type = Ok type ->
  (forall e, model_validate_event clean e = Ok e -> ev_run_id e = pl_run_id plan -> ev_transition e = t -> authority_of e = a ->
     ev_payload e = p -> ev_event_type e = type -> safe st (f e)) ->
  safe st (new_event E plan type p t a ≫= f).
Proof.
  intros Hst Hrun Ht Ha Htype Hf. unfold new_event.
  repeat (apply safe_bind_assoc; apply safe_stable_bind; [done|by auto with framed stable typeclass_instances|]; intros ?).
  match goal with |- safe st (match ?x with _ => _ end ≫= f) => destruct x; [|by apply safe_lift_bind] end.
  match goal with |- safe st (match ?x with _ => _ end ≫= f) => destruct x; [|by apply safe_lift_bind] end.
  do 3 (apply safe_bind_assoc; apply safe_stable_bind; [done|unfold identifier; solve_stable|]; intros ?).
  apply safe_lift_bind; [done|]. intros e He. apply Hf; [by eapply model_validate_event_idem; [apply _|]|..];
    unfold model_validate_event in He; rewrite model_Ok in He; destruct He as [He _]; unfold clean_event in He; inv_ok He; subst e; cbn in *.
  - congruence.
  - congruence.
  - unfold authority_of. cbn. match goal with H : (_ ← optional validate_authority a; _) = Ok _ |- _ => rewrite Ha in H; by injection H as <- end.
  - by apply Hclean.
  - congruence.
Qed.

(** ** Committing *)
Lemma run_state_text s : ShortText (run_state_value s) = Ok (run_state_value s).
Proof. by destruct s. Qed.
Lemma set_evidence_authorities v l o r : v_transition_authorities (set_evidence v l o r) = l.
Proof. done. Qed.
Lemma authorised_facts plan view target reason t a committed :
  authorised_transition plan view target reason = Ok (t, a, committed) -> ShortText reason = Ok reason ->
  validate_transition t = Ok t /\ validate_authority a = Ok a /\ authorises a t /\ tr_to_state t = run_state_value target /\
  tr_reason_code t = reason /\ (committed = true -> a ∈ v_transition_authorities view).
Proof.
  unfold authorised_transition. intros H Hr. inv_ok H. subst a0 a1. clear Hok1 Hok2 Hok3.
  pose proof (idem _ _ Hok) as Ht. pose proof (idem _ _ Hok0) as Ha. unfold validate_transition in Hok. unfold validate_authority in Hok0.
  rewrite model_Ok in Hok. rewrite model_Ok in Hok0. destruct Hok as [Hok _], Hok0 as [Hok0 _]. unfold clean_transition in Hok. unfold clean_authority in Hok0.
  inv_ok Hok. inv_ok Hok0. subst. cbn in *. rewrite !run_state_text in *.
  match goal with H : ShortText ("run-" +:+ _) = Ok ?k |- _ => pose proof (idem _ _ H) end.
  split_and!; [done|done|repeat split; cbn; congruence|congruence|congruence|apply bool_decide_eq_true].
Qed.
(** What a commit may carry, after a stream. *)
Record permitted (evs : list HarnessEvent) (target : RunState) (reason : string) (p : payload) : Prop := {
  pe_reason : ShortText reason = Ok reason;
  pe_source : claims_confidence p -> target = R_SUMMARIZING -> reason = "confidence_sufficient";
  pe_success : target = R_SUCCEEDED -> confident_summary evs }.
Lemma permitted_app evs l target reason p : permitted evs target reason p -> permitted (evs ++ l) target reason p.
Proof. intros []. constructor; auto using confident_summary_app. Qed.
Lemma permitted_put evs target reason p key value : key <> "summary_source" ->
  permitted evs target reason p -> permitted evs target reason (put p key value).
Proof. intros Hk []. constructor; [done| |done]. intros Hc. apply pe_source0. by apply claims_put in Hc. Qed.
(** A sufficient confidence comes from a decision on the stream, or from an authority
    of the stream that was earned. *)
Definition backed (evs : list HarnessEvent) (reason : string) (p : payload) : Prop :=
  reason = "confidence_sufficient" ->
  (exists p0, decided E evs p0 /\ settled p0 /\ agrees SETTLEMENT_KEYS p p0) \/ earned E evs p.
Lemma run_state_value_inj s s' : run_state_value s = run_state_value s' -> s = s'.
Proof. by destruct s, s'. Qed.

Section Commit.
Context (plan : HarnessPlan) (Hrun : ShortText (pl_run_id plan) = Ok (pl_run_id plan)).
Abbreviation run := (pl_run_id plan).
Lemma settlement_safe {B} st evs view p settlement (k : HarnessSessionView * payload -> io (Kernel W) B) :
  store_sound st -> loaded st run = Ok evs ->
  (forall st' view' value c, store_sound st' -> loaded st' run = Ok (evs ++ [c]) ->
     ev_event_type c = "budget_settlement_recorded" -> ev_payload c = [("budget_settlement", settlement)] ->
     safe st' (k (view', put p _BUDGET_SETTLEMENT_EVIDENCE_KEY value))) ->
  safe st (record_settlement E plan view p settlement ≫= k).
Proof.
  intros Hst Hl Hk. unfold record_settlement. apply safe_bind_assoc, safe_event_bind; [done..|]. intros e Hv He Ht Ha Hp Hty.
  apply safe_bind_assoc, (safe_append_bind _ _ _ _ _ evs); [done|done|by rewrite He|by apply observation_sound|].
  intros c st' Hst' Hl' (_ & _ & Hcp & _ & Hct). rewrite He in Hl'.
  do 2 (apply safe_bind_assoc, safe_stable_bind; [done|by auto with framed stable typeclass_instances|intros ?]).
  apply (Hk st' _ _ c); [done|done|by rewrite Hct|by rewrite Hcp].
Qed.
(** Recording the settlement of a decision earns its authority. *)
Lemma backed_recorded evs c reason p settlement value :
  backed evs reason p -> dict_get p _BUDGET_SETTLEMENT_EVIDENCE_KEY = Some settlement ->
  ev_event_type c = "budget_settlement_recorded" -> ev_payload c = [("budget_settlement", settlement)] ->
  reason = "confidence_sufficient" -> earned E (evs ++ [c]) (put p _BUDGET_SETTLEMENT_EVIDENCE_KEY value).
Proof.
  intros Hb Hs Ht Hp Hr. destruct (Hb Hr) as [(p0 & Hd & Hset & Ha)|He].
  2: { apply earned_put; [by apply (bool_decide_unpack _)|]. by apply earned_app. }
  exists (length evs), c, p0, settlement. rewrite take_app_length, lookup_app_r, Nat.sub_diag by lia.
  pose proof Ha as Ha'. unfold agrees in Ha'. rewrite Forall_forall in Ha'.
  split_and!; [done| |done|done|done| |].
  - rewrite <- Hs. symmetry. apply Ha'. by left.
  - apply settled_put. by eapply settled_agrees.
  - apply agrees_put; [by apply (bool_decide_unpack _)|]. eapply agrees_sub; [|exact Ha]. intros k Hk. by right.
Qed.
Lemma backed_unsettled evs reason p :
  backed evs reason p -> dict_get p _BUDGET_SETTLEMENT_EVIDENCE_KEY = None -> reason = "confidence_sufficient" -> earned E evs p.
Proof.
  intros Hb Hn Hr. destruct (Hb Hr) as [(p0 & _ & Hset & Ha)|He]; [|done]. exfalso.
  pose proof (settled_agrees _ _ Hset Ha) as Hp. unfold settled in Hp. rewrite Forall_forall in Hp.
  destruct (Hp _BUDGET_SETTLEMENT_EVIDENCE_KEY ltac:(by left)) as [v Hv]. congruence.
Qed.
Lemma authority_safe {B} st evs view target reason p t a committed (k : HarnessSessionView * payload -> io (Kernel W) B) :
  store_sound st -> loaded st run = Ok evs -> folded evs = Ok view -> permitted evs target reason p -> backed evs reason p ->
  authorised_transition plan view target reason = Ok (t, a, committed) ->
  (forall st' view' p' evs', store_sound st' -> loaded st' run = Ok evs' -> (exists e, e ∈ evs' /\ authority_of e = Some a) ->
     permitted evs' target reason p' -> safe st' (k (view', p'))) ->
  safe st (commit_authority E plan view reason p a committed ≫= k).
Proof.
  intros Hst Hl Hf Hp Hb Hat Hk. destruct (authorised_facts _ _ _ _ _ _ _ Hat (pe_reason _ _ _ _ Hp)) as (_ & Ha & Hau & Hto & Hre & Hco).
  destruct Hau as (_ & _ & _ & Hto' & _ & _ & Hre' & _). unfold commit_authority. destruct committed.
  { eapply (Hk st view p evs); [done|done| |done]. destruct (ss_ok _ Hst run) as (evs' & v & Hl' & Hf' & _).
    rewrite Hl in Hl'. injection Hl' as <-. rewrite Hf in Hf'. injection Hf' as <-.
    pose proof (load_clean clean st run evs Hl) as Hcl.
    destruct (fold_from_source clean (k_sha256 (en_codec E)) hash evs empty_view 1 view Hcl ltac:(constructor) Hf) as [H _].
    by destruct (H a (Hco eq_refl)) as [[]%elem_of_nil|?]. }
  assert (Hgo : forall st' view' p' l, store_sound st' -> loaded st' run = Ok (evs ++ l) -> permitted evs target reason p' ->
    (reason = "confidence_sufficient" -> earned E (evs ++ l) p') ->
    safe st' ((e ← new_event E plan "transition_authorized" (put p' "reason_code" (JStr reason)) None (Some a);
               _ ← append_event E e (v_sequence view') (v_state_revision view');
               pre_view ← kernel_snapshot E run; mret (pre_view, p')) ≫= k)).
  { intros st' view' p' l Hst' Hl' Hp' He'. apply safe_bind_assoc, safe_event_bind; [done|done|done|by cbn; rewrite Ha|done|].
    intros e Hv He Ht Hae Hpe _. pose proof (permitted_put _ _ _ _ "reason_code" (JStr reason) ltac:(done) (permitted_app _ l _ _ _ Hp')) as Hpp.
    rewrite <- Hpe in Hpp. apply safe_bind_assoc, (safe_append_bind _ _ _ _ _ (evs ++ l)); [done|done|by rewrite He| |].
    { destruct Hpp. constructor; intros x; rewrite ?Ht, ?Hae; intros [= <-]; rewrite ?Hre', ?Hto', ?Hre, ?Hto.
      - intros Hr. rewrite Hpe. apply earned_put; [by apply (bool_decide_unpack _)|by apply He'].
      - intros Hc Hs. apply pe_source0; [done|]. by apply run_state_value_inj.
      - intros Hs. apply pe_success0. by apply run_state_value_inj. }
    intros c st2 Hst2 Hl2 (_ & Hca & _). rewrite He in Hl2. apply safe_bind_assoc, safe_stable_bind; [done|by auto with framed stable typeclass_instances|].
    intros pre. eapply Hk; [done|done| |].
    - exists c. split; [apply elem_of_app; right; left|congruence].
    - rewrite <- app_assoc. by apply permitted_app. }
  destruct (dict_get p _BUDGET_SETTLEMENT_EVIDENCE_KEY) as [settlement|] eqn:Es.
  - apply safe_bind_assoc, (settlement_safe _ evs); [done|done|]. intros st' view' value c Hst' Hl' Hct Hcp.
    eapply Hgo; [done|done|by apply permitted_put|]. by apply (backed_recorded evs c reason p settlement).
  - apply safe_bind_assoc. eapply (Hgo st view p []); [done|by rewrite app_nil_r|done|]. rewrite app_nil_r. by eapply backed_unsettled.
Qed.
Lemma commit_safe {B} st evs view target reason handle p (k : HarnessSessionView * HarnessTransition * bool -> io (Kernel W) B) :
  store_sound st -> loaded st run = Ok evs -> folded evs = Ok view -> permitted evs target reason p -> backed evs reason p ->
  (handle = None -> evs = [] /\ target = R_CREATED) -> (forall st' r, store_sound st' -> safe st' (k r)) ->
  safe st (commit_run_transition E plan view target reason handle p ≫= k).
Proof.
  intros Hst Hl Hf Hp Hb Hh Hk. unfold commit_run_transition. apply safe_bind_assoc, safe_lift_bind; [done|]. intros [[t a] committed] Hat.
  destruct (authorised_facts _ _ _ _ _ _ _ Hat (pe_reason _ _ _ _ Hp)) as (Ht & _ & Hau & Hto & Hre & _).
  (* the transition's event, after a stream that authorises it *)
  assert (Hgo : forall st' evs' n m p' (g : HarnessEvent -> io (Kernel W) (HarnessSessionView * HarnessTransition * bool)),
    store_sound st' -> loaded st' run = Ok evs' -> (claims_confidence p' -> target = R_SUMMARIZING -> reason = "confidence_sufficient") ->
    (target = R_SUCCEEDED -> confident_summary evs') ->
    (evs' = [] /\ target = R_CREATED \/ exists e, e ∈ evs' /\ authority_of e = Some a) -> (forall c, stable (g c)) ->
    safe st' ((e ← new_event E plan "transition_committed" p' (Some t) None; c ← append_event E e n m; g c) ≫= k)).
  { intros st' evs' n m p' g Hst' Hl' Hsource Hsuccess Hor Hg. apply safe_bind_assoc, safe_event_bind; [done|done|by cbn; rewrite Ht|done|done|].
    intros e Hv He Hte Hae Hpe _. rewrite <- Hpe in Hsource. apply safe_bind_assoc, (safe_append_bind _ _ _ _ _ evs'); [done|done|by rewrite He| |].
    { constructor; intros x; rewrite ?Hte, ?Hae; intros [= <-]; rewrite ?Hre, ?Hto.
      - destruct Hor as [[? ->]|(e' & ? & ?)]; [by left|right]. by exists e', a.
      - intros Hc Hs. apply Hsource; [done|]. by apply run_state_value_inj.
      - intros Hs. apply Hsuccess. by apply run_state_value_inj. }
    intros c st2 Hst2 _ _. apply safe_stable_bind; [done|by apply Hg|]. intros r. by apply Hk. }
  destruct (negb (is_Some_b (v_run_id view)) && negb (is_Some_b handle)) eqn:Eb.
  - apply (Hgo st evs); [done|done|by rewrite claims_put; [apply Hp|]|apply Hp| |intros c; solve_stable].
    left. apply Hh. apply andb_true_iff in Eb as [_ Eb]. by destruct handle.
  - apply safe_bind_assoc, (authority_safe _ evs _ target _ _ t); [done..|]. intros st' view' p' evs' Hst' Hl' Hau' Hp'.
    apply safe_bind_assoc, safe_stable_bind; [done|by auto with framed stable typeclass_instances|]. intros snapshot.
    apply safe_bind_assoc, safe_stable_bind; [done|solve_stable|]. intros h.
    apply (Hgo st' evs'); [done|done| |apply Hp'|by right|intros c; solve_stable].
    rewrite claims_put, claims_observed by done. apply Hp'.
Qed.
End Commit.

(** ** What an advance commits is permitted *)
Definition outcome_permitted (evs : list HarnessEvent) (o : Outcome) : Prop := let '(target, reason, _, p) := o in permitted evs target reason p.
Lemma degrading_permitted evs o : degrading o -> outcome_permitted evs o.
Proof.
  intros (reason & p & -> & Hr). unfold degrade. cbn [outcome_permitted].
  assert (H : Forall (fun r => ShortText r = Ok r /\ r <> "confidence_sufficient") DEGRADING_REASONS)
    by (unfold DEGRADING_REASONS; repeat (constructor; [done|]); constructor).
  rewrite Forall_forall in H. destruct (H _ Hr). by constructor.
Qed.
Lemma gate_permitted evs p d : outcome_permitted evs (gate_outcome p d).
Proof.
  unfold gate_outcome. destruct (ConfidenceGate.cd_may_succeed d); [by constructor|by apply degrading_permitted, degrading_intro].
Qed.
Lemma summary_source_found evs view : summary_source evs view = Ok "confidence_success" -> sound_stream E evs -> confident_summary evs.
Proof.
  unfold summary_source. intros H Hs. destruct (List.find _ _) as [e|] eqn:Ef; [|done]. apply List.find_some in Ef as [Hin Hm].
  apply list_elem_of_In, elem_of_reverse in Hin. rewrite reverse_involutive in Hin. apply list_elem_of_lookup in Hin as [i Hi]. destruct (is_str (payload_get e _) "confidence_success") eqn:Ec;
    [|by destruct (is_str (payload_get e _) "degradation")].
  unfold summarizes in Hm. destruct (ev_transition e) as [t|] eqn:Et; [|done]. rewrite !andb_true_iff, String.eqb_eq in Hm.
  destruct Hm as [[_ Hto] _]. exists e, t. split; [apply list_elem_of_lookup; by exists i|]. split; [done|]. split; [done|].
  by apply (so_transition_source _ _ _ (Hs _ _ Hi) t Et); [apply is_str_get|].
Qed.
Lemma policy_permitted events plan view c usage observed s s' o : sound_stream E events ->
  policy_decision E events plan view c usage observed s = (s', Ok o) -> outcome_permitted events o.
Proof.
  intros Hs [H|[_ [Ho|(p & gate & _ & _ & ->)]]]%policy_decision_cases; [|by apply degrading_permitted|by apply gate_permitted].
  unfold settled_policy in H. destruct (v_run_state view) as [source|]; [|done].
  destruct source; simpl in H; try done; try (injection H as <-; by constructor).
  apply bind_Ok in H as (source & Hsrc & H). destruct (String.eqb_spec source "confidence_success") as [->|]; injection H as <-; [|by constructor].
  constructor; try done. intros _. by eapply summary_source_found.
Qed.
Lemma advance_fields_permitted evs target reason p prompt accepted candidate no_trade :
  permitted evs target reason p -> permitted evs target reason (advance_fields p prompt accepted candidate no_trade).
Proof. intros H. unfold advance_fields. destruct prompt, accepted, candidate; by repeat (apply permitted_put; [done|]). Qed.
Lemma advance_fields_agrees keys p prompt accepted candidate no_trade :
  Forall (fun k => k ∉ keys) ["prompt_release_digest"; "accepted_result_digest"; "no_trade"; "candidate_digest"] ->
  agrees keys (advance_fields p prompt accepted candidate no_trade) p.
Proof.
  rewrite !Forall_cons. intros (H1 & H2 & H3 & H4 & _). assert (agrees keys p p) by (by apply Forall_forall).
  unfold advance_fields. destruct prompt, accepted, candidate; by repeat (apply agrees_put; [done|]).
Qed.
(** The payload of a pending authority, with its reason and its target. *)
Lemma pending_permitted evs view a target p : sound_stream E evs -> Forall (fun x => validate_authority x = Ok x) (v_transition_authorities view) ->
  pending_authority evs view = Ok (Some (a, target, p)) ->
  permitted evs target (ta_reason_code a) p /\ backed evs (ta_reason_code a) p.
Proof.
  intros Hs Hv H. unfold pending_authority in H. destruct (List.filter _ (v_transition_authorities view)) as [|a' []] eqn:Ea; try done.
  assert (Hin : a' ∈ v_transition_authorities view).
  { apply list_elem_of_In. apply (List.filter_In (fun x => negb (bool_decide (ta_idempotency_key x ∈ v_applied_idempotency_keys view)) && (ta_expected_state_revision x =? v_state_revision view))).
    rewrite Ea. by left. }
  destruct (List.filter _ evs) as [|e []] eqn:Ee; try done. destruct (run_state_of (ta_to_state a')) as [s|] eqn:Es; [|done].
  inv_ok H. subst a target p. assert (He : e ∈ evs /\ authority_of e = Some a').
  { assert (X : In e (List.filter (fun x => bool_decide (authority_of x = Some a')) evs)) by (rewrite Ee; by left).
    apply List.filter_In in X as [X1 X2%bool_decide_eq_true]. split; [by apply list_elem_of_In|done]. }
  destruct He as [He Hae]. apply list_elem_of_lookup in He as [i Hi]. destruct (Hs _ _ Hi) as [_ S1 _ S2 _ S3].
  assert (Hto : ta_to_state a' = run_state_value s) by by apply enum_of_value in Es.
  split; [|intros Hr; right; eapply earned_take; by apply (S1 a')]. constructor.
  - rewrite Forall_forall in Hv. specialize (Hv _ Hin). unfold validate_authority in Hv. rewrite model_Ok in Hv. destruct Hv as [Hv _].
    unfold clean_authority in Hv. inv_ok Hv. rewrite <- Hv. cbn. match goal with H : ShortText (ta_reason_code a') = Ok _ |- _ => by apply idem in H end.
  - intros Hc ->. by apply (S2 a').
  - intros ->. eapply confident_summary_take. by apply (S3 a').
Qed.

(** ** The operations *)
Lemma clean_authority_of e a : model_validate_event clean e = Ok e -> authority_of e = Some a -> validate_authority a = Ok a.
Proof.
  intros He Ha. apply event_clean_fix in He as []. unfold authority_of in Ha.
  destruct (ev_transition_authority e) as [[r|]|]; [|done|done]. injection Ha as ->. simpl in ec_authority.
  by destruct (validate_authority a); [injection ec_authority as ->|].
Qed.
Lemma folded_authorities_clean st run evs view : loaded st run = Ok evs -> folded evs = Ok view ->
  Forall (fun a => validate_authority a = Ok a) (v_transition_authorities view).
Proof.
  intros Hl Hf. pose proof (load_clean clean st run evs Hl) as Hcl.
  destruct (fold_from_source clean (k_sha256 (en_codec E)) hash evs empty_view 1 view Hcl ltac:(constructor) Hf) as [H _].
  apply Forall_forall. intros a [[]%elem_of_nil|(e & He & Hae)]%H. rewrite Forall_forall in Hcl. by eapply clean_authority_of; [apply Hcl|].
Qed.
Lemma safe_load_run {B} st run_id (k : list HarnessEvent * HarnessPlan * HarnessSessionView -> io (Kernel W) B) :
  store_sound st ->
  (forall evs plan view, loaded st (pl_run_id plan) = Ok evs -> folded evs = Ok view -> plan_from_events E evs = Ok plan ->
     pl_run_id plan = run_id -> ShortText (pl_run_id plan) = Ok (pl_run_id plan) -> safe st (k (evs, plan, view))) ->
  safe st (load_run E run_id ≫= k).
Proof.
  intros Hst Hk. unfold load_run. apply safe_bind_assoc, safe_load_bind; [done|]. intros evs Hl.
  apply safe_bind_assoc, safe_lift_bind; [done|]. intros _ _. apply safe_bind_assoc, safe_lift_bind; [done|]. intros view Hf.
  apply safe_bind_assoc, safe_lift_bind; [done|]. intros plan Hp. apply safe_bind_assoc, safe_lift_bind; [done|]. intros u Hc.
  apply check_Ok in Hc. rewrite !andb_true_iff in Hc. destruct Hc as [[[Hid%String.eqb_eq _] _] _]. subst run_id. apply (Hk evs plan view); [done..|].
  unfold plan_from_events in Hp. destruct (omap _ evs) as [|j []]; try done; [|by destruct j]. destruct j; try done.
  destruct (k_read_plan _ _) as [raw|]; [|done]. apply except_as_Ok in Hp. by eapply plan_run_clean.
Qed.
Lemma observation_safe {B} st evs plan view type p (k : HarnessSessionView -> io (Kernel W) B) :
  store_sound st -> loaded st (pl_run_id plan) = Ok evs -> ShortText (pl_run_id plan) = Ok (pl_run_id plan) -> ShortText type = Ok type ->
  (forall st' view' l, store_sound st' -> loaded st' (pl_run_id plan) = Ok (evs ++ l) -> folded (evs ++ l) = Ok view' -> safe st' (k view')) ->
  safe st (append_observation E plan view type p ≫= k).
Proof.
  intros Hst Hl Hrun Hty Hk. unfold append_observation. apply safe_bind_assoc, safe_event_bind; [done..|]. intros e Hv He Ht Ha Hp _.
  apply safe_bind_assoc, (safe_append_bind _ _ _ _ _ evs); [done|done|by rewrite He|by apply observation_sound|].
  intros c st' Hst' Hl' _. rewrite He in Hl'. unfold kernel_snapshot. apply safe_bind_assoc, safe_lift_bind; [done|].
  intros run Hr. unfold strict_run_id in Hr. inv_ok Hr. subst run. apply safe_bind_assoc, safe_load_bind; [done|]. intros evs' Hl2.
  rewrite Hl' in Hl2. injection Hl2 as <-. apply safe_bind_assoc, safe_lift_bind; [done|]. intros _ _. apply safe_lift_bind; [done|].
  intros view' Hf. by eapply Hk.
Qed.
(** The rest of a call after its last append. *)
Ltac finish_stable := apply stable_safe; [done|solve_stable].
Ltac calls := repeat (apply safe_stable_bind; [done|by auto with framed stable typeclass_instances|]; intros ?).

(** After the dependencies of a plan were made: unless its binding failed, the gate the
    kernel holds for the run is one the factory made for the plan, and matches it. *)
Definition gated (plan : HarnessPlan) (s : Kernel W) : Prop :=
  (pl_run_id plan ∉ kn_binding_failed s) ->
  exists gate, kn_confidence_gates s !! pl_run_id plan = Some gate /\
    (exists w w', en_confidence_gate E plan w = (w', Ok (Some gate))) /\ confidence_gate_matches_plan E plan gate = true.
Definition safe_gated {A} (st : Store) (plan : HarnessPlan) (m : io (Kernel W) A) : Prop :=
  forall s, kn_store s = st -> gated plan s -> store_sound (kn_store (m s).1).
Lemma gates_gated plan s s' : gates s' = gates s -> gated plan s -> gated plan s'.
Proof. unfold gates, gated. by intros [= -> ->]. Qed.
Lemma dependencies_gated plan s s' u : ensure_runtime_dependencies E plan s = (s', Ok u) -> gated plan s'.
Proof.
  unfold ensure_runtime_dependencies. intros H.
  apply io_bind_inv in H as [(s1 & u1 & _ & H)|(e & _ & [=])].
  apply io_bind_inv in H as [(s2 & guard & _ & H)|(e & _ & [=])].
  apply io_bind_inv in H as [(s3 & made & Hmade & H)|(e & _ & [=])].
  do 3 (apply io_bind_inv in H as [(? & ? & _ & H)|(e & _ & [=])]).
  apply io_bind_inv in H as [(s4 & gate & Hgate & H)|(e & _ & [=])]. apply lift_inv in Hgate as [-> Hgate].
  do 2 (apply io_bind_inv in H as [(? & ? & _ & H)|(e & _ & [=])]). injection H as <- _.
  unfold exact in Hgate. destruct made as [gate'|]; [|done]. injection Hgate as ->. unfold call in Hmade.
  destruct (en_confidence_gate E plan (kn_world s2)) as [w r] eqn:Ef. injection Hmade as _ ->.
  intros Hb. exists gate'. cbn in *. rewrite lookup_insert_eq. split; [done|]. split; [by eexists _, _|].
  destruct (confidence_gate_matches_plan E plan gate'); [done|]. set_solver.
Qed.
Lemma safe_dependencies_bind {B} st plan (f : unit -> io (Kernel W) B) :
  store_sound st -> safe_gated st plan (f tt) -> safe st (ensure_runtime_dependencies E plan ≫= f).
Proof.
  intros Hst Hf s Hs. unfold mbind, io_bind. pose proof (stable_dependencies plan s) as Hm.
  pose proof (dependencies_gated plan s) as Hg. destruct (ensure_runtime_dependencies E plan s) as [s1 [[]|e]]; cbn in *.
  - apply Hf; [by rewrite Hm|by eapply Hg].
  - by rewrite Hm, Hs.
Qed.
Lemma safe_gated_bind {A B} st plan (m : io (Kernel W) A) (f : A -> io (Kernel W) B) :
  store_sound st -> stable m -> framed gates m -> (forall a, safe_gated st plan (f a)) -> safe_gated st plan (m ≫= f).
Proof.
  intros Hst Hm Hg Hf s Hs Hgs. unfold mbind, io_bind. specialize (Hm s). specialize (Hg s).
  destruct (m s) as [s1 [a|e]]; cbn in *; [|by rewrite Hm, Hs]. apply Hf; [by rewrite Hm|by eapply gates_gated].
Qed.
(** The policy's answer, in a state that holds the stream and the plan's gate. *)
Lemma safe_policy_bind {B} st evs plan view c usage observed (f : Outcome -> io (Kernel W) B) :
  store_sound st -> loaded st (pl_run_id plan) = Ok evs -> folded evs = Ok view -> plan_from_events E evs = Ok plan ->
  (forall o, outcome_permitted evs o ->
     (let '(_, reason, _, p) := o in reason = "confidence_sufficient" -> decided E evs p /\ settled p) -> safe st (f o)) ->
  safe_gated st plan (policy_decision E evs plan view c usage observed ≫= f).
Proof.
  intros Hst Hl Hf Hp Hk s Hs Hg. unfold mbind, io_bind. pose proof (stable_policy evs plan view c usage observed s) as Hm.
  destruct (policy_decision E evs plan view c usage observed s) as [s1 [o|e]] eqn:Ed; cbn in *; [|by rewrite Hm, Hs].
  apply Hk; [by eapply policy_permitted; [by eapply ss_sound|]| |by rewrite Hm].
  destruct o as [[[target reason] no_trade] p]. intros ->.
  destruct (confidence_sufficient_inv _ _ _ _ _ _ _ _ _ _ _ _ Ed) as (_ & -> & -> & _ & gate & [Hb Hgate] & Hmay & (_ & spent & _ & Hset & Ha)).
  split; [|by eapply settled_agrees]. destruct (Hg Hb) as (gate' & Hgate' & Hmade & Hmatch). rewrite Hgate in Hgate'. injection Hgate' as <-.
  exists plan, view, c, usage, observed, s, s1, gate. rewrite Hs. by split_and!.
Qed.

Lemma advance_once_safe args run_id st : store_sound st -> safe st (advance_once E args run_id).
Proof.
  intros Hst. unfold advance_once. apply safe_load_run; [done|]. intros evs plan view Hl Hf Hpl <- Hrun.
  pose proof (ss_sound _ Hst _ _ Hl) as Hs. pose proof (folded_authorities_clean _ _ _ _ Hl Hf) as Hcl.
  apply safe_lift_bind; [done|]. intros [[[a target] p]|] Hpend.
  { unfold complete_pending. calls. destruct (pending_permitted _ _ _ _ _ Hs Hcl Hpend) as [Hp Hb].
    apply (commit_safe plan Hrun st evs); [done..|].
    intros st' [[post t] sync] Hst'. finish_stable. }
  apply safe_lift_bind; [done|]. intros _ _. match goal with |- safe st (if ?b then _ else _) => destruct b; [finish_stable|] end.
  destruct (candidate_of E (aa_candidate args)) as [[parsed|] digest].
  2:{ apply (observation_safe _ evs); [done..|]. intros. finish_stable. }
  unfold answer. apply safe_stable_bind; [done|solve_stable|]. intros [[t p]|]; [unfold replay_candidate; finish_stable|].
  destruct (in_states _ _); [finish_stable|]. destruct (bool_decide _); [finish_stable|]. unfold decide_and_commit.
  apply safe_dependencies_bind; [done|].
  do 4 (apply safe_gated_bind; [done|by auto with framed stable typeclass_instances|unfold issued_snapshot; solve_framed|]; intros ?).
  apply safe_policy_bind; [done..|]. intros [[[target reason] no_trade] p] Hp Hd.
  apply (commit_safe plan Hrun st evs); [done|done|done|by apply advance_fields_permitted| |done|].
  { intros Hr. left. destruct (Hd Hr) as [Hd' Hset]. exists p. split; [done|]. split; [done|].
    apply advance_fields_agrees. apply (bool_decide_unpack _). vm_compute. exact I. }
  intros st' [[post t] sync] Hst'. finish_stable.
Qed.
Lemma cancel_once_safe reason run_id st : store_sound st -> safe st (cancel_once E reason run_id).
Proof.
  intros Hst. unfold cancel_once. apply safe_lift_bind; [done|]. intros _ _. apply safe_load_run; [done|]. intros evs plan view Hl Hf Hpl <- Hrun.
  apply safe_lift_bind; [done|]. intros _ _.
  assert (Hgo : forall st' view' l, store_sound st' -> loaded st' (pl_run_id plan) = Ok (evs ++ l) -> folded (evs ++ l) = Ok view' ->
    safe st' (if bool_decide (v_run_state view' = Some R_WAITING_RECONCILIATION) || v_external_side_effect_unknown view'
              then lift (decision plan view' "cancellation_waits_for_reconciliation" None None (Some true) false)
              else if bool_decide (v_run_state view' = Some R_CANCELLED) then finish_cancelled E plan view'
              else if in_states (v_run_state view') RUN_TERMINAL_STATES
              then lift (decision plan view' "cancellation_intent_recorded" None None None false)
              else commit_cancellation E plan view')).
  { intros st' view' l Hst' Hl' Hf'. destruct (_ || _); [finish_stable|].
    destruct (bool_decide _); [unfold finish_cancelled; finish_stable|]. destruct (in_states _ _); [finish_stable|].
    unfold commit_cancellation. calls. apply (commit_safe plan Hrun st' (evs ++ l)); [done|done|done|by constructor|done|done|].
    intros st2 [[post t] sync] Hst2. finish_stable. }
  destruct (List.filter _ evs).
  - apply (observation_safe _ evs); [done..|]. intros st' view' l Hst' Hl' Hf'. by eapply Hgo.
  - eapply (Hgo st view []); [done|by rewrite app_nil_r|by rewrite app_nil_r].
Qed.
Lemma record_checkpoint_once_safe raw run_id st : store_sound st -> safe st (record_checkpoint_once E raw run_id).
Proof.
  intros Hst. unfold record_checkpoint_once. apply safe_load_run; [done|]. intros evs plan view Hl Hf Hpl <- Hrun.
  do 2 (apply safe_lift_bind; [done|]; intros ? _). do 7 (apply safe_lift_bind; [done|]; intros ? _). calls.
  repeat (apply safe_lift_bind; [done|]; intros ? _).
  match goal with |- safe st (let '_ := ?x in _) => destruct x end.
  apply safe_lift_bind; [done|]. intros ? _. apply (observation_safe _ evs); [done..|]. intros. finish_stable.
Qed.
Lemma create_safe request st : store_sound st -> safe st (create E request).
Proof.
  intros Hst. unfold create. apply safe_load_bind; [done|]. intros evs Hl. apply safe_lift_bind; [done|]. intros u He.
  apply check_Ok, bool_decide_eq_true in He. subst evs. apply safe_stable_bind; [done|by auto with framed stable typeclass_instances|]. intros raw.
  apply safe_lift_bind; [done|]. intros plan Hp. apply except_as_Ok in Hp. pose proof (plan_run_clean _ _ Hp) as Hrun.
  apply safe_lift_bind; [done|]. intros u' Hc. apply check_Ok in Hc. rewrite !andb_true_iff in Hc.
  destruct Hc as [[_ Hid%String.eqb_eq] _]. rewrite <- Hid in Hl. apply safe_lift_bind; [done|]. intros provisional _.
  apply safe_stable_bind; [done|unfold prepare_dependencies; solve_stable|]. intros token.
  intros s Hs. unfold mbind, io_bind.
  assert (H : safe st (unless_done ('(view, _, _) ← commit_run_transition E plan empty_view R_CREATED "run_created" None
      [("plan_json", JStr (k_plan_text (en_codec E) plan)); ("request_digest", JStr (wq_request_digest request))];
     snapshot ← issued_snapshot E plan view; _ ← call (en_commit_registration E token snapshot); mret view)
     (call (en_rollback_registration E token)))).
  { apply safe_try; [|intros st' e Hst'; finish_stable].
    apply (commit_safe plan Hrun st []); [done|done|done|by constructor|done|done|]. intros st' [[view t] sync] Hst'. finish_stable. }
  specialize (H s Hs). unfold mbind, io_bind in H. destruct (unless_done _ _ s) as [s1 [view|e]]; exact H.
Qed.
Lemma serialized_safe {A} (method : string -> io (Kernel W) A) run_id st :
  (forall st run, store_sound st -> safe st (method run)) -> store_sound st -> safe st (serialized method run_id).
Proof.
  intros Hm Hst. unfold serialized. apply safe_lift_bind; [done|]. intros run _. apply safe_try; [by apply Hm|].
  intros st' e Hst'. destruct (conflict e); [|finish_stable]. apply safe_stable_bind; [done|solve_stable|]. intros ?.
  apply safe_try; [by apply Hm|]. intros st2 e2 Hst2. finish_stable.
Qed.

(** ** Everything that can happen to the store

    Any operation with any arguments, and a restart: a new process has the store and
    nothing else, its caches and its collaborators anew. *)
Inductive KernelOp :=
  | OpCreate (request : WorkflowRequest W) | OpAdvance (run_id : string) (args : AdvanceArguments) | OpCancel (run_id reason : string)
  | OpCheckpoint (run_id : string) (raw : NodeCheckpoint) | OpResume (run_id : string) | OpReceipt (run_id : string)
  | OpHandle (run_id : string) | OpHistory (run_id : string) | OpInventory (run_id : string).
Definition kernel_op (o : KernelOp) (s : Kernel W) : Kernel W :=
  match o with
  | OpCreate request => (create E request s).1 | OpAdvance run_id args => (advance E args run_id s).1
  | OpCancel run_id reason => (cancel E reason run_id s).1 | OpCheckpoint run_id raw => (record_checkpoint E raw run_id s).1
  | OpResume run_id => (resume E run_id s).1 | OpReceipt run_id => (terminal_receipt E run_id s).1
  | OpHandle run_id => (handle E run_id s).1 | OpHistory run_id => (checkpoint_history E run_id s).1
  | OpInventory run_id => (coordinator_task_inventory E run_id s).1
  end.
Inductive kernel_step (s s' : Kernel W) : Prop :=
  | step_op o : s' = kernel_op o s -> kernel_step s s'
  | step_restart : kn_store s' = kn_store s -> kernel_step s s'.
Definition kernel_reachable (s : Kernel W) : Prop := exists s0, kn_store s0 = empty_store /\ rtc kernel_step s0 s.

Lemma kernel_step_sound s s' : store_sound (kn_store s) -> kernel_step s s' -> store_sound (kn_store s').
Proof.
  intros Hs Hstep. destruct Hstep as [o Ho|Ho]; [subst s'|by rewrite Ho].
  assert (H : forall A (m : io (Kernel W) A), stable m -> store_sound (kn_store (m s).1)) by (intros A m Hm; by rewrite Hm).
  destruct o; cbn [kernel_op].
  - by eapply create_safe.
  - eapply serialized_safe; [intros; by apply advance_once_safe|exact Hs|done].
  - eapply serialized_safe; [intros; by apply cancel_once_safe|exact Hs|done].
  - eapply serialized_safe; [intros; by apply record_checkpoint_once_safe|exact Hs|done].
  - apply H. unfold resume. solve_stable.
  - apply H. unfold terminal_receipt. solve_stable.
  - apply H. unfold handle. solve_stable.
  - apply H. unfold checkpoint_history. solve_stable.
  - apply H. unfold coordinator_task_inventory, checkpoint_history. solve_stable.
Qed.
Lemma kernel_reachable_sound s : kernel_reachable s -> store_sound (kn_store s).
Proof.
  intros (s0 & H0 & H). assert (Hs : store_sound (kn_store s0)).
  { rewrite H0. split; [apply empty_store_ok|]. intros run evs [= <-] i e [=]. }
  clear H0. induction H as [|a b c Hab _ IH]; [done|]. by apply IH, (kernel_step_sound a).
Qed.
Lemma kernel_reachable_ops ops s0 : kn_store s0 = empty_store -> kernel_reachable (foldl (fun s o => kernel_op o s) s0 ops).
Proof.
  intros H0. exists s0. split; [done|]. clear H0. revert s0. induction ops as [|o ops IH]; intros s0; [done|].
  eapply rtc_l; [by apply (step_op _ _ o)|apply IH].
Qed.

(** C3.  Authority before effect: in every stream the kernel can leave, through any
    sequence of its operations, failures and restarts, a transition past the creation is
    preceded by an event whose authority record names that very transition. *)
Theorem every_transition_was_authorised s run evs i e t :
  kernel_reachable s -> loaded (kn_store s) run = Ok evs -> evs !! i = Some e -> ev_transition e = Some t ->
  (i = 0%nat /\ tr_to_state t = run_state_value R_CREATED) \/
  exists j e' a, (j < i)%nat /\ evs !! j = Some e' /\ authority_of e' = Some a /\ authorises a t.
Proof.
  intros Hr Hl Hi Ht. destruct (so_authorised _ _ _ (ss_sound _ (kernel_reachable_sound _ Hr) _ _ Hl _ _ Hi) t Ht) as [[Hn ?]|(e' & a & He & ?)].
  - left. split; [|done]. apply (f_equal length) in Hn. rewrite length_take in Hn. apply lookup_lt_Some in Hi. simpl in Hn. lia.
  - right. apply list_elem_of_lookup in He as [j Hj]. pose proof (lookup_lt_Some _ _ _ Hj) as Hlt. rewrite length_take in Hlt.
    rewrite lookup_take_lt in Hj by lia. exists j, e', a. split; [lia|done].
Qed.
(** C4.  No unearned success: a run whose stream folds to [succeeded] has in its stream
    an authority for its summary, for a sufficient confidence, that was earned.  On a
    prefix of the stream, with the stream's plan and view, the policy decided on the
    verdict of the gate the host's factory made for this run's plan, bound to it, on the
    candidate's evidence; the settlement of that decision is the event that follows the
    prefix; and the authority carries the projection the decision settled. *)
Theorem success_is_gated_and_settled s run evs view :
  kernel_reachable s -> loaded (kn_store s) run = Ok evs -> folded evs = Ok view -> v_run_state view = Some R_SUCCEEDED ->
  exists j e a, evs !! j = Some e /\ authority_of e = Some a /\ ta_reason_code a = "confidence_sufficient" /\
    ta_to_state a = run_state_value R_SUMMARIZING /\ earned E (take j evs) (ev_payload e).
Proof.
  intros Hr Hl Hf Hv. pose proof (ss_sound _ (kernel_reachable_sound _ Hr) _ _ Hl) as Hs. pose proof (load_clean clean _ run evs Hl) as Hcl.
  destruct (fold_from_source clean (k_sha256 (en_codec E)) hash evs empty_view 1 view Hcl ltac:(constructor) Hf) as [_ [H|(e & r & He & Hv' & Ht)]].
  { rewrite Hv in H. done. }
  rewrite Hv in Hv'. injection Hv' as <-. destruct Ht as (t & Ht & _ & Hto). apply enum_of_value in Hto.
  apply list_elem_of_lookup in He as [i Hi]. destruct (so_transition_success _ _ _ (Hs _ _ Hi) t Ht (eq_sym Hto)) as (e1 & t1 & He1 & Ht1 & Hto1 & Hre1).
  apply list_elem_of_lookup in He1 as [j Hj]. pose proof (lookup_lt_Some _ _ _ Hj) as Hlt. rewrite length_take in Hlt.
  rewrite lookup_take_lt in Hj by lia. destruct (so_authorised _ _ _ (Hs _ _ Hj) t1 Ht1) as [[_ ?]|(e2 & a & He2 & Ha & Hau)]; [by rewrite Hto1 in *|].
  destruct Hau as (_ & _ & _ & Hto2 & _ & _ & Hre2 & _).
  assert (Hin : e2 ∈ evs) by (rewrite <- (take_drop j evs); apply elem_of_app; by left).
  apply list_elem_of_lookup in Hin as [n Hn]. exists n, e2, a. split; [done|]. split; [done|]. split; [congruence|]. split; [congruence|].
  apply (so_earned _ _ _ (Hs _ _ Hn) a Ha). congruence.
Qed.
End Safety.

(** ** The budget of a run *)
(** C13.  A run's durable budget only shrinks: whatever the caller's ledger shows, the
    budget replayed from a longer stream is below the one replayed from any prefix of it,
    which is below the caps of the plan's mode; and no counter of it is negative. *)
Theorem durable_budget_only_shrinks (K : Codec) plan events later snapshot d :
  budget_state K (events ++ later) plan snapshot = Ok d ->
  Forall (fun w => 0 <= wk_context_token_budget w) (pl_workers plan) ->
  exists d1, budget_state K events plan snapshot = Ok d1 /\ durable_le d d1 /\ durable_le d1 (initial_durable plan) /\ durable_ok d.
Proof.
  unfold budget_state. destruct (WorkflowBudget.WORKFLOW_CAPS (pl_mode plan)) as [[seconds attempts] cost]. intros H Hw.
  apply bind_Ok in H as ([] & -> & H). apply bind_Ok in H as ([] & -> & H). apply replay_app in H as (d1 & H1 & H2).
  destruct (replay_shrinks _ _ _ _ _ _ (initial_ok plan Hw) H1) as [Hok Hle]. destruct (replay_shrinks _ _ _ _ _ _ Hok H2).
  by exists d1.
Qed.

(** ** The theorems on a run *)
Module KernelRunWitnesses.
Import KernelRun.
Definition E : Environment World := environment T_INFORMATIONAL.
Lemma clean_law p p' : k_clean_payload (en_codec E) p = Ok p' -> p' = p.
Proof. by intros [= ->]. Qed.
Lemma drive_ops args s : (drive T_INFORMATIONAL args s).2 = foldl (fun s o => kernel_op E o s) s (map (OpAdvance "run-1") args).
Proof.
  revert s. induction args as [|a args IH]; intros s; [done|]. cbn [drive map foldl kernel_op].
  unfold E.
  destruct (advance _ a "run-1" s) as [s1 r]. cbn [fst]. unfold E in IH. rewrite <- IH. by destruct (drive T_INFORMATIONAL args s1).
Qed.
Lemma created_is_reachable ops :
  kernel_reachable E (foldl (fun s o => kernel_op E o s) (kernel_op E (OpCreate (request T_INFORMATIONAL)) start) ops).
Proof. exact (kernel_reachable_ops E (OpCreate (request T_INFORMATIONAL) :: ops) start eq_refl). Qed.
#[local] Opaque create advance.
Lemma the_run_is_reachable : kernel_reachable E whole_run.2.
Proof. unfold whole_run. rewrite drive_ops. apply created_is_reachable. Qed.
#[local] Transparent create advance.
Lemma the_run_loads : load (k_clean_payload (en_codec E)) (kn_store whole_run.2) "run-1" = Ok stream.
Proof. exact (f_equal snd the_run_succeeds). Qed.
Definition fresh_snapshot : WorkflowBudget.BudgetSnapshot :=
  {| WorkflowBudget.sn_mode := M_ACTIVE; WorkflowBudget.sn_remaining_cost := WorkflowBudget.cost_cap M_ACTIVE;
     WorkflowBudget.sn_reserved_cost := ZERO; WorkflowBudget.sn_settled_cost := ZERO;
     WorkflowBudget.sn_remaining_attempts := WorkflowBudget.maximum_attempts M_ACTIVE;
     WorkflowBudget.sn_remaining_seconds := float_int 300; WorkflowBudget.sn_deadline_monotonic := float_int 400;
     WorkflowBudget.sn_nodes := []; WorkflowBudget.sn_exhausted := false; WorkflowBudget.sn_overdrawn := false |}.
Definition got_candidate (c : CandidateArgument) : AdvanceCandidate :=
  match c with CA_dict _ (Some parsed) => parsed
  | _ => {| ac_confidence_observation := None; ac_confidence_artifact := None; ac_loop_checkpoint := None; ac_action_observation := None |} end.
Definition advanced (v : HarnessSessionView) : HarnessSessionView :=
  set_revisions v (v_state_revision v + 1) (v_plan_revision v) "advanced".
Definition last_event : HarnessEvent := Eval vm_compute in default (sample_event "" None None None) (stream !! 13%nat).
Definition last_transition : HarnessTransition := Eval vm_compute in default (run_transition (plan T_INFORMATIONAL) empty_view R_CREATED "") (ev_transition last_event).
Lemma every_transition_was_authorised_witness :
  (13 = 0 /\ tr_to_state last_transition = run_state_value R_CREATED)%nat \/
  exists j e' a, (j < 13)%nat /\ stream !! j = Some e' /\ authority_of e' = Some a /\ authorises a last_transition.
Proof.
  exact (every_transition_was_authorised E clean_law whole_run.2 "run-1" stream 13 last_event last_transition
           the_run_is_reachable the_run_loads eq_refl eq_refl).
Defined.
Definition final_view : HarnessSessionView := Eval vm_compute in got empty_view (fold_events Ok (k_event_hash (en_codec E)) stream).
Lemma success_is_gated_and_settled_witness :
  exists j e a, stream !! j = Some e /\ authority_of e = Some a /\ ta_reason_code a = "confidence_sufficient" /\
    ta_to_state a = run_state_value R_SUMMARIZING /\ earned E (take j stream) (ev_payload e).
Proof.
  apply (success_is_gated_and_settled E clean_law whole_run.2 "run-1" stream final_view the_run_is_reachable the_run_loads).
  - vm_compute. reflexivity.
  - reflexivity.
Defined.
Lemma durable_budget_only_shrinks_witness : exists d d1,
  budget_state (codec T_INFORMATIONAL) stream (plan T_INFORMATIONAL) fresh_snapshot = Ok d /\
  budget_state (codec T_INFORMATIONAL) (take 5 stream) (plan T_INFORMATIONAL) fresh_snapshot = Ok d1 /\
  durable_le d d1 /\ durable_le d1 (initial_durable (plan T_INFORMATIONAL)) /\ durable_ok d.
Proof.
  destruct (budget_state (codec T_INFORMATIONAL) stream (plan T_INFORMATIONAL) fresh_snapshot) as [d|e] eqn:H; [|vm_compute in H; discriminate].
  exists d. destruct (durable_budget_only_shrinks (codec T_INFORMATIONAL) (plan T_INFORMATIONAL) (take 5 stream) (drop 5 stream) fresh_snapshot d)
    as (d1 & H1 & H2); [by rewrite take_drop|repeat constructor; done|].
  exact (ex_intro _ d1 (conj eq_refl (conj H1 H2))).
Defined.
(** The decision the running run takes on its evidence. *)
Definition running_events : list HarnessEvent := Eval vm_compute in got [] (load Ok (kn_store running) "run-1").
Definition running_view : HarnessSessionView := Eval vm_compute in got empty_view (fold_run T_INFORMATIONAL (kn_store running)).
Definition decided := policy_decision E running_events (plan T_INFORMATIONAL) running_view (got_candidate evidence) None false running.
Lemma decided_is : exists s' p, decided = (s', Ok (R_SUMMARIZING, "confidence_sufficient", false, p)).
Proof.
  assert (H : (r ← decided.2; let '(t, reason, n, _) := r in Ok (t, reason, n)) = Ok (R_SUMMARIZING, "confidence_sufficient", false)) by (vm_compute; reflexivity).
  destruct decided as [s' [[[[t reason] n] p]|e]]; [|done]. injection H as -> -> ->. by exists s', p.
Qed.
Lemma policy_decisions_are_well_formed_witness : exists source, v_run_state running_view = Some source /\
  R_SUMMARIZING ∈ RUN_EDGES (Some source) /\ forall synchronized, validate_shape
    (decision_value (plan T_INFORMATIONAL) (advanced running_view) R_SUMMARIZING "confidence_sufficient" (Some source)
       (Some (run_transition (plan T_INFORMATIONAL) running_view R_SUMMARIZING "confidence_sufficient")) false false synchronized) = Ok tt.
Proof.
  destruct decided_is as (s' & p & H).
  exact (policy_decisions_are_well_formed E _ _ _ (advanced running_view) _ _ _ _ _ _ _ _ _ H eq_refl).
Defined.
Lemma sufficient_confidence_is_the_verdict_witness : exists gate (p : payload),
  kn_confidence_gates running !! "run-1" = Some gate /\
  ConfidenceGate.cd_may_succeed (verdict E gate (got_candidate evidence)) = true /\ is_Some (dict_get p "budget_remaining_cost").
Proof.
  destruct decided_is as (s' & p & H).
  destruct (sufficient_confidence_is_the_verdict E _ _ _ _ _ _ _ _ _ _ _ H)
    as (_ & _ & _ & _ & (gate & o & a & _ & Hg & _ & _ & Hv) & s1 & spent & _ & Hs).
  exists gate, p. split; [exact Hg|]. split; [exact Hv|].
  destruct (Hs "budget_remaining_cost" ltac:(by apply (bool_decide_unpack _))) as [-> Hx]. exact Hx.
Defined.
End KernelRunWitnesses.
