(* ===== verification/AgentDriver.v ===== *)
(** * The agent driver: market_agent/workflow_agent_driver.py

    One bounded invocation of a model: the ordered path of model calls with their
    budget, circuit breaker, retries and downgrades, then local knowledge, then the
    fixed abstention.  The driver is modelled without a cache context, the
    constructor's default, so that both caches are recorded as missed.

    What the driver asks of its host (the clock, the audit observer, the provider,
    the usage observer, the cancellation check, the random source, the verification
    hook) is an environment whose answers depend on how many questions came before,
    and between two questions other drivers may use the shared circuit breaker:
    a theorem for all environments covers every fault and every interleaving. *)
From S2P Require Import Prelude PyStrings PyFloat PyFloatText PyDecimal PyDecimalText FloatOrder CircuitBreaker Resilience WorkflowPricing.
Local Open Scope string_scope.
Local Open Scope list_scope.
Local Open Scope Z_scope.

(** ** Data *)
(** The fields of an [AgentInvocation] the driver reads; [Decimal(str(cost_limit_usd))]. *)
Record AgentInvocation := {
  in_task_kind : string; in_allowed_model_tier : ModelTier; in_deadline_epoch : spec_float;
  in_attempt_timeout_seconds : spec_float; in_attempt : Z; in_max_attempts : Z; in_cost_limit_usd : decimal }.
(** [AgentInvocation.validate_attempt_limit] and [BoundedAttempts]. *)
Definition validate_invocation (i : AgentInvocation) : result AgentInvocation :=
  _ ← check ((0 <=? in_attempt i) && (1 <=? in_max_attempts i) && (in_max_attempts i <=? 10)) (ValidationError "attempts");
  _ ← raise_when (in_max_attempts i <=? in_attempt i) (ValueError "attempt must be below max_attempts");
  Ok i.
(** What the driver reads of a [CoreExperienceSummary]: whether it validates and its tenant and
    scope are the trusted ones, its times, and the size of its dynamic context. *)
Record Memory := {
  me_valid : bool; me_issued_at : spec_float; me_expires_at : spec_float; me_freshness_seconds : Z;
  me_confidence : spec_float; me_contradicted : bool; me_context_bytes : Z }.
(** The usage a provider reports. *)
Record AgentUsage := { au_model_tier : ModelTier; au_tokens : UsageTokens }.
Section Data.
  Context {Output : Type}.
(** A [ModelResponse]: its usage when it validates, and its content when the schema accepts it. *)
Record ModelResponse := { mr_usage : option AgentUsage; mr_output : option Output }.
Inductive ProviderAnswer :=
  | Responds (r : option ModelResponse)   (** [None]: not a [ModelResponse] *)
  | Errs (e : ProviderError).
(** The local answer: [None] when there is none; whether its citations are there; its output when the schema accepts it. *)
Inductive LocalAnswer := NoAnswer | LookupFails | Answer (cited : bool) (output : option Output).
Inductive AgentResult := Success (origin : string) (output : Output) | Failure (code : string).
End Data.
Arguments ModelResponse : clear implicits.
Arguments ProviderAnswer : clear implicits.
Arguments LocalAnswer : clear implicits.
Arguments AgentResult : clear implicits.

(** What was dispatched to the provider, with the run's counters after it was charged. *)
Record Dispatch := {
  dp_tier : ModelTier; dp_attempt : Z; dp_spent : decimal; dp_at : spec_float; dp_deadline : spec_float;
  dp_decision : CircuitDecision; dp_memory : bool }.
Inductive Event :=
  | Emitted (event_type : string)
  | Dispatched (d : Dispatch)
  | Slept (delay : spec_float).
(** The [_Run], the shared breaker with its log, the questions asked so far and the trace, newest first. *)
Record Driver := {
  dr_tier : ModelTier; dr_attempts : Z; dr_spent : decimal; dr_memory : option (spec_float * spec_float);
  dr_used_memory : bool; dr_breaker : CircuitBreaker * list entry; dr_tick : nat; dr_trace : list Event }.
Record Config := {
  cf_retry : RetryPolicy; cf_fallback : FallbackPolicy; cf_costs : list (ModelTier * decimal);
  cf_task_tiers : list (string * ModelTier); cf_reflection_required : bool; cf_hook : bool; cf_observer : bool }.
(** [_TASK_TIERS] *)
Definition TASK_TIERS : list (string * ModelTier) :=
  [("extract", LUNA_TIER); ("validate", LUNA_TIER); ("validation", LUNA_TIER); ("analyze", TERRA_TIER); ("analysis", TERRA_TIER);
   ("coordinator", SOL_TIER); ("conflict_resolution", SOL_TIER)].
Definition MEMORY_MAX_BYTES : Z := 8192.
Definition MEMORY_MAX_AGE_SECONDS : Z := 86400.
Definition MEMORY_MIN_CONFIDENCE : spec_float := float_quotient 6 10.

(** ** The environment *)
Record Environment (Output : Type) := {
  en_clock : nat -> spec_float;
  en_cancelled : nat -> bool;                      (** [_cancelled]: a check that raises is a cancellation *)
  en_audit : nat -> bool;                          (** the observer accepts the event *)
  en_observe : nat -> option exn;                  (** the usage observer: recorded, or what it raises *)
  en_invoke : nat -> Dispatch -> ProviderAnswer Output;
  en_random : nat -> spec_float -> spec_float;
  en_hook : nat -> bool;
  en_others : nat -> list call;                    (** what other drivers do to the breaker *)
  en_prompt : ModelTier -> bool;                   (** a prompt release is selected and rendered *)
  en_band : ModelTier -> bool -> PricingBand;      (** the band of the request, with or without memory *)
  en_tool_price : nat -> option string;
  en_local : nat -> LocalAnswer Output;
  en_unknown : Output }.
Arguments en_clock {Output}. Arguments en_cancelled {Output}. Arguments en_audit {Output}. Arguments en_observe {Output}.
Arguments en_invoke {Output}. Arguments en_random {Output}. Arguments en_hook {Output}. Arguments en_others {Output}.
Arguments en_prompt {Output}. Arguments en_band {Output}. Arguments en_tool_price {Output}. Arguments en_local {Output}.
Arguments en_unknown {Output}.

Definition AuditFailure : exn := Exn "_AuditFailure" "".
Definition OutOfFuel : exn := Exn "OutOfFuel" "".
Definition is_audit_failure (e : exn) : bool := String.eqb (exn_class e) "_AuditFailure".
(** [except (ValueError, TypeError, RecursionError)] *)
Definition is_value_error (e : exn) : bool :=
  bool_decide (exn_class e ∈ ["ValueError"; "TypeError"; "RecursionError"; "ValidationError"; "UnicodeError"; "JSONDecodeError"]).

Section Driver.
  Context {Output : Type} (env : Environment Output) (cf : Config) (inv : AgentInvocation).
Abbreviation Io := (io Driver).
Abbreviation Answered := (option (AgentResult Output)).

(** ** Asking *)
Definition tick (d : Driver) : Driver :=
  {| dr_tier := dr_tier d; dr_attempts := dr_attempts d; dr_spent := dr_spent d; dr_memory := dr_memory d;
     dr_used_memory := dr_used_memory d;
     dr_breaker := fold_left (fun s c => run_call c s) (en_others env (dr_tick d)) (dr_breaker d);
     dr_tick := S (dr_tick d); dr_trace := dr_trace d |}.
Definition ask {A} (f : nat -> A) : Io A := fun d => (tick d, Ok (f (dr_tick d))).
Definition clock : Io spec_float := ask (en_clock env).
Definition cancelled : Io bool := ask (en_cancelled env).
Definition log (e : Event) (d : Driver) : Driver :=
  {| dr_tier := dr_tier d; dr_attempts := dr_attempts d; dr_spent := dr_spent d; dr_memory := dr_memory d;
     dr_used_memory := dr_used_memory d; dr_breaker := dr_breaker d; dr_tick := dr_tick d; dr_trace := e :: dr_trace d |}.
Definition with_tier (tier : ModelTier) (d : Driver) : Driver :=
  {| dr_tier := tier; dr_attempts := dr_attempts d; dr_spent := dr_spent d; dr_memory := dr_memory d;
     dr_used_memory := dr_used_memory d; dr_breaker := dr_breaker d; dr_tick := dr_tick d; dr_trace := dr_trace d |}.
Definition with_spent (attempts : Z) (spent : decimal) (d : Driver) : Driver :=
  {| dr_tier := dr_tier d; dr_attempts := attempts; dr_spent := spent; dr_memory := dr_memory d;
     dr_used_memory := dr_used_memory d; dr_breaker := dr_breaker d; dr_tick := dr_tick d; dr_trace := dr_trace d |}.
Definition with_memory (memory : option (spec_float * spec_float)) (used : bool) (d : Driver) : Driver :=
  {| dr_tier := dr_tier d; dr_attempts := dr_attempts d; dr_spent := dr_spent d; dr_memory := memory;
     dr_used_memory := used; dr_breaker := dr_breaker d; dr_tick := dr_tick d; dr_trace := dr_trace d |}.
Definition with_breaker (b : CircuitBreaker * list entry) (d : Driver) : Driver :=
  {| dr_tier := dr_tier d; dr_attempts := dr_attempts d; dr_spent := dr_spent d; dr_memory := dr_memory d;
     dr_used_memory := dr_used_memory d; dr_breaker := b; dr_tick := dr_tick d; dr_trace := dr_trace d |}.
(** [_emit] *)
Definition emit (event_type : string) : Io unit :=
  _ ← clock;
  accepted ← ask (en_audit env);
  if accepted : bool then modify (log (Emitted event_type)) else lift (Raise AuditFailure).
(** [_fail] *)
Definition fail (code : string) : Io (AgentResult Output) :=
  _ ← emit "task_failed";
  mret (Failure code).
(** [_observe_attempt]; without an observer it returns at once. *)
Definition observe_attempt : Io unit :=
  if cf_observer cf then
    raised ← ask (en_observe env);
    match raised with Some e => lift (Raise e) | None => mret tt end
  else mret tt.

(** ** The shared breaker *)
Definition circuit_key (tier : ModelTier) : circuit := (tier_value tier, in_task_kind inv).
Definition acquire_circuit (now : spec_float) : Io CircuitDecision := fun d =>
  let '(b, entries) := dr_breaker d in
  let key := circuit_key (dr_tier d) in
  match acquire key now b with
  | (b, Ok decision) => (with_breaker (b, Asked key decision :: entries) d, Ok decision)
  | (b, Raise e) => (with_breaker (b, entries) d, Raise e)
  end.
Definition record_breaker (success : bool) : Io unit :=
  now ← clock;
  modify (fun d => with_breaker (run_call (Record_ (circuit_key (dr_tier d)) success now) (dr_breaker d)) d).
(** [_record_circuit] *)
Definition record_circuit (success probe : bool) : Io unit :=
  _ ← record_breaker success;
  emit (if success && probe then "circuit_closed" else "circuit_recorded").

(** ** One attempt *)
(** [_can_call] *)
Definition can_call (reservation : decimal) : Io bool :=
  attempts ← read dr_attempts;
  if negb (attempts <? in_max_attempts inv) then mret false
  else
    now ← clock;
    if negb (SFltb now (in_deadline_epoch inv)) then mret false
    else read (fun d => negb (dec_ltb (in_cost_limit_usd inv) (dec_add (dr_spent d) reservation))).
Definition live (memory : spec_float * spec_float) (now : spec_float) : bool := SFleb memory.1 now && SFltb now memory.2.
(** [run.memory_context and issued <= now < expires] *)
Definition memory_live : Io bool :=
  memory ← read dr_memory;
  match memory with
  | None => mret false
  | Some memory => now ← clock; mret (live memory now)
  end.
(** [_memory_expired] *)
Definition memory_expired : Io bool :=
  memory ← read dr_memory;
  match memory with
  | None => mret false
  | Some memory => now ← clock; mret (negb (live memory now))
  end.
(** [_discard_expired_memory_output] *)
Definition discard_expired : Io (AgentResult Output) :=
  _ ← emit "memory_expired";
  fail "memory_context_expired".
(** The request is composed; an abandoned probe is settled before the failure is raised. *)
Definition compose_request (probe : bool) : Io bool :=
  try_ (_ ← when_ probe (emit "circuit_probe");
        injected ← memory_live;
        _ ← emit "prompt_composed";
        mret injected)
       (fun e => _ ← when_ (is_audit_failure e && probe) (record_breaker false); lift (Raise e)).
Inductive DispatchOutcome := TooLate | Answered_ (answer : ProviderAnswer Output) (injected : bool) (band : PricingBand).
(** From the composed request to the provider's answer. *)
Definition dispatch (reservation : decimal) (decision : CircuitDecision) (probe injected : bool) : Io DispatchOutcome :=
  still ← memory_live;
  let injected := injected && still in
  now ← clock;
  if SFleb (in_deadline_epoch inv) now then
    _ ← when_ probe (record_circuit false probe);
    mret TooLate
  else
    _ ← modify (fun d => with_spent (dr_attempts d + 1) (dec_add (dr_spent d) reservation) d);
    sent ← read (fun d => {| dp_tier := dr_tier d; dp_attempt := dr_attempts d; dp_spent := dr_spent d; dp_at := now;
                             dp_deadline := float_min (in_deadline_epoch inv) (float_add now (in_attempt_timeout_seconds inv));
                             dp_decision := decision; dp_memory := injected |});
    _ ← modify (log (Dispatched sent));
    answer ← ask (fun n => en_invoke env n sent);
    mret (Answered_ answer injected (en_band env (dp_tier sent) injected)).
(** [except Exception as error]: what an audit failure of [dispatch] looks like to the retry policy. *)
Definition unknown_error : ProviderError := {| pe_status_code := None; pe_code := None; pe_retry_after := None; pe_network := false |}.
Definition dispatch_or_error (reservation : decimal) (decision : CircuitDecision) (probe injected : bool) : Io DispatchOutcome :=
  try_ (dispatch reservation decision probe injected)
       (fun _ => mret (Answered_ (Errs unknown_error) injected SHORT)).
(** What the handler of an attempt decides: go round again, or leave the loop. *)
Inductive Step := Again | Leave (result : Answered).
(** [return self._fail(...)] and [return None] *)
Definition failing (code : string) : Io Step := result ← fail code; mret (Leave (Some result)).
Definition unavailable : Io Step := mret (Leave None).
(** [try: self._observe_attempt(...) except Exception: return self._fail("usage_observation_unavailable")]
    and what follows. *)
Definition after_observation (rest : Io Step) : Io Step :=
  observed ← try_ (_ ← observe_attempt; mret true) (fun _ => mret false);
  if observed : bool then rest else failing "usage_observation_unavailable".
(** The handler of an exception of the provider; the latency reads the clock once for itself and
    once for the default of [locals().get]. *)
Definition on_error (error : ProviderError) (reservation : decimal) (per_tier_attempts : Z) (probe : bool) : Io Step :=
  _ ← clock;
  _ ← clock;
  after_observation (
    let retryable := is_retryable error in
    _ ← record_circuit (negb retryable) probe;
    if negb retryable then failing "provider_error"
    else
      callable ← can_call reservation;
      if negb callable then unavailable
      else
        remaining ← read (fun d => float_of_decimal (dec_sub (in_cost_limit_usd inv) (dr_spent d)));
        now ← clock;
        random ← ask (en_random env);
        decision ← lift (decide_retry (cf_retry cf) error per_tier_attempts (in_deadline_epoch inv) remaining now random);
        match decision with
        | Terminal _ => unavailable
        | Retry delay =>
            _ ← emit "retry_scheduled";
            stop ← cancelled;
            if stop : bool then failing "cancelled"
            else
              _ ← modify (log (Slept delay));
              mret Again
        end).
(** [_exact_attempt_cost], with the tool price of the environment. *)
Definition exact_attempt_cost (tier : ModelTier) (band : PricingBand) (usage : AgentUsage) (price : option string) : result decimal :=
  tokens ← validate_usage (au_tokens usage);
  _ ← workflow_model_pricing ("gpt-5.6-" +:+ tier_value tier) band;
  tool_price ← web_search_tool_price price;
  estimate_workflow_usage_cost ("gpt-5.6-" +:+ tier_value tier) band tokens tool_price.
(** The answer's envelope, usage and cost: [inl] when the run ends here. *)
Definition accept_usage (response : option (ModelResponse Output)) (reservation : decimal) (band : PricingBand) (probe : bool)
    : Io (Step + decimal * ModelResponse Output) :=
  response ← lift (from_option Ok (Raise (ValueError "provider returned an invalid envelope")) response);
  usage ← lift (from_option Ok (Raise (ValidationError "usage")) (mr_usage response));
  tier ← read dr_tier;
  _ ← lift (check (bool_decide (au_model_tier usage = tier)) (ValueError "provider usage changed the requested model tier"));
  price ← ask (en_tool_price env);
  _ ← when_ (cf_observer cf) (_ ← lift (exact_attempt_cost tier band usage price); mret tt);
  _ ← observe_attempt;
  exact_cost ← lift (exact_attempt_cost tier band usage price);
  if dec_ltb reservation exact_cost then
    _ ← record_circuit true probe;
    step ← failing "budget_exhausted";
    mret (inl step)
  else mret (inr (exact_cost, response)).
(** Its two handlers. *)
Definition rejected_usage (e : exn) (probe : bool) : Io (Step + decimal * ModelResponse Output) :=
  step ← if is_value_error e
         then after_observation (_ ← record_circuit true probe; failing "malformed_output")
         else failing "usage_observation_unavailable";
  mret (inl step).
(** The accepted answer, until it is returned. *)
Definition on_output (output : option Output) (injected : bool) : Io Step :=
  match output with
  | None => failing "malformed_output"
  | Some output =>
      now ← clock;
      if SFleb (in_deadline_epoch inv) now then unavailable
      else
        expired ← memory_expired;
        if injected && expired then result ← discard_expired; mret (Leave (Some result))
        else
          _ ← emit "schema_validated";
          expired ← memory_expired;
          if injected && expired then result ← discard_expired; mret (Leave (Some result))
          else
            _ ← modify (fun d => with_memory (dr_memory d) injected d);
            mret (Leave (Some (Success "model" output)))
  end.
(** The handler of an answer.  The clock is read for the latency the observer is told; its value, and the
    exceptions [int] has for one that is not finite, are left out here and in [on_error]. *)
Definition on_response (response : option (ModelResponse Output)) (reservation : decimal) (band : PricingBand)
    (probe injected : bool) : Io Step :=
  _ ← clock;
  accepted ← try_ (accept_usage response reservation band probe) (fun e => rejected_usage e probe);
  match accepted with
  | inl step => mret step
  | inr (exact_cost, response) =>
      stop ← cancelled;
      if stop : bool then
        _ ← record_circuit true probe;
        failing "cancelled"
      else
        _ ← record_circuit true probe;
        _ ← modify (fun d => with_spent (dr_attempts d) (dec_add (dr_spent d) (dec_sub exact_cost reservation)) d);
        on_output (mr_output response) injected
  end.
Definition is_probe (decision : CircuitDecision) : bool := match decision with D_probe => true | _ => false end.
(** One turn of the loop of [_model]. *)
Definition attempt (reservation : decimal) (per_tier_attempts : Z) : Io Step :=
  stop ← cancelled;
  if stop : bool then failing "cancelled"
  else
    callable ← can_call reservation;
    if negb callable then _ ← emit "budget_exhausted"; unavailable
    else
      now ← clock;
      decision ← acquire_circuit now;
      match decision with
      | D_reject => _ ← emit "circuit_opened"; unavailable
      | _ =>
          let probe := is_probe decision in
          injected ← compose_request probe;
          callable ← can_call reservation;
          if negb callable then
            _ ← when_ probe (record_circuit false probe);
            unavailable
          else
            outcome ← dispatch_or_error reservation decision probe injected;
            match outcome with
            | TooLate => unavailable
            | Answered_ (Errs error) _ _ => on_error error reservation (per_tier_attempts + 1) probe
            | Answered_ (Responds response) injected band => on_response response reservation band probe injected
            end
      end.
Fixpoint attempts (fuel : nat) (reservation : decimal) (per_tier_attempts : Z) : Io Answered :=
  match fuel with
  | O => lift (Raise OutOfFuel)
  | S fuel =>
      step ← attempt reservation per_tier_attempts;
      match step with
      | Leave result => mret result
      | Again => attempts fuel reservation (per_tier_attempts + 1)
      end
  end.
Definition cost_of_tier (tier : ModelTier) : option decimal :=
  snd <$> List.find (fun kv => bool_decide (kv.1 = tier)) (cf_costs cf).
(** [_model]; a turn that goes round again has used an attempt. *)
Definition attempts_left (d : Driver) : nat := S (Z.to_nat (in_max_attempts inv - dr_attempts d)).
Definition model : Io Answered :=
  tier ← read dr_tier;
  if negb (en_prompt env tier) then mret None
  else
    match cost_of_tier tier with
    | None => mret None
    | Some reservation =>
        fuel ← read attempts_left;
        attempts fuel reservation 0
    end.

(** ** Fallback *)
(** [_success] of an answer that is not the provider's. *)
Definition host_success (origin : string) (output : Output) : Io (AgentResult Output) :=
  observed ← try_ (_ ← observe_attempt; mret true) (fun _ => mret false);
  mret (if observed : bool then Success origin output else Failure "usage_observation_unavailable").
(** The body of [UseLocalKnowledge]; [None] when the local answer is missed. *)
Definition local_knowledge : Io Answered :=
  _ ← emit "fallback_selected";
  local ← ask (en_local env);
  match local with
  | Answer true (Some output) =>
      _ ← emit "local_knowledge_retrieved";
      result ← host_success "local_knowledge" output;
      mret (Some result)
  | _ => mret None
  end.
Definition abstain : Io (AgentResult Output) :=
  _ ← emit "abstained";
  host_success "abstention" (en_unknown env).
Fixpoint models_and_fallback (fuel : nat) : Io (AgentResult Output) :=
  match fuel with
  | O => lift (Raise OutOfFuel)
  | S fuel =>
      stop ← cancelled;
      if stop : bool then fail "cancelled"
      else
        result ← model;
        match result with
        | Some result => mret result
        | None =>
            tier ← read dr_tier;
            match next (cf_fallback cf) (Some tier) with
            | Downgrade lower =>
                if tier_index tier <=? tier_index lower then fail "invalid_fallback"
                else
                  _ ← modify (with_tier lower);
                  _ ← emit "model_downgraded";
                  models_and_fallback fuel
            | UseLocalKnowledge =>
                answer ← local_knowledge;
                match answer with Some result => mret result | None => abstain end
            | Abstain => abstain
            end
        end
  end.

(** ** [execute] *)
(** The bounded memory, when it may be used. *)
Definition admit_memory (memory : Memory) : Io bool :=
  if negb (me_valid memory) then mret false
  else
    let oldest := float_sub (float_add (me_issued_at memory) (float_int MEMORY_MAX_AGE_SECONDS)) (float_int (me_freshness_seconds memory)) in
    let window := (me_issued_at memory, float_min (me_expires_at memory) oldest) in
    now ← clock;
    _ ← modify (fun d => with_memory
          (if SFleb MEMORY_MIN_CONFIDENCE (me_confidence memory) && live window now && negb (me_contradicted memory) &&
              (0 <? me_context_bytes memory) && (me_context_bytes memory <=? MEMORY_MAX_BYTES)
           then Some window else None) (dr_used_memory d) d);
    mret true.
(** The tier a task is routed to: the desired one, or the allowed one when that is lower. *)
Definition routed_tier (desired : ModelTier) : ModelTier :=
  if tier_index (in_allowed_model_tier inv) <? tier_index desired then in_allowed_model_tier inv else desired.
(** [if run.model_result_used_memory and self._memory_expired(run): return self._discard_...] *)
Definition unless_expired (rest : Io (AgentResult Output)) : Io (AgentResult Output) :=
  used ← read dr_used_memory;
  if negb used then rest
  else
    expired ← memory_expired;
    if expired : bool then discard_expired else rest.
(** What a selected result still goes through. *)
Definition deliver (result : AgentResult Output) : Io (AgentResult Output) :=
  used ← read dr_used_memory;
  if used : bool then
    _ ← emit "task_completed";
    unless_expired (_ ← emit "final_decision"; unless_expired (mret result))
  else
    _ ← emit "task_completed";
    mret result.
Definition reflect (result : AgentResult Output) : Io (AgentResult Output) :=
  if cf_reflection_required cf then
    _ ← emit "core_result_ready";
    unless_expired (
      if cf_hook cf then
        accepted ← ask (en_hook env);
        if accepted : bool then unless_expired (unless_expired (deliver result)) else fail "verification_unavailable"
      else unless_expired (deliver result))
  else unless_expired (deliver result).
(** The body of [execute]; [desired] is the task's tier, and [None] for an invocation whose prompt,
    schema or task kind is not known. *)
Definition body (memory : option Memory) (desired : option ModelTier) : Io (AgentResult Output) :=
  _ ← emit "trace_started";
  stop ← cancelled;
  if stop : bool then fail "cancelled"
  else
    admitted ← match memory with Some memory => admit_memory memory | None => mret true end;
    if negb admitted then fail "invalid_memory_context"
    else
      match desired with
      | None => fail "invalid_invocation"
      | Some desired =>
          _ ← modify (with_tier (routed_tier desired));
          _ ← emit "model_routed";
          _ ← emit "fixed_cache_miss";
          _ ← emit "semantic_cache_miss";
          result ← models_and_fallback 3;
          match result with
          | Failure _ => mret result
          | Success _ _ => reflect result
          end
      end.
Definition execute (memory : option Memory) (desired : option ModelTier) : Io (AgentResult Output) :=
  try_ (body memory desired)
       (fun e => if is_audit_failure e then mret (Failure "audit_unavailable") else lift (Raise e)).
(** [self._task_tiers[invocation.task_kind]], when the prompt and the schema are [known]. *)
Definition desired_tier (known : bool) : option ModelTier :=
  if known then snd <$> List.find (fun kv => String.eqb kv.1 (in_task_kind inv)) (cf_task_tiers cf) else None.
(** The [_Run] of a new invocation. *)
Definition new_run (b : CircuitBreaker * list entry) : Driver :=
  {| dr_tier := in_allowed_model_tier inv; dr_attempts := in_attempt inv; dr_spent := ZERO; dr_memory := None;
     dr_used_memory := false; dr_breaker := b; dr_tick := 0; dr_trace := [] |}.
End Driver.

Create HintDb keep.
(** ** What an operation can return, whatever the state *)
Section Results.
  Context {S : Type}.
Definition results {A} (R : A -> Prop) (m : io S A) : Prop := forall d d' a, m d = (d', Ok a) -> R a.
Lemma results_ret {A} (R : A -> Prop) a : R a -> results R (mret a).
Proof. intros H d d' a' E. by injection E as _ <-. Qed.
Lemma results_lift {A} (R : A -> Prop) r : (forall a, r = Ok a -> R a) -> results R (lift r).
Proof. intros H d d' a E. injection E as _ E. by apply H. Qed.
Lemma results_bind_with {A B} (R : A -> Prop) (Q : B -> Prop) (m : io S A) f : results R m -> (forall a, R a -> results Q (f a)) -> results Q (m ≫= f).
Proof.
  intros Hm Hf d d' b H. apply io_bind_inv in H as [(d1 & a & Ha & H)|(e & _ & H)]; [|discriminate H].
  exact (Hf a (Hm _ _ _ Ha) _ _ _ H).
Qed.
Lemma results_bind {A B} (Q : B -> Prop) (m : io S A) f : (forall a, results Q (f a)) -> results Q (m ≫= f).
Proof. intros Hf. by apply (results_bind_with (fun _ => True)). Qed.
Lemma results_try {A} (R : A -> Prop) (m : io S A) h : results R m -> (forall e, results R (h e)) -> results R (try_ m h).
Proof. intros Hm Hh d d' a. unfold try_. destruct (m d) as [d1 [b|e]] eqn:E; [intros [= _ <-]; by eapply Hm|apply Hh]. Qed.
Lemma hoare_results {A} P (m : io S A) Q E (R : A -> Prop) : hoare P m Q E -> results R m -> hoare P m (fun a d => Q a d /\ R a) E.
Proof. intros Hm HR d Hd. specialize (Hm d Hd). specialize (HR d). destruct (m d) as [d' [a|e]]; [|exact Hm]. split; [exact Hm|by eapply HR]. Qed.
End Results.

(** ** What most operations leave alone

    A predicate is calm when it does not depend on the questions asked or the events that
    are not dispatches, and stable when not on the breaker either. *)
Section Stable.
  Context {Output : Type} (env : Environment Output) (cf : Config) (inv : AgentInvocation).
  Context (P : Driver -> Prop).
Record calm : Prop := {
  ca_tick d : P d -> P (tick env d);
  ca_log d e : P d -> (forall x, e <> Dispatched x) -> P (log e d) }.
Record stable : Prop := { st_calm : calm; st_breaker d b : P d -> P (with_breaker b d) }.
(** The operation keeps [P], and raises only what [X] allows. *)
Definition keep {A} (X : exn -> Prop) (m : io Driver A) : Prop := hoare P m (fun _ => P) (fun e d => P d /\ X e).
Definition in_time (e : exn) : Prop := e <> OutOfFuel.

Lemma keep_weaken {A} (X Y : exn -> Prop) (m : io Driver A) : keep X m -> (forall e, X e -> Y e) -> keep Y m.
Proof. intros H HXY. eapply hoare_conseq; [exact H|done|done|]. intros e d [? ?]. auto. Qed.
Lemma keep_bind {A B} X (m : io Driver A) (f : A -> io Driver B) : keep X m -> (forall a, keep X (f a)) -> keep X (m ≫= f).
Proof. intros Hm Hf. eapply hoare_bind; [exact Hm|exact Hf]. Qed.
Lemma keep_ret {A} X (a : A) : keep X (mret a).
Proof. by intros d Hd. Qed.
Lemma keep_read {A} X (f : Driver -> A) : keep X (read f).
Proof. by intros d Hd. Qed.
Lemma keep_lift {A} (X : exn -> Prop) (r : result A) : (forall e, r = Raise e -> X e) -> keep X (lift r).
Proof. intros H d Hd. unfold lift. destruct r; auto. Qed.
Lemma keep_try {A} X Y (m : io Driver A) h : keep Y m -> (forall e, Y e -> keep X (h e)) -> keep X (try_ m h).
Proof.
  intros Hm Hh. eapply hoare_try; [exact Hm|]. intros e d [Hd He]. by apply Hh.
Qed.
Lemma keep_when X b (m : io Driver unit) : keep X m -> keep X (when_ b m).
Proof. intros H. destruct b; [exact H|apply keep_ret]. Qed.
  Context (HC : calm).
Lemma keep_ask {A} X (f : nat -> A) : keep X (ask env f).
Proof. intros d Hd. by apply HC. Qed.
Lemma keep_log X e : (forall x, e <> Dispatched x) -> keep X (modify (log e)).
Proof. intros He d Hd. by apply HC. Qed.
Lemma keep_memory X f g : (forall d m u, P d -> P (with_memory m u d)) -> keep X (modify (fun d => with_memory (f d) (g d) d)).
Proof. intros HM d Hd. by apply HM. Qed.
Hint Resolve keep_ret keep_read keep_ask keep_when : keep.

Lemma keep_emit event : keep (eq AuditFailure) (emit env event).
Proof.
  apply keep_bind; [apply keep_ask|intros _]. apply keep_bind; [apply keep_ask|]. intros []; [by apply keep_log|].
  apply keep_lift. by intros e [= <-].
Qed.
Lemma keep_clock X : keep X (clock env).
Proof. apply keep_ask. Qed.
Lemma audit_in_time e : AuditFailure = e -> in_time e.
Proof. by intros <-. Qed.
Hint Resolve keep_clock keep_emit audit_in_time : keep.
Lemma keep_emit_t event : keep in_time (emit env event).
Proof. eapply keep_weaken; eauto with keep. Qed.
Lemma keep_fail code : keep in_time (fail env code).
Proof. apply keep_bind; [apply keep_emit_t|]. auto with keep. Qed.
Lemma keep_observe : keep (fun _ => True) (observe_attempt env cf).
Proof.
  unfold observe_attempt. destruct (cf_observer cf); [|auto with keep]. apply keep_bind; [auto with keep|].
  intros [e|]; [by apply keep_lift|auto with keep].
Qed.
Lemma keep_observed : keep in_time (try_ (_ ← observe_attempt env cf; mret true) (fun _ => mret false)).
Proof.
  eapply keep_try; [apply keep_bind; [apply keep_observe|auto with keep]|]. auto with keep.
Qed.
Lemma keep_memory_live X : keep X (memory_live env).
Proof. apply keep_bind; [auto with keep|]. intros [w|]; [apply keep_bind|]; auto with keep. Qed.
Lemma keep_memory_expired X : keep X (memory_expired env).
Proof. apply keep_bind; [auto with keep|]. intros [w|]; [apply keep_bind|]; auto with keep. Qed.
Lemma keep_can_call reservation : keep in_time (can_call env inv reservation).
Proof.
  apply keep_bind; [auto with keep|]. intros a. destruct (negb _); [auto with keep|]. apply keep_bind; [auto with keep|].
  intros now. destruct (negb _); auto with keep.
Qed.
Lemma keep_failing code : keep in_time (failing env code).
Proof. apply keep_bind; [apply keep_fail|auto with keep]. Qed.
Lemma keep_discard : keep in_time (discard_expired env).
Proof. apply keep_bind; [apply keep_emit_t|]. intros _. apply keep_fail. Qed.
  Context (HP : stable).
Lemma keep_acquire now : truthy (in_task_kind inv) = true -> keep in_time (acquire_circuit inv now).
Proof.
  intros Hk d Hd. unfold acquire_circuit. destruct (dr_breaker d) as [b entries].
  unfold acquire, mbind, io_bind. rewrite state_for_run. unfold key_ok. simpl. rewrite Hk.
  assert (Hv : truthy (tier_value (dr_tier d)) = true) by (by destruct (dr_tier d)). rewrite Hv. simpl.
  destruct (cs_status _); [by apply HP| |by apply HP]. unfold lift. destruct (cs_opened_at _); simpl; [|by split; [apply HP|]].
  destruct (SFltb _ _); by apply HP.
Qed.
Lemma keep_record_breaker success : keep in_time (record_breaker env inv success).
Proof. apply keep_bind; [auto with keep|]. intros now d Hd. by apply HP. Qed.
Lemma keep_record_circuit success probe : keep in_time (record_circuit env inv success probe).
Proof. apply keep_bind; [apply keep_record_breaker|]. intros _. apply keep_emit_t. Qed.
Lemma keep_compose probe : keep in_time (compose_request env inv probe).
Proof.
  eapply (keep_try _ (eq AuditFailure)).
  - apply keep_bind; [auto with keep|]. intros _. apply keep_bind; [apply keep_memory_live|]. intros b.
    apply keep_bind; [auto with keep|]. auto with keep.
  - intros e <-. apply keep_bind; [apply keep_when, keep_record_breaker|]. intros _. apply keep_lift. by intros e [= <-].
Qed.
End Stable.
#[export] Hint Extern 0 (calm _ _) => (eapply st_calm; eassumption) : core.
#[export] Hint Resolve keep_ret keep_read keep_ask keep_when keep_clock keep_emit_t keep_fail keep_observed keep_acquire
  keep_record_breaker keep_record_circuit keep_memory_live keep_memory_expired keep_can_call keep_failing keep_discard keep_compose : keep.

(** ** The run *)
Fixpoint dispatches (trace : list Event) : list Dispatch :=
  match trace with
  | [] => []
  | Dispatched x :: trace => x :: dispatches trace
  | _ :: trace => dispatches trace
  end.
Section Run.
  Context {Output : Type} (env : Environment Output) (cf : Config) (inv : AgentInvocation) (top : ModelTier).
  Hypothesis Hkind : truthy (in_task_kind inv) = true.
(** What holds of a dispatch that is the [n]th of its run. *)
Record dispatch_ok (n : Z) (x : Dispatch) : Prop := {
  do_attempt : dp_attempt x = in_attempt inv + n /\ dp_attempt x <= in_max_attempts inv;
  do_spent : dec_ltb (in_cost_limit_usd inv) (dp_spent x) = false;
  do_time : SFleb (in_deadline_epoch inv) (dp_at x) = false;
  do_circuit : dp_decision x <> D_reject;
  do_tier : tier_index (dp_tier x) <= tier_index top }.
Fixpoint dispatches_ok (l : list Dispatch) : Prop :=
  match l with
  | [] => True
  | x :: l => dispatch_ok (Z.of_nat (length (x :: l))) x /\ dispatches_ok l
  end.
Record run_ok (d : Driver) : Prop := {
  ru_dispatches : dispatches_ok (dispatches (dr_trace d));
  ru_attempts : dr_attempts d = in_attempt inv + Z.of_nat (length (dispatches (dr_trace d)));
  ru_bound : dr_attempts d <= in_max_attempts inv;
  ru_tier : tier_index (dr_tier d) <= tier_index top }.
(** At a tier, with so many attempts made. *)
Definition at_ (t : ModelTier) (n : Z) (d : Driver) : Prop := run_ok d /\ dr_tier d = t /\ dr_attempts d = n.
Definition affordable (reservation : decimal) (d : Driver) : Prop :=
  dr_attempts d < in_max_attempts inv /\ dec_ltb (in_cost_limit_usd inv) (dec_add (dr_spent d) reservation) = false.

Lemma run_ok_eq d d' : run_ok d -> dispatches (dr_trace d') = dispatches (dr_trace d) -> dr_attempts d' = dr_attempts d ->
  dr_tier d' = dr_tier d -> run_ok d'.
Proof. intros [H1 H2 H3 H4] E1 E2 E3. split; rewrite ?E1, ?E2, ?E3; done. Qed.
Lemma dispatches_log e trace : (forall x, e <> Dispatched x) -> dispatches (e :: trace) = dispatches trace.
Proof. intros H. destruct e; try done. by destruct (H d). Qed.
Lemma stable_at t n : stable env (at_ t n).
Proof.
  split; [split|]; intros; match goal with H : at_ _ _ _ |- _ => destruct H as (Hr & Ht & Hn) end; (split; [|done]).
  all: eapply run_ok_eq; [exact Hr| |reflexivity|reflexivity]; try reflexivity. by apply dispatches_log.
Qed.
Lemma stable_and P Q : stable env P -> stable env Q -> stable env (fun d => P d /\ Q d).
Proof. intros [[] ?] [[] ?]. split; [split|]; intros; naive_solver. Qed.
Lemma stable_affordable reservation : stable env (affordable reservation).
Proof. split; [split|]; intros; done. Qed.
Lemma can_call_spec P reservation : stable env P ->
  hoare P (can_call env inv reservation) (fun b d => P d /\ (b = true -> affordable reservation d)) (fun e d => False).
Proof.
  intros HP d Hd. unfold can_call, mbind, io_bind, read, clock, ask. destruct (dr_attempts d <? in_max_attempts inv) eqn:Ha; simpl; [|done].
  destruct (SFltb _ _); simpl; [|by split; [apply HP|]]. split; [by apply HP|]. intros Hs%negb_true_iff. to_prop. split; [exact Ha|exact Hs].
Qed.
(** Sequencing after an operation that keeps what is known. *)
Lemma keep_then {A B} P X (m : io Driver A) (f : A -> io Driver B) R E :
  keep P X m -> (forall e d, P d -> X e -> E e d) -> (forall a, hoare P (f a) R E) -> hoare P (m ≫= f) R E.
Proof.
  intros Hm HE Hf. eapply hoare_bind; [|exact Hf]. eapply hoare_conseq; [exact Hm|done|done|]. intros e d [? ?]. auto.
Qed.
Lemma keep_last {A} P X (m : io Driver A) (Q : A -> Driver -> Prop) (E : exn -> Driver -> Prop) :
  keep P X m -> (forall e d, P d -> X e -> E e d) -> (forall a d, P d -> Q a d) -> hoare P m Q E.
Proof. intros Hm HE HQ. eapply hoare_conseq; [exact Hm|done|auto|]. intros e d [? ?]. auto. Qed.
Lemma dispatch_spec t n reservation decision probe injected : decision <> D_reject ->
  hoare (fun d => at_ t n d /\ affordable reservation d) (dispatch env inv reservation decision probe injected)
    (fun o d => match o with TooLate => at_ t n d | Answered_ _ _ _ => at_ t (n + 1) d end) (fun e d => at_ t n d /\ in_time e).
Proof.
  intros Hd. assert (HP : stable env (fun d => at_ t n d /\ affordable reservation d)) by (apply stable_and; [apply stable_at|apply stable_affordable]).
  assert (HE : forall e d, at_ t n d /\ affordable reservation d -> in_time e -> at_ t n d /\ in_time e) by (by intros e d [? _]).
  unfold dispatch. apply (keep_then _ in_time); [by apply keep_memory_live|exact HE|intros still].
  apply (keep_then _ in_time); [by apply keep_clock|exact HE|intros now].
  destruct (SFleb (in_deadline_epoch inv) now) eqn:Hlate.
  - apply (keep_then _ in_time); [apply keep_when; by apply keep_record_circuit|exact HE|]. by intros _ d [].
  - intros d [([H1 H2 H3 H4] & Ht & Hn) [Ha Hs]]. simpl. apply (ca_tick _ _ (st_calm _ _ (stable_at t (n + 1)))).
    split; [|split; [exact Ht|simpl; lia]]. split; simpl; [|lia|lia|exact H4].
    split; [|exact H1]. split; simpl; [lia|exact Hs|exact Hlate|exact Hd|exact H4].
Qed.

(** *** The answers *)
Lemma keep_on_output P output injected : calm env P -> (forall d m u, P d -> P (with_memory m u d)) -> keep P in_time (on_output env inv output injected).
Proof.
  intros HC HM. destruct output as [output|]; [|by apply keep_failing]. apply keep_bind; [by apply keep_clock|]. intros now.
  destruct (SFleb _ _); [apply keep_ret|]. apply keep_bind; [by apply keep_memory_expired|]. intros e1.
  assert (Hd : keep P in_time (result ← discard_expired env; mret (Leave (Some result)))).
  { apply keep_bind; [by apply keep_discard|]. intros; apply keep_ret. }
  destruct (_ && _); [exact Hd|]. apply keep_bind; [by apply keep_emit_t|]. intros _. apply keep_bind; [by apply keep_memory_expired|]. intros e2.
  destruct (_ && _); [exact Hd|]. apply keep_bind; [by apply keep_memory|]. intros _. apply keep_ret.
Qed.
Section Answers.
  Context (P : Driver -> Prop) (HP : stable env P) (HS : forall d spent, P d -> P (with_spent (dr_attempts d) spent d))
    (HM : forall d m u, P d -> P (with_memory m u d)).
Lemma keep_after_observation rest : keep P in_time rest -> keep P in_time (after_observation env cf rest).
Proof. intros H. apply keep_bind; [by apply keep_observed|]. intros []; [exact H|by apply keep_failing]. Qed.
Lemma keep_decide p error per_tier deadline remaining now random : keep P in_time (lift (decide_retry p error per_tier deadline remaining now random)).
Proof.
  apply keep_lift. intros e. unfold decide_retry, uniform, check. repeat (case_match; try done). all: simpl; repeat (case_match; try done); by intros [= <-].
Qed.
Lemma keep_on_error error reservation per_tier probe : keep P in_time (on_error env cf inv error reservation per_tier probe).
Proof.
  do 2 (apply keep_bind; [by apply keep_clock|]; intros _). apply keep_after_observation. cbv zeta.
  apply keep_bind; [by apply keep_record_circuit|]. intros _. destruct (negb _); [by apply keep_failing|].
  apply keep_bind; [by apply keep_can_call|]. intros []; [|apply keep_ret]. simpl.
  apply keep_bind; [apply keep_read|]. intros remaining. apply keep_bind; [by apply keep_clock|]. intros now.
  apply keep_bind; [by apply keep_ask|]. intros random. apply keep_bind; [apply keep_decide|]. intros [delay|reason]; [|apply keep_ret].
  apply keep_bind; [by apply keep_emit_t|]. intros _. apply keep_bind; [by apply keep_ask|]. intros []; [by apply keep_failing|].
  apply keep_bind; [by apply (keep_log env)|]. intros _. apply keep_ret.
Qed.
(** An error the policy does not retry is not gone round for. *)
Lemma unknown_leaves reservation per_tier probe d d' : on_error env cf inv unknown_error reservation per_tier probe d <> (d', Ok (Again (Output := Output))).
Proof.
  assert (Hf : forall code d1, failing env code d1 <> (d', Ok (Again (Output := Output)))).
  { intros code d1 H. unfold failing in H. apply io_bind_inv in H as [(? & ? & _ & H)|(e & _ & H)]; discriminate H. }
  unfold on_error, after_observation. intros H. do 2 (apply io_bind_inv in H as [(? & ? & _ & H)|(e & _ & H)]; [|discriminate H]).
  apply io_bind_inv in H as [(d2 & ob & _ & H)|(e & _ & H)]; [|discriminate H]. destruct ob; [|by apply Hf in H].
  cbv zeta in H. apply io_bind_inv in H as [(d3 & ? & _ & H)|(e & _ & H)]; [|discriminate H]. simpl in H. by apply Hf in H.
Qed.
Lemma keep_accept_usage response reservation band probe : keep P (fun _ => True) (accept_usage env cf inv response reservation band probe).
Proof.
  assert (Hl : forall {A} (r : result A), keep P (fun _ => True) (lift r)) by (intros A r; by apply keep_lift).
  assert (Ht : forall {A} (m : io Driver A), keep P in_time m -> keep P (fun _ => True) m) by (intros A m Hm; by eapply keep_weaken).
  apply keep_bind; [apply Hl|]. intros r. apply keep_bind; [apply Hl|]. intros usage. apply keep_bind; [apply keep_read|]. intros tier.
  apply keep_bind; [apply Hl|]. intros _. apply keep_bind; [by apply keep_ask|]. intros price.
  apply keep_bind; [apply keep_when, keep_bind; [apply Hl|intros ?; apply keep_ret]|]. intros _.
  apply keep_bind; [by apply keep_observe|]. intros _. apply keep_bind; [apply Hl|]. intros cost.
  destruct (dec_ltb _ _); [|apply keep_ret]. apply keep_bind; [by apply Ht, keep_record_circuit|]. intros _.
  apply keep_bind; [by apply Ht, keep_failing|]. intros step. apply keep_ret.
Qed.
Lemma keep_rejected_usage e probe : keep P in_time (rejected_usage env cf inv e probe).
Proof.
  apply keep_bind; [|intros; apply keep_ret]. destruct (is_value_error e); [|by apply keep_failing].
  apply keep_after_observation, keep_bind; [by apply keep_record_circuit|]. intros _. by apply keep_failing.
Qed.
Lemma keep_on_response response reservation band probe injected : keep P in_time (on_response env cf inv response reservation band probe injected).
Proof.
  apply keep_bind; [by apply keep_clock|]. intros _.
  apply keep_bind; [eapply keep_try; [apply keep_accept_usage|]; intros e _; apply keep_rejected_usage|].
  intros [step|[cost r]]; [apply keep_ret|]. apply keep_bind; [by apply keep_ask|].
  intros []; (apply keep_bind; [by apply keep_record_circuit|]; intros _); [by apply keep_failing|].
  apply keep_bind; [intros d Hd; by apply HS|]. intros _. by apply keep_on_output.
Qed.
End Answers.

(** *** The loop *)
Definition here (t : ModelTier) (n : Z) (e : exn) (d : Driver) : Prop := (at_ t n d \/ at_ t (n + 1) d) /\ in_time e.
Lemma at_spent t n d spent : at_ t n d -> at_ t n (with_spent (dr_attempts d) spent d).
Proof. intros (H & Ht & Hn). split; [|done]. by eapply run_ok_eq. Qed.
Lemma at_memory t n d m u : at_ t n d -> at_ t n (with_memory m u d).
Proof. intros (H & Ht & Hn). split; [|done]. by eapply run_ok_eq. Qed.
Lemma attempt_spec t n reservation per_tier :
  hoare (at_ t n) (attempt env cf inv reservation per_tier)
    (fun step d => at_ t (n + 1) d \/ (at_ t n d /\ step <> Again)) (here t n).
Proof.
  pose proof (stable_at t n) as HP. pose proof (stable_at t (n + 1)) as HP1.
  assert (HE : forall e d, at_ t n d -> in_time e -> here t n e d) by (split; auto).
  assert (Hleave : forall m : io Driver (Step (Output := Output)), keep (at_ t n) in_time m -> (forall d d', m d <> (d', Ok Again)) ->
            hoare (at_ t n) m (fun step d => at_ t (n + 1) d \/ (at_ t n d /\ step <> Again)) (here t n)).
  { intros m Hm Hne d Hd. specialize (Hm d Hd). specialize (Hne d). destruct (m d) as [d' [step|e]]; [|by apply HE; apply Hm].
    right. split; [exact Hm|]. intros ->. by apply (Hne d'). }
  assert (Hf : forall code d d', failing env code d <> (d', Ok (Again (Output := Output)))).
  { intros code d d' H. unfold failing in H. apply io_bind_inv in H as [(? & ? & _ & H)|(e & _ & H)]; discriminate H. }
  assert (Hu : forall (m : io Driver unit) d d', (_ ← m; unavailable) d <> (d', Ok (Again (Output := Output)))).
  { intros m d d' H. apply io_bind_inv in H as [(? & ? & _ & H)|(e & _ & H)]; discriminate H. }
  unfold attempt. apply (keep_then _ in_time); [by apply keep_ask|exact HE|]. intros []; [by apply Hleave; [apply keep_failing|]|].
  apply (keep_then _ in_time); [by apply keep_can_call|exact HE|]. intros b. destruct (negb b).
  { apply Hleave; [|auto]. apply keep_bind; [by apply keep_emit_t|]. intros _. apply keep_ret. }
  apply (keep_then _ in_time); [by apply keep_clock|exact HE|]. intros now.
  apply (keep_then _ in_time); [by apply (keep_acquire env)|exact HE|]. intros decision.
  assert (Hadmitted : decision <> D_reject -> hoare (at_ t n)
    (injected ← compose_request env inv (is_probe decision);
     callable ← can_call env inv reservation;
     if negb callable then _ ← when_ (is_probe decision) (record_circuit env inv false (is_probe decision)); unavailable
     else outcome ← dispatch_or_error env inv reservation decision (is_probe decision) injected;
          match outcome with
          | TooLate => unavailable
          | Answered_ (Errs error) _ _ => on_error env cf inv error reservation (per_tier + 1) (is_probe decision)
          | Answered_ (Responds response) injected band => on_response env cf inv response reservation band (is_probe decision) injected
          end) (fun step d => at_ t (n + 1) d \/ (at_ t n d /\ step <> Again)) (here t n)).
  2: { destruct decision; [by apply Hadmitted..|]. apply Hleave; [|auto]. apply keep_bind; [by apply keep_emit_t|]. intros _. apply keep_ret. }
  intros Hd. apply (keep_then _ in_time); [by apply keep_compose|exact HE|]. intros injected.
  eapply hoare_bind; [eapply hoare_conseq; [by apply can_call_spec, HP|done|intros ?? H; exact H|done]|]. intros []; simpl.
  2: { eapply hoare_conseq; [apply Hleave; [|apply Hu]|by intros d []|done|done]. apply keep_bind; [apply keep_when; by apply keep_record_circuit|].
       intros _. apply keep_ret. }
  eapply (hoare_bind _ _ _ (fun o d => match o with
    | TooLate => at_ t n d
    | Answered_ a _ _ => at_ t (n + 1) d \/ (at_ t n d /\ a = Errs unknown_error) end)).
  { eapply hoare_try; [eapply hoare_conseq; [by apply dispatch_spec|intros d [H1 H2]; split; [exact H1|by apply H2]| |done]|].
    - intros []; [done|by left].
    - intros e d [H _]. simpl. by right. }
  intros [|[response|error] injected' band].
  - intros d H. simpl. by right.
  - intros d [H|[_ [=]]]. pose proof (keep_on_response _ HP1 (at_spent t (n + 1)) (at_memory t (n + 1)) response reservation band (is_probe decision) injected' d H) as K.
    destruct (on_response _ _ _ _ _ _ _ _ d) as [d' [step|e]]; [by left|split; [right; apply K|apply K]].
  - intros d [H|[H [= ->]]].
    + pose proof (keep_on_error _ HP1 error reservation (per_tier + 1) (is_probe decision) d H) as K.
      destruct (on_error _ _ _ _ _ _ _ d) as [d' [step|e]]; [by left|split; [right; apply K|apply K]].
    + pose proof (keep_on_error _ HP unknown_error reservation (per_tier + 1) (is_probe decision) d H) as K.
      pose proof (unknown_leaves reservation (per_tier + 1) (is_probe decision) d) as L.
      destruct (on_error _ _ _ _ _ _ _ d) as [d' [step|e]]; [|split; [left; apply K|apply K]].
      right. split; [exact K|]. intros ->. by apply (L d').
Qed.

Definition on_tier (t : ModelTier) (d : Driver) : Prop := run_ok d /\ dr_tier d = t.
Definition ended (t : ModelTier) (e : exn) (d : Driver) : Prop := on_tier t d /\ in_time e.
Lemma at_on_tier t n d : at_ t n d -> on_tier t d.
Proof. by intros (? & ? & _). Qed.
Lemma stable_on_tier t : stable env (on_tier t).
Proof.
  split; [split|]; intros d; intros; match goal with H : on_tier _ _ |- _ => destruct H as [Hr Ht] end; (split; [|done]).
  all: eapply run_ok_eq; [exact Hr| |reflexivity|reflexivity]; try reflexivity. by apply dispatches_log.
Qed.
Lemma attempts_spec t reservation fuel : forall n per_tier, (Z.to_nat (in_max_attempts inv - n) < fuel)%nat ->
  hoare (at_ t n) (attempts env cf inv fuel reservation per_tier) (fun _ => on_tier t) (ended t).
Proof.
  induction fuel as [|fuel IH]; intros n per_tier Hf; [lia|]. simpl.
  eapply hoare_bind; [eapply hoare_conseq; [apply (attempt_spec t n)|done|intros ?? H; exact H|]|].
  - intros e d [[H|H] He]; (split; [by eapply at_on_tier|exact He]).
  - intros [|r] d H; [|destruct H as [H|[H _]]; by apply at_on_tier in H]. destruct H as [H|[_ H]]; [|done].
    apply (IH (n + 1)); [|exact H]. pose proof (ru_bound _ (proj1 H)) as Hb. destruct H as (_ & _ & Hn). lia.
Qed.
Lemma model_spec t : hoare (on_tier t) (model env cf inv) (fun _ => on_tier t) (ended t).
Proof.
  intros d Hd. unfold model, mbind, io_bind, read. destruct (negb _); [exact Hd|]. destruct (cost_of_tier _ _) as [reservation|]; [|exact Hd].
  apply (attempts_spec t reservation (attempts_left inv d) (dr_attempts d)); [unfold attempts_left; lia|]. by destruct Hd.
Qed.
Lemma keep_host_success P origin output : calm env P -> keep P in_time (host_success env cf origin output).
Proof. intros HP. apply keep_bind; [by apply keep_observed|]. intros b. apply keep_ret. Qed.
Lemma keep_abstain P : calm env P -> keep P in_time (abstain env cf).
Proof. intros HP. apply keep_bind; [by apply keep_emit_t|]. intros _. by apply keep_host_success. Qed.
Lemma keep_local P : calm env P -> keep P in_time (local_knowledge env cf).
Proof.
  intros HP. apply keep_bind; [by apply keep_emit_t|]. intros _. apply keep_bind; [by apply keep_ask|].
  intros [| |[] [output|]]; try apply keep_ret. apply keep_bind; [by apply keep_emit_t|]. intros _.
  apply keep_bind; [by apply keep_host_success|]. intros r. apply keep_ret.
Qed.
Definition over (e : exn) (d : Driver) : Prop := run_ok d /\ in_time e.
Lemma fallback_spec fuel : forall t, (Z.to_nat (tier_index t) < fuel)%nat ->
  hoare (on_tier t) (models_and_fallback env cf inv fuel) (fun _ => run_ok) over.
Proof.
  induction fuel as [|fuel IH]; intros t Hf; [lia|]. cbn [models_and_fallback]. pose proof (stable_on_tier t) as HP.
  assert (HE : forall e d, on_tier t d -> in_time e -> over e d) by (by intros e d [? _]).
  assert (Hkeep : forall m : io Driver (AgentResult Output), keep (on_tier t) in_time m -> hoare (on_tier t) m (fun _ => run_ok) over).
  { intros m Hm. apply (keep_last _ in_time); [exact Hm|exact HE|]. by intros _ d [? _]. }
  apply (keep_then _ in_time); [by apply keep_ask|exact HE|]. intros []; [by apply Hkeep, keep_fail|].
  eapply hoare_bind; [eapply hoare_conseq; [apply (model_spec t)|done|intros ?? H; exact H|by intros e d [[? _] ?]]|].
  intros [r|]; [by intros d [? _]|]. apply hoare_read_then. intros tier. cbv beta iota.
  destruct (decide (tier = t)) as [->|Hne]; [|intros d [[_ H1] H2]; congruence].
  eapply hoare_conseq with (P := on_tier t); [|by intros d [? _]|intros ?? H; exact H|intros ?? H; exact H].
  destruct (next (cf_fallback cf) (Some t)) as [lower| |].
  - destruct (Z.leb_spec (tier_index t) (tier_index lower)) as [Hle|Hlt]; [by apply Hkeep, keep_fail|].
    apply (hoare_modify_then _ (on_tier lower)).
    { intros d [[R1 R2 R3 R4] Ht]. split; [|done]. split; try done. simpl. rewrite Ht in R4. lia. }
    apply (keep_then _ in_time); [apply keep_emit_t, stable_on_tier|by intros e d [? _]|]. intros _. apply IH.
    destruct t, lower; simpl in *; lia.
  - apply (keep_then _ in_time); [by apply keep_local|exact HE|]. intros [r|]; [by intros d [? _]|by apply Hkeep, keep_abstain].
  - by apply Hkeep, keep_abstain.
Qed.

(** *** [execute] *)
Lemma keep_unless_expired P rest : calm env P -> keep P in_time rest -> keep P in_time (unless_expired (Output := Output) env rest).
Proof.
  intros HP Hr. apply keep_bind; [apply keep_read|]. intros []; [|exact Hr]. simpl.
  apply keep_bind; [by apply keep_memory_expired|]. intros []; [by apply keep_discard|exact Hr].
Qed.
Lemma keep_deliver P result : calm env P -> keep P in_time (deliver (Output := Output) env result).
Proof.
  intros HP. apply keep_bind; [apply keep_read|]. intros []; (apply keep_bind; [by apply keep_emit_t|]; intros _); [|apply keep_ret].
  apply keep_unless_expired; [done|]. apply keep_bind; [by apply keep_emit_t|]. intros _. apply keep_unless_expired; [done|apply keep_ret].
Qed.
Lemma keep_reflect P result : calm env P -> keep P in_time (reflect (Output := Output) env cf result).
Proof.
  intros HP. unfold reflect. pose proof (keep_deliver P result HP) as Hd.
  destruct (cf_reflection_required cf); [|by apply keep_unless_expired].
  apply keep_bind; [by apply keep_emit_t|]. intros _. apply keep_unless_expired; [done|].
  destruct (cf_hook cf); [|by apply keep_unless_expired]. apply keep_bind; [by apply keep_ask|].
  intros []; [|by apply keep_fail]. by do 2 (apply keep_unless_expired; [done|]).
Qed.
Definition fresh (d : Driver) : Prop := dispatches (dr_trace d) = [] /\ dr_attempts d = in_attempt inv.
Definition sound (d : Driver) : Prop :=
  dispatches_ok (dispatches (dr_trace d)) /\
  in_attempt inv + Z.of_nat (length (dispatches (dr_trace d))) <= in_max_attempts inv.
Lemma stable_fresh : stable env fresh.
Proof.
  split; [split|]; intros; match goal with H : fresh _ |- _ => destruct H as [H1 H2] end; (split; [|exact H2]); try exact H1.
  etrans; [by apply dispatches_log|exact H1].
Qed.
Lemma stable_run_ok : stable env run_ok.
Proof.
  split; [split|]; intros d; intros; (eapply run_ok_eq; [eassumption| |reflexivity|reflexivity]); try reflexivity. by apply dispatches_log.
Qed.
Lemma run_ok_sound d : run_ok d -> sound d.
Proof. intros [H1 H2 H3 _]. split; [exact H1|lia]. Qed.
Lemma fresh_sound d : in_attempt inv <= in_max_attempts inv -> fresh d -> sound d.
Proof. intros Hle [H1 _]. unfold sound. rewrite H1. simpl. split; [done|lia]. Qed.
Lemma keep_admit_memory P memory X : calm env P -> (forall d m u, P d -> P (with_memory m u d)) -> keep P X (admit_memory env memory).
Proof.
  intros HP HM. unfold admit_memory. destruct (negb _); [apply keep_ret|]. apply keep_bind; [by apply keep_clock|]. intros now.
  apply keep_bind; [by apply keep_memory|]. intros _. apply keep_ret.
Qed.
Lemma body_spec memory desired : in_attempt inv <= in_max_attempts inv ->
  match desired with Some t => tier_index (routed_tier inv t) <= tier_index top | None => True end ->
  hoare fresh (body env cf inv memory desired) (fun _ => sound) (fun e d => sound d /\ in_time e).
Proof.
  intros Hle Htop. pose proof stable_fresh as HP.
  assert (HE : forall e d, fresh d -> in_time e -> sound d /\ in_time e) by (intros e d ? ?; split; [by apply fresh_sound|done]).
  assert (Hfail : forall code, hoare fresh (fail (Output := Output) env code) (fun _ => sound) (fun e d => sound d /\ in_time e)).
  { intros code. apply (keep_last _ in_time); [by apply keep_fail|exact HE|]. intros _ d Hd. by apply fresh_sound. }
  unfold body. apply (keep_then _ in_time); [by apply keep_emit_t|exact HE|]. intros _.
  apply (keep_then _ in_time); [by apply keep_ask|exact HE|]. intros []; [apply Hfail|].
  apply (keep_then _ in_time); [destruct memory; [by apply keep_admit_memory|apply keep_ret]|exact HE|]. intros []; [cbn [negb]|apply Hfail].
  destruct desired as [desired|]; [|apply Hfail].
  apply (hoare_modify_then _ (on_tier (routed_tier inv desired))).
  { intros d [H1 H2]. split; [|done]. split; simpl; rewrite ?H1; simpl; [done|lia|lia|exact Htop]. }
  assert (HE' : forall e d, on_tier (routed_tier inv desired) d -> in_time e -> sound d /\ in_time e).
  { intros e d [? _] ?. split; [by apply run_ok_sound|done]. }
  pose proof (stable_on_tier (routed_tier inv desired)) as HP'.
  do 3 (apply (keep_then _ in_time); [by apply keep_emit_t|exact HE'|]; intros _).
  eapply hoare_bind; [eapply hoare_conseq; [apply (fallback_spec 3 (routed_tier inv desired))|done|intros ?? H; exact H|]|].
  - destruct (routed_tier inv desired); simpl; lia.
  - intros e d [H ?]. split; [by apply run_ok_sound|done].
  - intros [origin output|code].
    + apply (keep_last _ in_time); [by apply keep_reflect, stable_run_ok| |]; [intros e d ? ?; split; [by apply run_ok_sound|done]|].
      intros _ d ?. by apply run_ok_sound.
    + intros d ?. by apply run_ok_sound.
Qed.
Lemma execute_spec memory desired b d r : validate_invocation inv = Ok inv ->
  match desired with Some t => tier_index (routed_tier inv t) <= tier_index top | None => True end ->
  execute env cf inv memory desired (new_run inv b) = (d, r) -> sound d /\ r <> Raise OutOfFuel.
Proof.
  intros Hv Htop Hrun. unfold validate_invocation in Hv. inv_ok Hv. inv_checks. to_prop.
  assert (Hle : in_attempt inv <= in_max_attempts inv) by lia.
  assert (Hspec : hoare fresh (execute env cf inv memory desired) (fun _ => sound) (fun e d => sound d /\ in_time e)).
  { eapply hoare_try; [by apply body_spec|]. intros e d' [Hd He]. destruct (is_audit_failure e); simpl; [exact Hd|by split]. }
  specialize (Hspec (new_run inv b)). rewrite Hrun in Hspec. destruct r as [r|e]; [split; [by apply Hspec|done]|].
  destruct Hspec as [Hsound Htime]; [done|]. split; [exact Hsound|]. by intros [= ->].
Qed.
End Run.

(** ** Probes

    A driver alone on its breaker, with an observer that does not raise. *)
Section Probes.
  Context {Output : Type} (env : Environment Output) (cf : Config) (inv : AgentInvocation).
  Hypothesis Hkind : truthy (in_task_kind inv) = true.
  Hypothesis Halone : forall n, en_others env n = [].
  Hypothesis Hobserved : forall n, en_observe env n = None.
(** No probe is outstanding; or none but one of the run's own circuit. *)
Definition settled (s : CircuitBreaker * list entry) : Prop := forall key, probe_outstanding key s.2 = false.
Definition idle (d : Driver) : Prop := settled (dr_breaker d).
Definition one (d : Driver) : Prop := forall key, key <> circuit_key inv (dr_tier d) -> probe_outstanding key (dr_breaker d).2 = false.
Definition pending (probe : bool) (d : Driver) : Prop := if probe then one d else idle d.
Definition idly (e : exn) (d : Driver) : Prop := idle d.

Lemma idle_one d : idle d -> one d.
Proof. intros H key _. apply H. Qed.
Lemma idle_pending probe d : idle d -> pending probe d.
Proof. destruct probe; [apply idle_one|done]. Qed.
Lemma pending_one probe d : pending probe d -> one d.
Proof. destruct probe; [done|apply idle_one]. Qed.
Lemma calm_pending probe : calm env (pending probe).
Proof. destruct probe; (split; intros; [|assumption..]); unfold pending, one, idle, tick; simpl; by rewrite Halone. Qed.
Lemma calm_idle : calm env idle.
Proof. exact (calm_pending false). Qed.
Hint Resolve calm_idle calm_pending : core.
Lemma record_settles success : hoare one (record_breaker env inv success) (fun _ => idle) idly.
Proof.
  intros d Hd. pose proof (ca_tick _ _ (calm_pending true) d Hd) as Ht. unfold record_breaker, clock, ask, mbind, io_bind, modify.
  set (d1 := tick env d) in *. clearbody d1. unfold idle, settled. cbn [with_breaker dr_breaker].
  destruct (dr_breaker d1) as [b entries] eqn:Eb. cbn [run_call]. rewrite record_run. unfold key_ok. cbn [circuit_key fst snd]. rewrite Hkind.
  assert (Hv : truthy (tier_value (dr_tier d1)) = true) by (by destruct (dr_tier d1)). rewrite Hv. simpl. intros key. case_bool_decide as E; [done|].
  specialize (Ht key). rewrite Eb in Ht. apply Ht. intros ->. by apply E.
Qed.
Lemma circuit_settles success probe p : hoare (pending p) (record_circuit env inv success probe) (fun _ => idle) idly.
Proof.
  eapply (hoare_bind _ _ _ (fun _ => idle)); [eapply hoare_conseq; [apply record_settles|apply pending_one|done|done]|]. intros _.
  apply (keep_last _ in_time); [by apply keep_emit_t|done|done].
Qed.
Lemma acquire_pends now : hoare idle (acquire_circuit inv now) (fun decision => pending (is_probe decision)) idly.
Proof.
  intros d Hd. unfold acquire_circuit. unfold idle, settled in *. destruct (dr_breaker d) as [b entries] eqn:Eb. simpl in Hd.
  destruct (acquire _ now b) as [b' [decision|e]]; [|unfold idly, idle, settled; exact Hd].
  destruct decision; unfold is_probe, pending, idle, one, settled; simpl; try exact Hd.
  intros key Hne. rewrite bool_decide_false by (intros E; by apply Hne). apply Hd.
Qed.
Lemma compose_pends probe : hoare (pending probe) (compose_request env inv probe) (fun _ => pending probe) idly.
Proof.
  eapply (hoare_try _ _ _ _ _ (fun e d => pending probe d /\ AuditFailure = e)).
  - apply keep_bind; [apply keep_when; by apply keep_emit|]. intros _. apply keep_bind; [by apply keep_memory_live|]. intros b.
    apply keep_bind; [by apply keep_emit|]. intros _. apply keep_ret.
  - intros e. destruct probe; cbn [pending].
    + intros d [Hd <-]. cbn. pose proof (record_settles false d Hd) as H. unfold mbind, io_bind. by destruct (record_breaker _ _ _ d) as [d' [|]].
    + rewrite andb_false_r. by intros d [Hd _].
Qed.
Lemma dispatch_pends reservation decision probe injected :
  hoare (pending probe) (dispatch_or_error env inv reservation decision probe injected)
    (fun o d => match o with TooLate => idle d | Answered_ _ _ _ => pending probe d end) idly.
Proof.
  eapply (hoare_try _ _ _ _ _ idly); [|intros e d Hd; by apply idle_pending].
  apply (keep_then (pending probe) (fun _ => False)); [by apply keep_memory_live|done|]. intros still.
  apply (keep_then (pending probe) (fun _ => False)); [by apply keep_clock|done|]. intros now. destruct (SFleb _ _).
  - eapply hoare_bind with (Q := fun _ => idle); [|by intros _ d Hd]. apply hoare_when; [intros _; apply circuit_settles|]. intros -> d Hd. exact Hd.
  - apply (hoare_modify_then _ (pending probe)); [done|]. apply hoare_read_then. intros sent.
    apply (hoare_modify_then _ (pending probe)); [by intros d [Hd _]|].
    apply (keep_then (pending probe) (fun _ => False)); [by apply keep_ask|done|]. intros answer d Hd. exact Hd.
Qed.
Lemma observed_settles rest p : hoare (pending p) rest (fun _ => idle) idly -> hoare (pending p) (after_observation env cf rest) (fun _ => idle) idly.
Proof.
  intros Hr. apply (hoare_bind _ _ _ (fun b d => pending p d /\ b = true)).
  - intros d Hd. unfold try_, observe_attempt, ask, mbind, io_bind. destruct (cf_observer cf); [|done]. rewrite Hobserved. split; [by apply calm_pending|done].
  - intros b d [Hd ->]. by apply Hr.
Qed.
Lemma idle_last {A} (m : io Driver A) : keep idle in_time m -> hoare idle m (fun _ => idle) idly.
Proof. intros H. by apply (keep_last _ in_time). Qed.
Lemma error_settles error reservation per_tier probe :
  hoare (pending probe) (on_error env cf inv error reservation per_tier probe) (fun _ => idle) idly.
Proof.
  do 2 (apply (keep_then (pending probe) (fun _ => False)); [by apply keep_clock|done|]; intros _). apply observed_settles. cbv zeta.
  eapply (hoare_bind _ _ _ (fun _ => idle)); [apply circuit_settles|]. intros _. apply idle_last. destruct (negb _); [by apply keep_failing|].
  apply keep_bind; [by apply keep_can_call|]. intros []; [|apply keep_ret]. simpl.
  apply keep_bind; [apply keep_read|]. intros remaining. apply keep_bind; [by apply keep_clock|]. intros now.
  apply keep_bind; [by apply keep_ask|]. intros random. apply keep_bind; [apply keep_decide|]. intros [delay|reason]; [|apply keep_ret].
  apply keep_bind; [by apply keep_emit_t|]. intros _. apply keep_bind; [by apply keep_ask|]. intros []; [by apply keep_failing|].
  apply keep_bind; [by apply (keep_log env)|]. intros _. apply keep_ret.
Qed.

(** The exceptions of a usage are value errors, but for those raised when the probe is told of. *)
Definition usage_error (probe : bool) (e : exn) (d : Driver) : Prop := idle d \/ (pending probe d /\ is_value_error e = true).
Lemma value_error_raised b msg e : raise_when b (ValueError msg) = Raise e -> is_value_error e = true.
Proof. unfold raise_when. destruct b; [|done]. by intros [= <-]. Qed.
Lemma tool_price_raises price e : web_search_tool_price price = Raise e -> is_value_error e = true.
Proof.
  unfold web_search_tool_price. generalize (decimal_of (strip (default DEFAULT_OPENAI_WEB_SEARCH_TOOL_PRICE_USD_PER_1K price))).
  intros [[d|]|]; try (by intros [= <-]). intros [H|(? & _ & H)]%bind_Raise; [by apply value_error_raised in H|discriminate H].
Qed.
Lemma pricing_raises model band e : workflow_model_pricing model band = Raise e -> is_value_error e = true.
Proof. unfold workflow_model_pricing. generalize WORKFLOW_MODEL_PRICING_USD_PER_1M. intros l. destruct (List.find _ l) as [[? []]|]; [done|]. by intros [= <-]. Qed.
Lemma usage_raises u e : validate_usage u = Raise e -> is_value_error e = true.
Proof.
  unfold validate_usage. intros [H|(? & _ & H)]%bind_Raise; [unfold check in H; destruct (forallb _ _); [done|by injection H as <-]|].
  apply bind_Raise in H as [H|(? & _ & H)]; [by apply value_error_raised in H|discriminate H].
Qed.
Lemma division_succeeds a n e : n <> 0 -> dec_div a (dec_of_Z n) <> Raise e.
Proof. intros Hn Hr. destruct (dec_div_total a (dec_of_Z n)) as [q Hq]; [|congruence]. unfold dec_of_Z. simpl. lia. Qed.
Lemma estimate_cost_raises model band usage tool_price e : estimate_workflow_usage_cost model band usage tool_price = Raise e -> is_value_error e = true.
Proof.
  unfold estimate_workflow_usage_cost. intros [H|(? & _ & H)]%bind_Raise; [by apply value_error_raised in H|].
  apply bind_Raise in H as [H|(p & _ & H)]; [by apply pricing_raises in H|].
  apply bind_Raise in H as [H|(? & _ & H)]; [by apply division_succeeds in H|].
  apply bind_Raise in H as [H|(? & _ & H)]; [by apply division_succeeds in H|discriminate H].
Qed.
Lemma exact_cost_raises tier band usage price e : exact_attempt_cost tier band usage price = Raise e -> is_value_error e = true.
Proof.
  unfold exact_attempt_cost. intros [H|(? & _ & H)]%bind_Raise; [by apply usage_raises in H|].
  apply bind_Raise in H as [H|(p & _ & H)]; [by apply pricing_raises in H|].
  apply bind_Raise in H as [H|(tool_price & _ & H)]; [by apply tool_price_raises in H|by apply estimate_cost_raises in H].
Qed.
Lemma lift_pends {A} probe (r : result A) : (forall e, r = Raise e -> is_value_error e = true) ->
  hoare (pending probe) (lift r) (fun _ => pending probe) (usage_error probe).
Proof. intros H d Hd. unfold lift. destruct r; [done|]. right. split; [done|by apply H]. Qed.
Lemma keep_pends {A} probe (m : io Driver A) : keep (pending probe) (fun _ => False) m -> hoare (pending probe) m (fun _ => pending probe) (usage_error probe).
Proof. intros H. by apply (keep_last _ (fun _ => False)). Qed.
Lemma observe_pends probe : hoare (pending probe) (observe_attempt env cf) (fun _ => pending probe) (usage_error probe).
Proof.
  unfold observe_attempt. destruct (cf_observer cf); [|by intros d Hd]. intros d Hd. unfold ask, mbind, io_bind. rewrite Hobserved. by apply calm_pending.
Qed.
Lemma usage_settles response reservation band probe :
  hoare (pending probe) (accept_usage env cf inv response reservation band probe)
    (fun r d => match r with inl _ => idle d | inr _ => pending probe d end) (usage_error probe).
Proof.
  assert (Hb : forall {A B} (m : io Driver A) (f : A -> io Driver B) R,
    hoare (pending probe) m (fun _ => pending probe) (usage_error probe) ->
    (forall a, hoare (pending probe) (f a) R (usage_error probe)) -> hoare (pending probe) (m ≫= f) R (usage_error probe)).
  { intros A B m f R Hm Hf. by eapply (hoare_bind _ _ _ (fun _ => pending probe)). }
  unfold accept_usage. apply Hb; [apply lift_pends; destruct response; [done|]; by intros e [= <-]|]. intros r.
  apply Hb; [apply lift_pends; destruct (mr_usage r); [done|]; by intros e [= <-]|]. intros usage.
  apply Hb; [apply keep_pends, keep_read|]. intros tier.
  apply Hb; [apply lift_pends; unfold check; destruct (bool_decide _); [done|]; by intros e [= <-]|]. intros _.
  apply Hb; [apply keep_pends; by apply keep_ask|]. intros price.
  apply Hb; [apply hoare_when; [intros _; apply Hb; [apply lift_pends, exact_cost_raises|by intros _ d Hd]|done]|]. intros _.
  apply Hb; [apply observe_pends|]. intros _. apply Hb; [apply lift_pends, exact_cost_raises|]. intros cost.
  destruct (dec_ltb _ _); [|by intros d Hd].
  eapply (hoare_bind _ _ _ (fun _ => idle)); [eapply hoare_conseq; [apply circuit_settles|done|done|by left]|]. intros _.
  eapply (hoare_bind _ _ _ (fun _ => idle)); [apply (keep_last _ in_time); [by apply keep_failing|by left|done]|]. by intros step d Hd.
Qed.
Lemma rejected_settles e probe : hoare (usage_error probe e) (rejected_usage env cf inv e probe) (fun r d => match r with inl _ => idle d | inr _ => pending probe d end) idly.
Proof.
  apply (hoare_bind _ _ _ (fun _ => idle)); [|by intros step d Hd]. destruct (is_value_error e) eqn:Ee.
  - eapply hoare_conseq with (P := pending probe); [|by intros d [Hd|[Hd _]]; [apply idle_pending|]|intros ?? H; exact H|intros ?? H; exact H].
    apply observed_settles. eapply (hoare_bind _ _ _ (fun _ => idle)); [apply circuit_settles|]. intros _. by apply idle_last, keep_failing.
  - eapply hoare_conseq with (P := idle); [by apply idle_last, keep_failing|by intros d [Hd|[_ [=]%eq_sym]]; [|congruence]|intros ?? H; exact H|intros ?? H; exact H].
Qed.
Lemma response_settles response reservation band probe injected :
  hoare (pending probe) (on_response env cf inv response reservation band probe injected) (fun _ => idle) idly.
Proof.
  apply (keep_then (pending probe) (fun _ => False)); [by apply keep_clock|done|]. intros _.
  eapply (hoare_bind _ _ _ (fun r d => match r with inl _ => idle d | inr _ => pending probe d end)).
  { eapply hoare_try; [apply usage_settles|]. intros e. apply rejected_settles. }
  intros [step|[cost r]]; [by intros d Hd|]. apply (keep_then (pending probe) (fun _ => False)); [by apply keep_ask|done|].
  intros []; (eapply (hoare_bind _ _ _ (fun _ => idle)); [apply circuit_settles|]; intros _); apply idle_last.
  - by apply keep_failing.
  - apply keep_bind; [by intros d Hd|]. intros _. by apply keep_on_output.
Qed.
Lemma attempt_settles reservation per_tier : hoare idle (attempt env cf inv reservation per_tier) (fun _ => idle) idly.
Proof.
  assert (HE : forall e d, idle d -> in_time e -> idly e d) by done.
  unfold attempt. apply (keep_then _ in_time); [by apply keep_ask|exact HE|]. intros []; [by apply idle_last, keep_failing|].
  apply (keep_then _ in_time); [by apply keep_can_call|exact HE|]. intros b. destruct (negb b).
  { apply idle_last, keep_bind; [by apply keep_emit_t|]. intros _. apply keep_ret. }
  apply (keep_then _ in_time); [by apply keep_clock|exact HE|]. intros now.
  eapply hoare_bind; [apply acquire_pends|]. intros decision. cbv beta.
  assert (Hrest : forall probe, hoare (pending probe)
    (injected ← compose_request env inv probe;
     callable ← can_call env inv reservation;
     if negb callable then _ ← when_ probe (record_circuit env inv false probe); unavailable
     else outcome ← dispatch_or_error env inv reservation decision probe injected;
          match outcome with
          | TooLate => unavailable
          | Answered_ (Errs error) _ _ => on_error env cf inv error reservation (per_tier + 1) probe
          | Answered_ (Responds response) injected band => on_response env cf inv response reservation band probe injected
          end) (fun _ => idle) idly).
  { intros probe. eapply (hoare_bind _ _ _ (fun _ => pending probe)); [apply compose_pends|]. intros injected.
    apply (keep_then (pending probe) (fun _ => False)); [|done|].
    { intros d Hd. pose proof (keep_can_call env inv (pending probe) (calm_pending probe) reservation d Hd) as H. unfold can_call, mbind, io_bind, read, clock, ask in *.
      destruct (negb _); [done|]. by destruct (negb _). }
    intros callable. destruct (negb callable).
    - eapply (hoare_bind _ _ _ (fun _ => idle)); [apply hoare_when; [intros _; apply circuit_settles|by intros -> d Hd]|]. by intros _ d Hd.
    - eapply hoare_bind; [apply dispatch_pends|]. intros [|[response|error] injected' band]; [by intros d Hd|apply response_settles|apply error_settles]. }
  destruct decision; [apply Hrest..|]. apply idle_last, keep_bind; [by apply keep_emit_t|]. intros _. apply keep_ret.
Qed.
Lemma attempts_settle reservation fuel : forall per_tier, hoare idle (attempts env cf inv fuel reservation per_tier) (fun _ => idle) idly.
Proof.
  induction fuel as [|fuel IH]; intros per_tier; [by intros d Hd|]. cbn [attempts].
  eapply (hoare_bind _ _ _ (fun _ => idle)); [apply attempt_settles|]. intros [|r]; [apply IH|by intros d Hd].
Qed.
Lemma model_settles : hoare idle (model env cf inv) (fun _ => idle) idly.
Proof.
  intros d Hd. unfold model, mbind, io_bind, read. destruct (negb _); [exact Hd|]. destruct (cost_of_tier _ _); [|exact Hd].
  by apply attempts_settle.
Qed.
Lemma fallback_settles fuel : hoare idle (models_and_fallback env cf inv fuel) (fun _ => idle) idly.
Proof.
  assert (HE : forall e d, idle d -> in_time e -> idly e d) by done.
  induction fuel as [|fuel IH]; [by intros d Hd|]. cbn [models_and_fallback].
  apply (keep_then _ in_time); [by apply keep_ask|exact HE|]. intros []; [by apply idle_last, keep_fail|].
  eapply (hoare_bind _ _ _ (fun _ => idle)); [apply model_settles|]. intros [r|]; [by intros d Hd|].
  apply hoare_read_then. intros tier. cbv beta iota.
  eapply hoare_conseq with (P := idle); [|by intros d [? _]|intros ?? H; exact H|intros ?? H; exact H].
  destruct (next (cf_fallback cf) (Some tier)) as [lower| |].
  - destruct (_ <=? _); [by apply idle_last, keep_fail|]. apply (hoare_modify_then _ idle); [done|].
    apply (keep_then _ in_time); [by apply keep_emit_t|exact HE|]. intros _. exact IH.
  - apply (keep_then _ in_time); [by apply keep_local|exact HE|]. intros [r|]; [by intros d Hd|by apply idle_last, keep_abstain].
  - by apply idle_last, keep_abstain.
Qed.
Lemma execute_settles memory desired : hoare idle (execute env cf inv memory desired) (fun _ => idle) idly.
Proof.
  assert (HE : forall e d, idle d -> in_time e -> idly e d) by done.
  apply (hoare_try _ _ _ _ _ idly); [|intros e d Hd; by destruct (is_audit_failure e)].
  unfold body. apply (keep_then _ in_time); [by apply keep_emit_t|exact HE|]. intros _.
  apply (keep_then _ in_time); [by apply keep_ask|exact HE|]. intros []; [by apply idle_last, keep_fail|].
  apply (keep_then _ in_time); [destruct memory; [by apply keep_admit_memory|apply keep_ret]|exact HE|]. intros []; [cbn [negb]|by apply idle_last, keep_fail].
  destruct desired as [desired|]; [|by apply idle_last, keep_fail]. apply (hoare_modify_then _ idle); [done|].
  do 3 (apply (keep_then _ in_time); [by apply keep_emit_t|exact HE|]; intros _).
  eapply (hoare_bind _ _ _ (fun _ => idle)); [apply fallback_settles|]. intros [origin output|code]; [|by intros d Hd].
  by apply idle_last, keep_reflect.
Qed.
End Probes.

(** ** The bounded memory *)
Section Memories.
  Context {Output : Type} (env : Environment Output) (cf : Config) (inv : AgentInvocation).
  Hypothesis Hkind : truthy (in_task_kind inv) = true.
(** *** What a summary that is carried must be, apart from how it is admitted *)
Record admissible (memory : Memory) : Prop := {
  ad_valid : me_valid memory = true;
  ad_confidence : SFleb MEMORY_MIN_CONFIDENCE (me_confidence memory) = true;
  ad_uncontradicted : me_contradicted memory = false;
  ad_bytes : 0 < me_context_bytes memory <= MEMORY_MAX_BYTES }.
(** Its latest end: a day after its issue, less the age it had then. *)
Definition oldest (memory : Memory) : spec_float :=
  float_sub (float_add (me_issued_at memory) (float_int MEMORY_MAX_AGE_SECONDS)) (float_int (me_freshness_seconds memory)).
(** Issued, not expired, and not at or past its latest end. *)
Definition current (memory : Memory) (now : spec_float) : Prop :=
  SFleb (me_issued_at memory) now = true /\ SFltb now (me_expires_at memory) = true /\ SFleb (oldest memory) now = false.
Definition window (memory : Memory) : spec_float * spec_float :=
  (me_issued_at memory, float_min (me_expires_at memory) (oldest memory)).
Lemma live_current memory now : live (window memory) now = true -> current memory now.
Proof.
  unfold live, window, current, float_min. cbn [fst snd]. intros [Hi He]%andb_true_iff. split; [exact Hi|].
  destruct (SFltb (oldest memory) (me_expires_at memory)) eqn:E.
  - split; [by eapply flt_fle_trans; [exact He|apply flt_fle]|]. apply not_true_is_false. by apply flt_not_fle.
  - split; [exact He|]. apply not_true_is_false. intros H. by rewrite (fle_flt_trans _ _ _ H He : SFltb _ _ = true) in E.
Qed.

(** *** Which request an answer answers *)
Definition sent_last (x : Dispatch) (d : Driver) : Prop := exists rest, dispatches (dr_trace d) = x :: rest.
Definition answers (output : Output) (x : Dispatch) : Prop :=
  exists n response, en_invoke env n x = Responds (Some response) /\ mr_output response = Some output.
(** The output answers the last request, and the run remembers whether that one carried the memory. *)
Definition answered (output : Output) (d : Driver) : Prop :=
  exists x, sent_last x d /\ answers output x /\ dr_used_memory d = dp_memory x.
Definition of_model (r : AgentResult Output) (d : Driver) : Prop :=
  match r with Success origin output => origin = "model" -> answered output d | Failure _ => True end.
Definition said (step : Step (Output := Output)) (d : Driver) : Prop :=
  match step with Leave (Some r) => of_model r d | _ => True end.
(** The run has this memory, and a result used it only if there is one. *)
Definition holds (m : option (spec_float * spec_float)) (d : Driver) : Prop :=
  dr_memory d = m /\ (dr_used_memory d = true -> is_Some m).
Definition ended_with (m : option (spec_float * spec_float)) (e : exn) (d : Driver) : Prop := holds m d.
(** After this request was sent. *)
Definition after (m : option (spec_float * spec_float)) (x : Dispatch) (d : Driver) : Prop := holds m d /\ sent_last x d.

Lemma stable_holds m : stable env (holds m).
Proof. split; [split|]; intros; done. Qed.
Lemma calm_holds m : calm env (holds m).
Proof. apply stable_holds. Qed.
Lemma stable_sent x : stable env (sent_last x).
Proof. split; [split|]; intros d; intros; try done. unfold sent_last. cbn [log dr_trace]. by rewrite dispatches_log. Qed.
Lemma stable_after m x : stable env (after m x).
Proof. apply stable_and; [apply stable_holds|apply stable_sent]. Qed.
Lemma calm_after m x : calm env (after m x).
Proof. apply stable_after. Qed.
Lemma calm_of_model r : calm env (of_model r).
Proof.
  split; intros d; intros; (destruct r as [origin output|]; [|done]); intros Ho;
    match goal with H : of_model _ _ |- _ => destruct (H Ho) as (x & Hx & Ha & Hu) end; exists x; (split; [|by split]); [done|].
  by apply (ca_log _ _ (st_calm _ _ (stable_sent x))).
Qed.
Hint Resolve calm_holds calm_after calm_of_model stable_after stable_holds : core.
Lemma hold_last {A} m X (o : io Driver A) : keep (holds m) X o -> hoare (holds m) o (fun _ => holds m) (ended_with m).
Proof. intros H. by apply (keep_last _ X). Qed.
(** With a fact that does not depend on the state. *)
Lemma hold_pure {A} P (K : Prop) (o : io Driver A) Q E : (K -> hoare P o Q E) -> hoare (fun d => P d /\ K) o Q E.
Proof. intros H d [Hd HK]. by apply H. Qed.

(** *** Results that are not answers *)
Definition tame (r : AgentResult Output) : Prop := match r with Success origin _ => origin <> "model" | Failure _ => True end.
Definition tame_step (step : Step (Output := Output)) : Prop := match step with Leave (Some r) => tame r | _ => True end.
Lemma fail_tame code : results tame (fail env code).
Proof. apply results_bind. intros _. by apply results_ret. Qed.
Lemma failing_tame code : results tame_step (failing env code).
Proof. eapply results_bind_with; [apply fail_tame|]. intros r Hr. by apply results_ret. Qed.
Lemma unavailable_tame : results tame_step (unavailable (Output := Output)).
Proof. by apply results_ret. Qed.
Lemma observation_tame rest : results tame_step rest -> results tame_step (after_observation env cf rest).
Proof. intros H. apply results_bind. intros []; [exact H|apply failing_tame]. Qed.
Hint Resolve failing_tame unavailable_tame : core.
Lemma error_tame error reservation per_tier probe : results tame_step (on_error env cf inv error reservation per_tier probe).
Proof.
  do 2 (apply results_bind; intros _). apply observation_tame. cbv zeta. apply results_bind. intros _. destruct (negb _); [done|].
  apply results_bind. intros b. destruct (negb b); [done|]. do 4 (apply results_bind; intros ?).
  match goal with |- context [match ?x with Terminal _ => _ | Retry _ => _ end] => destruct x end; [|done].
  apply results_bind. intros _. apply results_bind. intros []; [done|]. apply results_bind. intros _. by apply results_ret.
Qed.
Definition accepted_is (response : option (ModelResponse Output)) (a : Step + decimal * ModelResponse Output) : Prop :=
  match a with inl step => tame_step step | inr (_, r) => response = Some r end.
Lemma usage_tame response reservation band probe : results (accepted_is response) (accept_usage env cf inv response reservation band probe).
Proof.
  eapply (results_bind_with (fun r => response = Some r)); [by apply results_lift; intros r; destruct response; intros [= <-]|].
  intros r ->. do 7 (apply results_bind; intros ?). destruct (dec_ltb _ _); [|by apply results_ret].
  apply results_bind. intros _. eapply results_bind_with; [apply failing_tame|]. intros step Hs. by apply results_ret.
Qed.
Lemma rejected_tame response e probe : results (accepted_is response) (rejected_usage env cf inv e probe).
Proof.
  apply (results_bind_with tame_step); [|intros step Hs; by apply results_ret]. destruct (is_value_error e); [|done].
  apply observation_tame, results_bind. by intros _.
Qed.
Lemma host_tame origin output : origin <> "model" -> results tame (host_success env cf origin output).
Proof. intros Ho. apply results_bind. intros []; by apply results_ret. Qed.
Lemma local_tame : results (fun r => match r with Some r => tame r | None => True end) (local_knowledge env cf).
Proof.
  do 2 (apply results_bind; intros ?). match goal with |- context [match ?x with NoAnswer => _ | _ => _ end] => destruct x as [| |[] [output|]] end;
    try by apply results_ret.
  apply results_bind. intros _. eapply results_bind_with; [by apply host_tame|]. intros r Hr. by apply results_ret.
Qed.
Lemma abstain_tame : results tame (abstain env cf).
Proof. apply results_bind. intros _. by apply host_tame. Qed.
Lemma tame_of_model r d : tame r -> of_model r d.
Proof. destruct r; [|done]. intros H Ho. by destruct H. Qed.
Lemma tame_said step d : tame_step step -> said step d.
Proof. destruct step as [|[r|]]; simpl; auto using tame_of_model. Qed.
(** Such a step keeps the memory. *)
Lemma tame_last m P (o : io Driver (Step (Output := Output))) : (forall d, P d -> holds m d) -> keep P in_time o -> results tame_step o ->
  hoare P o (fun step d => holds m d /\ said step d) (ended_with m).
Proof.
  intros HP Ho Ht. eapply hoare_conseq; [apply hoare_results; [exact Ho|exact Ht]|done| |].
  - intros step d [Hd Hs]. split; [by apply HP|by apply tame_said].
  - intros e d [Hd _]. by apply HP.
Qed.

(** *** The attempt *)
Lemma live_means m : hoare (holds m) (memory_live env) (fun b d => holds m d /\ (b = true -> is_Some m)) (ended_with m).
Proof.
  intros d [<- Hu]. unfold memory_live, mbind, io_bind, read, clock, ask. destruct (dr_memory d) as [w|] eqn:E; simpl; unfold holds; simpl;
    rewrite E; (split; [by split|]); [by eexists|done].
Qed.
Lemma compose_means m probe : hoare (holds m) (compose_request env inv probe) (fun b d => holds m d /\ (b = true -> is_Some m)) (ended_with m).
Proof.
  eapply (hoare_try _ _ _ _ _ (ended_with m)).
  - apply (keep_then (holds m) in_time); [apply keep_when; by apply keep_emit_t|done|]. intros _.
    eapply hoare_bind; [apply live_means|]. intros b. apply hold_pure. intros Hb.
    apply (keep_then (holds m) in_time); [by apply keep_emit_t|done|]. by intros _ d Hd.
  - intros e d Hd. unfold when_. destruct (_ && probe).
    + pose proof (keep_record_breaker env inv (holds m) (calm_holds m) (stable_holds m) false d Hd) as H. unfold mbind, io_bind.
      destruct (record_breaker _ _ _ d) as [d' [|]]; [exact H|apply H].
    + exact Hd.
Qed.
(** An answer is what the provider said to the last request, which carried the memory if it was injected. *)
Definition dispatched m (o : DispatchOutcome (Output := Output)) (d : Driver) : Prop :=
  match o with
  | Answered_ (Responds response) i _ => exists n x, after m x d /\ en_invoke env n x = Responds response /\ i = dp_memory x /\ (i = true -> is_Some m)
  | _ => holds m d
  end.
Lemma dispatch_means m reservation decision probe injected : (injected = true -> is_Some m) ->
  hoare (holds m) (dispatch_or_error env inv reservation decision probe injected) (dispatched m) (ended_with m).
Proof.
  intros Hi. eapply (hoare_try _ _ _ _ _ (ended_with m)); [|by intros e d Hd].
  apply (keep_then (holds m) in_time); [by apply keep_memory_live|done|]. intros still.
  apply (keep_then (holds m) in_time); [by apply keep_clock|done|]. intros now. destruct (SFleb _ _).
  - apply (keep_then (holds m) in_time); [apply keep_when; by apply keep_record_circuit|done|]. by intros _ d Hd.
  - apply (hoare_modify_then _ (holds m)); [done|]. apply hoare_read_then. intros sent.
    apply (hoare_modify_then _ (fun d => after m sent d /\ dp_memory sent = injected && still)).
    { intros d [Hd <-]. split; [|done]. split; [done|]. by eexists. }
    intros d [Hd Hs]. unfold ask, mbind, io_bind. cbn [dispatched mret io_ret]. pose proof (ca_tick _ _ (calm_after m sent) d Hd) as Ht.
    destruct (en_invoke env (dr_tick d) sent) as [response|e] eqn:E; [|apply Ht]. exists (dr_tick d), sent.
    split; [exact Ht|]. split; [exact E|]. split; [done|]. intros [H _]%andb_true_iff. by apply Hi.
Qed.
Section Answer.
  Context (m : option (spec_float * spec_float)) (x : Dispatch) (Hi : dp_memory x = true -> is_Some m).
Lemma keep_last_answer (o : io Driver (Step (Output := Output))) : keep (after m x) in_time o -> results tame_step o ->
  hoare (after m x) o (fun step d => holds m d /\ said step d) (ended_with m).
Proof. apply tame_last. by intros d []. Qed.
Lemma output_means output : (forall o, output = Some o -> answers o x) ->
  hoare (after m x) (on_output env inv output (dp_memory x)) (fun step d => holds m d /\ said step d) (ended_with m).
Proof.
  assert (HE : forall e d, after m x d -> in_time e -> ended_with m e d) by by intros e d [].
  intros Ha. destruct output as [output|]; [|by apply keep_last_answer; [apply keep_failing|apply failing_tame]].
  apply (keep_then (after m x) in_time); [by apply keep_clock|exact HE|]. intros now. destruct (SFleb _ _); [by intros d [Hd _]|].
  apply (keep_then (after m x) in_time); [by apply keep_memory_expired|exact HE|]. intros e1.
  assert (Hd : hoare (after m x) (result ← discard_expired env; mret (Leave (Some result))) (fun step d => holds m d /\ said step d) (ended_with m)).
  { apply keep_last_answer; [apply keep_bind; [by apply keep_discard|]; intros; apply keep_ret|].
    apply (results_bind_with tame); [apply results_bind; intros _; apply fail_tame|]. intros r Hr. by apply results_ret. }
  destruct (_ && _); [exact Hd|]. apply (keep_then (after m x) in_time); [by apply keep_emit_t|exact HE|]. intros _.
  apply (keep_then (after m x) in_time); [by apply keep_memory_expired|exact HE|]. intros e2. destruct (_ && _); [exact Hd|].
  apply (hoare_modify_then _ (fun d => after m x d /\ dr_used_memory d = dp_memory x)); [by intros d [[Hm _] Hs]|].
  intros d [[Hm Hs] Hu]. split; [exact Hm|]. intros _. exists x. split; [exact Hs|]. split; [by apply Ha|exact Hu].
Qed.
Lemma response_means n response reservation band probe : en_invoke env n x = Responds response ->
  hoare (after m x) (on_response env cf inv response reservation band probe (dp_memory x)) (fun step d => holds m d /\ said step d) (ended_with m).
Proof.
  assert (HE : forall e d, after m x d -> in_time e -> ended_with m e d) by by intros e d [].
  intros Hr. apply (keep_then (after m x) in_time); [by apply keep_clock|exact HE|]. intros _.
  eapply (hoare_bind _ _ _ (fun a d => after m x d /\ accepted_is response a)).
  { eapply hoare_conseq; [apply hoare_results; [|apply results_try; [apply usage_tame|intros e; apply (rejected_tame response)]]|done|intros ?? H; exact H|].
    - eapply keep_try; [by apply keep_accept_usage|]; intros e _; by apply keep_rejected_usage.
    - by intros e d [[Hd _] _]. }
  intros [step|[cost r]]; apply hold_pure; [intros Ht d [Hd _]; split; [exact Hd|by apply tame_said]|]. cbn [accepted_is]. intros ->.
  apply (keep_then (after m x) in_time); [by apply keep_ask|exact HE|].
  intros []; (apply (keep_then (after m x) in_time); [by apply keep_record_circuit|exact HE|]; intros _).
  - by apply keep_last_answer; [apply keep_failing|apply failing_tame].
  - apply (hoare_modify_then _ (after m x)); [done|]. apply output_means. intros o Ho. by exists n, r.
Qed.
End Answer.
Lemma attempt_means m reservation per_tier :
  hoare (holds m) (attempt env cf inv reservation per_tier) (fun step d => holds m d /\ said step d) (ended_with m).
Proof.
  pose proof (stable_holds m) as HS. assert (HE : forall e d, holds m d -> in_time e -> ended_with m e d) by done.
  assert (Hlast : forall o : io Driver (Step (Output := Output)), keep (holds m) in_time o -> results tame_step o ->
    hoare (holds m) o (fun step d => holds m d /\ said step d) (ended_with m)) by (intros o; by apply tame_last).
  unfold attempt. apply (keep_then _ in_time); [by apply keep_ask|exact HE|]. intros []; [by apply Hlast; [apply keep_failing|apply failing_tame]|].
  apply (keep_then _ in_time); [by apply keep_can_call|exact HE|]. intros b. destruct (negb b).
  { apply Hlast; [apply keep_bind; [by apply keep_emit_t|]; intros _; apply keep_ret|]. apply results_bind. by intros _. }
  apply (keep_then _ in_time); [by apply keep_clock|exact HE|]. intros now.
  apply (keep_then _ in_time); [by apply (keep_acquire env)|exact HE|]. intros decision.
  assert (Hrest : forall probe, hoare (holds m)
    (injected ← compose_request env inv probe;
     callable ← can_call env inv reservation;
     if negb callable then _ ← when_ probe (record_circuit env inv false probe); unavailable
     else outcome ← dispatch_or_error env inv reservation decision probe injected;
          match outcome with
          | TooLate => unavailable
          | Answered_ (Errs error) _ _ => on_error env cf inv error reservation (per_tier + 1) probe
          | Answered_ (Responds response) injected band => on_response env cf inv response reservation band probe injected
          end) (fun step d => holds m d /\ said step d) (ended_with m)).
  { intros probe. eapply hoare_bind; [apply compose_means|]. intros injected. apply hold_pure. intros Hi.
    apply (keep_then _ in_time); [by apply keep_can_call|exact HE|]. intros callable. destruct (negb callable).
    - apply (keep_then _ in_time); [apply keep_when; by apply keep_record_circuit|exact HE|]. by intros _ d Hd.
    - eapply hoare_bind; [by apply dispatch_means|]. intros [|[response|error] injected' band]; cbn [dispatched]; [by intros d Hd| |].
      + intros d (n & x & Hd & Hr & -> & Hx). by apply (response_means m x Hx n response reservation band probe Hr).
      + apply Hlast; [by apply keep_on_error|apply error_tame]. }
  destruct decision; [apply Hrest..|]. apply Hlast; [apply keep_bind; [by apply keep_emit_t|]; intros _; apply keep_ret|]. apply results_bind. by intros _.
Qed.
Definition found (r : option (AgentResult Output)) (d : Driver) : Prop := match r with Some r => of_model r d | None => True end.
Lemma attempts_mean m reservation fuel : forall per_tier,
  hoare (holds m) (attempts env cf inv fuel reservation per_tier) (fun r d => holds m d /\ found r d) (ended_with m).
Proof.
  induction fuel as [|fuel IH]; intros per_tier; [by intros d Hd|]. cbn [attempts].
  eapply hoare_bind; [apply attempt_means|]. intros [|r]; [by intros d [Hd _]; apply IH|]. intros d [Hd Hs]. split; [exact Hd|]. by destruct r.
Qed.
Lemma model_means m : hoare (holds m) (model env cf inv) (fun r d => holds m d /\ found r d) (ended_with m).
Proof.
  intros d Hd. unfold model, mbind, io_bind, read. destruct (negb _); [by split|]. destruct (cost_of_tier _ _); [|by split].
  by apply attempts_mean.
Qed.
Lemma fallback_means m fuel :
  hoare (holds m) (models_and_fallback env cf inv fuel) (fun r d => holds m d /\ of_model r d) (ended_with m).
Proof.
  assert (HE : forall e d, holds m d -> in_time e -> ended_with m e d) by done.
  assert (Hlast : forall o : io Driver (AgentResult Output), keep (holds m) in_time o -> results tame o ->
    hoare (holds m) o (fun r d => holds m d /\ of_model r d) (ended_with m)).
  { intros o Ho Ht. eapply hoare_conseq; [apply hoare_results; [exact Ho|exact Ht]|done| |by intros e d []].
    intros r d [Hd Hr]. split; [exact Hd|by apply tame_of_model]. }
  induction fuel as [|fuel IH]; [by intros d Hd|]. cbn [models_and_fallback].
  apply (keep_then _ in_time); [by apply keep_ask|exact HE|]. intros []; [by apply Hlast; [apply keep_fail|apply fail_tame]|].
  eapply hoare_bind; [apply model_means|]. intros [r|]; [by intros d Hd|].
  apply hoare_read_then. intros tier. cbv beta iota.
  eapply hoare_conseq with (P := holds m); [|by intros d [[? _] _]|intros ?? H; exact H|intros ?? H; exact H].
  assert (Habstain : hoare (holds m) (abstain env cf) (fun r d => holds m d /\ of_model r d) (ended_with m)).
  { apply Hlast; [by apply keep_abstain|apply abstain_tame]. }
  destruct (next (cf_fallback cf) (Some tier)) as [lower| |]; [| |exact Habstain].
  - destruct (_ <=? _); [by apply Hlast; [apply keep_fail|apply fail_tame]|]. apply (hoare_modify_then _ (holds m)); [done|].
    apply (keep_then _ in_time); [by apply keep_emit_t|exact HE|]. intros _. exact IH.
  - eapply (hoare_bind _ _ _ (fun r d => holds m d /\ match r with Some r => tame r | None => True end)).
    + assert (Hl : keep (holds m) in_time (local_knowledge env cf)) by by apply keep_local.
      eapply hoare_conseq; [apply hoare_results; [exact Hl|apply local_tame]|done|intros ?? H; exact H|by intros e d []].
    + intros [r|]; apply hold_pure; [|by intros _]. intros Hr d Hd. split; [exact Hd|by apply tame_of_model].
Qed.

(** *** The check at the end of every way out *)
(** The summary was valid when the clock was last read, and nothing was asked since. *)
Definition just_live (m : option (spec_float * spec_float)) (d : Driver) : Prop :=
  exists w, m = Some w /\ exists n, dr_tick d = S n /\ live w (en_clock env n) = true.
Definition delivered m (r : AgentResult Output) (d : Driver) : Prop :=
  match r with Success _ _ => of_model r d /\ (dr_used_memory d = true -> just_live m d) | Failure _ => True end.
Section Deliver.
  Context (m : option (spec_float * spec_float)) (result : AgentResult Output).
Definition kept (d : Driver) : Prop := holds m d /\ of_model result d.
Lemma calm_kept : calm env kept.
Proof.
  destruct (calm_holds m) as [H1 H2], (calm_of_model result) as [H3 H4].
  split; [intros d []; split; auto|intros d e [] He; split; auto].
Qed.
Hint Resolve calm_kept : core.
Definition delivering (o : io Driver (AgentResult Output)) : Prop := hoare kept o (delivered m) (fun _ _ => True).
Definition checking (o : io Driver (AgentResult Output)) : Prop :=
  hoare (fun d => kept d /\ (dr_used_memory d = true -> just_live m d)) o (delivered m) (fun _ _ => True).
Lemma then_delivers {A} (o : io Driver A) f : keep kept in_time o -> (forall a, delivering (f a)) -> delivering (o ≫= f).
Proof. intros Ho Hf. by apply (keep_then kept in_time). Qed.
Lemma failing_delivers code : delivering (fail env code).
Proof. apply then_delivers; [by apply keep_emit_t|]. by intros _ d Hd. Qed.
Lemma discard_delivers : delivering (discard_expired env).
Proof. apply then_delivers; [by apply keep_emit_t|]. intros _. apply failing_delivers. Qed.
Lemma unless_expired_delivers rest : checking rest -> delivering (unless_expired env rest).
Proof.
  intros Hr d Hd. unfold unless_expired, mbind at 1, io_bind at 1, read. destruct (dr_used_memory d) eqn:Eu; cbn [negb].
  - destruct Hd as [[Hm Hs] Ho]. destruct (Hs Eu) as [w Hw]. unfold memory_expired, read, mbind, io_bind. rewrite (eq_trans Hm Hw). unfold clock, ask.
    assert (Ht : kept (tick env d)) by (apply calm_kept; split; [by split|exact Ho]).
    destruct (live w _) eqn:El; cbn [negb].
    + apply (Hr (tick env d)). split; [exact Ht|]. intros _. exists w. split; [exact Hw|]. by exists (dr_tick d).
    + exact (discard_delivers _ Ht).
  - apply Hr. split; [exact Hd|]. by rewrite Eu.
Qed.
Lemma weaker (o : io Driver (AgentResult Output)) : delivering o -> checking o.
Proof. intros H d [Hd _]. by apply H. Qed.
Lemma deliver_delivers : delivering (deliver env result).
Proof.
  unfold deliver. intros d Hd. unfold mbind at 1, io_bind at 1, read. destruct (dr_used_memory d) eqn:Eu.
  - apply (then_delivers _ _ (keep_emit_t env _ calm_kept _)); [|exact Hd]. intros _. apply unless_expired_delivers, weaker.
    apply then_delivers; [by apply keep_emit_t|]. intros _. apply unless_expired_delivers. intros d' [[_ Ho] Hl]. by destruct result.
  - assert (H : hoare (fun d => kept d /\ dr_used_memory d = false) (_ ← emit env "task_completed"; mret result) (delivered m) (fun _ _ => True)).
    { apply (keep_then _ in_time); [apply keep_emit_t; destruct calm_kept; split; intros; naive_solver|done|].
      intros _ d' [[_ Ho] E]. destruct result; simpl; [|done]. split; [exact Ho|]. by rewrite E. }
    by apply H.
Qed.
Lemma reflect_delivers : delivering (reflect env cf result).
Proof.
  pose proof deliver_delivers as Hd. unfold reflect. destruct (cf_reflection_required cf); [|by apply unless_expired_delivers, weaker].
  apply then_delivers; [by apply keep_emit_t|]. intros _. apply unless_expired_delivers, weaker. destruct (cf_hook cf); [|by apply unless_expired_delivers, weaker].
  apply then_delivers; [by apply keep_ask|]. intros []; [|apply failing_delivers]. by do 2 apply unless_expired_delivers, weaker.
Qed.
End Deliver.
(** The run's memory is the argument's, admitted. *)
Definition from_argument (memory : option Memory) (m : option (spec_float * spec_float)) : Prop :=
  forall w, m = Some w -> exists s, memory = Some s /\ admissible s /\ w = window s.
Definition granted memory (r : AgentResult Output) (d : Driver) : Prop := exists m, from_argument memory m /\ delivered m r d.
Lemma admit_means s : hoare (holds None) (admit_memory env s) (fun _ d => exists m, holds m d /\ from_argument (Some s) m) (fun _ _ => True).
Proof.
  intros d [Hd Hu]. unfold admit_memory. destruct (me_valid s) eqn:Ev; cbn [negb]; [|by exists None].
  unfold clock, ask, mbind, io_bind, modify. cbv zeta. eexists. split; [split; [reflexivity|]|].
  - cbn. intros H. by destruct (Hu H).
  - intros w. destruct (_ && _) eqn:E; [|done]. intros [= <-]. to_prop. exists s. split; [done|]. split; [|done].
    split; [exact Ev|done|done|lia].
Qed.
Lemma execute_delivers memory desired b : hoare (eq (new_run inv b)) (execute env cf inv memory desired) (granted memory) (fun _ _ => True).
Proof.
  assert (Hf : forall m code, from_argument memory m -> hoare (holds m) (fail (Output := Output) env code) (granted memory) (fun _ _ => True)).
  { intros m code Hm. eapply hoare_conseq; [apply (failing_delivers m (Failure ""))|by intros d Hd|intros r d Hr; by exists m|done]. }
  assert (Hnone : from_argument memory None) by by intros w.
  eapply (hoare_try _ _ _ _ _ (fun _ _ => True)); [|intros e d _; destruct (is_audit_failure e); [by exists None|done]].
  eapply hoare_conseq with (P := holds None) (Q := granted memory) (E := fun _ _ => True); [|by intros d <-|intros ?? H; exact H|done].
  unfold body. apply (keep_then (holds None) in_time); [by apply keep_emit_t|done|]. intros _.
  apply (keep_then (holds None) in_time); [by apply keep_ask|done|]. intros []; [by apply Hf|].
  apply (hoare_bind _ _ _ (fun _ d => exists m, holds m d /\ from_argument memory m)).
  { destruct memory as [s|]; [apply admit_means|]. intros d Hd. by exists None. }
  intros admitted d (m & Hd & Hm). revert d Hd. destruct (negb admitted); [by apply Hf|]. destruct desired as [desired|]; [|by apply Hf].
  apply (hoare_modify_then _ (holds m)); [done|]. do 3 (apply (keep_then (holds m) in_time); [by apply keep_emit_t|done|]; intros _).
  eapply hoare_bind; [eapply hoare_conseq; [apply (fallback_means m)|done|intros ?? H; exact H|done]|].
  intros [origin output|code]; [|intros d [Hd _]; by exists m].
  eapply hoare_conseq; [apply (reflect_delivers m)|done|intros r d Hr; by exists m|done].
Qed.
End Memories.

(** ** The properties *)
Lemma dispatches_nth inv top l k x : dispatches_ok inv top l -> rev l !! k = Some x -> dispatch_ok inv top (Z.of_nat k + 1) x.
Proof.
  induction l as [|y l IH]; [done|]. intros [Hy Hl]. cbn [rev]. intros Hk. destruct (decide (k < length (rev l))%nat) as [Hlt|Hge].
  - rewrite lookup_app_l in Hk by done. by apply IH.
  - rewrite lookup_app_r in Hk by lia. rewrite length_rev in *. destruct (k - length l)%nat eqn:E; [|done]. injection Hk as <-.
    cbn [length] in Hy. replace (Z.of_nat k + 1) with (Z.of_nat (S (length l))) by lia. exact Hy.
Qed.
(** C22. Whatever the provider, the clock, the observers, the random source and the other users
    of the breaker do, the requests a run dispatches are numbered consecutively from the
    invocation's attempt and never past its maximum, each is sent before the deadline, after
    the breaker let it through, to a tier no higher than the task's and the allowed one, and
    with its reservation what the run has spent is within the invocation's limit. *)
Theorem dispatches_are_admitted {Output} (env : Environment Output) cf inv memory desired b d r k x :
  validate_invocation inv = Ok inv -> truthy (in_task_kind inv) = true ->
  execute env cf inv memory (Some desired) (new_run inv b) = (d, r) -> rev (dispatches (dr_trace d)) !! k = Some x ->
  dp_attempt x = in_attempt inv + Z.of_nat k + 1 /\ dp_attempt x <= in_max_attempts inv /\
  SFleb (in_deadline_epoch inv) (dp_at x) = false /\ dp_decision x <> D_reject /\
  tier_index (dp_tier x) <= Z.min (tier_index desired) (tier_index (in_allowed_model_tier inv)) /\
  dec_ltb (in_cost_limit_usd inv) (dp_spent x) = false.
Proof.
  intros Hv Hk Hrun Hx. destruct (execute_spec env cf inv (routed_tier inv desired) Hk memory (Some desired) b d r Hv ltac:(simpl; lia) Hrun) as [[Hok _] _].
  destruct (dispatches_nth _ _ _ _ _ Hok Hx) as [[H1 H2] H3 H4 H5 H6]. split; [lia|]. split; [done|]. split; [done|]. split; [done|]. split; [|done].
  unfold routed_tier in H6. destruct (Z.ltb_spec (tier_index (in_allowed_model_tier inv)) (tier_index desired)); lia.
Qed.
(** C29. A run ends: the loop of its model calls and the loop of its fallbacks never take more
    turns than the attempts left and the tiers below, for every environment and for an
    invocation that is not known too, and it dispatches at most the attempts it has left. *)
Theorem execute_terminates {Output} (env : Environment Output) cf inv memory desired b d r :
  validate_invocation inv = Ok inv -> truthy (in_task_kind inv) = true ->
  execute env cf inv memory desired (new_run inv b) = (d, r) ->
  r <> Raise OutOfFuel /\ Z.of_nat (length (dispatches (dr_trace d))) <= in_max_attempts inv - in_attempt inv.
Proof.
  intros Hv Hk Hrun.
  destruct (execute_spec env cf inv (from_option (routed_tier inv) SOL_TIER desired) Hk memory desired b d r Hv) as [[_ H1] H2]; [|exact Hrun|].
  - destruct desired; simpl; [lia|done].
  - split; [exact H2|lia].
Qed.
(** C27. A driver that is alone on its breaker and whose usage observer does not raise leaves no
    probe unsettled: however the run ends, by a result, an audit failure or an exception of
    its random source, every probe it let through has been told of. *)
Theorem probes_are_settled {Output} (env : Environment Output) cf inv memory desired b d r :
  truthy (in_task_kind inv) = true -> (forall n, en_others env n = []) -> (forall n, en_observe env n = None) -> settled b ->
  execute env cf inv memory desired (new_run inv b) = (d, r) -> settled (dr_breaker d).
Proof.
  intros Hk Halone Hobs Hb Hrun. pose proof (execute_settles env cf inv Hk Halone Hobs memory desired (new_run inv b) Hb) as H. rewrite Hrun in H.
  by destruct r.
Qed.
(** C28. A model answer is the provider's to the last request the run sent. When that request carried
    the memory, the memory is the argument's: a valid summary, confident enough, uncontradicted and within
    the size bound; and the last thing the run asked before it returned is the clock, at a time when the
    summary was issued, had not expired and had not passed its maximal age, whatever the observers, the
    verification hook and the other drivers do in between. *)
Theorem memory_is_live_on_delivery {Output} (env : Environment Output) cf inv memory desired b d output :
  truthy (in_task_kind inv) = true ->
  execute env cf inv memory desired (new_run inv b) = (d, Ok (Success "model" output)) ->
  exists sent rest, dispatches (dr_trace d) = sent :: rest /\
    (exists n response, en_invoke env n sent = Responds (Some response) /\ mr_output response = Some output) /\
    (dp_memory sent = true ->
     exists s n, memory = Some s /\ me_valid s = true /\ SFleb (float_quotient 6 10) (me_confidence s) = true /\
       me_contradicted s = false /\ 0 < me_context_bytes s <= 8192 /\ dr_tick d = S n /\
       SFleb (me_issued_at s) (en_clock env n) = true /\ SFltb (en_clock env n) (me_expires_at s) = true /\
       SFleb (float_sub (float_add (me_issued_at s) (float_int 86400)) (float_int (me_freshness_seconds s))) (en_clock env n) = false).
Proof.
  intros Hk Hrun. pose proof (execute_delivers env cf inv Hk memory desired b _ eq_refl) as H. rewrite Hrun in H.
  destruct H as (m & Hm & Ha & Hl). destruct (Ha eq_refl) as (x & [rest Hx] & Hans & Hu). exists x, rest. split; [exact Hx|].
  split; [exact Hans|]. intros Hmem. rewrite Hmem in Hu. destruct (Hl Hu) as (w & Hw & n & Hn & Hlive).
  destruct (Hm w Hw) as (s & Hs & [Hv Hc Hd Hb] & ->). exists s, n. destruct (live_current s _ Hlive) as (H1 & H2 & H3).
  exact (conj Hs (conj Hv (conj Hc (conj Hd (conj Hb (conj Hn (conj H1 (conj H2 H3)))))))).
Qed.

Module DriverExample.
Definition invocation : AgentInvocation :=
  {| in_task_kind := "analysis"; in_allowed_model_tier := SOL_TIER; in_deadline_epoch := float_int 1000;
     in_attempt_timeout_seconds := float_int 60; in_attempt := 0; in_max_attempts := 3; in_cost_limit_usd := cents 20 |}.
Definition config : Config :=
  {| cf_retry := {| rp_base_delay := float_quotient 25 100; rp_max_delay := float_int 4; rp_max_attempts := 3; rp_retry_cost := float_0 |};
     cf_fallback := {| fp_tiers := [SOL_TIER; TERRA_TIER; LUNA_TIER]; fp_knowledge_base := true |};
     cf_costs := [(SOL_TIER, cents 10); (TERRA_TIER, cents 5); (LUNA_TIER, cents 1)]; cf_task_tiers := TASK_TIERS;
     cf_reflection_required := true; cf_hook := true; cf_observer := true |}.
Definition timeout_error : ProviderError := {| pe_status_code := None; pe_code := None; pe_retry_after := None; pe_network := true |}.
Definition answer : ModelResponse string :=
  {| mr_usage := Some {| au_model_tier := TERRA_TIER;
       au_tokens := {| us_input_tokens := 1000; us_cached_input_tokens := 0; us_cache_write_tokens := 0; us_output_tokens := 200; us_web_search_tool_calls := 0 |} |};
     mr_output := Some "up" |}.
(** The provider times out once, then answers. *)
Definition host (observe : nat -> option exn) : Environment string :=
  {| en_clock := fun n => float_int (Z.of_nat n); en_cancelled := fun _ => false; en_audit := fun _ => true; en_observe := observe;
     en_invoke := fun _ x => if dp_attempt x =? 1 then Errs timeout_error else Responds (Some answer);
     en_random := fun _ ceiling => ceiling; en_hook := fun _ => true; en_others := fun _ => []; en_prompt := fun _ => true;
     en_band := fun _ _ => SHORT; en_tool_price := fun _ => None; en_local := fun _ => NoAnswer; en_unknown := "unknown" |}.
Definition good : Environment string := host (fun _ => None).
Definition memory : Memory :=
  {| me_valid := true; me_issued_at := float_0; me_expires_at := float_int 500; me_freshness_seconds := 60;
     me_confidence := float_quotient 9 10; me_contradicted := false; me_context_bytes := 400 |}.
Definition breaker : CircuitBreaker * list entry := ({| cb_failure_threshold := 3; cb_cooldown := float_int 30; cb_states := ∅ |}, []).
Definition run := execute good config invocation (Some memory) (Some TERRA_TIER) (new_run invocation breaker).
Lemma run_pair : execute good config invocation (Some memory) (Some TERRA_TIER) (new_run invocation breaker) = (run.1, run.2).
Proof. unfold run. apply surjective_pairing. Qed.
Example run_is_routed : desired_tier config invocation true = Some TERRA_TIER.
Proof. reflexivity. Qed.
Example run_answers : run.2 = Ok (Success "model" "up").
Proof. vm_compute. reflexivity. Qed.
Definition second : Dispatch :=
  default {| dp_tier := SOL_TIER; dp_attempt := 0; dp_spent := ZERO; dp_at := float_0; dp_deadline := float_0; dp_decision := D_reject; dp_memory := false |}
    (rev (dispatches (dr_trace run.1)) !! 1%nat).
Lemma dispatches_are_admitted_witness : dp_attempt second = 2 /\ dp_memory second = true /\ dp_decision second <> D_reject.
Proof.
  assert (H : rev (dispatches (dr_trace run.1)) !! 1%nat = Some second) by (vm_compute; reflexivity).
  pose proof (dispatches_are_admitted good config invocation (Some memory) TERRA_TIER breaker run.1 run.2 1 second eq_refl eq_refl
    run_pair H) as (_ & _ & _ & Hd & _).
  split; [vm_compute; reflexivity|]. split; [vm_compute; reflexivity|exact Hd].
Defined.
Lemma execute_terminates_witness : run.2 <> Raise OutOfFuel /\ Z.of_nat (length (dispatches (dr_trace run.1))) <= 3.
Proof.
  exact (execute_terminates good config invocation (Some memory) (Some TERRA_TIER) breaker run.1 run.2 eq_refl eq_refl run_pair).
Defined.
(** The answered request carried the memory, so that its age is known at the end. *)
Lemma memory_is_live_on_delivery_witness :
  exists sent rest n, dispatches (dr_trace run.1) = sent :: rest /\ dp_memory sent = true /\ dr_tick run.1 = S n /\
    SFltb (en_clock good n) (float_int 500) = true.
Proof.
  destruct (memory_is_live_on_delivery good config invocation (Some memory) (Some TERRA_TIER) breaker run.1 "up" eq_refl) as (sent & rest & Hs & _ & Hm).
  { rewrite run_pair, run_answers. reflexivity. }
  assert (Hu : dp_memory sent = true).
  { assert (H : dp_memory <$> head (dispatches (dr_trace run.1)) = Some true) by (vm_compute; reflexivity). rewrite Hs in H. by injection H. }
  destruct (Hm Hu) as (s & n & [= <-] & _ & _ & _ & _ & Hn & _ & He & _). exists sent, rest, n. exact (conj Hs (conj Hu (conj Hn He))).
Defined.
(** A circuit that is open and cool: the next call is its probe. *)
Definition cooled : CircuitBreaker * list entry :=
  let key := ("terra", "analysis") in
  run_calls {| cb_failure_threshold := 1; cb_cooldown := float_0; cb_states := ∅ |} [Record_ key false float_0].
Definition probing := execute good config invocation None (Some TERRA_TIER) (new_run invocation cooled).
Lemma probes_are_settled_witness : In (Asked ("terra", "analysis") D_probe) (dr_breaker probing.1).2 /\ settled (dr_breaker probing.1).
Proof.
  split; [vm_compute; tauto|].
  apply (probes_are_settled good config invocation None (Some TERRA_TIER) cooled probing.1 probing.2 eq_refl).
  - reflexivity.
  - reflexivity.
  - intros key. simpl. by case_bool_decide.
  - unfold probing. apply surjective_pairing.
Defined.
(** An observer that raises: the probe is let through, used, and never told of, so that the
    breaker refuses every later call of its circuit, at any time, until the process ends. *)
Definition unobserved := host (fun _ => Some (RuntimeError "usage store unavailable")).
Definition lost := execute unobserved config invocation None (Some TERRA_TIER) (new_run invocation cooled).
Theorem unobserved_probe_locks_the_circuit calls now : Forall (untold ("terra", "analysis")) calls ->
  lost.2 = Ok (Failure "usage_observation_unavailable") /\
  (acquire ("terra", "analysis") now (fold_left (fun s c => run_call c s) calls (dr_breaker lost.1)).1).2 = Ok D_reject.
Proof.
  intros Hc. split; [vm_compute; reflexivity|].
  set (before := [Record_ ("terra", "analysis") false float_0; Acquire ("terra", "analysis") float_0]).
  assert (E : dr_breaker lost.1 = run_calls {| cb_failure_threshold := 1; cb_cooldown := float_0; cb_states := ∅ |} before) by (vm_compute; reflexivity).
  assert (Ho : probe_outstanding ("terra", "analysis") (dr_breaker lost.1).2 = true) by (vm_compute; reflexivity).
  apply (outstanding_is_refused 1 float_0); [|reflexivity|by apply untold_stays_outstanding].
  rewrite E. unfold run_calls. rewrite <- fold_left_app. by apply (run_calls_ok 1 float_0 _ (before ++ calls)).
Qed.
(** A probe that finds the deadline passed records a failure; when the audit observer refuses that
    event, the handler for the provider's exceptions takes it for one that is not retryable and
    records a success: the circuit closes although nothing was sent. *)
Definition late_and_unaudited : Environment string :=
  {| en_clock := fun n => if (n <? 18)%nat then float_int 10 else float_int 2000; en_cancelled := fun _ => false;
     en_audit := fun n => negb (n =? 21)%nat; en_observe := fun _ => None; en_invoke := fun _ _ => Responds (Some answer);
     en_random := fun _ ceiling => ceiling; en_hook := fun _ => true; en_others := fun _ => []; en_prompt := fun _ => true;
     en_band := fun _ _ => SHORT; en_tool_price := fun _ => None; en_local := fun _ => NoAnswer; en_unknown := "unknown" |}.
Theorem audit_failure_closes_the_circuit :
  let '(d, r) := execute late_and_unaudited config invocation None (Some TERRA_TIER) (new_run invocation cooled) in
  r = Ok (Failure "provider_error") /\ dispatches (dr_trace d) = [] /\
  (acquire ("terra", "analysis") (float_int 2001) (dr_breaker d).1).2 = Ok D_allow.
Proof. vm_compute. repeat split. Qed.
End DriverExample.
