(* ===== verification/HedgeModels.v ===== *)
(** * Funding-hedge data: market_agent/symbols.py, funding_fee_avoidance/models.py
    and the constructor of funding_fee_avoidance/config.py

    The records the hedge exchanges, each with the validation its [__post_init__]
    performs: a [validate_*] returns the normalised record or raises. *)
From Stdlib Require Import SpecFloat.
From stdpp Require Import pretty.
From S2P Require Import Prelude PyStrings PyDict PyTime PyDecimal.
Local Open Scope string_scope.
Local Open Scope list_scope.
Local Open Scope Z_scope.

(** ** Execution symbols *)
(** [raw.split(":", 1)] at the first colon, if there is one. *)
Fixpoint split_colon (l : list ascii) : option (list ascii * list ascii) :=
  match l with
  | [] => None
  | c :: l =>
      if Ascii.eqb c ":" then Some ([], l)
      else match split_colon l with Some (a, b) => Some (c :: a, b) | None => None end
  end.
Definition split_execution_symbol (symbol : string) : string * string :=
  let raw := strip symbol in
  match split_colon (list_ascii_of_string raw) with
  | None => ("", upper raw)
  | Some (dex, asset) =>
      (lower (strip (string_of_list_ascii dex)), upper (strip (string_of_list_ascii asset)))
  end.
Definition canonicalize_execution_symbol (symbol : string) : string :=
  let '(dex, asset) := split_execution_symbol symbol in
  if truthy dex then dex +:+ ":" +:+ asset else asset.
(** [_canonical_symbol] *)
Definition canonical_symbol (value : string) : result string :=
  let symbol := canonicalize_execution_symbol value in
  if truthy symbol then Ok symbol else Raise (ValueError "symbol is required").

(** ** Actions and statuses *)
Inductive HedgeAction := HOLD | OPEN_HEDGE | WAIT_FOR_FUNDING | CLOSE_HEDGE | ADJUST_HEDGE | RECOVER.
#[export] Instance HedgeAction_eq_dec : EqDecision HedgeAction.
Proof. solve_decision. Defined.
Inductive HedgeCycleStatus :=
  | ARMED | OPEN_SUBMITTED | OPEN_PARTIAL | HEDGED | AWAITING_FUNDING | CLOSE_SUBMITTED
  | CLOSE_PARTIAL | COMPLETED | ABORTED | RECOVERY_REQUIRED.
#[export] Instance HedgeCycleStatus_eq_dec : EqDecision HedgeCycleStatus.
Proof. solve_decision. Defined.
Definition terminal (s : HedgeCycleStatus) : bool :=
  bool_decide (s ∈ [COMPLETED; ABORTED; RECOVERY_REQUIRED]).

(** ** Snapshots *)
Record AccountPositionSnapshot := {
  ap_account_address : string; ap_symbol : string; ap_size : decimal; ap_margin_used_usd : decimal }.
Definition validate_position (p : AccountPositionSnapshot) : result AccountPositionSnapshot :=
  let address := strip (ap_account_address p) in
  symbol ← canonical_symbol (ap_symbol p);
  _ ← check (truthy address) (ValueError "account_address is required");
  _ ← raise_when (dec_ltb (ap_margin_used_usd p) ZERO) (ValueError "margin_used_usd must be non-negative");
  Ok {| ap_account_address := address; ap_symbol := symbol; ap_size := ap_size p;
        ap_margin_used_usd := ap_margin_used_usd p |}.
Definition side (p : AccountPositionSnapshot) : string :=
  if dec_ltb ZERO (ap_size p) then "long" else if dec_ltb (ap_size p) ZERO then "short" else "flat".

Record FundingObservation := {
  fo_symbol : string; fo_oracle_price : decimal; fo_mark_price : decimal; fo_funding_rate : decimal;
  fo_observed_at : datetime; fo_next_funding_at : datetime; fo_size_decimals : Z;
  fo_market_data_available : bool }.
Definition validate_funding (f : FundingObservation) : result FundingObservation :=
  symbol ← canonical_symbol (fo_symbol f);
  _ ← check (dec_ltb ZERO (fo_oracle_price f)) (ValueError "oracle_price must be positive");
  _ ← check (dec_ltb ZERO (fo_mark_price f)) (ValueError "mark_price must be positive");
  _ ← check (0 <=? fo_size_decimals f) (ValueError "size_decimals must be non-negative");
  _ ← check (aware (fo_observed_at f)) (ValueError "observed_at must include a timezone");
  _ ← check (aware (fo_next_funding_at f)) (ValueError "next_funding_at must include a timezone");
  Ok {| fo_symbol := symbol; fo_oracle_price := fo_oracle_price f; fo_mark_price := fo_mark_price f;
        fo_funding_rate := fo_funding_rate f; fo_observed_at := fo_observed_at f;
        fo_next_funding_at := fo_next_funding_at f; fo_size_decimals := fo_size_decimals f;
        fo_market_data_available := fo_market_data_available f |}.

Record HedgeAccountSnapshot := {
  ha_position : AccountPositionSnapshot; ha_withdrawable_usd : decimal; ha_taker_fee_rate : decimal;
  ha_fee_rate_source : string; ha_hip3_fee_formula_verified : bool; ha_account_kind : string;
  ha_ownership_verified : bool; ha_margin_available_verified : bool; ha_funding_confirmed : bool;
  ha_funding_record_time : option datetime; ha_funding_delta_usd : option decimal;
  ha_open_order_cloids : list string; ha_unknown_open_orders : bool;
  ha_open_order_status : string; ha_close_order_status : string; ha_adjust_order_status : string }.
Definition account_kinds : list string := ["subaccount"; "wallet"].
Definition validate_account (a : HedgeAccountSnapshot) : result HedgeAccountSnapshot :=
  _ ← raise_when (dec_ltb (ha_withdrawable_usd a) ZERO) (ValueError "withdrawable_usd must be non-negative");
  _ ← raise_when (dec_ltb (ha_taker_fee_rate a) ZERO) (ValueError "taker_fee_rate must be non-negative");
  _ ← check (bool_decide (ha_account_kind a ∈ account_kinds))
        (ValueError "account_kind must be subaccount or wallet");
  _ ← check (match ha_funding_record_time a with Some t => aware t | None => true end)
        (ValueError "funding_record_time must include a timezone");
  Ok a.

Record HedgeSnapshot := {
  hs_primary_position : AccountPositionSnapshot; hs_hedge_account : HedgeAccountSnapshot;
  hs_funding : FundingObservation }.
Definition hs_symbol (s : HedgeSnapshot) : string := fo_symbol (hs_funding s).
Definition hedge_position (s : HedgeSnapshot) : AccountPositionSnapshot := ha_position (hs_hedge_account s).
Definition validate_snapshot (s : HedgeSnapshot) : result HedgeSnapshot :=
  _ ← check (bool_decide (ap_symbol (hs_primary_position s) = ap_symbol (hedge_position s)) &&
             bool_decide (ap_symbol (hedge_position s) = hs_symbol s))
        (ValueError "primary, hedge, and funding symbols must match exactly");
  Ok s.

(** ** Cycle state *)
Record HedgeCycleState := {
  cs_cycle_key : string; cs_status : HedgeCycleStatus; cs_symbol : string;
  cs_primary_account_address : string; cs_hedge_account_address : string;
  cs_settlement_at : datetime; cs_target_hedge_size : decimal; cs_open_cloid : string;
  cs_close_cloid : string; cs_created_at : datetime; cs_updated_at : datetime; cs_network : string;
  cs_hedge_account_kind : string; cs_actual_hedge_size : decimal; cs_close_attempt_count : Z;
  cs_adjustment_count : Z; cs_pending_adjust_cloid : string; cs_pre_adjust_hedge_size : decimal;
  cs_open_submitted_at : option datetime; cs_close_submitted_at : option datetime;
  cs_adjust_submitted_at : option datetime; cs_funding_confirmed_at : option datetime;
  cs_funding_delta_usd : option decimal; cs_last_error : string }.
Definition active (c : HedgeCycleState) : bool := negb (terminal (cs_status c)).
Definition networks : list string := ["mainnet"; "testnet"].
Definition aware_or_none (t : option datetime) : bool := match t with Some t => aware t | None => true end.
Definition with_symbol (c : HedgeCycleState) (symbol : string) : HedgeCycleState :=
  {| cs_cycle_key := cs_cycle_key c; cs_status := cs_status c; cs_symbol := symbol;
     cs_primary_account_address := cs_primary_account_address c;
     cs_hedge_account_address := cs_hedge_account_address c; cs_settlement_at := cs_settlement_at c;
     cs_target_hedge_size := cs_target_hedge_size c; cs_open_cloid := cs_open_cloid c;
     cs_close_cloid := cs_close_cloid c; cs_created_at := cs_created_at c; cs_updated_at := cs_updated_at c;
     cs_network := cs_network c; cs_hedge_account_kind := cs_hedge_account_kind c;
     cs_actual_hedge_size := cs_actual_hedge_size c; cs_close_attempt_count := cs_close_attempt_count c;
     cs_adjustment_count := cs_adjustment_count c; cs_pending_adjust_cloid := cs_pending_adjust_cloid c;
     cs_pre_adjust_hedge_size := cs_pre_adjust_hedge_size c; cs_open_submitted_at := cs_open_submitted_at c;
     cs_close_submitted_at := cs_close_submitted_at c; cs_adjust_submitted_at := cs_adjust_submitted_at c;
     cs_funding_confirmed_at := cs_funding_confirmed_at c; cs_funding_delta_usd := cs_funding_delta_usd c;
     cs_last_error := cs_last_error c |}.
(** [HedgeCycleState.__post_init__], which [dataclasses.replace] runs as well. *)
Definition validate_cycle (c : HedgeCycleState) : result HedgeCycleState :=
  symbol ← canonical_symbol (cs_symbol c);
  _ ← check (aware (cs_settlement_at c) && aware (cs_created_at c) && aware (cs_updated_at c))
        (ValueError "datetimes must include a timezone");
  _ ← check (0 <=? cs_close_attempt_count c) (ValueError "close_attempt_count must be non-negative");
  _ ← check (0 <=? cs_adjustment_count c) (ValueError "adjustment_count must be non-negative");
  _ ← check (bool_decide (cs_network c ∈ networks)) (ValueError "cycle network must be mainnet or testnet");
  _ ← check (bool_decide (cs_hedge_account_kind c ∈ account_kinds)) (ValueError "invalid cycle hedge_account_kind");
  _ ← check (aware_or_none (cs_open_submitted_at c) && aware_or_none (cs_close_submitted_at c) &&
             aware_or_none (cs_adjust_submitted_at c)) (ValueError "datetimes must include a timezone");
  Ok (with_symbol c symbol).

(** ** Equality of cycles, as the dataclass compares them *)
Definition datetime_eqb (a b : datetime) : bool :=
  match dt_utcoffset a, dt_utcoffset b with
  | Some _, Some _ => instant a =? instant b
  | None, None => dt_wall a =? dt_wall b
  | _, _ => false
  end.
Definition option_eqb {A} (eqb : A -> A -> bool) (a b : option A) : bool :=
  match a, b with Some a, Some b => eqb a b | None, None => true | _, _ => false end.
Definition cycle_eqb (a b : HedgeCycleState) : bool :=
  String.eqb (cs_cycle_key a) (cs_cycle_key b) && bool_decide (cs_status a = cs_status b) &&
  String.eqb (cs_symbol a) (cs_symbol b) &&
  String.eqb (cs_primary_account_address a) (cs_primary_account_address b) &&
  String.eqb (cs_hedge_account_address a) (cs_hedge_account_address b) &&
  datetime_eqb (cs_settlement_at a) (cs_settlement_at b) &&
  dec_eqb (cs_target_hedge_size a) (cs_target_hedge_size b) &&
  String.eqb (cs_open_cloid a) (cs_open_cloid b) && String.eqb (cs_close_cloid a) (cs_close_cloid b) &&
  datetime_eqb (cs_created_at a) (cs_created_at b) && datetime_eqb (cs_updated_at a) (cs_updated_at b) &&
  String.eqb (cs_network a) (cs_network b) &&
  String.eqb (cs_hedge_account_kind a) (cs_hedge_account_kind b) &&
  dec_eqb (cs_actual_hedge_size a) (cs_actual_hedge_size b) &&
  (cs_close_attempt_count a =? cs_close_attempt_count b) &&
  (cs_adjustment_count a =? cs_adjustment_count b) &&
  String.eqb (cs_pending_adjust_cloid a) (cs_pending_adjust_cloid b) &&
  dec_eqb (cs_pre_adjust_hedge_size a) (cs_pre_adjust_hedge_size b) &&
  option_eqb datetime_eqb (cs_open_submitted_at a) (cs_open_submitted_at b) &&
  option_eqb datetime_eqb (cs_close_submitted_at a) (cs_close_submitted_at b) &&
  option_eqb datetime_eqb (cs_adjust_submitted_at a) (cs_adjust_submitted_at b) &&
  option_eqb datetime_eqb (cs_funding_confirmed_at a) (cs_funding_confirmed_at b) &&
  option_eqb dec_eqb (cs_funding_delta_usd a) (cs_funding_delta_usd b) &&
  String.eqb (cs_last_error a) (cs_last_error b).

(** ** Decisions *)
Record HedgeDecision := {
  hd_snapshot : HedgeSnapshot; hd_action : HedgeAction; hd_reason : string; hd_evaluated_at : datetime;
  hd_seconds_to_funding : decimal; hd_target_hedge_size : decimal; hd_current_hedge_size : decimal;
  hd_order_size_delta : decimal; hd_reduce_only : bool;
  hd_estimated_primary_funding_debit_usd : decimal; hd_estimated_hedge_funding_credit_usd : decimal;
  hd_estimated_round_trip_cost_usd : decimal; hd_estimated_net_saving_usd : decimal;
  hd_estimated_required_margin_usd : decimal; hd_cycle_key : string }.

(** ** StrategyConfig *)
Record StrategyConfig := {
  cf_symbols : list string; cf_network : string; cf_primary_account_address : string;
  cf_hedge_account_address : string; cf_hedge_account_kind : string; cf_hedge_ratio : decimal;
  cf_hedge_open_lead_seconds : Z; cf_latest_open_cutoff_seconds : Z;
  cf_funding_confirmation_timeout_seconds : Z; cf_max_funding_data_age_seconds : Z;
  cf_max_clock_skew_seconds : Z; cf_min_position_notional_usd : decimal;
  cf_min_hedge_notional_usd : decimal; cf_max_hedge_notional_usd : decimal;
  cf_min_expected_saving_usd : decimal; cf_min_available_margin_usd : decimal;
  cf_assumed_hedge_leverage : decimal; cf_hedge_margin_mode : string;
  cf_margin_safety_multiplier : decimal; cf_slippage_rate_per_order : decimal;
  cf_hip3_extra_fee_rate_per_order : decimal; cf_hip3_extra_fee_rate_known : bool;
  cf_risk_buffer_rate : decimal; cf_cost_safety_multiplier : decimal;
  cf_fallback_taker_fee_rate : decimal; cf_max_order_slippage : decimal;
  cf_require_verified_subaccount : bool; cf_execution_enabled : bool;
  cf_ambiguous_order_retry_seconds : Z; cf_open_reconciliation_timeout_seconds : Z;
  cf_http_timeout_seconds : Z; cf_action_expiry_seconds : Z; cf_poll_seconds : Z; cf_state_path : string }.
(** [dict.fromkeys]: the first occurrence of each. *)
Fixpoint fromkeys (seen l : list string) : list string :=
  match l with
  | [] => []
  | x :: l => if bool_decide (x ∈ seen) then fromkeys seen l else x :: fromkeys (x :: seen) l
  end.
Definition canonical_symbols (symbols : list string) : list string :=
  fromkeys [] (filter (fun s => truthy s = true) (map canonicalize_execution_symbol symbols)).
(** [Decimal.to_integral_value()] *)
Definition to_integral_value (d : decimal) : decimal :=
  if 0 <=? d_exp d then d else Dec (d_neg d) (half_even (d_coef d) (- d_exp d)) 0.
Definition margin_modes : list string := ["cross"; "isolated"].
Definition normalize_config (c : StrategyConfig) : StrategyConfig :=
  {| cf_symbols := canonical_symbols (cf_symbols c);
     cf_network := lower (strip (cf_network c));
     cf_primary_account_address := strip (cf_primary_account_address c);
     cf_hedge_account_address := strip (cf_hedge_account_address c);
     cf_hedge_account_kind := lower (strip (cf_hedge_account_kind c));
     cf_hedge_ratio := cf_hedge_ratio c;
     cf_hedge_open_lead_seconds := cf_hedge_open_lead_seconds c;
     cf_latest_open_cutoff_seconds := cf_latest_open_cutoff_seconds c;
     cf_funding_confirmation_timeout_seconds := cf_funding_confirmation_timeout_seconds c;
     cf_max_funding_data_age_seconds := cf_max_funding_data_age_seconds c;
     cf_max_clock_skew_seconds := cf_max_clock_skew_seconds c;
     cf_min_position_notional_usd := cf_min_position_notional_usd c;
     cf_min_hedge_notional_usd := cf_min_hedge_notional_usd c;
     cf_max_hedge_notional_usd := cf_max_hedge_notional_usd c;
     cf_min_expected_saving_usd := cf_min_expected_saving_usd c;
     cf_min_available_margin_usd := cf_min_available_margin_usd c;
     cf_assumed_hedge_leverage := cf_assumed_hedge_leverage c;
     cf_hedge_margin_mode := lower (strip (cf_hedge_margin_mode c));
     cf_margin_safety_multiplier := cf_margin_safety_multiplier c;
     cf_slippage_rate_per_order := cf_slippage_rate_per_order c;
     cf_hip3_extra_fee_rate_per_order := cf_hip3_extra_fee_rate_per_order c;
     cf_hip3_extra_fee_rate_known := cf_hip3_extra_fee_rate_known c;
     cf_risk_buffer_rate := cf_risk_buffer_rate c;
     cf_cost_safety_multiplier := cf_cost_safety_multiplier c;
     cf_fallback_taker_fee_rate := cf_fallback_taker_fee_rate c;
     cf_max_order_slippage := cf_max_order_slippage c;
     cf_require_verified_subaccount := cf_require_verified_subaccount c;
     cf_execution_enabled := cf_execution_enabled c;
     cf_ambiguous_order_retry_seconds := cf_ambiguous_order_retry_seconds c;
     cf_open_reconciliation_timeout_seconds := cf_open_reconciliation_timeout_seconds c;
     cf_http_timeout_seconds := cf_http_timeout_seconds c;
     cf_action_expiry_seconds := cf_action_expiry_seconds c;
     cf_poll_seconds := cf_poll_seconds c; cf_state_path := cf_state_path c |}.
Definition non_negative (named : string * decimal) : result unit :=
  raise_when (dec_ltb named.2 ZERO) (ValueError (named.1 +:+ " must be non-negative")).
Definition positive_seconds (named : string * Z) : result unit :=
  raise_when (named.2 <=? 0) (ValueError (named.1 +:+ " must be positive")).
Fixpoint for_each {A} (f : A -> result unit) (l : list A) : result unit :=
  match l with [] => Ok tt | x :: l => _ ← f x; for_each f l end.
(** [StrategyConfig.__post_init__] *)
Definition validate_config (raw : StrategyConfig) : result StrategyConfig :=
  let c := normalize_config raw in
  _ ← check (bool_decide (cf_network c ∈ networks)) (ValueError "network must be mainnet or testnet");
  _ ← check (bool_decide (cf_hedge_account_kind c ∈ account_kinds))
        (ValueError "hedge_account_kind must be subaccount or wallet");
  _ ← check (bool_decide (cf_hedge_margin_mode c ∈ margin_modes))
        (ValueError "hedge_margin_mode must be cross or isolated");
  _ ← check (dec_ltb ZERO (cf_hedge_ratio c) && dec_leb (cf_hedge_ratio c) ONE)
        (ValueError "hedge_ratio must be greater than 0 and at most 1");
  _ ← positive_seconds ("hedge_open_lead_seconds", cf_hedge_open_lead_seconds c);
  _ ← raise_when (cf_latest_open_cutoff_seconds c <? 0)
        (ValueError "latest_open_cutoff_seconds must be non-negative");
  _ ← raise_when (cf_hedge_open_lead_seconds c <=? cf_latest_open_cutoff_seconds c)
        (ValueError "latest_open_cutoff_seconds must be less than hedge_open_lead_seconds");
  _ ← positive_seconds ("funding_confirmation_timeout_seconds", cf_funding_confirmation_timeout_seconds c);
  _ ← positive_seconds ("max_funding_data_age_seconds", cf_max_funding_data_age_seconds c);
  _ ← raise_when (cf_max_clock_skew_seconds c <? 0) (ValueError "max_clock_skew_seconds must be non-negative");
  _ ← positive_seconds ("poll_seconds", cf_poll_seconds c);
  _ ← for_each non_negative
        [("min_position_notional_usd", cf_min_position_notional_usd c);
         ("min_hedge_notional_usd", cf_min_hedge_notional_usd c);
         ("max_hedge_notional_usd", cf_max_hedge_notional_usd c);
         ("min_expected_saving_usd", cf_min_expected_saving_usd c);
         ("min_available_margin_usd", cf_min_available_margin_usd c);
         ("slippage_rate_per_order", cf_slippage_rate_per_order c);
         ("hip3_extra_fee_rate_per_order", cf_hip3_extra_fee_rate_per_order c);
         ("risk_buffer_rate", cf_risk_buffer_rate c);
         ("fallback_taker_fee_rate", cf_fallback_taker_fee_rate c);
         ("max_order_slippage", cf_max_order_slippage c)];
  _ ← raise_when (dec_leb (cf_assumed_hedge_leverage c) ZERO)
        (ValueError "assumed_hedge_leverage must be positive");
  _ ← check (dec_eqb (cf_assumed_hedge_leverage c) (to_integral_value (cf_assumed_hedge_leverage c)))
        (ValueError "assumed_hedge_leverage must be an integer");
  _ ← raise_when (dec_ltb (cf_margin_safety_multiplier c) ONE)
        (ValueError "margin_safety_multiplier must be at least 1");
  _ ← raise_when (dec_ltb (cf_cost_safety_multiplier c) ONE)
        (ValueError "cost_safety_multiplier must be at least 1");
  _ ← for_each positive_seconds
        [("ambiguous_order_retry_seconds", cf_ambiguous_order_retry_seconds c);
         ("open_reconciliation_timeout_seconds", cf_open_reconciliation_timeout_seconds c);
         ("http_timeout_seconds", cf_http_timeout_seconds c);
         ("action_expiry_seconds", cf_action_expiry_seconds c)];
  _ ← raise_when (cf_action_expiry_seconds c <=? cf_http_timeout_seconds c)
        (ValueError "action_expiry_seconds must exceed http_timeout_seconds");
  _ ← if cf_execution_enabled c then
        _ ← check (truthy (cf_primary_account_address c)) (ValueError "HL_ACCOUNT_ADDRESS is required for execution");
        _ ← check (truthy (cf_hedge_account_address c))
              (ValueError "FUNDING_HEDGE_ACCOUNT_ADDRESS is required for execution");
        raise_when (String.eqb (lower (cf_primary_account_address c)) (lower (cf_hedge_account_address c)))
          (ValueError "primary and hedge account addresses must differ")
      else Ok tt;
  Ok c.

(** Inversion of a validated configuration, for the fields the policy relies on. *)
Lemma validate_config_Ok raw c :
  validate_config raw = Ok c ->
  c = normalize_config raw /\
  dec_ltb ZERO (cf_hedge_ratio c) = true /\ dec_leb (cf_hedge_ratio c) ONE = true /\
  0 <= cf_latest_open_cutoff_seconds c < cf_hedge_open_lead_seconds c /\
  0 < cf_funding_confirmation_timeout_seconds c /\
  dec_ltb ZERO (cf_assumed_hedge_leverage c) = true /\ dec_leb ONE (cf_margin_safety_multiplier c) = true /\
  0 < cf_ambiguous_order_retry_seconds c /\ 0 < cf_open_reconciliation_timeout_seconds c /\
  0 < cf_http_timeout_seconds c < cf_action_expiry_seconds c /\
  (cf_execution_enabled c = true ->
     lower (cf_primary_account_address c) <> lower (cf_hedge_account_address c)).
Proof.
  intros H. unfold validate_config in H. cbv zeta in H. cbn [for_each] in H. unfold positive_seconds, non_negative in H.
  inv_ok H. inv_checks. subst c. split; [done|].
  repeat match goal with H : mbind _ _ = Ok _ |- _ => inv_ok H end.
  inv_checks. cbn [fst snd] in *. to_prop.
  split_and!; try done; try lia; try (by apply dec_leb_not_ltb); try (by apply dec_ltb_not_leb).
  intros E. rewrite E in *.
  repeat match goal with H : mbind _ _ = Ok _ |- _ => inv_ok H end. inv_checks.
  by match goal with H : String.eqb _ _ = false |- _ => apply String.eqb_neq in H end.
Qed.
