(* ===== verification/HedgeStore.v ===== *)
(** * The cycle file: funding_fee_avoidance/models.py and state_store.py

    How a cycle becomes JSON and is read back: the texts of its decimals and times,
    the [to_dict] and [from_mapping] of [HedgeCycleState], and the file the
    transaction reads and replaces.  The file is the JSON value its text parses to,
    with sorted keys.  The offset of the local time zone, read by [astimezone] on a
    naive time, and the shortest decimal of a float are parameters. *)
From Stdlib Require Import QArith.
From stdpp Require Import pretty.
From S2P Require Import Prelude PyStrings PyDict PyTime PyIso PyDecimal PyDecimalText PyJson HedgeModels.
Local Open Scope string_scope.
Local Open Scope list_scope.
Local Open Scope Z_scope.

(** ** Builtins on JSON values *)
(** [text.replace(old, new)], [old] not empty. *)
Fixpoint replace_list (old new : list ascii) (skip : nat) (l : list ascii) : list ascii :=
  match l, skip with
  | [], _ => []
  | _ :: l, S skip => replace_list old new skip l
  | c :: l, O =>
      if bool_decide (old `prefix_of` c :: l) then new ++ replace_list old new (length old - 1) l
      else c :: replace_list old new 0 l
  end.
(** [int(text)]: underscores only between digits. *)
Fixpoint underscored (after_digit : bool) (l : list ascii) : bool :=
  match l with
  | [] => after_digit
  | c :: l => if is_digit c then underscored true l else Ascii.eqb c "_" && after_digit && underscored false l
  end.
Definition MAX_INT_DIGITS : nat := 4300.
Definition int_of_text (text : string) : option Z :=
  let '(neg, l) := split_sign (list_ascii_of_string (strip text)) in
  let ds := List.filter (fun c => negb (Ascii.eqb c "_")) l in
  _ ← guard_ (underscored false l && (length ds <=? MAX_INT_DIGITS)%nat);
  n ← int_digits ds;
  Some (if neg then - n else n).
Definition py_int (j : Json) : result Z :=
  match j with
  | JInt n => Ok n
  | JBool b => Ok (if b then 1 else 0)
  | JFloat q => Ok (Z.quot (Qnum q) (Zpos (Qden q)))
  | JStr s => from_option Ok (Raise (ValueError "invalid literal for int() with base 10")) (int_of_text s)
  | JNull | JList _ | JObject _ => Raise (TypeError "int() argument must be a string or a real number")
  end.
(** The value a text written with [sort_keys=True] parses to. *)
Fixpoint sort_keys (j : Json) : Json :=
  match j with
  | JList l => JList (map sort_keys l)
  | JObject fields => JObject (sorted_items (map (fun kv => (kv.1, sort_keys kv.2)) fields))
  | j => j
  end.

(** ** Statuses as texts *)
Definition cycle_status_text (s : HedgeCycleStatus) : string :=
  match s with
  | ARMED => "armed" | OPEN_SUBMITTED => "open_submitted" | OPEN_PARTIAL => "open_partial" | HEDGED => "hedged"
  | AWAITING_FUNDING => "awaiting_funding" | CLOSE_SUBMITTED => "close_submitted" | CLOSE_PARTIAL => "close_partial"
  | COMPLETED => "completed" | ABORTED => "aborted" | RECOVERY_REQUIRED => "recovery_required"
  end.
Definition CYCLE_STATUSES : list HedgeCycleStatus :=
  [ARMED; OPEN_SUBMITTED; OPEN_PARTIAL; HEDGED; AWAITING_FUNDING; CLOSE_SUBMITTED; CLOSE_PARTIAL; COMPLETED; ABORTED;
   RECOVERY_REQUIRED].
(** [HedgeCycleStatus(text)] *)
Definition status_of_text (text : string) : result HedgeCycleStatus :=
  from_option Ok (Raise (ValueError "not a valid HedgeCycleStatus"))
    (List.find (fun s => String.eqb (cycle_status_text s) text) CYCLE_STATUSES).
Lemma status_round_trip s : status_of_text (cycle_status_text s) = Ok s.
Proof. by destruct s. Qed.

Section Conversions.
  Variable float_repr : Q -> string.
  Variable local : Z -> Z.   (** the instant of a naive local reading *)

(** ** Decimals and times *)
Definition parse_decimal (value : Json) (field_name : string) : result decimal :=
  match decimal_of (py_str float_repr value) with
  | None => Raise (ValueError (field_name +:+ " must be a decimal number"))
  | Some NonFinite => Raise (ValueError (field_name +:+ " must be finite"))
  | Some (Finite d) => Ok d
  end.
(** [value.astimezone(UTC)] *)
Definition astimezone_utc (value : datetime) : result datetime :=
  let us := if aware value then instant value else local (dt_wall value) in
  if in_range us then Ok (utc us) else Raise (Exn "OverflowError" "date value out of range").
Definition ends_with_Z (l : list ascii) : bool := match last l with Some c => Ascii.eqb c "Z" | None => false end.
(** [parse_utc_datetime] of a parsed JSON value. *)
Definition parse_utc_datetime (value : option Json) (field_name : string) : result datetime :=
  let raw := list_ascii_of_string (strip (py_str float_repr (or_json value (JStr "")))) in
  let raw := if ends_with_Z raw then take (length raw - 1) raw ++ UTC_OFFSET else raw in
  match fromisoformat_list raw with
  | None => Raise (ValueError (field_name +:+ " must be an ISO-8601 datetime"))
  | Some parsed =>
      if aware parsed then astimezone_utc parsed else Raise (ValueError (field_name +:+ " must include a timezone"))
  end.
Definition utc_text (value : datetime) : result string :=
  d ← astimezone_utc value;
  Ok (string_of_list_ascii (replace_list UTC_OFFSET ["Z"%char] 0 (list_ascii_of_string (isoformat (dt_wall d))))).
Definition utc_text_or_null (value : option datetime) : result Json :=
  match value with None => Ok JNull | Some t => JStr <$> utc_text t end.

(** ** [HedgeCycleState.to_dict] *)
Definition cycle_to_dict (c : HedgeCycleState) : result Json :=
  settlement_at ← utc_text (cs_settlement_at c);
  open_submitted_at ← utc_text_or_null (cs_open_submitted_at c);
  close_submitted_at ← utc_text_or_null (cs_close_submitted_at c);
  adjust_submitted_at ← utc_text_or_null (cs_adjust_submitted_at c);
  created_at ← utc_text (cs_created_at c);
  updated_at ← utc_text (cs_updated_at c);
  funding_confirmed_at ← utc_text_or_null (cs_funding_confirmed_at c);
  Ok (JObject
    [("schema_version", JInt 1);
     ("cycle_key", JStr (cs_cycle_key c));
     ("status", JStr (cycle_status_text (cs_status c)));
     ("symbol", JStr (cs_symbol c));
     ("primary_account_address", JStr (cs_primary_account_address c));
     ("hedge_account_address", JStr (cs_hedge_account_address c));
     ("network", JStr (cs_network c));
     ("hedge_account_kind", JStr (cs_hedge_account_kind c));
     ("settlement_at", JStr settlement_at);
     ("target_hedge_size", JStr (decimal_text (cs_target_hedge_size c)));
     ("actual_hedge_size", JStr (decimal_text (cs_actual_hedge_size c)));
     ("close_attempt_count", JInt (cs_close_attempt_count c));
     ("adjustment_count", JInt (cs_adjustment_count c));
     ("pending_adjust_cloid", JStr (cs_pending_adjust_cloid c));
     ("pre_adjust_hedge_size", JStr (decimal_text (cs_pre_adjust_hedge_size c)));
     ("open_submitted_at", open_submitted_at);
     ("close_submitted_at", close_submitted_at);
     ("adjust_submitted_at", adjust_submitted_at);
     ("open_cloid", JStr (cs_open_cloid c));
     ("close_cloid", JStr (cs_close_cloid c));
     ("created_at", JStr created_at);
     ("updated_at", JStr updated_at);
     ("funding_confirmed_at", funding_confirmed_at);
     ("funding_delta_usd", match cs_funding_delta_usd c with Some d => JStr (decimal_text d) | None => JNull end);
     ("last_error", JStr (cs_last_error c))]).

(** ** [HedgeCycleState.from_mapping] *)
Definition get (payload : list (string * Json)) (key : string) : option Json := dict_get payload key.
(** [str(payload.get(key, other) or other)] *)
Definition text_field (payload : list (string * Json)) (key other : string) : string :=
  py_str float_repr (or_json (get payload key) (JStr other)).
Definition decimal_field (payload : list (string * Json)) (key : string) : result decimal :=
  parse_decimal (default (JStr "0") (get payload key)) key.
Definition int_field (payload : list (string * Json)) (key : string) : result Z :=
  py_int (default (JInt 0) (get payload key)).
(** [parse_utc_datetime(v, key) if v else None] *)
Definition time_field (payload : list (string * Json)) (key : string) : result (option datetime) :=
  match get payload key with
  | Some j => if truthy_json j then Some <$> parse_utc_datetime (Some j) key else Ok None
  | None => Ok None
  end.
Definition from_mapping (payload : list (string * Json)) : result HedgeCycleState :=
  version ← int_field payload "schema_version";
  _ ← check (version =? 1) (ValueError "unsupported hedge-cycle schema version");
  status ← status_of_text (py_str float_repr (default (JStr "") (get payload "status")));
  settlement_at ← parse_utc_datetime (get payload "settlement_at") "settlement_at";
  target ← decimal_field payload "target_hedge_size";
  actual ← decimal_field payload "actual_hedge_size";
  close_attempt_count ← int_field payload "close_attempt_count";
  adjustment_count ← int_field payload "adjustment_count";
  pre_adjust ← decimal_field payload "pre_adjust_hedge_size";
  created_at ← parse_utc_datetime (get payload "created_at") "created_at";
  updated_at ← parse_utc_datetime (get payload "updated_at") "updated_at";
  open_submitted_at ← time_field payload "open_submitted_at";
  close_submitted_at ← time_field payload "close_submitted_at";
  adjust_submitted_at ← time_field payload "adjust_submitted_at";
  funding_confirmed_at ← time_field payload "funding_confirmed_at";
  delta ← match get payload "funding_delta_usd" with
          | None | Some JNull => Ok None
          | Some j => Some <$> parse_decimal j "funding_delta_usd"
          end;
  validate_cycle
    {| cs_cycle_key := text_field payload "cycle_key" ""; cs_status := status;
       cs_symbol := text_field payload "symbol" "";
       cs_primary_account_address := text_field payload "primary_account_address" "";
       cs_hedge_account_address := text_field payload "hedge_account_address" "";
       cs_settlement_at := settlement_at; cs_target_hedge_size := target;
       cs_open_cloid := text_field payload "open_cloid" ""; cs_close_cloid := text_field payload "close_cloid" "";
       cs_created_at := created_at; cs_updated_at := updated_at; cs_network := text_field payload "network" "mainnet";
       cs_hedge_account_kind := text_field payload "hedge_account_kind" "subaccount";
       cs_actual_hedge_size := actual; cs_close_attempt_count := close_attempt_count;
       cs_adjustment_count := adjustment_count;
       cs_pending_adjust_cloid := text_field payload "pending_adjust_cloid" "";
       cs_pre_adjust_hedge_size := pre_adjust; cs_open_submitted_at := open_submitted_at;
       cs_close_submitted_at := close_submitted_at; cs_adjust_submitted_at := adjust_submitted_at;
       cs_funding_confirmed_at := funding_confirmed_at; cs_funding_delta_usd := delta;
       cs_last_error := text_field payload "last_error" "" |}.

(** ** The file *)
(** The loop of [_read_unlocked] over the cycles of the file. *)
Fixpoint read_cycles (items : list (string * Json)) (acc : gmap string HedgeCycleState)
    : result (gmap string HedgeCycleState) :=
  match items with
  | [] => Ok acc
  | (symbol, raw_cycle) :: items =>
      match raw_cycle with
      | JObject fields =>
          cycle ← from_mapping fields;
          _ ← check (String.eqb (cs_symbol cycle) symbol) (ValueError ("hedge cycle key mismatch for " +:+ symbol));
          read_cycles items (<[symbol := cycle]> acc)
      | _ => Raise (ValueError ("invalid hedge cycle for " +:+ symbol))
      end
  end.
(** [_read_unlocked] of the file, which need not exist. *)
Definition read_unlocked (file : option Json) : result (gmap string HedgeCycleState) :=
  match file with
  | None => Ok ∅
  | Some (JObject payload) =>
      version ← int_field payload "schema_version";
      _ ← check (version =? 1) (ValueError "unsupported hedge-state schema version");
      match default (JObject []) (get payload "cycles") with
      | JObject raw_cycles => read_cycles raw_cycles ∅
      | _ => Raise (ValueError "hedge state cycles must be an object")
      end
  | Some _ => Raise (ValueError "hedge state must be a JSON object")
  end.
Definition to_dict_item (kv : string * HedgeCycleState) : result (string * Json) :=
  j ← cycle_to_dict kv.2; Ok (kv.1, j).
(** The value [_write_unlocked] writes, over whatever the file was. *)
Definition write_unlocked (cycles : gmap string HedgeCycleState) : result Json :=
  items ← mapM to_dict_item (sorted_items (map_to_list cycles));
  Ok (sort_keys (JObject [("schema_version", JInt 1); ("cycles", JObject items)])).

(** ** Times through their text *)
(** The part of [isoformat] before the offset. *)
Definition iso_body (us : Z) : list ascii := take (length (iso_list us) - 6) (iso_list us).
Definition iso_char (c : ascii) : bool := plain_char c || Ascii.eqb c ":" || Ascii.eqb c "T".
Lemma iso_digits k n : forallb iso_char (digits k n) = true.
Proof.
  pose proof (plain_digits _ (digits_are_digits k n)) as H. rewrite forallb_forall in H |- *. intros c Hc.
  unfold iso_char. by rewrite H.
Qed.
Lemma iso_list_body us : iso_list us = iso_body us ++ UTC_OFFSET /\ forallb iso_char (iso_body us) = true.
Proof.
  unfold iso_body, iso_list. destruct (fields_of us) as [[[[[[y m] d] h] mi] s] u]. cbn [iso_fields].
  set (body := digits 4 y ++ "-"%char :: digits 2 m ++ "-"%char :: digits 2 d ++ "T"%char ::
                 digits 2 h ++ ":"%char :: digits 2 mi ++ ":"%char :: digits 2 s ++ fraction u).
  match goal with |- ?l = _ /\ _ => assert (E : l = body ++ UTC_OFFSET) end.
  { unfold body. repeat (rewrite <- ?app_assoc; cbn [app]; f_equal). }
  assert (Hb : forallb iso_char body = true).
  { unfold body, fraction. rewrite !forallb_app. cbn [forallb]. rewrite !forallb_app. cbn [forallb].
    rewrite !forallb_app. cbn [forallb]. rewrite !forallb_app. cbn [forallb]. rewrite !forallb_app. cbn [forallb].
    rewrite !forallb_app, !iso_digits. destruct (u =? 0); cbn [forallb]; rewrite ?iso_digits; reflexivity. }
  rewrite E, length_app. replace (length body + length UTC_OFFSET - 6)%nat with (length body) by (cbn; lia).
  by rewrite take_app_length.
Qed.
Lemma iso_char_kept c : iso_char c = true -> py_space c = false /\ Ascii.eqb c "+" = false /\ Ascii.eqb c "Z" = false.
Proof. destruct c as [[] [] [] [] [] [] [] []]; done. Qed.
Lemma replace_offset body : forallb iso_char body = true ->
  replace_list UTC_OFFSET ["Z"%char] 0 (body ++ UTC_OFFSET) = body ++ ["Z"%char].
Proof.
  induction body as [|c body IH]; intros Hb; [reflexivity|]. cbn [forallb] in Hb. to_prop. cbn [app replace_list].
  case_bool_decide as Hp; [|by rewrite IH]. exfalso. destruct Hp as [k Hk]. injection Hk as Hc _. subst c. done.
Qed.
Lemma utc_text_eq value d : astimezone_utc value = Ok d ->
  utc_text value = Ok (string_of_list_ascii (iso_body (dt_wall d) ++ ["Z"%char])).
Proof.
  intros Hd. unfold utc_text. rewrite Hd. cbn [mbind result_bind]. unfold isoformat.
  rewrite list_ascii_of_string_of_list_ascii. destruct (iso_list_body (dt_wall d)) as [-> Hb].
  by rewrite replace_offset.
Qed.
(** The text of a time is read as the time, in UTC. *)
Lemma utc_text_round_trip value t field_name : utc_text value = Ok t ->
  exists d, astimezone_utc value = Ok d /\ truthy t = true /\ parse_utc_datetime (Some (JStr t)) field_name = Ok d.
Proof.
  intros Ht. destruct (astimezone_utc value) as [d|e] eqn:Ed; [|unfold utc_text in Ht; by rewrite Ed in Ht].
  exists d. split; [done|]. rewrite (utc_text_eq _ _ Ed) in Ht. injection Ht as <-.
  destruct (iso_list_body (dt_wall d)) as [Hi Hb].
  assert (Htr : truthy (string_of_list_ascii (iso_body (dt_wall d) ++ ["Z"%char])) = true).
  { by destruct (iso_body (dt_wall d)). }
  split; [done|]. unfold parse_utc_datetime, or_json. cbn [truthy_json]. rewrite Htr. cbn [py_str]. unfold strip, strip_with.
  rewrite !list_ascii_of_string_of_list_ascii, strip_list_clean.
  - unfold ends_with_Z. rewrite last_snoc. change (Ascii.eqb "Z" "Z") with true. cbv iota.
    rewrite length_app. replace (length (iso_body (dt_wall d)) + length ["Z"%char] - 1)%nat with (length (iso_body (dt_wall d))) by (cbn; lia).
    rewrite take_app_length, <- Hi.
    unfold astimezone_utc in Ed. destruct (in_range _) eqn:Er; [|done]. injection Ed as <-.
    pose proof (fromisoformat_iso _ Er) as Hp. unfold fromisoformat, isoformat in Hp.
    rewrite list_ascii_of_string_of_list_ascii in Hp. simpl (dt_wall (utc _)). rewrite Hp. cbn [aware utc dt_utcoffset].
    unfold astimezone_utc. cbn [aware utc dt_utcoffset]. change (aware (utc ?x)) with true. cbv iota.
    rewrite instant_utc, Er. done.
  - rewrite forallb_app. apply andb_true_iff. split; [|done]. rewrite forallb_forall in Hb |- *. intros c Hc.
    by destruct (iso_char_kept c (Hb c Hc)) as [-> _].
Qed.

(** ** Cycles through the file *)
(** What a cycle is after it was written and read: its times in UTC, its decimals
    without a positive exponent. *)
Definition stored_time (t : datetime) : datetime := utc (if aware t then instant t else local (dt_wall t)).
Definition stored_cycle (c : HedgeCycleState) : HedgeCycleState :=
  {| cs_cycle_key := cs_cycle_key c; cs_status := cs_status c; cs_symbol := cs_symbol c;
     cs_primary_account_address := cs_primary_account_address c;
     cs_hedge_account_address := cs_hedge_account_address c; cs_settlement_at := stored_time (cs_settlement_at c);
     cs_target_hedge_size := fixed (cs_target_hedge_size c); cs_open_cloid := cs_open_cloid c;
     cs_close_cloid := cs_close_cloid c; cs_created_at := stored_time (cs_created_at c);
     cs_updated_at := stored_time (cs_updated_at c); cs_network := cs_network c;
     cs_hedge_account_kind := cs_hedge_account_kind c; cs_actual_hedge_size := fixed (cs_actual_hedge_size c);
     cs_close_attempt_count := cs_close_attempt_count c; cs_adjustment_count := cs_adjustment_count c;
     cs_pending_adjust_cloid := cs_pending_adjust_cloid c;
     cs_pre_adjust_hedge_size := fixed (cs_pre_adjust_hedge_size c);
     cs_open_submitted_at := stored_time <$> cs_open_submitted_at c;
     cs_close_submitted_at := stored_time <$> cs_close_submitted_at c;
     cs_adjust_submitted_at := stored_time <$> cs_adjust_submitted_at c;
     cs_funding_confirmed_at := stored_time <$> cs_funding_confirmed_at c;
     cs_funding_delta_usd := fixed <$> cs_funding_delta_usd c; cs_last_error := cs_last_error c |}.
Definition decimal_ok (d : decimal) : bool := (0 <=? d_coef d) && holdable d.
Definition decimals_ok (c : HedgeCycleState) : bool :=
  decimal_ok (cs_target_hedge_size c) && decimal_ok (cs_actual_hedge_size c) && decimal_ok (cs_pre_adjust_hedge_size c) &&
  match cs_funding_delta_usd c with Some d => decimal_ok d | None => true end.

Lemma utc_text_back value t field_name : utc_text value = Ok t ->
  truthy t = true /\ parse_utc_datetime (Some (JStr t)) field_name = Ok (stored_time value).
Proof.
  intros Ht. destruct (utc_text_round_trip value t field_name Ht) as (d & Hd & Htr & Hp). split; [done|]. rewrite Hp. f_equal.
  unfold astimezone_utc in Hd. destruct (in_range _); [|done]. by injection Hd as <-.
Qed.
Lemma time_field_back value j fields key : utc_text_or_null value = Ok j -> get fields key = Some j ->
  time_field fields key = Ok (stored_time <$> value).
Proof.
  unfold time_field. intros Hj ->. destruct value as [value|]; cbn in Hj; [|by injection Hj as <-].
  apply fmap_Ok in Hj as (t & Ht & ->). destruct (utc_text_back _ _ key Ht) as [Htr Hp]. cbn [truthy_json]. rewrite Htr, Hp. done.
Qed.
Lemma decimal_back d field_name : decimal_ok d = true -> parse_decimal (JStr (decimal_text d)) field_name = Ok (fixed d).
Proof.
  intros [Hc Hd]%andb_true_iff. to_prop. unfold parse_decimal. cbn [py_str]. by rewrite decimal_text_round_trip.
Qed.
Lemma decimal_field_back d fields key : decimal_ok d = true -> get fields key = Some (JStr (decimal_text d)) ->
  decimal_field fields key = Ok (fixed d).
Proof. unfold decimal_field. intros Hd ->. by apply decimal_back. Qed.
Lemma text_field_back s fields key other : get fields key = Some (JStr s) -> s <> "" \/ other = "" ->
  text_field fields key other = s.
Proof.
  unfold text_field, or_json. intros -> Hs. cbn [truthy_json]. unfold truthy.
  destruct (String.eqb_spec s "") as [->|]; cbn; [by destruct Hs|done].
Qed.
(** Only the values of the keys matter. *)
Lemma from_mapping_ext fields fields' : (forall key, get fields key = get fields' key) -> from_mapping fields = from_mapping fields'.
Proof. intros H. unfold from_mapping, text_field, decimal_field, int_field, time_field. by rewrite !H. Qed.
(** The cycles a constructor call can give: validated, their symbol a canonical form. *)
Definition constructed (c : HedgeCycleState) : Prop := exists c0, validate_cycle c0 = Ok c.
(** Constructing a constructed cycle again, as it is stored, only canonicalizes its
    symbol again. *)
Lemma stored_valid c : constructed c ->
  validate_cycle (stored_cycle c) = with_symbol (stored_cycle c) <$> canonical_symbol (cs_symbol c).
Proof.
  assert (Ho : forall t, aware_or_none (stored_time <$> t) = true) by (by intros []).
  intros [c0 Hv]. unfold validate_cycle in *.
  cbn [stored_cycle cs_symbol cs_network cs_hedge_account_kind cs_close_attempt_count cs_adjustment_count
    cs_settlement_at cs_created_at cs_updated_at cs_open_submitted_at cs_close_submitted_at cs_adjust_submitted_at].
  rewrite !Ho. cbn [stored_time utc aware dt_utcoffset andb check mbind result_bind].
  inv_ok Hv. subst c. inv_checks. cbn [with_symbol cs_symbol cs_close_attempt_count cs_adjustment_count cs_network cs_hedge_account_kind].
  destruct (canonical_symbol a) as [symbol|]; [|done]. cbn [mbind result_bind fmap result_fmap].
  to_prop. rewrite (proj2 (Z.leb_le _ _) Hok1), (proj2 (Z.leb_le _ _) Hok2).
  by rewrite (bool_decide_eq_true_2 _ Hok3), (bool_decide_eq_true_2 _ Hok4).
Qed.

Lemma utc_text_or_null_keys t j : utc_text_or_null t = Ok j -> sort_keys j = j.
Proof. destruct t as [t|]; cbn; [intros (x & _ & ->)%fmap_Ok|intros [= <-]]; done. Qed.
Lemma time_required_back value t fields key : utc_text value = Ok t -> get fields key = Some (JStr t) ->
  parse_utc_datetime (get fields key) key = Ok (stored_time value).
Proof. intros Ht ->. by destruct (utc_text_back value t key Ht). Qed.
Lemma int_field_back n fields key : get fields key = Some (JInt n) -> int_field fields key = Ok n.
Proof. unfold int_field. by intros ->. Qed.
Lemma delta_back delta fields :
  get fields "funding_delta_usd" = Some (match delta with Some d => JStr (decimal_text d) | None => JNull end) ->
  match delta with Some d => decimal_ok d | None => true end = true ->
  match get fields "funding_delta_usd" with
  | None | Some JNull => Ok None
  | Some j => Some <$> parse_decimal j "funding_delta_usd"
  end = Ok (fixed <$> delta).
Proof. intros -> Hd. destruct delta; [|done]. by rewrite decimal_back. Qed.
Lemma valid_names c : constructed c -> cs_network c <> "" /\ cs_hedge_account_kind c <> "".
Proof.
  intros [c0 Hv]. unfold validate_cycle in Hv. inv_ok Hv. inv_checks. to_prop. subst c. cbn.
  split; intros E; rewrite E in *; set_solver.
Qed.
Lemma cycle_round_trip c j : constructed c -> decimals_ok c = true -> cycle_to_dict c = Ok j ->
  exists fields, j = JObject fields /\ NoDup fields.*1 /\ Forall (fun kv => sort_keys kv.2 = kv.2) fields /\
    from_mapping fields = with_symbol (stored_cycle c) <$> canonical_symbol (cs_symbol c).
Proof.
  intros Hv Hd Hj. unfold cycle_to_dict in Hj. inv_ok Hj. subst j.
  match goal with |- exists fields, JObject ?l = _ /\ _ => set (fields := l) end.
  exists fields. split; [done|]. split; [|split].
  - apply (bool_decide_unpack _). vm_compute. exact I.
  - repeat first [apply Forall_nil; exact I|apply Forall_cons; split; [first [by eapply utc_text_or_null_keys|done|by destruct (cs_funding_delta_usd c)]|]].
  - unfold decimals_ok in Hd. to_prop. unfold from_mapping.
    destruct (valid_names c Hv) as [Hn Hk].
    rewrite (int_field_back 1 fields "schema_version") by done. cbn [mbind result_bind]. change (check (1 =? 1) _) with (Ok tt).
    change (get fields "status") with (Some (JStr (cycle_status_text (cs_status c)))).
    change (py_str _ _) with (cycle_status_text (cs_status c)). rewrite status_round_trip. cbn [mbind result_bind].
    rewrite (time_required_back _ _ fields "settlement_at" Hok eq_refl). cbn [mbind result_bind].
    rewrite (decimal_field_back (cs_target_hedge_size c) fields "target_hedge_size"), (decimal_field_back (cs_actual_hedge_size c) fields "actual_hedge_size") by done.
    rewrite (int_field_back (cs_close_attempt_count c) fields "close_attempt_count"), (int_field_back (cs_adjustment_count c) fields "adjustment_count") by done.
    rewrite (decimal_field_back (cs_pre_adjust_hedge_size c) fields "pre_adjust_hedge_size") by done. cbn [mbind result_bind].
    rewrite (time_required_back _ _ fields "created_at" Hok3 eq_refl), (time_required_back _ _ fields "updated_at" Hok4 eq_refl).
    cbn [mbind result_bind].
    rewrite (time_field_back _ _ fields "open_submitted_at" Hok0 eq_refl), (time_field_back _ _ fields "close_submitted_at" Hok1 eq_refl).
    rewrite (time_field_back _ _ fields "adjust_submitted_at" Hok2 eq_refl), (time_field_back _ _ fields "funding_confirmed_at" Hok5 eq_refl).
    cbn [mbind result_bind].
    rewrite (delta_back (cs_funding_delta_usd c) fields eq_refl) by done. cbn [mbind result_bind]. rewrite <- (stored_valid c Hv). f_equal.
    unfold stored_cycle. f_equal; (apply text_field_back; [reflexivity|auto]) || reflexivity.
Qed.

(** *** The whole file *)
Definition settled_symbol (c : HedgeCycleState) : Prop := canonical_symbol (cs_symbol c) = Ok (cs_symbol c).
Definition good_item (cycles : gmap string HedgeCycleState) (item : string * Json) : Prop :=
  exists fields c, item.2 = JObject fields /\ cycles !! item.1 = Some c /\ cs_symbol c = item.1 /\
                   from_mapping fields = with_symbol (stored_cycle c) <$> canonical_symbol (cs_symbol c).
Lemma read_cycles_good cycles items :
  map_Forall (fun _ c => settled_symbol c) cycles -> forall acc, Forall (good_item cycles) items ->
  exists m, read_cycles items acc = Ok m /\
            forall k, m !! k = if decide (k ∈ items.*1) then stored_cycle <$> cycles !! k else acc !! k.
Proof.
  intros Hsettled. induction items as [|[symbol raw] items IH]; intros acc Hg.
  - exists acc. split; [done|]. intros k. by rewrite decide_False by (apply not_elem_of_nil).
  - apply Forall_cons in Hg as [(fields & c & Hraw & Hc & Hs & Hf) Hg]. simpl in Hraw. subst raw. cbn [read_cycles].
    rewrite (Hsettled _ _ Hc) in Hf. cbn [fmap result_fmap] in Hf.
    assert (with_symbol (stored_cycle c) (cs_symbol c) = stored_cycle c) as E by done. rewrite E in Hf. clear E.
    rewrite Hf. cbn [mbind result_bind].
    simpl in Hc, Hs. change (cs_symbol (stored_cycle c)) with (cs_symbol c). rewrite Hs, String.eqb_refl. cbn [check mbind result_bind].
    destruct (IH (<[symbol := stored_cycle c]> acc) Hg) as (m & Hm & Hk). exists m. split; [done|]. intros k. rewrite Hk. cbn [fmap list_fmap fst].
    destruct (decide (k ∈ items.*1)); [by rewrite decide_True by set_solver|]. rewrite lookup_insert.
    destruct (decide (symbol = k)) as [<-|]; [rewrite decide_True by set_solver; by rewrite Hc|].
    rewrite decide_False; [done|]. set_solver.
Qed.
(** What is read was stored under the symbol its own text gives back. *)
Lemma read_cycles_Ok cycles items : forall acc m, Forall (good_item cycles) items -> read_cycles items acc = Ok m ->
  forall k c, k ∈ items.*1 -> cycles !! k = Some c -> settled_symbol c.
Proof.
  induction items as [|[symbol raw] items IH]; intros acc m Hg Hr k c Hk Hc; [by apply elem_of_nil in Hk|].
  apply Forall_cons in Hg as [(fields & c1 & Hraw & Hc1 & Hs & Hf) Hg]. cbn in Hraw, Hc1, Hs. subst raw.
  cbn [read_cycles] in Hr. apply bind_Ok in Hr as (cyc & Hm & Hr). apply bind_Ok in Hr as (u & Hcheck & Hr).
  apply check_Ok, String.eqb_eq in Hcheck. cbn [fmap list_fmap fst] in Hk. apply elem_of_cons in Hk as [->|Hk]; [|by eapply IH].
  rewrite Hc in Hc1. injection Hc1 as <-. rewrite Hm in Hf. symmetry in Hf. apply fmap_Ok in Hf as (sym & Hsym & ->).
  cbn in Hcheck. unfold settled_symbol. by rewrite Hsym, Hcheck, Hs.
Qed.
(** The cycles a transaction may hold: cycles of the constructor under their symbols,
    with decimals and a ledger time that have a text. *)
Definition cycles_ok (cycles : gmap string HedgeCycleState) : Prop :=
  map_Forall (fun symbol c => cs_symbol c = symbol /\ constructed c /\ decimals_ok c = true /\
                              aware_or_none (cs_funding_confirmed_at c) = true) cycles.
Lemma sort_fields fields : Forall (fun kv => sort_keys kv.2 = kv.2) fields -> NoDup fields.*1 ->
  exists fields', sort_keys (JObject fields) = JObject fields' /\ forall key, get fields' key = get fields key.
Proof.
  intros Hf Hn. exists (sorted_items fields). cbn [sort_keys]. split.
  - do 2 f_equal. induction Hf as [|[k j] fields Hj Hf IH]; [done|]. cbn [map fst snd]. simpl in Hj. rewrite Hj.
    apply NoDup_cons in Hn as [_ Hn]. f_equal. by apply IH.
  - intros key. by apply dict_get_sorted.
Qed.
Lemma written_item cycles kv item : cycles_ok cycles -> cycles !! kv.1 = Some kv.2 -> to_dict_item kv = Ok item ->
  item.1 = kv.1 /\ good_item cycles (item.1, sort_keys item.2).
Proof.
  intros Hc Hkv Hi. unfold to_dict_item in Hi. inv_ok Hi. subst item. split; [done|].
  destruct (Hc _ _ Hkv) as (Hs & Hv & Hd & _). destruct (cycle_round_trip _ _ Hv Hd Hok) as (fields & Ha & Hn & Hf & Hm).
  destruct (sort_fields fields Hf Hn) as (fields' & Hsort & Hget). exists fields', kv.2. cbn [fst snd].
  split; [by rewrite Ha|]. split; [done|]. split; [done|]. by rewrite (from_mapping_ext fields' fields).
Qed.

(** A stored cycle equals the cycle, as the dataclass compares them. *)
Lemma stored_time_eqb t : aware t = true -> datetime_eqb (stored_time t) t = true.
Proof.
  unfold stored_time, datetime_eqb, aware. intros Ht. destruct t as [w [o|]]; [|done]. simpl. apply Z.eqb_eq. apply instant_utc.
Qed.
Lemma stored_times_eqb t : aware_or_none t = true -> option_eqb datetime_eqb (stored_time <$> t) t = true.
Proof. destruct t; [apply stored_time_eqb|done]. Qed.
Lemma fixed_eqb d : decimal_ok d = true -> dec_eqb (fixed d) d = true.
Proof. intros [Hc _]%andb_true_iff. to_prop. unfold dec_eqb. by rewrite fixed_value. Qed.
Lemma stored_cycle_eqb c : constructed c -> decimals_ok c = true -> aware_or_none (cs_funding_confirmed_at c) = true ->
  cycle_eqb (stored_cycle c) c = true.
Proof.
  intros [c0 Hv] Hd Hf. unfold validate_cycle in Hv. inv_ok Hv. inv_checks. unfold decimals_ok in Hd. to_prop. subst. cbn in *.
  assert (Hdelta : option_eqb dec_eqb (fixed <$> cs_funding_delta_usd c0) (cs_funding_delta_usd c0) = true).
  { destruct (cs_funding_delta_usd c0); [by apply fixed_eqb|done]. }
  unfold cycle_eqb. repeat (apply andb_true_iff; split);
    first [exact Hdelta|apply String.eqb_refl|apply Z.eqb_refl|by apply stored_time_eqb|by apply stored_times_eqb
          |by apply fixed_eqb|by apply bool_decide_eq_true_2].
Qed.

(** What the file holds of the cycles that were written. *)
Lemma written_file cycles file :
  cycles_ok cycles -> write_unlocked cycles = Ok file ->
  exists sorted, read_unlocked (Some file) = read_cycles sorted ∅ /\ Forall (good_item cycles) sorted /\
    forall k, is_Some (cycles !! k) -> k ∈ sorted.*1.
Proof.
  intros Hc Hw. unfold write_unlocked in Hw. inv_ok Hw. subst file. rename a into items, Hok into Hitems.
  apply mapM_Ok in Hitems.
  set (l := sorted_items (map_to_list cycles)) in *.
  assert (Hl : forall kv, kv ∈ l -> cycles !! kv.1 = Some kv.2).
  { intros [k c]. unfold l. rewrite sorted_items_perm. apply elem_of_map_to_list. }
  assert (Hkeys : items.*1 = l.*1 /\ Forall (good_item cycles) (map (fun kv => (kv.1, sort_keys kv.2)) items)).
  { clearbody l. induction Hitems as [|kv item l items Hi _ IH]; [done|].
    destruct IH as [H1 H2]; [intros; apply Hl; by right|].
    destruct (written_item cycles kv item Hc (Hl kv ltac:(left)) Hi) as [Hk Hg]. split; [|by constructor].
    cbn [fmap list_fmap]. by rewrite Hk, H1. }
  destruct Hkeys as [Hkeys Hgood].
  exists (sorted_items (map (fun kv => (kv.1, sort_keys kv.2)) items)).
  split; [reflexivity|]. split; [by rewrite sorted_items_perm|].
  intros k [c Hk]. rewrite sorted_items_perm, <- list_fmap_compose. change (k ∈ items.*1). rewrite Hkeys. unfold l.
  rewrite sorted_items_perm. apply list_elem_of_fmap. exists (k, c). split; [done|]. by apply elem_of_map_to_list.
Qed.

(** C37. The file keeps the cycles whose symbol is its own canonical form, and only
    those.  Of cycles the constructor gave, stored under their symbols, whose decimals
    are finite ones of the decimal module and whose ledger time is aware: if
    canonicalizing each symbol again gives the symbol, reading what [_write_unlocked]
    wrote gives the same symbols with cycles the dataclass compares equal, every time
    the same instant in UTC and every decimal the same value; if one symbol is not its
    own canonical form, as of a cycle made for ":gold:usd", the file can no longer be
    read at all. *)
Theorem written_cycles_are_read_back cycles file :
  cycles_ok cycles -> write_unlocked cycles = Ok file ->
  (map_Forall (fun _ c => settled_symbol c) cycles ->
     read_unlocked (Some file) = Ok (stored_cycle <$> cycles) /\
     map_Forall (fun _ c => cycle_eqb (stored_cycle c) c = true) cycles) /\
  (is_ok (read_unlocked (Some file)) = true -> map_Forall (fun _ c => settled_symbol c) cycles).
Proof.
  intros Hc Hw. destruct (written_file _ _ Hc Hw) as (sorted & -> & Hgood & Hkeys). split.
  - intros Hsettled. split; [|intros k c Hk; destruct (Hc k c Hk) as (_ & Hv & Hd & Hf); by apply stored_cycle_eqb].
    destruct (read_cycles_good cycles sorted Hsettled ∅ Hgood) as (m & -> & Hk). f_equal. apply map_eq.
    intros k. rewrite Hk, lookup_fmap, lookup_empty. case_decide as Hin; [done|].
    destruct (cycles !! k) as [c|] eqn:E; [|done]. destruct Hin. apply Hkeys. by rewrite E.
  - intros Hok k c Hk. destruct (read_cycles sorted ∅) as [m|] eqn:Hr; [|done].
    eapply read_cycles_Ok; [exact Hgood|exact Hr| |exact Hk]. apply Hkeys. by rewrite Hk.
Qed.
End Conversions.

(** ** Examples *)
Module StoreExample.
Definition float_repr (q : Q) : string := pretty (Z.quot (Qnum q) (Zpos (Qden q))).
Definition local (wall : Z) : Z := wall.
Definition NOON : datetime := Datetime 1783688400000000 (Some 7200000000).
Definition cycle (symbol : string) : HedgeCycleState :=
  {| cs_cycle_key := "key"; cs_status := HEDGED; cs_symbol := symbol; cs_primary_account_address := "0xabc";
     cs_hedge_account_address := "0xdef"; cs_settlement_at := NOON; cs_target_hedge_size := Dec true 125 1;
     cs_open_cloid := "0x1"; cs_close_cloid := ""; cs_created_at := NOON; cs_updated_at := utc 1783688310500000;
     cs_network := "mainnet"; cs_hedge_account_kind := "subaccount"; cs_actual_hedge_size := Dec true 1250 0;
     cs_close_attempt_count := 0; cs_adjustment_count := 2; cs_pending_adjust_cloid := "";
     cs_pre_adjust_hedge_size := Dec false 5 (-7); cs_open_submitted_at := Some NOON; cs_close_submitted_at := None;
     cs_adjust_submitted_at := None; cs_funding_confirmed_at := None; cs_funding_delta_usd := Some (Dec true 0 (-3));
     cs_last_error := "" |}.
Definition cycles (symbol : string) : gmap string HedgeCycleState := {[symbol := cycle symbol]}.
Definition file : Json := match write_unlocked local (cycles "xyz:GOLD") with Ok j => j | Raise _ => JNull end.
Definition locked_file : Json := match write_unlocked local (cycles "GOLD:USD") with Ok j => j | Raise _ => JNull end.
Example file_texts :
  match file with
  | JObject [("cycles", JObject [("xyz:GOLD", JObject fields)]); ("schema_version", JInt 1)] =>
      map (get fields) ["created_at"; "updated_at"; "target_hedge_size"; "pre_adjust_hedge_size"; "funding_delta_usd"]
  | _ => []
  end = [Some (JStr "2026-07-10T11:00:00Z"); Some (JStr "2026-07-10T12:58:30.500000Z"); Some (JStr "-1250");
         Some (JStr "0.0000005"); Some (JStr "-0.000")].
Proof. vm_compute. reflexivity. Qed.
Example unreadable_files :
  map (fun f => match read_unlocked float_repr local (Some f) with Ok _ => "" | Raise e => exn_msg e end)
    [JList []; JObject []; JObject [("schema_version", JInt 1); ("cycles", JNull)];
     JObject [("schema_version", JStr " 1 "); ("cycles", JObject [("BTC", JNull)])];
     JObject [("schema_version", JInt 1); ("cycles", JObject [("BTC", JObject [("schema_version", JInt 1); ("status", JStr "open")])])]]
  = ["hedge state must be a JSON object"; "unsupported hedge-state schema version"; "hedge state cycles must be an object";
     "invalid hedge cycle for BTC"; "not a valid HedgeCycleStatus"].
Proof. vm_compute. reflexivity. Qed.
(** Canonical symbols need not be canonical: a cycle built with a symbol that starts
    with a colon is stored under a key its own text does not give back, and the file
    can no longer be read. *)
Lemma leading_colon_locks_the_file :
  match validate_cycle (cycle ":gold:usd") with
  | Ok c => match write_unlocked local {[cs_symbol c := c]} with
            | Ok j => (cs_symbol c, match read_unlocked float_repr local (Some j) with Ok _ => "" | Raise e => exn_msg e end)
            | Raise _ => ("", "")
            end
  | Raise _ => ("", "")
  end = ("GOLD:USD", "hedge cycle key mismatch for GOLD:USD").
Proof. vm_compute. reflexivity. Qed.
End StoreExample.
Lemma written_cycles_are_read_back_witness :
  read_unlocked StoreExample.float_repr StoreExample.local (Some StoreExample.file) =
    Ok (stored_cycle StoreExample.local <$> StoreExample.cycles "xyz:GOLD") /\
  is_ok (read_unlocked StoreExample.float_repr StoreExample.local (Some StoreExample.locked_file)) = false.
Proof.
  split.
  - refine (proj1 (proj1 (written_cycles_are_read_back StoreExample.float_repr StoreExample.local
      (StoreExample.cycles "xyz:GOLD") StoreExample.file _ _) _)).
    + apply map_Forall_singleton. split; [reflexivity|]. split; [exists (StoreExample.cycle "xyz:GOLD"); vm_compute; reflexivity|].
      split; vm_compute; reflexivity.
    + vm_compute. reflexivity.
    + apply map_Forall_singleton. vm_compute. reflexivity.
  - apply not_true_iff_false. intros Hok.
    assert (H : settled_symbol (StoreExample.cycle "GOLD:USD")).
    { refine (proj2 (written_cycles_are_read_back StoreExample.float_repr StoreExample.local
        (StoreExample.cycles "GOLD:USD") StoreExample.locked_file _ _) Hok "GOLD:USD" _ _).
      - apply map_Forall_singleton. split; [reflexivity|].
        split; [exists (StoreExample.cycle ":gold:usd"); vm_compute; reflexivity|]. split; vm_compute; reflexivity.
      - vm_compute. reflexivity.
      - apply lookup_singleton_eq. }
    vm_compute in H. discriminate H.
Defined.
