(* ===== verification/HedgePolicy.v ===== *)
(** * FundingHedgePolicy: funding_fee_avoidance/policy.py

    [evaluate] is the whole decision: [assess] computes the locals of the method in
    its order (every [Decimal] operation rounds, and the two that can trap make the
    method raise), [choose] is its chain of branches, and [evaluate] packs the
    result.  The theorems say when a hedge may be opened, that every other order
    only reduces, how large a hedge may be, and that a tracked hedge is always let
    out. *)
From stdpp Require Import pretty.
From S2P Require Import Prelude PyStrings PyDict PyTime PyFloat PyDecimal HedgeModels.
Local Open Scope string_scope.
Local Open Scope list_scope.
Local Open Scope Z_scope.

(** ** Helpers of the module *)
(** [_sign] *)
Definition sign (value : decimal) : decimal :=
  if dec_ltb ZERO value then ONE else if dec_ltb value ZERO then dec_neg ONE else ZERO.
(** [_quantize_down] *)
Definition quantize_down (value : decimal) (decimals : Z) : result decimal :=
  if dec_leb value ZERO then Ok ZERO else quantize_down_to value (- Z.max 0 decimals).
Definition flat (size : decimal) : bool := dec_eqb size ZERO.
(** A [timedelta(seconds=n)] in microseconds. *)
Definition seconds (n : Z) : Z := n * 1000000.
(** [int(t.timestamp() * 1000)]: the microseconds divided as floats, multiplied as
    floats and truncated. *)
Definition timestamp_ms (us : Z) : Z :=
  let timestamp := SFdiv 53 1024 (float_of_Z us) (float_of_Z 1000000) in
  float_trunc (SFmul 53 1024 timestamp (SFdiv 53 1024 (float_of_Z 1000) (float_of_Z 1))).
Definition join_colon (l : list string) : string := String.concat ":" l.

(** ** The locals of [evaluate] *)
Record Assessment := {
  as_evaluated_at : Z; as_settlement_at : Z; as_seconds_to_funding : decimal; as_data_age_seconds : decimal;
  as_cycle_key : string; as_current_hedge_size : decimal; as_target_hedge_size : decimal;
  as_target_qty : decimal; as_primary_debit : decimal; as_hedge_credit : decimal;
  as_hedge_execution_notional : decimal; as_round_trip_cost : decimal; as_net_saving : decimal;
  as_required_margin : decimal; as_quantum : decimal }.
(** [choose(action, reason, delta=..., is_reduce_only=...)] *)
Record Choice := {
  ch_action : HedgeAction; ch_reason : string; ch_delta : decimal; ch_reduce_only : bool }.

Section Policy.
  Variable config : StrategyConfig.

(** The margin a hedge may use. *)
Definition margin_budget (s : HedgeSnapshot) : decimal :=
  dec_max ZERO (dec_sub (ha_withdrawable_usd (hs_hedge_account s)) (cf_min_available_margin_usd config)).
(** [_target_size] *)
Definition capped_qty (s : HedgeSnapshot) (apply_margin_cap : bool) : result decimal :=
  let funding := hs_funding s in
  let qty := dec_mul (dec_abs (ap_size (hs_primary_position s))) (cf_hedge_ratio config) in
  qty ← (if dec_ltb ZERO (cf_max_hedge_notional_usd config)
         then cap ← dec_div (cf_max_hedge_notional_usd config) (fo_mark_price funding);
              Ok (dec_min qty cap)
         else Ok qty);
  if apply_margin_cap then
    per_price ← dec_div (dec_mul (margin_budget s) (cf_assumed_hedge_leverage config)) (fo_mark_price funding);
    margin_qty_cap ← dec_div per_price (cf_margin_safety_multiplier config);
    Ok (dec_min qty margin_qty_cap)
  else Ok qty.
Definition target_size (s : HedgeSnapshot) (apply_margin_cap : bool) : result (decimal * decimal) :=
  qty ← capped_qty s apply_margin_cap;
  qty ← quantize_down qty (fo_size_decimals (hs_funding s));
  Ok (dec_mul (dec_neg (sign (ap_size (hs_primary_position s)))) qty, qty).

Definition active_cycle (cycle : option HedgeCycleState) : option HedgeCycleState :=
  match cycle with Some c => if active c then Some c else None | None => None end.
Definition cycle_key_of (s : HedgeSnapshot) (settlement_at : Z) : string :=
  join_colon [cf_network config; lower (ap_account_address (hs_primary_position s));
              lower (ap_account_address (hedge_position s)); hs_symbol s;
              pretty (timestamp_ms settlement_at)].
(** [abs(size) * oracle_price * funding_rate * _sign(size)] *)
Definition funding_payment (size : decimal) (funding : FundingObservation) : decimal :=
  dec_mul (dec_mul (dec_mul (dec_abs size) (fo_oracle_price funding)) (fo_funding_rate funding)) (sign size).
(** [quantum], from [ONE.scaleb]. *)
Definition quantum_of (size_decimals : Z) : decimal := Dec false 1 (- Z.max 0 size_decimals).
Definition round_trip_rate (s : HedgeSnapshot) : decimal :=
  dec_add
    (dec_mul (dec_of_Z 2)
       (dec_add (dec_add (ha_taker_fee_rate (hs_hedge_account s)) (cf_hip3_extra_fee_rate_per_order config))
          (cf_slippage_rate_per_order config)))
    (cf_risk_buffer_rate config).

(** The part of [evaluate] before the branches; [cycle] is the active cycle. *)
Definition assess (s : HedgeSnapshot) (now : datetime) (cycle : option HedgeCycleState) : result Assessment :=
  let funding := hs_funding s in
  let primary := hs_primary_position s in
  let evaluated_at := instant now in
  let settlement_at := match cycle with Some c => instant (cs_settlement_at c) | None => instant (fo_next_funding_at funding) end in
  let current := ap_size (hedge_position s) in
  target ← target_size s (flat current);
  let '(target_hedge_size, target_qty) := target in
  let economics_size := if flat current then target_hedge_size else current in
  let notional := dec_mul (dec_abs economics_size) (fo_mark_price funding) in
  let hedge_credit := dec_max ZERO (dec_neg (dec_mul (dec_mul (dec_mul (dec_abs economics_size)
      (fo_oracle_price funding)) (fo_funding_rate funding)) (sign economics_size))) in
  let round_trip_cost := dec_mul (dec_mul notional (round_trip_rate s)) (cf_cost_safety_multiplier config) in
  unit_margin ← dec_div notional (cf_assumed_hedge_leverage config);
  Ok {| as_evaluated_at := evaluated_at; as_settlement_at := settlement_at;
        as_seconds_to_funding := seconds_decimal (settlement_at - evaluated_at);
        as_data_age_seconds := seconds_decimal (evaluated_at - instant (fo_observed_at funding));
        as_cycle_key := match cycle with Some c => cs_cycle_key c | None => cycle_key_of s settlement_at end;
        as_current_hedge_size := current; as_target_hedge_size := target_hedge_size;
        as_target_qty := target_qty;
        as_primary_debit := dec_max ZERO (funding_payment (ap_size primary) funding);
        as_hedge_credit := hedge_credit; as_hedge_execution_notional := notional;
        as_round_trip_cost := round_trip_cost; as_net_saving := dec_sub hedge_credit round_trip_cost;
        as_required_margin := dec_mul unit_margin (cf_margin_safety_multiplier config);
        as_quantum := quantum_of (fo_size_decimals funding) |}.

Definition quiet (action : HedgeAction) (reason : string) : Choice :=
  {| ch_action := action; ch_reason := reason; ch_delta := ZERO; ch_reduce_only := false |}.
Definition close (current : decimal) (reason : string) : Choice :=
  {| ch_action := CLOSE_HEDGE; ch_reason := reason; ch_delta := dec_neg current; ch_reduce_only := true |}.
Definition identity_mismatch (s : HedgeSnapshot) (c : HedgeCycleState) : bool :=
  negb (String.eqb (cs_symbol c) (hs_symbol s)) ||
  negb (String.eqb (lower (cs_primary_account_address c)) (lower (ap_account_address (hs_primary_position s)))) ||
  negb (String.eqb (lower (cs_hedge_account_address c)) (lower (ap_account_address (hedge_position s)))) ||
  negb (String.eqb (cs_network c) (cf_network config)) ||
  negb (String.eqb (cs_hedge_account_kind c) (cf_hedge_account_kind config)).
Definition addresses_equal (s : HedgeSnapshot) : bool :=
  String.eqb (lower (ap_account_address (hs_primary_position s))) (lower (ap_account_address (hedge_position s))).

(** The branches for a tracked hedge position. *)
Definition choose_tracked (s : HedgeSnapshot) (c : HedgeCycleState) (a : Assessment) : result Choice :=
  let primary := ap_size (hs_primary_position s) in
  let current := as_current_hedge_size a in
  half ← dec_div (as_quantum a) (dec_of_Z 2);
  Ok (if flat primary then close current "primary_position_is_flat"
      else if negb (dec_eqb (sign current) (dec_neg (sign primary)))
      then close current "hedge_direction_no_longer_opposes_primary"
      else if negb (fo_market_data_available (hs_funding s))
      then close current "market_data_unavailable_for_tracked_hedge"
      else if dec_leb (as_primary_debit a) ZERO
      then close current "funding_direction_reversed_or_primary_no_longer_pays"
      else if dec_ltb (dec_add (dec_abs (as_target_hedge_size a)) half) (dec_abs current)
      then {| ch_action := ADJUST_HEDGE; ch_reason := "hedge_exceeds_current_allowed_ratio";
              ch_delta := dec_sub (as_target_hedge_size a) current; ch_reduce_only := true |}
      else if ha_funding_confirmed (hs_hedge_account s) || is_Some_b (cs_funding_confirmed_at c)
      then close current "target_funding_record_confirmed"
      else if as_settlement_at a + seconds (cf_funding_confirmation_timeout_seconds config) <=? as_evaluated_at a
      then close current "funding_confirmation_timeout"
      else if ha_unknown_open_orders (hs_hedge_account s)
      then close current "unknown_order_requires_tracked_hedge_shutdown"
      else quiet WAIT_FOR_FUNDING
             (if as_settlement_at a <=? as_evaluated_at a
              then "awaiting_user_funding_record" else "hedge_open_before_settlement")).
(** The branches for a flat hedge with an active cycle. *)
Definition choose_flat (c : HedgeCycleState) : Choice :=
  if bool_decide (cs_status c ∈ [CLOSE_SUBMITTED; CLOSE_PARTIAL])
  then quiet HOLD "hedge_is_flat_after_close_submission"
  else if bool_decide (cs_status c ∈ [OPEN_SUBMITTED; OPEN_PARTIAL])
  then quiet HOLD "awaiting_open_order_reconciliation"
  else if bool_decide (cs_status c ∈ [HEDGED; AWAITING_FUNDING])
  then quiet RECOVER "tracked_hedge_position_disappeared"
  else quiet HOLD "active_cycle_has_no_hedge_position".
(** The branches with no hedge and no active cycle: the guards of an open. *)
Definition choose_open (s : HedgeSnapshot) (a : Assessment) : Choice :=
  let funding := hs_funding s in
  let account := hs_hedge_account s in
  let primary := ap_size (hs_primary_position s) in
  if flat primary then quiet HOLD "primary_position_is_flat"
  else if negb (fo_market_data_available funding) then quiet HOLD "market_data_unavailable"
  else if dec_ltb (dec_mul (dec_abs primary) (fo_oracle_price funding)) (cf_min_position_notional_usd config)
  then quiet HOLD "primary_position_below_minimum_notional"
  else if dec_ltb (as_data_age_seconds a) (dec_neg (dec_of_Z (cf_max_clock_skew_seconds config)))
  then quiet HOLD "funding_data_timestamp_is_in_the_future"
  else if dec_ltb (dec_of_Z (cf_max_funding_data_age_seconds config)) (as_data_age_seconds a)
  then quiet HOLD "funding_data_is_stale"
  else if dec_leb (as_primary_debit a) ZERO then quiet HOLD "primary_receives_or_owes_no_funding"
  else if dec_ltb (dec_of_Z (cf_hedge_open_lead_seconds config)) (as_seconds_to_funding a)
  then quiet HOLD "outside_hedge_open_window"
  else if dec_leb (as_seconds_to_funding a) (dec_of_Z (cf_latest_open_cutoff_seconds config))
  then quiet HOLD "too_late_to_open_hedge_safely"
  else if String.eqb (ha_account_kind account) "subaccount" &&
          (cf_require_verified_subaccount config && negb (ha_ownership_verified account))
  then quiet HOLD "hedge_subaccount_ownership_not_verified"
  else if negb (ha_margin_available_verified account) then quiet HOLD "hedge_available_margin_not_verified"
  else if contains ":" (hs_symbol s) &&
          negb (ha_hip3_fee_formula_verified account || cf_hip3_extra_fee_rate_known config)
  then quiet HOLD "hip3_extra_fee_rate_not_confirmed"
  else if flat (as_target_qty a) then quiet HOLD "insufficient_available_margin_for_any_hedge"
  else if dec_ltb (as_hedge_execution_notional a) (cf_min_hedge_notional_usd config)
  then quiet HOLD "hedge_order_below_minimum_notional"
  else if dec_ltb (margin_budget s) (as_required_margin a) then quiet HOLD "insufficient_available_margin"
  else if dec_ltb (as_net_saving a) (cf_min_expected_saving_usd config)
  then quiet HOLD "expected_funding_does_not_cover_hedge_round_trip_cost"
  else {| ch_action := OPEN_HEDGE; ch_reason := "temporary_independent_account_hedge_is_cost_effective";
          ch_delta := as_target_hedge_size a; ch_reduce_only := false |}.
Definition choose (s : HedgeSnapshot) (cycle : option HedgeCycleState) (a : Assessment) : result Choice :=
  if addresses_equal s then Ok (quiet RECOVER "primary_and_hedge_accounts_are_equal")
  else if match cycle with Some c => identity_mismatch s c | None => false end
  then Ok (quiet RECOVER "active_cycle_identity_mismatch")
  else if negb (flat (as_current_hedge_size a)) then
    match cycle with
    | None => Ok (quiet RECOVER "untracked_hedge_position")
    | Some c => choose_tracked s c a
    end
  else if ha_unknown_open_orders (hs_hedge_account s)
  then Ok (quiet RECOVER "unknown_order_on_hedge_account")
  else Ok (match cycle with Some c => choose_flat c | None => choose_open s a end).

Definition decision_of (s : HedgeSnapshot) (a : Assessment) (c : Choice) : HedgeDecision :=
  {| hd_snapshot := s; hd_action := ch_action c; hd_reason := ch_reason c;
     hd_evaluated_at := utc (as_evaluated_at a); hd_seconds_to_funding := as_seconds_to_funding a;
     hd_target_hedge_size := as_target_hedge_size a; hd_current_hedge_size := as_current_hedge_size a;
     hd_order_size_delta := ch_delta c; hd_reduce_only := ch_reduce_only c;
     hd_estimated_primary_funding_debit_usd := as_primary_debit a;
     hd_estimated_hedge_funding_credit_usd := as_hedge_credit a;
     hd_estimated_round_trip_cost_usd := as_round_trip_cost a;
     hd_estimated_net_saving_usd := as_net_saving a;
     hd_estimated_required_margin_usd := as_required_margin a; hd_cycle_key := as_cycle_key a |}.
Definition evaluate (s : HedgeSnapshot) (now : datetime) (cycle : option HedgeCycleState) : result HedgeDecision :=
  _ ← check (aware now) (ValueError "now must include a timezone");
  let cycle := active_cycle cycle in
  a ← assess s now cycle;
  c ← choose s cycle a;
  Ok (decision_of s a c).
End Policy.

(** ** Inversion of [evaluate] *)
Lemma evaluate_Ok config s now cycle d :
  evaluate config s now cycle = Ok d ->
  aware now = true /\
  exists a c, assess config s now (active_cycle cycle) = Ok a /\
    choose config s (active_cycle cycle) a = Ok c /\ d = decision_of s a c.
Proof. intros H. unfold evaluate in H. cbv zeta in H. inv_ok H. inv_checks. subst d. eauto 10. Qed.

(** The fields [choose] reads, as [assess] computes them. *)
Lemma assess_Ok config s now cycle a :
  assess config s now cycle = Ok a ->
  target_size config s (flat (ap_size (hedge_position s))) = Ok (as_target_hedge_size a, as_target_qty a) /\
  as_current_hedge_size a = ap_size (hedge_position s) /\
  as_evaluated_at a = instant now /\
  as_settlement_at a = match cycle with Some c => instant (cs_settlement_at c)
                       | None => instant (fo_next_funding_at (hs_funding s)) end /\
  as_seconds_to_funding a = seconds_decimal (as_settlement_at a - instant now) /\
  as_data_age_seconds a = seconds_decimal (instant now - instant (fo_observed_at (hs_funding s))) /\
  as_primary_debit a = dec_max ZERO (funding_payment (ap_size (hs_primary_position s)) (hs_funding s)) /\
  as_quantum a = quantum_of (fo_size_decimals (hs_funding s)) /\
  as_hedge_execution_notional a =
    dec_mul (dec_abs (if flat (ap_size (hedge_position s)) then as_target_hedge_size a
                      else ap_size (hedge_position s))) (fo_mark_price (hs_funding s)) /\
  as_cycle_key a = match cycle with Some c => cs_cycle_key c
                   | None => cycle_key_of config s (as_settlement_at a) end.
Proof.
  unfold assess. cbv zeta. intros H. apply bind_Ok in H as ([t q] & Ht & H).
  inv_ok H. subst a. cbn. rewrite Ht. destruct cycle; done.
Qed.

(** ** Sizes *)
(** Python's coefficients are nonnegative. *)
Definition coefficients (config : StrategyConfig) (s : HedgeSnapshot) : list Z :=
  map d_coef
    [ap_size (hs_primary_position s); ap_size (hedge_position s); fo_mark_price (hs_funding s);
     cf_hedge_ratio config; cf_max_hedge_notional_usd config; cf_assumed_hedge_leverage config;
     cf_margin_safety_multiplier config].
Definition nonnegative_coefficients (config : StrategyConfig) (s : HedgeSnapshot) : bool :=
  forallb (Z.leb 0) (coefficients config s).
Lemma nonnegative_coefficients_spec config s :
  nonnegative_coefficients config s = true ->
  0 <= d_coef (ap_size (hs_primary_position s)) /\ 0 <= d_coef (ap_size (hedge_position s)) /\
  0 <= d_coef (fo_mark_price (hs_funding s)) /\ 0 <= d_coef (cf_hedge_ratio config) /\
  0 <= d_coef (cf_max_hedge_notional_usd config) /\ 0 <= d_coef (cf_assumed_hedge_leverage config) /\
  0 <= d_coef (cf_margin_safety_multiplier config).
Proof. unfold nonnegative_coefficients. simpl. intros H. to_prop. split_and!; lia. Qed.

Lemma quantize_down_Ok v n q :
  0 <= d_coef v -> quantize_down v n = Ok q ->
  representable q /\ d_neg q = false /\ (q = ZERO \/ d_exp q = - Z.max 0 n) /\
  (dec_leb v ZERO = false -> dec_leb q v = true) /\ (dec_leb v ZERO = true -> q = ZERO).
Proof.
  intros Hv. unfold quantize_down. destruct (dec_leb v ZERO) eqn:E.
  { intros [= <-]. split; [done|]. split_and!; try done. by left. }
  intros H. apply dec_leb_not_ltb, dec_ltb_zero in E as [E _]; [|done].
  destruct (quantize_down_spec _ _ _ Hv H) as (H1 & H2 & H3 & H4). rewrite H2. split_and!; try done; auto.
Qed.

Lemma margin_budget_representable config s : representable (margin_budget config s).
Proof.
  unfold margin_budget, dec_max, dec_sub. set (x := dec_add _ _).
  destruct (dec_ltb ZERO x); [apply dec_add_representable|done].
Qed.
(** What the caps leave is representable and within each of them. *)
Lemma capped_qty_Ok config s cap q :
  nonnegative_coefficients config s = true -> capped_qty config s cap = Ok q ->
  representable q /\
  dec_leb q (dec_mul (dec_abs (ap_size (hs_primary_position s))) (cf_hedge_ratio config)) = true /\
  (dec_ltb ZERO (cf_max_hedge_notional_usd config) = true -> exists c,
     dec_div (cf_max_hedge_notional_usd config) (fo_mark_price (hs_funding s)) = Ok c /\ dec_leb q c = true) /\
  (cap = true -> exists p c,
     dec_div (dec_mul (margin_budget config s) (cf_assumed_hedge_leverage config)) (fo_mark_price (hs_funding s)) = Ok p /\
     dec_div p (cf_margin_safety_multiplier config) = Ok c /\ dec_leb q c = true).
Proof.
  intros Hc. apply nonnegative_coefficients_spec in Hc as (Hp & _ & Hm & Hr & Hx & Hl & Hk).
  unfold capped_qty. cbv zeta. intros H. apply bind_Ok in H as (q1 & H1 & H).
  set (base := dec_mul (dec_abs (ap_size (hs_primary_position s))) (cf_hedge_ratio config)) in *.
  assert (Hbase : representable base) by (apply dec_mul_representable; [apply fix_is_representable, Hp|done]).
  assert (Hq1 : representable q1 /\ dec_leb q1 base = true /\
     (dec_ltb ZERO (cf_max_hedge_notional_usd config) = true -> exists c,
       dec_div (cf_max_hedge_notional_usd config) (fo_mark_price (hs_funding s)) = Ok c /\ dec_leb q1 c = true)).
  { destruct (dec_ltb ZERO (cf_max_hedge_notional_usd config)).
    - apply bind_Ok in H1 as (a & Ha & H1). injection H1 as <-. split_and!.
      + destruct (dec_min_cases base a) as [-> | ->]; [done|]. by eapply dec_div_representable, Ha.
      + apply dec_min_le.
      + intros _. exists a. split; [done|]. unfold dec_min. destruct (dec_ltb a base) eqn:E; [apply dec_leb_refl|].
        by apply dec_ltb_not_leb.
    - injection H1 as <-. split_and!; [done|apply dec_leb_refl|done]. }
  destruct Hq1 as (Hr1 & Hle1 & Hcap1). destruct cap.
  - apply bind_Ok in H as (p & Hp1 & H). apply bind_Ok in H as (c & Hc1 & [= <-]).
    assert (Hmin : dec_leb (dec_min q1 c) q1 = true) by apply dec_min_le. split_and!.
    + destruct (dec_min_cases q1 c) as [-> | ->]; [done|]. eapply dec_div_representable, Hc1; [|done].
      eapply dec_div_representable, Hp1; [|done]. apply dec_mul_representable; [|done].
      apply (margin_budget_representable config s).
    + by eapply dec_leb_trans.
    + intros Hpos. destruct (Hcap1 Hpos) as (c' & ? & ?). exists c'. split; [done|]. by eapply dec_leb_trans.
    + intros _. exists p, c. split_and!; [done..|]. unfold dec_min. destruct (dec_ltb c q1) eqn:E; [apply dec_leb_refl|].
      by apply dec_ltb_not_leb.
  - injection H as <-. split_and!; done.
Qed.

(** The sign of a decimal, decided by its own sign bit and coefficient. *)
Lemma sign_cases v :
  0 <= d_coef v ->
  (sign v = ONE /\ d_neg v = false /\ d_coef v <> 0) \/
  (sign v = dec_neg ONE /\ d_neg v = true /\ d_coef v <> 0) \/
  (sign v = ZERO /\ d_coef v = 0).
Proof.
  intros Hv. unfold sign. destruct (dec_ltb ZERO v) eqn:E1.
  { left. by apply dec_ltb_zero in E1 as []. }
  destruct (dec_ltb v ZERO) eqn:E2.
  { right; left. by apply dec_gtb_zero in E2 as []. }
  right; right. split; [done|]. destruct (decide (d_coef v = 0)); [done|]. exfalso.
  destruct (d_neg v) eqn:En.
  - by rewrite (proj2 (dec_gtb_zero v Hv)) in E2.
  - by rewrite (proj2 (dec_ltb_zero v Hv)) in E1.
Qed.
Lemma flat_iff v : 0 <= d_coef v -> flat v = true <-> d_coef v = 0.
Proof. apply dec_eqb_zero. Qed.

(** The signed target: its magnitude is the quantity, against the primary position. *)
Lemma target_size_Ok config s cap t q :
  nonnegative_coefficients config s = true -> target_size config s cap = Ok (t, q) ->
  exists v, capped_qty config s cap = Ok v /\ quantize_down v (fo_size_decimals (hs_funding s)) = Ok q /\
  let p := ap_size (hs_primary_position s) in
  representable q /\ d_neg q = false /\ d_exp t = d_exp q /\
  (flat p = true -> d_coef t = 0) /\
  (flat p = false -> t = Dec (negb (d_neg p)) (d_coef q) (d_exp q)).
Proof.
  intros Hc H. unfold target_size in H. apply bind_Ok in H as (v & Hv & H). apply bind_Ok in H as (q' & Hq & [= <- ->]).
  destruct (capped_qty_Ok _ _ _ _ Hc Hv) as ([Hv0 _] & _). destruct (quantize_down_Ok _ _ _ Hv0 Hq) as (Hr & Hn & _).
  apply nonnegative_coefficients_spec in Hc as (Hp & _). exists v. split; [done|]. split; [done|]. cbv zeta.
  set (p := ap_size (hs_primary_position s)) in *. split; [done|]. split; [done|].
  destruct (sign_cases p Hp) as [(Hs & En & Ez) | [(Hs & En & Ez)|(Hs & Ez)]]; rewrite Hs.
  - change (dec_neg ONE) with (Dec true 1 0). rewrite dec_mul_unit, En, Hn by done. split; [done|]. split; [|done].
    by rewrite flat_iff.
  - change (dec_neg (dec_neg ONE)) with (Dec false 1 0). rewrite dec_mul_unit, En, Hn by done. split; [done|]. split; [|done].
    by rewrite flat_iff.
  - change (dec_neg ZERO) with ZERO. rewrite dec_mul_zero. split; [done|]. split; [done|].
    intros Hf. apply (flat_iff p Hp) in Ez. congruence.
Qed.

(** ** When a hedge is opened *)
Lemma choose_open_iff config s a :
  ch_action (choose_open config s a) = OPEN_HEDGE <->
  flat (ap_size (hs_primary_position s)) = false /\
  negb (fo_market_data_available (hs_funding s)) = false /\
  dec_ltb (dec_mul (dec_abs (ap_size (hs_primary_position s))) (fo_oracle_price (hs_funding s)))
    (cf_min_position_notional_usd config) = false /\
  dec_ltb (as_data_age_seconds a) (dec_neg (dec_of_Z (cf_max_clock_skew_seconds config))) = false /\
  dec_ltb (dec_of_Z (cf_max_funding_data_age_seconds config)) (as_data_age_seconds a) = false /\
  dec_leb (as_primary_debit a) ZERO = false /\
  dec_ltb (dec_of_Z (cf_hedge_open_lead_seconds config)) (as_seconds_to_funding a) = false /\
  dec_leb (as_seconds_to_funding a) (dec_of_Z (cf_latest_open_cutoff_seconds config)) = false /\
  String.eqb (ha_account_kind (hs_hedge_account s)) "subaccount" &&
    (cf_require_verified_subaccount config && negb (ha_ownership_verified (hs_hedge_account s))) = false /\
  negb (ha_margin_available_verified (hs_hedge_account s)) = false /\
  contains ":" (hs_symbol s) &&
    negb (ha_hip3_fee_formula_verified (hs_hedge_account s) || cf_hip3_extra_fee_rate_known config) = false /\
  flat (as_target_qty a) = false /\
  dec_ltb (as_hedge_execution_notional a) (cf_min_hedge_notional_usd config) = false /\
  dec_ltb (margin_budget config s) (as_required_margin a) = false /\
  dec_ltb (as_net_saving a) (cf_min_expected_saving_usd config) = false.
Proof.
  unfold choose_open. cbv zeta.
  repeat match goal with
  | |- context [if ?b then _ else _] =>
      destruct b eqn:?; [split; [discriminate|intros H; destruct_and? H; congruence]|]
  end.
  split; [|done]. intros _. split_and!; reflexivity.
Qed.
Lemma choose_open_delta config s a :
  ch_action (choose_open config s a) = OPEN_HEDGE ->
  ch_delta (choose_open config s a) = as_target_hedge_size a /\ ch_reduce_only (choose_open config s a) = false.
Proof. unfold choose_open. cbv zeta. intros H. by repeat (split_if; [discriminate H|]). Qed.
(** The branches of a tracked position never open, nor do those of a live cycle. *)
Lemma choose_tracked_no_open config s c a ch :
  choose_tracked config s c a = Ok ch -> ch_action ch <> OPEN_HEDGE.
Proof.
  unfold choose_tracked. cbv zeta. intros H. apply bind_Ok in H as (half & _ & [= <-]).
  repeat (split_if; [done|]). done.
Qed.
Lemma choose_flat_no_open c : ch_action (choose_flat c) <> OPEN_HEDGE.
Proof. unfold choose_flat. by repeat (split_if; [done|]). Qed.

Lemma choose_opens config s cycle a ch :
  choose config s cycle a = Ok ch ->
  (ch_action ch = OPEN_HEDGE <->
   addresses_equal s = false /\ flat (as_current_hedge_size a) = true /\
   ha_unknown_open_orders (hs_hedge_account s) = false /\ cycle = None /\
   ch_action (choose_open config s a) = OPEN_HEDGE) /\
  (ch_action ch = OPEN_HEDGE -> ch = choose_open config s a).
Proof.
  unfold choose. intros H. destruct (addresses_equal s) eqn:E1.
  { injection H as <-. naive_solver. }
  destruct (match cycle with Some c => identity_mismatch config s c | None => false end) eqn:E2.
  { injection H as <-. split; [|done]. split; [done|]. intros (_ & _ & _ & -> & _). done. }
  destruct (flat (as_current_hedge_size a)) eqn:E3; cbn [negb] in H.
  - destruct (ha_unknown_open_orders (hs_hedge_account s)) eqn:E4.
    + injection H as <-. naive_solver.
    + destruct cycle as [c|]; injection H as <-.
      * pose proof (choose_flat_no_open c). naive_solver.
      * naive_solver.
  - destruct cycle as [c|].
    + pose proof (choose_tracked_no_open _ _ _ _ _ H). naive_solver.
    + injection H as <-. naive_solver.
Qed.

(** C20. A hedge is opened exactly when every guard of the policy holds: no live
    cycle, distinct accounts, a flat hedge account without foreign orders, a primary
    position that pays this hour's funding, fresh data, a settlement strictly beyond
    the cutoff and within the lead time, verified ownership, margin and fees, and an
    order that is large enough, affordable and saves at least the configured amount.
    The order is then the whole target, and not reduce-only. *)
Theorem opens_exactly_when_every_guard_holds config s now cycle d :
  evaluate config s now cycle = Ok d ->
  nonnegative_coefficients config s = true ->
  0 <= cf_max_clock_skew_seconds config < 10 ^ PREC ->
  let primary := ap_size (hs_primary_position s) in
  let funding := hs_funding s in
  let account := hs_hedge_account s in
  let age := instant now - instant (fo_observed_at funding) in
  let remaining := instant (fo_next_funding_at funding) - instant now in
  (hd_action d = OPEN_HEDGE <->
    active_cycle cycle = None /\ addresses_equal s = false /\
    flat (ap_size (hedge_position s)) = true /\ ha_unknown_open_orders account = false /\
    flat primary = false /\ dec_ltb ZERO (hd_estimated_primary_funding_debit_usd d) = true /\
    fo_market_data_available funding = true /\
    - seconds (cf_max_clock_skew_seconds config) <= age <= seconds (cf_max_funding_data_age_seconds config) /\
    seconds (cf_latest_open_cutoff_seconds config) < remaining <= seconds (cf_hedge_open_lead_seconds config) /\
    (ha_account_kind account = "subaccount" -> cf_require_verified_subaccount config = true ->
       ha_ownership_verified account = true) /\
    ha_margin_available_verified account = true /\
    (contains ":" (hs_symbol s) = true ->
       ha_hip3_fee_formula_verified account = true \/ cf_hip3_extra_fee_rate_known config = true) /\
    flat (hd_target_hedge_size d) = false /\
    dec_leb (cf_min_position_notional_usd config) (dec_mul (dec_abs primary) (fo_oracle_price funding)) = true /\
    dec_leb (cf_min_hedge_notional_usd config)
      (dec_mul (dec_abs (hd_target_hedge_size d)) (fo_mark_price funding)) = true /\
    dec_leb (hd_estimated_required_margin_usd d) (margin_budget config s) = true /\
    dec_leb (cf_min_expected_saving_usd config) (hd_estimated_net_saving_usd d) = true) /\
  (hd_action d = OPEN_HEDGE ->
    hd_order_size_delta d = hd_target_hedge_size d /\ hd_reduce_only d = false).
Proof.
  intros H Hc Hskew. cbv zeta. apply evaluate_Ok in H as (_ & a & ch & Ha & Hch & ->).
  apply assess_Ok in Ha as (Ht & Hcur & Hev & Hset & Hsec & Hage & Hdebit & _ & Hnot & _).
  pose proof (choose_opens _ _ _ _ _ Hch) as [Hopen Hchosen]. rewrite choose_open_iff, Hcur in Hopen.
  destruct (target_size_Ok _ _ _ _ _ Hc Ht) as (v & _ & _ & Hq & Hqn & Hexp & Hft & Hnf).
  rewrite Hsec, Hage, seconds_ltb_neg, !seconds_gtb, !seconds_leb, Hnot in Hopen by done.
  assert (Hflat : flat (ap_size (hs_primary_position s)) = false ->
            flat (as_target_hedge_size a) = flat (as_target_qty a)).
  { intros Hp. rewrite (Hnf Hp). unfold flat. apply eq_true_iff_eq. destruct Hq as [Hq _].
    by rewrite !dec_eqb_zero. }
  unfold decision_of. cbn [hd_action hd_estimated_primary_funding_debit_usd hd_target_hedge_size
    hd_estimated_required_margin_usd hd_estimated_net_saving_usd hd_order_size_delta hd_reduce_only].
  split.
  - unfold seconds. rewrite Hopen. clear Hopen Hch.
    rewrite !dec_ltb_not_leb, !dec_leb_not_ltb, !negb_false_iff, !Z.ltb_ge, Z.leb_gt, Hset.
    rewrite !andb_false_iff, !negb_false_iff, orb_true_iff, String.eqb_neq.
    destruct (flat (ap_size (hedge_position s))) eqn:Ef; [|naive_solver].
    destruct (active_cycle cycle) as [c|]; [naive_solver|].
    clear - Hflat. split.
    + intros (H1 & _ & H3 & _ & H5 & H6 & H7 & H8 & H9 & H10 & H11 & H12 & H13 & H14 & H15 & H16 & H17 & H18 & H19).
      rewrite (Hflat H5). split_and!; try assumption; try lia; try done.
      * clear - H13. intros. destruct H13 as [|[|]]; congruence.
      * clear - H15. intros. destruct H15 as [H15|H15]; [congruence|done].
    + intros (_ & H1 & _ & H3 & H4 & H5 & H6 & H7 & H8 & H9 & H10 & H11 & H12 & H13 & H14 & H15 & H16).
      rewrite (Hflat H4) in H12. split_and!; try assumption; try lia; try done.
      * clear - H9. destruct (decide (ha_account_kind (hs_hedge_account s) = "subaccount")); [right|by left].
        destruct (cf_require_verified_subaccount config); [right; by apply H9|by left].
      * clear - H11. destruct (contains ":" (hs_symbol s)); [right; apply H11; reflexivity|left; reflexivity].
  - intros E. pose proof (Hchosen E) as Ec. rewrite Ec in E |- *. by apply choose_open_delta.
Qed.

(** ** How large a hedge may be *)
Lemma hd_target_spec config s now cycle d :
  nonnegative_coefficients config s = true -> evaluate config s now cycle = Ok d ->
  hd_current_hedge_size d = ap_size (hedge_position s) /\
  exists q, target_size config s (flat (ap_size (hedge_position s))) = Ok (hd_target_hedge_size d, q).
Proof.
  intros Hc H. apply evaluate_Ok in H as (_ & a & ch & Ha & _ & ->). apply assess_Ok in Ha as (Ht & Hcur & _).
  split; [done|]. by exists (as_target_qty a).
Qed.

(** C36. With a validated configuration a hedge is either nothing or a position
    against the primary one, in whole lots, no larger than the primary position, than
    the configured notional at the mark price, or, when it is a new position, than
    what the spare margin carries. *)
Theorem hedge_never_exceeds_its_caps raw config s now cycle d :
  validate_config raw = Ok config -> nonnegative_coefficients config s = true ->
  evaluate config s now cycle = Ok d ->
  let p := ap_size (hs_primary_position s) in
  let t := hd_target_hedge_size d in
  flat t = true \/
  (flat p = false /\ d_neg t = negb (d_neg p) /\ d_exp t = - Z.max 0 (fo_size_decimals (hs_funding s)) /\
   dec_leb (dec_abs t) (dec_abs p) = true /\
   (dec_ltb ZERO (cf_max_hedge_notional_usd config) = true -> exists c,
      dec_div (cf_max_hedge_notional_usd config) (fo_mark_price (hs_funding s)) = Ok c /\
      dec_leb (dec_abs t) c = true) /\
   (flat (ap_size (hedge_position s)) = true -> exists m c,
      dec_div (dec_mul (margin_budget config s) (cf_assumed_hedge_leverage config)) (fo_mark_price (hs_funding s)) = Ok m /\
      dec_div m (cf_margin_safety_multiplier config) = Ok c /\ dec_leb (dec_abs t) c = true)).
Proof.
  intros Hv Hc H. cbv zeta. destruct (hd_target_spec _ _ _ _ _ Hc H) as (_ & q & Ht). clear H.
  apply validate_config_Ok in Hv as (_ & Hr0 & Hr1 & _).
  destruct (target_size_Ok _ _ _ _ _ Hc Ht) as (v & Hcap & Hqd & Hq & Hqn & Hexp & Hft & Hnf).
  destruct (capped_qty_Ok _ _ _ _ Hc Hcap) as ([Hv0 _] & Hbase & Hmax & Hmargin).
  destruct (quantize_down_Ok _ _ _ Hv0 Hqd) as (_ & _ & Hlots & Hle & Hz).
  apply nonnegative_coefficients_spec in Hc as (Hp & _ & _ & Hr & _).
  set (p := ap_size (hs_primary_position s)) in *. set (t := hd_target_hedge_size d) in *.
  destruct (flat p) eqn:Ep.
  { left. apply flat_iff; rewrite (Hft eq_refl); done. }
  specialize (Hnf eq_refl). destruct Hq as [Hq0 Hq].
  destruct (flat t) eqn:Et; [by left|right].
  assert (Hqz : q <> ZERO) by (intros ->; rewrite Hnf in Et; by destruct (d_neg p)).
  destruct (dec_leb v ZERO) eqn:Ev; [by destruct Hqz; apply Hz|]. specialize (Hle eq_refl).
  assert (Habs : dec_abs t = q).
  { rewrite Hnf, dec_abs_exact by done. cbn. destruct q; cbn in *. by subst. }
  rewrite Habs. split_and!.
  - done.
  - by rewrite Hnf.
  - rewrite Hexp. by destruct Hlots.
  - eapply dec_leb_trans, dec_leb_trans; [done..|]. apply dec_ltb_zero in Hr0 as [Hrn _]; [|done].
    apply dec_mul_ratio; [by apply dec_abs_representable|by apply dec_abs_neg|done..].
  - intros E. destruct (Hmax E) as (c & ? & ?). exists c. split; [done|]. by eapply dec_leb_trans.
  - intros E. destruct (Hmargin E) as (m & c & ? & ? & ?). exists m, c. split_and!; [done..|]. by eapply dec_leb_trans.
Qed.

(** ** Every other order reduces *)
Lemma quantum_half_spec n half :
  dec_div (quantum_of n) (dec_of_Z 2) = Ok half -> representable half /\ d_neg half = false.
Proof.
  intros H. split.
  - refine (dec_div_representable _ _ _ _ _ H); cbn; lia.
  - apply dec_div_neg in H; [done|cbn; lia..].
Qed.
Lemma sign_opposite c p :
  0 <= d_coef c -> 0 <= d_coef p -> flat c = false -> flat p = false ->
  dec_eqb (sign c) (dec_neg (sign p)) = true -> d_neg c = negb (d_neg p).
Proof.
  intros Hc Hp Fc Fp. destruct (sign_cases c Hc) as [(-> & -> & _)|[(-> & -> & _)|(_ & E)]];
    [| |apply (flat_iff c Hc) in E; congruence];
  (destruct (sign_cases p Hp) as [(-> & -> & _)|[(-> & -> & _)|(_ & E)]];
    [| |apply (flat_iff p Hp) in E; congruence]); done.
Qed.

(** The adjustment branch, inverted. *)
Lemma choose_tracked_adjust config s c a ch :
  choose_tracked config s c a = Ok ch -> ch_action ch = ADJUST_HEDGE ->
  exists half, dec_div (as_quantum a) (dec_of_Z 2) = Ok half /\
  flat (ap_size (hs_primary_position s)) = false /\
  dec_eqb (sign (as_current_hedge_size a)) (dec_neg (sign (ap_size (hs_primary_position s)))) = true /\
  dec_ltb (dec_add (dec_abs (as_target_hedge_size a)) half) (dec_abs (as_current_hedge_size a)) = true /\
  ch_delta ch = dec_sub (as_target_hedge_size a) (as_current_hedge_size a) /\ ch_reduce_only ch = true.
Proof.
  unfold choose_tracked. cbv zeta. intros H. apply bind_Ok in H as (half & Hh & [= <-]). intros Ha. exists half.
  split; [done|]. do 4 (split_if; [discriminate Ha|]). to_prop. split_if; [by split_and!|].
  by repeat (split_if; [discriminate Ha|]).
Qed.
(** The shape of a choice that is neither an open nor an adjustment. *)
Lemma choose_shape config s cycle a ch :
  choose config s cycle a = Ok ch ->
  match ch_action ch with
  | OPEN_HEDGE => flat (as_current_hedge_size a) = true
  | CLOSE_HEDGE => flat (as_current_hedge_size a) = false /\ is_Some cycle /\
                   ch_delta ch = dec_neg (as_current_hedge_size a) /\ ch_reduce_only ch = true
  | ADJUST_HEDGE => flat (as_current_hedge_size a) = false /\
                    exists c, cycle = Some c /\ choose_tracked config s c a = Ok ch
  | _ => ch_delta ch = ZERO /\ ch_reduce_only ch = false
  end.
Proof.
  unfold choose. intros H. split_if; [by injection H as <-|]. split_if; [by injection H as <-|].
  destruct (flat (as_current_hedge_size a)) eqn:Ef; cbn [negb] in H.
  - split_if; [by injection H as <-|]. injection H as <-. destruct cycle as [c|].
    + unfold choose_flat. by repeat (split_if; [done|]).
    + unfold choose_open. cbv zeta. by repeat (split_if; [done|]).
  - destruct cycle as [c|]; [|by injection H as <-]. pose proof H as H'. unfold choose_tracked in H'. cbv zeta in H'.
    apply bind_Ok in H' as (half & _ & E). injection E as E. revert H. rewrite <- E. clear E.
    repeat match goal with
    | |- context [if ?b then _ else _] => destruct b
    end; intros H; cbn; eauto.
Qed.

(** Only an open adds exposure, and it starts from a flat hedge account.  A close
    is reduce-only for the whole position; an adjustment is reduce-only, opposes the
    position and is no larger than it; every other decision carries no order. *)
Theorem orders_never_add_to_a_hedge config s now cycle d :
  nonnegative_coefficients config s = true -> representable (ap_size (hedge_position s)) ->
  evaluate config s now cycle = Ok d ->
  let current := ap_size (hedge_position s) in
  let delta := hd_order_size_delta d in
  match hd_action d with
  | OPEN_HEDGE => flat current = true
  | CLOSE_HEDGE => flat current = false /\ delta = dec_neg current /\ hd_reduce_only d = true
  | ADJUST_HEDGE => flat current = false /\ hd_reduce_only d = true /\ flat delta = false /\
                    d_neg delta = negb (d_neg current) /\ dec_leb (dec_abs delta) (dec_abs current) = true
  | HOLD | WAIT_FOR_FUNDING | RECOVER => delta = ZERO /\ hd_reduce_only d = false
  end.
Proof.
  intros Hc Hrep H. cbv zeta. apply evaluate_Ok in H as (_ & a & ch & Ha & Hch & ->).
  apply assess_Ok in Ha as (Ht & Hcur & _ & _ & _ & _ & _ & Hn & _). pose proof (choose_shape _ _ _ _ _ Hch) as Hs.
  cbn [decision_of hd_action hd_order_size_delta hd_reduce_only].
  destruct (ch_action ch) eqn:Ea; rewrite ?Hcur in Hs; try done.
  { destruct Hs as (? & _ & ? & ?). done. }
  destruct Hs as (Hf & c & _ & Htr).
  destruct (choose_tracked_adjust _ _ _ _ _ Htr Ea) as (half & Hh & Hp & Hsg & Hlt & -> & ->). clear Htr Hch.
  rewrite Hcur in *. destruct (target_size_Ok _ _ _ _ _ Hc Ht) as (v & _ & _ & Hq & Hqn & _ & _ & Htgt).
  apply nonnegative_coefficients_spec in Hc as (Hp0 & Hc0 & _). specialize (Htgt Hp).
  apply sign_opposite in Hsg; [|done..]. set (t := as_target_hedge_size a) in *.
  assert (Hrt : representable t) by (rewrite Htgt; exact Hq).
  assert (Hsame : d_neg t = d_neg (ap_size (hedge_position s))) by (by rewrite Hsg, Htgt).
  rewrite Hn in Hh. apply quantum_half_spec in Hh as [[Hh0 _] Hhn].
  assert (Hin : dec_ltb (dec_abs t) (dec_abs (ap_size (hedge_position s))) = true).
  { eapply dec_leb_ltb_trans, Hlt. apply dec_add_above; [|by apply dec_abs_neg, Hrt|done..].
    apply dec_abs_representable, Hrt. }
  destruct (dec_sub_inside _ _ Hrep Hrt Hsame Hin) as (H1 & H2 & H3). split_and!; try done.
  apply not_true_iff_false. intros E. apply flat_iff in E; [done|]. apply dec_add_representable.
Qed.

(** ** Leaving a hedge *)
(** C38. A tracked hedge position is never merely held: it is closed, reduced or waits
    for its funding.  It waits only while it opposes a primary position that still
    pays, market data is there, no foreign order is, the funding is unconfirmed and
    the confirmation timeout has not passed; so from the timeout on it is closed or
    reduced.  It is reduced only while it exceeds the allowed size. *)
Theorem tracked_hedge_is_let_out config s now c d :
  evaluate config s now (Some c) = Ok d ->
  active c = true -> identity_mismatch config s c = false -> addresses_equal s = false ->
  flat (ap_size (hedge_position s)) = false ->
  let primary := ap_size (hs_primary_position s) in
  let current := ap_size (hedge_position s) in
  let opposed := flat primary = false /\ sign current = dec_neg (sign primary) /\
    fo_market_data_available (hs_funding s) = true /\
    dec_ltb ZERO (hd_estimated_primary_funding_debit_usd d) = true in
  match hd_action d with
  | CLOSE_HEDGE => True
  | ADJUST_HEDGE => opposed /\ exists half,
      dec_div (quantum_of (fo_size_decimals (hs_funding s))) (dec_of_Z 2) = Ok half /\
      dec_ltb (dec_add (dec_abs (hd_target_hedge_size d)) half) (dec_abs current) = true
  | WAIT_FOR_FUNDING => opposed /\ ha_funding_confirmed (hs_hedge_account s) = false /\
      cs_funding_confirmed_at c = None /\ ha_unknown_open_orders (hs_hedge_account s) = false /\
      instant now < instant (cs_settlement_at c) + seconds (cf_funding_confirmation_timeout_seconds config)
  | _ => False
  end.
Proof.
  intros H Hact Hid Hadr Hf. cbv zeta. apply evaluate_Ok in H as (_ & a & ch & Ha & Hch & ->).
  unfold active_cycle in *. rewrite Hact in *. apply assess_Ok in Ha as (_ & Hcur & Hev & Hset & _ & _ & _ & Hq & _).
  unfold choose in Hch. rewrite Hadr, Hid, Hcur, Hf in Hch. cbn [negb] in Hch.
  unfold choose_tracked in Hch. cbv zeta in Hch. apply bind_Ok in Hch as (half & Hh & [= <-]).
  rewrite Hcur, Hev, Hset, Hq in *. unfold decision_of. cbn [hd_action hd_estimated_primary_funding_debit_usd hd_target_hedge_size].
  assert (Hsign : dec_eqb (sign (ap_size (hedge_position s))) (dec_neg (sign (ap_size (hs_primary_position s)))) = true ->
    sign (ap_size (hedge_position s)) = dec_neg (sign (ap_size (hs_primary_position s)))).
  { unfold sign. by repeat split_if. }
  clear Hact Hid Hadr Hcur Hev Hset Hq.
  destruct (flat (ap_size (hs_primary_position s))); [exact I|].
  destruct (dec_eqb _ _); cbn [negb]; [specialize (Hsign eq_refl)|exact I].
  destruct (fo_market_data_available (hs_funding s)); cbn [negb]; [|exact I].
  destruct (dec_leb (as_primary_debit a) ZERO) eqn:Hdebit; [exact I|]. apply dec_leb_not_ltb in Hdebit.
  destruct (dec_ltb _ (dec_abs _)) eqn:Hover; cbn [ch_action]; [split; [split_and!; first [assumption|reflexivity]|exists half; split; assumption]|].
  destruct (_ || _) eqn:Hconf; [exact I|]. apply orb_false_iff in Hconf as [Hc1 Hc2].
  destruct (_ <=? instant now) eqn:Htime; [exact I|]. apply Z.leb_gt in Htime.
  destruct (ha_unknown_open_orders _); [exact I|]. cbn [quiet ch_action].
  split_and!; try assumption; try reflexivity. by destruct (cs_funding_confirmed_at c).
Qed.

(** ** When a person must step in *)
(** Recovery is demanded exactly when the accounts coincide, the live cycle is
    not about this snapshot, a hedge position has no live cycle, or the hedge account
    is flat but holds foreign orders or has lost a position the cycle relies on. *)
Theorem recovery_exactly_on_lost_track config s now cycle d :
  evaluate config s now cycle = Ok d ->
  hd_action d = RECOVER <->
  addresses_equal s = true \/
  match active_cycle cycle with
  | Some c => identity_mismatch config s c = true \/
      (flat (ap_size (hedge_position s)) = true /\
       (ha_unknown_open_orders (hs_hedge_account s) = true \/ cs_status c ∈ [HEDGED; AWAITING_FUNDING]))
  | None => flat (ap_size (hedge_position s)) = false \/ ha_unknown_open_orders (hs_hedge_account s) = true
  end.
Proof.
  intros H. apply evaluate_Ok in H as (_ & a & ch & Ha & Hch & ->). apply assess_Ok in Ha as (_ & Hcur & _).
  cbn [decision_of hd_action]. unfold choose in Hch. rewrite Hcur in Hch. clear Hcur.
  destruct (addresses_equal s); [injection Hch as <-; naive_solver|].
  destruct (active_cycle cycle) as [c|].
  - destruct (identity_mismatch config s c); [injection Hch as <-; naive_solver|].
    destruct (flat (ap_size (hedge_position s))); cbn [negb] in Hch.
    + destruct (ha_unknown_open_orders _); [injection Hch as <-; naive_solver|]. injection Hch as <-.
      unfold choose_flat.
      destruct (cs_status c); cbn; split; intros; destruct_or?; destruct_and?; try done; set_solver.
    + unfold choose_tracked in Hch. cbv zeta in Hch. apply bind_Ok in Hch as (half & _ & [= <-]).
      split; [|naive_solver].
      repeat match goal with |- context [if ?b then _ else _] => destruct b; [done|] end. done.
  - destruct (flat (ap_size (hedge_position s))); cbn [negb] in Hch; [|injection Hch as <-; naive_solver].
    destruct (ha_unknown_open_orders _); injection Hch as <-; [naive_solver|].
    split; [|naive_solver]. unfold choose_open. cbv zeta.
    repeat match goal with |- context [if ?b then _ else _] => destruct b; [done|] end. done.
Qed.

(** ** The policy returns *)
(** Below [10^n] a positive decimal has its leading digit under place [n]. *)
Lemma adjusted_below v n :
  0 < d_coef v -> d_neg v = false -> dec_ltb v (Dec false 1 n) = true -> d_exp v + ndigits (d_coef v) <= n.
Proof.
  intros Hv Hn Hlt. destruct (ndigits_spec _ Hv) as (Hd & Hlo & _).
  set (m := Z.min (d_exp v) n). apply (dec_ltb_at m) in Hlt; [|lia|cbn; lia].
  unfold scaled in Hlt. cbn [d_neg d_coef d_exp] in Hlt. rewrite Hn, Z.mul_1_l in Hlt.
  assert (Hp : 10 ^ (ndigits (d_coef v) - 1) * 10 ^ (d_exp v - m) < 10 ^ (n - m)).
  { pose proof (pow10_pos (d_exp v - m) ltac:(lia)). nia. }
  rewrite <- Z.pow_add_r in Hp by lia. apply Z.pow_lt_mono_r_iff in Hp; lia.
Qed.
Lemma quantize_down_total v n :
  0 <= d_coef v -> dec_ltb v (Dec false 1 (PREC - Z.max 0 n)) = true -> exists q, quantize_down v n = Ok q.
Proof.
  intros Hv Hlt. unfold quantize_down. destruct (dec_leb v ZERO) eqn:E; [by eexists|].
  apply dec_leb_not_ltb, dec_ltb_zero in E as [En Ez]; [|done].
  pose proof (adjusted_below v _ ltac:(lia) En Hlt). unfold quantize_down_to, is_zero.
  rewrite (proj2 (Z.eqb_neq _ _) Ez). rewrite (proj2 (Z.ltb_ge _ _)) by lia. by eexists.
Qed.

(** With a validated configuration and a valid mark price the policy never
    raises on an aware clock, as long as the primary position has at most
    [28 - size_decimals] digits before its point (more would trap in [quantize]). *)
Theorem evaluate_is_total raw config s now cycle :
  validate_config raw = Ok config -> nonnegative_coefficients config s = true ->
  validate_funding (hs_funding s) = Ok (hs_funding s) -> aware now = true ->
  dec_ltb (dec_abs (ap_size (hs_primary_position s)))
    (Dec false 1 (PREC - Z.max 0 (fo_size_decimals (hs_funding s)))) = true ->
  exists d, evaluate config s now cycle = Ok d.
Proof.
  intros Hv Hc Hfund Hnow Hlt. pose proof (nonnegative_coefficients_spec _ _ Hc) as (Hp & _ & Hm & Hr & _ & Hlev & Hmul).
  apply validate_config_Ok in Hv as (_ & Hr0 & Hr1 & _ & _ & Hl & Hs & _).
  assert (Hmark : d_coef (fo_mark_price (hs_funding s)) <> 0).
  { unfold validate_funding in Hfund. inv_ok Hfund. inv_checks. repeat match goal with H : dec_ltb ZERO (fo_mark_price _) = true |- _ => apply dec_ltb_zero in H as []; [done|done] end. }
  assert (Hlev0 : d_coef (cf_assumed_hedge_leverage config) <> 0) by (by apply dec_ltb_zero in Hl as []).
  assert (Hmul0 : d_coef (cf_margin_safety_multiplier config) <> 0).
  { assert (H1 : dec_ltb ZERO (cf_margin_safety_multiplier config) = true).
    { apply dec_leb_not_ltb, not_true_iff_false. intros E. discriminate (dec_leb_trans _ _ _ Hs E). }
    by apply dec_ltb_zero in H1 as []. }
  assert (Htot : exists v, capped_qty config s (flat (ap_size (hedge_position s))) = Ok v).
  { unfold capped_qty. cbv zeta.
    destruct (dec_div_total (cf_max_hedge_notional_usd config) _ Hmark) as (c1 & E1).
    destruct (dec_div_total (dec_mul (margin_budget config s) (cf_assumed_hedge_leverage config)) _ Hmark) as (c2 & E2).
    destruct (dec_div_total c2 _ Hmul0) as (c3 & E3).
    destruct (dec_ltb ZERO (cf_max_hedge_notional_usd config)), (flat _); rewrite ?E1, ?E2; cbn [mbind result_bind]; rewrite ?E3; by eexists. }
  destruct Htot as (v & Hcap). destruct (capped_qty_Ok _ _ _ _ Hc Hcap) as ([Hv0 _] & Hbase & _).
  assert (Hbelow : dec_ltb v (Dec false 1 (PREC - Z.max 0 (fo_size_decimals (hs_funding s)))) = true).
  { eapply dec_leb_ltb_trans, Hlt. eapply dec_leb_trans; [exact Hbase|].
    apply dec_ltb_zero in Hr0 as [Hrn _]; [|done].
    apply dec_mul_ratio; [by apply dec_abs_representable|by apply dec_abs_neg|done..]. }
  destruct (quantize_down_total _ _ Hv0 Hbelow) as (q & Hq).
  unfold evaluate. rewrite Hnow. cbn [check mbind result_bind]. cbv zeta.
  unfold assess, target_size. cbv zeta. rewrite Hcap. cbn [mbind result_bind]. rewrite Hq. cbn [mbind result_bind].
  match goal with |- context [dec_div ?n (cf_assumed_hedge_leverage config)] =>
    destruct (dec_div_total n _ Hlev0) as (um & Hum) end.
  rewrite Hum. cbn [mbind result_bind].
  match goal with |- context [choose config s ?cy ?a] => assert (Hch : exists ch, choose config s cy a = Ok ch) end.
  { unfold choose. destruct (addresses_equal s); [by eexists|].
    destruct (match active_cycle cycle with Some c => identity_mismatch config s c | None => false end); [by eexists|].
    destruct (negb _); [|destruct (ha_unknown_open_orders _); by eexists].
    destruct (active_cycle cycle); [|by eexists]. unfold choose_tracked. cbv zeta. cbn [as_quantum].
    destruct (dec_div_total (quantum_of (fo_size_decimals (hs_funding s))) (dec_of_Z 2) ltac:(done)) as (hh & ->).
    by eexists. }
  destruct Hch as (ch & ->). by eexists.
Qed.

(** ** A concrete evaluation *)
Module PolicyExample.
(** The configuration and the snapshot of the tests' fixtures: a long of 100 at 101
    (oracle 100) that pays 0.2 % ninety seconds before the settlement. *)
Definition NOW : datetime := utc 1783688310000000.
Definition raw_config : StrategyConfig :=
  {| cf_symbols := ["XYZ:skhx"]; cf_network := " MainNet "; cf_primary_account_address := "0xAaa";
     cf_hedge_account_address := "0xBbb"; cf_hedge_account_kind := "subaccount"; cf_hedge_ratio := ONE;
     cf_hedge_open_lead_seconds := 120; cf_latest_open_cutoff_seconds := 15;
     cf_funding_confirmation_timeout_seconds := 120; cf_max_funding_data_age_seconds := 30;
     cf_max_clock_skew_seconds := 5; cf_min_position_notional_usd := dec_of_Z 10;
     cf_min_hedge_notional_usd := dec_of_Z 10; cf_max_hedge_notional_usd := ZERO;
     cf_min_expected_saving_usd := ONE; cf_min_available_margin_usd := ZERO;
     cf_assumed_hedge_leverage := ONE; cf_hedge_margin_mode := "cross"; cf_margin_safety_multiplier := ONE;
     cf_slippage_rate_per_order := ZERO; cf_hip3_extra_fee_rate_per_order := ZERO;
     cf_hip3_extra_fee_rate_known := true; cf_risk_buffer_rate := ZERO; cf_cost_safety_multiplier := ONE;
     cf_fallback_taker_fee_rate := Dec false 45 (-5); cf_max_order_slippage := Dec false 2 (-3);
     cf_require_verified_subaccount := true; cf_execution_enabled := true;
     cf_ambiguous_order_retry_seconds := 15; cf_open_reconciliation_timeout_seconds := 30;
     cf_http_timeout_seconds := 5; cf_action_expiry_seconds := 15; cf_poll_seconds := 5;
     cf_state_path := "state.json" |}.
Definition config : StrategyConfig := normalize_config raw_config.
Definition position (address : string) (size : decimal) : AccountPositionSnapshot :=
  {| ap_account_address := address; ap_symbol := "xyz:SKHX"; ap_size := size; ap_margin_used_usd := ZERO |}.
Definition account (hedge : decimal) : HedgeAccountSnapshot :=
  {| ha_position := position "0xBbb" hedge; ha_withdrawable_usd := dec_of_Z 50000;
     ha_taker_fee_rate := Dec false 1 (-4); ha_fee_rate_source := "test"; ha_hip3_fee_formula_verified := false;
     ha_account_kind := "subaccount"; ha_ownership_verified := true; ha_margin_available_verified := true;
     ha_funding_confirmed := false; ha_funding_record_time := None; ha_funding_delta_usd := None;
     ha_open_order_cloids := []; ha_unknown_open_orders := false; ha_open_order_status := "";
     ha_close_order_status := ""; ha_adjust_order_status := "" |}.
Definition funding : FundingObservation :=
  {| fo_symbol := "xyz:SKHX"; fo_oracle_price := dec_of_Z 100; fo_mark_price := dec_of_Z 101;
     fo_funding_rate := Dec false 2 (-3); fo_observed_at := plus_us NOW (- 5000000);
     fo_next_funding_at := plus_us NOW 90000000; fo_size_decimals := 3; fo_market_data_available := true |}.
Definition snapshot_with (primary hedge : decimal) : HedgeSnapshot :=
  {| hs_primary_position := position "0xAaa" primary; hs_hedge_account := account hedge; hs_funding := funding |}.
Definition cycle_in (status : HedgeCycleStatus) : HedgeCycleState :=
  {| cs_cycle_key := "key"; cs_status := status; cs_symbol := "xyz:SKHX"; cs_primary_account_address := "0xAaa";
     cs_hedge_account_address := "0xBbb"; cs_settlement_at := plus_us NOW 90000000;
     cs_target_hedge_size := dec_of_Z (-100); cs_open_cloid := "0x01"; cs_close_cloid := "";
     cs_created_at := NOW; cs_updated_at := NOW; cs_network := "mainnet"; cs_hedge_account_kind := "subaccount";
     cs_actual_hedge_size := dec_of_Z (-100); cs_close_attempt_count := 0; cs_adjustment_count := 0;
     cs_pending_adjust_cloid := ""; cs_pre_adjust_hedge_size := ZERO; cs_open_submitted_at := None;
     cs_close_submitted_at := None; cs_adjust_submitted_at := None; cs_funding_confirmed_at := None;
     cs_funding_delta_usd := None; cs_last_error := "" |}.
Definition opening : HedgeSnapshot := snapshot_with (dec_of_Z 100) ZERO.
Definition hedged : HedgeSnapshot := snapshot_with (dec_of_Z 100) (dec_of_Z (-100)).
Definition shrunk : HedgeSnapshot := snapshot_with (dec_of_Z 60) (dec_of_Z (-100)).
Definition open_decision : HedgeDecision :=
  {| hd_snapshot := snapshot_with (dec_of_Z 100) ZERO; hd_action := OPEN_HEDGE;
     hd_reason := "temporary_independent_account_hedge_is_cost_effective"; hd_evaluated_at := NOW;
     hd_seconds_to_funding := Dec false 900 (-1); hd_target_hedge_size := Dec true 100000 (-3);
     hd_current_hedge_size := ZERO; hd_order_size_delta := Dec true 100000 (-3); hd_reduce_only := false;
     hd_estimated_primary_funding_debit_usd := Dec false 20000 (-3);
     hd_estimated_hedge_funding_credit_usd := Dec false 20000000 (-6);
     hd_estimated_round_trip_cost_usd := Dec false 20200000 (-7);
     hd_estimated_net_saving_usd := Dec false 179800000 (-7);
     hd_estimated_required_margin_usd := Dec false 10100000 (-3);
     hd_cycle_key := "mainnet:0xaaa:0xbbb:xyz:SKHX:1783688400000" |}.
Lemma opens : evaluate config opening NOW None = Ok open_decision.
Proof. vm_compute. reflexivity. Qed.
Lemma valid : validate_config raw_config = Ok config.
Proof. vm_compute. reflexivity. Qed.
End PolicyExample.

Lemma opens_exactly_when_every_guard_holds_witness :
  hd_order_size_delta PolicyExample.open_decision = hd_target_hedge_size PolicyExample.open_decision /\
  hd_reduce_only PolicyExample.open_decision = false.
Proof.
  refine (proj2 (opens_exactly_when_every_guard_holds PolicyExample.config PolicyExample.opening PolicyExample.NOW None PolicyExample.open_decision
    PolicyExample.opens _ _) _); [vm_compute; reflexivity|vm_compute; split; [discriminate|reflexivity]|reflexivity].
Defined.

Lemma hedge_never_exceeds_its_caps_witness :
  let t := hd_target_hedge_size PolicyExample.open_decision in flat t = true \/ dec_leb (dec_abs t) (dec_of_Z 100) = true.
Proof.
  destruct (hedge_never_exceeds_its_caps PolicyExample.raw_config PolicyExample.config PolicyExample.opening PolicyExample.NOW None
    PolicyExample.open_decision PolicyExample.valid ltac:(vm_compute; reflexivity) PolicyExample.opens) as [H|(_ & _ & _ & H & _)];
    [left; exact H|right; exact H].
Defined.

Lemma orders_never_add_to_a_hedge_witness :
  exists d, evaluate PolicyExample.config PolicyExample.shrunk PolicyExample.NOW
    (Some (PolicyExample.cycle_in HEDGED)) = Ok d /\ hd_action d = ADJUST_HEDGE /\
    dec_leb (dec_abs (hd_order_size_delta d)) (dec_of_Z 100) = true.
Proof.
  destruct (evaluate PolicyExample.config PolicyExample.shrunk PolicyExample.NOW
    (Some (PolicyExample.cycle_in HEDGED))) as [d|e] eqn:E; [|vm_compute in E; discriminate E].
  assert (Ha : hd_action d = ADJUST_HEDGE) by (vm_compute in E; injection E as <-; reflexivity).
  exists d. split; [reflexivity|]. split; [exact Ha|].
  pose proof (orders_never_add_to_a_hedge PolicyExample.config PolicyExample.shrunk _ _ _ ltac:(vm_compute; reflexivity)
    ltac:(vm_compute; split; [discriminate|reflexivity]) E) as H.
  cbv zeta in H. rewrite Ha in H. destruct H as (_ & _ & _ & _ & H). exact H.
Defined.

Lemma tracked_hedge_is_let_out_witness :
  exists d, evaluate PolicyExample.config PolicyExample.hedged PolicyExample.NOW
    (Some (PolicyExample.cycle_in HEDGED)) = Ok d /\ hd_action d = WAIT_FOR_FUNDING /\
    instant PolicyExample.NOW < instant (cs_settlement_at (PolicyExample.cycle_in HEDGED)) + seconds 120.
Proof.
  destruct (evaluate PolicyExample.config PolicyExample.hedged PolicyExample.NOW
    (Some (PolicyExample.cycle_in HEDGED))) as [d|e] eqn:E; [|vm_compute in E; discriminate E].
  assert (Ha : hd_action d = WAIT_FOR_FUNDING) by (vm_compute in E; injection E as <-; reflexivity).
  exists d. split; [reflexivity|]. split; [exact Ha|].
  pose proof (tracked_hedge_is_let_out _ _ _ _ _ E ltac:(reflexivity) ltac:(reflexivity) ltac:(reflexivity)
    ltac:(reflexivity)) as H.
  cbv zeta in H. rewrite Ha in H. exact (proj2 (proj2 (proj2 (proj2 H)))).
Defined.

Lemma recovery_exactly_on_lost_track_witness :
  exists d, evaluate PolicyExample.config PolicyExample.hedged PolicyExample.NOW
    (Some (PolicyExample.cycle_in COMPLETED)) = Ok d /\ hd_action d = RECOVER.
Proof.
  destruct (evaluate PolicyExample.config PolicyExample.hedged PolicyExample.NOW
    (Some (PolicyExample.cycle_in COMPLETED))) as [d|e] eqn:E; [|vm_compute in E; discriminate E].
  exists d. split; [reflexivity|].
  apply (proj2 (recovery_exactly_on_lost_track _ _ _ _ _ E)). right. left. reflexivity.
Defined.

Lemma evaluate_is_total_witness :
  exists d, evaluate PolicyExample.config PolicyExample.opening PolicyExample.NOW None = Ok d.
Proof.
  apply (evaluate_is_total PolicyExample.raw_config PolicyExample.config PolicyExample.opening); vm_compute; reflexivity.
Defined.
