(* ===== verification/HedgeExecutor.v ===== *)
(** * HyperliquidHedgeExecutor: funding_fee_avoidance/executor.py

    The only code that submits orders.  The SDK, the key derivation and the clock
    are the section's parameters: an exchange object is the [Route] it was built
    with, every call on it is logged, and [respond] answers a call from the whole
    log, so the exchange may answer anything.  A call may raise; the exception
    leaves the calls already made in the log. *)
From Stdlib Require Import QArith.
From S2P Require Import Prelude PyStrings PyDict PyTime PyFloat PyFloatText PyDecimal PyJson HedgeModels HedgePolicy.
Local Open Scope string_scope.
Local Open Scope list_scope.
Local Open Scope Z_scope.

(** ** Reading a response *)
Section Responses.
  Variable float_repr : Q -> string.

(** The first non-empty string of a list, as the loops return it. *)
Fixpoint first_text (l : list string) : string :=
  match l with [] => "" | s :: l => if truthy s then s else first_text l end.
(** [str(payload.get(key, "") or "")] *)
Definition text_field (fields : list (string * Json)) (key : string) : string :=
  match dict_get fields key with
  | Some j => if truthy_json j then py_str float_repr j else ""
  | None => ""
  end.
Definition status_is_err (fields : list (string * Json)) : bool :=
  String.eqb (lower (text_field fields "status")) "err".
(** The [error] of an object, when it is a string with text. *)
Definition error_text (fields : list (string * Json)) : string :=
  match dict_get fields "error" with Some (JStr s) => strip s | _ => "" end.
(** [_exchange_error] *)
Fixpoint exchange_error (payload : Json) : string :=
  match payload with
  | JObject fields =>
      if status_is_err fields
      then py_str float_repr
             (or_json (dict_get fields "response") (or_json (dict_get fields "error") (JStr "exchange error")))
      else if truthy (error_text fields) then error_text fields
      else first_text (map (fun kv => exchange_error kv.2) fields)
  | JList l => first_text (map exchange_error l)
  | _ => ""
  end.
(** [_accepted_response] *)
Definition accepted_response (payload : Json) : bool :=
  match payload with
  | JObject fields => String.eqb (lower (strip (text_field fields "status"))) "ok" &&
                      negb (truthy (exchange_error payload))
  | _ => false
  end.

(** A payload that reports an error: an object with status [err] or an error text,
    at any depth. *)
Inductive Reports : Json -> Prop :=
  | reports_status fields : status_is_err fields = true -> Reports (JObject fields)
  | reports_error fields s : dict_get fields "error" = Some (JStr s) -> truthy (strip s) = true -> Reports (JObject fields)
  | reports_value fields k v : (k, v) ∈ fields -> Reports v -> Reports (JObject fields)
  | reports_item l v : v ∈ l -> Reports v -> Reports (JList l).

Lemma first_text_truthy l : truthy (first_text l) = true <-> exists s, s ∈ l /\ truthy s = true.
Proof.
  induction l as [|s l IH]; simpl; [split; [done|by intros (? & ?%elem_of_nil & _)]|].
  destruct (truthy s) eqn:E.
  - rewrite E. split; [|done]. intros _. exists s. split; [left|done].
  - rewrite IH. split; intros (s' & Hs & Ht); exists s'; (split; [|done]).
    + by right.
    + apply elem_of_cons in Hs as [->|Hs]; [congruence|done].
Qed.
Lemma truthy_iff s : truthy s = true <-> s <> "".
Proof. unfold truthy. rewrite negb_true_iff. apply String.eqb_neq. Qed.

Hypothesis float_repr_nonempty : forall q, float_repr q <> "".
Lemma or_json_truthy o j : truthy_json j = true -> truthy_json (or_json o j) = true.
Proof. intros Hj. unfold or_json. destruct o as [o|]; [|done]. by destruct (truthy_json o) eqn:E. Qed.
Lemma exchange_error_reports payload : truthy (exchange_error payload) = true <-> Reports payload.
Proof.
  induction payload as [j Hj|l IH|fields IH] using Json_nested_ind.
  - destruct j; try done; (split; [done|inversion 1]).
  - cbn [exchange_error]. rewrite first_text_truthy. rewrite Forall_forall in IH. split.
    + intros (s & Hs & Ht). apply list_elem_of_fmap in Hs as (v & -> & Hv). by apply (reports_item l v), IH.
    + inversion 1 as [| | |? v Hv Hr]; subst. exists (exchange_error v). split; [|by apply IH].
      apply list_elem_of_fmap. by exists v.
  - cbn [exchange_error]. rewrite Forall_forall in IH. destruct (status_is_err fields) eqn:Es.
    { split; [intros _; by apply reports_status|intros _].
      by apply truthy_iff, py_str_truthy, or_json_truthy, or_json_truthy. }
    destruct (truthy (error_text fields)) eqn:Ee.
    { rewrite Ee. split; [|done]. intros _. unfold error_text in Ee.
      destruct (dict_get fields "error") as [[]|] eqn:Eg; try done. by eapply reports_error. }
    rewrite first_text_truthy. split.
    + intros (s & Hs & Ht). apply list_elem_of_fmap in Hs as ([k v] & -> & Hv).
      apply (reports_value fields k v Hv). by apply (IH (k, v) Hv).
    + inversion 1 as [|? s Hg Ht|? k v Hv Hr|]; subst; [congruence| |].
      * unfold error_text in Ee. rewrite Hg in Ee. congruence.
      * exists (exchange_error v). split; [|by apply (IH (k, v) Hv)]. apply list_elem_of_fmap. by exists (k, v).
Qed.
End Responses.

(** ** The exchange object *)
(** The arguments an exchange is built with: the signer's address, the base URL and
    the keywords. *)
Record Route := {
  rt_signer : string; rt_base : string; rt_account_address : string; rt_perp_dexs : list string;
  rt_timeout : Z; rt_vault_address : option string }.
Inductive ExchangeCall :=
  | Connect (r : Route)
  | SetExpiresAfter (r : Route) (ms : Z)
  | UpdateLeverage (r : Route) (leverage : Z) (symbol : string) (is_cross : bool)
  | SlippagePrice (r : Route) (symbol : string) (is_buy : bool) (slippage : spec_float)
  | SubmitOrder (r : Route) (symbol : string) (is_buy : bool) (size price : spec_float)
      (reduce_only : bool) (cloid : string).
Definition is_submit (c : ExchangeCall) : bool := match c with SubmitOrder _ _ _ _ _ _ _ => true | _ => false end.
Record Executor := { ex_exchange : option Route; ex_loaded_dexes : gset string; ex_calls : list ExchangeCall }.
Definition logged (c : ExchangeCall) (x : Executor) : Executor :=
  {| ex_exchange := ex_exchange x; ex_loaded_dexes := ex_loaded_dexes x; ex_calls := ex_calls x ++ [c] |}.

Record ExecutionResult := {
  er_accepted : bool; er_requested_size : decimal; er_reported_filled_size : decimal; er_raw : Json;
  er_error : string }.

(** The environment of an executor. *)
Record World := {
  w_base : string;                                  (* reader.base *)
  w_reader_address : string;                        (* getattr(reader, account_address) *)
  w_secret : option string;                         (* FUNDING_HEDGE_SECRET_KEY *)
  w_wallet_factory : option (string -> result string);    (* the address of the wallet made *)
  w_eth_account : option (string -> result string);       (* None when it cannot be imported *)
  w_exchange_factory : option (Route -> result unit);
  w_sdk_exchange : option (Route -> result unit);
  w_time_ms : list ExchangeCall -> Z;               (* int(time.time() * 1000) *)
  w_respond : list ExchangeCall -> result Json;     (* the answer to the last call *)
  w_price : option (list ExchangeCall -> result spec_float);   (* None: no callable helper *)
  w_cloid : string -> result string;                (* Cloid.from_str *)
  w_float_repr : Q -> string;
  w_reported_fill : Json -> decimal }.

Section Operations.
  Variable config : StrategyConfig.
  Variable w : World.

(** [__init__] *)
Definition new_executor : result Executor :=
  let primary := or_else (cf_primary_account_address config) (w_reader_address w) in
  _ ← check (truthy primary && truthy (cf_hedge_account_address config))
        (ValueError "both primary and hedge account addresses are required");
  _ ← raise_when (String.eqb (lower primary) (lower (cf_hedge_account_address config)))
        (ValueError "executor cannot route orders to the primary account");
  Ok {| ex_exchange := None; ex_loaded_dexes := ∅; ex_calls := [] |}.

Definition sorted_dexes (s : gset string) : list string := (sorted_items (map (fun d => (d, tt)) (elements s))).*1.
Definition append_dex (dexes : list string) (dex : string) : list string :=
  if truthy dex && negb (bool_decide (dex ∈ dexes)) then dexes ++ [dex] else dexes.
Definition dexes_for (loaded : gset string) (required_dex : string) : list string :=
  let dexes := fold_left append_dex (sorted_dexes loaded) [""] in
  let dexes := fold_left append_dex (map (fun s => (split_execution_symbol s).1) (cf_symbols config)) dexes in
  append_dex dexes required_dex.
(** A factory of the configuration, or of an import that may fail. *)
Definition factory_or {A} (given imported : option A) (e : exn) : result A :=
  match given with
  | Some f => Ok f
  | None => match imported with Some f => Ok f | None => Raise e end
  end.
Definition route_for (signer : string) (dexes : list string) : Route :=
  {| rt_signer := signer; rt_base := w_base w; rt_account_address := cf_hedge_account_address config;
     rt_perp_dexs := dexes; rt_timeout := cf_http_timeout_seconds config;
     rt_vault_address := if String.eqb (cf_hedge_account_kind config) "subaccount"
                         then Some (cf_hedge_account_address config) else None |}.
(** The wallet and the exchange's constructor, before it is called. *)
Definition prepare_route (loaded : gset string) (required_dex : string) : result (Route * (Route -> result unit)) :=
  let secret := strip (default "" (w_secret w)) in
  _ ← check (truthy secret) (RuntimeError "FUNDING_HEDGE_SECRET_KEY is required for execution");
  wallet_factory ← factory_or (w_wallet_factory w) (w_eth_account w)
                     (RuntimeError "eth-account is required for execution");
  signer ← wallet_factory secret;
  _ ← raise_when (String.eqb (cf_hedge_account_kind config) "wallet" &&
                  negb (String.eqb (lower signer) (lower (cf_hedge_account_address config))))
        (RuntimeError "independent-wallet signer does not match FUNDING_HEDGE_ACCOUNT_ADDRESS");
  factory ← factory_or (w_exchange_factory w) (w_sdk_exchange w)
              (RuntimeError "hyperliquid-python-sdk is required for execution");
  Ok (route_for signer (dexes_for loaded required_dex), factory).
Definition connected (r : Route) (x : Executor) : Executor :=
  {| ex_exchange := Some r; ex_loaded_dexes := list_to_set (rt_perp_dexs r); ex_calls := ex_calls x |}.
Definition connect (required_dex : string) : io Executor Route :=
  loaded ← read ex_loaded_dexes;
  prepared ← lift (prepare_route loaded required_dex);
  let '(r, factory) := prepared in
  _ ← modify (logged (Connect r));
  _ ← lift (factory r);
  _ ← modify (connected r);
  mret r.
(** [_ensure_exchange] *)
Definition ensure_exchange (required_symbol : string) : io Executor Route := fun x =>
  let required_dex := (split_execution_symbol required_symbol).1 in
  match ex_exchange x with
  | Some r => if bool_decide (required_dex ∈ ex_loaded_dexes x) then (x, Ok r) else connect required_dex x
  | None => connect required_dex x
  end.

(** [_validate_order] *)
Definition validate_order (symbol : string) (size : decimal) (cloid : string) (require_allowlisted : bool)
    : result string :=
  let canonical := canonicalize_execution_symbol symbol in
  _ ← raise_when (require_allowlisted && negb (bool_decide (canonical ∈ cf_symbols config)))
        (ValueError ("symbol " +:+ repr_str canonical +:+ " is not in FUNDING_HEDGE_SYMBOLS"));
  _ ← raise_when (dec_leb size ZERO) (ValueError "order size must be positive");
  _ ← check (startswith cloid "0x" && Nat.eqb (String.length cloid) 34)
        (ValueError "cloid must be a 16-byte 0x-prefixed hex string");
  Ok canonical.

(** A call on the exchange: logged, then answered. *)
Definition invoke (c : ExchangeCall) : io Executor Json := fun x =>
  (logged c x, w_respond w (ex_calls (logged c x))).
(** [_deadline_ms] *)
Definition deadline_ms (submit_deadline : datetime) : result Z :=
  _ ← check (aware submit_deadline) (ValueError "submit_deadline must include a timezone");
  Ok (timestamp_ms (instant submit_deadline)).
(** The expiry an action sent at [now_ms] gets. *)
Definition expiry_ms (now_ms : Z) (submit_deadline : option datetime) : result Z :=
  let expiry := now_ms + cf_action_expiry_seconds config * 1000 in
  match submit_deadline with
  | None => Ok expiry
  | Some t =>
      d ← deadline_ms t;
      _ ← raise_when (d <=? now_ms) (RuntimeError "hedge open deadline has already passed");
      Ok (Z.min expiry d)
  end.
(** [_set_action_expiry] *)
Definition set_action_expiry (r : Route) (submit_deadline : option datetime) : io Executor unit :=
  now_ms ← read (fun x => w_time_ms w (ex_calls x));
  ms ← lift (expiry_ms now_ms submit_deadline);
  _ ← invoke (SetExpiresAfter r ms);
  mret tt.
(** [_aggressive_ioc_price] *)
Definition aggressive_ioc_price (r : Route) (symbol : string) (is_buy : bool) : io Executor spec_float :=
  match w_price w with
  | None => lift (Raise (RuntimeError "installed Hyperliquid SDK does not expose the required IOC price helper"))
  | Some price => fun x =>
      let x := logged (SlippagePrice r symbol is_buy (float_of_decimal (cf_max_order_slippage config))) x in
      (x, price (ex_calls x))
  end.
(** The end of both operations: read the answer to the order. *)
Definition order_result (raw : Json) (requested : decimal) (unrecognized : string) : result ExecutionResult :=
  let error := exchange_error (w_float_repr w) raw in
  let accepted := accepted_response (w_float_repr w) raw in
  _ ← raise_when (negb accepted && negb (truthy error)) (RuntimeError unrecognized);
  Ok {| er_accepted := accepted; er_requested_size := requested;
        er_reported_filled_size := w_reported_fill w raw; er_raw := raw; er_error := error |}.

(** [open_hedge] *)
Definition open_hedge (symbol : string) (signed_size : decimal) (cloid : string) (submit_deadline : datetime)
    : io Executor ExecutionResult :=
  canonical ← lift (validate_order symbol (dec_abs signed_size) cloid true);
  r ← ensure_exchange canonical;
  _ ← set_action_expiry r (Some submit_deadline);
  leverage_result ← invoke (UpdateLeverage r (to_Z_trunc (cf_assumed_hedge_leverage config)) canonical
                              (String.eqb (cf_hedge_margin_mode config) "cross"));
  _ ← lift (check (accepted_response (w_float_repr w) leverage_result)
              (RuntimeError ("failed to set hedge leverage/margin mode: " +:+
                 or_else (exchange_error (w_float_repr w) leverage_result) "unrecognized exchange response")));
  let is_buy := dec_ltb ZERO signed_size in
  limit_price ← aggressive_ioc_price r canonical is_buy;
  _ ← set_action_expiry r (Some submit_deadline);
  c ← lift (w_cloid w cloid);
  raw ← invoke (SubmitOrder r canonical is_buy (float_of_decimal (dec_abs signed_size)) limit_price false c);
  lift (order_result raw (dec_abs signed_size) "unrecognized exchange response after hedge open").
(** [close_hedge] *)
Definition close_hedge (symbol : string) (current_signed_size size : decimal) (cloid : string)
    : io Executor ExecutionResult :=
  _ ← lift (raise_when (dec_eqb current_signed_size ZERO)
              (ValueError "current_signed_size must be non-zero for reduce-only close"));
  canonical ← lift (validate_order symbol size cloid false);
  r ← ensure_exchange canonical;
  let is_buy := dec_ltb current_signed_size ZERO in
  limit_price ← aggressive_ioc_price r canonical is_buy;
  _ ← set_action_expiry r None;
  c ← lift (w_cloid w cloid);
  raw ← invoke (SubmitOrder r canonical is_buy (float_of_decimal size) limit_price true c);
  lift (order_result raw size "unrecognized exchange response after hedge close").

(** What the coordinator asks of an executor. *)
Inductive Order :=
  | OpenOrder (symbol : string) (signed_size : decimal) (cloid : string) (submit_deadline : datetime)
  | CloseOrder (symbol : string) (current_signed_size size : decimal) (cloid : string).
Definition run_order (o : Order) : io Executor ExecutionResult :=
  match o with
  | OpenOrder symbol size cloid t => open_hedge symbol size cloid t
  | CloseOrder symbol current size cloid => close_hedge symbol current size cloid
  end.

(** ** Every call goes to the hedge account *)
Definition call_route (c : ExchangeCall) : Route :=
  match c with
  | Connect r | SetExpiresAfter r _ | UpdateLeverage r _ _ _ | SlippagePrice r _ _ _
  | SubmitOrder r _ _ _ _ _ _ => r
  end.
Definition bound_to_hedge (r : Route) : Prop :=
  rt_account_address r = cf_hedge_account_address config /\
  rt_vault_address r = (if String.eqb (cf_hedge_account_kind config) "subaccount"
                        then Some (cf_hedge_account_address config) else None) /\
  (cf_hedge_account_kind config = "wallet" ->
     lower (rt_signer r) = lower (cf_hedge_account_address config)).
Definition bound (x : Executor) : Prop :=
  Forall (fun c => bound_to_hedge (call_route c)) (ex_calls x) /\
  (forall r, ex_exchange x = Some r -> bound_to_hedge r).
(** Any sequence of orders from a new executor. *)
Inductive reachable : Executor -> Prop :=
  | reachable_new x : new_executor = Ok x -> reachable x
  | reachable_order x o : reachable x -> reachable (run_order o x).1.

Lemma prepare_route_bound loaded dex r factory :
  prepare_route loaded dex = Ok (r, factory) -> bound_to_hedge r.
Proof.
  intros H. unfold prepare_route in H. cbv zeta in H. inv_ok H. simplify_eq. inv_checks.
  split; [done|]. split; [done|]. intros Hk. cbn. rewrite Hk in *. cbn in *.
  match goal with H : negb (String.eqb _ _) = false |- _ => apply negb_false_iff, String.eqb_eq in H end. done.
Qed.
Lemma logged_bound c x : bound_to_hedge (call_route c) -> bound x -> bound (logged c x).
Proof. intros Hc [H1 H2]. split; [|done]. apply Forall_app. auto. Qed.
Lemma invoke_bound c : bound_to_hedge (call_route c) -> keeps bound (invoke c) (fun _ => True).
Proof. intros Hc x Hx. split; [by apply logged_bound|done]. Qed.
Lemma ensure_exchange_bound symbol : keeps bound (ensure_exchange symbol) bound_to_hedge.
Proof.
  assert (Hconnect : forall dex, keeps bound (connect dex) bound_to_hedge).
  { intros dex. unfold connect. eapply keeps_bind; [apply keeps_read|]. intros loaded _.
    eapply (keeps_bind _ _ _ (fun p => bound_to_hedge p.1)).
    { apply keeps_lift. intros [r f] Hp. by eapply prepare_route_bound. }
    intros [r factory] Hr. cbn in Hr. eapply keeps_bind.
    { apply keeps_modify. intros x. by apply logged_bound. }
    intros _ _. eapply keeps_bind; [by apply (keeps_lift _ _ (fun _ => True))|]. intros _ _.
    eapply keeps_bind; [|intros; by apply keeps_ret]. apply keeps_modify.
    intros x [H1 H2]. split; [done|]. by intros ? [= <-]. }
  intros x Hx. unfold ensure_exchange. cbv zeta. destruct (ex_exchange x) as [r|] eqn:E; [|by apply Hconnect].
  case_bool_decide; [|by apply Hconnect]. split; [done|]. intros ? [= <-]. by apply Hx.
Qed.
Lemma set_action_expiry_bound r t : bound_to_hedge r -> keeps bound (set_action_expiry r t) (fun _ => True).
Proof.
  intros Hr. unfold set_action_expiry. eapply keeps_bind; [apply keeps_read|]. intros now _.
  eapply keeps_bind; [by apply (keeps_lift _ _ (fun _ => True))|]. intros ms _.
  eapply keeps_bind; [by apply invoke_bound|]. intros. by apply keeps_ret.
Qed.
Lemma aggressive_ioc_price_bound r symbol is_buy :
  bound_to_hedge r -> keeps bound (aggressive_ioc_price r symbol is_buy) (fun _ => True).
Proof.
  intros Hr. unfold aggressive_ioc_price. destruct (w_price w); [|by apply keeps_lift].
  intros x Hx. split; [by apply logged_bound|done].
Qed.
Ltac keeps_bound :=
  repeat first
    [ eapply keeps_bind;
      [first [apply ensure_exchange_bound | apply set_action_expiry_bound; assumption
             | apply aggressive_ioc_price_bound; assumption | apply invoke_bound; assumption
             | apply (keeps_lift _ _ (fun _ => True)); done]|]; intros ? ?; cbv zeta
    | apply (keeps_lift _ _ (fun _ => True)); done ].
Lemma run_order_bound o : keeps bound (run_order o) (fun _ => True).
Proof. destruct o; simpl; [unfold open_hedge|unfold close_hedge]; keeps_bound. Qed.

(** ** What is submitted, and when *)
(** [x'] has more calls than [x], none of which submits an order. *)
Definition quietly (x x' : Executor) : Prop :=
  exists q, ex_calls x' = ex_calls x ++ q /\ Forall (fun c => is_submit c = false) q.
Lemma quietly_refl x : quietly x x.
Proof. exists []. by rewrite app_nil_r. Qed.
Lemma quietly_trans x y z : quietly x y -> quietly y z -> quietly x z.
Proof. intros (q & Hy & Hq) (q' & Hz & Hq'). exists (q ++ q'). rewrite Hz, Hy, (assoc_L (++)), Forall_app. done. Qed.
Lemma quietly_logged c x : is_submit c = false -> quietly x (logged c x).
Proof. intros Hc. exists [c]. repeat constructor. done. Qed.
Lemma ensure_exchange_quiet symbol x x' res : ensure_exchange symbol x = (x', res) -> quietly x x'.
Proof.
  assert (Hc : forall dex x x' res, connect dex x = (x', res) -> quietly x x').
  { clear. intros dex x x' res. unfold connect, mbind, io_bind, read, lift, modify. cbn.
    destruct (prepare_route _ _) as [[r f]|e]; [|intros [= <- _]; apply quietly_refl]. cbn.
    destruct (f r); intros [= <- _]; by apply (quietly_logged (Connect r)). }
  unfold ensure_exchange. cbv zeta. destruct (ex_exchange x); [|apply Hc].
  case_bool_decide; [|apply Hc]. intros [= <- _]. apply quietly_refl.
Qed.
Lemma aggressive_ioc_price_quiet r s b x x' res : aggressive_ioc_price r s b x = (x', res) -> quietly x x'.
Proof.
  unfold aggressive_ioc_price. destruct (w_price w); intros [= <- _]; [by apply quietly_logged|apply quietly_refl].
Qed.
Lemma set_action_expiry_spec r t x x' res :
  set_action_expiry r t x = (x', res) ->
  quietly x x' /\
  (res = Ok tt -> exists ms, ex_calls x' = ex_calls x ++ [SetExpiresAfter r ms] /\
     expiry_ms (w_time_ms w (ex_calls x)) t = Ok ms).
Proof.
  unfold set_action_expiry, mbind, io_bind, read, lift. cbn.
  destruct (expiry_ms _ _) as [ms|e]; cbn; [|intros [= <- <-]; split; [apply quietly_refl|done]].
  destruct (w_respond w _); intros [= <- <-]; (split; [by apply quietly_logged|]); [|done].
  intros _. by exists ms.
Qed.
Lemma invoke_quiet c x x' res : invoke c x = (x', res) -> is_submit c = false -> quietly x x'.
Proof. intros [= <- _] Hc. by apply quietly_logged. Qed.

Definition order_symbol (o : Order) : string :=
  canonicalize_execution_symbol (match o with OpenOrder s _ _ _ | CloseOrder s _ _ _ => s end).
Definition order_size (o : Order) : decimal :=
  match o with OpenOrder _ size _ _ => dec_abs size | CloseOrder _ _ size _ => size end.
Definition order_is_buy (o : Order) : bool :=
  match o with OpenOrder _ size _ _ => dec_ltb ZERO size | CloseOrder _ current _ _ => dec_ltb current ZERO end.
Definition order_reduce_only (o : Order) : bool :=
  match o with OpenOrder _ _ _ _ => false | CloseOrder _ _ _ _ => true end.
Definition order_cloid (o : Order) : string :=
  match o with OpenOrder _ _ c _ | CloseOrder _ _ _ c => c end.
Definition order_deadline (o : Order) : option datetime :=
  match o with OpenOrder _ _ _ t => Some t | CloseOrder _ _ _ _ => None end.
Definition unrecognized (o : Order) : string :=
  match o with
  | OpenOrder _ _ _ _ => "unrecognized exchange response after hedge open"
  | CloseOrder _ _ _ _ => "unrecognized exchange response after hedge close"
  end.
Definition submission (o : Order) (r : Route) (price : spec_float) (c : string) : ExchangeCall :=
  SubmitOrder r (order_symbol o) (order_is_buy o) (float_of_decimal (order_size o)) price (order_reduce_only o) c.
(** The leverage of this route was set, and accepted, earlier in the log. *)
Definition leverage_accepted (o : Order) (r : Route) (calls : list ExchangeCall) : Prop :=
  exists before after raw,
    let set := UpdateLeverage r (to_Z_trunc (cf_assumed_hedge_leverage config)) (order_symbol o)
                 (String.eqb (cf_hedge_margin_mode config) "cross") in
    calls = before ++ set :: after /\ w_respond w (before ++ [set]) = Ok raw /\
    accepted_response (w_float_repr w) raw = true.

Lemma expiry_ms_Ok now t ms :
  expiry_ms now t = Ok ms ->
  ms <= now + cf_action_expiry_seconds config * 1000 /\
  forall d, t = Some d -> aware d = true /\ now < timestamp_ms (instant d) /\ ms <= timestamp_ms (instant d).
Proof.
  unfold expiry_ms, deadline_ms. cbv zeta. destruct t as [d|]; intros H.
  - apply bind_Ok in H as (dl & H1 & H). apply bind_Ok in H1 as (? & Ha & H1). inv_ok H. inv_checks. subst. to_prop.
    split; [lia|]. intros ? [= <-]. split; [done|]. lia.
  - injection H as <-. split; [lia|done].
Qed.
Lemma validate_order_Ok symbol size cloid allow c :
  validate_order symbol size cloid allow = Ok c ->
  c = canonicalize_execution_symbol symbol /\ dec_ltb ZERO size = true /\ (allow = true -> c ∈ cf_symbols config).
Proof.
  intros H. unfold validate_order in H. cbv zeta in H. inv_ok H. inv_checks. subst c. split; [done|].
  split; [by apply dec_leb_not_ltb|]. intros ->. cbn in *. by to_prop.
Qed.

(** Stopped before the order, with an exception; or the order went out. *)
Definition halted (x x' : Executor) (res : result ExecutionResult) : Prop :=
  quietly x x' /\ exists e, res = Raise e.
Definition went_out (o : Order) (x x' : Executor) (res : result ExecutionResult) : Prop :=
  exists x1 r ms price c,
    quietly x x1 /\ ex_calls x' = ex_calls x1 ++ [SetExpiresAfter r ms; submission o r price c] /\
    dec_ltb ZERO (order_size o) = true /\ w_cloid w (order_cloid o) = Ok c /\
    expiry_ms (w_time_ms w (ex_calls x1)) (order_deadline o) = Ok ms /\
    (order_reduce_only o = false ->
       order_symbol o ∈ cf_symbols config /\ leverage_accepted o r (ex_calls x1)) /\
    res = (raw ← w_respond w (ex_calls x'); order_result raw (order_size o) (unrecognized o)).

(** One step of an operation: it stops here, or goes on in the next state. *)
Lemma stopped_or_next {A} (m : io Executor A) (f : A -> io Executor ExecutionResult) x0 x x' res :
  (m ≫= f) x = (x', res) -> quietly x0 x ->
  (forall x1 a, m x = (x1, Ok a) -> quietly x0 x1) -> (forall x1 e, m x = (x1, Raise e) -> quietly x0 x1) ->
  halted x0 x' res \/ exists x1 a, m x = (x1, Ok a) /\ quietly x0 x1 /\ f a x1 = (x', res).
Proof.
  intros H Hq H1 H2. apply io_bind_inv in H as [(x1 & a & Hm & Hf)|(e & Hm & ->)]; [right|left]; eauto 10.
  split; eauto.
Qed.
(** The last two calls. *)
Lemma final_calls o r x0 x1 x2 x' res price :
  quietly x0 x1 ->
  set_action_expiry r (order_deadline o) x1 = (x2, Ok tt) ->
  (c ← lift (w_cloid w (order_cloid o));
   raw ← invoke (submission o r price c);
   lift (order_result raw (order_size o) (unrecognized o))) x2 = (x', res) ->
  dec_ltb ZERO (order_size o) = true ->
  (order_reduce_only o = false -> order_symbol o ∈ cf_symbols config /\ leverage_accepted o r (ex_calls x1)) ->
  halted x0 x' res \/ went_out o x0 x' res.
Proof.
  intros Hq He H Hs Ho. destruct (set_action_expiry_spec _ _ _ _ _ He) as [Hq2 Hms].
  destruct (Hms eq_refl) as (ms & Hx2 & Hexp). clear Hms.
  unfold mbind, io_bind, lift, invoke in H. destruct (w_cloid w (order_cloid o)) as [c|e] eqn:Ec.
  2: { injection H as <- <-. left. split; [by eapply quietly_trans|eauto]. }
  right. exists x1, r, ms, price, c.
  assert (Hcalls : ex_calls (logged (submission o r price c) x2) =
            ex_calls x1 ++ [SetExpiresAfter r ms; submission o r price c]).
  { cbn. by rewrite Hx2, <- (assoc_L (++)). }
  destruct (w_respond w (ex_calls (logged (submission o r price c) x2))) as [raw|e] eqn:Er; injection H as <- <-;
    (split_and!; try done); by rewrite Er.
Qed.

Lemma lift_step {A} (r : result A) (f : A -> io Executor ExecutionResult) x0 x x' res :
  (lift r ≫= f) x = (x', res) -> quietly x0 x ->
  halted x0 x' res \/ exists a, r = Ok a /\ f a x = (x', res).
Proof.
  intros H Hq. unfold mbind, io_bind, lift in H. destruct r as [a|e]; [right; eauto|].
  injection H as <- <-. left. split; eauto.
Qed.
Lemma expiry_step r t (f : unit -> io Executor ExecutionResult) x0 x x' res :
  (set_action_expiry r t ≫= f) x = (x', res) -> quietly x0 x ->
  halted x0 x' res \/ exists x1, set_action_expiry r t x = (x1, Ok tt) /\ quietly x0 x1 /\ f tt x1 = (x', res).
Proof.
  intros H Hq.
  assert (Hx : forall x1 v, set_action_expiry r t x = (x1, v) -> quietly x0 x1).
  { intros x1 v E. eapply quietly_trans; [done|]. by eapply set_action_expiry_spec. }
  destruct (stopped_or_next _ _ _ _ _ _ H Hq ltac:(eauto) ltac:(eauto)) as [|(x1 & [] & ? & ? & ?)]; eauto 10.
Qed.
Lemma close_outcome symbol current size cloid x x' res :
  close_hedge symbol current size cloid x = (x', res) ->
  let o := CloseOrder symbol current size cloid in halted x x' res \/ went_out o x x' res.
Proof.
  intros H o. unfold close_hedge in H. pose proof (quietly_refl x) as Hq.
  destruct (lift_step _ _ _ _ _ _ H Hq) as [|(? & _ & H1)]; [by left|]. clear H.
  destruct (lift_step _ _ _ _ _ _ H1 Hq) as [|(c & Hc & H2)]; [by left|]. clear H1.
  apply validate_order_Ok in Hc as (-> & Hs & _).
  destruct (stopped_or_next _ _ _ _ _ _ H2 Hq ltac:(eauto using ensure_exchange_quiet)
    ltac:(eauto using ensure_exchange_quiet)) as [|(x1 & r & _ & Hq1 & H3)]; [by left|]. clear H2.
  cbv zeta in H3.
  destruct (stopped_or_next _ _ _ _ _ _ H3 Hq1
    ltac:(eauto using quietly_trans, aggressive_ioc_price_quiet)
    ltac:(eauto using quietly_trans, aggressive_ioc_price_quiet)) as [|(x2 & price & _ & Hq2 & H4)]; [by left|]. clear H3.
  destruct (expiry_step _ _ _ _ _ _ _ H4 Hq2) as [|(x3 & He & Hq3 & H5)]; [by left|].
  by eapply (final_calls o r x x2 x3).
Qed.
Lemma open_outcome symbol size cloid t x x' res :
  open_hedge symbol size cloid t x = (x', res) ->
  let o := OpenOrder symbol size cloid t in halted x x' res \/ went_out o x x' res.
Proof.
  intros H o. unfold open_hedge in H. pose proof (quietly_refl x) as Hq.
  destruct (lift_step _ _ _ _ _ _ H Hq) as [|(c & Hc & H1)]; [by left|]. clear H.
  apply validate_order_Ok in Hc as (-> & Hs & Hallow). specialize (Hallow eq_refl).
  destruct (stopped_or_next _ _ _ _ _ _ H1 Hq ltac:(eauto using ensure_exchange_quiet)
    ltac:(eauto using ensure_exchange_quiet)) as [|(x1 & r & _ & Hq1 & H2)]; [by left|]. clear H1.
  destruct (expiry_step _ _ _ _ _ _ _ H2 Hq1) as [|(x2 & _ & Hq2 & H3)]; [by left|]. clear H2.
  set (set := UpdateLeverage _ _ _ _) in H3.
  assert (Hset : forall x3 v, invoke set x2 = (x3, v) -> quietly x x3).
  { intros x3 v E. eapply quietly_trans; [done|]. by eapply invoke_quiet. }
  destruct (stopped_or_next _ _ _ _ _ _ H3 Hq2 ltac:(eauto) ltac:(eauto)) as [|(x3 & raw & Hx3 & Hq3 & H4)]; [by left|]. clear H3.
  destruct (lift_step _ _ _ _ _ _ H4 Hq3) as [|(u & Hacc & H5)]; [by left|]. apply check_Ok in Hacc. clear H4.
  cbv zeta in H5.
  destruct (stopped_or_next _ _ _ _ _ _ H5 Hq3
    ltac:(eauto using quietly_trans, aggressive_ioc_price_quiet)
    ltac:(eauto using quietly_trans, aggressive_ioc_price_quiet)) as [|(x4 & price & Hp & Hq4 & H6)]; [by left|]. clear H5.
  destruct (expiry_step _ _ _ _ _ _ _ H6 Hq4) as [|(x5 & He & Hq5 & H7)]; [by left|].
  eapply (final_calls o r x x4 x5); try done. intros _. split; [exact Hallow|].
  apply aggressive_ioc_price_quiet in Hp as (after & Hcalls & _). injection Hx3 as <- Hresp.
  exists (ex_calls x2), after, raw. split; [|done]. rewrite Hcalls. cbn. by rewrite <- (assoc_L (++)).
Qed.
End Operations.

(** ** Properties *)
(** An exchange response counts as an error exactly when some object in it, at
    any depth, has status [err] or an [error] text; it is accepted exactly when it is
    an object of status [ok] without such a report. *)
Theorem responses_are_read_to_any_depth float_repr payload :
  (forall q, float_repr q <> "") ->
  (exchange_error float_repr payload <> "" <-> Reports float_repr payload) /\
  (accepted_response float_repr payload = true <->
     ~ Reports float_repr payload /\
     exists fields, payload = JObject fields /\ lower (strip (text_field float_repr fields "status")) = "ok").
Proof.
  intros Hf. pose proof (exchange_error_reports float_repr Hf payload) as H.
  split; [by rewrite <- truthy_iff|]. unfold accepted_response.
  destruct payload; try (split; [done|by intros (_ & ? & ? & _)]).
  rewrite andb_true_iff, negb_true_iff, String.eqb_eq, <- not_true_iff_false, H. naive_solver.
Qed.

(** Whatever orders an executor is asked for and however the exchange answers,
    every exchange it builds and every call it makes is for the hedge account: by the
    vault address for a subaccount, by a signer that is the account for a wallet; and
    an executor exists only when that account is not the primary one. *)
Theorem every_call_is_for_the_hedge_account config w x :
  reachable config w x ->
  Forall (fun c => bound_to_hedge config (call_route c)) (ex_calls x) /\
  lower (or_else (cf_primary_account_address config) (w_reader_address w)) <> lower (cf_hedge_account_address config).
Proof.
  intros H. cut (bound config x /\
    lower (or_else (cf_primary_account_address config) (w_reader_address w)) <> lower (cf_hedge_account_address config)).
  { intros [[? _] ?]. done. }
  induction H as [x H|x o _ [IH Hne]].
  - unfold new_executor in H. inv_ok H. inv_checks. subst x. split; [by repeat constructor|]. by apply String.eqb_neq.
  - split; [|done]. by apply run_order_bound.
Qed.

(** C10. An order request either stops with an exception before anything is submitted,
    or submits exactly one order, as its last call, immediately after its expiry was
    set: with the requested side and a positive size, reduce-only exactly for a
    close, expiring by the deadline, which has not passed, and for an open on an
    allowed symbol whose leverage the exchange accepted on the same route.  The
    result is the reading of the answer to that call. *)
Theorem orders_are_submitted_once_and_guarded config w o x x' res :
  run_order config w o x = (x', res) ->
  (quietly x x' /\ exists e, res = Raise e) \/
  exists x1 r ms price c,
    quietly x x1 /\ ex_calls x' = ex_calls x1 ++ [SetExpiresAfter r ms; submission o r price c] /\
    dec_ltb ZERO (order_size o) = true /\ w_cloid w (order_cloid o) = Ok c /\
    ms <= w_time_ms w (ex_calls x1) + cf_action_expiry_seconds config * 1000 /\
    (forall t, order_deadline o = Some t ->
       w_time_ms w (ex_calls x1) < timestamp_ms (instant t) /\ ms <= timestamp_ms (instant t)) /\
    (order_reduce_only o = false ->
       order_symbol o ∈ cf_symbols config /\ leverage_accepted config w o r (ex_calls x1)) /\
    res = (raw ← w_respond w (ex_calls x'); order_result w raw (order_size o) (unrecognized o)).
Proof.
  intros H. assert (Ho : halted x x' res \/ went_out config w o x x' res).
  { destruct o; [by eapply open_outcome|by eapply close_outcome]. }
  destruct Ho as [Ho|(x1 & r & ms & price & c & H1 & H2 & H3 & H4 & H5 & H6 & H7)]; [by left|right].
  apply expiry_ms_Ok in H5 as [H5 H5']. exists x1, r, ms, price, c. split_and!; try done.
  intros t Ht. by destruct (H5' t Ht).
Qed.

(** ** A concrete exchange *)
Module ExecutorExample.
(** An exchange that fills every order, a clock a minute before the deadline. *)
Definition filled : Json :=
  JObject [("status", JStr "ok"); ("response", JObject [("data", JList [JObject [("filled", JStr "100")]])])].
Definition world : World :=
  {| w_base := "https://api.hyperliquid.xyz"; w_reader_address := "0xAaa"; w_secret := Some " key ";
     w_wallet_factory := Some (fun _ => Ok "0xBBB"); w_eth_account := None;
     w_exchange_factory := Some (fun _ => Ok tt); w_sdk_exchange := None;
     w_time_ms := fun _ => 1783688340000; w_respond := fun _ => Ok filled;
     w_price := Some (fun _ => Ok (float_of_decimal (dec_of_Z 100))); w_cloid := Ok; w_float_repr := fun _ => "0.0";
     w_reported_fill := fun _ => dec_of_Z 100 |}.
Definition cloid : string := "0x00000000000000000000000000000001".
Definition deadline : datetime := utc 1783688400000000.
Definition order : Order := OpenOrder "xyz:SKHX" (dec_of_Z (-100)) cloid deadline.
Definition fresh : Executor := {| ex_exchange := None; ex_loaded_dexes := ∅; ex_calls := [] |}.
Definition route : Route := route_for PolicyExample.config world "0xBBB" [""; "xyz"].
Definition after_open : Executor := (run_order PolicyExample.config world order fresh).1.
Example open_calls : ex_calls after_open =
  [Connect route; SetExpiresAfter route 1783688355000; UpdateLeverage route 1 "xyz:SKHX" true;
   SlippagePrice route "xyz:SKHX" false (float_of_decimal (Dec false 2 (-3)));
   SetExpiresAfter route 1783688355000;
   SubmitOrder route "xyz:SKHX" false (float_of_decimal (dec_of_Z 100)) (float_of_decimal (dec_of_Z 100)) false cloid].
Proof. vm_compute. reflexivity. Qed.
Lemma after_open_reachable : reachable PolicyExample.config world after_open.
Proof. apply reachable_order, reachable_new. vm_compute. reflexivity. Qed.
End ExecutorExample.

Lemma responses_are_read_to_any_depth_witness :
  exchange_error (fun _ => "0.0") (JObject [("status", JStr "ok"); ("a", JList [JObject [("error", JStr " x ")]])]) <> "".
Proof.
  apply (proj2 (proj1 (responses_are_read_to_any_depth (fun _ => "0.0")
    (JObject [("status", JStr "ok"); ("a", JList [JObject [("error", JStr " x ")]])]) ltac:(discriminate)))).
  apply (reports_value _ _ "a" (JList [JObject [("error", JStr " x ")]])); [right; left|].
  apply (reports_item _ _ (JObject [("error", JStr " x ")])); [left|].
  apply (reports_error _ _ " x "); reflexivity.
Defined.

Lemma every_call_is_for_the_hedge_account_witness :
  Forall (fun c => bound_to_hedge PolicyExample.config (call_route c)) (ex_calls ExecutorExample.after_open).
Proof.
  exact (proj1 (every_call_is_for_the_hedge_account PolicyExample.config ExecutorExample.world
    ExecutorExample.after_open ExecutorExample.after_open_reachable)).
Defined.

Lemma orders_are_submitted_once_and_guarded_witness :
  exists x1 r ms price c,
    quietly ExecutorExample.fresh x1 /\
    ex_calls ExecutorExample.after_open =
      ex_calls x1 ++ [SetExpiresAfter r ms; submission ExecutorExample.order r price c] /\
    ms <= 1783688400000.
Proof.
  destruct (orders_are_submitted_once_and_guarded PolicyExample.config ExecutorExample.world ExecutorExample.order
    ExecutorExample.fresh ExecutorExample.after_open
    (run_order PolicyExample.config ExecutorExample.world ExecutorExample.order ExecutorExample.fresh).2)
    as [(_ & e & He)|(x1 & r & ms & price & c & H1 & H2 & _ & _ & _ & H3 & _)].
  - vm_compute. reflexivity.
  - vm_compute in He. discriminate He.
  - exists x1, r, ms, price, c. split; [exact H1|]. split; [exact H2|].
    exact (proj2 (H3 ExecutorExample.deadline eq_refl)).
Defined.
