(* ===== verification/HedgeCoordinator.v ===== *)
(** * HedgeCoordinator: funding_fee_avoidance/state_machine.py and state_store.py

    One polling iteration: the stored cycle is reconciled with the exchange, the
    policy decides, and at most one order is sent, inside a transaction on the cycle
    file.  The transaction is a state: the cycles in memory, the dirty flag, the file,
    the executor and the log of writes and submissions, so that what is on disk when
    an order leaves is part of every statement.  The digest behind a client order id,
    the executor and the writing of the file are the section's parameters. *)
From stdpp Require Import pretty.
From S2P Require Import Prelude PyStrings PyDict PyTime PyDecimal PyJson HedgeModels HedgePolicy HedgeExecutor.
Local Open Scope string_scope.
Local Open Scope list_scope.
Local Open Scope Z_scope.

(** ** [dataclasses.replace] on a cycle *)
Definition cycle_eta (c : HedgeCycleState) : HedgeCycleState := with_symbol c (cs_symbol c).
(** The record with one field replaced. *)
Ltac update p :=
  intros v c;
  let e := eval unfold cycle_eta, with_symbol in (cycle_eta c) in
  match (eval pattern (p c) in e) with
  | ?f _ => let e' := eval cbv beta in (f v) in exact e'
  end.
Definition set_status : HedgeCycleStatus -> HedgeCycleState -> HedgeCycleState := ltac:(update cs_status).
Definition set_updated_at : datetime -> HedgeCycleState -> HedgeCycleState := ltac:(update cs_updated_at).
Definition set_last_error : string -> HedgeCycleState -> HedgeCycleState := ltac:(update cs_last_error).
Definition set_actual : decimal -> HedgeCycleState -> HedgeCycleState := ltac:(update cs_actual_hedge_size).
Definition set_pending : string -> HedgeCycleState -> HedgeCycleState := ltac:(update cs_pending_adjust_cloid).
Definition set_pre_adjust : decimal -> HedgeCycleState -> HedgeCycleState := ltac:(update cs_pre_adjust_hedge_size).
Definition set_adjust_submitted_at : option datetime -> HedgeCycleState -> HedgeCycleState :=
  ltac:(update cs_adjust_submitted_at).
Definition set_open_submitted_at : option datetime -> HedgeCycleState -> HedgeCycleState :=
  ltac:(update cs_open_submitted_at).
Definition set_close_submitted_at : option datetime -> HedgeCycleState -> HedgeCycleState :=
  ltac:(update cs_close_submitted_at).
Definition set_confirmed_at : option datetime -> HedgeCycleState -> HedgeCycleState :=
  ltac:(update cs_funding_confirmed_at).
Definition set_funding_delta : option decimal -> HedgeCycleState -> HedgeCycleState :=
  ltac:(update cs_funding_delta_usd).
Definition set_close_cloid : string -> HedgeCycleState -> HedgeCycleState := ltac:(update cs_close_cloid).
Definition set_close_attempt_count : Z -> HedgeCycleState -> HedgeCycleState := ltac:(update cs_close_attempt_count).
Definition set_adjustment_count : Z -> HedgeCycleState -> HedgeCycleState := ltac:(update cs_adjustment_count).

Lemma validate_cycle_Ok c c' :
  validate_cycle c = Ok c' ->
  exists symbol, canonical_symbol (cs_symbol c) = Ok symbol /\ c' = with_symbol c symbol.
Proof. intros H. unfold validate_cycle in H. inv_ok H. subst c'. eauto. Qed.

(** ** The transaction *)
Abbreviation Cycles := (gmap string HedgeCycleState).
Inductive Effect :=
  | Wrote (cycles : Cycles)
  | Submitted (o : Order).
Record CycleTransaction (E : Type) := {
  tx_cycles : Cycles; tx_dirty : bool; tx_disk : Cycles; tx_executor : E; tx_log : list Effect }.
Arguments tx_cycles {E}. Arguments tx_dirty {E}. Arguments tx_disk {E}.
Arguments tx_executor {E}. Arguments tx_log {E}.

Record CoordinatorResult := {
  co_decision : HedgeDecision; co_cycle : option HedgeCycleState;
  co_execution : option ExecutionResult; co_execution_error : string }.
Definition plain (d : HedgeDecision) (c : option HedgeCycleState) : CoordinatorResult :=
  {| co_decision := d; co_cycle := c; co_execution := None; co_execution_error := "" |}.

Definition TERMINAL_ORDER_STATUSES : list string := ["filled"; "canceled"; "cancelled"; "rejected"; "margincanceled"].
(** The statuses [_reconcile] reads as an order that ended without a fill. *)
Definition UNFILLED_STATUSES : list string := ["canceled"; "cancelled"; "rejected"; "margincanceled"].

(** ** [_reconcile] *)
Section Reconcile.
  Variable config : StrategyConfig.

(** The locals [_reconcile] updates. *)
Record Locals := {
  lo_status : HedgeCycleStatus; lo_last_error : string; lo_pending : string; lo_pre_adjust : decimal;
  lo_adjust_at : option datetime }.
Definition with_status (st : HedgeCycleStatus) (l : Locals) : Locals :=
  {| lo_status := st; lo_last_error := lo_last_error l; lo_pending := lo_pending l;
     lo_pre_adjust := lo_pre_adjust l; lo_adjust_at := lo_adjust_at l |}.
Definition with_failure (st : HedgeCycleStatus) (error : string) (l : Locals) : Locals :=
  {| lo_status := st; lo_last_error := error; lo_pending := lo_pending l;
     lo_pre_adjust := lo_pre_adjust l; lo_adjust_at := lo_adjust_at l |}.
(** The adjustment is over. *)
Definition settled (error : string) : Locals :=
  {| lo_status := HEDGED; lo_last_error := error; lo_pending := ""; lo_pre_adjust := ZERO; lo_adjust_at := None |}.
(** [t is not None and now - t >= timedelta(seconds=n)] *)
Definition elapsed (now : Z) (t : option datetime) (n : Z) : bool :=
  match t with Some t => seconds n <=? now - instant t | None => false end.
Definition is_status (s : string) (l : list string) : bool := bool_decide (s ∈ l).

Definition reconcile_adjust (c : HedgeCycleState) (a : HedgeAccountSnapshot) (now : Z) (l : Locals) : Locals :=
  let actual := ap_size (ha_position a) in
  if truthy (lo_pending l) then
    let adjust_status := lower (ha_adjust_order_status a) in
    if dec_ltb (dec_abs actual) (dec_abs (lo_pre_adjust l)) then settled (lo_last_error l)
    else if is_status adjust_status UNFILLED_STATUSES
    then settled ("adjustment order ended with " +:+ adjust_status)
    else if String.eqb adjust_status "filled" && dec_eqb actual (lo_pre_adjust l)
    then with_failure RECOVERY_REQUIRED "adjustment reports filled but hedge position did not change" l
    else if elapsed now (cs_adjust_submitted_at c) (cf_ambiguous_order_retry_seconds config) &&
            dec_eqb actual (lo_pre_adjust l)
    then settled "ambiguous adjustment timed out after position reconciliation"
    else l
  else l.
Definition reconcile_open (c : HedgeCycleState) (a : HedgeAccountSnapshot) (now : Z) (l : Locals) : Locals :=
  let actual := ap_size (ha_position a) in
  if bool_decide (lo_status l ∈ [OPEN_SUBMITTED; OPEN_PARTIAL]) then
    let open_status := lower (ha_open_order_status a) in
    if negb (flat actual)
    then with_status (if dec_ltb (dec_abs actual) (dec_abs (cs_target_hedge_size c)) then OPEN_PARTIAL else HEDGED) l
    else if is_status open_status UNFILLED_STATUSES
    then with_failure ABORTED ("open order ended with " +:+ open_status +:+ " and no hedge position") l
    else if String.eqb open_status "filled"
    then with_failure RECOVERY_REQUIRED "open order reports filled but hedge position is flat" l
    else if elapsed now (cs_open_submitted_at c) (cf_open_reconciliation_timeout_seconds config)
    then with_failure ABORTED "ambiguous IOC open timed out with hedge position still flat" l
    else l
  else l.
Definition reconcile_close (c : HedgeCycleState) (a : HedgeAccountSnapshot) (now : Z) (l : Locals) : Locals :=
  if bool_decide (lo_status l ∈ [CLOSE_SUBMITTED; CLOSE_PARTIAL]) then
    let close_status := lower (ha_close_order_status a) in
    if flat (ap_size (ha_position a)) then with_status COMPLETED l
    else if is_status close_status TERMINAL_ORDER_STATUSES then with_status CLOSE_PARTIAL l
    else if elapsed now (cs_close_submitted_at c) (cf_ambiguous_order_retry_seconds config)
    then with_failure CLOSE_PARTIAL "ambiguous close timed out after position reconciliation" l
    else l
  else l.
Definition reconcile_settlement (c : HedgeCycleState) (now : Z) (l : Locals) : Locals :=
  if bool_decide (lo_status l ∈ [HEDGED; OPEN_PARTIAL]) then
    if instant (cs_settlement_at c) <=? now then with_status AWAITING_FUNDING l else l
  else l.
Definition locals_of (c : HedgeCycleState) : Locals :=
  {| lo_status := cs_status c; lo_last_error := cs_last_error c; lo_pending := cs_pending_adjust_cloid c;
     lo_pre_adjust := cs_pre_adjust_hedge_size c; lo_adjust_at := cs_adjust_submitted_at c |}.
Definition reconcile_locals (c : HedgeCycleState) (a : HedgeAccountSnapshot) (now : Z) : Locals :=
  reconcile_settlement c now (reconcile_close c a now (reconcile_open c a now (reconcile_adjust c a now (locals_of c)))).

(** [_same_cycle_identity] *)
Definition same_cycle_identity (c : HedgeCycleState) (s : HedgeSnapshot) : bool :=
  String.eqb (cs_symbol c) (hs_symbol s) &&
  String.eqb (lower (cs_primary_account_address c)) (lower (ap_account_address (hs_primary_position s))) &&
  String.eqb (lower (cs_hedge_account_address c)) (lower (ap_account_address (hedge_position s))) &&
  String.eqb (cs_network c) (cf_network config) &&
  String.eqb (cs_hedge_account_kind c) (cf_hedge_account_kind config).
Lemma same_cycle_identity_spec c s : same_cycle_identity c s = negb (identity_mismatch config s c).
Proof. unfold same_cycle_identity, identity_mismatch. by rewrite !negb_orb, !negb_involutive. Qed.
(** [_reconcile]; [now] is the instant of [evaluated_at]. *)
Definition reconcile (cycle : option HedgeCycleState) (s : HedgeSnapshot) (now : Z)
    : result (option HedgeCycleState) :=
  match cycle with
  | None => Ok None
  | Some c =>
      if negb (active c) then Ok (Some c)
      else if negb (same_cycle_identity c s) then
        Some <$> validate_cycle (set_status RECOVERY_REQUIRED (set_updated_at (utc now)
                   (set_last_error "cycle identity differs from exchange snapshot" c)))
      else
        let a := hs_hedge_account s in
        let l := reconcile_locals c a now in
        let c' := set_status (lo_status l) (set_last_error (lo_last_error l) (set_pending (lo_pending l)
                    (set_pre_adjust (lo_pre_adjust l) (set_adjust_submitted_at (lo_adjust_at l)
                    (set_actual (ap_size (ha_position a)) (set_updated_at (utc now) c)))))) in
        Some <$> validate_cycle
          (if ha_funding_confirmed a
           then set_confirmed_at (Some (default (utc now) (ha_funding_record_time a)))
                  (set_funding_delta (ha_funding_delta_usd a) c')
           else c')
  end.
End Reconcile.

(** ** [process] *)
Section Coordinator.
  Context {E : Type}.
  Variable config : StrategyConfig.
  Variable blake2b : string -> string.                  (* hex of the 16-byte digest *)
  Variable executor : option (Order -> io E ExecutionResult).
  Variable write : Cycles -> result unit.               (* the atomic replacement of the file *)
  Variable clock : option datetime.                     (* what the clock gives, aware *)

(** [stable_cloid] *)
Definition stable_cloid (cycle_key phase : string) : string :=
  "0x" +:+ blake2b ("funding-hedge|" +:+ cycle_key +:+ "|" +:+ phase).

(** [CycleTransaction.put] *)
Definition put (c : HedgeCycleState) : io (CycleTransaction E) unit := modify (fun t =>
  {| tx_cycles := <[cs_symbol c := c]> (tx_cycles t); tx_dirty := true; tx_disk := tx_disk t;
     tx_executor := tx_executor t; tx_log := tx_log t |}).
(** [CycleTransaction.flush]: a failed write leaves the file, and the dirty flag. *)
Definition flush : io (CycleTransaction E) unit := fun t =>
  if tx_dirty t then
    match write (tx_cycles t) with
    | Ok _ => ({| tx_cycles := tx_cycles t; tx_dirty := false; tx_disk := tx_cycles t;
                  tx_executor := tx_executor t; tx_log := tx_log t ++ [Wrote (tx_cycles t)] |}, Ok tt)
    | Raise e => (t, Raise e)
    end
  else (t, Ok tt).
(** [_put_if_changed] *)
Definition put_if_changed (before after : option HedgeCycleState) : io (CycleTransaction E) unit :=
  match after with
  | None => mret tt
  | Some a => if match before with Some b => cycle_eqb a b | None => false end then mret tt else put a
  end.
(** A call of the executor inside a [try]: what it returned or raised. *)
Definition submit (run : Order -> io E ExecutionResult) (o : Order) : io (CycleTransaction E) (result ExecutionResult) := fun t =>
  let '(e, r) := run o (tx_executor t) in
  ({| tx_cycles := tx_cycles t; tx_dirty := tx_dirty t; tx_disk := tx_disk t; tx_executor := e;
      tx_log := tx_log t ++ [Submitted o] |}, Ok r).
(** The rest of the [try] and its [except]: a rejection is recorded by [rejected];
    an exception, of the executor or of recording the rejection, by [ambiguous]. *)
Definition after_submission (tried : result ExecutionResult) (c : HedgeCycleState)
    (rejected : ExecutionResult -> result HedgeCycleState) (ambiguous : string -> result HedgeCycleState)
    : result (HedgeCycleState * option ExecutionResult * string) :=
  let handle (x : option ExecutionResult) (e : exn) :=
    c ← ambiguous (exn_msg e); Ok (c, x, exn_msg e) in
  match tried with
  | Raise e => handle None e
  | Ok x =>
      if er_accepted x then Ok (c, Some x, "")
      else match rejected x with Ok c => Ok (c, Some x, "") | Raise e => handle (Some x) e end
  end.
(** Record the intent, write it, submit, record the outcome. *)
Definition submit_with_intent (run : Order -> io E ExecutionResult) (d : HedgeDecision) (o : Order)
    (intent : HedgeCycleState) (rejected : ExecutionResult -> result HedgeCycleState)
    (ambiguous : string -> result HedgeCycleState) : io (CycleTransaction E) CoordinatorResult :=
  _ ← put intent;
  _ ← flush;
  tried ← submit run o;
  outcome ← lift (after_submission tried intent rejected ambiguous);
  let '(c, x, error) := outcome in
  _ ← put c;
  mret {| co_decision := d; co_cycle := Some c; co_execution := x; co_execution_error := error |}.

(** [_new_cycle] *)
Definition new_cycle (d : HedgeDecision) (now : Z) : result HedgeCycleState :=
  let s := hd_snapshot d in
  validate_cycle
    {| cs_cycle_key := hd_cycle_key d; cs_status := ARMED; cs_symbol := hs_symbol s;
       cs_primary_account_address := ap_account_address (hs_primary_position s);
       cs_hedge_account_address := ap_account_address (hedge_position s);
       cs_settlement_at := fo_next_funding_at (hs_funding s); cs_target_hedge_size := hd_target_hedge_size d;
       cs_open_cloid := stable_cloid (hd_cycle_key d) "open:1"; cs_close_cloid := "";
       cs_created_at := utc now; cs_updated_at := utc now; cs_network := cf_network config;
       cs_hedge_account_kind := cf_hedge_account_kind config; cs_actual_hedge_size := ap_size (hedge_position s);
       cs_close_attempt_count := 0; cs_adjustment_count := 0; cs_pending_adjust_cloid := "";
       cs_pre_adjust_hedge_size := ZERO; cs_open_submitted_at := None; cs_close_submitted_at := None;
       cs_adjust_submitted_at := None; cs_funding_confirmed_at := None; cs_funding_delta_usd := None;
       cs_last_error := "" |}.

(** The branch of [OPEN_HEDGE]. *)
Definition process_open (run : Order -> io E ExecutionResult) (s : HedgeSnapshot) (now : Z) (d : HedgeDecision)
    : io (CycleTransaction E) CoordinatorResult :=
  armed ← lift (new_cycle d now);
  _ ← put armed;
  _ ← flush;
  c ← lift (validate_cycle (set_status OPEN_SUBMITTED (set_updated_at (utc now)
              (set_open_submitted_at (Some (utc now)) armed))));
  submit_with_intent run d
    (OpenOrder (hs_symbol s) (hd_order_size_delta d) (cs_open_cloid c)
       (plus_us (cs_settlement_at c) (- seconds (cf_latest_open_cutoff_seconds config)))) c
    (fun x => validate_cycle (set_status ABORTED (set_updated_at (utc now)
                (set_last_error (or_else (er_error x) "open order rejected") c))))
    (fun e => validate_cycle (set_updated_at (utc now) (set_last_error ("ambiguous open submission: " +:+ e) c))).
(** The branch of [WAIT_FOR_FUNDING]. *)
Definition process_wait (s : HedgeSnapshot) (now : Z) (d : HedgeDecision) (c : HedgeCycleState)
    : io (CycleTransaction E) CoordinatorResult :=
  let a := hs_hedge_account s in
  let actual := ap_size (ha_position a) in
  let status := if instant (cs_settlement_at c) <=? now then AWAITING_FUNDING
                else if dec_ltb (dec_abs actual) (dec_abs (cs_target_hedge_size c)) then OPEN_PARTIAL else HEDGED in
  let c' := set_status status (set_actual actual (set_updated_at (utc now) c)) in
  c ← lift (validate_cycle
        (if ha_funding_confirmed a
         then set_confirmed_at (ha_funding_record_time a) (set_funding_delta (ha_funding_delta_usd a) c')
         else c'));
  _ ← put c;
  mret (plain d (Some c)).
(** The branch of [ADJUST_HEDGE]. *)
Definition process_adjust (run : Order -> io E ExecutionResult) (s : HedgeSnapshot) (now : Z) (d : HedgeDecision)
    (c : HedgeCycleState) : io (CycleTransaction E) CoordinatorResult :=
  if truthy (cs_pending_adjust_cloid c) then mret (plain d (Some c))
  else
    let count := cs_adjustment_count c + 1 in
    let cloid := stable_cloid (cs_cycle_key c) ("adjust:" +:+ pretty count) in
    let size := ap_size (hedge_position s) in
    c ← lift (validate_cycle (set_adjustment_count count (set_pending cloid (set_pre_adjust size
                (set_updated_at (utc now) (set_adjust_submitted_at (Some (utc now)) c))))));
    submit_with_intent run d (CloseOrder (hs_symbol s) size (dec_abs (hd_order_size_delta d)) cloid) c
      (fun x => validate_cycle (set_pending "" (set_pre_adjust ZERO (set_adjust_submitted_at None
                  (set_last_error (or_else (er_error x) "adjustment order rejected") c)))))
      (fun e => validate_cycle (set_last_error ("ambiguous adjustment submission: " +:+ e) c)).
(** The branch of [CLOSE_HEDGE]. *)
Definition process_close (run : Order -> io E ExecutionResult) (s : HedgeSnapshot) (now : Z) (d : HedgeDecision)
    (c : HedgeCycleState) : io (CycleTransaction E) CoordinatorResult :=
  let close_status := lower (ha_close_order_status (hs_hedge_account s)) in
  if bool_decide (cs_status c = CLOSE_SUBMITTED) && negb (is_status close_status TERMINAL_ORDER_STATUSES)
  then mret (plain d (Some c))
  else
    let count := cs_close_attempt_count c + 1 in
    let cloid := stable_cloid (cs_cycle_key c) ("close:" +:+ pretty count) in
    let size := ap_size (hedge_position s) in
    c ← lift (validate_cycle (set_status CLOSE_SUBMITTED (set_close_attempt_count count (set_close_cloid cloid
                (set_actual size (set_updated_at (utc now) (set_close_submitted_at (Some (utc now)) c)))))));
    submit_with_intent run d (CloseOrder (hs_symbol s) size (dec_abs size) cloid) c
      (fun x => validate_cycle (set_status CLOSE_PARTIAL
                  (set_last_error (or_else (er_error x) "close order rejected") c)))
      (fun e => validate_cycle (set_last_error ("ambiguous close submission: " +:+ e) c)).
(** The branch of [RECOVERY_REQUIRED]. *)
Definition process_recovery (now : Z) (d : HedgeDecision) (c : HedgeCycleState) : io (CycleTransaction E) CoordinatorResult :=
  c ← lift (validate_cycle (set_status RECOVERY_REQUIRED (set_updated_at (utc now) (set_last_error (hd_reason d) c))));
  _ ← put c;
  mret (plain d (Some c)).

(** A terminal cycle is not records_open again for its own settlement. *)
Definition held (d : HedgeDecision) : HedgeDecision :=
  {| hd_snapshot := hd_snapshot d; hd_action := HOLD;
     hd_reason := "terminal_cycle_already_exists_for_this_settlement"; hd_evaluated_at := hd_evaluated_at d;
     hd_seconds_to_funding := hd_seconds_to_funding d; hd_target_hedge_size := hd_target_hedge_size d;
     hd_current_hedge_size := hd_current_hedge_size d; hd_order_size_delta := ZERO; hd_reduce_only := false;
     hd_estimated_primary_funding_debit_usd := hd_estimated_primary_funding_debit_usd d;
     hd_estimated_hedge_funding_credit_usd := hd_estimated_hedge_funding_credit_usd d;
     hd_estimated_round_trip_cost_usd := hd_estimated_round_trip_cost_usd d;
     hd_estimated_net_saving_usd := hd_estimated_net_saving_usd d;
     hd_estimated_required_margin_usd := hd_estimated_required_margin_usd d; hd_cycle_key := hd_cycle_key d |}.
Definition decide_cycle (s : HedgeSnapshot) (now : Z) (reconciled : option HedgeCycleState) : result HedgeDecision :=
  d ← evaluate config s (utc now) (active_cycle reconciled);
  Ok (match reconciled with
      | Some c => if terminal (cs_status c) && bool_decide (hd_action d = OPEN_HEDGE) &&
                     String.eqb (hd_cycle_key d) (cs_cycle_key c)
                  then held d else d
      | None => d
      end).

(** The branches after the first flush. *)
Definition act (run : Order -> io E ExecutionResult) (s : HedgeSnapshot) (now : Z)
    (reconciled : option HedgeCycleState) (d : HedgeDecision) : io (CycleTransaction E) CoordinatorResult :=
  match hd_action d, active_cycle reconciled with
  | OPEN_HEDGE, Some c => mret (plain d (Some c))
  | OPEN_HEDGE, None => process_open run s now d
  | WAIT_FOR_FUNDING, Some c => process_wait s now d c
  | ADJUST_HEDGE, Some c => process_adjust run s now d c
  | CLOSE_HEDGE, Some c => process_close run s now d c
  | RECOVER, Some c => process_recovery now d c
  | _, _ => mret (plain d reconciled)
  end.
(** The body of the [with]; [now] is the instant of [evaluated_at]. *)
Definition process_body (s : HedgeSnapshot) (now : Z) (execute : bool) : io (CycleTransaction E) CoordinatorResult :=
  stored ← read (fun t => tx_cycles t !! hs_symbol s);
  reconciled ← lift (reconcile config stored s now);
  d ← lift (decide_cycle s now reconciled);
  if negb execute then mret (plain d reconciled)
  else
    _ ← lift (check (cf_execution_enabled config)
                (RuntimeError "--execute also requires FUNDING_HEDGE_EXECUTE=true"));
    match executor with
    | None => lift (Raise (RuntimeError "hedge executor is not configured"))
    | Some run =>
        _ ← put_if_changed stored reconciled;
        _ ← flush;
        act run s now reconciled d
    end.
(** [CycleStateStore.transaction]: the body, then a flush unless it raised. *)
Definition begin (disk : Cycles) (e : E) : CycleTransaction E :=
  {| tx_cycles := disk; tx_dirty := false; tx_disk := disk; tx_executor := e; tx_log := [] |}.
Definition transaction {A} (body : io (CycleTransaction E) A) : io (CycleTransaction E) A :=
  r ← body;
  _ ← flush;
  mret r.
(** [process], on the file and the executor it finds. *)
Definition process (s : HedgeSnapshot) (now : datetime) (execute : bool) (disk : Cycles) (e : E)
    : CycleTransaction E * result CoordinatorResult :=
  if negb (aware now) then (begin disk e, Raise (ValueError "now must include a timezone"))
  else
    let evaluated_at := match execute, clock with true, Some t => instant t | _, _ => instant now end in
    transaction (process_body s evaluated_at execute) (begin disk e).

(** ** Logs *)
Definition is_submission (x : Effect) : bool := match x with Submitted _ => true | Wrote _ => false end.
Definition silent (l : list Effect) : Prop := Forall (fun x => is_submission x = false) l.
(** The file after the effects of a log. *)
Definition disk_after (disk : Cycles) (l : list Effect) : Cycles :=
  fold_left (fun d x => match x with Wrote cs => cs | Submitted _ => d end) l disk.
(** The phases that number a cycle's orders, and the cycles whose client ids carry
    their numbers: no close yet, or the id of the last attempt; the id of the last
    adjustment while it is outstanding. *)
Definition close_phase (n : Z) : string := "close:" +:+ pretty n.
Definition adjust_phase (n : Z) : string := "adjust:" +:+ pretty n.
Definition numbered (c : HedgeCycleState) : Prop :=
  0 <= cs_close_attempt_count c /\
  cs_close_cloid c = (if cs_close_attempt_count c =? 0 then ""
                      else stable_cloid (cs_cycle_key c) (close_phase (cs_close_attempt_count c))) /\
  (truthy (cs_pending_adjust_cloid c) = true ->
   cs_pending_adjust_cloid c = stable_cloid (cs_cycle_key c) (adjust_phase (cs_adjustment_count c))).
Definition numbered_file (m : Cycles) : Prop := forall i c, m !! i = Some c -> numbered c.
(** The cycle on disk that announces the order of a decision, and what it was made
    from: nothing for an open, the live cycle for a close and for an adjustment. *)
Definition announces (now : Z) (d : HedgeDecision) (live : option HedgeCycleState) (o : Order)
    (c : HedgeCycleState) : Prop :=
  match hd_action d, o, live with
  | OPEN_HEDGE, OpenOrder _ _ cloid t, None =>
      cs_status c = OPEN_SUBMITTED /\ cs_open_cloid c = cloid /\ cs_cycle_key c = hd_cycle_key d /\
      cs_open_submitted_at c = Some (utc now) /\
      t = plus_us (cs_settlement_at c) (- seconds (cf_latest_open_cutoff_seconds config))
  | CLOSE_HEDGE, CloseOrder _ current size cloid, Some p =>
      cs_status c = CLOSE_SUBMITTED /\ cs_cycle_key c = cs_cycle_key p /\
      cs_close_attempt_count c = cs_close_attempt_count p + 1 /\ cs_close_cloid c = cloid /\
      cloid = stable_cloid (cs_cycle_key p) (close_phase (cs_close_attempt_count c)) /\
      cs_close_submitted_at c = Some (utc now) /\ cs_actual_hedge_size c = current /\ size = dec_abs current
  | ADJUST_HEDGE, CloseOrder _ current _ cloid, Some p =>
      truthy (cs_pending_adjust_cloid p) = false /\ cs_status c = cs_status p /\ cs_cycle_key c = cs_cycle_key p /\
      cs_adjustment_count c = cs_adjustment_count p + 1 /\ cs_pending_adjust_cloid c = cloid /\
      cloid = stable_cloid (cs_cycle_key p) (adjust_phase (cs_adjustment_count c)) /\
      cs_pre_adjust_hedge_size c = current /\ cs_adjust_submitted_at c = Some (utc now)
  | _, _, _ => False
  end.
(** The order a decision is carried out by. *)
Definition carries_out (s : HedgeSnapshot) (d : HedgeDecision) (o : Order) : Prop :=
  let size := ap_size (hedge_position s) in
  match hd_action d, o with
  | OPEN_HEDGE, OpenOrder symbol signed cloid _ =>
      symbol = hs_symbol s /\ signed = hd_order_size_delta d /\
      cloid = stable_cloid (hd_cycle_key d) "open:1"
  | CLOSE_HEDGE, CloseOrder symbol current amount _ =>
      symbol = hs_symbol s /\ current = size /\ amount = dec_abs size
  | ADJUST_HEDGE, CloseOrder symbol current amount _ =>
      symbol = hs_symbol s /\ current = size /\ amount = dec_abs (hd_order_size_delta d)
  | _, _ => False
  end.
(** The log so far submits nothing; or one order, announced on disk just before. *)
Definition no_order (t : CycleTransaction E) : Prop := silent (tx_log t).
Definition one_order (s : HedgeSnapshot) (now : Z) (d : HedgeDecision) (live : option HedgeCycleState)
    (t : CycleTransaction E) : Prop :=
  exists pre cs o c post,
    tx_log t = pre ++ Wrote cs :: Submitted o :: post /\ silent pre /\ silent post /\
    cs !! cs_symbol c = Some c /\ announces now d live o c /\ carries_out s d o.
Definition at_most_one (s : HedgeSnapshot) (now : Z) (d : HedgeDecision) (live : option HedgeCycleState)
    (t : CycleTransaction E) : Prop := no_order t \/ one_order s now d live t.

(** From [I], every end of the operation, also an exceptional one, satisfies [J]. *)
Definition moves {A} (I J : CycleTransaction E -> Prop) (m : io (CycleTransaction E) A) : Prop :=
  forall t, I t -> J (m t).1.
Lemma moves_bind {A B} (I J : CycleTransaction E -> Prop) (K : A -> CycleTransaction E -> Prop)
    (m : io (CycleTransaction E) A) (f : A -> io (CycleTransaction E) B) :
  (forall t, I t -> match m t with (t', Ok a) => K a t' | (t', Raise _) => J t' end) ->
  (forall a, moves (K a) J (f a)) -> moves I J (m ≫= f).
Proof.
  intros Hm Hf t Ht. specialize (Hm t Ht). unfold mbind, io_bind.
  destruct (m t) as [t' [a|e]]; [by apply Hf|done].
Qed.
(** The common case: an operation that keeps what holds. *)
Lemma moves_keeping {A B} (I J : CycleTransaction E -> Prop) (m : io (CycleTransaction E) A)
    (f : A -> io (CycleTransaction E) B) :
  (forall t, I t -> J t) -> (forall t, I t -> I (m t).1) -> (forall a, moves I J (f a)) -> moves I J (m ≫= f).
Proof.
  intros Hij Hm Hf. apply (moves_bind I J (fun _ => I)); [|done].
  intros t Ht. specialize (Hm t Ht). destruct (m t) as [t' [a|e]]; simpl in *; auto.
Qed.
Lemma moves_lift {A B} (I J : CycleTransaction E -> Prop) (r : result A) (f : A -> io (CycleTransaction E) B) :
  (forall t, I t -> J t) -> (forall a, r = Ok a -> moves I J (f a)) -> moves I J (lift r ≫= f).
Proof. intros Hij Hf t Ht. unfold mbind, io_bind, lift. destruct r as [a|e]; [by apply (Hf a)|by apply Hij]. Qed.
Lemma moves_ret {A} (I J : CycleTransaction E -> Prop) (a : A) : (forall t, I t -> J t) -> moves I J (mret a).
Proof. intros Hij t Ht. by apply Hij. Qed.

Lemma silent_app l k : silent (l ++ k) <-> silent l /\ silent k.
Proof. apply Forall_app. Qed.
Lemma put_quiet c t : no_order t -> no_order (put c t).1.
Proof. done. Qed.
Lemma flush_log t : tx_log (flush t).1 = tx_log t \/ tx_log (flush t).1 = tx_log t ++ [Wrote (tx_cycles t)].
Proof. unfold flush. destruct (tx_dirty t); [|by left]. destruct (write (tx_cycles t)); [by right|by left]. Qed.
Lemma flush_quiet t : no_order t -> no_order (flush t).1.
Proof.
  intros Ht. unfold no_order. destruct (flush_log t) as [-> | ->]; [done|]. apply silent_app. by repeat constructor.
Qed.
Lemma flush_one_order s now d live t : one_order s now d live t -> one_order s now d live (flush t).1.
Proof.
  intros (pre & cs & o & c & post & Hl & H1 & H2 & H3). destruct (flush_log t) as [E' | E'].
  - exists pre, cs, o, c, post. by rewrite E'.
  - exists pre, cs, o, c, (post ++ [Wrote (tx_cycles t)]). rewrite E', Hl, <- (assoc_L (++)).
    split; [done|]. split; [done|]. split; [|done]. apply silent_app. by repeat constructor.
Qed.
Lemma submit_with_intent_one_order run s now d live o c rejected ambiguous :
  announces now d live o c -> carries_out s d o ->
  moves no_order (at_most_one s now d live) (submit_with_intent run d o c rejected ambiguous).
Proof.
  intros Ha Hc. unfold submit_with_intent.
  apply (moves_bind _ _ (fun _ t => no_order t /\ tx_dirty t = true /\ tx_cycles t !! cs_symbol c = Some c)).
  { intros t Ht. unfold put, modify. split; [done|]. split; [done|]. exact (lookup_insert_eq (tx_cycles t) (cs_symbol c) c). }
  intros _. apply (moves_bind _ _ (fun _ t => exists pre, tx_log t = pre ++ [Wrote (tx_cycles t)] /\ silent pre /\
    tx_cycles t !! cs_symbol c = Some c)).
  { intros t (Hq & Hd & Hl). unfold flush. rewrite Hd. destruct (write (tx_cycles t)); [|by left].
    exists (tx_log t). by simpl. }
  intros _. apply (moves_bind _ _ (fun _ => one_order s now d live)).
  { intros t (pre & Hl & Hq & Hs). unfold submit. destruct (run o (tx_executor t)) as [e r].
    exists pre, (tx_cycles t), o, c, []. simpl. rewrite Hl, <- (assoc_L (++)). split; [done|]. by repeat constructor. }
  intros tried. apply moves_lift; [by right|]. intros [[c' x] err] _.
  apply moves_keeping; [by right|done|]. intros _. apply moves_ret. by right.
Qed.

Lemma process_open_one_order run s now d :
  hd_action d = OPEN_HEDGE -> moves no_order (at_most_one s now d None) (process_open run s now d).
Proof.
  intros Hd. unfold process_open. apply moves_lift; [by left|]. intros armed Harmed.
  apply moves_keeping; [by left|done|]. intros _.
  apply moves_keeping; [by left|apply flush_quiet|]. intros _.
  apply moves_lift; [by left|]. intros c Hc.
  apply validate_cycle_Ok in Hc as (sym & _ & ->). apply validate_cycle_Ok in Harmed as (sym' & _ & ->).
  apply submit_with_intent_one_order; [unfold announces; rewrite Hd; by split_and!|]. unfold carries_out. by rewrite Hd.
Qed.
Lemma process_adjust_one_order run s now d c :
  hd_action d = ADJUST_HEDGE -> moves no_order (at_most_one s now d (Some c)) (process_adjust run s now d c).
Proof.
  intros Hd. unfold process_adjust. destruct (truthy _) eqn:Hp; [apply moves_ret; by left|]. cbv zeta.
  apply moves_lift; [by left|]. intros c' Hc. apply validate_cycle_Ok in Hc as (sym & _ & ->).
  apply submit_with_intent_one_order; [unfold announces; rewrite Hd; by split_and!|]. unfold carries_out. by rewrite Hd.
Qed.
Lemma process_close_one_order run s now d c :
  hd_action d = CLOSE_HEDGE -> moves no_order (at_most_one s now d (Some c)) (process_close run s now d c).
Proof.
  intros Hd. unfold process_close. cbv zeta. destruct (_ && _); [apply moves_ret; by left|].
  apply moves_lift; [by left|]. intros c' Hc. apply validate_cycle_Ok in Hc as (sym & _ & ->).
  apply submit_with_intent_one_order; [unfold announces; rewrite Hd; by split_and!|]. unfold carries_out. by rewrite Hd.
Qed.
Lemma lift_put_one_order {A} s now d live (r : result HedgeCycleState) (f : HedgeCycleState -> A) :
  moves no_order (at_most_one s now d live) (c ← lift r; _ ← put c; mret (f c)).
Proof.
  apply moves_lift; [by left|]. intros c _. apply moves_keeping; [by left|done|]. intros _. apply moves_ret. by left.
Qed.
Lemma act_one_order run s now reconciled d :
  moves no_order (at_most_one s now d (active_cycle reconciled)) (act run s now reconciled d).
Proof.
  unfold act. destruct (hd_action d) eqn:Hd, (active_cycle reconciled) as [c|];
    try (apply moves_ret; by left).
  - by apply process_open_one_order.
  - apply lift_put_one_order.
  - by apply process_close_one_order.
  - by apply process_adjust_one_order.
  - apply lift_put_one_order.
Qed.

(** ** The numbers of the client ids *)
(** In memory and in every file written, a cycle's ids carry its numbers. *)
Definition numbered_tx (t : CycleTransaction E) : Prop :=
  numbered_file (tx_cycles t) /\ forall cs, Wrote cs ∈ tx_log t -> numbered_file cs.
Lemma put_numbered c t : numbered c -> numbered_tx t -> numbered_tx (put c t).1.
Proof.
  intros Hc [Hm Hl]. split; [|done]. intros i c'. cbn. rewrite lookup_insert_Some. intros [[_ <-]|[_ Hi]]; eauto.
Qed.
Lemma flush_numbered t : numbered_tx t -> numbered_tx (flush t).1.
Proof.
  intros [Hm Hl]. unfold flush. destruct (tx_dirty t); [|done]. destruct (write (tx_cycles t)); [|done].
  split; [done|]. cbn. intros cs. rewrite elem_of_app, list_elem_of_singleton. intros [?|[= ->]]; auto.
Qed.
Lemma submit_numbered run o t : numbered_tx t -> numbered_tx (submit run o t).1.
Proof.
  intros [Hm Hl]. unfold submit. destruct (run o (tx_executor t)) as [e r]. split; [done|]. cbn.
  intros cs. rewrite elem_of_app, list_elem_of_singleton. intros [?|?]; [by apply Hl|done].
Qed.
(** A change that keeps the key, the close numbering, and the adjustment's or none. *)
Lemma kept_numbered c c1 c2 :
  numbered c -> validate_cycle c1 = Ok c2 -> cs_cycle_key c1 = cs_cycle_key c ->
  cs_close_attempt_count c1 = cs_close_attempt_count c -> cs_close_cloid c1 = cs_close_cloid c ->
  cs_adjustment_count c1 = cs_adjustment_count c ->
  cs_pending_adjust_cloid c1 = cs_pending_adjust_cloid c \/ cs_pending_adjust_cloid c1 = "" -> numbered c2.
Proof.
  intros (H1 & H2 & H3) Hv E1 E2 E3 E4 E5. apply validate_cycle_Ok in Hv as (sym & _ & ->).
  unfold numbered. cbn. rewrite E1, E2, E3, E4. split; [done|]. split; [done|]. by destruct E5 as [-> | ->].
Qed.
Lemma reconcile_adjust_pending c a now l :
  lo_pending (reconcile_adjust config c a now l) = lo_pending l \/ lo_pending (reconcile_adjust config c a now l) = "".
Proof. unfold reconcile_adjust, settled, with_failure. cbv zeta. repeat (case_match; cbn); auto. Qed.
Lemma reconcile_pending c a now :
  let p := lo_pending (reconcile_locals config c a now) in p = cs_pending_adjust_cloid c \/ p = "".
Proof.
  cbv zeta. unfold reconcile_locals, reconcile_settlement, reconcile_close, reconcile_open, with_status, with_failure.
  cbv zeta. repeat (case_match; cbn); apply reconcile_adjust_pending.
Qed.
Lemma reconcile_numbered s now c c' :
  numbered c -> reconcile config (Some c) s now = Ok (Some c') -> numbered c'.
Proof.
  intros Hc H. unfold reconcile in H. destruct (negb (active c)); [by injection H as <-|].
  pose proof (reconcile_pending c (hs_hedge_account s) now) as Hp. cbv zeta in Hp.
  destruct (negb _); apply fmap_Ok in H as (c1 & H & [= ->]); [by eapply kept_numbered; eauto|].
  destruct (ha_funding_confirmed _); by eapply kept_numbered.
Qed.
Lemma submit_with_intent_numbered run d o c rejected ambiguous :
  numbered c -> (forall x c', rejected x = Ok c' -> numbered c') -> (forall x c', ambiguous x = Ok c' -> numbered c') ->
  moves numbered_tx numbered_tx (submit_with_intent run d o c rejected ambiguous).
Proof.
  intros Hc Hrej Hamb. unfold submit_with_intent.
  apply moves_keeping; [done|by intros t; apply put_numbered|]. intros _.
  apply moves_keeping; [done|by apply flush_numbered|]. intros _.
  apply moves_keeping; [done|by intros t; apply submit_numbered|]. intros tried.
  apply moves_lift; [done|]. intros [[c' x] err] Hout.
  apply moves_keeping; [done| |intros _; by apply moves_ret].
  intros t. apply put_numbered. unfold after_submission in Hout. cbv zeta in Hout.
  destruct tried as [ex|e]; [destruct (er_accepted ex)|].
  - injection Hout as <- _ _. done.
  - destruct (rejected ex) as [c1|e] eqn:E1; [injection Hout as <- _ _; by eapply Hrej|].
    apply bind_Ok in Hout as (c1 & E2 & [= <- _ _]). by eapply Hamb.
  - apply bind_Ok in Hout as (c1 & E2 & [= <- _ _]). by eapply Hamb.
Qed.
Lemma process_open_numbered run s now d : moves numbered_tx numbered_tx (process_open run s now d).
Proof.
  unfold process_open. apply moves_lift; [done|]. intros armed Ha.
  assert (Harmed : numbered armed).
  { unfold new_cycle in Ha. apply validate_cycle_Ok in Ha as (sym & _ & ->). by split_and!. }
  apply moves_keeping; [done|by intros t; apply put_numbered|]. intros _.
  apply moves_keeping; [done|by apply flush_numbered|]. intros _.
  apply moves_lift; [done|]. intros c Hc.
  assert (numbered c) by (eapply kept_numbered; eauto).
  apply submit_with_intent_numbered; [done|..]; intros x c' H'; eapply kept_numbered; eauto.
Qed.
Lemma process_adjust_numbered run s now d c :
  numbered c -> moves numbered_tx numbered_tx (process_adjust run s now d c).
Proof.
  intros Hc. unfold process_adjust. destruct (truthy _); [by apply moves_ret|]. cbv zeta.
  apply moves_lift; [done|]. intros c' H'.
  assert (numbered c') by (apply validate_cycle_Ok in H' as (sym & _ & ->); by destruct Hc as (? & ? & _)).
  apply submit_with_intent_numbered; [done|..]; intros x c2 H2; eapply kept_numbered; eauto.
Qed.
Lemma process_close_numbered run s now d c :
  numbered c -> moves numbered_tx numbered_tx (process_close run s now d c).
Proof.
  intros Hc. unfold process_close. cbv zeta. destruct (_ && _); [by apply moves_ret|].
  apply moves_lift; [done|]. intros c' H'.
  assert (numbered c').
  { apply validate_cycle_Ok in H' as (sym & _ & ->). destruct Hc as (H1 & _ & H3). split_and!; cbn; [lia| |done].
    destruct (Z.eqb_spec (cs_close_attempt_count c + 1) 0); [lia|done]. }
  apply submit_with_intent_numbered; [done|..]; intros x c2 H2; eapply kept_numbered; eauto.
Qed.
Lemma lift_put_numbered {A} (r : result HedgeCycleState) (f : HedgeCycleState -> A) :
  (forall c, r = Ok c -> numbered c) -> moves numbered_tx numbered_tx (c ← lift r; _ ← put c; mret (f c)).
Proof.
  intros Hr. apply moves_lift; [done|]. intros c Hc.
  apply moves_keeping; [done|intros t; by apply put_numbered, Hr|]. intros _. by apply moves_ret.
Qed.
Lemma act_numbered run s now reconciled d :
  (forall c, active_cycle reconciled = Some c -> numbered c) ->
  moves numbered_tx numbered_tx (act run s now reconciled d).
Proof.
  intros Hc. unfold act. destruct (hd_action d), (active_cycle reconciled) as [c|]; try by apply moves_ret.
  - apply process_open_numbered.
  - apply lift_put_numbered. intros c2 H.
    destruct (ha_funding_confirmed _); (eapply kept_numbered; [by apply Hc|exact H|..]; auto).
  - by apply process_close_numbered, Hc.
  - by apply process_adjust_numbered, Hc.
  - apply lift_put_numbered. intros c2 H. eapply kept_numbered; [by apply Hc|exact H|..]; auto.
Qed.
Lemma active_cycle_Some r c : active_cycle r = Some c -> r = Some c.
Proof. unfold active_cycle. destruct r as [c'|]; [|done]. by destruct (active c'). Qed.
Lemma process_body_numbered s now execute t :
  numbered_tx t -> numbered_tx (process_body s now execute t).1.
Proof.
  intros Ht. unfold process_body, mbind, io_bind, read, lift, mret, io_ret. cbn beta iota.
  destruct (reconcile config _ s now) as [reconciled|e] eqn:Er; [|done].
  destruct (decide_cycle s now reconciled) as [d|e] eqn:Ed; [|done].
  destruct execute; [|done]. cbn [negb]. destruct (cf_execution_enabled config); [|done]. cbn [check].
  destruct executor as [run|]; [|done].
  assert (Hr : forall c, reconciled = Some c -> numbered c).
  { intros c ->. destruct (tx_cycles t !! hs_symbol s) as [c0|] eqn:E0; [|done].
    eapply reconcile_numbered, Er. by eapply (proj1 Ht). }
  assert (H1 : numbered_tx (put_if_changed (tx_cycles t !! hs_symbol s) reconciled t).1).
  { unfold put_if_changed. destruct reconciled as [c|]; [|done]. repeat case_match; try done; by apply put_numbered, Ht; apply Hr. }
  destruct (put_if_changed _ _ t) as [t1 [u|e]]; cbn in H1; [|done].
  pose proof (flush_numbered t1 H1) as H2. destruct (flush t1) as [t2 [u'|e]]; cbn in H2; [|done].
  apply act_numbered; [|done]. intros c Hc. by apply Hr, active_cycle_Some.
Qed.

(** The whole of [process]. *)
Lemma put_if_changed_quiet before after t : no_order t -> no_order (put_if_changed before after t).1.
Proof. unfold put_if_changed. destruct after as [a|]; [|done]. by repeat case_match. Qed.
Lemma process_body_one_order s now execute t :
  no_order t ->
  let r := reconcile config (tx_cycles t !! hs_symbol s) s now in
  no_order (process_body s now execute t).1 \/
  exists reconciled d, r = Ok reconciled /\ decide_cycle s now reconciled = Ok d /\ execute = true /\
    cf_execution_enabled config = true /\
    at_most_one s now d (active_cycle reconciled) (process_body s now execute t).1.
Proof.
  intros Ht. cbv zeta. unfold process_body, mbind, io_bind, read, lift, mret, io_ret. cbn beta iota.
  destruct (reconcile config _ s now) as [reconciled|e]; [|by left].
  destruct (decide_cycle s now reconciled) as [d|e] eqn:Ed; [|by left].
  destruct execute; [|by left]. cbn [negb].
  destruct (cf_execution_enabled config) eqn:Ee; [|by left]. cbn [check].
  destruct executor as [run|]; [|by left].
  pose proof (put_if_changed_quiet (tx_cycles t !! hs_symbol s) reconciled t Ht) as H1.
  destruct (put_if_changed _ _ t) as [t1 [u|e]]; simpl in H1; [|by left].
  pose proof (flush_quiet t1 H1) as H2. destruct (flush t1) as [t2 [u'|e]]; simpl in H2; [|by left].
  right. exists reconciled, d. split_and!; try done. by apply act_one_order.
Qed.
Lemma begin_quiet disk e : no_order (begin disk e).
Proof. by constructor. Qed.
Lemma transaction_log {A} (m : io (CycleTransaction E) A) t :
  (transaction m t).1 = (m t).1 \/ (transaction m t).1 = (flush (m t).1).1.
Proof.
  unfold transaction, mbind, io_bind, mret, io_ret. destruct (m t) as [t1 [a|e]]; [|by left].
  destruct (flush t1) as [t2 [u|e]] eqn:Ef; right; cbn; by rewrite Ef.
Qed.
Lemma process_one_order s now execute disk e :
  let t := (process s now execute disk e).1 in
  let at_ := match execute, clock with true, Some t => instant t | _, _ => instant now end in
  no_order t \/
  exists reconciled d, reconcile config (disk !! hs_symbol s) s at_ = Ok reconciled /\
    decide_cycle s at_ reconciled = Ok d /\ execute = true /\ cf_execution_enabled config = true /\
    one_order s at_ d (active_cycle reconciled) t.
Proof.
  cbv zeta. unfold process. destruct (aware now); cbn [negb fst]; [|left; apply begin_quiet].
  set (at_ := match execute, clock with true, Some t => instant t | _, _ => instant now end). clearbody at_.
  destruct (process_body_one_order s at_ execute (begin disk e) (begin_quiet disk e))
    as [H|(reconciled & d & Hr & Hd & He & Hc & H)].
  { left. destruct (transaction_log (process_body s at_ execute) (begin disk e)) as [-> | ->]; [done|by apply flush_quiet]. }
  destruct H as [H|H].
  { left. destruct (transaction_log (process_body s at_ execute) (begin disk e)) as [-> | ->]; [done|by apply flush_quiet]. }
  right. exists reconciled, d. split_and!; try done.
  destruct (transaction_log (process_body s at_ execute) (begin disk e)) as [-> | ->]; [done|by apply flush_one_order].
Qed.
Lemma process_numbered s now execute disk e :
  numbered_file disk -> forall cs, Wrote cs ∈ tx_log (process s now execute disk e).1 -> numbered_file cs.
Proof.
  intros Hd. assert (Hb : numbered_tx (begin disk e)) by (split; [done|]; by intros cs ?%elem_of_nil).
  unfold process. destruct (aware now); cbn [negb fst]; [|by destruct Hb].
  set (at_ := match execute, clock with true, Some t => instant t | _, _ => instant now end). clearbody at_.
  pose proof (process_body_numbered s at_ execute _ Hb) as H.
  destruct (transaction_log (process_body s at_ execute) (begin disk e)) as [-> | ->]; [by destruct H|].
  by apply flush_numbered in H as [_ H].
Qed.
End Coordinator.

(** ** Properties *)
(** What a client id of a close is told apart from: the ids of the cycle's other
    attempts, where the digest tells their names apart. *)
Definition distinct_closes (blake2b : string -> string) (key : string) (n : Z) : Prop :=
  forall m, 0 <= m < n -> stable_cloid blake2b key (close_phase m) <> stable_cloid blake2b key (close_phase n).
Lemma numbered_close_fresh blake2b c cloid n :
  numbered blake2b c -> n = cs_close_attempt_count c + 1 ->
  cloid = stable_cloid blake2b (cs_cycle_key c) (close_phase n) ->
  distinct_closes blake2b (cs_cycle_key c) n -> cs_close_cloid c <> cloid.
Proof.
  intros (H1 & -> & _) -> -> Hd. destruct (Z.eqb_spec (cs_close_attempt_count c) 0); [done|]. apply Hd. lia.
Qed.

(** C11. An order leaves only in an enabled executing run, at most one per run, and it
    carries out the policy's decision on the reconciled cycle.  Immediately before it
    the file was written with the cycle that announces it: for an open its client id,
    submission time and deadline; for a close the whole position, the next attempt
    number, and the client id of that number, which is not the previous attempt's; for
    an adjustment the next number, its client id, pending, and the position it starts
    from.  The second part: ids in the file keep carrying those numbers.  "Not the
    previous attempt's" supposes a file written this way and a digest that tells the
    names of one cycle's attempts apart. *)
Theorem intent_precedes_every_order {E} config blake2b (executor : option (Order -> io E ExecutionResult))
    write clock s now execute disk e :
  let t := (process config blake2b executor write clock s now execute disk e).1 in
  let at_ := match execute, clock with true, Some t => instant t | _, _ => instant now end in
  (silent (tx_log t) \/
   exists reconciled d pre cs o c post,
     execute = true /\ cf_execution_enabled config = true /\
     reconcile config (disk !! hs_symbol s) s at_ = Ok reconciled /\
     decide_cycle config s at_ reconciled = Ok d /\ carries_out blake2b s d o /\
     tx_log t = pre ++ Wrote cs :: Submitted o :: post /\ silent pre /\ silent post /\
     disk_after disk (pre ++ [Wrote cs]) = cs /\ cs !! cs_symbol c = Some c /\
     announces config blake2b at_ d (active_cycle reconciled) o c /\
     (numbered_file blake2b disk -> hd_action d = CLOSE_HEDGE -> exists p,
        active_cycle reconciled = Some p /\
        (distinct_closes blake2b (cs_cycle_key p) (cs_close_attempt_count c) -> cs_close_cloid p <> order_cloid o))) /\
  (numbered_file blake2b disk -> forall cs, Wrote cs ∈ tx_log t -> numbered_file blake2b cs).
Proof.
  cbv zeta. split; [|apply process_numbered].
  destruct (process_one_order config blake2b executor write clock s now execute disk e)
    as [H|(reconciled & d & Hr & Hd & He & Hc & (pre & cs & o & c & post & H))]; [by left|right].
  exists reconciled, d, pre, cs, o, c, post. destruct_and! H. split_and!; try done.
  { unfold disk_after. by rewrite fold_left_app. }
  intros Hn Ha. match goal with H : announces _ _ _ _ _ _ _ |- _ => unfold announces in H; rewrite Ha in H; rename H into Han end.
  destruct o as [|sym current size cloid]; [done|]. destruct (active_cycle reconciled) as [p|] eqn:Ep; [|done].
  exists p. split; [done|]. apply active_cycle_Some in Ep as ->. destruct Han as (_ & _ & Hcount & _ & Hcloid & _).
  intros Hdist. eapply numbered_close_fresh; [|done|exact Hcloid|done].
  destruct (disk !! hs_symbol s) as [c0|] eqn:E0; [|done]. eapply reconcile_numbered, Hr. by eapply Hn.
Qed.

(** Without [execute] a run reads and decides only: nothing is written, nothing
    submitted, the executor untouched.  With [execute] but execution disabled or no
    executor the run raises, and changes nothing either. *)
Theorem dry_runs_change_nothing {E} config blake2b (executor : option (Order -> io E ExecutionResult))
    write clock s now execute disk e :
  let run := process config blake2b executor write clock s now execute disk e in
  (execute = false -> run.1 = begin disk e) /\
  (execute = true -> cf_execution_enabled config = false \/ executor = None ->
     run.1 = begin disk e /\ is_ok run.2 = false).
Proof.
  cbv zeta. unfold process. destruct (aware now); cbn [negb]; [|by split].
  unfold transaction, process_body, mbind, io_bind, read, lift, mret, io_ret. cbn beta iota.
  split.
  - intros ->. cbn [negb]. destruct (reconcile _ _ _ _) as [r|]; [|done].
    by destruct (decide_cycle _ _ _ _).
  - intros -> H. cbn [negb]. set (at_ := match clock with Some t => _ | None => _ end).
    destruct (reconcile _ _ _ at_) as [r|]; [|done]. destruct (decide_cycle _ _ at_ _) as [d|]; [|done].
    destruct (cf_execution_enabled config); [|done]. cbn [check]. by destruct H as [?| ->].
Qed.

(** ** The lifecycle [_reconcile] follows *)
(** The statuses a live cycle may have after reconciliation; [pending] when an
    adjustment was outstanding. *)
Definition may_move (pending : bool) (from to : HedgeCycleStatus) : bool :=
  match from with
  | ARMED => bool_decide (to = ARMED)
  | OPEN_SUBMITTED | OPEN_PARTIAL =>
      bool_decide (to ∈ [from; OPEN_PARTIAL; HEDGED; AWAITING_FUNDING; ABORTED; RECOVERY_REQUIRED])
  | HEDGED => bool_decide (to ∈ [HEDGED; AWAITING_FUNDING])
  | AWAITING_FUNDING => bool_decide (to = AWAITING_FUNDING)
  | CLOSE_SUBMITTED | CLOSE_PARTIAL => bool_decide (to ∈ [from; CLOSE_PARTIAL; COMPLETED])
  | COMPLETED | ABORTED | RECOVERY_REQUIRED => bool_decide (to = from)
  end || pending && bool_decide (to ∈ [HEDGED; AWAITING_FUNDING; RECOVERY_REQUIRED]).

Lemma reconcile_adjust_status config c a now :
  let l := reconcile_adjust config c a now (locals_of c) in
  lo_status l = cs_status c \/
  (truthy (cs_pending_adjust_cloid c) = true /\ (lo_status l = HEDGED \/ lo_status l = RECOVERY_REQUIRED)).
Proof. unfold reconcile_adjust, settled, with_failure. cbn. repeat (case_match; cbn); auto. Qed.

(** Without an outstanding adjustment the adjustment phase changes nothing. *)
Lemma reconcile_adjust_idle config c a now :
  truthy (cs_pending_adjust_cloid c) = false -> reconcile_adjust config c a now (locals_of c) = locals_of c.
Proof. intros H. unfold reconcile_adjust. cbn. by rewrite H. Qed.

(** Each later phase, by the status it starts from. *)
Lemma reconcile_open_status config c a now l :
  let to := lo_status (reconcile_open config c a now l) in
  to = lo_status l \/
  (lo_status l ∈ [OPEN_SUBMITTED; OPEN_PARTIAL] /\
   (to ∈ [OPEN_PARTIAL; HEDGED; RECOVERY_REQUIRED] \/ (to = ABORTED /\ flat (ap_size (ha_position a)) = true))).
Proof.
  unfold reconcile_open, with_status, with_failure. cbv zeta. case_bool_decide as Hin; [|by left].
  destruct (flat _); cbn [negb]; [|right; split; [done|left; destruct (dec_ltb _ _); set_solver]].
  destruct (is_status _ _); [right; split; [done|by right]|].
  destruct (String.eqb _ _); [right; split; [done|left; set_solver]|].
  destruct (elapsed _ _ _); [right; split; [done|by right]|by left].
Qed.
Lemma reconcile_close_status config c a now l :
  let to := lo_status (reconcile_close config c a now l) in
  to = lo_status l \/
  (lo_status l ∈ [CLOSE_SUBMITTED; CLOSE_PARTIAL] /\
   (to = CLOSE_PARTIAL \/ (to = COMPLETED /\ flat (ap_size (ha_position a)) = true))).
Proof.
  unfold reconcile_close, with_status, with_failure. cbv zeta. case_bool_decide as Hin; [|by left].
  destruct (flat _) eqn:Ef; [right; split; [done|by right]|].
  destruct (is_status _ _); [right; split; [done|by left]|].
  destruct (elapsed _ _ _); [right; split; [done|by left]|by left].
Qed.
Lemma reconcile_settlement_status c now l :
  let to := lo_status (reconcile_settlement c now l) in
  to = lo_status l \/
  (lo_status l ∈ [HEDGED; OPEN_PARTIAL] /\ to = AWAITING_FUNDING /\ instant (cs_settlement_at c) <= now).
Proof.
  unfold reconcile_settlement, with_status. cbv zeta. case_bool_decide as Hin; [|by left].
  destruct (Z.leb_spec (instant (cs_settlement_at c)) now); [by right|by left].
Qed.
(** The three together. *)
Lemma reconcile_phases config c a now l :
  let to := lo_status (reconcile_settlement c now (reconcile_close config c a now (reconcile_open config c a now l))) in
  may_move false (lo_status l) to = true /\
  (to = COMPLETED -> lo_status l <> COMPLETED -> flat (ap_size (ha_position a)) = true) /\
  (to = ABORTED -> lo_status l <> ABORTED -> flat (ap_size (ha_position a)) = true) /\
  (to = AWAITING_FUNDING -> lo_status l <> AWAITING_FUNDING -> instant (cs_settlement_at c) <= now).
Proof.
  cbv zeta.
  pose proof (reconcile_open_status config c a now l) as H1. set (l1 := reconcile_open config c a now l) in *.
  pose proof (reconcile_close_status config c a now l1) as H2. set (l2 := reconcile_close config c a now l1) in *.
  pose proof (reconcile_settlement_status c now l2) as H3. cbv zeta in *.
  set (to := lo_status (reconcile_settlement c now l2)) in *. clearbody to l2 l1.
  generalize dependent (lo_status l2). generalize dependent (lo_status l1). intros s1 H1 s2 H2 H3.
  rewrite !elem_of_cons, !elem_of_nil in *.
  destruct H1 as [->|([?|[?|[]]] & [[->|[->|[->|[]]]]|(-> & Hf)])];
    destruct H2 as [->|([?|[?|[]]] & [->|(-> & ?)])]; try discriminate;
    destruct H3 as [->|([?|[?|[]]] & -> & ?)]; try discriminate;
    repeat match goal with H : lo_status l = _ |- _ => rewrite H end;
    (split; [first [by destruct (lo_status l)|done]|by split_and!]).
Qed.
Lemma may_move_pending from mid to pending :
  (mid = from \/ (pending = true /\ (mid = HEDGED \/ mid = RECOVERY_REQUIRED))) ->
  may_move false mid to = true -> may_move pending from to = true.
Proof.
  intros [->|(-> & [-> | ->])]; unfold may_move; cbn; intros H.
  - by apply orb_true_iff in H as [->|?].
  - by destruct from, to.
  - by destruct from, to.
Qed.

(** Reconciliation follows the lifecycle.  A finished cycle is left as it is.  A
    live one whose identity differs from the exchange's needs recovery.  Otherwise it
    keeps its key, accounts, settlement, target, client ids and counters; it moves
    only along [may_move]; it is never completed or aborted while the hedge account
    holds a position; and it awaits funding only from the settlement on. *)
Theorem reconcile_follows_the_lifecycle config s now c c' :
  reconcile config (Some c) s now = Ok (Some c') ->
  (active c = false -> c' = c) /\
  (active c = true -> same_cycle_identity config c s = false ->
     cs_status c' = RECOVERY_REQUIRED /\ cs_cycle_key c' = cs_cycle_key c) /\
  (active c = true -> same_cycle_identity config c s = true ->
     may_move (truthy (cs_pending_adjust_cloid c)) (cs_status c) (cs_status c') = true /\
     (cs_status c' = COMPLETED \/ cs_status c' = ABORTED -> flat (ap_size (hedge_position s)) = true) /\
     (cs_status c' = AWAITING_FUNDING -> cs_status c <> AWAITING_FUNDING -> instant (cs_settlement_at c) <= now) /\
     cs_actual_hedge_size c' = ap_size (hedge_position s) /\ cs_updated_at c' = utc now /\
     cs_cycle_key c' = cs_cycle_key c /\ cs_settlement_at c' = cs_settlement_at c /\
     cs_target_hedge_size c' = cs_target_hedge_size c /\ cs_open_cloid c' = cs_open_cloid c /\
     cs_close_cloid c' = cs_close_cloid c /\ cs_close_attempt_count c' = cs_close_attempt_count c /\
     cs_adjustment_count c' = cs_adjustment_count c /\ cs_open_submitted_at c' = cs_open_submitted_at c).
Proof.
  intros H. unfold reconcile in H. destruct (active c) eqn:Ea; cbn [negb] in H.
  2: { injection H as ->. by split_and!. }
  split; [done|]. destruct (same_cycle_identity config c s); cbn [negb] in H.
  2: { split; [|done]. intros _ _. apply fmap_Ok in H as (c1 & H & [= ->]).
       by apply validate_cycle_Ok in H as (sym & _ & ->). }
  split; [done|]. intros _ _. apply fmap_Ok in H as (c1 & H & [= ->]).
  apply validate_cycle_Ok in H as (sym & _ & ->).
  set (a := hs_hedge_account s) in *. change (hedge_position s) with (ha_position a).
  pose proof (reconcile_adjust_status config c a now) as Hadj. cbv zeta in Hadj.
  pose proof (reconcile_phases config c a now (reconcile_adjust config c a now (locals_of c))) as Hph. cbv zeta in Hph.
  unfold reconcile_locals. set (mid := reconcile_adjust config c a now (locals_of c)) in *.
  set (out := reconcile_settlement c now _) in *.
  assert (Hlive : terminal (cs_status c) = false) by (unfold active in Ea; by apply negb_true_iff).
  destruct Hph as (Hm & Hc & Ha & Hw).
  assert (Hmove : may_move (truthy (cs_pending_adjust_cloid c)) (cs_status c) (lo_status out) = true).
  { eapply may_move_pending, Hm. naive_solver. }
  assert (Hflat : lo_status out = COMPLETED \/ lo_status out = ABORTED -> flat (ap_size (ha_position a)) = true).
  { intros [E|E]; [apply Hc|apply Ha]; try done; intros E'; rewrite E' in *;
      (destruct Hadj as [Ec|(_ & [?|?])]; [|done..]; by rewrite <- Ec in Hlive). }
  assert (Hawait : lo_status out = AWAITING_FUNDING -> cs_status c <> AWAITING_FUNDING -> instant (cs_settlement_at c) <= now).
  { intros E En. apply Hw; [done|]. destruct Hadj as [->|(_ & [-> | ->])]; done. }
  destruct (ha_funding_confirmed a); split_and!; done.
Qed.

(** ** Cutting a run *)
Section Cut.
  Context {E : Type}.
  Variable config : StrategyConfig.
  Variable blake2b : string -> string.
  Variable write : Cycles -> result unit.
  Variable s : HedgeSnapshot.
  Variable now : Z.
  Variable disk : Cycles.
  Hypothesis canonical : canonical_symbol (hs_symbol s) = Ok (hs_symbol s).
  Hypothesis disk_keyed : forall c, disk !! hs_symbol s = Some c -> cs_symbol c = hs_symbol s.

Definition is_open (o : Order) : bool := match o with OpenOrder _ _ _ _ => true | CloseOrder _ _ _ _ => false end.
(** The stored cycle is over once reconciled. *)
Definition finished : Prop := exists r, reconcile config (disk !! hs_symbol s) s now = Ok (Some r) /\ active r = false.
(** Other symbols are untouched; the cycle of this one keeps its key unless it is over. *)
Definition continues (m : Cycles) : Prop :=
  (forall i, i <> hs_symbol s -> m !! i = disk !! i) /\
  (forall c0, disk !! hs_symbol s = Some c0 ->
     exists c, m !! hs_symbol s = Some c /\ (cs_cycle_key c = cs_cycle_key c0 \/ finished)).
(** The file records an open: under another key than the cycle it replaced. *)
Definition records (m : Cycles) (o : Order) : Prop :=
  exists c, m !! hs_symbol s = Some c /\ cs_open_cloid c = order_cloid o /\
    order_cloid o = stable_cloid blake2b (cs_cycle_key c) "open:1" /\
    cs_status c ∈ [OPEN_SUBMITTED; ABORTED] /\
    (forall c0, disk !! hs_symbol s = Some c0 -> cs_cycle_key c <> cs_cycle_key c0 /\ finished).
Definition good (m : Cycles) (l : list Effect) : Prop :=
  continues m /\ forall o, Submitted o ∈ l -> is_open o = true -> records m o.
(** Good at every cut of the log, and in memory. *)
Definition safe (t : CycleTransaction E) : Prop :=
  (forall pre post, tx_log t = pre ++ post -> good (disk_after disk pre) pre) /\ good (tx_cycles t) (tx_log t).
(** Safe, and no open has been submitted. *)
Definition unopened (t : CycleTransaction E) : Prop :=
  safe t /\ forall o, Submitted o ∈ tx_log t -> is_open o = false.

Lemma cuts_snoc (P : list Effect -> Prop) l x :
  (forall pre post, l = pre ++ post -> P pre) -> P (l ++ [x]) -> forall pre post, l ++ [x] = pre ++ post -> P pre.
Proof.
  intros Hl Hx pre post Heq. destruct (decide (post = [])) as [->|Hp].
  { rewrite app_nil_r in Heq. by rewrite <- Heq. }
  destruct (exists_last Hp) as (post' & y & ->). rewrite (assoc_L (++)) in Heq.
  apply app_inj_tail in Heq as [Heq _]. by eapply Hl.
Qed.
Lemma disk_after_snoc l x :
  disk_after disk (l ++ [x]) = match x with Wrote cs => cs | Submitted _ => disk_after disk l end.
Proof. unfold disk_after. rewrite fold_left_app. by destruct x. Qed.
Lemma submitted_snoc o l x : Submitted o ∈ l ++ [x] -> Submitted o ∈ l \/ x = Submitted o.
Proof. rewrite elem_of_app, list_elem_of_singleton. naive_solver. Qed.

Lemma flush_safe (t : CycleTransaction E) : safe t -> safe (flush write t).1.
Proof.
  intros [Hcut [Hc Ho]]. unfold flush. destruct (tx_dirty t); [|done].
  destruct (write (tx_cycles t)) as [u|e]; [|done]. split; cbn.
  - apply cuts_snoc; [done|]. rewrite disk_after_snoc. split; [done|].
    intros o Hin. apply submitted_snoc in Hin as [Hin|]; [|done]. by apply Ho.
  - split; [done|]. intros o Hin. apply submitted_snoc in Hin as [Hin|]; [|done]. by apply Ho.
Qed.
Lemma flush_unopened (t : CycleTransaction E) : unopened t -> unopened (flush write t).1.
Proof.
  intros [Hs Hn]. split; [by apply flush_safe|]. destruct (flush_log write t) as [-> | ->]; [done|].
  intros o Hin. apply submitted_snoc in Hin as [Hin|]; [|done]. by apply Hn.
Qed.
(** What may be put: a cycle of this symbol that continues the stored one. *)
Definition may_put (c : HedgeCycleState) : Prop :=
  cs_symbol c = hs_symbol s /\
  forall c0, disk !! hs_symbol s = Some c0 -> cs_cycle_key c = cs_cycle_key c0 \/ finished.
Lemma put_continues m c : may_put c -> continues m -> continues (<[cs_symbol c := c]> m).
Proof.
  intros [Hs Hk] [H1 H2]. rewrite Hs. split.
  - intros i Hi. rewrite lookup_insert_ne by done. by apply H1.
  - intros c0 H0. exists c. rewrite lookup_insert_eq. split; [done|]. by apply Hk.
Qed.
Lemma put_unopened c (t : CycleTransaction E) : may_put c -> unopened t -> unopened (put c t).1.
Proof.
  intros Hc [[Hcut [Hm Ho]] Hn]. split; [|done]. split; [done|]. split; [by apply put_continues|].
  intros o Hin Hop. simpl in Hin. rewrite (Hn o Hin) in Hop. done.
Qed.

(** Submitting a reduce-only order opens nothing. *)
Lemma submit_close_unopened run o (t : CycleTransaction E) :
  is_open o = false -> unopened t -> unopened (submit run o t).1.
Proof.
  intros Hop [[Hcut [Hm Ho]] Hn]. unfold submit. destruct (run o (tx_executor t)) as [e r]. cbn.
  assert (Hall : forall o', Submitted o' ∈ tx_log t ++ [Submitted o] -> is_open o' = false).
  { intros o' Hin. apply submitted_snoc in Hin as [Hin|[= <-]]; [by apply Hn|done]. }
  assert (Hrec : forall m o', Submitted o' ∈ tx_log t ++ [Submitted o] -> is_open o' = true -> records m o').
  { intros m o' Hin E'. by rewrite (Hall o' Hin) in E'. }
  split; [split; cbn|done].
  - apply cuts_snoc; [done|]. rewrite disk_after_snoc. split; [|by apply Hrec].
    by destruct (Hcut (tx_log t) [] ltac:(by rewrite app_nil_r)).
  - split; [done|by apply Hrec].
Qed.
(** A reduce-only order with its intent. *)
Lemma submit_with_intent_unopened run d o c rejected ambiguous :
  is_open o = false -> may_put c ->
  (forall x c', rejected x = Ok c' -> may_put c') -> (forall x c', ambiguous x = Ok c' -> may_put c') ->
  moves unopened safe (submit_with_intent (E := E) write run d o c rejected ambiguous).
Proof.
  intros Hop Hc Hrej Hamb. unfold submit_with_intent.
  apply moves_keeping; [by intros t []|by intros t; apply put_unopened|]. intros _.
  apply moves_keeping; [by intros t []|by apply flush_unopened|]. intros _.
  apply moves_keeping; [by intros t []|by intros t; apply submit_close_unopened|]. intros tried.
  apply moves_lift; [by intros t []|]. intros [[c' x] err] Hout.
  apply moves_keeping; [by intros t []| |intros _; apply moves_ret; by intros t []].
  intros t. apply put_unopened. unfold after_submission in Hout. cbv zeta in Hout.
  destruct tried as [ex|e]; [destruct (er_accepted ex)|].
  - injection Hout as <- _ _. done.
  - destruct (rejected ex) as [c1|e] eqn:E1; [injection Hout as <- _ _; by eapply Hrej|].
    apply bind_Ok in Hout as (c1 & E2 & [= <- _ _]). by eapply Hamb.
  - apply bind_Ok in Hout as (c1 & E2 & [= <- _ _]). by eapply Hamb.
Qed.

(** Validated changes of a cycle of this symbol. *)
Lemma validated_may_put c1 c :
  validate_cycle c1 = Ok c -> cs_symbol c1 = hs_symbol s ->
  (forall c0, disk !! hs_symbol s = Some c0 -> cs_cycle_key c1 = cs_cycle_key c0 \/ finished) -> may_put c.
Proof.
  intros H Hs Hk. apply validate_cycle_Ok in H as (sym & Hsym & ->).
  rewrite Hs, canonical in Hsym. injection Hsym as <-. done.
Qed.
Lemma reconciled_may_put c :
  reconcile config (disk !! hs_symbol s) s now = Ok (Some c) -> may_put c.
Proof.
  intros H. unfold reconcile in H. destruct (disk !! hs_symbol s) as [c0|] eqn:E0; [|done].
  pose proof (disk_keyed c0 eq_refl) as Hs. destruct (negb (active c0)).
  { injection H as <-. split; [done|]. intros c1. rewrite E0. intros [= <-]. by left. }
  assert (Hk : forall c1, Some c0 = Some c1 -> cs_cycle_key c0 = cs_cycle_key c1 \/ finished) by (intros c1 [= <-]; by left).
  destruct (negb (same_cycle_identity config c0 s)); apply fmap_Ok in H as (c1 & H & [= ->]).
  - eapply validated_may_put; [exact H|done|]. by rewrite E0.
  - destruct (ha_funding_confirmed _); (eapply validated_may_put; [exact H|done|]; by rewrite E0).
Qed.

(** A changed cycle of this symbol, under the same key. *)
Lemma changed_may_put c c1 c2 :
  may_put c -> validate_cycle c1 = Ok c2 -> cs_symbol c1 = cs_symbol c -> cs_cycle_key c1 = cs_cycle_key c -> may_put c2.
Proof. intros [Hs Hk] H E1 E2. eapply validated_may_put; [done|by rewrite E1|by rewrite E2]. Qed.
Lemma lift_put_unopened {A} (r : result HedgeCycleState) (f : HedgeCycleState -> A) :
  (forall c, r = Ok c -> may_put c) -> moves unopened safe (c ← lift r; _ ← put c; mret (f c)).
Proof.
  intros Hr. apply moves_lift; [by intros t []|]. intros c Hc.
  apply moves_keeping; [by intros t []|intros t; by apply put_unopened, Hr|]. intros _. apply moves_ret. by intros t [].
Qed.
Lemma act_other_safe run reconciled d c :
  reconciled = Some c -> may_put c -> hd_action d <> OPEN_HEDGE ->
  moves unopened safe (act config blake2b write run s now reconciled d).
Proof.
  intros -> Hc Hd. unfold act. destruct (hd_action d) eqn:Ea; try done;
    (destruct (active_cycle (Some c)) as [c'|] eqn:Eac; [|apply moves_ret; by intros t []]);
    (assert (c' = c) as -> by (unfold active_cycle in Eac; destruct (active c); congruence));
    try (apply moves_ret; by intros t []).
  - apply lift_put_unopened. intros c2 H. destruct (ha_funding_confirmed _); by eapply changed_may_put.
  - unfold process_close. cbv zeta. destruct (_ && _); [apply moves_ret; by intros t []|].
    apply moves_lift; [by intros t []|]. intros c2 H2.
    assert (Hc2 : may_put c2) by (by eapply changed_may_put).
    apply submit_with_intent_unopened; [done|done|..]; intros x c3 H3; by eapply changed_may_put.
  - unfold process_adjust. destruct (truthy _); [apply moves_ret; by intros t []|]. cbv zeta.
    apply moves_lift; [by intros t []|]. intros c2 H2.
    assert (Hc2 : may_put c2) by (by eapply changed_may_put).
    apply submit_with_intent_unopened; [done|done|..]; intros x c3 H3; by eapply changed_may_put.
  - apply lift_put_unopened. intros c2 H. by eapply changed_may_put.
Qed.
Lemma act_none_safe run d :
  hd_action d <> OPEN_HEDGE -> moves unopened safe (act config blake2b write run s now None d).
Proof. intros Hd. unfold act. destruct (hd_action d) eqn:Ea; try done; apply moves_ret; by intros t []. Qed.

(** ** The open branch *)
(** A cycle that records the open [o] and may be put. *)
Definition recorder (o : Order) (c : HedgeCycleState) : Prop :=
  cs_symbol c = hs_symbol s /\ cs_open_cloid c = order_cloid o /\
  order_cloid o = stable_cloid blake2b (cs_cycle_key c) "open:1" /\
  (forall c0, disk !! hs_symbol s = Some c0 -> cs_cycle_key c <> cs_cycle_key c0 /\ finished).
Lemma recorder_may_put o c : recorder o c -> may_put c.
Proof. intros (Hs & _ & _ & Hk). split; [done|]. intros c0 H0. right. by apply (Hk c0). Qed.
Lemma recorder_records o c m :
  recorder o c -> cs_status c ∈ [OPEN_SUBMITTED; ABORTED] -> records (<[cs_symbol c := c]> m) o.
Proof.
  intros (Hs & H1 & H2 & H3) Hst. exists c. rewrite Hs, lookup_insert_eq. by split_and!.
Qed.
Lemma changed_recorder o c c1 c2 :
  recorder o c -> validate_cycle c1 = Ok c2 -> cs_symbol c1 = cs_symbol c -> cs_cycle_key c1 = cs_cycle_key c ->
  cs_open_cloid c1 = cs_open_cloid c -> recorder o c2 /\ cs_status c2 = cs_status c1.
Proof.
  intros (Hs & H1 & H2 & H3) H E1 E2 E3. apply validate_cycle_Ok in H as (sym & Hsym & ->).
  rewrite E1, Hs, canonical in Hsym. injection Hsym as <-. unfold recorder. cbn. rewrite E2, E3. by split_and!.
Qed.
(** Exactly the open [o] has been submitted, and memory and file record it. *)
Definition records_open (o : Order) (t : CycleTransaction E) : Prop :=
  safe t /\ forall o', Submitted o' ∈ tx_log t -> is_open o' = true -> o' = o.
Lemma put_opened o c (t : CycleTransaction E) :
  recorder o c -> cs_status c ∈ [OPEN_SUBMITTED; ABORTED] -> records_open o t -> records_open o (put c t).1.
Proof.
  intros Hc Hst [[Hcut [Hm Ho]] Hn]. split; [|done]. split; [done|].
  split; [by eapply put_continues, Hm; eapply recorder_may_put|].
  intros o' Hin Hop. cbn in Hin. rewrite (Hn o' Hin Hop). cbn. by apply recorder_records.
Qed.
Lemma submit_open_opened run o c (t : CycleTransaction E) :
  recorder o c -> cs_status c ∈ [OPEN_SUBMITTED; ABORTED] -> unopened t ->
  tx_cycles t !! cs_symbol c = Some c -> disk_after disk (tx_log t) = tx_cycles t ->
  records_open o (submit run o t).1.
Proof.
  intros Hc Hst [[Hcut [Hm Ho]] Hn] Hl Hd. unfold submit. destruct (run o (tx_executor t)) as [e r]. cbn.
  assert (Hall : forall o', Submitted o' ∈ tx_log t ++ [Submitted o] -> is_open o' = true -> o' = o).
  { intros o' Hin Hop. apply submitted_snoc in Hin as [Hin|[= <-]]; [|done]. by rewrite (Hn o' Hin) in Hop. }
  assert (Hrec : records (tx_cycles t) o).
  { rewrite <- (insert_id (tx_cycles t) (cs_symbol c) c Hl). by apply recorder_records. }
  split; [|done]. split; cbn.
  - apply cuts_snoc; [done|]. rewrite disk_after_snoc, Hd. split; [done|].
    intros o' Hin Hop. by rewrite (Hall o' Hin Hop).
  - split; [done|]. intros o' Hin Hop. by rewrite (Hall o' Hin Hop).
Qed.
Lemma process_open_safe run d :
  hd_snapshot d = s ->
  (forall c0, disk !! hs_symbol s = Some c0 -> hd_cycle_key d <> cs_cycle_key c0 /\ finished) ->
  moves unopened safe (process_open config blake2b write run s now d).
Proof.
  intros Hds Hkey. unfold process_open. apply moves_lift; [by intros t []|]. intros armed Harmed.
  set (o := fun c => OpenOrder (hs_symbol s) (hd_order_size_delta d) (cs_open_cloid c)
    (plus_us (cs_settlement_at c) (- seconds (cf_latest_open_cutoff_seconds config)))).
  assert (Ha : recorder (o armed) armed).
  { unfold new_cycle in Harmed. cbv zeta in Harmed. rewrite Hds in Harmed.
    apply validate_cycle_Ok in Harmed as (sym & Hsym & ->). cbn in Hsym. rewrite canonical in Hsym.
    injection Hsym as <-. by split_and!. }
  apply moves_keeping; [by intros t []|intros t; by eapply put_unopened, recorder_may_put|]. intros _.
  apply moves_keeping; [by intros t []|by apply flush_unopened|]. intros _.
  apply moves_lift; [by intros t []|]. intros c Hc.
  destruct (changed_recorder _ _ _ _ Ha Hc eq_refl eq_refl eq_refl) as [Hrc Hst].
  assert (Hro : recorder (o c) c).
  { destruct Hrc as (H1 & H2 & H3 & H4). destruct Ha as (_ & _ & Ha3 & _).
    apply validate_cycle_Ok in Hc as (sym & _ & ->). by split_and!. }
  change (OpenOrder _ _ (cs_open_cloid c) _) with (o c).
  clearbody o. clear Ha Harmed Hrc. unfold submit_with_intent.
  apply (moves_bind _ _ (fun _ t => unopened t /\ tx_dirty t = true /\ tx_cycles t !! cs_symbol c = Some c)).
  { intros t Ht. split; [|split; [done|exact (lookup_insert_eq (tx_cycles t) (cs_symbol c) c)]].
    exact (put_unopened c t (recorder_may_put _ _ Hro) Ht). }
  intros _. apply (moves_bind _ _ (fun _ t => unopened t /\ disk_after disk (tx_log t) = tx_cycles t /\
    tx_cycles t !! cs_symbol c = Some c)).
  { intros t (Hu & Hd & Hl). pose proof (flush_unopened t Hu) as Hf. unfold flush in *. rewrite Hd in *.
    destruct (write (tx_cycles t)); [|by destruct Hu]. split; [done|]. split; [|done].
    exact (disk_after_snoc (tx_log t) (Wrote (tx_cycles t))). }
  intros _. apply (moves_bind _ _ (fun _ => records_open (o c))).
  { intros t (Hu & Hd & Hl).
    pose proof (submit_open_opened run (o c) c t Hro ltac:(rewrite Hst; left) Hu Hl Hd) as H.
    revert H. unfold submit. destruct (run (o c) (tx_executor t)) as [e r]. intros H. exact H. }
  intros tried. apply moves_lift; [by intros t []|]. intros [[c' x] err] Hout.
  apply moves_keeping; [by intros t []| |intros _; apply moves_ret; by intros t []].
  assert (Hc' : recorder (o c) c' /\ cs_status c' ∈ [OPEN_SUBMITTED; ABORTED]).
  { unfold after_submission in Hout. cbv zeta in Hout.
    assert (Hamb : forall e c1, validate_cycle (set_updated_at (utc now)
      (set_last_error ("ambiguous open submission: " +:+ e) c)) = Ok c1 ->
      recorder (o c) c1 /\ cs_status c1 ∈ [OPEN_SUBMITTED; ABORTED]).
    { intros e c1 H1. destruct (changed_recorder _ _ _ _ Hro H1 eq_refl eq_refl eq_refl) as [H2 H3].
      split; [done|]. rewrite H3. cbn. rewrite Hst. left. }
    destruct tried as [ex|e]; [destruct (er_accepted ex)|].
    - injection Hout as <- _ _. split; [done|]. rewrite Hst. left.
    - destruct (validate_cycle (set_status ABORTED _)) as [c1|e] eqn:E1.
      + injection Hout as <- _ _. destruct (changed_recorder _ _ _ _ Hro E1 eq_refl eq_refl eq_refl) as [H2 H3].
        split; [done|]. rewrite H3. right. left.
      + apply bind_Ok in Hout as (c1 & E2 & [= <- _ _]). by eapply Hamb.
    - apply bind_Ok in Hout as (c1 & E2 & [= <- _ _]). by eapply Hamb. }
  destruct Hc' as [Hr Hs]. intros t. by apply put_opened.
Qed.

(** ** The whole run *)
Lemma begin_unopened e : unopened (begin disk e).
Proof.
  assert (Hc : continues disk) by (split; [done|]; intros c0 H0; exists c0; auto).
  assert (Hg : good disk []) by (split; [done|]; by intros o ?%elem_of_nil).
  split; [|by intros o ?%elem_of_nil]. split; [|done].
  intros [|x pre] post; cbn; [done|]. by intros [=].
Qed.
Lemma decide_open_key reconciled d :
  reconcile config (disk !! hs_symbol s) s now = Ok reconciled ->
  decide_cycle config s now reconciled = Ok d -> hd_action d = OPEN_HEDGE -> active_cycle reconciled = None ->
  hd_snapshot d = s /\
  (forall c0, disk !! hs_symbol s = Some c0 -> hd_cycle_key d <> cs_cycle_key c0 /\ finished).
Proof.
  intros Hr Hd Ha Hn. unfold decide_cycle in Hd. apply bind_Ok in Hd as (d0 & He & Hd).
  apply evaluate_Ok in He as (_ & a & ch & _ & _ & ->). destruct reconciled as [c|].
  - unfold active_cycle in Hn. destruct (active c) eqn:Eact; [done|].
    assert (Ht : terminal (cs_status c) = true) by (unfold active in Eact; by apply negb_false_iff).
    rewrite Ht in Hd. cbn [andb] in Hd. destruct (bool_decide _) eqn:Eo; cbn [andb] in Hd.
    2: { injection Hd as <-. by apply bool_decide_eq_false in Eo. }
    destruct (String.eqb_spec (hd_cycle_key (decision_of s a ch)) (cs_cycle_key c)) as [|Hne]; injection Hd as <-; [done|].
    split; [done|]. intros c0 H0. assert (Hf : finished) by (exists c; done).
    split; [|done]. destruct (reconciled_may_put c Hr) as [_ Hk].
    unfold reconcile in Hr. rewrite H0 in Hr. destruct (negb (active c0)); [by injection Hr as <-|].
    assert (cs_cycle_key c = cs_cycle_key c0) as <-; [|done].
    destruct (negb (same_cycle_identity config c0 s)); apply fmap_Ok in Hr as (c1 & H1 & [= ->]);
      [|destruct (ha_funding_confirmed _)]; by apply validate_cycle_Ok in H1 as (sym & _ & ->).
  - injection Hd as <-. split; [done|]. intros c0 H0. unfold reconcile in Hr. rewrite H0 in Hr.
    destruct (negb (active c0)); [done|]. destruct (negb _); by apply fmap_Ok in Hr as (? & _ & ?).
Qed.
Lemma put_if_changed_unopened before after (t : CycleTransaction E) :
  (forall c, after = Some c -> may_put c) -> unopened t -> unopened (put_if_changed before after t).1.
Proof.
  intros Hc Ht. unfold put_if_changed. destruct after as [c|]; [|done].
  destruct (match before with Some b => cycle_eqb c b | None => false end); [done|]. by apply put_unopened, Ht; apply Hc.
Qed.
Lemma process_body_safe executor execute e :
  safe (process_body config blake2b executor write s now execute (begin disk e)).1.
Proof.
  pose proof (begin_unopened e) as Ht. unfold process_body, mbind, io_bind, read, lift, mret, io_ret. cbn beta iota.
  change (tx_cycles (begin disk e)) with disk.
  destruct (reconcile config (disk !! hs_symbol s) s now) as [reconciled|x] eqn:Er; [|by destruct Ht].
  destruct (decide_cycle config s now reconciled) as [d|x] eqn:Ed; [|by destruct Ht].
  destruct execute; [|by destruct Ht]. cbn [negb].
  destruct (cf_execution_enabled config); [|by destruct Ht]. cbn [check].
  destruct executor as [run|]; [|by destruct Ht].
  assert (Hput : forall c, reconciled = Some c -> may_put c) by (intros c ->; by apply reconciled_may_put).
  pose proof (put_if_changed_unopened (disk !! hs_symbol s) reconciled _ Hput Ht) as H1.
  destruct (put_if_changed _ _ _) as [t1 [u|x]]; cbn in H1; [|by destruct H1].
  pose proof (flush_unopened t1 H1) as H2. destruct (flush write t1) as [t2 [u'|x]]; cbn in H2; [|by destruct H2].
  destruct (decide (hd_action d = OPEN_HEDGE)) as [Ho|Ho].
  - unfold act. rewrite Ho. destruct (active_cycle reconciled) eqn:Eac; [by destruct H2|].
    destruct (decide_open_key _ _ Er Ed Ho Eac) as [Hs Hk]. by apply process_open_safe.
  - destruct reconciled as [c|]; [by eapply act_other_safe; auto|by eapply act_none_safe].
Qed.
End Cut.

(** C2. Cut a run anywhere, by a crash or a kill: what is on file leaves other symbols
    alone, and the symbol's cycle keeps its key unless it is over.  Once an open has
    been submitted the file records it, with its client id and a key, and that key is
    not the one of the cycle it replaced, which was over.  So no later run submits
    another open for a key while the file holds its cycle. *)
Theorem a_cut_run_never_repeats_an_open {E} config blake2b (executor : option (Order -> io E ExecutionResult))
    write clock s now execute disk e pre post :
  let at_ := match execute, clock with true, Some t => instant t | _, _ => instant now end in
  canonical_symbol (hs_symbol s) = Ok (hs_symbol s) ->
  (forall c, disk !! hs_symbol s = Some c -> cs_symbol c = hs_symbol s) ->
  tx_log (process config blake2b executor write clock s now execute disk e).1 = pre ++ post ->
  let file := disk_after disk pre in
  let over := exists r, reconcile config (disk !! hs_symbol s) s at_ = Ok (Some r) /\ active r = false in
  (forall i, i <> hs_symbol s -> file !! i = disk !! i) /\
  (forall c0, disk !! hs_symbol s = Some c0 ->
     exists c, file !! hs_symbol s = Some c /\ (cs_cycle_key c = cs_cycle_key c0 \/ over)) /\
  (forall symbol size cloid t, Submitted (OpenOrder symbol size cloid t) ∈ pre ->
     exists c, file !! hs_symbol s = Some c /\ cs_open_cloid c = cloid /\
       cloid = stable_cloid blake2b (cs_cycle_key c) "open:1" /\ cs_status c ∈ [OPEN_SUBMITTED; ABORTED] /\
       forall c0, disk !! hs_symbol s = Some c0 -> cs_cycle_key c <> cs_cycle_key c0 /\ over).
Proof.
  cbv zeta. intros Hcan Hkeyed Hlog. unfold process in Hlog.
  set (at_ := match execute, clock with true, Some t => instant t | _, _ => instant now end) in *. clearbody at_.
  assert (Hsafe : safe config blake2b s at_ disk
    (if aware now then (transaction write (process_body config blake2b executor write s at_ execute) (begin disk e)).1
     else begin disk e)).
  { destruct (aware now); [|by apply begin_unopened].
    pose proof (process_body_safe config blake2b write s at_ disk Hcan Hkeyed executor execute e) as H.
    destruct (transaction_log write (process_body config blake2b executor write s at_ execute) (begin disk e)) as [-> | ->];
      [done|by apply flush_safe]. }
  destruct (aware now); cbn [negb fst] in *; destruct Hsafe as [Hcut _];
    destruct (Hcut pre post Hlog) as [[H1 H2] H3]; (split; [done|]; split; [done|]);
    intros symbol size cloid t Hin; exact (H3 _ Hin eq_refl).
Qed.

(** ** A flat position under a live cycle *)
Lemma validate_cycle_again c c1 :
  validate_cycle c = Ok c -> cs_symbol c1 = cs_symbol c -> cs_settlement_at c1 = cs_settlement_at c ->
  cs_created_at c1 = cs_created_at c -> aware (cs_updated_at c1) = true ->
  cs_close_attempt_count c1 = cs_close_attempt_count c -> cs_adjustment_count c1 = cs_adjustment_count c ->
  cs_network c1 = cs_network c -> cs_hedge_account_kind c1 = cs_hedge_account_kind c ->
  cs_open_submitted_at c1 = cs_open_submitted_at c -> cs_close_submitted_at c1 = cs_close_submitted_at c ->
  aware_or_none (cs_adjust_submitted_at c1) = true ->
  validate_cycle c1 = Ok (with_symbol c1 (cs_symbol c)).
Proof.
  intros H E1 E2 E3 E4 E5 E6 E7 E8 E9 E10 E11. unfold validate_cycle in *.
  rewrite E1, E2, E3, E4, E5, E6, E7, E8, E9, E10, E11. inv_ok H. rewrite Hok. cbn [mbind result_bind].
  assert (a = cs_symbol c) as -> by (rewrite <- H; done).
  inv_checks. to_prop. rewrite H3, H5, H0, H2. cbn [andb check mbind result_bind].
  rewrite (proj2 (Z.leb_le _ _) Hok1), (proj2 (Z.leb_le _ _) Hok2).
  rewrite (bool_decide_eq_true_2 _ Hok3), (bool_decide_eq_true_2 _ Hok4). done.
Qed.
(** The policy on a flat hedge account with a live cycle of its own. *)
Lemma decide_flat config s now c d :
  active c = true -> same_cycle_identity config c s = true -> addresses_equal s = false ->
  flat (ap_size (hedge_position s)) = true -> ha_unknown_open_orders (hs_hedge_account s) = false ->
  decide_cycle config s now (Some c) = Ok d -> hd_action d = ch_action (choose_flat c).
Proof.
  intros Ha Hid Hadr Hf Hu H. unfold decide_cycle in H. apply bind_Ok in H as (d0 & He & H).
  assert (Hterm : terminal (cs_status c) = false) by (unfold active in Ha; by apply negb_true_iff).
  rewrite Hterm in H. cbn [andb] in H. injection H as <-.
  apply evaluate_Ok in He as (_ & a & ch & Hass & Hch & ->). assert (Hac : active_cycle (Some c) = Some c) by (unfold active_cycle; by rewrite Ha).
  rewrite !Hac in Hch.
  apply assess_Ok in Hass as (_ & Hcur & _). rewrite same_cycle_identity_spec, negb_true_iff in Hid.
  unfold choose in Hch. rewrite Hadr, Hid, Hcur, Hf, Hu in Hch. cbn [negb] in Hch.
  injection Hch as <-. done.
Qed.

(** An armed cycle with no adjustment outstanding reconciles to an armed one. *)
Lemma reconcile_armed config s now c r :
  cs_status c = ARMED -> truthy (cs_pending_adjust_cloid c) = false -> same_cycle_identity config c s = true ->
  canonical_symbol (hs_symbol s) = Ok (hs_symbol s) -> reconcile config (Some c) s now = Ok r ->
  exists c', r = Some c' /\ cs_status c' = ARMED /\ cs_symbol c' = hs_symbol s /\ active c' = true /\
    same_cycle_identity config c' s = true.
Proof.
  intros Hst Hp Hid Hcan H. unfold reconcile in H. unfold active in H. rewrite Hst, Hid in H. cbn [terminal negb] in H.
  change (terminal ARMED) with false in H. cbn [negb] in H. cbv zeta in H.
  assert (Hl : reconcile_locals config c (hs_hedge_account s) now = locals_of c).
  { unfold reconcile_locals. rewrite reconcile_adjust_idle by done.
    unfold reconcile_open, reconcile_close, reconcile_settlement, locals_of. cbn. by rewrite Hst. }
  rewrite Hl in H. apply fmap_Ok in H as (c1 & H & ->). exists c1. split; [done|].
  assert (Hs : cs_symbol c = hs_symbol s).
  { unfold same_cycle_identity in Hid. to_prop. by apply String.eqb_eq. }
  apply validate_cycle_Ok in H as (sym & Hsym & ->).
  assert (sym = hs_symbol s) as ->.
  { destruct (ha_funding_confirmed _); cbn in Hsym; rewrite Hs, Hcan in Hsym; by injection Hsym. }
  unfold active, same_cycle_identity in *. rewrite Hs in Hid.
  destruct (ha_funding_confirmed _); cbn; rewrite Hst; by split_and!.
Qed.

(** ** Two ends the lifecycle does not reach *)
(** A close that fills while an adjustment is still pending is not recognised: on
    the flat position the adjustment is read as having shrunk the hedge, the cycle is
    taken back to [HEDGED] and the policy then asks for recovery, where without the
    pending adjustment the same snapshot completes the cycle. *)
Theorem completed_close_is_lost_behind_an_adjustment config s now c :
  active c = true -> same_cycle_identity config c s = true -> addresses_equal s = false ->
  validate_cycle c = Ok c ->
  ha_unknown_open_orders (hs_hedge_account s) = false ->
  cs_status c = CLOSE_SUBMITTED -> flat (ap_size (hedge_position s)) = true ->
  dec_ltb (dec_abs (ap_size (hedge_position s))) (dec_abs (cs_pre_adjust_hedge_size c)) = true ->
  exists c', reconcile config (Some c) s now = Ok (Some c') /\
    (truthy (cs_pending_adjust_cloid c) = false -> cs_status c' = COMPLETED) /\
    (truthy (cs_pending_adjust_cloid c) = true -> cs_status c' ∈ [HEDGED; AWAITING_FUNDING] /\
       forall d, decide_cycle config s now (Some c') = Ok d -> hd_action d = RECOVER).
Proof.
  intros Ha Hid Hadr Hv Hu Hst Hf Hlt. pose proof Hid as Hid'. unfold reconcile. rewrite Ha, Hid. cbn [negb]. cbv zeta.
  set (a := hs_hedge_account s) in *. set (l := reconcile_locals config c a now).
  change (ap_size (hedge_position s)) with (ap_size (ha_position a)) in Hf, Hlt.
  assert (Hl : (truthy (cs_pending_adjust_cloid c) = false -> lo_status l = COMPLETED) /\
    (truthy (cs_pending_adjust_cloid c) = true -> lo_status l ∈ [HEDGED; AWAITING_FUNDING]) /\
    aware_or_none (lo_adjust_at l) = true).
  { subst l. unfold reconcile_locals, reconcile_adjust. cbn [locals_of lo_pending lo_pre_adjust].
    destruct (truthy (cs_pending_adjust_cloid c)).
    - rewrite Hlt. cbn. unfold reconcile_settlement. cbn.
      destruct (instant (cs_settlement_at c) <=? now); cbn; (split; [done|]; split; [set_solver|done]).
    - unfold reconcile_close, reconcile_open, locals_of. cbn. rewrite Hst. cbn. rewrite Hf. cbn.
      split; [done|]. split; [done|]. unfold validate_cycle in Hv. inv_ok Hv. inv_checks. by to_prop. }
  destruct Hl as (Hl1 & Hl2 & Hl3).
  match goal with |- exists _, Some <$> validate_cycle ?x = _ /\ _ =>
    assert (Hx : validate_cycle x = Ok (with_symbol x (cs_symbol c)))
      by (apply (validate_cycle_again c); try done; by destruct (ha_funding_confirmed a)); rewrite Hx; clear Hx;
    set (c1 := x) end.
  exists (with_symbol c1 (cs_symbol c)). split; [done|].
  assert (Hst' : cs_status c1 = lo_status l) by (subst c1; by destruct (ha_funding_confirmed a)).
  split; [by rewrite <- Hst' in Hl1|]. intros Hp. specialize (Hl2 Hp). rewrite <- Hst' in Hl2. split; [done|].
  intros d Hd. apply decide_flat in Hd; try done.
  - rewrite Hd. unfold choose_flat. cbn [with_symbol cs_status].
    apply list_elem_of_In in Hl2. destruct Hl2 as [<-|[<-|[]]]; reflexivity.
  - unfold active. cbn [with_symbol cs_status]. apply list_elem_of_In in Hl2. destruct Hl2 as [<-|[<-|[]]]; reflexivity.
  - subst c1. by destruct (ha_funding_confirmed a).
Qed.

(** An armed cycle without a hedge position is never left: whatever the executing
    run sees of the same accounts, it reconciles to [ARMED] again, the policy holds
    and no order is sent, so the symbol is not hedged for any later settlement. *)
Theorem an_armed_cycle_is_never_left {E} config blake2b (executor : option (Order -> io E ExecutionResult))
    write clock s now execute disk e c :
  canonical_symbol (hs_symbol s) = Ok (hs_symbol s) ->
  disk !! hs_symbol s = Some c -> cs_status c = ARMED -> truthy (cs_pending_adjust_cloid c) = false ->
  same_cycle_identity config c s = true -> addresses_equal s = false ->
  flat (ap_size (hedge_position s)) = true -> ha_unknown_open_orders (hs_hedge_account s) = false ->
  let t := (process config blake2b executor write clock s now execute disk e).1 in
  silent (tx_log t) /\ exists c', disk_after disk (tx_log t) !! hs_symbol s = Some c' /\ cs_status c' = ARMED.
Proof.
  cbv zeta. intros Hcan Hc Hst Hp Hid Hadr Hf Hu. unfold process.
  set (at_ := match execute, clock with true, Some t => instant t | _, _ => instant now end). clearbody at_.
  assert (Hnone : silent (tx_log (begin disk e)) /\
    exists c', disk_after disk (tx_log (begin disk e)) !! hs_symbol s = Some c' /\ cs_status c' = ARMED).
  { split; [by constructor|]. by exists c. }
  destruct (aware now); cbn [negb fst]; [|done].
  unfold transaction, process_body, mbind, io_bind, read, lift, mret, io_ret. cbn beta iota.
  change (tx_cycles (begin disk e)) with disk. rewrite Hc.
  destruct (reconcile config (Some c) s at_) as [r|x] eqn:Er; [|done].
  destruct (reconcile_armed _ _ _ _ _ Hst Hp Hid Hcan Er) as (c' & -> & Hst' & Hsym & Hact & Hid').
  destruct (decide_cycle config s at_ (Some c')) as [d|x] eqn:Ed; [|done].
  destruct execute; cbn [negb]; [|done].
  destruct (cf_execution_enabled config); cbn [check]; [|done]. destruct executor as [run|]; [|done].
  assert (Hhold : hd_action d = HOLD).
  { rewrite (decide_flat _ _ _ _ _ Hact Hid' Hadr Hf Hu Ed). unfold choose_flat. by rewrite Hst'. }
  assert (Hput : exists t1, put_if_changed (Some c) (Some c') (begin disk e) = (t1, Ok tt) /\ silent (tx_log t1) /\
    tx_log t1 = [] /\ exists c2, tx_cycles t1 !! hs_symbol s = Some c2 /\ cs_status c2 = ARMED).
  { unfold put_if_changed. destruct (cycle_eqb c' c).
    - exists (begin disk e). split_and!; try done; [by constructor|by exists c].
    - eexists. split_and!; try done; [by constructor|]. exists c'. cbn. by rewrite Hsym, lookup_insert_eq. }
  destruct Hput as (t1 & -> & Hs1 & Hl1 & Hc1).
  assert (Hflush : forall t1 : CycleTransaction E,
    (tx_log t1 = [] \/ tx_dirty t1 = false /\ tx_log t1 = [Wrote (tx_cycles t1)]) ->
    (exists c2, tx_cycles t1 !! hs_symbol s = Some c2 /\ cs_status c2 = ARMED) ->
    let t2 := (flush write t1).1 in
    (tx_log t2 = [] \/ tx_dirty t2 = false /\ tx_log t2 = [Wrote (tx_cycles t2)]) /\
    exists c2, tx_cycles t2 !! hs_symbol s = Some c2 /\ cs_status c2 = ARMED).
  { clear. intros t1 Hl Hc. unfold flush. destruct (tx_dirty t1) eqn:Ed; [|split; [destruct Hl as [?|[_ ?]]; cbn; auto|done]].
    destruct Hl as [Hl|[Hd _]]; [|congruence].
    destruct (write (tx_cycles t1)); cbn; (split; [|done]); [right; by rewrite Hl|by left]. }
  assert (Hend : forall t2 : CycleTransaction E,
    (tx_log t2 = [] \/ tx_dirty t2 = false /\ tx_log t2 = [Wrote (tx_cycles t2)]) ->
    (exists c2, tx_cycles t2 !! hs_symbol s = Some c2 /\ cs_status c2 = ARMED) ->
    silent (tx_log t2) /\ exists c', disk_after disk (tx_log t2) !! hs_symbol s = Some c' /\ cs_status c' = ARMED).
  { intros t2 [->|[_ ->]] Hc2; [done|]. split; [by repeat constructor|exact Hc2]. }
  destruct (Hflush t1 ltac:(by left) Hc1) as [Hl2 Hc2]. destruct (flush write t1) as [t2 [u|x]]; cbn [fst] in Hl2, Hc2; [|by apply Hend].
  unfold act. rewrite Hhold. cbn.
  destruct (Hflush t2 Hl2 Hc2) as [Hl3 Hc3]. destruct (flush write t2) as [t3 [u'|x]]; cbn [fst] in *; by apply Hend.
Qed.

(** ** Concrete runs *)
Module CoordinatorExample.
Import PolicyExample.
Definition blake2b (s : string) : string := s.
Definition write (cs : Cycles) : result unit := Ok tt.
(** An exchange that accepts what it is sent, and one whose answer is lost. *)
Definition fill (o : Order) : io unit ExecutionResult := fun e =>
  (e, Ok {| er_accepted := true; er_requested_size := order_size o; er_reported_filled_size := order_size o;
            er_raw := JNull; er_error := "" |}).
Definition lost (o : Order) : io unit ExecutionResult := fun e => (e, Raise (Exn "TimeoutError" "read timed out")).
Definition step (run : Order -> io unit ExecutionResult) (disk : Cycles) (s : HedgeSnapshot) (seconds_later : Z) : Cycles :=
  disk_after disk (tx_log (process config blake2b (Some run) write None s (plus_us NOW (seconds seconds_later)) true
                             disk tt).1).
Definition status_of (disk : Cycles) : option HedgeCycleStatus := cs_status <$> disk !! "xyz:SKHX".
(** Open, hold the hedge, shrink it (the answer is lost), close it when the primary
    position is gone, and find it flat: the cycle that closed ends in recovery. *)
Definition d1 : Cycles := step fill ∅ opening 0.
Definition d2 : Cycles := step fill d1 hedged 5.
Definition d3 : Cycles := step lost d2 shrunk 10.
Definition d4 : Cycles := step fill d3 (snapshot_with ZERO (dec_of_Z (-100))) 15.
Definition d5 : Cycles := step fill d4 (snapshot_with ZERO ZERO) 20.
Example statuses : map status_of [d1; d2; d3; d4; d5] =
  [Some OPEN_SUBMITTED; Some HEDGED; Some HEDGED; Some CLOSE_SUBMITTED; Some RECOVERY_REQUIRED].
Proof. vm_compute. reflexivity. Qed.
(** The run of the first step, and the file when it dies after the first write. *)
Definition opening_run : CycleTransaction unit * result CoordinatorResult :=
  process config blake2b (Some fill) write None opening NOW true ∅ tt.
Definition armed_file : Cycles := disk_after ∅ (take 1 (tx_log opening_run.1)).
Example armed_on_file : status_of armed_file = Some ARMED.
Proof. vm_compute. reflexivity. Qed.
(** A close the exchange refuses, then the next attempt at it. *)
Definition refuse (o : Order) : io unit ExecutionResult := fun e =>
  (e, Ok {| er_accepted := false; er_requested_size := order_size o; er_reported_filled_size := ZERO;
            er_raw := JNull; er_error := "insufficient margin" |}).
Definition primary_gone : HedgeSnapshot := snapshot_with ZERO (dec_of_Z (-100)).
Definition refused : Cycles := step refuse d2 primary_gone 15.
Definition retry_run : CycleTransaction unit * result CoordinatorResult :=
  process config blake2b (Some fill) write None primary_gone (plus_us NOW (seconds 20)) true refused tt.
Example retried : status_of refused = Some CLOSE_PARTIAL /\
  map order_cloid (omap (fun x => match x with Submitted o => Some o | _ => None end) (tx_log retry_run.1)) =
  ["0xfunding-hedge|mainnet:0xaaa:0xbbb:xyz:SKHX:1783688400000|close:2"].
Proof. vm_compute. by split. Qed.
Lemma refused_numbered : numbered_file blake2b refused.
Proof.
  assert (H : Forall (fun x => numbered blake2b x.2) (map_to_list refused)).
  { vm_compute. constructor; [by split_and!|constructor]. }
  rewrite Forall_forall in H. generalize dependent refused. intros m H i c Hi.
  apply (H (i, c)). by apply elem_of_map_to_list.
Qed.
Definition retry_facts :=
  let at_ := instant (plus_us NOW (seconds 20)) in
  match reconcile config (refused !! hs_symbol primary_gone) primary_gone at_ with
  | Ok r => match decide_cycle config primary_gone at_ r with
            | Ok d => Some (hd_action d, (fun p => (cs_close_attempt_count p, cs_cycle_key p,
                                                    truthy (cs_close_cloid p))) <$> active_cycle r)
            | Raise _ => None
            end
  | Raise _ => None
  end.
Example retry_decision :
  retry_facts = Some (CLOSE_HEDGE, Some (1, "mainnet:0xaaa:0xbbb:xyz:SKHX:1783688400000", true)).
Proof. vm_compute. reflexivity. Qed.
Definition armed : HedgeCycleState := default (cycle_in ARMED) (armed_file !! "xyz:SKHX").
Definition closing : HedgeCycleState := default (cycle_in ARMED) (d4 !! "xyz:SKHX").
End CoordinatorExample.

Lemma intent_precedes_every_order_witness :
  exists o p, Submitted o ∈ tx_log CoordinatorExample.retry_run.1 /\
    truthy (cs_close_cloid p) = true /\ cs_close_cloid p <> order_cloid o.
Proof.
  destruct (intent_precedes_every_order PolicyExample.config CoordinatorExample.blake2b (Some CoordinatorExample.fill)
    CoordinatorExample.write None CoordinatorExample.primary_gone (plus_us PolicyExample.NOW (seconds 20)) true
    CoordinatorExample.refused tt) as [[H|H] _].
  { exfalso. assert (Hb : forallb (fun x => negb (is_submission x)) (tx_log CoordinatorExample.retry_run.1) = true).
    { apply forallb_forall. intros x Hx. apply list_elem_of_In in Hx. by rewrite (proj1 (Forall_forall _ _) H x Hx). }
    vm_compute in Hb. discriminate Hb. }
  destruct H as (r & d & pre & cs & o & c & post & _ & _ & Hr & Hd & _ & Hl & _ & _ & _ & _ & Ha & Hfresh).
  assert (Hact : hd_action d = CLOSE_HEDGE /\ exists p, active_cycle r = Some p /\
            cs_close_attempt_count p = 1 /\ cs_cycle_key p = "mainnet:0xaaa:0xbbb:xyz:SKHX:1783688400000" /\
            truthy (cs_close_cloid p) = true).
  { pose proof CoordinatorExample.retry_decision as Hx. unfold CoordinatorExample.retry_facts in Hx.
    cbv zeta in Hx. cbv beta iota zeta in Hr, Hd. rewrite Hr in Hx. rewrite Hd in Hx.
    destruct (active_cycle r) as [p|]; [|discriminate Hx]. injection Hx as H1 H2 H3 H4. split; [exact H1|].
    exists p. by split_and!. }
  destruct Hact as (Hact & p & Hp & Hcount & Hkey & Ht). exists o, p. split; [|split; [exact Ht|]].
  { unfold CoordinatorExample.retry_run. rewrite Hl. apply elem_of_app. right. right. left. }
  destruct Hfresh as (p' & Hp' & Hne); [|exact Hact|].
  { exact CoordinatorExample.refused_numbered. }
  rewrite Hp in Hp'. injection Hp' as <-. apply Hne. rewrite Hkey.
  unfold announces in Ha. rewrite Hact, Hp in Ha. clear -Ha Hcount.
  destruct o as [|? ? ? ?]; [destruct Ha|]. destruct Ha as (_ & _ & -> & _). rewrite Hcount. intros m Hm.
  assert (m = 0 \/ m = 1) as [-> | ->] by lia; vm_compute; discriminate.
Defined.

Lemma dry_runs_change_nothing_witness :
  (process PolicyExample.config CoordinatorExample.blake2b (Some CoordinatorExample.fill) CoordinatorExample.write None
     PolicyExample.opening PolicyExample.NOW false ∅ tt).1 = begin ∅ tt.
Proof.
  exact (proj1 (dry_runs_change_nothing PolicyExample.config CoordinatorExample.blake2b (Some CoordinatorExample.fill)
    CoordinatorExample.write None PolicyExample.opening PolicyExample.NOW false ∅ tt) eq_refl).
Defined.

Lemma reconcile_follows_the_lifecycle_witness :
  exists c', reconcile PolicyExample.config (Some (PolicyExample.cycle_in OPEN_SUBMITTED)) PolicyExample.hedged
    (instant PolicyExample.NOW) = Ok (Some c') /\ may_move false OPEN_SUBMITTED (cs_status c') = true.
Proof.
  destruct (reconcile PolicyExample.config (Some (PolicyExample.cycle_in OPEN_SUBMITTED)) PolicyExample.hedged
    (instant PolicyExample.NOW)) as [[c'|]|e] eqn:E; [|vm_compute in E; discriminate E..].
  exists c'. split; [reflexivity|].
  exact (proj1 (proj2 (proj2 (reconcile_follows_the_lifecycle _ _ _ _ _ E)) eq_refl eq_refl)).
Defined.

Lemma a_cut_run_never_repeats_an_open_witness :
  exists c, disk_after ∅ (tx_log CoordinatorExample.opening_run.1) !! "xyz:SKHX" = Some c /\
    cs_status c ∈ [OPEN_SUBMITTED; ABORTED].
Proof.
  destruct (a_cut_run_never_repeats_an_open PolicyExample.config CoordinatorExample.blake2b (Some CoordinatorExample.fill)
    CoordinatorExample.write None PolicyExample.opening PolicyExample.NOW true ∅ tt
    (tx_log CoordinatorExample.opening_run.1) [] ltac:(vm_compute; reflexivity) ltac:(vm_compute; discriminate)
    ltac:(rewrite app_nil_r; reflexivity)) as (_ & _ & H).
  destruct (H "xyz:SKHX" (Dec true 100000 (-3))
    (stable_cloid CoordinatorExample.blake2b "mainnet:0xaaa:0xbbb:xyz:SKHX:1783688400000" "open:1")
    (utc 1783688385000000)) as (c & H1 & _ & _ & H2 & _).
  - vm_compute. right; right; left.
  - exists c. split; [exact H1|exact H2].
Defined.

Lemma completed_close_is_lost_behind_an_adjustment_witness :
  exists c', reconcile PolicyExample.config (Some CoordinatorExample.closing) (PolicyExample.snapshot_with ZERO ZERO)
    (instant PolicyExample.NOW + 20000000) = Ok (Some c') /\ cs_status c' ∈ [HEDGED; AWAITING_FUNDING].
Proof.
  destruct (completed_close_is_lost_behind_an_adjustment PolicyExample.config (PolicyExample.snapshot_with ZERO ZERO)
    (instant PolicyExample.NOW + 20000000) CoordinatorExample.closing) as (c' & H1 & _ & H2); try (vm_compute; reflexivity).
  exists c'. split; [exact H1|]. exact (proj1 (H2 ltac:(vm_compute; reflexivity))).
Defined.

Lemma an_armed_cycle_is_never_left_witness :
  silent (tx_log (process PolicyExample.config CoordinatorExample.blake2b (Some CoordinatorExample.fill)
    CoordinatorExample.write None PolicyExample.opening (plus_us PolicyExample.NOW 5000000) true
    CoordinatorExample.armed_file tt).1).
Proof.
  refine (proj1 (an_armed_cycle_is_never_left PolicyExample.config CoordinatorExample.blake2b
    (Some CoordinatorExample.fill) CoordinatorExample.write None PolicyExample.opening
    (plus_us PolicyExample.NOW 5000000) true CoordinatorExample.armed_file tt CoordinatorExample.armed
    _ _ _ _ _ _ _ _)); vm_compute; reflexivity.
Defined.
