(* ===== verification/RiskSession.v ===== *)
(** * Risk sessions of the market agent

    market_agent/agent_risk_session.py, with the price levels of
    market_agent/agent_materialization.py: a position is protected in stages.  Until its
    first target a soft stop stands below the entry (above it, for a short); the first
    target moves it; after the second a stop trails the closes by a multiple of the
    average true range.  All prices and sizes are binary64, sizes are aligned to the
    exchange's precision in [decimal].

    What the session reads of the exchange, of the clock and of the C library is a
    record [Env]; a session is changed in place, so an operation that raises leaves what
    it had changed ([io]).  The state file, audit events and logs are left out. *)
From S2P Require Import Prelude PyStrings PyDict PyFloat PyDecimal PyFloatText FloatOrder HedgeModels.
Local Open Scope string_scope.
Local Open Scope Z_scope.

(** ** Data *)
(** The numbers Python reads in a row of [get_candles_snapshot]; [None] where the
    conversion raises. *)
Record CandleRow := { r_t : option Z; r_h : option spec_float; r_l : option spec_float; r_c : option spec_float }.
Record Candle := { open_ms : Z; close_ms : Z; high : spec_float; low : spec_float; close : spec_float }.
Record Condition := { c_type : string; c_level : spec_float }.
Record ExitLeg := { l_name : string; l_when_all : list Condition; l_close_fraction : spec_float }.

(** The attributes of the agent the sessions read. *)
Record RiskSettings := {
  risk_soft_stop_enabled : bool;
  risk_soft_stop_confirm_timeframe : string;
  risk_soft_stop_min_buffer_usd : spec_float;
  risk_soft_stop_atr_multiple : spec_float;
  risk_soft_stop_r_multiple : spec_float;
  risk_trailing_timeframe : string;
  risk_trailing_atr_period : Z;
  risk_trailing_atr_lookback_bars : Z;
  position_size_change_tol : spec_float;
  risk_time_decay_tp2_tail_lock_buffer_r : spec_float;
  risk_basis_profit_lock_tail_buffer_r : spec_float;
  risk_cross_asset_soft_stop_enabled : bool;
  risk_cross_asset_soft_stop_symbol : string;
  risk_cross_asset_soft_stop_poll_seconds : spec_float;
  risk_cross_asset_soft_stop_cache_max_age_seconds : spec_float;
  risk_cross_asset_soft_stop_start_pct : spec_float;
  risk_cross_asset_soft_stop_full_pct : spec_float;
  risk_cross_asset_soft_stop_max_buffer_r : spec_float;
  risk_cross_asset_soft_stop_release_pct : spec_float }.
(** The cache the poller fills with the price of the other asset. *)
Record CrossAssetCache := { ca_symbol : string; ca_price : option spec_float; ca_updated_at : spec_float }.

(** What one operation reads: the settings, the traded symbol, the reader's answers
    ([None] and [Raise] where it raises), [time.time()], [pow(10.0, n)] and the cache. *)
Record Env := {
  settings : RiskSettings;
  symbol : string;
  get_candles_snapshot : string -> Z -> Z -> option (list CandleRow);
  align_price_to_wire : string -> spec_float -> option spec_float;
  get_sz_decimals : string -> result Z;
  time_time : spec_float;
  pow10 : Z -> spec_float;
  cross_asset_cache : CrossAssetCache }.

(** [RiskSession]: what is fixed when it is built, and by part what changes. *)
Record RiskPlan := {
  plan_name : string;
  start_time : spec_float;
  initial_size_abs : spec_float;
  staged_exit_enabled : bool;
  initial_entry_price : spec_float;
  initial_stop_price : spec_float;
  initial_risk_price_distance : spec_float;
  tp1_price : spec_float;
  tp2_price : spec_float;
  post_tp1_stop_price : spec_float;
  staged_exit_liquidity_band : string;
  trailing_timeframe : string;
  trailing_atr_period : Z;
  trailing_atr_lookback_bars : Z;
  trailing_soft_atr_mult : spec_float;
  trailing_hard_atr_mult : spec_float }.
Record Stages := {
  tp1_hit : bool; tp2_hit : bool; tp1_hit_at : spec_float; tp2_hit_at : spec_float;
  staged_exit_size_basis_abs : spec_float;
  tp1_completed_size_abs : spec_float; tp2_completed_size_abs : spec_float;
  take_profit_legs : list ExitLeg; stop_loss_legs : list ExitLeg; executed_leg_names : list string }.
Record SoftStop := {
  stop_loss_price : spec_float; active_soft_stop_price : spec_float; active_hard_stop_price : spec_float;
  soft_stop_breach_since : spec_float; soft_stop_last_breach_price : spec_float;
  exchange_hard_stop_buffer_usd : spec_float; exchange_hard_stop_min_buffer_usd : spec_float;
  exchange_hard_stop_atr_buffer_usd : spec_float; exchange_hard_stop_r_buffer_usd : spec_float;
  exchange_hard_stop_atr_value : spec_float }.
Record Trailing := {
  locked_floor_price : spec_float;
  trailing_highest_close : spec_float; trailing_lowest_close : spec_float;
  trailing_soft_stop_price : spec_float; trailing_hard_stop_price : spec_float;
  trailing_last_bar_ms : Z; trailing_last_close_price : spec_float }.
Record CrossAsset := {
  cross_asset_soft_stop_symbol : string; cross_asset_entry_price : spec_float;
  cross_asset_entry_time : spec_float; cross_asset_peak_adverse_pct : spec_float }.
Record RiskSession := {
  side : string; expected_size : spec_float;
  plan : RiskPlan; stages : Stages; soft : SoftStop; trail : Trailing; cross : CrossAsset }.

Definition with_stages (f : Stages -> Stages) (rs : RiskSession) : RiskSession :=
  {| side := side rs; expected_size := expected_size rs; plan := plan rs; stages := f (stages rs);
     soft := soft rs; trail := trail rs; cross := cross rs |}.
Definition with_soft (f : SoftStop -> SoftStop) (rs : RiskSession) : RiskSession :=
  {| side := side rs; expected_size := expected_size rs; plan := plan rs; stages := stages rs;
     soft := f (soft rs); trail := trail rs; cross := cross rs |}.
Definition with_trail (t : Trailing) (rs : RiskSession) : RiskSession :=
  {| side := side rs; expected_size := expected_size rs; plan := plan rs; stages := stages rs;
     soft := soft rs; trail := t; cross := cross rs |}.
Definition with_cross (c : CrossAsset) (rs : RiskSession) : RiskSession :=
  {| side := side rs; expected_size := expected_size rs; plan := plan rs; stages := stages rs;
     soft := soft rs; trail := trail rs; cross := c |}.

(** ** Numbers *)
Definition num_1 : spec_float := float_int 1.
(** [x <= 0.0] *)
Definition nonpositive (x : spec_float) : bool := SFleb x float_0.
(** [x > 0.0] *)
Definition positive (x : spec_float) : bool := SFltb float_0 x.
(** [x or y] of integers, and [str(x or y).strip().lower() or y] of texts. *)
Definition int_or (x y : Z) : Z := if x =? 0 then y else x.
Definition text_or (x y : string) : string := or_else (lower (strip (or_else x y))) y.
(** [min(max(0.0, float(x or 0.0)), 1.0)] *)
Definition fraction (x : spec_float) : spec_float := float_min (clamp0 x) num_1.
(** [int(now * 1000)] *)
Definition to_ms (now : spec_float) : Z := float_trunc (float_mul now (float_int 1000)).
(** [ValueError], [TypeError] or [InvalidOperation]; an exception has the name of the first
    of them it inherits from. *)
Definition conversion_error (e : exn) : bool :=
  bool_decide (exn_class e ∈ ["InvalidOperation"; "ValueError"; "TypeError"]).
Definition two_sided (s : string) : bool := String.eqb s "long" || String.eqb s "short".

Section Operations.
  Context (E : Env).

Definition now_or (now : spec_float) : spec_float := float_or now (time_time E).

(** [_align_price_for_symbol] *)
Definition align_price_for_symbol (price : spec_float) : spec_float :=
  let raw := clamp0 price in
  if nonpositive raw then float_0 else
  match align_price_to_wire E (symbol E) raw with
  | Some wire => float_or wire float_0
  | None =>
      match get_sz_decimals E (symbol E) with
      | Ok decimals => round_at (round_digits raw 5) (Z.max 0 (6 - decimals))
      | Raise _ => raw
      end
  end.

Definition risk_direction_sign (side : string) : Z :=
  if String.eqb side "long" then 1 else if String.eqb side "short" then -1 else 0.
Definition price_from_r_multiple (side : string) (entry_price risk_distance r_multiple : spec_float) : spec_float :=
  let sign := risk_direction_sign side in
  if (sign =? 0) || nonpositive entry_price || nonpositive risk_distance then float_0
  else align_price_for_symbol
         (float_add entry_price (float_mul (float_mul (float_int sign) risk_distance) (float_or r_multiple float_0))).

(** ** Exit legs *)
Inductive ExitKind := TakeProfit | StopLoss.
Definition build_single_exit_leg (side : string) (trigger_price : spec_float) (exit_kind : ExitKind) (name : string)
  (close_fraction : spec_float) : option ExitLeg :=
  let trigger_price := align_price_for_symbol trigger_price in
  if nonpositive trigger_price then None
  else
    let is_long := String.eqb side "long" in
    let condition_type :=
      match exit_kind with
      | TakeProfit => if is_long then "price_ge" else "price_le"
      | StopLoss => if is_long then "price_le" else "price_ge"
      end in
    Some {| l_name := name; l_when_all := [{| c_type := condition_type; c_level := trigger_price |}];
            l_close_fraction := float_min (float_max (float_or close_fraction float_0) float_0) num_1 |}.

(** The entries of the parameters a staged exit is built with, as [_staged_exit_params_for_symbol] fills them. *)
Record StagedExitParams := {
  tp1_r_multiple : spec_float; tp2_r_multiple : spec_float;
  tp1_close_fraction : spec_float; tp2_close_fraction : spec_float;
  post_tp1_stop_r_multiple : spec_float; post_tp2_locked_r_multiple : spec_float;
  trailing_soft_atr_multiple : spec_float; trailing_hard_atr_multiple : spec_float; liquidity_band : string }.

Definition build_risk_session_stage_exit_legs (side : string) (entry_price stop_loss_price : spec_float) (params : StagedExitParams)
  : option (list ExitLeg * list ExitLeg) :=
  if negb (two_sided side) || nonpositive entry_price || nonpositive stop_loss_price then None
  else if String.eqb side "long" && float_ge stop_loss_price entry_price then None
  else if String.eqb side "short" && SFleb stop_loss_price entry_price then None
  else
    let risk_distance := float_abs (float_sub entry_price stop_loss_price) in
    if nonpositive risk_distance then None
    else
      let tp1_r := clamp0 (tp1_r_multiple params) in
      let tp2_r := float_max tp1_r (float_or (tp2_r_multiple params) float_0) in
      let tp1_leg := build_single_exit_leg side (price_from_r_multiple side entry_price risk_distance tp1_r)
                       TakeProfit "stage_tp1" (fraction (tp1_close_fraction params)) in
      let tp2_leg := build_single_exit_leg side (price_from_r_multiple side entry_price risk_distance tp2_r)
                       TakeProfit "stage_tp2" (fraction (tp2_close_fraction params)) in
      let initial_stop_leg := build_single_exit_leg side stop_loss_price StopLoss "stage_initial_stop" num_1 in
      let take_profit := List.filter (fun leg => positive (l_close_fraction leg)) (option_list tp1_leg ++ option_list tp2_leg)%list in
      let stop_loss := option_list initial_stop_leg in
      if bool_decide (take_profit = []) || bool_decide (stop_loss = []) then None else Some (take_profit, stop_loss).

(** ** Completed candles *)
Definition timeframe_to_seconds (timeframe : string) : Z :=
  let key := lower (strip timeframe) in
  if String.eqb key "1m" then 60 else if String.eqb key "5m" then 300
  else if String.eqb key "15m" then 900 else if String.eqb key "1h" then 3600 else 0.
(** A row whose bar has ended, when all its numbers can be read. *)
Definition completed_row (interval_seconds now_ms : Z) (row : CandleRow) : option Candle :=
  opened ← r_t row;
  let closed := opened + interval_seconds * 1000 in
  if now_ms <? closed then None
  else
    h ← r_h row; l ← r_l row; c ← r_c row;
    Some {| open_ms := opened; close_ms := closed;
            high := float_or h float_0; low := float_or l float_0; close := float_or c float_0 |}.
Definition by_close (candles : list Candle) : list Candle := sort_by (fun a b => close_ms a <=? close_ms b) candles.
Definition completed_candles_for_risk_session (rs : RiskSession) (now : spec_float) (interval : string) (min_bars : Z) : list Candle :=
  let timeframe := text_or (or_else interval (trailing_timeframe (plan rs))) "15m" in
  let interval_seconds := timeframe_to_seconds timeframe in
  if interval_seconds <=? 0 then []
  else
    let entry_time := clamp0 (start_time (plan rs)) in
    let lookback_bars := Z.max (Z.max min_bars (int_or (trailing_atr_lookback_bars (plan rs)) 200))
                               (int_or (trailing_atr_period (plan rs)) 14 + 10) in
    let start_ms := Z.max 0 (to_ms (float_sub entry_time (float_int (lookback_bars * interval_seconds)))) in
    let now_ms := to_ms (now_or now) in
    let end_ms := Z.max (start_ms + interval_seconds * 1000) now_ms in
    match get_candles_snapshot E timeframe start_ms end_ms with
    | None => []
    | Some rows => by_close (omap (completed_row interval_seconds now_ms) rows)
    end.
(** The last [n] elements. *)
Definition last_n {A} (n : Z) (l : list A) : list A := drop (List.length l - Z.to_nat n) l.
Definition latest_completed_candles_for_risk_session (rs : RiskSession) (now : spec_float) (interval : string) (min_bars : Z)
  (use_trailing_lookback : bool) : list Candle :=
  let timeframe := text_or (or_else interval (trailing_timeframe (plan rs))) "15m" in
  let interval_seconds := timeframe_to_seconds timeframe in
  if interval_seconds <=? 0 then []
  else
    let lookback_bars :=
      if use_trailing_lookback
      then Z.max (Z.max min_bars (int_or (trailing_atr_lookback_bars (plan rs)) 200)) (int_or (trailing_atr_period (plan rs)) 14 + 10)
      else Z.max min_bars 2 in
    let now_ms := to_ms (now_or now) in
    let start_ms := Z.max 0 (now_ms - (lookback_bars + 2) * interval_seconds * 1000) in
    match get_candles_snapshot E timeframe start_ms now_ms with
    | None => []
    | Some rows => last_n lookback_bars (by_close (omap (completed_row interval_seconds now_ms) rows))
    end.

(** ** Average true range *)
Definition unusable (c : Candle) : bool := nonpositive (high c) || nonpositive (low c) || nonpositive (close c).
Definition true_range (prev_close : option spec_float) (c : Candle) : spec_float :=
  match prev_close with
  | None => float_sub (high c) (low c)
  | Some p => float_max (float_max (float_sub (high c) (low c)) (float_abs (float_sub (high c) p))) (float_abs (float_sub (low c) p))
  end.
Fixpoint true_ranges (prev_close : option spec_float) (candles : list Candle) : list spec_float :=
  match candles with
  | [] => []
  | c :: candles =>
      if unusable c then true_ranges (if positive (close c) then Some (close c) else prev_close) candles
      else clamp0 (true_range prev_close c) :: true_ranges (Some (close c)) candles
  end.
(** Wilder's recursion: [((atr * (period - 1)) + tr) / period]. *)
Definition wilder_step (period : Z) (atr tr : spec_float) : spec_float :=
  float_div (float_add (float_mul atr (float_int (period - 1))) tr) (float_int period).
Definition average (period : Z) (l : list spec_float) : spec_float := float_div (float_sum l) (float_int period).
Definition atr_from_completed_candles (candles : list Candle) (period : Z) : option spec_float :=
  let usable := by_close candles in
  if Z.of_nat (List.length usable) <? Z.max 2 (period + 1) then None
  else
    let trs := true_ranges None usable in
    let period_value := Z.max 1 period in
    let n := Z.to_nat period_value in
    if Nat.ltb (List.length trs) n then None
    else Some (foldl (wilder_step period_value) (average period_value (take n trs)) (drop n trs)).

(** [_wilder_atr_rows]: the same average bar by bar; its loop skips unusable candles
    without taking their close. *)
Record AtrRow := { row_candle : Candle; row_tr : spec_float; row_atr : option spec_float }.
Fixpoint wilder_rows (period_value : Z) (prev_close : option spec_float) (trs : list spec_float) (prev_atr : spec_float)
  (candles : list Candle) : list AtrRow :=
  match candles with
  | [] => []
  | c :: candles =>
      if unusable c then wilder_rows period_value prev_close trs prev_atr candles
      else
        let tr := true_range prev_close c in
        let trs := (trs ++ [clamp0 tr])%list in
        let n := Z.to_nat period_value in
        let atr :=
          if Nat.ltb (List.length trs) n then None
          else if Nat.eqb (List.length trs) n then Some (average period_value (take n trs))
          else Some (wilder_step period_value prev_atr tr) in
        {| row_candle := c; row_tr := tr; row_atr := atr |}
          :: wilder_rows period_value (Some (close c)) trs (float_or (default float_0 atr) float_0) candles
  end.
Definition wilder_atr_rows (candles : list Candle) (period : Z) : list AtrRow :=
  wilder_rows (Z.max 1 period) None [] float_0 (by_close candles).

(** ** Sizes *)
Definition risk_session_order_qty_tolerance : spec_float :=
  let base_tol := float_max (float_quotient 1 1000000000) (position_size_change_tol (settings E)) in
  let target_symbol := canonicalize_execution_symbol (symbol E) in
  if negb (truthy target_symbol) then base_tol
  else match get_sz_decimals E target_symbol with
       | Raise _ => base_tol
       | Ok n => float_max base_tol (float_div (if 0 <? n then pow10 E (- n) else num_1) (float_int 2))
       end.
Definition is_infinite (x : spec_float) : bool := match x with S754_infinity _ => true | _ => false end.
Definition align_risk_exit_size_to_precision (size : spec_float) : result spec_float :=
  let raw_size := clamp0 size in
  if nonpositive raw_size then Ok float_0
  else match get_sz_decimals E (canonicalize_execution_symbol (symbol E)) with
       | Raise e => if conversion_error e then Ok raw_size else Raise e
       | Ok n =>
           let decimals := Z.max 0 n in
           if is_infinite raw_size then Ok float_0
           else
             let epsilon := dec_mul (Dec false 1 (- decimals)) (Dec false 1 (-9)) in
             q ← quantize_down_to (dec_add (decimal_of_float raw_size) epsilon) (- decimals);
             Ok (float_of_decimal q)
       end.
Definition align_risk_close_size_for_session (size : spec_float) (max_size : option spec_float) : result spec_float :=
  let raw_size := clamp0 size in
  align_risk_exit_size_to_precision (match max_size with Some m => float_min (clamp0 m) raw_size | None => raw_size end).
(** The share of a leg while it is listed; the defaults of a leg that is not. *)
Definition staged_tp_leg_fraction (rs : RiskSession) (leg_name : string) : spec_float :=
  match List.find (fun leg => String.eqb (l_name leg) leg_name) (take_profit_legs (stages rs)) with
  | Some leg => fraction (l_close_fraction leg)
  | None =>
      if String.eqb leg_name "stage_tp1" then float_quotient 3 10
      else if String.eqb leg_name "stage_tp2" then float_quotient 4 10 else float_0
  end.
Definition size_basis (rs : RiskSession) : spec_float :=
  float_or (float_or (staged_exit_size_basis_abs (stages rs)) (initial_size_abs (plan rs))) float_0.
Definition staged_tp_target_size_abs (rs : RiskSession) (leg_name : string) : result spec_float :=
  align_risk_exit_size_to_precision (clamp0 (float_mul (float_abs (size_basis rs)) (staged_tp_leg_fraction rs leg_name))).
Definition completed_size (rs : RiskSession) (leg_name : string) : spec_float :=
  if String.eqb leg_name "stage_tp1" then tp1_completed_size_abs (stages rs) else tp2_completed_size_abs (stages rs).
Definition aligned_risk_completed_size_for_session (rs : RiskSession) (leg_name : string) : result spec_float :=
  target_size ← staged_tp_target_size_abs rs leg_name;
  align_risk_close_size_for_session (clamp0 (completed_size rs leg_name))
    (if positive target_size then Some target_size else None).
Definition staged_tp_completed_size_abs (rs : RiskSession) (leg_name : string) : result spec_float :=
  if String.eqb leg_name "stage_tp1" || String.eqb leg_name "stage_tp2"
  then
    let completed := clamp0 (completed_size rs leg_name) in
    let hit := if String.eqb leg_name "stage_tp1" then tp1_hit (stages rs) else tp2_hit (stages rs) in
    target ← (if hit then staged_tp_target_size_abs rs leg_name else Ok float_0);
    Ok (float_max completed target)
  else Ok float_0.
(** [_risk_session_tp1_completed] and [_risk_session_tp2_completed] *)
Definition risk_session_tp_completed (leg_name : string) (rs : RiskSession) : result bool :=
  let hit := if String.eqb leg_name "stage_tp1" then tp1_hit (stages rs) else tp2_hit (stages rs) in
  if hit then Ok true
  else if bool_decide ("take_profit::" ++ leg_name ∈ executed_leg_names (stages rs)) then Ok true
  else
    target_size ← staged_tp_target_size_abs rs leg_name;
    let qty_tol := risk_session_order_qty_tolerance in
    if SFleb target_size qty_tol then Ok true
    else Ok (float_ge (clamp0 (completed_size rs leg_name)) (clamp0 (float_sub target_size qty_tol))).

(** ** The soft stop of a stage *)
Record HardStopBuffer := {
  buffer_usd : spec_float; min_buffer_usd : spec_float; atr_buffer_usd : spec_float; r_buffer_usd : spec_float; atr_value : spec_float }.
Definition atr_bars (rs : RiskSession) : Z := Z.max (int_or (trailing_atr_period (plan rs)) 14 + 5) 24.
Definition risk_exchange_hard_stop_buffer_details (rs : RiskSession) : HardStopBuffer :=
  let min_buffer := clamp0 (risk_soft_stop_min_buffer_usd (settings E)) in
  let atr_multiple := clamp0 (risk_soft_stop_atr_multiple (settings E)) in
  let r_multiple := clamp0 (risk_soft_stop_r_multiple (settings E)) in
  let r_buffer := float_mul (clamp0 (initial_risk_price_distance (plan rs))) r_multiple in
  let '(atr_value, atr_buffer) :=
    if positive atr_multiple
    then
      let candles := latest_completed_candles_for_risk_session rs (time_time E) (trailing_timeframe (plan rs)) (atr_bars rs) true in
      match atr_from_completed_candles candles (int_or (trailing_atr_period (plan rs)) 14) with
      | Some atr => if positive atr then (atr, float_mul atr atr_multiple) else (float_0, float_0)
      | None => (float_0, float_0)
      end
    else (float_0, float_0) in
  {| buffer_usd := float_max (float_max min_buffer atr_buffer) r_buffer;
     min_buffer_usd := min_buffer; atr_buffer_usd := atr_buffer; r_buffer_usd := r_buffer; atr_value := atr_value |}.
Definition with_buffer (b : HardStopBuffer) (st : SoftStop) : SoftStop :=
  {| stop_loss_price := stop_loss_price st; active_soft_stop_price := active_soft_stop_price st;
     active_hard_stop_price := active_hard_stop_price st; soft_stop_breach_since := soft_stop_breach_since st;
     soft_stop_last_breach_price := soft_stop_last_breach_price st;
     exchange_hard_stop_buffer_usd := clamp0 (buffer_usd b); exchange_hard_stop_min_buffer_usd := clamp0 (min_buffer_usd b);
     exchange_hard_stop_atr_buffer_usd := clamp0 (atr_buffer_usd b); exchange_hard_stop_r_buffer_usd := clamp0 (r_buffer_usd b);
     exchange_hard_stop_atr_value := clamp0 (atr_value b) |}.
Definition no_buffer : HardStopBuffer :=
  {| buffer_usd := float_0; min_buffer_usd := float_0; atr_buffer_usd := float_0; r_buffer_usd := float_0; atr_value := float_0 |}.
(** [_risk_exchange_hard_stop_price]: the price and the session with its buffer. *)
Definition risk_exchange_hard_stop_price (rs : RiskSession) (soft_stop_price : spec_float) : RiskSession * spec_float :=
  let soft := clamp0 soft_stop_price in
  if nonpositive soft then (rs, float_0)
  else
    let details := risk_exchange_hard_stop_buffer_details rs in
    let buffer := clamp0 (buffer_usd details) in
    let hard :=
      if String.eqb (side rs) "long" then clamp0 (float_sub soft buffer)
      else if String.eqb (side rs) "short" then float_add soft buffer else soft in
    (with_soft (with_buffer details) rs, align_price_for_symbol hard).
(** [_set_stage_soft_hard_stop] *)
Definition set_stage_soft_hard_stop (rs : RiskSession) (soft_stop_price : spec_float) (apply_hard_buffer : bool) : RiskSession :=
  let strategy_stop := align_price_for_symbol (clamp0 soft_stop_price) in
  let '(rs, soft) :=
    if apply_hard_buffer then risk_exchange_hard_stop_price rs strategy_stop
    else (with_soft (with_buffer no_buffer) rs, strategy_stop) in
  let rs := with_soft (fun st =>
    {| stop_loss_price := soft; active_soft_stop_price := soft; active_hard_stop_price := float_0;
       soft_stop_breach_since := float_0; soft_stop_last_breach_price := float_0;
       exchange_hard_stop_buffer_usd := exchange_hard_stop_buffer_usd st;
       exchange_hard_stop_min_buffer_usd := exchange_hard_stop_min_buffer_usd st;
       exchange_hard_stop_atr_buffer_usd := exchange_hard_stop_atr_buffer_usd st;
       exchange_hard_stop_r_buffer_usd := exchange_hard_stop_r_buffer_usd st;
       exchange_hard_stop_atr_value := exchange_hard_stop_atr_value st |}) rs in
  with_stages (fun s =>
    {| tp1_hit := tp1_hit s; tp2_hit := tp2_hit s; tp1_hit_at := tp1_hit_at s; tp2_hit_at := tp2_hit_at s;
       staged_exit_size_basis_abs := staged_exit_size_basis_abs s;
       tp1_completed_size_abs := tp1_completed_size_abs s; tp2_completed_size_abs := tp2_completed_size_abs s;
       take_profit_legs := take_profit_legs s; stop_loss_legs := []; executed_leg_names := executed_leg_names s |}) rs.

(** ** Construction *)
Definition protect_stage_tp1_against_position_entry (side : string) (legs : list ExitLeg) (tp1 position_entry_price : spec_float)
  : list ExitLeg * spec_float :=
  let protected := clamp0 position_entry_price in
  if nonpositive protected then (legs, tp1)
  else
    let protected := align_price_for_symbol protected in
    if (String.eqb side "long" && SFltb tp1 protected) || (String.eqb side "short" && float_gt tp1 protected)
    then
      (map (fun leg =>
         if String.eqb (l_name leg) "stage_tp1"
         then {| l_name := l_name leg; l_close_fraction := l_close_fraction leg;
                 l_when_all := map (fun c => if String.eqb (c_type c) "price_ge" || String.eqb (c_type c) "price_le"
                                             then {| c_type := c_type c; c_level := protected |} else c) (l_when_all leg) |}
         else leg) legs, protected)
    else (legs, tp1).

(** [_initialize_risk_session_cross_asset_reference] *)
Definition cross_asset_symbol : string := canonicalize_execution_symbol (strip (risk_cross_asset_soft_stop_symbol (settings E))).
Definition initialize_risk_session_cross_asset_reference (rs : RiskSession) : RiskSession :=
  let cache := cross_asset_cache E in
  let max_age := float_max (float_mul (float_or (risk_cross_asset_soft_stop_poll_seconds (settings E)) (float_int 10)) (float_int 3))
                           (float_or (risk_cross_asset_soft_stop_cache_max_age_seconds (settings E)) (float_int 30)) in
  if negb (risk_cross_asset_soft_stop_enabled (settings E)) || negb (truthy cross_asset_symbol) then rs
  else if String.eqb (canonicalize_execution_symbol (cross_asset_soft_stop_symbol (cross rs))) cross_asset_symbol
          && positive (cross_asset_entry_price (cross rs)) then rs
  else if negb (String.eqb (canonicalize_execution_symbol (ca_symbol cache)) cross_asset_symbol) then rs
  else match ca_price cache with
  | None => rs
  | Some price =>
      if nonpositive price || nonpositive (ca_updated_at cache)
         || float_gt (float_sub (time_time E) (ca_updated_at cache)) max_age then rs
      else with_cross {| cross_asset_soft_stop_symbol := cross_asset_symbol; cross_asset_entry_price := price;
                         cross_asset_entry_time := ca_updated_at cache; cross_asset_peak_adverse_pct := float_0 |} rs
  end.

Definition build_staged_risk_session_from_stop (side name : string) (size initial_entry_price stop_loss_price : spec_float)
  (params : StagedExitParams) (tp1_position_entry_protect_price : spec_float) (apply_stop_hard_buffer : bool) : option RiskSession :=
  if negb (positive (float_abs size)) then None
  else
    let entry_price := clamp0 initial_entry_price in
    let stop_price := clamp0 stop_loss_price in
    if negb (two_sided side) || nonpositive entry_price || nonpositive stop_price then None
    else
      let risk_distance := float_abs (float_sub entry_price stop_price) in
      if nonpositive risk_distance then None
      else
        '(take_profit, stop_loss) ← build_risk_session_stage_exit_legs side entry_price stop_price params;
        let tp1 := price_from_r_multiple side entry_price risk_distance (float_or (tp1_r_multiple params) num_1) in
        let tp2 := price_from_r_multiple side entry_price risk_distance (float_or (tp2_r_multiple params) (float_int 2)) in
        if nonpositive tp1 || nonpositive tp2 then None
        else
          let '(take_profit, tp1) := protect_stage_tp1_against_position_entry side take_profit tp1 tp1_position_entry_protect_price in
          let post_tp1_stop_r := float_or (post_tp1_stop_r_multiple params) (float_neg (float_quotient 4 10)) in
          let post_tp2_locked_r := float_or (post_tp2_locked_r_multiple params) num_1 in
          let session :=
            {| side := side; expected_size := size;
               plan := {| plan_name := name; start_time := time_time E; initial_size_abs := float_abs size;
                          staged_exit_enabled := true; initial_entry_price := entry_price; initial_stop_price := stop_price;
                          initial_risk_price_distance := risk_distance; tp1_price := tp1; tp2_price := tp2;
                          post_tp1_stop_price := price_from_r_multiple side entry_price risk_distance post_tp1_stop_r;
                          staged_exit_liquidity_band := liquidity_band params;
                          trailing_timeframe := or_else (risk_trailing_timeframe (settings E)) "15m";
                          trailing_atr_period := int_or (risk_trailing_atr_period (settings E)) 14;
                          trailing_atr_lookback_bars := int_or (risk_trailing_atr_lookback_bars (settings E)) 200;
                          trailing_soft_atr_mult := float_or (trailing_soft_atr_multiple params) (float_quotient 25 10);
                          trailing_hard_atr_mult := float_or (trailing_hard_atr_multiple params) (float_quotient 35 10) |};
               stages := {| tp1_hit := false; tp2_hit := false; tp1_hit_at := float_0; tp2_hit_at := float_0;
                            staged_exit_size_basis_abs := float_abs size;
                            tp1_completed_size_abs := float_0; tp2_completed_size_abs := float_0;
                            take_profit_legs := take_profit; stop_loss_legs := stop_loss; executed_leg_names := [] |};
               soft := with_buffer no_buffer
                         {| stop_loss_price := stop_price; active_soft_stop_price := float_0; active_hard_stop_price := float_0;
                            soft_stop_breach_since := float_0; soft_stop_last_breach_price := float_0;
                            exchange_hard_stop_buffer_usd := float_0; exchange_hard_stop_min_buffer_usd := float_0;
                            exchange_hard_stop_atr_buffer_usd := float_0; exchange_hard_stop_r_buffer_usd := float_0;
                            exchange_hard_stop_atr_value := float_0 |};
               trail := {| locked_floor_price := price_from_r_multiple side entry_price risk_distance post_tp2_locked_r;
                           trailing_highest_close := float_0; trailing_lowest_close := float_0;
                           trailing_soft_stop_price := float_0; trailing_hard_stop_price := float_0;
                           trailing_last_bar_ms := 0; trailing_last_close_price := float_0 |};
               cross := {| cross_asset_soft_stop_symbol := ""; cross_asset_entry_price := float_0;
                           cross_asset_entry_time := float_0; cross_asset_peak_adverse_pct := float_0 |} |} in
          Some (initialize_risk_session_cross_asset_reference (set_stage_soft_hard_stop session stop_price apply_stop_hard_buffer)).

(** ** The trailing stop

    [_update_staged_risk_session_trailing_state]: the session, and whether it was updated. *)
Definition py_max (l : list spec_float) : option spec_float := match l with [] => None | x :: l => Some (foldl float_max x l) end.
Definition py_min (l : list spec_float) : option spec_float := match l with [] => None | x :: l => Some (foldl float_min x l) end.
Definition with_stop_loss (price : spec_float) (st : SoftStop) : SoftStop :=
  {| stop_loss_price := price; active_soft_stop_price := active_soft_stop_price st;
     active_hard_stop_price := active_hard_stop_price st; soft_stop_breach_since := soft_stop_breach_since st;
     soft_stop_last_breach_price := soft_stop_last_breach_price st;
     exchange_hard_stop_buffer_usd := exchange_hard_stop_buffer_usd st;
     exchange_hard_stop_min_buffer_usd := exchange_hard_stop_min_buffer_usd st;
     exchange_hard_stop_atr_buffer_usd := exchange_hard_stop_atr_buffer_usd st;
     exchange_hard_stop_r_buffer_usd := exchange_hard_stop_r_buffer_usd st;
     exchange_hard_stop_atr_value := exchange_hard_stop_atr_value st |}.
Definition with_legs (take_profit stop_loss : list ExitLeg) (s : Stages) : Stages :=
  {| tp1_hit := tp1_hit s; tp2_hit := tp2_hit s; tp1_hit_at := tp1_hit_at s; tp2_hit_at := tp2_hit_at s;
     staged_exit_size_basis_abs := staged_exit_size_basis_abs s;
     tp1_completed_size_abs := tp1_completed_size_abs s; tp2_completed_size_abs := tp2_completed_size_abs s;
     take_profit_legs := take_profit; stop_loss_legs := stop_loss; executed_leg_names := executed_leg_names s |}.
(** The stops of a long and of a short position after a bar with average true range [atr]. *)
Definition trail_long (p : RiskPlan) (t : Trailing) (highest_close atr : spec_float) (bar_ms : Z) (last_close : spec_float) : Trailing :=
  let highest := float_max (trailing_highest_close t) highest_close in
  let atr_stop mult default := align_price_for_symbol (float_sub highest (float_mul (float_or mult default) atr)) in
  let locked_floor := float_max (clamp0 (locked_floor_price t)) (clamp0 (trailing_soft_stop_price t)) in
  {| locked_floor_price := locked_floor_price t; trailing_highest_close := highest; trailing_lowest_close := trailing_lowest_close t;
     trailing_soft_stop_price := float_max locked_floor (atr_stop (trailing_soft_atr_mult p) (float_quotient 25 10));
     trailing_hard_stop_price := float_max locked_floor (atr_stop (trailing_hard_atr_mult p) (float_quotient 35 10));
     trailing_last_bar_ms := bar_ms; trailing_last_close_price := last_close |}.
Definition locked_ceiling (t : Trailing) : spec_float :=
  let current_soft_stop := clamp0 (trailing_soft_stop_price t) in
  let locked := clamp0 (locked_floor_price t) in
  if positive current_soft_stop then if positive locked then float_min locked current_soft_stop else current_soft_stop else locked.
Definition trail_short (p : RiskPlan) (t : Trailing) (lowest_close atr : spec_float) (bar_ms : Z) (last_close : spec_float) : Trailing :=
  let lowest := if nonpositive (trailing_lowest_close t) then lowest_close else float_min (trailing_lowest_close t) lowest_close in
  let atr_stop mult default := align_price_for_symbol (float_add lowest (float_mul (float_or mult default) atr)) in
  let capped stop := if positive (locked_ceiling t) then float_min (locked_ceiling t) stop else stop in
  {| locked_floor_price := locked_floor_price t; trailing_highest_close := trailing_highest_close t; trailing_lowest_close := lowest;
     trailing_soft_stop_price := capped (atr_stop (trailing_soft_atr_mult p) (float_quotient 25 10));
     trailing_hard_stop_price := capped (atr_stop (trailing_hard_atr_mult p) (float_quotient 35 10));
     trailing_last_bar_ms := bar_ms; trailing_last_close_price := last_close |}.
Definition completed_since_entry (rs : RiskSession) (now : spec_float) : list Candle :=
  List.filter (fun c => to_ms (start_time (plan rs)) <=? close_ms c)
    (completed_candles_for_risk_session rs now (trailing_timeframe (plan rs)) (atr_bars rs)).
Definition update_staged_risk_session_trailing_state (rs : RiskSession) (now : spec_float) : RiskSession * bool :=
  if negb (staged_exit_enabled (plan rs)) || negb (tp2_hit (stages rs)) then (rs, false)
  else
    let atr_candles := latest_completed_candles_for_risk_session rs now (trailing_timeframe (plan rs)) (atr_bars rs) true in
    match last atr_candles with
    | None => (rs, false)
    | Some latest_bar =>
        if close_ms latest_bar <=? trailing_last_bar_ms (trail rs) then (rs, false)
        else match atr_from_completed_candles atr_candles (int_or (trailing_atr_period (plan rs)) 14) with
        | None => (rs, false)
        | Some atr =>
            let closes := map close (completed_since_entry rs now) in
            let update t :=
              let rs := with_trail t rs in
              let rs := if positive (trailing_soft_stop_price t)
                        then with_stages (fun s => with_legs (take_profit_legs s) [] s)
                               (with_soft (with_stop_loss (trailing_soft_stop_price t)) rs)
                        else rs in
              (rs, true) in
            if nonpositive atr then (rs, false)
            else match py_max closes, py_min closes with
            | Some highest, Some lowest =>
                if String.eqb (side rs) "long"
                then update (trail_long (plan rs) (trail rs) highest atr (close_ms latest_bar) (close latest_bar))
                else if String.eqb (side rs) "short"
                then update (trail_short (plan rs) (trail rs) lowest atr (close_ms latest_bar) (close latest_bar))
                else (rs, false)
            | _, _ => (rs, false)
            end
        end
    end.

(** ** Completed targets *)
Definition with_tp1 (at_ completed : spec_float) (legs : list ExitLeg) (s : Stages) : Stages :=
  {| tp1_hit := true; tp2_hit := tp2_hit s; tp1_hit_at := at_; tp2_hit_at := tp2_hit_at s;
     staged_exit_size_basis_abs := staged_exit_size_basis_abs s;
     tp1_completed_size_abs := completed; tp2_completed_size_abs := tp2_completed_size_abs s;
     take_profit_legs := legs; stop_loss_legs := stop_loss_legs s; executed_leg_names := executed_leg_names s |}.
Definition with_tp2 (at_ completed : spec_float) (legs : list ExitLeg) (s : Stages) : Stages :=
  {| tp1_hit := tp1_hit s; tp2_hit := true; tp1_hit_at := tp1_hit_at s; tp2_hit_at := at_;
     staged_exit_size_basis_abs := staged_exit_size_basis_abs s;
     tp1_completed_size_abs := tp1_completed_size_abs s; tp2_completed_size_abs := completed;
     take_profit_legs := legs; stop_loss_legs := stop_loss_legs s; executed_leg_names := executed_leg_names s |}.
Definition with_sizes (basis completed1 completed2 : spec_float) (s : Stages) : Stages :=
  {| tp1_hit := tp1_hit s; tp2_hit := tp2_hit s; tp1_hit_at := tp1_hit_at s; tp2_hit_at := tp2_hit_at s;
     staged_exit_size_basis_abs := basis; tp1_completed_size_abs := completed1; tp2_completed_size_abs := completed2;
     take_profit_legs := take_profit_legs s; stop_loss_legs := stop_loss_legs s; executed_leg_names := executed_leg_names s |}.
Definition without_leg (name : string) (legs : list ExitLeg) : list ExitLeg :=
  List.filter (fun leg => negb (String.eqb (l_name leg) name)) legs.
(** What follows the second target: no soft stop of a stage, no exchange stop. *)
Definition retire_soft_stop (price : spec_float) (st : SoftStop) : SoftStop :=
  with_buffer no_buffer
    {| stop_loss_price := price; active_soft_stop_price := float_0; active_hard_stop_price := float_0;
       soft_stop_breach_since := float_0; soft_stop_last_breach_price := float_0;
       exchange_hard_stop_buffer_usd := float_0; exchange_hard_stop_min_buffer_usd := float_0;
       exchange_hard_stop_atr_buffer_usd := float_0; exchange_hard_stop_r_buffer_usd := float_0;
       exchange_hard_stop_atr_value := float_0 |}.

(** The target of a leg is computed after the session says it is hit, before the leg goes. *)
Definition mark_hit1 (now : spec_float) (rs : RiskSession) : RiskSession :=
  with_stages (fun s => with_tp1 (if nonpositive (tp1_hit_at s) then now_or now else tp1_hit_at s)
                          (tp1_completed_size_abs s) (take_profit_legs s) s) rs.
Definition mark_hit2 (now : spec_float) (rs : RiskSession) : RiskSession :=
  with_stages (fun s => with_tp2 (if nonpositive (tp2_hit_at s) then now_or now else tp2_hit_at s)
                          (tp2_completed_size_abs s) (take_profit_legs s) s) rs.
Definition complete_tp1 (now : spec_float) : io RiskSession unit :=
  _ ← modify (mark_hit1 now);
  rs ← read id;
  target ← lift (staged_tp_target_size_abs rs "stage_tp1");
  _ ← modify (with_stages (fun s => with_tp1 (tp1_hit_at s) (float_max (tp1_completed_size_abs s) target)
                                      (without_leg "stage_tp1" (take_profit_legs s)) s));
  modify (fun rs => if positive (post_tp1_stop_price (plan rs)) then set_stage_soft_hard_stop rs (post_tp1_stop_price (plan rs)) true else rs).
Definition complete_tp2 (now : spec_float) : io RiskSession unit :=
  _ ← modify (mark_hit2 now);
  rs ← read id;
  target ← lift (staged_tp_target_size_abs rs "stage_tp2");
  _ ← modify (with_stages (fun s => with_tp2 (tp2_hit_at s) (float_max (tp2_completed_size_abs s) target) [] s));
  modify (fun rs =>
    let rs := (update_staged_risk_session_trailing_state rs now).1 in
    let trailing := clamp0 (trailing_soft_stop_price (trail rs)) in
    let soft_stop := if nonpositive trailing then clamp0 (locked_floor_price (trail rs)) else trailing in
    with_stages (fun s => with_legs (take_profit_legs s) [] s) (with_soft (retire_soft_stop soft_stop) rs)).
(** [_update_staged_risk_session_after_completed_keys] *)
Definition update_staged_risk_session_after_completed_keys (completed_keys : list string) (now : spec_float) : io RiskSession bool :=
  rs ← read id;
  if negb (staged_exit_enabled (plan rs)) then mret false
  else
    let first := bool_decide ("take_profit::stage_tp1" ∈ completed_keys) && negb (tp1_hit (stages rs)) in
    let second := bool_decide ("take_profit::stage_tp2" ∈ completed_keys) && negb (tp2_hit (stages rs)) in
    _ ← when_ first (complete_tp1 now);
    _ ← when_ second (complete_tp2 now);
    mret (first || second).

(** The sizes as they are stored in and read from the state file. *)
Definition normalize_risk_session_size_state : io RiskSession unit :=
  rs ← read id;
  when_ (staged_exit_enabled (plan rs))
    (completed1 ← lift (aligned_risk_completed_size_for_session rs "stage_tp1");
     _ ← modify (with_stages (fun s => with_sizes (staged_exit_size_basis_abs s) completed1 (tp2_completed_size_abs s) s));
     rs ← read id;
     completed2 ← lift (aligned_risk_completed_size_for_session rs "stage_tp2");
     modify (with_stages (fun s => with_sizes (staged_exit_size_basis_abs s) (tp1_completed_size_abs s) completed2 s))).

(** [_retarget_staged_exit_size_basis_after_risk_reduce] *)
Definition completed_fraction (rs : RiskSession) (leg_name : string) (old_basis : spec_float) : spec_float :=
  let share := staged_tp_leg_fraction rs leg_name in
  if if String.eqb leg_name "stage_tp1" then tp1_hit (stages rs) else tp2_hit (stages rs) then share
  else float_min share (float_div (clamp0 (completed_size rs leg_name)) old_basis).
Definition retarget_staged_exit_size_basis_after_risk_reduce (remaining_size_abs : spec_float) : io RiskSession unit :=
  rs ← read id;
  let old_basis := clamp0 (size_basis rs) in
  if nonpositive old_basis then modify (with_stages (with_sizes (clamp0 remaining_size_abs) float_0 float_0))
  else
    let fraction1 := completed_fraction rs "stage_tp1" old_basis in
    let fraction2 := completed_fraction rs "stage_tp2" old_basis in
    let completed := float_min num_1 (clamp0 (float_add fraction1 fraction2)) in
    let active := float_max (float_quotient 1 1000000000000) (float_sub num_1 completed) in
    let new_basis := float_div (clamp0 remaining_size_abs) active in
    _ ← modify (with_stages (fun s => with_sizes new_basis (tp1_completed_size_abs s) (tp2_completed_size_abs s) s));
    completed1 ← lift (align_risk_close_size_for_session (float_mul new_basis fraction1) None);
    _ ← modify (with_stages (fun s => with_sizes (staged_exit_size_basis_abs s) completed1 (tp2_completed_size_abs s) s));
    completed2 ← lift (align_risk_close_size_for_session (float_mul new_basis fraction2) None);
    modify (with_stages (fun s => with_sizes (staged_exit_size_basis_abs s) (tp1_completed_size_abs s) completed2 s)).

(** [_apply_staged_exit_early_take_profit_trim]: what is left of the closed size to be
    credited goes through the targets in order. *)
Definition set_completed (leg_name : string) (size : spec_float) (s : Stages) : Stages :=
  if String.eqb leg_name "stage_tp1"
  then with_sizes (staged_exit_size_basis_abs s) size (tp2_completed_size_abs s) s
  else with_sizes (staged_exit_size_basis_abs s) (tp1_completed_size_abs s) size s.
Fixpoint credit_targets (legs : list string) (remaining_credit : spec_float) (completed_keys : list string) : io RiskSession (list string) :=
  let qty_tol := risk_session_order_qty_tolerance in
  match legs with
  | [] => mret completed_keys
  | leg_name :: legs =>
      if SFleb remaining_credit qty_tol then mret completed_keys
      else
        rs ← read id;
        target_size ← lift (staged_tp_target_size_abs rs leg_name);
        if SFleb target_size qty_tol then credit_targets legs remaining_credit completed_keys
        else
          let prior_completed := clamp0 (completed_size rs leg_name) in
          if if String.eqb leg_name "stage_tp1" then tp1_hit (stages rs) else tp2_hit (stages rs)
          then
            _ ← modify (with_stages (set_completed leg_name (float_max prior_completed target_size)));
            credit_targets legs remaining_credit completed_keys
          else
            let credited_size := float_min remaining_credit (clamp0 (float_sub target_size prior_completed)) in
            updated ← lift (align_risk_close_size_for_session (float_add prior_completed credited_size) (Some target_size));
            _ ← modify (with_stages (set_completed leg_name updated));
            let remaining_credit := clamp0 (float_sub remaining_credit (clamp0 (float_sub updated prior_completed))) in
            credit_targets legs remaining_credit
              (if float_ge updated (float_sub target_size qty_tol) then (completed_keys ++ [("take_profit::" ++ leg_name)%string])%list else completed_keys)
  end.
Definition add_executed (keys : list string) (s : Stages) : Stages :=
  {| tp1_hit := tp1_hit s; tp2_hit := tp2_hit s; tp1_hit_at := tp1_hit_at s; tp2_hit_at := tp2_hit_at s;
     staged_exit_size_basis_abs := staged_exit_size_basis_abs s;
     tp1_completed_size_abs := tp1_completed_size_abs s; tp2_completed_size_abs := tp2_completed_size_abs s;
     take_profit_legs := take_profit_legs s; stop_loss_legs := stop_loss_legs s;
     executed_leg_names := (executed_leg_names s ++ List.filter (fun k => bool_decide (k ∉ executed_leg_names s)) keys)%list |}.
Definition apply_staged_exit_early_take_profit_trim (closed_size_abs now : spec_float) : io RiskSession (list string) :=
  completed_keys ← credit_targets ["stage_tp1"; "stage_tp2"] (clamp0 closed_size_abs) [];
  _ ← modify (with_stages (add_executed completed_keys));
  _ ← (if bool_decide (completed_keys = []) then mret false
       else update_staged_risk_session_after_completed_keys completed_keys now);
  mret completed_keys.

(** The locked floor of a tail that a time-decay exit of the second target leaves. *)
Definition risk_session_locked_floor_r (rs : RiskSession) : option spec_float :=
  let entry := clamp0 (initial_entry_price (plan rs)) in
  let risk_distance := clamp0 (initial_risk_price_distance (plan rs)) in
  let locked_price := clamp0 (locked_floor_price (trail rs)) in
  if negb (two_sided (side rs)) || nonpositive entry || nonpositive risk_distance || nonpositive locked_price then None
  else if String.eqb (side rs) "long" then Some (clamp0 (float_div (float_sub locked_price entry) risk_distance))
  else Some (clamp0 (float_div (float_sub entry locked_price) risk_distance)).
Definition adjust_time_decay_tp2_tail_locked_floor (current_r : option spec_float) (rs : RiskSession) : RiskSession :=
  match current_r, risk_session_locked_floor_r rs with
  | Some current_r, Some profile_locked_r =>
      let buffer_r := clamp0 (risk_time_decay_tp2_tail_lock_buffer_r (settings E)) in
      let adjusted := clamp0 (float_min profile_locked_r (float_sub current_r buffer_r)) in
      let new_locked_price := price_from_r_multiple (side rs) (clamp0 (initial_entry_price (plan rs)))
                                (clamp0 (initial_risk_price_distance (plan rs))) adjusted in
      if nonpositive new_locked_price then rs
      else with_trail {| locked_floor_price := new_locked_price; trailing_highest_close := float_0; trailing_lowest_close := float_0;
                         trailing_soft_stop_price := float_0; trailing_hard_stop_price := float_0;
                         trailing_last_bar_ms := 0; trailing_last_close_price := float_0 |} rs
  | _, _ => rs
  end.

(** [_risk_session_profit_r] *)
Definition risk_session_profit_r (rs : RiskSession) (price : spec_float) : option spec_float :=
  let entry := clamp0 (initial_entry_price (plan rs)) in
  let risk_distance := clamp0 (initial_risk_price_distance (plan rs)) in
  let mark := clamp0 price in
  if negb (two_sided (side rs)) || nonpositive entry || nonpositive risk_distance || nonpositive mark then None
  else if String.eqb (side rs) "long" then Some (float_div (float_sub mark entry) risk_distance)
  else Some (float_div (float_sub entry mark) risk_distance).
(** What a target taken early (by time, or by the lock of the basis) does to the session once the
    reduction is accepted and leaves a position of the session's side: the candidate is of the
    first target that is not completed, and one of the second locks the tail before the trim. *)
Definition with_expected_size (size : spec_float) (rs : RiskSession) : RiskSession :=
  {| side := side rs; expected_size := size; plan := plan rs; stages := stages rs;
     soft := soft rs; trail := trail rs; cross := cross rs |}.
Definition take_profit_early (price remaining closed_abs now : spec_float) : io RiskSession unit :=
  rs ← read id;
  completed1 ← lift (risk_session_tp_completed "stage_tp1" rs);
  completed2 ← (if completed1 : bool then lift (risk_session_tp_completed "stage_tp2" rs) else mret false);
  match risk_session_profit_r rs price with
  | None => mret tt
  | Some current_r =>
      if negb (staged_exit_enabled (plan rs)) || completed2 then mret tt
      else
        _ ← modify (with_expected_size remaining);
        _ ← when_ completed1 (modify (adjust_time_decay_tp2_tail_locked_floor (Some current_r)));
        _ ← apply_staged_exit_early_take_profit_trim closed_abs now;
        mret tt
  end.
(** The lock of the basis when both targets are completed: the stop the tail is tightened to, and
    the session with it. *)
Definition tail_target_stop (price : spec_float) (rs : RiskSession) : option spec_float :=
  let entry := clamp0 (initial_entry_price (plan rs)) in
  let risk_distance := clamp0 (initial_risk_price_distance (plan rs)) in
  let buffer_r := clamp0 (float_or (risk_basis_profit_lock_tail_buffer_r (settings E)) (float_quotient 15 100)) in
  if negb (two_sided (side rs)) || nonpositive entry || nonpositive risk_distance then None
  else
    let is_long := String.eqb (side rs) "long" in
    let offset := float_mul buffer_r risk_distance in
    let raw_stop := align_price_for_symbol (if is_long then float_sub price offset else float_add price offset) in
    let current_stop := clamp0 (float_or (float_or (float_or (trailing_soft_stop_price (trail rs)) (stop_loss_price (soft rs)))
                                                   (locked_floor_price (trail rs))) float_0) in
    let slack := float_quotient 1 1000000000000 in
    if is_long then
      let target_stop := if positive current_stop then float_max current_stop raw_stop else raw_stop in
      if SFleb target_stop (float_add current_stop slack) then None else Some target_stop
    else
      let target_stop := if positive current_stop then float_min current_stop raw_stop else raw_stop in
      if positive current_stop && float_ge target_stop (float_sub current_stop slack) then None else Some target_stop.
Definition tighten_tail_stop (target_stop : spec_float) (rs : RiskSession) : RiskSession :=
  let target_stop := clamp0 target_stop in
  if nonpositive target_stop then rs
  else
    let previous := clamp0 (locked_floor_price (trail rs)) in
    let floor :=
      if String.eqb (side rs) "long" then float_max previous target_stop
      else if String.eqb (side rs) "short" then if positive previous then float_min previous target_stop else target_stop
      else locked_floor_price (trail rs) in
    with_soft (with_stop_loss target_stop) (with_trail
      {| locked_floor_price := floor; trailing_highest_close := trailing_highest_close (trail rs);
         trailing_lowest_close := trailing_lowest_close (trail rs);
         trailing_soft_stop_price := target_stop; trailing_hard_stop_price := trailing_hard_stop_price (trail rs);
         trailing_last_bar_ms := trailing_last_bar_ms (trail rs);
         trailing_last_close_price := trailing_last_close_price (trail rs) |} rs).
Definition lock_tail (price : spec_float) : io RiskSession unit :=
  rs ← read id;
  completed1 ← lift (risk_session_tp_completed "stage_tp1" rs);
  completed2 ← (if completed1 : bool then lift (risk_session_tp_completed "stage_tp2" rs) else mret false);
  if negb (staged_exit_enabled (plan rs)) || negb completed2 then mret tt
  else match tail_target_stop price rs with
       | None => mret tt
       | Some target_stop => modify (tighten_tail_stop target_stop)
       end.

(** ** Stop rules *)
(** [_risk_session_cross_asset_soft_stop_adjustment]: the session with its peak, and the
    stop an adverse move of the other asset loosens. *)
Definition with_peak (peak : spec_float) (c : CrossAsset) : CrossAsset :=
  {| cross_asset_soft_stop_symbol := cross_asset_soft_stop_symbol c; cross_asset_entry_price := cross_asset_entry_price c;
     cross_asset_entry_time := cross_asset_entry_time c; cross_asset_peak_adverse_pct := peak |}.
Definition cross_asset_strength (peak_adverse_pct current_adverse_pct : spec_float) : spec_float :=
  let release_pct := clamp0 (risk_cross_asset_soft_stop_release_pct (settings E)) in
  let buffer_basis_pct :=
    if positive release_pct && SFleb current_adverse_pct (clamp0 (float_sub peak_adverse_pct release_pct))
    then float_min peak_adverse_pct (float_add current_adverse_pct (float_mul release_pct (float_quotient 1 2)))
    else peak_adverse_pct in
  let start_pct := clamp0 (risk_cross_asset_soft_stop_start_pct (settings E)) in
  let full_pct := float_max (float_add start_pct (float_quotient 1 1000000000))
                            (float_or (risk_cross_asset_soft_stop_full_pct (settings E)) (float_quotient 14 100)) in
  float_min num_1 (clamp0 (float_div (float_sub buffer_basis_pct start_pct) (float_sub full_pct start_pct))).
Definition risk_session_cross_asset_soft_stop_adjustment (rs : RiskSession) (base_soft_stop : spec_float) : RiskSession * spec_float :=
  if negb (risk_cross_asset_soft_stop_enabled (settings E)) then (rs, base_soft_stop)
  else if negb (two_sided (side rs)) || nonpositive base_soft_stop then (rs, base_soft_stop)
  else
    let rs := initialize_risk_session_cross_asset_reference rs in
    let entry_price := cross_asset_entry_price (cross rs) in
    if negb (truthy cross_asset_symbol)
       || negb (String.eqb (canonicalize_execution_symbol (cross_asset_soft_stop_symbol (cross rs))) cross_asset_symbol)
       || nonpositive entry_price then (rs, base_soft_stop)
    else
      let cache := cross_asset_cache E in
      let max_age := float_max num_1 (float_or (risk_cross_asset_soft_stop_cache_max_age_seconds (settings E)) (float_int 30)) in
      match ca_price cache with
      | None => (rs, base_soft_stop)
      | Some current_price =>
          if negb (String.eqb (canonicalize_execution_symbol (ca_symbol cache)) cross_asset_symbol)
             || nonpositive current_price || nonpositive (ca_updated_at cache)
             || float_gt (float_sub (time_time E) (ca_updated_at cache)) max_age then (rs, base_soft_stop)
          else
            let move_pct := float_mul (float_sub (float_div current_price entry_price) num_1) (float_int 100) in
            let current_adverse_pct := clamp0 (if String.eqb (side rs) "long" then move_pct else float_neg move_pct) in
            let previous_peak := clamp0 (cross_asset_peak_adverse_pct (cross rs)) in
            let peak_adverse_pct := float_max previous_peak current_adverse_pct in
            let rs := if float_gt peak_adverse_pct previous_peak then with_cross (with_peak peak_adverse_pct (cross rs)) rs else rs in
            let buffer_r := float_mul (cross_asset_strength peak_adverse_pct current_adverse_pct)
                                      (clamp0 (risk_cross_asset_soft_stop_max_buffer_r (settings E))) in
            let buffer_usd := float_mul buffer_r (clamp0 (initial_risk_price_distance (plan rs))) in
            (rs, if positive buffer_usd
                 then if String.eqb (side rs) "long" then clamp0 (float_sub base_soft_stop buffer_usd) else float_add base_soft_stop buffer_usd
                 else base_soft_stop)
      end.

Definition risk_session_active_soft_stop_price (rs : RiskSession) : spec_float :=
  let explicit := clamp0 (active_soft_stop_price (soft rs)) in
  if positive explicit then explicit
  else if tp2_hit (stages rs) then float_0
  else if tp1_hit (stages rs) then clamp0 (post_tp1_stop_price (plan rs))
  else clamp0 (float_or (initial_stop_price (plan rs)) (stop_loss_price (soft rs))).
Definition risk_session_stop_breach_amount (side : string) (price stop_price : spec_float) : spec_float :=
  if String.eqb side "long" then clamp0 (float_sub stop_price price)
  else if String.eqb side "short" then clamp0 (float_sub price stop_price) else float_0.
Definition with_breach (price : spec_float) (st : SoftStop) : SoftStop :=
  {| stop_loss_price := stop_loss_price st; active_soft_stop_price := active_soft_stop_price st;
     active_hard_stop_price := active_hard_stop_price st; soft_stop_breach_since := float_0; soft_stop_last_breach_price := price;
     exchange_hard_stop_buffer_usd := exchange_hard_stop_buffer_usd st;
     exchange_hard_stop_min_buffer_usd := exchange_hard_stop_min_buffer_usd st;
     exchange_hard_stop_atr_buffer_usd := exchange_hard_stop_atr_buffer_usd st;
     exchange_hard_stop_r_buffer_usd := exchange_hard_stop_r_buffer_usd st;
     exchange_hard_stop_atr_value := exchange_hard_stop_atr_value st |}.
(** The last completed bar of the confirmation timeframe, when its close is a price. *)
Definition confirming_bar (rs : RiskSession) (now : spec_float) : option Candle :=
  let timeframe := text_or (risk_soft_stop_confirm_timeframe (settings E)) "1m" in
  bar ← last (latest_completed_candles_for_risk_session rs now timeframe 2 false);
  if nonpositive (close bar) then None else Some bar.

(** What a stop rule answers when it fires: the stop, the close that confirms it, its bar. *)
Record StopCandidate := { st_stop : spec_float; st_close : spec_float; st_bar_ms : Z }.
(** [_risk_session_soft_stop_candidate] *)
Definition risk_session_soft_stop_candidate (rs : RiskSession) (now : spec_float) : RiskSession * option StopCandidate :=
  if negb (risk_soft_stop_enabled (settings E)) then (rs, None)
  else if negb (staged_exit_enabled (plan rs)) || tp2_hit (stages rs) then (rs, None)
  else
    let soft_stop := risk_session_active_soft_stop_price rs in
    if negb (two_sided (side rs)) || nonpositive soft_stop then (rs, None)
    else match confirming_bar rs now with
    | None => (rs, None)
    | Some bar =>
        let '(rs, adjusted) := risk_session_cross_asset_soft_stop_adjustment rs soft_stop in
        let effective := float_or adjusted soft_stop in
        if nonpositive (risk_session_stop_breach_amount (side rs) (close bar) effective)
        then (with_soft (with_breach float_0) rs, None)
        else (with_soft (with_breach (close bar)) rs,
              Some {| st_stop := effective; st_close := close bar; st_bar_ms := close_ms bar |})
    end.
(** [_staged_risk_session_soft_stop_trigger_candidate] *)
Definition staged_risk_session_soft_stop_trigger_candidate (rs : RiskSession) (now : spec_float) : option StopCandidate :=
  if negb (staged_exit_enabled (plan rs)) || negb (tp2_hit (stages rs)) then None
  else
    let soft_stop := trailing_soft_stop_price (trail rs) in
    if nonpositive soft_stop then None
    else
      bar ← confirming_bar rs now;
      if (String.eqb (side rs) "long" && SFleb (close bar) soft_stop) || (String.eqb (side rs) "short" && float_ge (close bar) soft_stop)
      then Some {| st_stop := soft_stop; st_close := close bar; st_bar_ms := close_ms bar |} else None.

(** ** Exchange orders *)
Record OrderSpec := { s_key : string; s_name : string; s_leg_type : string; s_trigger_price : spec_float; s_close_size : spec_float }.
Definition leg_key (leg_type name : string) : string := leg_type ++ "::" ++ name.
(** The legs an order can be placed for: not executed, on one price condition. *)
Definition active_leg (rs : RiskSession) (leg_type : string) (leg : ExitLeg) : option (ExitLeg * spec_float) :=
  match l_when_all leg with
  | [c] =>
      if bool_decide (leg_key leg_type (l_name leg) ∈ executed_leg_names (stages rs)) then None
      else if negb (String.eqb (c_type c) "price_ge" || String.eqb (c_type c) "price_le") || nonpositive (c_level c) then None
      else Some (leg, c_level c)
  | _ => None
  end.
Definition order_spec (leg_type : string) (leg : ExitLeg) (price size : spec_float) : OrderSpec :=
  {| s_key := leg_key leg_type (l_name leg); s_name := l_name leg; s_leg_type := leg_type; s_trigger_price := price; s_close_size := size |}.
Fixpoint staged_specs (rs : RiskSession) (remaining_size_abs allocated_size : spec_float) (active : list (ExitLeg * spec_float))
  : result (list OrderSpec) :=
  match active with
  | [] => Ok []
  | (leg, price) :: active =>
      target_size ← (if String.prefix "stage_tp" (l_name leg) then staged_tp_target_size_abs rs (l_name leg)
                     else align_risk_exit_size_to_precision (float_mul (float_abs (size_basis rs)) (l_close_fraction leg)));
      completed ← staged_tp_completed_size_abs rs (l_name leg);
      let close_size := float_min (clamp0 (float_sub target_size completed)) (clamp0 (float_sub remaining_size_abs allocated_size)) in
      if SFleb close_size risk_session_order_qty_tolerance then staged_specs rs remaining_size_abs allocated_size active
      else
        specs ← staged_specs rs remaining_size_abs (float_add allocated_size close_size) active;
        Ok (order_spec "take_profit" leg price close_size :: specs)
  end.
Fixpoint stop_specs (remaining_size_abs total_fraction : spec_float) (active : list (ExitLeg * spec_float)) : result (list OrderSpec) :=
  match active with
  | [] => Ok []
  | (leg, price) :: active =>
      close_size ← align_risk_close_size_for_session (float_mul remaining_size_abs (float_div (l_close_fraction leg) total_fraction))
                     (Some remaining_size_abs);
      specs ← stop_specs remaining_size_abs total_fraction active;
      Ok (order_spec "stop_loss" leg price close_size :: specs)
  end.
(** [_iter_risk_session_exit_order_specs] of a staged session, whose targets scale from its initial size. *)
Definition iter_risk_session_exit_order_specs (rs : RiskSession) : result (list OrderSpec) :=
  let remaining_size_abs := float_abs (expected_size rs) in
  if nonpositive remaining_size_abs then Ok []
  else
    let total l := float_sum (map (fun x => clamp0 (l_close_fraction x.1)) l) in
    let targets := omap (active_leg rs "take_profit") (take_profit_legs (stages rs)) in
    let stops := omap (active_leg rs "stop_loss") (stop_loss_legs (stages rs)) in
    first ← (if nonpositive (total targets) then Ok [] else staged_specs rs remaining_size_abs float_0 targets);
    second ← (if nonpositive (total stops) then Ok [] else stop_specs remaining_size_abs (total stops) stops);
    Ok (first ++ second)%list.

(** ** What happens to a session *)
Inductive SessionOp :=
  | Completed (keys : list string)
  | TrailUpdate
  | SoftStopCheck
  | EarlyTrim (closed_size_abs : spec_float)
  | TakeProfitEarly (price remaining closed_abs : spec_float)
  | LockTail (price : spec_float)
  | Retarget (remaining_size_abs : spec_float)
  | Normalize.
Definition session_step (op : SessionOp) (now : spec_float) : io RiskSession unit :=
  match op with
  | Completed keys => _ ← update_staged_risk_session_after_completed_keys keys now; mret tt
  | TrailUpdate => modify (fun rs => (update_staged_risk_session_trailing_state rs now).1)
  | SoftStopCheck => modify (fun rs => (risk_session_soft_stop_candidate rs now).1)
  | EarlyTrim closed => _ ← apply_staged_exit_early_take_profit_trim closed now; mret tt
  | TakeProfitEarly price remaining closed => take_profit_early price remaining closed now
  | LockTail price => lock_tail price
  | Retarget remaining => retarget_staged_exit_size_basis_after_risk_reduce remaining
  | Normalize => normalize_risk_session_size_state
  end.
End Operations.

(** ** The two averages agree *)
(** A candle of positive finite prices. *)
Definition quoted (c : Candle) : bool :=
  float_positive (high c) && float_positive (low c) && float_positive (close c).
Definition atr_of (period : Z) (trs : list spec_float) : option spec_float :=
  let n := Z.to_nat period in
  if Nat.ltb (List.length trs) n then None
  else Some (foldl (wilder_step period) (average period (take n trs)) (drop n trs)).

Lemma float_positive_finite x : float_positive x = true -> float_finite x = true /\ nonpositive x = false.
Proof. by destruct x as [| | |[]]. Qed.
Lemma quoted_usable c : quoted c = true ->
  unusable c = false /\ float_finite (high c) = true /\ float_finite (low c) = true /\ float_finite (close c) = true.
Proof.
  unfold quoted, unusable. intros H. to_prop. repeat match goal with H : float_positive _ = true |- _ => apply float_positive_finite in H as [? ?] end.
  rewrite !orb_false_iff. auto.
Qed.
Lemma step_unsigned period atr tr : 0 < period -> unsigned atr -> unsigned tr -> unsigned (wilder_step period atr tr).
Proof. intros H Ha Ht. apply div_unsigned; [|apply int_unsigned; lia]. apply add_unsigned; [|done]. apply mul_unsigned; [done|]. apply int_unsigned. lia. Qed.
Lemma atr_unsigned period trs atr : 0 < period -> Forall unsigned trs -> atr_of period trs = Some atr -> unsigned atr.
Proof.
  unfold atr_of. intros Hp Ht. destruct (Nat.ltb _ _); [done|]. intros [= <-].
  assert (Ha : unsigned (average period (take (Z.to_nat period) trs))).
  { apply div_unsigned; [|apply int_unsigned; lia]. apply sum_unsigned; [done|]. by apply Forall_take. }
  apply (Forall_drop _ (Z.to_nat period)) in Ht. revert Ha. generalize (average period (take (Z.to_nat period) trs)).
  induction Ht as [|tr l H _ IH]; simpl; intros; [done|]. apply IH. by apply step_unsigned.
Qed.
(** A true range from a known close is a number that is not negative. *)
Lemma true_range_nonneg p c : quoted c = true -> float_finite p = true -> fle float_0 (true_range (Some p) c).
Proof.
  intros Hc Hp. destruct (quoted_usable c Hc) as (_ & H1 & H2 & _). simpl.
  eapply fle_trans; [|apply max_ge_second; [apply max_num, sub_num; done|rewrite abs_num; by apply sub_num]].
  apply abs_nonneg. by apply sub_num.
Qed.
Lemma step_clamp period atr tr : 0 < period -> unsigned atr -> fle float_0 tr -> wilder_step period atr (clamp0 tr) = wilder_step period atr tr.
Proof.
  intros Hp Ha Ht. unfold wilder_step. f_equal. apply add_clamp; [|done]. apply mul_unsigned; [done|]. apply int_unsigned. lia.
Qed.
(** One more range, after enough of them. *)
Lemma atr_snoc period trs tr atr : 0 < period -> atr_of period trs = Some atr -> atr_of period (trs ++ [tr]) = Some (wilder_step period atr tr).
Proof.
  unfold atr_of. intros Hp. destruct (Nat.ltb_spec (List.length trs) (Z.to_nat period)); [done|]. intros [= <-].
  rewrite length_app. simpl. destruct (Nat.ltb_spec (List.length trs + 1) (Z.to_nat period)); [lia|].
  rewrite take_app_le, drop_app_le, foldl_app by lia. done.
Qed.
Lemma wilder_row_agrees period prev trs prev_atr c :
  0 < period -> quoted c = true -> Forall unsigned trs ->
  (trs = [] \/ exists p, prev = Some p /\ float_finite p = true) ->
  ((Z.to_nat period <= List.length trs)%nat -> atr_of period trs = Some prev_atr) ->
  (let tr := true_range prev c in let trs := (trs ++ [clamp0 tr])%list in let n := Z.to_nat period in
   if Nat.ltb (List.length trs) n then None
   else if Nat.eqb (List.length trs) n then Some (average period (take n trs)) else Some (wilder_step period prev_atr tr))
  = atr_of period (trs ++ [clamp0 (true_range prev c)]).
Proof.
  intros Hp Hc Hu Hprev Hatr. cbn zeta. rewrite length_app. simpl.
  destruct (Nat.ltb_spec (List.length trs + 1) (Z.to_nat period)) as [L|L].
  - unfold atr_of. rewrite length_app. simpl. by destruct (Nat.ltb_spec (List.length trs + 1) (Z.to_nat period)); [|lia].
  - destruct (Nat.eqb_spec (List.length trs + 1) (Z.to_nat period)) as [E|E].
    + unfold atr_of. rewrite length_app. simpl. destruct (Nat.ltb_spec (List.length trs + 1) (Z.to_nat period)); [lia|].
      rewrite (drop_ge (trs ++ _)) by (rewrite length_app; simpl; lia). done.
    + assert (G : atr_of period trs = Some prev_atr) by (apply Hatr; lia).
      rewrite (atr_snoc _ _ _ _ Hp G). f_equal. symmetry.
      destruct Hprev as [->|(p & -> & Hf)]; [simpl in *; lia|].
      apply step_clamp; [done|by eapply atr_unsigned|by apply true_range_nonneg].
Qed.
Lemma wilder_rows_cons period prev trs prev_atr c cs : unusable c = false -> exists row,
  row_atr row = (let tr := true_range prev c in let trs := (trs ++ [clamp0 tr])%list in let n := Z.to_nat period in
     if Nat.ltb (List.length trs) n then None
     else if Nat.eqb (List.length trs) n then Some (average period (take n trs)) else Some (wilder_step period prev_atr tr))
  /\ wilder_rows period prev trs prev_atr (c :: cs) =
     row :: wilder_rows period (Some (close c)) (trs ++ [clamp0 (true_range prev c)])%list (float_or (default float_0 (row_atr row)) float_0) cs.
Proof.
  intros H. exists {| row_candle := c; row_tr := true_range prev c; row_atr :=
    let trs := (trs ++ [clamp0 (true_range prev c)])%list in let n := Z.to_nat period in
    if Nat.ltb (List.length trs) n then None
    else if Nat.eqb (List.length trs) n then Some (average period (take n trs)) else Some (wilder_step period prev_atr (true_range prev c)) |}.
  split; [done|]. simpl. by rewrite H.
Qed.
Lemma wilder_rows_last period prev trs prev_atr c cs :
  0 < period -> Forall (fun c => quoted c = true) (c :: cs) -> Forall unsigned trs ->
  (trs = [] \/ exists p, prev = Some p /\ float_finite p = true) ->
  ((Z.to_nat period <= List.length trs)%nat -> atr_of period trs = Some prev_atr) ->
  exists row, last (wilder_rows period prev trs prev_atr (c :: cs)) = Some row
    /\ row_atr row = atr_of period (trs ++ true_ranges prev (c :: cs)).
Proof.
  intros Hp. revert prev trs prev_atr c. induction cs as [|d cs IH]; intros prev trs prev_atr c Hq Hu Hprev Hatr;
    apply Forall_cons in Hq as [Hc Hq]; destruct (quoted_usable c Hc) as (Hus & _ & _ & Hfin);
    pose proof (wilder_row_agrees period prev trs prev_atr c Hp Hc Hu Hprev Hatr) as Hrow; cbn zeta in Hrow.
  - destruct (wilder_rows_cons period prev trs prev_atr c [] Hus) as (row & Ra & ->). cbn zeta in Ra. rewrite Hrow in Ra.
    exists row. split; [done|]. rewrite Ra. simpl. by rewrite Hus.
  - destruct (wilder_rows_cons period prev trs prev_atr c (d :: cs) Hus) as (row & Ra & ->). cbn zeta in Ra. rewrite Hrow in Ra.
    assert (Hu' : Forall unsigned (trs ++ [clamp0 (true_range prev c)])) by (apply Forall_app; split; [done|]; by constructor; [apply clamp0_unsigned|]).
    destruct (IH (Some (close c)) _ (float_or (default float_0 (row_atr row)) float_0) d Hq Hu') as (row' & R1 & R2).
    + right. eauto.
    + intros L. rewrite Ra. destruct (atr_of period (trs ++ [clamp0 (true_range prev c)])) as [a|] eqn:A.
      * simpl. by rewrite or_zero by by eapply atr_unsigned.
      * unfold atr_of in A. by destruct (Nat.ltb_spec (List.length (trs ++ [clamp0 (true_range prev c)])) (Z.to_nat period)); [lia|].
    + exists row'. split; [by rewrite last_cons, R1|].
      rewrite R2. f_equal. rewrite <- (app_assoc trs). simpl. by rewrite Hus.
Qed.
Lemma true_ranges_length prev cs : Forall (fun c => quoted c = true) cs -> List.length (true_ranges prev cs) = List.length cs.
Proof.
  intros H. revert prev. induction H as [|c cs Hc _ IH]; intros; simpl; [done|]. destruct (quoted_usable c Hc) as (-> & _). simpl. by rewrite IH.
Qed.

(** C25. The average true range that trails the stops and the one that clips the initial stop
    are the same: on positive prices, with enough bars for the period,
    [_atr_from_completed_candles] is the last average of [_wilder_atr_rows], a loop that
    accumulates differently and does not clamp the later ranges.  Both exist. *)
Theorem atr_definitions_agree candles period :
  Forall (fun c => quoted c = true) candles -> 0 < period -> Z.max 2 (period + 1) <= Z.of_nat (List.length candles) ->
  exists row atr, last (wilder_atr_rows candles period) = Some row /\ row_atr row = Some atr
    /\ atr_from_completed_candles candles period = Some atr.
Proof.
  intros Hq Hp Hl. unfold wilder_atr_rows, atr_from_completed_candles. cbn zeta.
  assert (P : by_close candles ≡ₚ candles) by apply sort_by_perm.
  rewrite (Permutation_length P). assert (Hq' : Forall (fun c => quoted c = true) (by_close candles)) by by rewrite P.
  pose proof (true_ranges_length None _ Hq') as TL. rewrite (Permutation_length P) in TL.
  replace (Z.max 1 period) with period by lia.
  destruct (Z.ltb_spec (Z.of_nat (List.length candles)) (Z.max 2 (period + 1))); [lia|].
  destruct (by_close candles) as [|c cs]; [apply Permutation_length in P; simpl in P; lia|].
  destruct (wilder_rows_last period None [] float_0 c cs Hp Hq' ltac:(constructor) ltac:(by left)) as (row & R1 & R2).
  { simpl. lia. }
  unfold atr_of in R2. rewrite app_nil_l in R2. rewrite TL in *.
  destruct (Nat.ltb_spec (List.length candles) (Z.to_nat period)); [lia|]. eauto.
Qed.

(** ** Stops only tighten *)
(** A positive price of the exchange. *)
Definition priced (x : spec_float) : bool := float_positive x && valid_binary 53 1024 x.
(** The lowest close of a trailing stop is a price, or not there yet. *)
Definition recorded (x : spec_float) : Prop := nonpositive x = true \/ priced x = true.
(** What the short side asks of the exchange and of the plan: a positive price is not aligned to
    zero, the closes are prices, no average true range overflows, and the multiple is positive. *)
Record orderly (E : Env) (now : spec_float) (rs : RiskSession) : Prop := {
  or_align : forall price, positive price = true -> positive (align_price_for_symbol E price) = true;
  or_closes : Forall (fun c => priced (close c) = true) (completed_since_entry E rs now);
  or_range : forall atr,
    atr_from_completed_candles (latest_completed_candles_for_risk_session E rs now (trailing_timeframe (plan rs)) (atr_bars rs) true)
      (int_or (trailing_atr_period (plan rs)) 14) = Some atr -> is_nan atr = false;
  or_multiple : positive (float_or (trailing_soft_atr_mult (plan rs)) (float_quotient 25 10)) = true }.
(** A bar has been taken: of a long the stop is no lower than it was and than the locked
    floor, of a short no higher, and there is one when the exchange is orderly. *)
Record moved (long : bool) (ord : Prop) (t t' : Trailing) : Prop := {
  moved_floor : locked_floor_price t' = locked_floor_price t;
  moved_bar : trailing_last_bar_ms t < trailing_last_bar_ms t';
  moved_long : long = true -> fle (clamp0 (trailing_soft_stop_price t)) (trailing_soft_stop_price t')
                              /\ fle (clamp0 (locked_floor_price t)) (trailing_soft_stop_price t');
  moved_short : long = false -> (positive (trailing_soft_stop_price t) = true -> fle (trailing_soft_stop_price t') (trailing_soft_stop_price t))
                              /\ (positive (locked_floor_price t) = true -> fle (trailing_soft_stop_price t') (locked_floor_price t));
  moved_force : long = false -> ord -> recorded (trailing_lowest_close t) ->
                positive (trailing_soft_stop_price t') = true /\ recorded (trailing_lowest_close t') }.
(** The part of a session the stops are computed from, and its stages, are kept. *)
Record framed (rs rs' : RiskSession) : Prop := {
  framed_side : side rs' = side rs;
  framed_plan : plan rs' = plan rs;
  framed_hits : (tp1_hit (stages rs) = true -> tp1_hit (stages rs') = true) /\ (tp2_hit (stages rs) = true -> tp2_hit (stages rs') = true) }.
Definition still (rs rs' : RiskSession) : Prop := framed rs rs' /\ trail rs' = trail rs.
Lemma framed_trans a b c : framed a b -> framed b c -> framed a c.
Proof. intros [? ? []] [? ? []]. split; [congruence..|auto]. Qed.
Lemma still_trans a b c : still a b -> still b c -> still a c.
Proof. intros [? ?] [? ?]. split; [by eapply framed_trans|congruence]. Qed.
(** Only the plan of the session is read. *)
Lemma orderly_plan E now rs rs' : plan rs' = plan rs -> orderly E now rs -> orderly E now rs'.
Proof.
  destruct rs as [s0 x0 p0 g0 f0 t0 c0], rs' as [s1 x1 p1 g1 f1 t1 c1]. cbn [plan]. intros ->. intros [H1 H2 H3 H4].
  split; [exact H1|exact H2|exact H3|exact H4].
Qed.

Lemma positive_clamp x : positive x = true -> clamp0 x = x /\ is_nan x = false.
Proof. intros H. split; [by apply clamp0_pos|]. by apply nan_lt in H as [_ H]. Qed.
Lemma not_nonpositive x : nonpositive x = false -> is_nan x = false -> positive x = true.
Proof. by destruct x as [|[]| |[]]. Qed.
Lemma nonpositive_not_positive x : nonpositive x = true -> positive x = false.
Proof. intros H. destruct (positive x) eqn:Q; [|done]. exfalso. exact (flt_not_fle _ _ Q H). Qed.
Lemma or_positive x default : positive x = true -> float_or x default = x.
Proof. by destruct x as [|[]| |[]]. Qed.
Lemma min_positive a b : positive a = true -> positive b = true -> positive (float_min a b) = true.
Proof. unfold float_min. by destruct (SFltb b a). Qed.
Lemma priced_positive x : priced x = true -> positive x = true /\ ranged x.
Proof.
  unfold priced. intros [Hp Hv]%andb_true_iff. split; [by destruct x as [| | |[]]|by apply valid_ranged].
Qed.
Lemma min_priced a b : priced a = true -> priced b = true -> priced (float_min a b) = true.
Proof. unfold float_min. by destruct (SFltb b a). Qed.
Lemma lowest_priced l x : Forall (fun c => priced (close c) = true) l -> py_min (map close l) = Some x -> priced x = true.
Proof.
  destruct l as [|c l]; [done|]. intros [Hc Hl]%Forall_cons. cbn [map py_min]. intros [= <-]. revert Hc.
  generalize (close c). induction Hl as [|d l Hd _ IH]; intros y Hy; cbn [map foldl]; [exact Hy|]. apply IH. by apply min_priced.
Qed.
Lemma trail_long_moved E p ord t highest atr bar_ms last_close : trailing_last_bar_ms t < bar_ms ->
  moved true ord t (trail_long E p t highest atr bar_ms last_close).
Proof.
  intros Hb. split; [done|done| |done|done]. intros _. unfold trail_long. simpl.
  set (floor := clamp0 (locked_floor_price t)). set (old := clamp0 (trailing_soft_stop_price t)).
  assert (Hf : is_nan (float_max floor old) = false) by (apply max_num, clamp0_num).
  split; (eapply fle_trans; [|by apply max_ge_first]).
  - apply max_ge_second; apply clamp0_num.
  - apply max_ge_first, clamp0_num.
Qed.
Lemma locked_ceiling_below t :
  (positive (trailing_soft_stop_price t) = true -> positive (locked_ceiling t) = true /\ fle (locked_ceiling t) (trailing_soft_stop_price t))
  /\ (positive (locked_floor_price t) = true -> positive (locked_ceiling t) = true /\ fle (locked_ceiling t) (locked_floor_price t)).
Proof.
  unfold locked_ceiling. cbn zeta. split; intros H; pose proof (positive_clamp _ H) as [-> Hn]; rewrite H.
  - destruct (positive (clamp0 (locked_floor_price t))) eqn:F; [|auto]. split; [|by apply min_le_second].
    unfold float_min. by destruct (SFltb _ _).
  - destruct (positive (clamp0 (trailing_soft_stop_price t))) eqn:F; [|auto]. split; [|by apply min_le_first].
    unfold float_min. by destruct (SFltb _ _).
Qed.
(** The stop of a short after a bar is a price: the lowest close and a range above it. *)
Lemma trail_short_positive E p t lowest atr bar_ms last_close :
  (forall price, positive price = true -> positive (align_price_for_symbol E price) = true) ->
  positive (float_or (trailing_soft_atr_mult p) (float_quotient 25 10)) = true ->
  priced lowest = true -> positive atr = true -> recorded (trailing_lowest_close t) ->
  let t' := trail_short E p t lowest atr bar_ms last_close in
  positive (trailing_soft_stop_price t') = true /\ recorded (trailing_lowest_close t').
Proof.
  intros Halign Hm Hl Ha Hr. unfold trail_short. cbn zeta. cbn [trailing_soft_stop_price trailing_lowest_close].
  set (low := if nonpositive _ then _ else _).
  assert (Hlow : priced low = true).
  { unfold low. destruct (nonpositive (trailing_lowest_close t)) eqn:N; [exact Hl|]. destruct Hr as [Hr|Hr]; [congruence|]. by apply min_priced. }
  split; [|by right]. destruct (priced_positive _ Hlow) as [Hp Hv]. destruct (mul_positive _ _ Hm Ha) as (Hu & Hn & Hx).
  pose proof (Halign _ (add_positive low _ Hp Hv Hu Hn Hx)) as Hs.
  destruct (positive (locked_ceiling t)) eqn:C; [by apply min_positive|exact Hs].
Qed.
Lemma trail_short_moved E p ord t lowest atr bar_ms last_close : trailing_last_bar_ms t < bar_ms ->
  (ord -> recorded (trailing_lowest_close t) ->
   let t' := trail_short E p t lowest atr bar_ms last_close in positive (trailing_soft_stop_price t') = true /\ recorded (trailing_lowest_close t')) ->
  moved false ord t (trail_short E p t lowest atr bar_ms last_close).
Proof.
  intros Hb Hf. split; [done|done|done| |by intros _]. intros _. unfold trail_short. cbn zeta. cbn [trailing_soft_stop_price].
  destruct (locked_ceiling_below t) as [H1 H2].
  split; intros H; [destruct (H1 H) as [-> L]|destruct (H2 H) as [-> L]]; (eapply fle_trans; [|exact L]);
    apply min_le_first; by apply nan_le in L as [? _].
Qed.

Section Stepping.
  Context (E : Env) (now : spec_float).
Definition took (rs rs' : RiskSession) : Prop := framed rs rs' /\ moved (String.eqb (side rs) "long") (orderly E now rs) (trail rs) (trail rs').
Definition stepped (rs rs' : RiskSession) : Prop := framed rs rs' /\ (trail rs' = trail rs \/ took rs rs').
Lemma with_trail_took rs t (f : RiskSession -> RiskSession) :
  moved (String.eqb (side rs) "long") (orderly E now rs) (trail rs) t ->
  (forall rs', still rs' (f rs')) -> took rs (f (with_trail t rs)).
Proof.
  intros Hm Hf. destruct (Hf (with_trail t rs)) as [[F1 F2 F3] F4]. split; [|by rewrite F4].
  split; [by rewrite F1|by rewrite F2|exact F3].
Qed.
(** A bar is taken, or nothing changes. *)
Lemma update_takes rs :
  update_staged_risk_session_trailing_state E rs now = (rs, false) \/
  (update_staged_risk_session_trailing_state E rs now).2 = true /\ took rs (update_staged_risk_session_trailing_state E rs now).1.
Proof.
  unfold update_staged_risk_session_trailing_state. cbn zeta.
  destruct (_ || _); [by left|]. destruct (last _) as [bar|]; [|by left].
  destruct (Z.leb_spec (close_ms bar) (trailing_last_bar_ms (trail rs))); [by left|].
  destruct (atr_from_completed_candles _ _) as [atr|] eqn:A; [|by left]. destruct (nonpositive atr) eqn:Na; [by left|].
  destruct (py_max _) as [highest|]; [|by left]. destruct (py_min _) as [lowest|] eqn:L; [|by left].
  set (f t rs' := if positive (trailing_soft_stop_price t)
                  then with_stages (fun s => with_legs (take_profit_legs s) [] s)
                         (with_soft (with_stop_loss (trailing_soft_stop_price t)) rs') else rs').
  assert (Hf : forall t rs', still rs' (f t rs')) by (intros; unfold f; by destruct (positive _)).
  destruct (String.eqb (side rs) "long") eqn:S.
  - right. split; [done|]. apply (with_trail_took _ _ (f _)); [|apply Hf]. rewrite S. by apply trail_long_moved.
  - destruct (String.eqb (side rs) "short"); [|by left].
    right. split; [done|]. apply (with_trail_took _ _ (f _)); [|apply Hf]. rewrite S. apply trail_short_moved; [done|].
    intros [O1 O2 O3 O4] Hr. apply trail_short_positive; [done|done| | |exact Hr]; [by eapply lowest_priced|]. apply not_nonpositive; [done|by apply O3].
Qed.
Lemma still_stepped a b : still a b -> stepped a b.
Proof. intros [F T]. split; [done|by left]. Qed.
Lemma update_trailing_stepped rs : stepped rs (update_staged_risk_session_trailing_state E rs now).1.
Proof. destruct (update_takes rs) as [->|[_ H]]; [by apply still_stepped|]. split; [apply H|by right]. Qed.

(** ** Every operation *)
Lemma still_then_stepped a b c : still a b -> stepped b c -> stepped a c.
Proof.
  intros [F T] [G M]. split; [by eapply framed_trans|]. destruct M as [M|[_ [M1 M2 M3 M4 M5]]]; [left; congruence|right].
  split; [by eapply framed_trans|]. rewrite <- T, <- (framed_side _ _ F). split; try done.
  intros L O. apply M5; [done|]. by eapply orderly_plan; [apply (framed_plan _ _ F)|].
Qed.
Lemma stepped_then_still a b c : stepped a b -> still b c -> stepped a c.
Proof.
  intros [F M] [G T]. split; [by eapply framed_trans|]. destruct M as [M|[_ M]]; [left; congruence|right].
  split; [by eapply framed_trans|by rewrite T].
Qed.

(** A program that leaves the trailing stop alone; one that takes at most one bar. *)
Definition stays {A} (m : io RiskSession A) : Prop := forall rs, still rs (m rs).1.
Definition steps {A} (m : io RiskSession A) : Prop := forall rs, stepped rs (m rs).1.
Lemma stays_bind {A B} (m : io RiskSession A) (f : A -> io RiskSession B) : stays m -> (forall a, stays (f a)) -> stays (m ≫= f).
Proof.
  intros Hm Hf rs. unfold mbind, io_bind. specialize (Hm rs). destruct (m rs) as [rs1 [a|e]]; [|done].
  eapply still_trans; [exact Hm|apply Hf].
Qed.
Lemma stays_then_steps {A B} (m : io RiskSession A) (f : A -> io RiskSession B) : stays m -> (forall a, steps (f a)) -> steps (m ≫= f).
Proof.
  intros Hm Hf rs. unfold mbind, io_bind. specialize (Hm rs). destruct (m rs) as [rs1 [a|e]].
  - eapply still_then_stepped; [exact Hm|apply Hf].
  - by apply still_stepped.
Qed.
Lemma steps_then_stays {A B} (m : io RiskSession A) (f : A -> io RiskSession B) : steps m -> (forall a, stays (f a)) -> steps (m ≫= f).
Proof.
  intros Hm Hf rs. unfold mbind, io_bind. specialize (Hm rs). destruct (m rs) as [rs1 [a|e]]; [|done].
  eapply stepped_then_still; [exact Hm|apply Hf].
Qed.
Lemma stays_steps {A} (m : io RiskSession A) : stays m -> steps m.
Proof. intros H rs. by apply still_stepped. Qed.
Lemma stays_ret {A} (a : A) : stays (mret a).
Proof. done. Qed.
Lemma stays_lift {A} (r : result A) : stays (lift r).
Proof. done. Qed.
Lemma stays_read {A} (f : RiskSession -> A) : stays (read f).
Proof. done. Qed.
Lemma stays_modify f : (forall rs, still rs (f rs)) -> stays (modify f).
Proof. done. Qed.
Lemma stays_when b m : stays m -> stays (when_ b m).
Proof. by destruct b. Qed.
Ltac stays := repeat match goal with
  | |- stays (if ?b then _ else _) => destruct b
  | |- stays (_ ≫= _) => apply stays_bind
  | |- stays (when_ _ _) => apply stays_when
  | |- stays (modify _) => apply stays_modify; intros
  | |- stays (read _) => apply stays_read
  | |- stays (lift _) => apply stays_lift
  | |- stays (mret _) => apply stays_ret
  | |- stays _ => progress cbn zeta
  | |- forall _, stays _ => intros
  end.

Lemma set_stage_still rs price buffer : still rs (set_stage_soft_hard_stop E rs price buffer).
Proof. unfold set_stage_soft_hard_stop, risk_exchange_hard_stop_price. destruct buffer; [|done]. by destruct (nonpositive _). Qed.
Lemma complete_tp1_stays : stays (complete_tp1 E now).
Proof. unfold complete_tp1. stays; [done..|]. destruct (positive _); [apply set_stage_still|done]. Qed.
Lemma complete_tp2_steps : steps (complete_tp2 E now).
Proof.
  unfold complete_tp2. repeat (apply stays_then_steps; [stays; done|intros]). intros rs. simpl.
  eapply stepped_then_still; [apply update_trailing_stepped|]. done.
Qed.
Lemma completed_keys_steps keys : steps (update_staged_risk_session_after_completed_keys E keys now).
Proof.
  unfold update_staged_risk_session_after_completed_keys. apply stays_then_steps; [apply stays_read|intros rs].
  destruct (negb _); [apply stays_steps, stays_ret|]. cbn zeta.
  apply stays_then_steps; [apply stays_when, complete_tp1_stays|intros _].
  apply steps_then_stays; [|intros _; apply stays_ret].
  destruct (_ && _); [apply complete_tp2_steps|apply stays_steps, stays_ret].
Qed.
Lemma credit_stays legs credit keys : stays (credit_targets E legs credit keys).
Proof.
  revert credit keys. induction legs as [|leg legs IH]; intros credit keys; [apply stays_ret|]. cbn [credit_targets].
  stays; try done; try apply IH; unfold set_completed; by destruct (String.eqb _ _).
Qed.
Lemma trim_steps closed : steps (apply_staged_exit_early_take_profit_trim E closed now).
Proof.
  unfold apply_staged_exit_early_take_profit_trim. apply stays_then_steps; [apply credit_stays|intros keys].
  apply stays_then_steps; [by apply stays_modify|intros _].
  apply steps_then_stays; [|intros _; apply stays_ret].
  case_bool_decide; [apply stays_steps, stays_ret|apply completed_keys_steps].
Qed.
Lemma adjustment_still rs base : still rs (risk_session_cross_asset_soft_stop_adjustment E rs base).1.
Proof.
  unfold risk_session_cross_asset_soft_stop_adjustment. destruct (negb _); [done|]. destruct (_ || _); [done|]. cbn zeta.
  set (rs1 := initialize_risk_session_cross_asset_reference E rs).
  assert (H : still rs rs1).
  { unfold rs1, initialize_risk_session_cross_asset_reference. cbn zeta. destruct (_ || _); [done|].
    destruct (_ && _); [done|]. destruct (negb _); [done|]. destruct (ca_price _); [|done]. by destruct (_ || _). }
  destruct (_ || _); [done|]. destruct (ca_price _); [|done]. destruct (_ || _); [done|].
  destruct (float_gt _ _); [|exact H]. by eapply still_trans; [exact H|].
Qed.
Lemma candidate_still rs : still rs (risk_session_soft_stop_candidate E rs now).1.
Proof.
  unfold risk_session_soft_stop_candidate. destruct (negb _); [done|]. destruct (_ || _); [done|]. cbn zeta. destruct (_ || _); [done|].
  destruct (confirming_bar _ _ _); [|done]. pose proof (adjustment_still rs (risk_session_active_soft_stop_price rs)) as H.
  destruct (risk_session_cross_asset_soft_stop_adjustment _ _ _) as [rs1 adjusted]. simpl in H.
  destruct (nonpositive _); by (eapply still_trans; [exact H|]).
Qed.
(** The stages and the plan are kept, and of a short the recorded low. *)
Definition sane (rs rs' : RiskSession) : Prop :=
  framed rs rs' /\ (side rs = "short" -> orderly E now rs -> recorded (trailing_lowest_close (trail rs)) -> recorded (trailing_lowest_close (trail rs'))).
Lemma sane_trans a b c : sane a b -> sane b c -> sane a c.
Proof.
  intros [F H] [G K]. split; [by eapply framed_trans|]. intros S O R.
  apply K; [by rewrite (framed_side _ _ F)|by eapply orderly_plan; [apply (framed_plan _ _ F)|]|by apply H].
Qed.
Lemma stepped_sane rs rs' : stepped rs rs' -> sane rs rs'.
Proof.
  intros [F M]. split; [exact F|]. intros S O R. destruct M as [->|[_ M]]; [exact R|]. rewrite S in M. by apply (moved_force _ _ _ _ M).
Qed.
Definition sanely {A} (m : io RiskSession A) : Prop := forall rs, sane rs (m rs).1.
Lemma steps_sanely {A} (m : io RiskSession A) : steps m -> sanely m.
Proof. intros H rs. by apply stepped_sane. Qed.
Lemma sanely_ret {A} (a : A) : sanely (mret a).
Proof. by apply steps_sanely, stays_steps. Qed.
Lemma sanely_lift {A} (r : result A) : sanely (lift r).
Proof. by apply steps_sanely, stays_steps. Qed.
Lemma sanely_bind {A B} (m : io RiskSession A) (f : A -> io RiskSession B) : sanely m -> (forall a, sanely (f a)) -> sanely (m ≫= f).
Proof.
  intros Hm Hf rs. unfold mbind, io_bind. specialize (Hm rs). destruct (m rs) as [rs1 [a|e]]; [|done].
  eapply sane_trans; [exact Hm|apply Hf].
Qed.
Lemma adjust_sane current_r rs : sane rs (adjust_time_decay_tp2_tail_locked_floor E current_r rs).
Proof.
  unfold adjust_time_decay_tp2_tail_locked_floor. destruct current_r; [|done]. destruct (risk_session_locked_floor_r rs); [|done].
  cbn zeta. destruct (nonpositive _); [done|]. split; [done|]. intros _ _ _. by left.
Qed.
Lemma tighten_sane target rs : sane rs (tighten_tail_stop target rs).
Proof. unfold tighten_tail_stop. cbn zeta. by destruct (nonpositive _). Qed.
Lemma early_sanely price remaining closed : sanely (take_profit_early E price remaining closed now).
Proof.
  apply sanely_bind; [apply steps_sanely, stays_steps, stays_read|]. intros rs. apply sanely_bind; [apply sanely_lift|]. intros completed1.
  apply sanely_bind; [destruct completed1; [apply sanely_lift|apply sanely_ret]|]. intros completed2.
  destruct (risk_session_profit_r rs price); [|apply sanely_ret]. destruct (_ || _); [apply sanely_ret|].
  apply sanely_bind; [by apply steps_sanely, stays_steps, stays_modify|]. intros _.
  apply sanely_bind; [destruct completed1; [|apply sanely_ret]; intros rs1; apply adjust_sane|]. intros _.
  apply sanely_bind; [apply steps_sanely, trim_steps|]. intros _. apply sanely_ret.
Qed.
Lemma lock_sanely price : sanely (lock_tail E price).
Proof.
  apply sanely_bind; [apply steps_sanely, stays_steps, stays_read|]. intros rs. apply sanely_bind; [apply sanely_lift|]. intros completed1.
  apply sanely_bind; [destruct completed1; [apply sanely_lift|apply sanely_ret]|]. intros completed2.
  destruct (_ || _); [apply sanely_ret|]. destruct (tail_target_stop E price rs); [|apply sanely_ret]. intros rs1. apply tighten_sane.
Qed.
(** An operation that takes at most one bar, whatever the stage. *)
Definition bar_op (op : SessionOp) : bool := match op with TakeProfitEarly _ _ _ | LockTail _ => false | _ => true end.
Lemma session_step_steps op : bar_op op = true -> steps (session_step E op now).
Proof.
  destruct op; try done; intros _; simpl.
  - apply steps_then_stays; [apply completed_keys_steps|intros _; apply stays_ret].
  - intros rs. apply update_trailing_stepped.
  - intros rs. apply still_stepped, candidate_still.
  - apply steps_then_stays; [apply trim_steps|intros _; apply stays_ret].
  - apply stays_steps. unfold retarget_staged_exit_size_basis_after_risk_reduce. stays; done.
  - apply stays_steps. unfold normalize_risk_session_size_state. stays; done.
Qed.
Lemma session_step_sanely op : sanely (session_step E op now).
Proof. destruct (bar_op op) eqn:B; [by apply steps_sanely, session_step_steps|]. destruct op; try done; [apply early_sanely|apply lock_sanely]. Qed.
(** After the second target no tail is locked anew: an operation takes at most one bar, or tightens the tail. *)
Lemma completed_second rs : tp2_hit (stages rs) = true -> risk_session_tp_completed E "stage_tp2" rs = Ok true.
Proof. intros H. unfold risk_session_tp_completed. cbn. by rewrite H. Qed.
Lemma session_step_after_second op rs : tp2_hit (stages rs) = true ->
  stepped rs (session_step E op now rs).1 \/
  exists price target, tail_target_stop E price rs = Some target /\ (session_step E op now rs).1 = tighten_tail_stop target rs.
Proof.
  intros H2. pose proof (completed_second rs H2) as Hc.
  destruct (bar_op op) eqn:B; [left; by apply session_step_steps|].
  assert (Same : stepped rs rs) by by apply still_stepped.
  destruct op as [| | | |price remaining closed|price| |]; try done; cbn [session_step]; unfold take_profit_early, lock_tail, mbind, io_bind, read, lift, id;
    (destruct (risk_session_tp_completed E "stage_tp1" rs) as [[]|e]; [rewrite Hc| |by left]).
  - left. destruct (risk_session_profit_r rs price); [|exact Same]. by rewrite orb_true_r.
  - left. cbn [mret io_ret]. destruct (risk_session_profit_r rs price); [|exact Same]. destruct (_ || _); [exact Same|].
    pose proof (trim_steps closed (with_expected_size remaining rs)) as Ht. cbn [when_ modify mret io_ret] in *.
    destruct (apply_staged_exit_early_take_profit_trim _ _ _ _) as [rs1 [l|e]]; (eapply still_then_stepped; [|exact Ht]); done.
  - destruct (_ || _); [by left|]. destruct (tail_target_stop E price rs) as [target|] eqn:T; [|by left]. right. by exists price, target.
  - left. cbn [mret io_ret negb]. rewrite orb_true_r. exact Same.
Qed.
End Stepping.

(** ** Runs of a session *)
Definition in_force (rs : RiskSession) : bool := positive (trailing_soft_stop_price (trail rs)).
(** Any operation, whatever it reads and whether it raises; and one that reads an orderly exchange. *)
Definition session_move (rs rs' : RiskSession) : Prop := exists E op now, rs' = (session_step E op now rs).1.
Definition orderly_move (rs rs' : RiskSession) : Prop := exists E op now, orderly E now rs /\ rs' = (session_step E op now rs).1.
(** The stop is at the locked floor or on the right side of it. *)
Definition beyond_floor (rs : RiskSession) : Prop :=
  let t := trail rs in
  if String.eqb (side rs) "long" then fle (clamp0 (locked_floor_price t)) (trailing_soft_stop_price t)
  else positive (locked_floor_price t) = true -> fle (trailing_soft_stop_price t) (locked_floor_price t).
Lemma move_framed rs rs' : session_move rs rs' -> framed rs rs'.
Proof. intros (E & op & now & ->). apply (session_step_sanely E now op). Qed.
Lemma moves_framed rs rs' : rtc session_move rs rs' -> framed rs rs'.
Proof. induction 1 as [rs|rs rs1 rs2 M _ IH]; [done|]. eapply framed_trans; [by apply move_framed|exact IH]. Qed.
Lemma fle_clamp a b : fle float_0 a -> fle a b -> fle a (clamp0 b).
Proof.
  intros H0 H. destruct (clamp0_cases b) as [[-> _]|[-> F]]; [done|].
  eapply fle_trans; [exact H|]. apply not_flt; [done|by apply nan_le in H as [_ ?]|done].
Qed.
Lemma took_beyond E now rs rs' : took E now rs rs' -> two_sided (side rs) = true -> beyond_floor rs'.
Proof.
  intros [F [M1 M2 M3 M4 M5]] S. unfold beyond_floor. cbn zeta. rewrite (framed_side _ _ F), M1.
  destruct (String.eqb (side rs) "long"); [by apply M3|by apply M4].
Qed.

(** *** The tail is tightened *)
Lemma current_stop_in_force rs a b : in_force rs = true ->
  clamp0 (float_or (float_or (float_or (trailing_soft_stop_price (trail rs)) a) b) float_0) = trailing_soft_stop_price (trail rs).
Proof. intros H. rewrite (or_positive _ a H), (or_positive _ b H), (or_positive _ float_0 H). by apply positive_clamp. Qed.
(** The target of a long is no lower than the stop, of a short no higher. *)
Lemma target_of_a_long E price rs target : tail_target_stop E price rs = Some target -> side rs = "long" -> in_force rs = true ->
  fle (trailing_soft_stop_price (trail rs)) target.
Proof.
  intros H S I. revert H. unfold tail_target_stop. rewrite S. cbn zeta. rewrite current_stop_in_force by exact I. simpl.
  unfold in_force in I. rewrite I. destruct (_ || _); [done|]. destruct (SFleb _ (float_add _ _)); [done|]. intros [= <-].
  apply max_ge_first. by apply (positive_clamp _ I).
Qed.
Lemma target_of_a_short E price rs target : tail_target_stop E price rs = Some target -> side rs = "short" -> in_force rs = true ->
  fle target (trailing_soft_stop_price (trail rs)).
Proof.
  intros H S I. revert H. unfold tail_target_stop. rewrite S. cbn zeta. rewrite current_stop_in_force by exact I. simpl.
  unfold in_force in I. rewrite I. destruct (_ || _); [done|]. destruct (float_ge _ (float_sub _ _)); [done|]. intros [= <-].
  apply min_le_first. by apply (positive_clamp _ I).
Qed.
Lemma clamp_taken x : nonpositive (clamp0 x) = false -> positive x = true /\ clamp0 x = x.
Proof. destruct (clamp0_cases x) as [[-> H]|[-> _]]; [by intros _|done]. Qed.
Lemma tighten_long E price rs target : tail_target_stop E price rs = Some target -> side rs = "long" ->
  let rs' := tighten_tail_stop target rs in
  fle (clamp0 (trailing_soft_stop_price (trail rs))) (clamp0 (trailing_soft_stop_price (trail rs'))) /\ (beyond_floor rs -> beyond_floor rs').
Proof.
  intros HT S. cbn zeta. unfold tighten_tail_stop. destruct (nonpositive (clamp0 target)) eqn:N; [split; [apply fle_refl, clamp0_num|done]|].
  destruct (clamp_taken _ N) as [Hp ->]. unfold beyond_floor. cbn -[clamp0]. rewrite S. cbn -[clamp0].
  rewrite (proj1 (positive_clamp _ Hp)).
  destruct (clamp0_cases (trailing_soft_stop_price (trail rs))) as [[-> I]|[-> I]].
  - pose proof (target_of_a_long _ _ _ _ HT S I) as Hle. split; [exact Hle|]. intros B.
    apply fle_trans with target; [|by apply fle_refl, (positive_clamp _ Hp)].
    destruct (max_cases (clamp0 (locked_floor_price (trail rs))) target) as [->| ->]; rewrite ?clamp0_idem, ?(proj1 (positive_clamp _ Hp)).
    + by eapply fle_trans.
    + by apply fle_refl, (positive_clamp _ Hp).
  - split; [by apply flt_fle|]. intros B.
    destruct (max_cases (clamp0 (locked_floor_price (trail rs))) target) as [->| ->]; rewrite ?clamp0_idem, ?(proj1 (positive_clamp _ Hp));
      [|by apply fle_refl, (positive_clamp _ Hp)].
    eapply fle_trans; [exact B|]. apply fle_trans with float_0; [|by apply flt_fle].
    apply not_flt; [done|by apply nan_le in B as [_ ?]|exact I].
Qed.
Lemma tighten_short E price rs target : tail_target_stop E price rs = Some target -> side rs = "short" -> in_force rs = true -> beyond_floor rs ->
  let rs' := tighten_tail_stop target rs in
  in_force rs' = true /\ beyond_floor rs' /\ fle (trailing_soft_stop_price (trail rs')) (trailing_soft_stop_price (trail rs)).
Proof.
  intros HT S I B. cbn zeta. pose proof (target_of_a_short _ _ _ _ HT S I) as Hle. unfold tighten_tail_stop.
  destruct (nonpositive (clamp0 target)) eqn:N; [split; [exact I|split; [exact B|by apply fle_refl, (positive_clamp _ I)]]|].
  destruct (clamp_taken _ N) as [Hp ->]. unfold in_force, beyond_floor in *. cbn -[clamp0]. rewrite S in *. cbn -[clamp0] in *.
  split; [exact Hp|]. split; [|exact Hle]. intros _.
  assert (R : fle target target) by by apply fle_refl, (positive_clamp _ Hp).
  destruct (positive (clamp0 (locked_floor_price (trail rs)))) eqn:P; [|exact R].
  unfold float_min. destruct (SFltb _ _); [exact R|]. destruct (clamp0_cases (locked_floor_price (trail rs))) as [[Q F]|[Q _]]; rewrite Q in *; [|done].
  eapply fle_trans; [exact Hle|by apply B].
Qed.

(** *** After the second target *)
Lemma long_tightens rs rs' : session_move rs rs' -> tp2_hit (stages rs) = true -> side rs = "long" ->
  fle (clamp0 (trailing_soft_stop_price (trail rs))) (clamp0 (trailing_soft_stop_price (trail rs'))) /\ (beyond_floor rs -> beyond_floor rs').
Proof.
  intros (E & op & now & ->) H2 S. destruct (session_step_after_second E now op rs H2) as [[F M]|(price & target & HT & ->)]; [|by eapply tighten_long].
  destruct M as [M|M].
  - rewrite M. split; [apply fle_refl, clamp0_num|]. unfold beyond_floor. by rewrite M, (framed_side _ _ F).
  - split; [|intros _; eapply took_beyond; [exact M|by rewrite S]]. destruct M as [_ [_ _ M _ _]]. rewrite S in M. apply fle_clamp; [apply clamp0_nonneg|by apply M].
Qed.
Lemma short_tightens rs rs' : orderly_move rs rs' -> tp2_hit (stages rs) = true -> side rs = "short" ->
  recorded (trailing_lowest_close (trail rs)) -> in_force rs = true -> beyond_floor rs ->
  in_force rs' = true /\ beyond_floor rs' /\ fle (trailing_soft_stop_price (trail rs')) (trailing_soft_stop_price (trail rs)).
Proof.
  intros (E & op & now & O & ->) H2 S R I B. destruct (session_step_after_second E now op rs H2) as [[F M]|(price & target & HT & ->)]; [|by eapply tighten_short].
  destruct M as [M|M].
  - unfold in_force, beyond_floor in *. rewrite M, (framed_side _ _ F). split; [exact I|]. split; [exact B|]. by apply fle_refl, (positive_clamp _ I).
  - pose proof (took_beyond _ _ _ _ M ltac:(by rewrite S)) as Hb. destruct M as [_ [_ _ _ M4 M5]]. rewrite S in M4, M5.
    split; [by apply M5|]. split; [exact Hb|]. by apply M4.
Qed.
Lemma orderly_session_move rs rs' : orderly_move rs rs' -> session_move rs rs'.
Proof. intros (E & op & now & _ & H). by exists E, op, now. Qed.
Lemma orderly_records rs rs' : rtc orderly_move rs rs' -> side rs = "short" ->
  recorded (trailing_lowest_close (trail rs)) -> recorded (trailing_lowest_close (trail rs')).
Proof.
  induction 1 as [rs|rs rs1 rs2 M _ IH]; [done|]. intros S R. apply IH.
  - by rewrite (framed_side _ _ (move_framed _ _ (orderly_session_move _ _ M))).
  - destruct M as (E & op & now & O & ->). by apply (session_step_sanely E now op).
Qed.
Lemma longs_tighten rs rs' : rtc session_move rs rs' -> tp2_hit (stages rs) = true -> side rs = "long" ->
  fle (clamp0 (trailing_soft_stop_price (trail rs))) (clamp0 (trailing_soft_stop_price (trail rs'))) /\ (beyond_floor rs -> beyond_floor rs').
Proof.
  induction 1 as [rs|rs rs1 rs2 M _ IH]; intros H2 S; [split; [apply fle_refl, clamp0_num|done]|].
  destruct (long_tightens _ _ M H2 S) as [G1 B1]. destruct (move_framed _ _ M) as [S1 _ [_ H1]].
  destruct IH as [G2 B2]; [by apply H1|by rewrite S1|]. split; [by eapply fle_trans|auto].
Qed.
Lemma shorts_tighten rs rs' : rtc orderly_move rs rs' -> tp2_hit (stages rs) = true -> side rs = "short" ->
  recorded (trailing_lowest_close (trail rs)) -> in_force rs = true -> beyond_floor rs ->
  in_force rs' = true /\ beyond_floor rs' /\ fle (trailing_soft_stop_price (trail rs')) (trailing_soft_stop_price (trail rs)).
Proof.
  induction 1 as [rs|rs rs1 rs2 M _ IH]; intros H2 S R I B; [split; [done|split; [done|by apply fle_refl, (positive_clamp _ I)]]|].
  destruct (short_tightens _ _ M H2 S R I B) as (I1 & B1 & L1). destruct (move_framed _ _ (orderly_session_move _ _ M)) as [S1 _ [_ H1]].
  destruct IH as (I2 & B2 & L2); [by apply H1|by rewrite S1|by eapply orderly_records; [apply rtc_once, M|..]|done|done|].
  split; [exact I2|]. split; [exact B2|by eapply fle_trans].
Qed.
(** A session is built with no close recorded, before its targets. *)
Lemma built_starts E side name size entry stop params protect buffer rs :
  build_staged_risk_session_from_stop E side name size entry stop params protect buffer = Some rs ->
  two_sided (RiskSession.side rs) = true /\ tp2_hit (stages rs) = false /\ in_force rs = false /\ recorded (trailing_lowest_close (trail rs)).
Proof.
  unfold build_staged_risk_session_from_stop. destruct (negb (positive _)); [done|]. cbn zeta. destruct (negb (two_sided side)) eqn:S; [done|].
  destruct (_ || _ || _); [done|]. destruct (nonpositive (float_abs _)); [done|].
  destruct (build_risk_session_stage_exit_legs _ _ _ _ _) as [[legs stops]|]; [|done]. simpl. destruct (_ || _); [done|].
  destruct (protect_stage_tp1_against_position_entry _ _ _ _ _) as [legs' tp1]. intros [= <-].
  match goal with |- context [initialize_risk_session_cross_asset_reference E (set_stage_soft_hard_stop E ?x ?p ?b)] =>
    pose proof (set_stage_still E x p b) as [[F1 _ _] F2]; set (y := set_stage_soft_hard_stop E x p b) in *;
    assert (H : tp2_hit (stages y) = false) by (unfold y, set_stage_soft_hard_stop, risk_exchange_hard_stop_price; destruct b; [by destruct (nonpositive _)|done]) end.
  assert (K : RiskSession.side (initialize_risk_session_cross_asset_reference E y) = RiskSession.side y
              /\ stages (initialize_risk_session_cross_asset_reference E y) = stages y
              /\ trail (initialize_risk_session_cross_asset_reference E y) = trail y).
  { unfold initialize_risk_session_cross_asset_reference. cbn zeta. repeat case_match; done. }
  destruct K as (K1 & K2 & K3). unfold in_force. rewrite K1, K2, K3, F1, F2. apply negb_false_iff in S. split; [exact S|]. split; [exact H|]. split; [done|by left].
Qed.

(** C12. From the second target on, protection only tightens, whatever a session goes through
    (targets, bars, trims, targets taken early, locks of the tail, retargeting, checks, reads of the
    state file, operations that raise): a stage that was reached stays reached at all times; the trailing
    stop of a long is never lowered and stays beyond its locked floor; that of a short, when every
    operation reads an orderly exchange ([orderly]: no price aligned to zero, closes that are prices, no
    average range that overflows) and its recorded low is a price, stays in force, is never raised and
    stays below its floor.  And a bar that is taken puts the stop beyond the floor, and of a short in force. *)
Theorem protection_only_tightens rs rs' :
  rtc session_move rs rs' ->
  (tp1_hit (stages rs) = true -> tp1_hit (stages rs') = true)
  /\ (tp2_hit (stages rs) = true -> tp2_hit (stages rs') = true)
  /\ (tp2_hit (stages rs) = true -> side rs = "long" ->
      fle (clamp0 (trailing_soft_stop_price (trail rs))) (clamp0 (trailing_soft_stop_price (trail rs'))) /\ (beyond_floor rs -> beyond_floor rs'))
  /\ (rtc orderly_move rs rs' -> side rs = "short" -> recorded (trailing_lowest_close (trail rs)) ->
      recorded (trailing_lowest_close (trail rs'))
      /\ (tp2_hit (stages rs) = true -> in_force rs = true -> beyond_floor rs ->
          in_force rs' = true /\ beyond_floor rs' /\ fle (trailing_soft_stop_price (trail rs')) (trailing_soft_stop_price (trail rs))))
  /\ (forall E now, (update_staged_risk_session_trailing_state E rs' now).2 = true -> two_sided (side rs') = true ->
      beyond_floor (update_staged_risk_session_trailing_state E rs' now).1
      /\ (side rs' = "short" -> orderly E now rs' -> recorded (trailing_lowest_close (trail rs')) ->
          in_force (update_staged_risk_session_trailing_state E rs' now).1 = true)).
Proof.
  intros H. destruct (moves_framed _ _ H) as [_ _ [F1 F2]]. split_and!; [exact F1|exact F2| | |].
  - intros H2 S. by apply longs_tighten.
  - intros O S R. split; [by eapply orderly_records|]. intros H2 I B. by apply shorts_tighten.
  - intros E now T S. destruct (update_takes E now rs') as [U|[_ M]]; [rewrite U in T; discriminate|].
    split; [by eapply took_beyond|]. intros S' O R. destruct M as [_ [_ _ _ _ M]]. rewrite S' in M. by apply M.
Qed.

(** ** After the targets *)
Lemma complete_tp1_runs E now rs rs1 : complete_tp1 E now rs = (rs1, Ok tt) ->
  still rs rs1 /\ tp1_hit (stages rs1) = true /\ tp2_hit (stages rs1) = tp2_hit (stages rs)
  /\ take_profit_legs (stages rs1) = without_leg "stage_tp1" (take_profit_legs (stages rs)).
Proof.
  intros H. pose proof (complete_tp1_stays E now rs) as S. rewrite H in S. split; [exact S|]. revert H. unfold complete_tp1.
  unfold mbind, io_bind, modify, read, lift, id. cbn -[staged_tp_target_size_abs set_stage_soft_hard_stop].
  destruct (staged_tp_target_size_abs _ _ _) as [target|]; [|done]. intros [= <-].
  destruct (positive _); [|done]. unfold set_stage_soft_hard_stop, risk_exchange_hard_stop_price. by destruct (nonpositive _).
Qed.
Lemma complete_tp2_runs E now rs rs1 : complete_tp2 E now rs = (rs1, Ok tt) ->
  staged_exit_enabled (plan rs) = true -> completed_since_entry E rs now = [] ->
  still rs rs1 /\ tp2_hit (stages rs1) = true /\ take_profit_legs (stages rs1) = [] /\ stop_loss_legs (stages rs1) = []
  /\ stop_loss_price (soft rs1) = (if positive (trailing_soft_stop_price (trail rs))
                                   then trailing_soft_stop_price (trail rs) else clamp0 (locked_floor_price (trail rs))).
Proof.
  intros H He Hc. revert H. unfold complete_tp2, mbind, io_bind, modify, read, lift, id.
  cbn -[staged_tp_target_size_abs update_staged_risk_session_trailing_state].
  destruct (staged_tp_target_size_abs _ _ _) as [target|]; [|done].
  set (rs2 := with_stages _ (mark_hit2 E now rs)).
  assert (U : update_staged_risk_session_trailing_state E rs2 now = (rs2, false)).
  { unfold update_staged_risk_session_trailing_state.
    replace (negb (staged_exit_enabled (plan rs2)) || negb (tp2_hit (stages rs2))) with false by (symmetry; exact (f_equal (fun b => negb b || false) He)).
    cbn zeta. destruct (last _); [|done]. destruct (_ <=? _); [done|]. destruct (atr_from_completed_candles _ _); [|done]. destruct (nonpositive _); [done|].
    replace (completed_since_entry E rs2 now) with (completed_since_entry E rs now) by done. rewrite Hc. done. }
  rewrite U. cbn -[clamp0]. intros [= <-]. cbn -[clamp0]. split_and!; try done.
  destruct (clamp0_cases (trailing_soft_stop_price (trail rs))) as [[-> F]|[-> F]]; unfold positive; rewrite F; [|done].
  destruct (nonpositive (trailing_soft_stop_price (trail rs))) eqn:L; [|done].
  apply nonpositive_not_positive in L. unfold positive, flt in *. congruence.
Qed.

(** C17. The second target can leave the rest of a position without a stop: when no bar of the
    trailing timeframe has closed since the session began (or the candles cannot be read),
    the locked floor is written into [stop_loss_price] and no rule enforces it.  From then
    on, whatever the prices, neither rule of the stop fires and no order is placed, until the
    trailing stop is written: that every later session of the run with the same trailing stop is so is
    the second part. *)
Theorem second_target_can_leave_no_stop E rs rs' keys now :
  staged_exit_enabled (plan rs) = true -> tp2_hit (stages rs) = false -> "take_profit::stage_tp2" ∈ keys ->
  nonpositive (trailing_soft_stop_price (trail rs)) = true -> completed_since_entry E rs now = [] ->
  update_staged_risk_session_after_completed_keys E keys now rs = (rs', Ok true) ->
  (tp2_hit (stages rs') = true /\ stop_loss_price (soft rs') = clamp0 (locked_floor_price (trail rs))
   /\ iter_risk_session_exit_order_specs E rs' = Ok [])
  /\ forall rs'', rtc session_move rs' rs'' -> trail rs'' = trail rs' -> forall E' now',
     risk_session_soft_stop_candidate E' rs'' now' = (rs'', None) /\ staged_risk_session_soft_stop_trigger_candidate E' rs'' now' = None.
Proof.
  intros He Hh Hk Hs Hc. unfold update_staged_risk_session_after_completed_keys, mbind, io_bind at 1. unfold read at 1. unfold id.
  rewrite He, Hh. rewrite (bool_decide_eq_true_2 _ Hk). cbn [negb andb orb]. cbn zeta.
  set (first := bool_decide _ && _). unfold mbind, io_bind.
  destruct (when_ first (complete_tp1 E now) rs) as [rs1 [[]|e]] eqn:W; [|done].
  assert (S1 : still rs rs1 /\ tp2_hit (stages rs1) = tp2_hit (stages rs)).
  { destruct first; simpl in W; [destruct (complete_tp1_runs _ _ _ _ W) as (? & _ & ? & _); auto|]. by injection W as <-. }
  destruct S1 as [[F1 T1] _]. unfold when_.
  destruct (complete_tp2 E now rs1) as [rs2 [[]|e]] eqn:W2; [|done]. intros [= <-].
  assert (Hc1 : completed_since_entry E rs1 now = []).
  { rewrite <- Hc. unfold completed_since_entry, completed_candles_for_risk_session, atr_bars. by rewrite (framed_plan _ _ F1). }
  destruct (complete_tp2_runs E now rs1 rs2 W2 ltac:(by rewrite (framed_plan _ _ F1)) Hc1) as ([F2 T2] & H2 & L1 & L2 & P).
  pose proof (nonpositive_not_positive _ Hs) as Hp.
  rewrite T1, Hp in P. split.
  - split_and!; [done|done|]. unfold iter_risk_session_exit_order_specs. rewrite L1, L2. cbn zeta. by destruct (nonpositive (float_abs _)).
  - intros rs'' R T E' now'. assert (H2' : tp2_hit (stages rs'') = true).
    { clear - R H2. induction R as [|? ? ? M _ IH]; [done|]. apply IH. apply move_framed in M as [_ _ [_ M]]. auto. }
    unfold risk_session_soft_stop_candidate, staged_risk_session_soft_stop_trigger_candidate. cbn zeta.
    rewrite H2', orb_true_r, T, T2, T1, Hs.
    split; [destruct (risk_soft_stop_enabled (settings E')); reflexivity|destruct (staged_exit_enabled (plan rs'')); reflexivity].
Qed.

Lemma update_keeps_targets E rs now :
  take_profit_legs (stages (update_staged_risk_session_trailing_state E rs now).1) = take_profit_legs (stages rs).
Proof.
  unfold update_staged_risk_session_trailing_state. destruct (_ || _); [done|]. cbn zeta. destruct (last _); [|done].
  destruct (_ <=? _); [done|]. destruct (atr_from_completed_candles _ _); [|done]. destruct (nonpositive _); [done|].
  destruct (py_max _); [|done]. destruct (py_min _); [|done].
  destruct (String.eqb _ _); [by destruct (positive _)|]. destruct (String.eqb _ _); [by destruct (positive _)|done].
Qed.
Lemma without_leg_gone name legs : List.find (fun leg => String.eqb (l_name leg) name) (without_leg name legs) = None.
Proof.
  unfold without_leg. induction legs as [|leg legs IH]; simpl; [done|].
  destruct (String.eqb (l_name leg) name) eqn:Q; simpl; [done|]. by rewrite Q.
Qed.

(** C39. A completed target forgets its share: once the first target is reported its leg is no
    longer listed, and every later use of its size takes 30% of the position, whatever share
    the session was built with.  So the size completed at the target is cut down to 30% when
    the session is read back from its file, and a later trim is rescaled by the wrong share. *)
Theorem completed_target_forgets_its_share E rs rs' keys now b :
  staged_exit_enabled (plan rs) = true -> tp1_hit (stages rs) = false -> "take_profit::stage_tp1" ∈ keys ->
  update_staged_risk_session_after_completed_keys E keys now rs = (rs', Ok b) ->
  staged_tp_leg_fraction rs' "stage_tp1" = float_quotient 3 10
  /\ forall E', staged_tp_target_size_abs E' rs' "stage_tp1"
                = align_risk_exit_size_to_precision E' (clamp0 (float_mul (float_abs (size_basis rs')) (float_quotient 3 10))).
Proof.
  intros He Hh Hk H. assert (Hf : staged_tp_leg_fraction rs' "stage_tp1" = float_quotient 3 10).
  2: { split; [done|]. intros E'. unfold staged_tp_target_size_abs. by rewrite Hf. }
  revert H. unfold update_staged_risk_session_after_completed_keys, mbind, io_bind at 1. unfold read at 1. unfold id.
  rewrite He, Hh, (bool_decide_eq_true_2 _ Hk). cbn [negb andb orb]. cbn zeta. unfold when_, mbind, io_bind.
  destruct (complete_tp1 E now rs) as [rs1 [[]|e]] eqn:W; [|done].
  destruct (complete_tp1_runs _ _ _ _ W) as (_ & _ & _ & L).
  assert (Hf : staged_tp_leg_fraction rs1 "stage_tp1" = float_quotient 3 10).
  { unfold staged_tp_leg_fraction. by rewrite L, without_leg_gone. }
  destruct (_ && _); simpl; [|by intros [= <- <-]]. unfold complete_tp2, mbind, io_bind, modify, read, lift, id.
  cbn -[staged_tp_target_size_abs update_staged_risk_session_trailing_state staged_tp_leg_fraction].
  destruct (staged_tp_target_size_abs _ _ _) as [target|]; [|done].
  set (rs2 := with_stages _ (mark_hit2 E now rs1)).
  pose proof (update_keeps_targets E rs2 now) as G.
  intros [= <- <-]. unfold staged_tp_leg_fraction. cbn -[update_staged_risk_session_trailing_state]. by rewrite G.
Qed.

(** ** A position of ten at 100, with the low-liquidity shares of the shipped profile *)
Module RiskExample.
Definition fl (n : Z) : spec_float := float_int n.
Definition agent : RiskSettings :=
  {| risk_soft_stop_enabled := true; risk_soft_stop_confirm_timeframe := "1m";
     risk_soft_stop_min_buffer_usd := float_quotient 5 100; risk_soft_stop_atr_multiple := float_quotient 1 10;
     risk_soft_stop_r_multiple := float_quotient 5 100; risk_trailing_timeframe := "15m"; risk_trailing_atr_period := 2;
     risk_trailing_atr_lookback_bars := 200; position_size_change_tol := float_0; risk_time_decay_tp2_tail_lock_buffer_r := float_quotient 15 100;
     risk_basis_profit_lock_tail_buffer_r := float_quotient 15 100;
     risk_cross_asset_soft_stop_enabled := false; risk_cross_asset_soft_stop_symbol := "SP500";
     risk_cross_asset_soft_stop_poll_seconds := fl 10; risk_cross_asset_soft_stop_cache_max_age_seconds := fl 30;
     risk_cross_asset_soft_stop_start_pct := float_quotient 4 100; risk_cross_asset_soft_stop_full_pct := float_quotient 14 100;
     risk_cross_asset_soft_stop_max_buffer_r := float_quotient 2 10; risk_cross_asset_soft_stop_release_pct := float_quotient 5 100 |}.
Definition row (t h l c : Z) : CandleRow := {| r_t := Some (t * 1000); r_h := Some (fl h); r_l := Some (fl l); r_c := Some (fl c) |}.
(** The exchange at a time in seconds, with the bars it answers; it keeps prices as they are. *)
Definition at_ (now : Z) (bars : list CandleRow) : Env :=
  {| settings := agent; symbol := "XYZ"; get_candles_snapshot := fun _ _ _ => Some bars;
     align_price_to_wire := fun _ price => Some price; get_sz_decimals := fun _ => Ok 2; time_time := fl now;
     pow10 := fun n => float_quotient 1 (10 ^ (- n));
     cross_asset_cache := {| ca_symbol := ""; ca_price := None; ca_updated_at := float_0 |} |}.
Definition params : StagedExitParams :=
  {| tp1_r_multiple := fl 1; tp2_r_multiple := fl 2; tp1_close_fraction := float_quotient 4 10; tp2_close_fraction := float_quotient 4 10;
     post_tp1_stop_r_multiple := float_neg (float_quotient 4 10); post_tp2_locked_r_multiple := fl 1;
     trailing_soft_atr_multiple := float_quotient 25 10; trailing_hard_atr_multiple := float_quotient 35 10; liquidity_band := "low_liquidity" |}.
(** Four bars before [T], half a minute before the entry, [n] bars that climb by three after it, a bar that falls. *)
Definition T : Z := 900000.
Definition BAR : Z := 900.
Definition before : list CandleRow := [row (T - 4 * BAR) 101 99 100; row (T - 3 * BAR) 101 99 100; row (T - 2 * BAR) 101 99 100; row (T - BAR) 101 99 100].
Definition climb (n : nat) : list CandleRow :=
  before ++ map (fun k => let c := 103 + 3 * Z.of_nat k in row (T + BAR * Z.of_nat k) (c + 1) (c - 2) c) (seq 0 n).
Definition falling : list CandleRow := climb 12 ++ [row (T + 12 * BAR) 136 118 119].
Definition built (side : string) (size stop : Z) : option RiskSession :=
  build_staged_risk_session_from_stop (at_ (T + 30) before) side "plan" (fl size) (fl 100) (fl stop) params float_0 true.
Definition no_session : RiskSession :=
  {| side := ""; expected_size := float_0;
     plan := {| plan_name := ""; start_time := float_0; initial_size_abs := float_0; staged_exit_enabled := false; initial_entry_price := float_0;
                initial_stop_price := float_0; initial_risk_price_distance := float_0; tp1_price := float_0; tp2_price := float_0;
                post_tp1_stop_price := float_0; staged_exit_liquidity_band := ""; trailing_timeframe := ""; trailing_atr_period := 0;
                trailing_atr_lookback_bars := 0; trailing_soft_atr_mult := float_0; trailing_hard_atr_mult := float_0 |};
     stages := {| tp1_hit := false; tp2_hit := false; tp1_hit_at := float_0; tp2_hit_at := float_0; staged_exit_size_basis_abs := float_0;
                  tp1_completed_size_abs := float_0; tp2_completed_size_abs := float_0; take_profit_legs := []; stop_loss_legs := []; executed_leg_names := [] |};
     soft := {| stop_loss_price := float_0; active_soft_stop_price := float_0; active_hard_stop_price := float_0; soft_stop_breach_since := float_0;
                soft_stop_last_breach_price := float_0; exchange_hard_stop_buffer_usd := float_0; exchange_hard_stop_min_buffer_usd := float_0;
                exchange_hard_stop_atr_buffer_usd := float_0; exchange_hard_stop_r_buffer_usd := float_0; exchange_hard_stop_atr_value := float_0 |};
     trail := {| locked_floor_price := float_0; trailing_highest_close := float_0; trailing_lowest_close := float_0; trailing_soft_stop_price := float_0;
                 trailing_hard_stop_price := float_0; trailing_last_bar_ms := 0; trailing_last_close_price := float_0 |};
     cross := {| cross_asset_soft_stop_symbol := ""; cross_asset_entry_price := float_0; cross_asset_entry_time := float_0; cross_asset_peak_adverse_pct := float_0 |} |}.
Definition long : RiskSession := Eval vm_compute in default no_session (built "long" 10 90).
Definition short : RiskSession := Eval vm_compute in default no_session (built "short" (-10) 110).
Definition step (bars : list CandleRow) (now : Z) (op : SessionOp) (rs : RiskSession) : RiskSession := (session_step (at_ now bars) op (fl now) rs).1.
Definition tp1 : list string := ["take_profit::stage_tp1"].
Definition tp2 : list string := ["take_profit::stage_tp2"].

(** The stop of each stage: a tenth of the average true range is less than a twentieth of R. *)
Example the_stages_of_a_long :
  let one := step before (T + 60) (Completed tp1) long in
  (active_soft_stop_price (soft long), tp1_price (plan long), active_soft_stop_price (soft one), tp1_completed_size_abs (stages one))
  = (float_quotient 895 10, fl 110, float_quotient 955 10, fl 4).
Proof. vm_compute. reflexivity. Qed.
(** Sizes: the first target of 40% is read back as 30%. *)
Example a_target_shrinks_in_the_file :
  let one := step before (T + 60) (Completed tp1) long in
  let read_back := step before (T + 60) Normalize one in
  (tp1_completed_size_abs (stages one), tp1_completed_size_abs (stages read_back)) = (fl 4, fl 3).
Proof. vm_compute. reflexivity. Qed.
(** After the second target the stop trails the closes by two and a half ranges, until a
    close falls through it. *)
Definition after (n : Z) : Z := T + n * BAR.
Definition trailing_long : RiskSession :=
  Eval vm_compute in step (climb 8) (after 8) (Completed tp2) (step before (T + 60) (Completed tp1) long).
Definition trailed_long : RiskSession := Eval vm_compute in step (climb 12) (after 12) TrailUpdate trailing_long.
Example the_stop_trails :
  let fallen := step falling (after 13) TrailUpdate trailed_long in
  (map (fun rs => float_trunc (trailing_soft_stop_price (trail rs))) [long; trailing_long; trailed_long; fallen],
   map (fun bars => st_close <$> staged_risk_session_soft_stop_trigger_candidate (at_ (after 13) bars) fallen (fl (after 13))) [climb 12; falling])
  = ([0; 114; 126; 126], [None; Some (fl 119)]).
Proof. vm_compute. reflexivity. Qed.

(** The witnesses. *)
Lemma moves bars now op rs : session_move rs (step bars now op rs).
Proof. by exists (at_ now bars), op, (fl now). Qed.
(** The example exchange is orderly: it keeps prices, and its closes and ranges are numbers. *)
Definition orderly_bars (bars : list CandleRow) (now : Z) (rs : RiskSession) : bool :=
  forallb (fun c => priced (close c)) (completed_since_entry (at_ now bars) rs (fl now))
  && match atr_from_completed_candles (latest_completed_candles_for_risk_session (at_ now bars) rs (fl now) (trailing_timeframe (plan rs)) (atr_bars rs) true)
             (int_or (trailing_atr_period (plan rs)) 14) with Some atr => negb (is_nan atr) | None => true end
  && positive (float_or (trailing_soft_atr_mult (plan rs)) (float_quotient 25 10)).
Lemma orderly_at bars now rs : orderly_bars bars now rs = true -> orderly (at_ now bars) (fl now) rs.
Proof.
  unfold orderly_bars. intros [[H1 H2]%andb_true_iff H3]%andb_true_iff. split; [| | |exact H3].
  - intros price Hp. unfold align_price_for_symbol. cbn zeta. rewrite (proj1 (positive_clamp _ Hp)).
    destruct (nonpositive price) eqn:N; [by rewrite (nonpositive_not_positive _ N) in Hp|]. simpl. by rewrite or_positive.
  - apply Forall_forall. intros c Hc. rewrite forallb_forall in H1. apply H1. by apply list_elem_of_In.
  - intros atr A. rewrite A in H2. by apply negb_true_iff.
Qed.
Lemma orderly_moves bars now op rs : orderly_bars bars now rs = true -> orderly_move rs (step bars now op rs).
Proof. intros H. exists (at_ now bars), op, (fl now). split; [by apply orderly_at|done]. Qed.
(** Of a long after its second target: bars that climb, then a lock of its tail. *)
Definition locked_long : RiskSession := Eval vm_compute in step (climb 12) (after 12) (LockTail (fl 135)) trailed_long.
Lemma climb_moves : rtc session_move trailing_long locked_long.
Proof.
  assert (H1 : session_move trailing_long trailed_long).
  { replace trailed_long with (step (climb 12) (after 12) TrailUpdate trailing_long) by (vm_compute; reflexivity). apply moves. }
  assert (H2 : session_move trailed_long locked_long).
  { replace locked_long with (step (climb 12) (after 12) (LockTail (fl 135)) trailed_long) by (vm_compute; reflexivity). apply moves. }
  by eapply rtc_l, rtc_once.
Qed.
(** Of a short: bars that fall by three, before and after. *)
Definition slide (n : nat) : list CandleRow :=
  before ++ map (fun k => let c := 97 - 3 * Z.of_nat k in row (T + BAR * Z.of_nat k) (c + 2) (c - 1) c) (seq 0 n).
Definition trailing_short : RiskSession :=
  Eval vm_compute in step (slide 8) (after 8) (Completed tp2) (step before (T + 60) (Completed tp1) short).
Definition trailed_short : RiskSession := Eval vm_compute in step (slide 12) (after 12) TrailUpdate trailing_short.
Lemma slide_moves : rtc orderly_move trailing_short trailed_short.
Proof.
  replace trailed_short with (step (slide 12) (after 12) TrailUpdate trailing_short) by (vm_compute; reflexivity).
  apply rtc_once, orderly_moves. vm_compute. reflexivity.
Qed.
Example stops_of_the_examples :
  map (fun rs => float_trunc (trailing_soft_stop_price (trail rs))) [trailing_long; trailed_long; locked_long; trailing_short; trailed_short]
  = [114; 126; 133; 85; 73].
Proof. vm_compute. reflexivity. Qed.
Lemma protection_only_tightens_witness :
  (fle (clamp0 (trailing_soft_stop_price (trail trailing_long))) (clamp0 (trailing_soft_stop_price (trail locked_long))) /\ beyond_floor locked_long)
  /\ (in_force trailed_short = true /\ beyond_floor trailed_short
      /\ fle (trailing_soft_stop_price (trail trailed_short)) (trailing_soft_stop_price (trail trailing_short))).
Proof.
  split.
  - destruct (protection_only_tightens trailing_long locked_long climb_moves) as (_ & _ & H & _). destruct (H eq_refl eq_refl) as [H1 H2].
    split; [exact H1|]. apply H2. vm_compute. reflexivity.
  - destruct (protection_only_tightens trailing_short trailed_short) as (_ & _ & _ & H & _).
    { eapply rtc_subrel; [exact orderly_session_move|exact slide_moves]. }
    destruct (H slide_moves eq_refl) as [_ H']; [right; vm_compute; reflexivity|].
    apply H'; [reflexivity|vm_compute; reflexivity|]. intros _. vm_compute. reflexivity.
Defined.
Definition rushed : RiskSession := Eval vm_compute in step before (T + 120) (Completed (tp1 ++ tp2)) long.
Lemma rushed_completes :
  update_staged_risk_session_after_completed_keys (at_ (T + 120) before) (tp1 ++ tp2) (fl (T + 120)) long = (rushed, Ok true).
Proof. vm_compute. reflexivity. Qed.
(** Both targets within two minutes of the entry: the floor at 110 is recorded, and a close
    at 50 fires nothing. *)
Definition crashed : list CandleRow := before ++ [row (T + 120) 100 50 50].
Lemma second_target_can_leave_no_stop_witness :
  stop_loss_price (soft rushed) = fl 110
  /\ risk_session_soft_stop_candidate (at_ (T + 200) crashed) rushed (fl (T + 200)) = (rushed, None)
  /\ staged_risk_session_soft_stop_trigger_candidate (at_ (T + 200) crashed) rushed (fl (T + 200)) = None.
Proof.
  destruct (second_target_can_leave_no_stop (at_ (T + 120) before) long rushed (tp1 ++ tp2) (fl (T + 120))) as [(_ & H & _) H'].
  - reflexivity.
  - reflexivity.
  - apply (bool_decide_unpack _). vm_compute. exact I.
  - vm_compute. reflexivity.
  - vm_compute. reflexivity.
  - apply rushed_completes.
  - split; [rewrite H; vm_compute; reflexivity|]. apply H'; reflexivity.
Defined.
Definition first_target : RiskSession := Eval vm_compute in step before (T + 60) (Completed tp1) long.
Lemma first_target_completes :
  update_staged_risk_session_after_completed_keys (at_ (T + 60) before) tp1 (fl (T + 60)) long = (first_target, Ok true).
Proof. vm_compute. reflexivity. Qed.
Lemma completed_target_forgets_its_share_witness :
  staged_tp_leg_fraction long "stage_tp1" = float_quotient 4 10 /\ staged_tp_leg_fraction first_target "stage_tp1" = float_quotient 3 10.
Proof.
  split; [vm_compute; reflexivity|].
  apply (completed_target_forgets_its_share (at_ (T + 60) before) long first_target tp1 (fl (T + 60)) true);
    [reflexivity|reflexivity|apply (bool_decide_unpack _); vm_compute; exact I|apply first_target_completes].
Defined.
Definition quotes : list Candle := omap (completed_row 900 (to_ms (fl (after 13)))) falling.
Lemma atr_definitions_agree_witness : exists row atr,
  last (wilder_atr_rows quotes 5) = Some row /\ row_atr row = Some atr /\ atr_from_completed_candles quotes 5 = Some atr.
Proof. apply (atr_definitions_agree quotes 5); [apply (bool_decide_unpack _); vm_compute; exact I|lia|vm_compute; discriminate]. Defined.
End RiskExample.
